(* ===== verification/_CoqProject ===== *)
-Q . S2P
Prelude.v
Core.v
Io.v
Outbound.v
Connect.v
Socks5Parse.v
Socks5.v
VlessParse.v
VlessConfig.v
Addons.v
MuxFrame.v
Vless.v
Inbound.v
Gate.v
AuthRate.v
ApiRate.v
Store.v
Api.v
Xudp.v
Relay.v
Udp.v
MuxRelay.v
MuxFlow.v
Socks5Relay.v
Server.v
Hello.v
Reality.v
RealityCert.v
Xhttp.v
XhttpAccept.v
NetText.v
External.v
Tls.v
HybridKx.v
Config.v
ConfigSpec.v
OutboundTls.v
Startup.v
Lifecycle.v
XhttpClient.v
Metrics.v
Logging.v
Managers.v
Pmtud.v
ClientDns.v
ClientRouting.v
ClientTun.v
TunPump.v
ClientConfig.v
ClientConfigSpec.v
Client.v
Cli.v
