(* ===== verification/Prelude.v ===== *)
(** * SkadiCore: a verification library

    SkadiCore is a proxy server in Rust (crates/ of the repository). A connection
    is accepted, optionally unwrapped by TLS, REALITY or XHTTP, its first byte tells
    SOCKS5 from VLESS, the protocol's handshake authenticates the client and yields a
    target, the outbound policy admits or refuses it, and bytes, datagrams or Mux
    sessions are relayed under idle and lifetime limits. A management API changes the
    users while the server runs. The client accepts SOCKS5 or reads a TUN device,
    intercepts DNS, and opens tunnels to the proxy; external cores (AmneziaWG,
    Hysteria2, TUIC) are configured and supervised as processes. The library models
    these parts as executable definitions and proves what makes them correct.

    ** Conventions

    Bytes are integers in a [list Z]; machine integers are [Z] with their wrap-around
    and bounds written out; times are nanoseconds, [Instant] overflow included.
    Fallible code returns [res], whose third case [Panic] is an index, slice, unwrap
    or arithmetic panic: proving [<> Panic] is proving that the code does not panic.
    Stream code runs in the monad [Io.io] over what the peer sends and what was sent
    to it; it may also be pending, and a transport may break or stall after any number
    of bytes of a write, or in the flush after it. Tokio's [select!] loops are step functions over
    events, so that a theorem about every list of events is about every schedule,
    with the partial reads that a losing branch drops. Atomics and locks are separate
    steps of several tasks; the readers of the Mux relay read, wait for the writer and
    write pieces of a frame in steps of their own, and can be aborted between any two.
    Results that the code throws away (of kill, wait, remove_file, the `ip` program) can
    be failures, and a mutex whose holder panicked is poisoned.

    ** Files

    - Prelude: results, bytes, slices, integers, text, tactics.
    - NetText: std's parser of addresses.  Io: streams and errors.
    - Core (skadi-core): endpoints, forbidden ranges, errors, sniffing, sessions,
      redaction of secrets.
    - Outbound, Connect (skadi-transport outbound_policy, tcp, tls_client,
      reality_tls_client, outbound, connect): resolution and dialling.
    - Socks5Parse, Socks5 (skadi-protocol socks5): parsers and negotiation.
    - VlessParse, VlessConfig, Addons, MuxFrame, Vless (skadi-protocol vless): request
      format, users, addons, Mux frames, handshakes of server and client.
    - Inbound (inbound.rs, skadi-server prefixed.rs): the class [InboundHandler] of the
      two protocols and the dispatcher proved against it.
    - Gate, AuthRate, ApiRate, Store, Api (skadi-server): connection gate, brute-force
      limiter, API rate limiter, users, management API.
    - Relay, Udp, Xudp, MuxRelay, MuxFlow (skadi-transport): the TCP relay, VLESS over
      UDP, the XUDP registry, the Mux relay and the theorems about its runs.
    - Socks5Relay, Server (skadi-server socks5_relay, lib, metrics): BIND, UDP
      ASSOCIATE, a connection from accept to close, the accept loop.
    - Hello, Reality (skadi-transport reality): ClientHello parser, authentication over
      the class [RealityCrypto], the decoy.
    - RealityCert (reality/cert.rs, the TLS side of reality/server.rs, the REALITY part of
      third_party/rustls-reality): the certificate of a session over the class
      [CertCrates], the hello sealed by the client, the key slot its connections share.
    - Xhttp, XhttpAccept (skadi-transport xhttp): sessions, packet reordering, request
      handling, the wait for an upgrade with the reference counts it depends on.
    - XhttpClient (xhttp/client.rs): requests, response headers, chunked codec, packets.
    - External, Managers (skadi-transport awg, hysteria2, tuic): the configuration
      files of the external cores; their processes, over the class [CoreError] of the
      three error types.
    - HybridKx (hybrid_kx.rs): the X25519MLKEM768 exchange over the class [HybridCrypto].
    - Tls, Config, ConfigSpec, OutboundTls, Startup (tls, crypto, skadi-config,
      tls_client, run_server): the certificate resolver, the configuration, what a
      valid one is, whom outbound TLS trusts, how the server is built from it.
    - Lifecycle, Metrics, Logging (skadi-server lib, api/mod, observability): the process
      with its reload on SIGHUP and its end, the HTTP endpoint of the metrics, the log
      writer that masks tokens.
    - Pmtud, ClientDns, ClientRouting, ClientTun, TunPump (skadi-client pmtud, dns, doh,
      dot, tls_peek, tun): the tunnel's MTU and ICMP, DNS interception with its encrypted
      upstreams, policy routing by `ip`, TCP and UDP of the tunnel, its packets.
    - ClientConfig, ClientConfigSpec, Client (skadi-client config, outbound, socks5,
      runner, tun start and stop): the client's configuration, what a valid one is,
      how it dials the proxy, serves SOCKS5 and starts and stops.
    - Cli (skadi-server main, genkey): the commands and the keys that are printed.

    ** What is proved

    - Wire formats: SOCKS5, VLESS, addons, Mux frames and ClientHello are parsed
      exactly, without panic on any input, and what one side builds the other reads.
    - Handshakes: negotiation succeeds exactly for the clients the protocol and the
      configuration admit, consumes exactly their bytes, and a VLESS client that is not
      admitted is sent nothing; a prober of REALITY that sends a hello in time sees the
      decoy when it can be reached, a client that knows the secrets is recognised and
      accepts the certificate made for it.
    - Data: the relays deliver what was sent, in order and once (the TCP relay under its
      limits; without any, tokio's own copy runs), and time out exactly; a Mux client can
      decode what it is sent unless a reader is aborted inside a frame; XHTTP packets are put back in order; certificates follow the requested name.
    - Resources and policy: the gate's limit under every interleaving, the balance of
      the connection gauge, bans, rates, no dial to a forbidden address.
    - Users and configuration: the store refines finite maps, the API needs its token,
      validation decides exactly the stated specification, a validated configuration
      starts without panic, a reload applies exactly the users of a valid file, the
      commands agree on what is valid, printed keys work on both sides; outbound TLS
      trusts exactly the configured authorities.
    - Client: what an application asks of the SOCKS5 inbound is what the server's
      handshake returns; encrypted DNS never leaves in the clear and system resolvers
      are blocked; UDP flows carry exactly their datagrams; the commands that applied the
      routing rules are undone one by one, once; a validated configuration builds. A core
      that ran is killed and waited for and its file removed, as far as the system lets
      these calls succeed.
    - Defects found on the way are theorems too, about the code as it is: among them
      an XHTTP accept that never returns and thereby exhausts the connection gate, a log
      writer whose lines are lost unless it is flushed, a Mux frame cut short by an abort,
      and a ban beyond the clock's range that takes the limiter down.

    ** Bounds

    Loops that are not structural run on fuel that is the length of their input (the
    addons, hello and redaction loops) or the size of the map they empty (XHTTP's
    drain), and report [Panic] when it runs out; their totality theorems show that it
    never does. Varints have at most ten groups, as in the code.

    ** Parameters

    Not in the repository, hence arguments: the resolver and the sockets, tokio's copy
    without limits, constant-time comparison, X25519, HKDF and AES-GCM (a class with
    their laws and an instance of it), rcgen, x509-parser, webpki and HMAC (another),
    ML-KEM (a third),
    rustls' handshakes, PEM, base64, hex, TOML, the file system, processes and the `ip`
    program, the wireguard and ipnet crates. Statements with such assumptions have a
    witness in which they hold.

    ** Not modelled

    The tracing subscriber, clap's parsing of arguments and hyper are libraries around
    the modelled logic, whose calls are events or arguments; poll functions that only
    delegate have no definition of their own; soak_load is a load generator for tests;
    gRPC stubs are generated; third_party/rustls-reality is vendored, and only its
    REALITY additions are modelled. *)

From Stdlib Require Import Ascii String.
From stdpp Require Import base list list_numbers numbers strings pretty gmap.

#[global] Open Scope Z_scope.
#[global] Open Scope list_scope.

(** ** Bytes, slices and machine integers *)

(** A byte of the program ([u8]) is a [Z]; [byte_ok] is its range. *)
Abbreviation bytes := (list Z).

Definition byte_ok (b : Z) : Prop := 0 <= b < 256.
Definition bytes_ok (l : bytes) : Prop := Forall byte_ok l.
Definition u16_ok (n : Z) : Prop := 0 <= n < 65536.

#[export] Instance byte_ok_dec b : Decision (byte_ok b).
Proof. unfold byte_ok. apply _. Defined.

#[export] Instance u16_ok_dec n : Decision (u16_ok n).
Proof. unfold u16_ok. apply _. Defined.

(** [x as u8], [x as u16]: truncating casts. *)
Definition as_u8 (n : Z) : Z := n mod 256.
Definition as_u16 (n : Z) : Z := n mod 65536.

(** [u16::from_be_bytes] and [u16::to_be_bytes]. *)
Definition from_be16 (hi lo : Z) : Z := hi * 256 + lo.
Definition to_be16 (n : Z) : bytes := [n / 256 mod 256; n mod 256].

(** ** Results: [Ok], [Err], or a panic of the Rust runtime *)

Inductive res (E A : Type) : Type :=
| Ok (a : A)
| Err (e : E)
| Panic.
Arguments Ok {E A} _.
Arguments Err {E A} _.
Arguments Panic {E A}.

#[export] Instance res_ret E : MRet (res E) := fun A a => Ok a.
#[export] Instance res_bind E : MBind (res E) := fun A B f m =>
  match m with
  | Ok a => f a
  | Err e => Err e
  | Panic => Panic
  end.

(** [r.map_err(f)]. *)
Definition map_err {E F A} (f : E -> F) (r : res E A) : res F A :=
  match r with
  | Ok a => Ok a
  | Err e => Err (f e)
  | Panic => Panic
  end.

(** [l[i]]: an index out of range panics. *)
Definition idx {E} (l : bytes) (i : nat) : res E Z :=
  match l !! i with
  | Some b => Ok b
  | None => Panic
  end.

(** [&l[a..b]]: an inverted or overlong range panics. *)
Definition slice {E} (l : bytes) (a b : nat) : res E bytes :=
  if (a <=? b)%nat && (b <=? length l)%nat then Ok (take (b - a) (drop a l)) else Panic.

(** [&l[a..]]. *)
Definition slice_from {E} (l : bytes) (a : nat) : res E bytes :=
  if (a <=? length l)%nat then Ok (drop a l) else Panic.

(** ** Rust strings
    A Rust [String]/[&str] is a byte sequence that is valid UTF-8; it is
    modelled by Rocq's [string], whose characters are 8-bit values. *)

Fixpoint bytes_of_string (s : string) : bytes :=
  match s with
  | EmptyString => []
  | String a s' => Z.of_N (N_of_ascii a) :: bytes_of_string s'
  end.

Fixpoint string_of_bytes (l : bytes) : string :=
  match l with
  | [] => EmptyString
  | b :: l' => String (ascii_of_N (Z.to_N b)) (string_of_bytes l')
  end.

(** A continuation byte [0x80..=0xBF]. *)
Definition utf8_cont (b : Z) : bool := (0x80 <=? b) && (b <=? 0xBF).

(** Well-formed UTF-8 as [core::str::from_utf8] checks it: no overlong
    forms, no surrogates, nothing above U+10FFFF. *)
Fixpoint utf8_valid (l : bytes) : bool :=
  match l with
  | [] => true
  | b0 :: t =>
    if b0 <? 0x80 then utf8_valid t
    else match t with
    | [] => false
    | b1 :: t1 =>
      if (0xC2 <=? b0) && (b0 <=? 0xDF) then utf8_cont b1 && utf8_valid t1
      else match t1 with
      | [] => false
      | b2 :: t2 =>
        if (0xE0 <=? b0) && (b0 <=? 0xEF) then
          (if b0 =? 0xE0 then (0xA0 <=? b1) && (b1 <=? 0xBF)
           else if b0 =? 0xED then (0x80 <=? b1) && (b1 <=? 0x9F)
           else utf8_cont b1)
          && utf8_cont b2 && utf8_valid t2
        else match t2 with
        | [] => false
        | b3 :: t3 =>
          if (0xF0 <=? b0) && (b0 <=? 0xF4) then
            (if b0 =? 0xF0 then (0x90 <=? b1) && (b1 <=? 0xBF)
             else if b0 =? 0xF4 then (0x80 <=? b1) && (b1 <=? 0x8F)
             else utf8_cont b1)
            && utf8_cont b2 && utf8_cont b3 && utf8_valid t3
          else false
        end
      end
    end
  end.

(** [std::str::from_utf8(l).map_err(|_| e)]. *)
Definition from_utf8 {E} (l : bytes) (e : E) : res E string :=
  if utf8_valid l then Ok (string_of_bytes l) else Err e.

Definition str_ok (s : string) : Prop := utf8_valid (bytes_of_string s) = true.

(** [s.contains(p)]. *)
Fixpoint str_contains (p s : string) : bool :=
  String.prefix p s ||
  match s with
  | EmptyString => false
  | String _ s' => str_contains p s'
  end.

(** [s.find(p)]: the byte offset of the first occurrence. *)
Fixpoint str_find (p s : string) : option nat :=
  if String.prefix p s then Some O else
  match s with
  | EmptyString => None
  | String _ s' => S <$> str_find p s'
  end.

(** [str::trim]: the Unicode White_Space characters, in UTF-8. *)
Fixpoint trim_start (l : bytes) : bytes :=
  match l with
  | [] => []
  | b :: t =>
    if ((9 <=? b) && (b <=? 13)) || (b =? 32) then trim_start t
    else match l with
    | 0xC2 :: c :: t2 => if (c =? 0x85) || (c =? 0xA0) then trim_start t2 else l
    | 0xE1 :: 0x9A :: 0x80 :: t3 => trim_start t3
    | 0xE2 :: 0x80 :: c :: t3 =>
      if ((0x80 <=? c) && (c <=? 0x8A)) || (c =? 0xA8) || (c =? 0xA9) || (c =? 0xAF)
      then trim_start t3 else l
    | 0xE2 :: 0x81 :: 0x9F :: t3 => trim_start t3
    | 0xE3 :: 0x80 :: 0x80 :: t3 => trim_start t3
    | _ => l
    end
  end.

(** The same from the end, on the reversed text. *)
Fixpoint trim_rev (l : bytes) : bytes :=
  match l with
  | [] => []
  | b :: t =>
    if ((9 <=? b) && (b <=? 13)) || (b =? 32) then trim_rev t
    else match l with
    | c :: 0xC2 :: t2 => if (c =? 0x85) || (c =? 0xA0) then trim_rev t2 else l
    | 0x80 :: 0x9A :: 0xE1 :: t3 => trim_rev t3
    | 0x9F :: 0x81 :: 0xE2 :: t3 => trim_rev t3
    | 0x80 :: 0x80 :: 0xE3 :: t3 => trim_rev t3
    | c :: 0x80 :: 0xE2 :: t3 =>
      if ((0x80 <=? c) && (c <=? 0x8A)) || (c =? 0xA8) || (c =? 0xA9) || (c =? 0xAF)
      then trim_rev t3 else l
    | _ => l
    end
  end.

Definition trim (s : string) : string :=
  string_of_bytes (rev (trim_rev (rev (trim_start (bytes_of_string s))))).

(** [{:02x}] of a byte, and [{}] of an unsigned integer. *)
Definition hex_digit (n : Z) : ascii :=
  ascii_of_N (Z.to_N (if n <? 10 then n + 48 else n + 87)).
Definition fmt_02x (b : Z) : string :=
  String (hex_digit (b / 16)) (String (hex_digit (b mod 16)) EmptyString).
Definition fmt_dec (n : nat) : string := pretty n.

(** [u8::to_ascii_lowercase] and [eq_ignore_ascii_case]. *)
Definition to_ascii_lowercase (b : Z) : Z :=
  if (65 <=? b) && (b <=? 90) then b + 32 else b.
Definition eq_ignore_ascii_case (a b : bytes) : bool :=
  bool_decide (map to_ascii_lowercase a = map to_ascii_lowercase b).

(** [str::to_ascii_lowercase]. *)
Definition lowercase (s : string) : string := string_of_bytes (map to_ascii_lowercase (bytes_of_string s)).

(** [s.split(c)] for an ASCII character: the pieces between its occurrences. *)
Fixpoint str_split (c : ascii) (s : string) : list string :=
  match s with
  | EmptyString => [EmptyString]
  | String a s' =>
    if Ascii.eqb a c then EmptyString :: str_split c s'
    else match str_split c s' with
         | [] => [String a EmptyString]
         | piece :: pieces => String a piece :: pieces
         end
  end.

(** [s.split(c).next()], which is always there. *)
Definition split_first (c : ascii) (s : string) : string := hd EmptyString (str_split c s).

(** [s.trim_start_matches(c)] and [s.trim_matches(c)] for a character. *)
Fixpoint trim_start_matches (c : ascii) (s : string) : string :=
  match s with
  | String a s' => if Ascii.eqb a c then trim_start_matches c s' else s
  | EmptyString => EmptyString
  end.

Fixpoint trim_end_matches (c : ascii) (s : string) : string :=
  match s with
  | EmptyString => EmptyString
  | String a s' =>
    match trim_end_matches c s' with
    | EmptyString => if Ascii.eqb a c then EmptyString else String a EmptyString
    | t => String a t
    end
  end.

Definition trim_matches (c : ascii) (s : string) : string := trim_end_matches c (trim_start_matches c s).

(** [s.strip_prefix(p)]. *)
Fixpoint strip_prefix (p s : string) : option string :=
  match p, s with
  | EmptyString, _ => Some s
  | String a p', String b s' => if Ascii.eqb a b then strip_prefix p' s' else None
  | String _ _, EmptyString => None
  end.

(** [s.parse::<uN>()]: an optional plus sign and decimal digits below [bound]. *)
Fixpoint parse_digits (bound acc : Z) (s : string) : option Z :=
  match s with
  | EmptyString => Some acc
  | String a s' =>
    let d := Z.of_N (N_of_ascii a) - 48 in
    if (0 <=? d) && (d <=? 9) && (acc * 10 + d <? bound) then parse_digits bound (acc * 10 + d) s' else None
  end.

Definition parse_uint (bound : Z) (s : string) : option Z :=
  match s with
  | EmptyString => None
  | String a s' =>
    if Ascii.eqb a "+"%char then
      match s' with EmptyString => None | _ => parse_digits bound 0 s' end
    else parse_digits bound 0 s
  end.

(** ** Automation *)

Create HintDb wire discriminated.
Create HintDb bytesdb discriminated.

(** Split every [match]/[if] of the goal and hypotheses and use the equations. *)
Ltac splits := repeat (case_match; simplify_eq/=); try done.

(** Turn a boolean hypothesis into the proposition it decides. *)
Ltac bool_hyps :=
  repeat match goal with
  | H : (_ && _) = true |- _ => apply andb_true_iff in H as [??]
  | H : (_ || _) = false |- _ => apply orb_false_iff in H as [??]
  | H : negb _ = true |- _ => apply negb_true_iff in H
  | H : negb _ = false |- _ => apply negb_false_iff in H
  | H : (_ =? _)%Z = true |- _ => apply Z.eqb_eq in H
  | H : (_ =? _)%Z = false |- _ => apply Z.eqb_neq in H
  | H : (_ =? _)%nat = true |- _ => apply Nat.eqb_eq in H
  | H : (_ =? _)%nat = false |- _ => apply Nat.eqb_neq in H
  | H : (_ <? _)%nat = true |- _ => apply Nat.ltb_lt in H
  | H : (_ <? _)%nat = false |- _ => apply Nat.ltb_ge in H
  | H : (_ <=? _)%nat = true |- _ => apply Nat.leb_le in H
  | H : (_ <=? _)%nat = false |- _ => apply Nat.leb_gt in H
  | H : (_ <? _)%Z = true |- _ => apply Z.ltb_lt in H
  | H : (_ <? _)%Z = false |- _ => apply Z.ltb_ge in H
  | H : (_ <=? _)%Z = true |- _ => apply Z.leb_le in H
  | H : (_ <=? _)%Z = false |- _ => apply Z.leb_gt in H
  | H : bool_decide _ = true |- _ => apply bool_decide_eq_true in H
  | H : bool_decide _ = false |- _ => apply bool_decide_eq_false in H
  end.

(** Prove [bytes_ok] of a literal list. *)
Ltac solve_bytes_ok :=
  cbv -[byte_ok];
  repeat first [ apply Forall_nil_2 | apply Forall_cons_2; [unfold byte_ok; lia|] ].

(** ** Lemmas on indexing and slicing *)

Lemma idx_lt {E} (l : bytes) i :
  (i < length l)%nat -> exists b, @idx E l i = Ok b /\ l !! i = Some b.
Proof.
  intros H. unfold idx. destruct (l !! i) eqn:Hl; eauto.
  apply lookup_ge_None in Hl. lia.
Qed.

Lemma idx_some {E} (l : bytes) i b : l !! i = Some b -> @idx E l i = Ok b.
Proof. unfold idx. by intros ->. Qed.

Lemma slice_ok {E} (l : bytes) a b :
  (a <= b <= length l)%nat -> @slice E l a b = Ok (take (b - a) (drop a l)).
Proof.
  intros [H1 H2]. unfold slice.
  by rewrite (proj2 (Nat.leb_le _ _) H1), (proj2 (Nat.leb_le _ _) H2).
Qed.

Lemma slice_from_ok {E} (l : bytes) a :
  (a <= length l)%nat -> @slice_from E l a = Ok (drop a l).
Proof. intros H. unfold slice_from. by rewrite (proj2 (Nat.leb_le _ _) H). Qed.

(** The middle part of a concatenation is the slice at its offsets. *)
Lemma slice_app_mid {E} (p m s : bytes) a b :
  a = length p -> b = (length p + length m)%nat -> @slice E (p ++ m ++ s) a b = Ok m.
Proof.
  intros -> ->. rewrite slice_ok by (rewrite !length_app; lia).
  rewrite drop_app_length.
  replace (length p + length m - length p)%nat with (length m) by lia.
  by rewrite take_app_length.
Qed.

Lemma idx_app_mid {E} (p s : bytes) x i : i = length p -> @idx E (p ++ x :: s) i = Ok x.
Proof. intros ->. apply idx_some. by rewrite list_lookup_middle. Qed.

Lemma split_at {A} (l : list A) k :
  (k <= length l)%nat -> exists p s, l = p ++ s /\ length p = k.
Proof.
  intros H. exists (take k l), (drop k l). by rewrite take_drop, length_take_le.
Qed.

Lemma bind_calm {E A B} (m : res E A) (f : A -> res E B) :
  m <> Panic -> (forall a, m = Ok a -> f a <> Panic) -> m ≫= f <> Panic.
Proof. destruct m; cbn; naive_solver. Qed.

(** Discharge the indexing of a panic-freedom goal from the length guards. *)
Ltac no_panic_step :=
  match goal with
  | |- context [@idx ?E ?l ?i] =>
      let b := fresh "b" in let H := fresh "Hidx" in let Hl := fresh "Hlk" in
      destruct (@idx_lt E l i) as (b & H & Hl);
      [ lia | rewrite H; cbn [mbind res_bind] ]
  | |- context [@slice ?E ?l ?a ?b] => rewrite (@slice_ok E l a b) by lia; cbn [mbind res_bind]
  | |- context [@slice_from ?E ?l ?a] => rewrite (@slice_from_ok E l a) by lia; cbn [mbind res_bind]
  | |- context [if ?c then _ else _] =>
      lazymatch c with
      | context [match _ with _ => _ end] => fail
      | _ => let H := fresh "Hc" in destruct c eqn:H; bool_hyps
      end
  | _ => progress cbn [mbind res_bind map_err]
  end.
(** A parsed UTF-8 string is an error or a string, never a panic. *)
Ltac no_panic_utf8 :=
  match goal with
  | |- context [from_utf8 ?l ?e] =>
      unfold from_utf8; destruct (utf8_valid l); cbn [mbind res_bind]
  end.
Ltac no_panic := repeat first [ done | no_panic_utf8 | no_panic_step ].

(** ** Lemmas on big-endian integers *)

Lemma from_to_be16 n : u16_ok n -> from_be16 (n / 256 mod 256) (n mod 256) = n.
Proof.
  unfold u16_ok, from_be16. intros H. rewrite (Z.mod_small (n / 256)).
  - rewrite Z.mul_comm. symmetry. apply Z.div_mod. lia.
  - split; [apply Z.div_pos; lia | apply Z.div_lt_upper_bound; lia].
Qed.

Lemma to_from_be16 h l : byte_ok h -> byte_ok l -> to_be16 (from_be16 h l) = [h; l].
Proof.
  unfold byte_ok, from_be16, to_be16. intros Hh Hl.
  rewrite Z.div_add_l, (Z.div_small l), Z.add_0_r, (Z.mod_small h) by lia.
  rewrite Z.add_comm, Z.mod_add, (Z.mod_small l) by lia. done.
Qed.

Lemma from_be16_ok h l : byte_ok h -> byte_ok l -> u16_ok (from_be16 h l).
Proof. unfold byte_ok, u16_ok, from_be16. lia. Qed.

Lemma byte_ok_mod n : byte_ok (n mod 256).
Proof. unfold byte_ok. apply Z.mod_pos_bound. lia. Qed.

Lemma bytes_ok_to_be16 n : bytes_ok (to_be16 n).
Proof. repeat constructor; apply byte_ok_mod. Qed.

Lemma as_u8_small n : byte_ok n -> as_u8 n = n.
Proof. unfold byte_ok, as_u8. apply Z.mod_small. Qed.

Lemma as_u16_small n : u16_ok n -> as_u16 n = n.
Proof. unfold u16_ok, as_u16. apply Z.mod_small. Qed.

(** Bits that do not overlap add up. *)
Lemma lor_disjoint a b n : 0 <= n -> 0 <= a < 2 ^ n -> Z.lor a (Z.shiftl b n) = a + b * 2 ^ n.
Proof.
  intros Hn Ha. rewrite <- Z.shiftl_mul_pow2 by done.
  rewrite <- (Z.add_lor_land a (Z.shiftl b n)).
  assert (Z.land a (Z.shiftl b n) = 0) as ->; [|lia].
  apply Z.bits_inj'. intros i Hi. rewrite Z.land_spec, Z.bits_0.
  destruct (Z.lt_ge_cases i n).
  - rewrite Z.shiftl_spec_low by lia. apply andb_false_r.
  - rewrite <- (Z.mod_small a (2 ^ n)) by done. rewrite Z.mod_pow2_bits_high by lia. done.
Qed.

#[export] Hint Resolve from_be16_ok byte_ok_mod bytes_ok_to_be16 : bytesdb.

(** ** Lemmas on strings as bytes *)

Lemma bytes_ok_of_string s : bytes_ok (bytes_of_string s).
Proof.
  induction s as [|a s IH]; constructor; [|done].
  pose proof (N_ascii_bounded a). unfold byte_ok. lia.
Qed.

Lemma string_of_bytes_of_string s : string_of_bytes (bytes_of_string s) = s.
Proof.
  induction s as [|a s IH]; simpl; [done|].
  by rewrite IH, N2Z.id, ascii_N_embedding.
Qed.

Lemma bytes_of_string_of_bytes l : bytes_ok l -> bytes_of_string (string_of_bytes l) = l.
Proof.
  induction 1 as [|b l Hb Hl IH]; simpl; [done|].
  unfold byte_ok in Hb. by rewrite IH, N_ascii_embedding, Z2N.id by lia.
Qed.

Lemma length_bytes_of_string s : length (bytes_of_string s) = String.length s.
Proof. induction s; simpl; auto. Qed.

Lemma from_utf8_string {E} s (e : E) : str_ok s -> from_utf8 (bytes_of_string s) e = Ok s.
Proof.
  unfold from_utf8, str_ok. intros ->. by rewrite string_of_bytes_of_string.
Qed.

Lemma from_utf8_inv {E} l (e : E) s :
  bytes_ok l -> from_utf8 l e = Ok s -> l = bytes_of_string s /\ str_ok s.
Proof.
  unfold from_utf8, str_ok. intros Hl. destruct (utf8_valid l) eqn:Hv; [|done].
  intros [= <-]. by rewrite bytes_of_string_of_bytes.
Qed.

Lemma from_utf8_no_panic {E} l (e : E) : from_utf8 l e <> Panic.
Proof. unfold from_utf8. by case_match. Qed.

#[export] Hint Resolve bytes_ok_of_string : bytesdb.

Lemma bytes_ok_lookup l i b : bytes_ok l -> l !! i = Some b -> byte_ok b.
Proof. intros H. by apply (Forall_lookup_1 _ _ _ _ H). Qed.

Lemma bytes_ok_take n l : bytes_ok l -> bytes_ok (take n l).
Proof. apply Forall_take. Qed.

Lemma bytes_ok_drop n l : bytes_ok l -> bytes_ok (drop n l).
Proof. apply Forall_drop. Qed.

#[export] Hint Resolve bytes_ok_take bytes_ok_drop : bytesdb.

Lemma bytes_ok_cons b l : bytes_ok (b :: l) <-> byte_ok b /\ bytes_ok l.
Proof. apply Forall_cons. Qed.

Lemma bytes_ok_app l1 l2 : bytes_ok (l1 ++ l2) <-> bytes_ok l1 /\ bytes_ok l2.
Proof. apply Forall_app. Qed.

(** Take [bytes_ok] hypotheses on [::] and [++] apart. *)
Ltac inv_bytes_ok :=
  repeat match goal with
  | H : bytes_ok (_ :: _) |- _ => apply bytes_ok_cons in H as [??]
  | H : bytes_ok (_ ++ _) |- _ => apply bytes_ok_app in H as [??]
  | H : Forall byte_ok _ |- _ => change (Forall byte_ok ?l) with (bytes_ok l) in H
  end.

(** A byte read as a length is below 256. *)
Lemma byte_to_nat_lt b : byte_ok b -> (Z.to_nat b < 256)%nat.
Proof. unfold byte_ok. lia. Qed.

(** [bytes_ok] of a concatenation whose parts are known. *)
Ltac solve_app_ok :=
  repeat first
    [ assumption
    | apply bytes_ok_app; split
    | apply bytes_ok_cons; split
    | apply Forall_nil_2
    | progress eauto with bytesdb
    | unfold byte_ok in *; lia ].
