(* ===== verification/Core.v ===== *)
(** * skadi-core: endpoints, outbound policy, protocol dispatch, sessions, secrets
    Models crates/skadi-core/src/{endpoint,error,protocol,session,user,secret}.rs. *)

From Stdlib Require Import Ascii String.
From stdpp Require Import base list numbers strings pretty.
From S2P Require Import Prelude.

(** ** Addresses of the standard library *)

(** [std::net::Ipv4Addr]: four octets. *)
Record Ipv4Addr := Ipv4 { o0 : Z; o1 : Z; o2 : Z; o3 : Z }.

Definition ipv4_octets (ip : Ipv4Addr) : bytes := [o0 ip; o1 ip; o2 ip; o3 ip].

(** [std::net::Ipv6Addr] is its sixteen octets. *)
Inductive IpAddr :=
| V4 (ip : Ipv4Addr)
| V6 (octets : bytes).

(** [std::net::SocketAddr]; a V6 address carries flow info and scope id. *)
Inductive SocketAddr :=
| SockV4 (ip : Ipv4Addr) (port : Z)
| SockV6 (octets : bytes) (port : Z) (flowinfo : Z) (scope_id : Z).

#[export] Instance Ipv4Addr_eq_dec : EqDecision Ipv4Addr.
Proof. solve_decision. Defined.

#[export] Instance IpAddr_eq_dec : EqDecision IpAddr.
Proof. solve_decision. Defined.

#[export] Instance SocketAddr_eq_dec : EqDecision SocketAddr.
Proof. solve_decision. Defined.

(** [SocketAddr::new(ip, port)]. *)
Definition SocketAddr_new (ip : IpAddr) (port : Z) : SocketAddr :=
  match ip with
  | V4 ip => SockV4 ip port
  | V6 octets => SockV6 octets port 0 0
  end.

Definition sock_ip (a : SocketAddr) : IpAddr :=
  match a with
  | SockV4 ip _ => V4 ip
  | SockV6 octets _ _ _ => V6 octets
  end.

Definition sock_port (a : SocketAddr) : Z :=
  match a with
  | SockV4 _ port => port
  | SockV6 _ port _ _ => port
  end.

Definition sock_is_ipv4 (a : SocketAddr) : bool :=
  match a with
  | SockV4 _ _ => true
  | SockV6 _ _ _ _ => false
  end.

Definition ipv4_ok (ip : Ipv4Addr) : Prop := bytes_ok (ipv4_octets ip).
Definition ipv6_ok (octets : bytes) : Prop := length octets = 16%nat /\ bytes_ok octets.

Definition sock_ok (a : SocketAddr) : Prop :=
  match a with
  | SockV4 ip port => ipv4_ok ip /\ u16_ok port
  | SockV6 octets port _ _ => ipv6_ok octets /\ u16_ok port
  end.

(** *** The standard library's address classes *)

Definition ipv4_is_private (ip : Ipv4Addr) : bool :=
  (o0 ip =? 10)
  || ((o0 ip =? 172) && (16 <=? o1 ip) && (o1 ip <=? 31))
  || ((o0 ip =? 192) && (o1 ip =? 168)).
Definition ipv4_is_loopback (ip : Ipv4Addr) : bool := o0 ip =? 127.
Definition ipv4_is_link_local (ip : Ipv4Addr) : bool := (o0 ip =? 169) && (o1 ip =? 254).
Definition ipv4_is_broadcast (ip : Ipv4Addr) : bool :=
  (o0 ip =? 255) && (o1 ip =? 255) && (o2 ip =? 255) && (o3 ip =? 255).
Definition ipv4_is_documentation (ip : Ipv4Addr) : bool :=
  ((o0 ip =? 192) && (o1 ip =? 0) && (o2 ip =? 2))
  || ((o0 ip =? 198) && (o1 ip =? 51) && (o2 ip =? 100))
  || ((o0 ip =? 203) && (o1 ip =? 0) && (o2 ip =? 113)).
Definition ipv4_is_unspecified (ip : Ipv4Addr) : bool :=
  (o0 ip =? 0) && (o1 ip =? 0) && (o2 ip =? 0) && (o3 ip =? 0).
Definition ipv4_is_multicast (ip : Ipv4Addr) : bool := (224 <=? o0 ip) && (o0 ip <=? 239).

(** The [i]-th 16-bit segment of an IPv6 address. *)
Definition segment (octets : bytes) (i : nat) : Z :=
  from_be16 (nth (2 * i)%nat octets 0) (nth (2 * i + 1)%nat octets 0).
Definition segments (octets : bytes) : list Z := map (segment octets) (seq 0 8).

Definition to_ipv4_mapped (octets : bytes) : option Ipv4Addr :=
  match octets with
  | [0; 0; 0; 0; 0; 0; 0; 0; 0; 0; 255; 255; a; b; c; d] => Some (Ipv4 a b c d)
  | _ => None
  end.
Definition ipv6_is_loopback (octets : bytes) : bool :=
  bool_decide (octets = replicate 15 0 ++ [1]).
Definition ipv6_is_unspecified (octets : bytes) : bool :=
  bool_decide (octets = replicate 16 0).
Definition ipv6_is_unique_local (octets : bytes) : bool :=
  Z.land (segment octets 0) 0xfe00 =? 0xfc00.
Definition ipv6_is_unicast_link_local (octets : bytes) : bool :=
  Z.land (segment octets 0) 0xffc0 =? 0xfe80.
Definition ipv6_is_multicast (octets : bytes) : bool := nth 0 octets 0 =? 0xff.

(** *** [Display] of addresses *)

Definition ipv4_display (ip : Ipv4Addr) : string :=
  pretty (o0 ip) +:+ "." +:+ pretty (o1 ip) +:+ "." +:+ pretty (o2 ip) +:+ "." +:+ pretty (o3 ip).

(** [{:x}] of a 16-bit value: lower case, no leading zeros. *)
Fixpoint strip_zeros (s : list Z) : list Z :=
  match s with
  | [] => [0]
  | [d] => [d]
  | d :: t => if d =? 0 then strip_zeros t else s
  end.
Definition fmt_x16 (n : Z) : string :=
  String.string_of_list_ascii
    (map hex_digit (strip_zeros [n / 4096 mod 16; n / 256 mod 16; n / 16 mod 16; n mod 16])).

Definition join_segments (l : list Z) : string := String.concat ":" (map fmt_x16 l).

(** Start and length of the first longest run of zero segments. *)
Fixpoint longest_zero_run (l : list Z) (i cur_start cur_len best_start best_len : nat) : nat * nat :=
  match l with
  | [] => (best_start, best_len)
  | s :: t =>
    if s =? 0 then
      let cur_start := if (cur_len =? 0)%nat then i else cur_start in
      let cur_len := S cur_len in
      if (best_len <? cur_len)%nat
      then longest_zero_run t (S i) cur_start cur_len cur_start cur_len
      else longest_zero_run t (S i) cur_start cur_len best_start best_len
    else longest_zero_run t (S i) 0 0 best_start best_len
  end.

Definition ipv6_display (octets : bytes) : string :=
  match to_ipv4_mapped octets with
  | Some v4 => "::ffff:" +:+ ipv4_display v4
  | None =>
    let segs := segments octets in
    let '(start, len) := longest_zero_run segs 0 0 0 0 0 in
    if (1 <? len)%nat
    then join_segments (take start segs) +:+ "::" +:+ join_segments (drop (start + len) segs)
    else join_segments segs
  end.

Definition sock_display (a : SocketAddr) : string :=
  match a with
  | SockV4 ip port => ipv4_display ip +:+ ":" +:+ pretty port
  | SockV6 octets port _ scope =>
    (if scope =? 0 then "[" +:+ ipv6_display octets
     else "[" +:+ ipv6_display octets +:+ "%" +:+ pretty scope)
    +:+ "]:" +:+ pretty port
  end.

(** ** endpoint.rs *)

Inductive Endpoint :=
| Ip (addr : SocketAddr)
| Domain (host : string) (port : Z).

#[export] Instance Endpoint_eq_dec : EqDecision Endpoint.
Proof. solve_decision. Defined.

Definition endpoint_display (e : Endpoint) : string :=
  match e with
  | Ip addr => sock_display addr
  | Domain host port => host +:+ ":" +:+ pretty port
  end.

(** error.rs. [Io] carries the text of the [std::io::Error]. *)
Inductive Error :=
| Io (e : string)
| Protocol_err (msg : string)
| AuthFailed
| UnknownUser (u : string)
| Timeout
| TooManyConnections
| Config (msg : string)
| UnknownProtocolByte (b : Z)
| DisabledProtocol (name : string)
| ForbiddenDestination (dest : string).

Definition error_display (e : Error) : string :=
  match e with
  | Io e => "I/O error: " +:+ e
  | Protocol_err m => "protocol error: " +:+ m
  | AuthFailed => "authentication failed"
  | UnknownUser u => "unknown user: " +:+ u
  | Timeout => "connection timeout"
  | TooManyConnections => "connection limit exceeded"
  | Config m => "configuration error: " +:+ m
  | UnknownProtocolByte b => "unknown protocol byte: 0x" +:+ fmt_02x b
  | DisabledProtocol n => n +:+ " is disabled in configuration"
  | ForbiddenDestination d => "forbidden destination: " +:+ d
  end.

Definition is_carrier_grade_nat (ip : Ipv4Addr) : bool :=
  (o0 ip =? 100) && ((64 <=? o1 ip) && (o1 ip <? 128)).

Definition is_benchmarking_ipv4 (ip : Ipv4Addr) : bool :=
  (o0 ip =? 198) && ((18 <=? o1 ip) && (o1 ip <? 20)).

Definition is_forbidden_ipv4 (ip : Ipv4Addr) : bool :=
  ipv4_is_private ip
  || ipv4_is_loopback ip
  || ipv4_is_link_local ip
  || ipv4_is_broadcast ip
  || ipv4_is_documentation ip
  || ipv4_is_unspecified ip
  || ipv4_is_multicast ip
  || is_carrier_grade_nat ip
  || is_benchmarking_ipv4 ip
  || (o0 ip =? 0).

Definition is_forbidden_ipv6 (octets : bytes) : bool :=
  match to_ipv4_mapped octets with
  | Some v4 => is_forbidden_ipv4 v4
  | None =>
    ipv6_is_loopback octets
    || ipv6_is_unspecified octets
    || ipv6_is_unique_local octets
    || ipv6_is_unicast_link_local octets
    || ipv6_is_multicast octets
  end.

Definition is_forbidden_ip (ip : IpAddr) : bool :=
  match ip with
  | V4 v4 => is_forbidden_ipv4 v4
  | V6 v6 => is_forbidden_ipv6 v6
  end.

Definition validate_outbound_literal (endpoint : Endpoint) (allow_private : bool) : res Error unit :=
  if allow_private then Ok tt
  else match endpoint with
  | Ip addr =>
    if is_forbidden_ip (sock_ip addr) then Err (ForbiddenDestination (sock_display addr)) else Ok tt
  | Domain _ _ => Ok tt
  end.

Fixpoint check_addrs (addrs : list SocketAddr) : res Error unit :=
  match addrs with
  | [] => Ok tt
  | addr :: rest =>
    if is_forbidden_ip (sock_ip addr) then Err (ForbiddenDestination (sock_display addr))
    else check_addrs rest
  end.

Definition validate_resolved_addrs (addrs : list SocketAddr) (allow_private : bool) : res Error unit :=
  if allow_private then Ok tt else check_addrs addrs.

(** ** protocol.rs *)

Definition SOCKS5_WIRE_BYTE : Z := 0x05.
Definition VLESS_WIRE_BYTE : Z := 0x00.

Inductive Protocol := Socks5 | Vless.

#[export] Instance Protocol_eq_dec : EqDecision Protocol.
Proof. solve_decision. Defined.

Definition wire_byte (p : Protocol) : Z :=
  match p with
  | Socks5 => SOCKS5_WIRE_BYTE
  | Vless => VLESS_WIRE_BYTE
  end.

Definition from_wire_byte (byte : Z) : option Protocol :=
  if byte =? SOCKS5_WIRE_BYTE then Some Socks5
  else if byte =? VLESS_WIRE_BYTE then Some Vless
  else None.

Definition metric_label (p : Protocol) : string :=
  match p with
  | Socks5 => "socks5"
  | Vless => "vless"
  end.

Record EnabledProtocols := { ep_socks5 : bool; ep_vless : bool }.

Definition ep_count (e : EnabledProtocols) : Z := Z.b2z (ep_socks5 e) + Z.b2z (ep_vless e).
Definition needs_sniffing (e : EnabledProtocols) : bool := 1 <? ep_count e.

Definition sole (e : EnabledProtocols) : option Protocol :=
  match ep_socks5 e, ep_vless e with
  | true, false => Some Socks5
  | false, true => Some Vless
  | _, _ => None
  end.

Definition detect (e : EnabledProtocols) (byte : Z) : res Error Protocol :=
  match from_wire_byte byte with
  | Some Socks5 => if ep_socks5 e then Ok Socks5 else Err (DisabledProtocol "socks5")
  | Some Vless => if ep_vless e then Ok Vless else Err (DisabledProtocol "vless")
  | None => Err (UnknownProtocolByte byte)
  end.

(** ** session.rs and user.rs *)

Record UserId := { user_id : string }.
Record SessionId := { session_no : Z }.

(** [COUNTER.fetch_add(1)] on an [AtomicU64]: the old value, the counter wraps. *)
Definition session_id_next (counter : Z) : SessionId * Z :=
  ({| session_no := counter |}, (counter + 1) mod 2 ^ 64).

Record Session := {
  ses_id : SessionId;
  ses_user : option UserId;
  ses_peer : SocketAddr
}.

Definition session_new (counter : Z) (peer : SocketAddr) : Session * Z :=
  let '(id, counter) := session_id_next counter in
  ({| ses_id := id; ses_user := None; ses_peer := peer |}, counter).

Definition with_user (s : Session) (user : UserId) : Session :=
  {| ses_id := ses_id s; ses_user := Some user; ses_peer := ses_peer s |}.

(** The sessions a run opens, in order, from the counter's current value. *)
Fixpoint sessions_from (counter : Z) (peers : list SocketAddr) : list Session :=
  match peers with
  | [] => []
  | p :: rest =>
    let '(s, counter) := session_new counter p in s :: sessions_from counter rest
  end.

(** ** secret.rs *)

Definition REDACTED : string := "[REDACTED]".

Record SecretString := { secret_inner : string }.

Definition secret_debug (s : SecretString) : string := "SecretString(" +:+ REDACTED +:+ ")".
Definition secret_display (s : SecretString) : string := REDACTED.

Definition BEARER_PREFIX : bytes := bytes_of_string "bearer ".

Definition is_bearer_token_boundary (byte : Z) : bool :=
  bool_decide (byte ∈ [32; 9; 10; 13; 34; 39; 44; 125; 93; 92]).

(** [out.push(b as char)]: the character U+00b, encoded as UTF-8. *)
Definition push_char (b : Z) : bytes :=
  if b <? 128 then [b] else [192 + b / 64; 128 + b mod 64].

(** The inner [while]: drop bytes up to the next boundary. *)
Fixpoint skip_token (rest : bytes) : bytes :=
  match rest with
  | [] => []
  | b :: t => if is_bearer_token_boundary b then rest else skip_token t
  end.

(** The outer [while i < bytes.len()], on the bytes from [i] on; every turn
    consumes at least one byte, so [length] turns are enough. *)
Fixpoint redact_loop (fuel : nat) (rest : bytes) : bytes :=
  match fuel with
  | O => []
  | S fuel =>
    match rest with
    | [] => []
    | b :: t =>
      if (7 <=? length rest)%nat && eq_ignore_ascii_case (take 7 rest) BEARER_PREFIX
      then concat (map push_char (take 7 rest)) ++ bytes_of_string REDACTED
           ++ redact_loop fuel (skip_token (drop 7 rest))
      else push_char b ++ redact_loop fuel t
    end
  end.

Definition redact_bearer_tokens (input : bytes) : bytes := redact_loop (length input) input.

(** An endpoint that the proxy protocols can carry: a name of 1 to 255 bytes of
    valid UTF-8, or an address without IPv6 flow label and scope. *)
Definition endpoint_ok (e : Endpoint) : Prop :=
  match e with
  | Ip (SockV4 ip port) => ipv4_ok ip /\ u16_ok port
  | Ip (SockV6 octets port flow scope) => ipv6_ok octets /\ u16_ok port /\ flow = 0 /\ scope = 0
  | Domain host port =>
    str_ok host /\ (1 <= String.length host <= 255)%nat /\ u16_ok port
  end.

(** ** Specification of the outbound policy: CIDR blocks *)

Fixpoint val_be (l : bytes) : Z :=
  match l with
  | [] => 0
  | b :: t => b * 2 ^ (8 * Z.of_nat (length t)) + val_be t
  end.

(** [addr] lies in the block [net/len] of a [w]-bit address space. *)
Definition in_cidr (w : Z) (addr : bytes) (block : bytes * Z) : Prop :=
  val_be addr / 2 ^ (w - snd block) = val_be (fst block) / 2 ^ (w - snd block).

(** The IPv4 blocks that outbound relays must not reach. *)
Definition forbidden_v4_blocks : list (bytes * Z) :=
  [([0; 0; 0; 0], 8); ([10; 0; 0; 0], 8); ([100; 64; 0; 0], 10); ([127; 0; 0; 0], 8);
   ([169; 254; 0; 0], 16); ([172; 16; 0; 0], 12); ([192; 0; 2; 0], 24); ([192; 168; 0; 0], 16);
   ([198; 18; 0; 0], 15); ([198; 51; 100; 0], 24); ([203; 0; 113; 0], 24);
   ([224; 0; 0; 0], 4); ([255; 255; 255; 255], 32)].

(** The IPv6 blocks, for addresses outside [::ffff:0:0/96]. *)
Definition forbidden_v6_blocks : list (bytes * Z) :=
  [(replicate 15 0 ++ [1], 128); (replicate 16 0, 128); (0xfc :: replicate 15 0, 7);
   (0xfe :: 0x80 :: replicate 14 0, 10); (0xff :: replicate 15 0, 8)].

Definition mapped_prefix : bytes := replicate 10 0 ++ [255; 255].

(** What the policy promises about an address. *)
Definition forbidden_spec (ip : IpAddr) : Prop :=
  match ip with
  | V4 v4 => Exists (in_cidr 32 (ipv4_octets v4)) forbidden_v4_blocks
  | V6 v6 =>
    (exists v4, v6 = mapped_prefix ++ ipv4_octets v4
       /\ Exists (in_cidr 32 (ipv4_octets v4)) forbidden_v4_blocks)
    \/ ((forall v4, v6 <> mapped_prefix ++ ipv4_octets v4)
       /\ Exists (in_cidr 128 v6) forbidden_v6_blocks)
  end.

Definition ip_ok (ip : IpAddr) : Prop :=
  match ip with
  | V4 v4 => ipv4_ok v4
  | V6 v6 => ipv6_ok v6
  end.

(** *** Arithmetic of prefixes *)

Lemma val_be_bound l : bytes_ok l -> 0 <= val_be l < 2 ^ (8 * Z.of_nat (length l)).
Proof.
  induction 1 as [|b t Hb Ht IH]; cbn [val_be length]; [lia|].
  rewrite Nat2Z.inj_succ, Z.mul_succ_r, Z.pow_add_r by lia.
  unfold byte_ok in Hb. set (p := 2 ^ (8 * Z.of_nat (length t))) in *. nia.
Qed.

Lemma val_be_app p t :
  val_be (p ++ t) = val_be p * 2 ^ (8 * Z.of_nat (length t)) + val_be t.
Proof.
  induction p as [|b p IH]; cbn [val_be app]; [lia|].
  rewrite IH, length_app, Nat2Z.inj_add, Z.mul_add_distr_l, Z.pow_add_r by lia. lia.
Qed.

(** The leading bits of an address are those of its leading bytes. *)
Lemma val_be_prefix p t k :
  bytes_ok t -> 0 <= k -> val_be (p ++ t) / 2 ^ (8 * Z.of_nat (length t) + k) = val_be p / 2 ^ k.
Proof.
  intros Ht Hk. rewrite val_be_app, Z.pow_add_r by lia.
  rewrite <- Z.div_div by lia. f_equal.
  rewrite Z.div_add_l by lia. rewrite (Z.div_small (val_be t)); [lia|].
  by apply val_be_bound.
Qed.

Lemma val_be_inj l1 l2 :
  bytes_ok l1 -> bytes_ok l2 -> length l1 = length l2 -> val_be l1 = val_be l2 -> l1 = l2.
Proof.
  intros H1. revert l2. induction H1 as [|b t Hb Ht IH]; intros [|c u] H2 Hlen Hv; try done.
  cbn in Hlen. injection Hlen as Hlen. inversion_clear H2 as [|? ? Hc Hu].
  cbn [val_be] in Hv. rewrite Hlen in Hv.
  pose proof (val_be_bound t Ht). pose proof (val_be_bound u Hu). rewrite Hlen in *.
  set (p := 2 ^ (8 * Z.of_nat (length u))) in *.
  assert (b = c) by nia. subst. f_equal. apply IH; [done|done|lia].
Qed.

Lemma in_cidr_v4 a b c d n0 n1 n2 n3 len :
  in_cidr 32 [a; b; c; d] ([n0; n1; n2; n3], len) <->
  (a * 16777216 + b * 65536 + c * 256 + d) / 2 ^ (32 - len)
  = (n0 * 16777216 + n1 * 65536 + n2 * 256 + n3) / 2 ^ (32 - len).
Proof.
  assert (Hv : forall x y z w, val_be [x; y; z; w] = x * 16777216 + y * 65536 + z * 256 + w).
  { intros. cbn [val_be length]. rewrite !Z.mul_1_r.
    change (2 ^ (8 * Z.of_nat 3)) with 16777216. change (2 ^ (8 * Z.of_nat 2)) with 65536.
    change (2 ^ (8 * Z.of_nat 1)) with 256. change (2 ^ (8 * Z.of_nat 0)) with 1. lia. }
  unfold in_cidr. cbn [fst snd]. by rewrite !Hv.
Qed.

Lemma in_forbidden_v4 a b c d :
  byte_ok a -> byte_ok b -> byte_ok c -> byte_ok d ->
  Exists (in_cidr 32 [a; b; c; d]) forbidden_v4_blocks <->
  a = 0 \/ a = 10 \/ (a = 100 /\ 64 <= b < 128) \/ a = 127 \/ (a = 169 /\ b = 254)
  \/ (a = 172 /\ 16 <= b <= 31) \/ (a = 192 /\ b = 0 /\ c = 2) \/ (a = 192 /\ b = 168)
  \/ (a = 198 /\ 18 <= b < 20) \/ (a = 198 /\ b = 51 /\ c = 100) \/ (a = 203 /\ b = 0 /\ c = 113)
  \/ 224 <= a <= 239 \/ (a = 255 /\ b = 255 /\ c = 255 /\ d = 255) \/ False.
Proof.
  unfold byte_ok. intros Ha Hb Hc Hd. unfold forbidden_v4_blocks.
  rewrite !Exists_cons, Exists_nil.
  repeat (apply Morphisms_Prop.or_iff_morphism;
    [ rewrite in_cidr_v4; Z.to_euclidean_division_equations; lia |]).
  done.
Qed.

Lemma is_forbidden_ipv4_cidr ip :
  ipv4_ok ip ->
  is_forbidden_ipv4 ip = true <-> Exists (in_cidr 32 (ipv4_octets ip)) forbidden_v4_blocks.
Proof.
  destruct ip as [a b c d]. unfold ipv4_ok, bytes_ok, ipv4_octets. cbn [o0 o1 o2 o3].
  intros Hok. decompose_Forall.
  rewrite in_forbidden_v4 by done.
  unfold is_forbidden_ipv4, ipv4_is_private, ipv4_is_loopback, ipv4_is_link_local,
    ipv4_is_broadcast, ipv4_is_documentation, ipv4_is_unspecified, ipv4_is_multicast,
    is_carrier_grade_nat, is_benchmarking_ipv4, byte_ok in *.
  cbn [o0 o1 o2 o3].
  rewrite !orb_true_iff, !andb_true_iff, !Z.eqb_eq, !Z.leb_le, !Z.ltb_lt.
  split; intros Hc; repeat destruct Hc as [Hc|Hc]; tauto.
Qed.

Lemma to_ipv4_mapped_spec octets v4 :
  to_ipv4_mapped octets = Some v4 <-> octets = mapped_prefix ++ ipv4_octets v4.
Proof.
  unfold to_ipv4_mapped. split.
  - intros H. repeat case_match; simplify_eq. reflexivity.
  - intros ->. by destruct v4.
Qed.

(** A 128-bit block test only looks at the bytes its prefix covers. *)
Lemma in_cidr_v6_8 a t n len :
  length t = 15%nat -> bytes_ok t -> 0 <= len <= 8 ->
  in_cidr 128 (a :: t) (n :: replicate 15 0, len) <-> a / 2 ^ (8 - len) = n / 2 ^ (8 - len).
Proof.
  intros Hl Ht Hlen. unfold in_cidr. cbn [fst snd].
  assert (Hp : forall x u, length u = 15%nat -> bytes_ok u ->
    val_be (x :: u) / 2 ^ (128 - len) = x / 2 ^ (8 - len)).
  { intros x u Hu Hok. pose proof (val_be_prefix [x] u (8 - len) Hok ltac:(lia)) as Hv.
    rewrite Hu in Hv. cbn [app] in Hv.
    replace (8 * Z.of_nat 15 + (8 - len)) with (128 - len) in Hv by lia.
    rewrite Hv. cbn [val_be length]. f_equal. lia. }
  rewrite (Hp a t), (Hp n (replicate 15 0)); [done|reflexivity| |done|done].
  apply Forall_replicate. unfold byte_ok; lia.
Qed.

Lemma in_cidr_v6_16 a b t n m len :
  length t = 14%nat -> bytes_ok t -> 0 <= len <= 16 ->
  in_cidr 128 (a :: b :: t) (n :: m :: replicate 14 0, len) <->
  (a * 256 + b) / 2 ^ (16 - len) = (n * 256 + m) / 2 ^ (16 - len).
Proof.
  intros Hl Ht Hlen. unfold in_cidr. cbn [fst snd].
  assert (Hp : forall x y u, length u = 14%nat -> bytes_ok u ->
    val_be (x :: y :: u) / 2 ^ (128 - len) = (x * 256 + y) / 2 ^ (16 - len)).
  { intros x y u Hu Hok. pose proof (val_be_prefix [x; y] u (16 - len) Hok ltac:(lia)) as Hv.
    rewrite Hu in Hv. cbn [app] in Hv.
    replace (8 * Z.of_nat 14 + (16 - len)) with (128 - len) in Hv by lia.
    rewrite Hv. cbn [val_be length]. f_equal.
    change (2 ^ (8 * Z.of_nat 1)) with 256. lia. }
  rewrite (Hp a b t), (Hp n m (replicate 14 0)); [done|reflexivity| |done|done].
  apply Forall_replicate. unfold byte_ok; lia.
Qed.

Lemma in_cidr_v6_full l n :
  ipv6_ok l -> ipv6_ok n -> in_cidr 128 l (n, 128) <-> l = n.
Proof.
  intros [Hl Hlok] [Hn Hnok]. unfold in_cidr. cbn [fst snd].
  rewrite Z.sub_diag, Z.pow_0_r, !Z.div_1_r. split; [|congruence].
  apply val_be_inj; congruence.
Qed.

(** The two masks of the standard library, as ranges of the first bytes. *)
Lemma unique_local_range a b :
  byte_ok a -> byte_ok b ->
  (Z.land (from_be16 a b) 0xfe00 =? 0xfc00) = (a / 2 =? 0xfc / 2).
Proof.
  unfold byte_ok. intros Ha Hb.
  assert (H : forallb (fun a => forallb (fun b => Bool.eqb (Z.land (from_be16 a b) 0xfe00 =? 0xfc00)
    (a / 2 =? 0xfc / 2)) (seqZ 0 256)) (seqZ 0 256) = true) by (vm_compute; reflexivity).
  rewrite forallb_forall in H. specialize (H a). rewrite forallb_forall in H.
  apply Bool.eqb_prop, H; apply list_elem_of_In, elem_of_seqZ; lia.
Qed.

Lemma link_local_range a b :
  byte_ok a -> byte_ok b ->
  (Z.land (from_be16 a b) 0xffc0 =? 0xfe80) = ((a * 256 + b) / 64 =? (0xfe * 256 + 0x80) / 64).
Proof.
  unfold byte_ok. intros Ha Hb.
  assert (H : forallb (fun a => forallb (fun b => Bool.eqb (Z.land (from_be16 a b) 0xffc0 =? 0xfe80)
    ((a * 256 + b) / 64 =? (0xfe * 256 + 0x80) / 64)) (seqZ 0 256)) (seqZ 0 256) = true)
    by (vm_compute; reflexivity).
  rewrite forallb_forall in H. specialize (H a). rewrite forallb_forall in H.
  apply Bool.eqb_prop, H; apply list_elem_of_In, elem_of_seqZ; lia.
Qed.

Lemma is_forbidden_v6_blocks octets :
  ipv6_ok octets ->
  ipv6_is_loopback octets || ipv6_is_unspecified octets || ipv6_is_unique_local octets
  || ipv6_is_unicast_link_local octets || ipv6_is_multicast octets = true
  <-> Exists (in_cidr 128 octets) forbidden_v6_blocks.
Proof.
  intros Hok. pose proof Hok as [Hlen Hb].
  destruct octets as [|a [|b t]]; try discriminate Hlen.
  cbn [length] in Hlen. injection Hlen as Hlen.
  inversion_clear Hb as [|? ? Ha Hbt]. inversion_clear Hbt as [|? ? Hb Ht].
  assert (Hsing : forall n, byte_ok n -> ipv6_ok (replicate 15 0 ++ [n])).
  { intros n Hn. split; [done|]. apply Forall_app. split; [|by apply Forall_singleton].
    apply Forall_replicate. unfold byte_ok; lia. }
  unfold ipv6_is_loopback, ipv6_is_unspecified, ipv6_is_unique_local,
    ipv6_is_unicast_link_local, ipv6_is_multicast, segment, forbidden_v6_blocks.
  cbn [nth Nat.mul Nat.add].
  rewrite unique_local_range, link_local_range by done.
  rewrite !orb_true_iff, !bool_decide_eq_true, !Z.eqb_eq, !Exists_cons, Exists_nil.
  rewrite in_cidr_v6_full by (done || apply Hsing; unfold byte_ok; lia).
  rewrite in_cidr_v6_full by (done || apply (Hsing 0); unfold byte_ok; lia).
  assert (bytes_ok (b :: t)) by by constructor.
  assert (length (b :: t) = 15%nat) by (cbn; lia).
  rewrite (in_cidr_v6_8 a (b :: t) 0xfc 7) by (done || lia).
  rewrite (in_cidr_v6_8 a (b :: t) 0xff 8) by (done || lia).
  rewrite (in_cidr_v6_16 a b t 0xfe 0x80 10) by (done || lia).
  replace (2 ^ (8 - 7)) with 2 by done. replace (2 ^ (16 - 10)) with 64 by done.
  replace (2 ^ (8 - 8)) with 1 by done. rewrite !Z.div_1_r. tauto.
Qed.

(** The code's address test is the CIDR policy, mapped addresses included. *)
Lemma is_forbidden_ip_iff ip : ip_ok ip -> is_forbidden_ip ip = true <-> forbidden_spec ip.
Proof.
  destruct ip as [v4|v6]; cbn; intros Hok; [by apply is_forbidden_ipv4_cidr|].
  unfold is_forbidden_ipv6. destruct (to_ipv4_mapped v6) as [v4|] eqn:Hm.
  - pose proof Hm as Heq. apply to_ipv4_mapped_spec in Heq.
    assert (ipv4_ok v4) by (subst; destruct Hok as [_ Hok]; by apply Forall_app in Hok as [_ ?]).
    rewrite is_forbidden_ipv4_cidr by done. split.
    + intros H4. left. by exists v4.
    + intros [(w & Hw & H4)|[Hno _]]; [|by destruct (Hno v4)].
      apply to_ipv4_mapped_spec in Hw. by simplify_eq.
  - rewrite is_forbidden_v6_blocks by done. split.
    + intros H6. right. split; [|done]. intros v4 H4. apply to_ipv4_mapped_spec in H4. congruence.
    + intros [(w & Hw & _)|[_ H6]]; [|done].
      apply to_ipv4_mapped_spec in Hw. congruence.
Qed.

Lemma check_addrs_ok addrs :
  check_addrs addrs = Ok tt <-> Forall (fun a => is_forbidden_ip (sock_ip a) = false) addrs.
Proof.
  induction addrs as [|a addrs IH]; cbn; [by split; [constructor|]|].
  rewrite Forall_cons, <- IH. destruct (is_forbidden_ip (sock_ip a)); naive_solver.
Qed.

Lemma check_addrs_cases addrs :
  check_addrs addrs = Ok tt \/
  exists a, a ∈ addrs /\ is_forbidden_ip (sock_ip a) = true
    /\ check_addrs addrs = Err (ForbiddenDestination (sock_display a)).
Proof.
  induction addrs as [|a addrs IH]; cbn; [by left|].
  destruct (is_forbidden_ip (sock_ip a)) eqn:Hf.
  - right. exists a. split; [left|done].
  - destruct IH as [?|(b & Hb & ? & ?)]; [by left|].
    right. exists b. split; [by right|done].
Qed.

(** ** Protocol dispatch *)

Definition protocol_enabled (e : EnabledProtocols) (p : Protocol) : bool :=
  match p with
  | Socks5 => ep_socks5 e
  | Vless => ep_vless e
  end.

Lemma from_wire_byte_iff b p : from_wire_byte b = Some p <-> b = wire_byte p.
Proof.
  unfold from_wire_byte, wire_byte, SOCKS5_WIRE_BYTE, VLESS_WIRE_BYTE. split.
  - intros H. splits; bool_hyps; congruence.
  - intros ->. by destruct p.
Qed.

Lemma detect_iff e b p :
  detect e b = Ok p <-> b = wire_byte p /\ protocol_enabled e p = true.
Proof.
  rewrite <- from_wire_byte_iff. unfold detect, protocol_enabled.
  destruct (from_wire_byte b) as [[]|]; destruct e as [[] []]; destruct p; cbn; naive_solver.
Qed.

(** ** Session identifiers *)

Lemma sessions_from_ids c peers :
  0 <= c -> Forall (fun s => exists i, 0 <= i < Z.of_nat (length peers)
     /\ session_no (ses_id s) = (c + i) mod 2 ^ 64) (sessions_from (c mod 2 ^ 64) peers).
Proof.
  revert c. induction peers as [|p peers IH]; intros c Hc; constructor.
  - exists 0. cbn. rewrite Z.add_0_r. split; [lia|done].
  - fold sessions_from. rewrite Z.add_mod_idemp_l by lia.
    eapply Forall_impl; [apply IH; lia|]. intros s (i & Hi & Hs).
    exists (i + 1). cbn. split; [lia|]. rewrite Hs. f_equal. lia.
Qed.

Lemma mod_shift_inj c i j m : 0 < m -> 0 <= i < m -> 0 <= j < m ->
  (c + i) mod m = (c + j) mod m -> i = j.
Proof.
  intros Hm Hi Hj He.
  assert (H : (i - j) mod m = 0).
  { replace (i - j) with ((c + i) - (c + j)) by lia. rewrite Zminus_mod, He, Z.sub_diag. done. }
  apply Z.mod_divide in H as [k Hk]; [|lia]. assert (k = 0) by nia. subst. lia.
Qed.

Lemma sessions_from_NoDup c peers :
  0 <= c -> Z.of_nat (length peers) <= 2 ^ 64 ->
  NoDup (map (fun s => session_no (ses_id s)) (sessions_from (c mod 2 ^ 64) peers)).
Proof.
  revert c. induction peers as [|p peers IH]; intros c Hc Hlen; constructor.
  - intros Hin. apply list_elem_of_fmap in Hin as (s & Hs & Hin).
    cbn in Hs, Hin. rewrite Z.add_mod_idemp_l in Hin by lia.
    pose proof (sessions_from_ids (c + 1) peers ltac:(lia)) as Hall.
    rewrite Forall_forall in Hall. destruct (Hall s Hin) as (i & Hi & Hid).
    rewrite Hid in Hs. cbn [length] in Hlen.
    assert (0 = 1 + i); [|lia].
    apply (mod_shift_inj c 0 (1 + i) (2 ^ 64)); try lia.
    rewrite Z.add_0_r, Hs. f_equal. lia.
  - cbn. rewrite Z.add_mod_idemp_l by lia. apply IH; [lia|]. cbn [length] in Hlen. lia.
Qed.

(** ** Redaction of bearer tokens *)

(** "bearer " in any letter case starts here. *)
Definition bearer_at (l : bytes) : bool :=
  (7 <=? length l)%nat && eq_ignore_ascii_case (take 7 l) BEARER_PREFIX.

Definition no_bearer (l : bytes) : Prop := forall i, bearer_at (drop i l) = false.

Definition push_str (l : bytes) : bytes := concat (map push_char l).

Lemma length_skip_token l : (length (skip_token l) <= length l)%nat.
Proof. induction l as [|b l IH]; cbn; [lia|]. case_match; cbn; lia. Qed.

Lemma redact_loop_fuel fuel l :
  (length l <= fuel)%nat -> redact_loop fuel l = redact_loop (length l) l.
Proof.
  revert l. induction fuel as [fuel IH] using lt_wf_ind. intros [|b t] Hf.
  - by destruct fuel.
  - destruct fuel as [|fuel]; [cbn in Hf; lia|]. cbn [length] in *. cbn [redact_loop].
    pose proof (length_skip_token (drop 7 (b :: t))) as Hs.
    rewrite length_drop in Hs. cbn [length] in Hs.
    case_match.
    + do 2 f_equal. rewrite (IH fuel), (IH (length t)) by lia. done.
    + f_equal. rewrite (IH fuel) by lia. done.
Qed.

Lemma redact_cons b t :
  redact_bearer_tokens (b :: t) =
  if bearer_at (b :: t)
  then push_str (take 7 (b :: t)) ++ bytes_of_string REDACTED
       ++ redact_bearer_tokens (skip_token (drop 7 (b :: t)))
  else push_char b ++ redact_bearer_tokens t.
Proof.
  unfold redact_bearer_tokens, bearer_at, push_str. cbn [length redact_loop].
  case_match; [|done]. do 2 f_equal. apply redact_loop_fuel.
  pose proof (length_skip_token (drop 7 (b :: t))) as Hs.
  rewrite length_drop in Hs. cbn [length] in Hs. lia.
Qed.

Lemma skip_token_app tok rest :
  Forall (fun b => is_bearer_token_boundary b = false) tok ->
  (forall b t, rest = b :: t -> is_bearer_token_boundary b = true) ->
  skip_token (tok ++ rest) = rest.
Proof.
  intros Htok Hrest. induction Htok as [|b tok Hb Htok IH]; cbn; [|by rewrite Hb].
  destruct rest as [|b t]; cbn; [done|]. by rewrite (Hrest b t).
Qed.

(** A keyword that follows bearer-free text cannot be matched earlier: "b"
    occurs in "bearer " only at its first position. *)
Lemma bearer_at_overlap p kw s :
  p <> [] -> bearer_at p = false -> length kw = 7%nat ->
  eq_ignore_ascii_case kw BEARER_PREFIX = true -> bearer_at (p ++ kw ++ s) = false.
Proof.
  intros Hne Hp Hlen Hkw. unfold bearer_at in *.
  apply not_true_is_false. intros H. apply andb_true_iff in H as [_ H].
  destruct (decide (7 <= length p)%nat) as [Hl|Hl].
  - rewrite take_app_le in H by lia. rewrite H, andb_true_r in Hp.
    apply Nat.leb_gt in Hp. lia.
  - unfold eq_ignore_ascii_case in *. bool_hyps.
    destruct kw as [|k0 kw]; [done|]. cbn in Hkw. injection Hkw as Hk0 _.
    apply (f_equal (fun l => l !! length p)) in H.
    change (map to_ascii_lowercase) with (fmap (M := list) to_ascii_lowercase) in H.
    rewrite list_lookup_fmap, lookup_take_lt in H by lia. cbn [app] in H.
    rewrite list_lookup_middle in H by done.
    cbn [fmap option_fmap option_map] in H. rewrite Hk0 in H.
    destruct p as [|x0 p]; [done|]. cbn [length] in *.
    do 6 (destruct p as [|? p]; [vm_compute in H; discriminate H|]). cbn in Hl. lia.
Qed.

Lemma redact_app p kw tok rest :
  no_bearer p -> length kw = 7%nat -> eq_ignore_ascii_case kw BEARER_PREFIX = true ->
  Forall (fun b => is_bearer_token_boundary b = false) tok ->
  (forall b t, rest = b :: t -> is_bearer_token_boundary b = true) ->
  redact_bearer_tokens (p ++ kw ++ tok ++ rest)
  = push_str p ++ push_str kw ++ bytes_of_string REDACTED ++ redact_bearer_tokens rest.
Proof.
  intros Hp Hlen Hkw Htok Hrest. induction p as [|b p IH].
  - destruct kw as [|k0 kw]; [done|]. cbn [app].
    assert (Ht : forall s, take 7 (k0 :: kw ++ s) = k0 :: kw /\ drop 7 (k0 :: kw ++ s) = s).
    { intros s. change (k0 :: kw ++ s) with ((k0 :: kw) ++ s). rewrite <- Hlen.
      by rewrite take_app_length, drop_app_length. }
    destruct (Ht (tok ++ rest)) as [Ht1 Ht2].
    rewrite redact_cons, Ht1, Ht2, skip_token_app by done.
    unfold bearer_at. rewrite Ht1, Hkw.
    replace (7 <=? length (k0 :: kw ++ tok ++ rest))%nat with true; [done|].
    symmetry. apply Nat.leb_le. cbn [length] in *. rewrite length_app. lia.
  - cbn [app]. rewrite redact_cons.
    change (b :: p ++ kw ++ tok ++ rest) with ((b :: p) ++ kw ++ (tok ++ rest)).
    rewrite bearer_at_overlap by (done || apply (Hp 0%nat)).
    rewrite IH; [cbn; by rewrite <- app_assoc|]. intros i. apply (Hp (S i)).
Qed.

Lemma redact_plain l :
  no_bearer l -> Forall (fun b => b < 128) l -> redact_bearer_tokens l = l.
Proof.
  intros Hn Hl. induction Hl as [|b l Hb Hl IH]; [done|].
  rewrite redact_cons, (Hn 0%nat : bearer_at (b :: l) = false).
  unfold push_char. rewrite (proj2 (Z.ltb_lt _ _) Hb). cbn. f_equal.
  apply IH. intros i. apply (Hn (S i)).
Qed.

(** ** Properties *)

(** C22: the SSRF filter is a CIDR policy. For every well-formed address,
    [is_forbidden_ip] answers [true] exactly on the documented IPv4 blocks, on
    the IPv4-mapped IPv6 forms of those blocks, and on the IPv6 loopback,
    unspecified, unique-local, link-local and multicast blocks. *)
Theorem forbidden_ip_is_cidr_policy (ip : IpAddr) (Hok : ip_ok ip) :
  is_forbidden_ip ip = true <-> forbidden_spec ip.
Proof. by apply is_forbidden_ip_iff. Qed.

Lemma forbidden_ip_is_cidr_policy_witness :
  forbidden_spec (V6 (mapped_prefix ++ [10; 0; 0; 1])) /\ ~ forbidden_spec (V4 (Ipv4 8 8 8 8)).
Proof.
  split.
  - apply (forbidden_ip_is_cidr_policy (V6 (mapped_prefix ++ [10; 0; 0; 1]))); [|reflexivity].
    split; [reflexivity|]. solve_bytes_ok.
  - assert (Hok : ip_ok (V4 (Ipv4 8 8 8 8))) by (unfold ip_ok, ipv4_ok; solve_bytes_ok).
    intros H. pose proof (proj2 (forbidden_ip_is_cidr_policy _ Hok) H) as Hc. discriminate Hc.
Defined.

(** redaction removes the token. In text that contains no earlier
    "bearer " keyword, the keyword (in any letter case) is kept, the token after
    it is replaced by [[REDACTED]] whatever its bytes are, and redaction goes on
    after the token: the output does not depend on the token. *)
Theorem redact_hides_token (p kw tok rest : bytes)
    (Hp : no_bearer p) (Hlen : length kw = 7%nat)
    (Hkw : eq_ignore_ascii_case kw BEARER_PREFIX = true)
    (Htok : Forall (fun b => is_bearer_token_boundary b = false) tok)
    (Hrest : forall b t, rest = b :: t -> is_bearer_token_boundary b = true) :
  redact_bearer_tokens (p ++ kw ++ tok ++ rest)
  = push_str p ++ push_str kw ++ bytes_of_string REDACTED ++ redact_bearer_tokens rest.
Proof. by apply redact_app. Qed.

Lemma redact_hides_token_witness :
  redact_bearer_tokens (bytes_of_string "auth: Bearer s3cret, next")
  = bytes_of_string "auth: Bearer [REDACTED], next".
Proof.
  change (bytes_of_string "auth: Bearer s3cret, next") with
    (bytes_of_string "auth: " ++ bytes_of_string "Bearer " ++ bytes_of_string "s3cret"
     ++ bytes_of_string ", next").
  rewrite (redact_hides_token (bytes_of_string "auth: ") (bytes_of_string "Bearer ")
             (bytes_of_string "s3cret") (bytes_of_string ", next")).
  - vm_compute. reflexivity.
  - intros i. do 7 (destruct i as [|i]; [reflexivity|]). reflexivity.
  - reflexivity.
  - reflexivity.
  - repeat constructor.
  - intros b t [= <- <-]. reflexivity.
Defined.

(** session identifiers are unique. Along any run that opens at most
    2^64 sessions, whatever value the wrapping [AtomicU64] counter starts from,
    no two sessions get the same identifier. *)
Theorem session_ids_unique (c : Z) (peers : list SocketAddr)
    (Hc : 0 <= c) (Hlen : Z.of_nat (length peers) <= 2 ^ 64) :
  NoDup (map (fun s => session_no (ses_id s)) (sessions_from (c mod 2 ^ 64) peers)).
Proof. by apply sessions_from_NoDup. Qed.

Lemma session_ids_unique_witness :
  map (fun s => session_no (ses_id s))
    (sessions_from (2 ^ 64 - 1) [SockV4 (Ipv4 1 1 1 1) 1; SockV4 (Ipv4 1 1 1 1) 2]) = [2 ^ 64 - 1; 0]
  /\ NoDup (map (fun s => session_no (ses_id s))
    (sessions_from ((2 ^ 64 - 1) mod 2 ^ 64) [SockV4 (Ipv4 1 1 1 1) 1; SockV4 (Ipv4 1 1 1 1) 2])).
Proof.
  split; [vm_compute; reflexivity|].
  apply (session_ids_unique (2 ^ 64 - 1)); [lia | cbn; lia].
Defined.
