(* ===== verification/Io.v ===== *)
(** * Errors and byte streams
    The parts of [anyhow] and of tokio's [AsyncRead]/[AsyncWrite] that the
    handshakes use: error chains with their messages, a duplex stream as an
    explicit state, and a state monad whose computations succeed, fail, panic
    or wait for the peer. *)

From Stdlib Require Import Ascii String.
From stdpp Require Import base list numbers strings pretty.
From S2P Require Import Prelude.

(** ** Errors *)

Inductive ErrorKind := UnexpectedEof | BrokenPipe | TimedOut | InvalidData | NotConnected | WriteZero | Unsupported | OtherKind.

#[export] Instance ErrorKind_eq_dec : EqDecision ErrorKind.
Proof. solve_decision. Defined.

(** [std::io::Error]: kind and text. *)
Record io_error := IoError { io_kind : ErrorKind; io_msg : string }.

#[export] Instance io_error_eq_dec : EqDecision io_error.
Proof. solve_decision. Defined.

(** [anyhow::Error]: the context chain, outermost message first. *)
Record anyhow := Anyhow { chain : list string }.

Definition bail (msg : string) : anyhow := Anyhow [msg].
Definition anyhow_of_io (e : io_error) : anyhow := Anyhow [io_msg e].
Definition add_context (c : string) (e : anyhow) : anyhow := Anyhow (c :: chain e).

(** [err.to_string()]: the outermost message. *)
Definition anyhow_to_string (e : anyhow) : string :=
  match chain e with
  | [] => EmptyString
  | m :: _ => m
  end.

(** ** Streams *)

(** [rx] holds the bytes that reach us from the peer, [rx_eof] says whether the
    peer closes after them (otherwise a read beyond them waits), [tx] what we
    sent, [tx_quota] how much more the transport takes ([None]: everything). *)

(** A transport that goes bad: after so many more bytes it takes no more, and either
    breaks or just never becomes writable again. *)
Record tx_limit := TxLimit { tl_bytes : nat; tl_stalls : bool }.

Record stream := Stream { rx : bytes; rx_eof : bool; tx : bytes; tx_quota : option tx_limit }.

Inductive outcome (E A : Type) : Type :=
| Done (a : A)
| Fail (e : E)
| Crash
| Pending.
Arguments Done {E A} _.
Arguments Fail {E A} _.
Arguments Crash {E A}.
Arguments Pending {E A}.

Definition io (E A : Type) : Type := stream -> outcome E A * stream.

#[export] Instance io_ret E : MRet (io E) := fun A a s => (Done a, s).
#[export] Instance io_bind E : MBind (io E) := fun A B f m s =>
  match m s with
  | (Done a, s) => f a s
  | (Fail e, s) => (Fail e, s)
  | (Crash, s) => (Crash, s)
  | (Pending, s) => (Pending, s)
  end.

Definition fail {E A} (e : E) : io E A := fun s => (Fail e, s).

(** [e?] with a conversion of the error, and a pure result used in a handler. *)
Definition io_map_err {E F A} (f : E -> F) (m : io E A) : io F A := fun s =>
  match m s with
  | (Done a, s) => (Done a, s)
  | (Fail e, s) => (Fail (f e), s)
  | (Crash, s) => (Crash, s)
  | (Pending, s) => (Pending, s)
  end.

Definition of_res {E A} (r : res E A) : io E A := fun s =>
  match r with
  | Ok a => (Done a, s)
  | Err e => (Fail e, s)
  | Panic => (Crash, s)
  end.

Definition with_context {A} (c : string) (m : io io_error A) : io anyhow A :=
  io_map_err (fun e => add_context c (anyhow_of_io e)) m.
Definition io_q {A} (m : io io_error A) : io anyhow A := io_map_err anyhow_of_io m.

(** [let _ = m.await;]: the result is dropped. *)
Definition ignore {E F A} (m : io E A) : io F unit := fun s =>
  match m s with
  | (Crash, s) => (Crash, s)
  | (Pending, s) => (Pending, s)
  | (_, s) => (Done tt, s)
  end.

Definition early_eof : io_error := IoError UnexpectedEof "early eof".
Definition broken_pipe : io_error := IoError BrokenPipe "broken pipe".

(** [reader.read_exact(&mut buf)] with a buffer of [n] bytes. *)
Definition read_exact (n : nat) : io io_error bytes := fun s =>
  if (n <=? length (rx s))%nat
  then (Done (take n (rx s)), Stream (drop n (rx s)) (rx_eof s) (tx s) (tx_quota s))
  else (if rx_eof s then Fail early_eof else Pending, Stream [] (rx_eof s) (tx s) (tx_quota s)).

(** How an operation ends on a transport that takes no more. *)
Definition tx_stuck {A} (l : tx_limit) : outcome io_error A := if tl_stalls l then Pending else Fail broken_pipe.

(** [writer.write_all(buf)]: the bytes leave one after the other, so that a write that
    fails or waits has sent a part of them. *)
Definition write_all (buf : bytes) : io io_error unit := fun s =>
  match tx_quota s with
  | None => (Done tt, Stream (rx s) (rx_eof s) (tx s ++ buf) None)
  | Some l =>
    (if (length buf <=? tl_bytes l)%nat then Done tt else tx_stuck l,
     Stream (rx s) (rx_eof s) (tx s ++ take (tl_bytes l) buf) (Some (TxLimit (tl_bytes l - length buf) (tl_stalls l))))
  end.

(** [writer.flush()], which does not end well once the transport takes no more. *)
Definition flush : io io_error unit := fun s =>
  match tx_quota s with
  | Some l => if (tl_bytes l =? 0)%nat then (tx_stuck l, s) else (Done tt, s)
  | None => (Done tt, s)
  end.

(** [tokio::time::timeout(d, m)] with [bail!(msg)] on expiry: what arrives
    before the deadline is [rx], so only a computation that waits expires. *)
Definition with_timeout {A} (msg : string) (m : io anyhow A) : io anyhow A := fun s =>
  match m s with
  | (Pending, s) => (Fail (bail msg), s)
  | r => r
  end.

(** ** Lemmas *)

Lemma read_exact_app n p s eof t q :
  length p = n -> read_exact n (Stream (p ++ s) eof t q) = (Done p, Stream s eof t q).
Proof.
  intros <-. unfold read_exact. cbn [rx rx_eof tx tx_quota].
  rewrite length_app, (proj2 (Nat.leb_le _ _)) by lia.
  by rewrite take_app_length, drop_app_length.
Qed.

Lemma read_exact_done n s b s' :
  read_exact n s = (Done b, s') ->
  rx s = b ++ rx s' /\ length b = n /\ rx_eof s' = rx_eof s /\ tx s' = tx s /\ tx_quota s' = tx_quota s.
Proof.
  unfold read_exact. case_match eqn:Hn; [|by destruct (rx_eof s)].
  intros [= <- <-]. apply Nat.leb_le in Hn. cbn.
  rewrite take_drop, length_take_le by lia. done.
Qed.

Lemma read_exact_tx n s : tx (read_exact n s).2 = tx s.
Proof. unfold read_exact. by case_match. Qed.

Lemma read_exact_no_crash n s : (read_exact n s).1 <> Crash.
Proof. unfold read_exact. case_match; [done|]. by destruct (rx_eof s). Qed.

(** ** Reasoning about successful runs *)

Definition with_rx (r : bytes) (s : stream) : stream := Stream r (rx_eof s) (tx s) (tx_quota s).
Definition with_tx (t : bytes) (s : stream) : stream := Stream (rx s) (rx_eof s) t (tx_quota s).

Lemma bind_done {E A B} (m : io E A) (f : A -> io E B) s b s' :
  (m ≫= f) s = (Done b, s') <-> exists a s1, m s = (Done a, s1) /\ f a s1 = (Done b, s').
Proof.
  unfold mbind, io_bind. destruct (m s) as [[a|e| |] s1]; naive_solver.
Qed.

Lemma map_err_done {E F A} (g : E -> F) (m : io E A) s a s' :
  io_map_err g m s = (Done a, s') <-> m s = (Done a, s').
Proof. unfold io_map_err. destruct (m s) as [[]]; naive_solver. Qed.

Lemma of_res_done {E A} (r : res E A) s a s' :
  of_res r s = (Done a, s') <-> r = Ok a /\ s' = s.
Proof. unfold of_res. destruct r; naive_solver. Qed.

Lemma timeout_done {A} msg (m : io anyhow A) s a s' :
  with_timeout msg m s = (Done a, s') <-> m s = (Done a, s').
Proof. unfold with_timeout. destruct (m s) as [[]]; naive_solver. Qed.

Lemma read_exact_iff n s b s' :
  read_exact n s = (Done b, s') <->
  exists rest, rx s = b ++ rest /\ length b = n /\ s' = with_rx rest s.
Proof.
  split.
  - intros H. pose proof (read_exact_done _ _ _ _ H) as (H1 & H2 & H3 & H4 & H5).
    exists (rx s'). split_and!; [done|done|]. destruct s'; cbn in *. by subst.
  - intros (rest & Hrx & Hl & ->). destruct s as [r eof t q]. cbn in *. subst r.
    by apply read_exact_app.
Qed.

Lemma write_all_iff buf s u s' :
  tx_quota s = None ->
  write_all buf s = (Done u, s') <-> s' = with_tx (tx s ++ buf) s.
Proof.
  intros Hq. unfold write_all, with_tx. rewrite Hq. destruct u. naive_solver.
Qed.

(** Run forward: one [bind] at a time, reads consume a known prefix. *)
Lemma bind_run {E A B} (m : io E A) (f : A -> io E B) s a s1 r :
  m s = (Done a, s1) -> f a s1 = r -> (m ≫= f) s = r.
Proof. unfold mbind, io_bind. by intros ->. Qed.

Lemma bind_fail {E A B} (m : io E A) (f : A -> io E B) s e s1 :
  m s = (Fail e, s1) -> (m ≫= f) s = (Fail e, s1).
Proof. unfold mbind, io_bind. by intros ->. Qed.

Lemma run_read w rest s n :
  rx s = w ++ rest -> length w = n -> read_exact n s = (Done w, with_rx rest s).
Proof. intros. apply read_exact_iff. by exists rest. Qed.

Lemma run_read_q w rest s n :
  rx s = w ++ rest -> length w = n -> io_q (read_exact n) s = (Done w, with_rx rest s).
Proof. intros. apply map_err_done. by apply run_read. Qed.

Lemma run_res {E A} (r : res E A) a s : r = Ok a -> of_res r s = (Done a, s).
Proof. by intros ->. Qed.

Lemma timeout_fail {A} msg (m : io anyhow A) s e s' :
  m s = (Fail e, s') -> with_timeout msg m s = (Fail e, s').
Proof. unfold with_timeout. by intros ->. Qed.

Lemma with_rx_twice r1 r2 s : with_rx r1 (with_rx r2 s) = with_rx r1 s.
Proof. done. Qed.

(** Take a successful run apart, one [bind] at a time. *)
Ltac io_inv H :=
  lazymatch type of H with
  | (mbind _ _) _ = (Done _, _) =>
      let a := fresh "a" in let s1 := fresh "s" in let H1 := fresh "H" in
      apply bind_done in H as (a & s1 & H1 & H); io_inv H1; cbv beta zeta in H; io_inv H
  | io_map_err _ _ _ = (Done _, _) => apply map_err_done in H; io_inv H
  | io_q _ _ = (Done _, _) => apply map_err_done in H; io_inv H
  | with_context _ _ _ = (Done _, _) => apply map_err_done in H; io_inv H
  | of_res _ _ = (Done _, _) => apply of_res_done in H as [H ->]
  | read_exact _ _ = (Done _, _) =>
      let r := fresh "rest" in let Hr := fresh "Hrx" in let Hl := fresh "Hlen" in
      apply read_exact_iff in H as (r & Hr & Hl & ->)
  | mret _ _ = (Done _, _) => first [injection H as <- <- | injection H as <-]
  | fail _ _ = (Done _, _) => discriminate H
  | (match ?p with (_, _) => _ end) _ = (Done _, _) => destruct p; io_inv H
  | _ => idtac
  end.

(** Computations that never panic. *)
Definition no_crash {E A} (m : io E A) : Prop := forall s, (m s).1 <> Crash.

Lemma no_crash_bind {E A B} (m : io E A) (f : A -> io E B) :
  no_crash m -> (forall s a s', m s = (Done a, s') -> no_crash (f a)) -> no_crash (m ≫= f).
Proof.
  intros Hm Hf s. unfold mbind, io_bind. specialize (Hm s). specialize (Hf s).
  destruct (m s) as [[a|e| |] s']; try done. by apply (Hf a s').
Qed.

Lemma no_crash_ret {E A} (a : A) : no_crash (mret a : io E A).
Proof. done. Qed.

Lemma no_crash_fail {E A} (e : E) : no_crash (fail e : io E A).
Proof. done. Qed.

Lemma no_crash_read n : no_crash (read_exact n).
Proof. intros s. apply read_exact_no_crash. Qed.

Lemma no_crash_write b : no_crash (write_all b).
Proof. intros s. unfold write_all, tx_stuck. by repeat case_match. Qed.

Lemma no_crash_flush : no_crash flush.
Proof. intros s. unfold flush, tx_stuck. by repeat case_match. Qed.

(** A write sends a part of its bytes, all of them on a transport that takes everything. *)
Lemma write_all_sends buf s : exists n, tx (write_all buf s).2 = tx s ++ take n buf /\ rx (write_all buf s).2 = rx s.
Proof.
  unfold write_all. destruct (tx_quota s) as [l|]; [by exists (tl_bytes l)|].
  exists (length buf). by rewrite firstn_all.
Qed.

Lemma write_all_ok buf s u s' : write_all buf s = (Done u, s') -> tx s' = tx s ++ buf /\ rx s' = rx s.
Proof.
  unfold write_all. destruct (tx_quota s) as [l|]; [|by intros [= _ <-]].
  destruct (length buf <=? tl_bytes l)%nat eqn:E; [|by unfold tx_stuck; destruct (tl_stalls l)].
  intros [= _ <-]. cbn. apply Nat.leb_le in E. by rewrite take_ge by lia.
Qed.

Lemma flush_keeps s : (flush s).2 = s.
Proof. unfold flush. by repeat case_match. Qed.

Lemma flush_run s : tx_quota s = None -> flush s = (Done tt, s).
Proof. unfold flush. by intros ->. Qed.

Lemma no_crash_map_err {E F A} (g : E -> F) (m : io E A) : no_crash m -> no_crash (io_map_err g m).
Proof. intros H s. unfold io_map_err. specialize (H s). by destruct (m s) as [[] ?]. Qed.

Lemma no_crash_ignore {E F A} (m : io E A) : no_crash m -> no_crash (ignore (F:=F) m).
Proof. intros H s. unfold ignore. specialize (H s). by destruct (m s) as [[] ?]. Qed.

Lemma no_crash_of_res {E A} (r : res E A) : r <> Panic -> no_crash (of_res r).
Proof. intros H s. by destruct r. Qed.

Lemma no_crash_timeout {A} msg (m : io anyhow A) : no_crash m -> no_crash (with_timeout msg m).
Proof. intros H s. unfold with_timeout. specialize (H s). by destruct (m s) as [[] ?]. Qed.

#[export] Hint Resolve no_crash_ret no_crash_fail no_crash_read no_crash_write no_crash_flush
  no_crash_map_err no_crash_ignore no_crash_of_res no_crash_timeout : wire.

(** Computations that send nothing. *)
Definition keeps_tx {E A} (m : io E A) : Prop := forall s, tx (m s).2 = tx s.

Lemma keeps_tx_bind {E A B} (m : io E A) (f : A -> io E B) :
  keeps_tx m -> (forall a, keeps_tx (f a)) -> keeps_tx (m ≫= f).
Proof.
  intros Hm Hf s. unfold mbind, io_bind. specialize (Hm s).
  destruct (m s) as [[a|e| |] s']; cbn in *; try done. by rewrite Hf.
Qed.

Lemma keeps_tx_ret {E A} (a : A) : keeps_tx (mret a : io E A).
Proof. done. Qed.

Lemma keeps_tx_fail {E A} (e : E) : keeps_tx (fail e : io E A).
Proof. done. Qed.

Lemma keeps_tx_read n : keeps_tx (read_exact n).
Proof. intros s. apply read_exact_tx. Qed.

Lemma keeps_tx_of_res {E A} (r : res E A) : keeps_tx (of_res r).
Proof. intros s. by destruct r. Qed.

Lemma keeps_tx_map_err {E F A} (g : E -> F) (m : io E A) : keeps_tx m -> keeps_tx (io_map_err g m).
Proof. intros H s. unfold io_map_err. specialize (H s). by destruct (m s) as [[] ?]. Qed.

Create HintDb silent discriminated.
#[export] Hint Resolve keeps_tx_ret keeps_tx_fail keeps_tx_read keeps_tx_of_res keeps_tx_map_err : silent.

Ltac solve_keeps_tx :=
  repeat first
    [ progress eauto with silent
    | apply keeps_tx_bind; [|intros ?]
    | progress unfold with_context, io_q
    | apply keeps_tx_map_err
    | match goal with
      | |- keeps_tx (let _ := _ in _) => cbv zeta
      | |- keeps_tx (if ?c then _ else _) => destruct c
      | |- keeps_tx (match ?x with _ => _ end) => destruct x
      end ].

Lemma run_read_ctx c w rest s n :
  rx s = w ++ rest -> length w = n -> with_context c (read_exact n) s = (Done w, with_rx rest s).
Proof. intros. apply map_err_done. by apply run_read. Qed.

(** Under a timeout nothing waits. *)
Lemma timeout_returns {A} msg (m : io anyhow A) s :
  no_crash m ->
  (exists a, (with_timeout msg m s).1 = Done a) \/ (exists e, (with_timeout msg m s).1 = Fail e).
Proof. intros H. specialize (H s). unfold with_timeout. destruct (m s) as [[] ?]; cbn in *; eauto. done. Qed.

Lemma idx_no_panic {E} (l : bytes) i : (i < length l)%nat -> @idx E l i <> Panic.
Proof. intros H. destruct (@idx_lt E l i H) as (b & -> & _). done. Qed.

Lemma map_err_no_panic {E F A} (f : E -> F) (r : res E A) : r <> Panic -> map_err f r <> Panic.
Proof. by destruct r. Qed.

Lemma map_err_ok {E F A} (f : E -> F) (r : res E A) a : map_err f r = Ok a <-> r = Ok a.
Proof. destruct r; naive_solver. Qed.

#[export] Hint Resolve map_err_no_panic : wire.

(** [no_crash] goals: walk the binds, splitting conditionals. *)
Ltac solve_no_crash :=
  repeat first
    [ assumption
    | progress eauto with wire
    | apply no_crash_bind; [|let s := fresh "s" in let a := fresh "a" in let s' := fresh "s" in
                             let H := fresh "Hrun" in intros s a s' H; io_inv H]
    | progress unfold with_context, io_q
    | apply no_crash_map_err | apply no_crash_ignore | apply no_crash_timeout
    | apply no_crash_of_res
    | apply map_err_no_panic
    | apply idx_no_panic; lia
    | match goal with
      | |- no_crash (let _ := _ in _) => cbv zeta
      | |- no_crash (if ?c then _ else _) => destruct c eqn:?
      | |- no_crash (match ?x with _ => _ end) => destruct x
      end ].

(** ** The [subtle] crate
    Constant-time comparison is third-party code: an interface with the law its
    documentation states. *)

Class ConstantTimeEq := {
  ct_eq : bytes -> bytes -> bool;
  ct_eq_spec : forall a b, length a = length b -> ct_eq a b = bool_decide (a = b)
}.

(** A reference implementation, for concrete runs: fold the differences. *)
Definition ct_eq_ref (a b : bytes) : bool :=
  (foldr Z.lor 0 (zip_with Z.lxor a b)) =? 0.

Lemma ct_eq_ref_spec a b : length a = length b -> ct_eq_ref a b = bool_decide (a = b).
Proof.
  unfold ct_eq_ref. revert b. induction a as [|x a IH]; intros [|y b] Hl; try done.
  injection Hl as Hl. specialize (IH b Hl). cbn [zip_with foldr].
  assert (IH' : foldr Z.lor 0 (zip_with Z.lxor a b) = 0 <-> a = b)
    by (rewrite <- Z.eqb_eq, IH; apply bool_decide_eq_true).
  apply eq_true_iff_eq. rewrite Z.eqb_eq, Z.lor_eq_0_iff, Z.lxor_eq_0_iff, bool_decide_eq_true.
  naive_solver.
Qed.

#[export] Instance ct_eq_reference : ConstantTimeEq :=
  {| ct_eq := ct_eq_ref; ct_eq_spec := ct_eq_ref_spec |}.
