(* ===== verification/Outbound.v ===== *)
(** * Outbound destination policy
    Models crates/skadi-transport/src/outbound_policy.rs. The name resolver
    [tokio::net::lookup_host] is a parameter: its answers are arbitrary. *)

From Stdlib Require Import Ascii String.
From stdpp Require Import base list numbers strings pretty.
From S2P Require Import Prelude Core Io.

Section Resolve.
Context (lookup_host : string -> io_error + list SocketAddr).

Definition core_err (e : Error) : anyhow := bail (error_display e).

Definition resolve_endpoint_addrs (endpoint : Endpoint) (allow_private : bool)
    : res anyhow (list SocketAddr) :=
  _ ← map_err core_err (validate_outbound_literal endpoint allow_private);
  addrs ← match endpoint with
          | Ip addr => Ok [addr]
          | Domain host port =>
            let name := host +:+ ":" +:+ pretty port in
            match lookup_host name with
            | inl e => Err (add_context ("failed to resolve " +:+ name) (anyhow_of_io e))
            | inr [] => Err (bail ("no addresses for " +:+ name))
            | inr (a :: l) => Ok (a :: l)
            end
          end;
  _ ← map_err core_err (validate_resolved_addrs addrs allow_private);
  Ok addrs.

(** [addrs.iter().find(|a| a.is_ipv4()).copied().unwrap_or(addrs[0])]; the
    argument of [unwrap_or] is evaluated first, so an empty list panics. *)
Definition prefer_ipv4 (addrs : list SocketAddr) : res anyhow SocketAddr :=
  match addrs with
  | [] => Panic
  | a0 :: _ => Ok (default a0 (List.find sock_is_ipv4 addrs))
  end.

Definition resolve_endpoint (endpoint : Endpoint) (allow_private : bool) : res anyhow SocketAddr :=
  addrs ← resolve_endpoint_addrs endpoint allow_private;
  prefer_ipv4 addrs.

Lemma prefer_ipv4_elem addrs a : prefer_ipv4 addrs = Ok a -> a ∈ addrs.
Proof.
  destruct addrs as [|a0 l]; [done|]. intros H.
  assert (a = default a0 (List.find sock_is_ipv4 (a0 :: l))) as -> by by injection H.
  destruct (List.find sock_is_ipv4 (a0 :: l)) as [x|] eqn:Hf; [cbn|left].
  apply List.find_some in Hf as [Hin _]. by apply list_elem_of_In.
Qed.

Lemma resolve_endpoint_addrs_ok endpoint allow_private addrs :
  resolve_endpoint_addrs endpoint allow_private = Ok addrs ->
  addrs <> [] /\ (allow_private = false -> Forall (fun a => is_forbidden_ip (sock_ip a) = false) addrs).
Proof.
  unfold resolve_endpoint_addrs. intros H.
  destruct (validate_outbound_literal endpoint allow_private) as [[]| |]; cbn in H; try done.
  destruct endpoint as [addr|host port]; cbn in H.
  - unfold validate_resolved_addrs in H. destruct allow_private; simplify_eq/=; [done|].
    destruct (is_forbidden_ip (sock_ip addr)) eqn:Hf; simplify_eq/=. split; [done|].
    intros _. by repeat constructor.
  - destruct (lookup_host _) as [e|[|a l]]; cbn in H; try done.
    destruct (validate_resolved_addrs (a :: l) allow_private) as [[]| |] eqn:Hv; cbn in H; try done.
    injection H as <-. split; [done|]. intros ->. by apply check_addrs_ok.
Qed.

Lemma validate_outbound_literal_no_panic e b : validate_outbound_literal e b <> Panic.
Proof. unfold validate_outbound_literal. by repeat case_match. Qed.

Lemma validate_resolved_addrs_no_panic l b : validate_resolved_addrs l b <> Panic.
Proof.
  unfold validate_resolved_addrs. destruct b; [done|].
  destruct (check_addrs_cases l) as [->|(a & _ & _ & ->)]; done.
Qed.

Lemma resolve_endpoint_addrs_no_panic e b : resolve_endpoint_addrs e b <> Panic.
Proof.
  unfold resolve_endpoint_addrs.
  pose proof (validate_outbound_literal_no_panic e b).
  destruct (validate_outbound_literal e b) as [[]| |]; cbn; try done.
  destruct e as [addr|host port]; cbn.
  - pose proof (validate_resolved_addrs_no_panic [addr] b).
    by destruct (validate_resolved_addrs [addr] b).
  - destruct (lookup_host _) as [?|[|a l]]; cbn; try done.
    pose proof (validate_resolved_addrs_no_panic (a :: l) b).
    by destruct (validate_resolved_addrs (a :: l) b).
Qed.
End Resolve.

(** ** Properties *)

(** no destination reaches the dialler that the policy forbids. With
    [allow_private = false], for every resolver answer, an address that
    [resolve_endpoint] returns lies in no forbidden CIDR block, and the
    function never panics. *)
Theorem resolve_never_forbidden (lookup_host : string -> io_error + list SocketAddr)
    (endpoint : Endpoint) (addr : SocketAddr) :
  resolve_endpoint lookup_host endpoint false <> Panic /\
  (resolve_endpoint lookup_host endpoint false = Ok addr -> ip_ok (sock_ip addr) ->
   ~ forbidden_spec (sock_ip addr)).
Proof.
  unfold resolve_endpoint.
  pose proof (resolve_endpoint_addrs_no_panic lookup_host endpoint false) as Hnp.
  destruct (resolve_endpoint_addrs lookup_host endpoint false) as [addrs| |] eqn:Hr; cbn; try done.
  destruct (resolve_endpoint_addrs_ok _ _ _ _ Hr) as [Hne Hall]. split.
  - by destruct addrs.
  - intros Hp Hok Hf. apply is_forbidden_ip_iff in Hf; [|done].
    apply prefer_ipv4_elem in Hp. pose proof (Hall eq_refl) as Ha.
    rewrite Forall_forall in Ha. rewrite Ha in Hf; done.
Qed.

Definition demo_resolver (name : string) : io_error + list SocketAddr :=
  if bool_decide (name = "example.com:443")
  then inr [SocketAddr_new (V6 [0x26; 6; 0x47; 0; 0; 0; 0; 0; 0; 0; 0; 0; 0; 0; 0; 1]) 443;
            SocketAddr_new (V4 (Ipv4 93 184 216 34)) 443]
  else inr [SocketAddr_new (V4 (Ipv4 127 0 0 1)) 80].

Lemma resolve_never_forbidden_witness :
  resolve_endpoint demo_resolver (Domain "example.com" 443) false
    = Ok (SocketAddr_new (V4 (Ipv4 93 184 216 34)) 443)
  /\ ~ forbidden_spec (V4 (Ipv4 93 184 216 34)).
Proof.
  split; [vm_compute; reflexivity|].
  apply (resolve_never_forbidden demo_resolver (Domain "example.com" 443)
           (SocketAddr_new (V4 (Ipv4 93 184 216 34)) 443)).
  - vm_compute; reflexivity.
  - unfold ip_ok, ipv4_ok. cbn [sock_ip SocketAddr_new]. solve_bytes_ok.
Defined.
