(* ===== verification/Connect.v ===== *)
(** * Outbound dialling
    Models the outbound transports: the address loop of
    crates/skadi-transport/src/tcp.rs, the TLS and REALITY dialers of
    tls_client.rs and reality_tls_client.rs, the choice between them of
    outbound.rs, and the trait [OutboundTransport] of connect.rs as a class with
    its four implementations. The system resolver, the sockets and the rustls
    handshakes are inputs. *)

From Stdlib Require Import Ascii String.
From stdpp Require Import base numbers strings pretty list.
From S2P Require Import Prelude Core Io Outbound.

(** ** What the system answers *)

Inductive dial_result := Connected (fd : Z) | Refused (e : io_error) | DialTimeout.

(** A TLS handshake on a connected socket: the session, an error or a timeout. *)
Inductive tls_result := Established (session : Z) | TlsFailed (e : io_error) | TlsTimeout.

(** [rustls_pki_types::ServerName]. *)
Inductive ServerName := DnsName (name : string) | IpAddress (ip : IpAddr).

Record Net := {
  lookup_host : string -> io_error + list SocketAddr;
  tcp_connect : SocketAddr -> dial_result;
  set_nodelay : Z -> option io_error;
  server_name_of : string -> option ServerName;
  tls_handshake : ServerName -> Z -> tls_result
}.

(** ** tcp.rs *)

Record TcpTransport := { tcp_connect_timeout : Z; tcp_allow_private : bool }.

Definition tcp_with_policy (connect_timeout : Z) (allow_private : bool) : TcpTransport :=
  {| tcp_connect_timeout := connect_timeout; tcp_allow_private := allow_private |}.

Definition tcp_new (connect_timeout : Z) : TcpTransport := tcp_with_policy connect_timeout true.

(** A dialer's result, with the addresses it has dialled in order. *)
Definition dialed (A : Type) : Type := res anyhow A * list SocketAddr.

(** The loop over the resolved addresses. *)
Fixpoint try_addrs (net : Net) (addrs : list SocketAddr) (last_err : option io_error) : dialed Z :=
  match addrs with
  | [] =>
    (Err (match last_err with
          | Some e => anyhow_of_io e
          | None => bail "no addresses to connect"
          end), [])
  | addr :: addrs =>
    match tcp_connect net addr with
    | Connected stream =>
      (match set_nodelay net stream with
       | Some e => Err (anyhow_of_io e)
       | None => Ok stream
       end, [addr])
    | Refused e => let r := try_addrs net addrs (Some e) in (r.1, addr :: r.2)
    | DialTimeout =>
      let r := try_addrs net addrs (Some (IoError TimedOut ("connect timeout to " +:+ sock_display addr))) in
      (r.1, addr :: r.2)
    end
  end.

Definition TcpTransport_connect (net : Net) (t : TcpTransport) (endpoint : Endpoint) : dialed Z :=
  match resolve_endpoint_addrs (lookup_host net) endpoint (tcp_allow_private t) with
  | Ok addrs => try_addrs net addrs None
  | Err e => (Err e, [])
  | Panic => (Panic, [])
  end.

(** ** tls_client.rs and reality_tls_client.rs *)

Definition endpoint_server_name (net : Net) (endpoint : Endpoint) : res anyhow ServerName :=
  match endpoint with
  | Domain host _ =>
    let host := trim host in
    if bool_decide (host = EmptyString) then Err (bail "empty domain for TLS SNI") else
    match server_name_of net host with
    | Some name => Ok name
    | None => Err (bail ("invalid TLS server name: " +:+ host))
    end
  | Ip addr => Ok (IpAddress (sock_ip addr))
  end.

(** [timeout(.., connector.connect(name, tcp))] with the messages of [label]. *)
Definition tls_over (net : Net) (label target : string) (name : ServerName) (tcp : Z) : res anyhow Z :=
  match tls_handshake net name tcp with
  | Established s => Ok s
  | TlsFailed e => Err (add_context (label +:+ " handshake failed to " +:+ target) (anyhow_of_io e))
  | TlsTimeout => Err (bail (label +:+ " handshake timeout to " +:+ target))
  end.

Record TlsOutboundTransport := { tls_tcp : TcpTransport }.

Definition TlsOutbound_connect (net : Net) (t : TlsOutboundTransport) (endpoint : Endpoint) : dialed Z :=
  match endpoint_server_name net endpoint with
  | Err e => (Err e, [])
  | Panic => (Panic, [])
  | Ok server_name =>
    let target := endpoint_display endpoint in
    let '(r, d) := TcpTransport_connect net (tls_tcp t) endpoint in
    (tcp ← r; tls_over net "TLS outbound" target server_name tcp, d)
  end.

Record RealityTlsOutboundTransport := { reality_tcp : TcpTransport; sni : ServerName }.

Definition RealityOutbound_connect (net : Net) (t : RealityTlsOutboundTransport) (endpoint : Endpoint)
    : dialed Z :=
  let target := endpoint_display endpoint in
  let '(r, d) := TcpTransport_connect net (reality_tcp t) endpoint in
  (tcp ← r; tls_over net "REALITY TLS" target (sni t) tcp, d).

(** ** outbound.rs *)

Inductive TcpUpstream := UpPlain (s : Z) | UpTls (s : Z) | UpXhttp (s : Z).

(** [TcpUpstream::local_addr], given the one of the socket. *)
Definition local_addr (sock : Z -> io_error + SocketAddr) (u : TcpUpstream) : io_error + SocketAddr :=
  match u with
  | UpPlain s => sock s
  | UpTls s => sock s
  | UpXhttp _ => inl (IoError Unsupported "local_addr not available for XHTTP upstream")
  end.

Inductive OutboundTcpTransport :=
| OutPlain (tcp : TcpTransport)
| OutTls (tls : TlsOutboundTransport)
| OutReality (tls : RealityTlsOutboundTransport).

Definition plain_with_policy (connect_timeout : Z) (allow_private : bool) : OutboundTcpTransport :=
  OutPlain (tcp_with_policy connect_timeout allow_private).

Definition wrap_upstream (f : Z -> TcpUpstream) (p : dialed Z) : dialed TcpUpstream :=
  let '(r, d) := p in (s ← r; Ok (f s), d).

Definition OutboundTcp_connect (net : Net) (t : OutboundTcpTransport) (endpoint : Endpoint)
    : dialed TcpUpstream :=
  match t with
  | OutPlain tcp => wrap_upstream UpPlain (TcpTransport_connect net tcp endpoint)
  | OutTls tls => wrap_upstream UpTls (TlsOutbound_connect net tls endpoint)
  | OutReality tls => wrap_upstream UpTls (RealityOutbound_connect net tls endpoint)
  end.

(** ** Lemmas *)

(** An address that did not connect. *)
Definition refuses (net : Net) (a : SocketAddr) : Prop :=
  match tcp_connect net a with Connected _ => False | _ => True end.

Lemma try_addrs_dialed net addrs le :
  exists rest, addrs = (try_addrs net addrs le).2 ++ rest.
Proof.
  revert le. induction addrs as [|a addrs IH]; intros le; cbn [try_addrs]; [by exists []|].
  destruct (tcp_connect net a) as [fd|e|]; cbn; [by exists addrs|..];
    match goal with |- context [try_addrs net addrs ?x] => destruct (IH x) as [rest Hr] end;
    exists rest; by rewrite <- Hr.
Qed.

Lemma try_addrs_ok net addrs le fd d :
  try_addrs net addrs le = (Ok fd, d) <->
  exists pre a post, addrs = pre ++ a :: post /\ d = pre ++ [a] /\ Forall (refuses net) pre
    /\ tcp_connect net a = Connected fd /\ set_nodelay net fd = None.
Proof.
  split.
  - revert le d. induction addrs as [|a addrs IH]; intros le d H; cbn [try_addrs] in H.
    { by destruct le. }
    destruct (tcp_connect net a) as [fd'|e|] eqn:Ha.
    { destruct (set_nodelay net fd') eqn:Hn; [done|]. injection H as -> <-.
      exists [], a, addrs. split_and!; try done. }
    all: cbn in H; destruct (try_addrs net addrs _) as [r d'] eqn:Hr in H; cbn in H; injection H as -> <-;
      apply IH in Hr as (pre & a' & post & -> & -> & Hf & Hc & Hn);
      exists (a :: pre), a', post; split_and!; try done;
      apply Forall_cons_2; [unfold refuses; by rewrite Ha|done].
  - intros (pre & a & post & -> & -> & Hf & Hc & Hn). revert le.
    induction Hf as [|x pre Hx Hf IH]; intros le; cbn [app try_addrs].
    + by rewrite Hc, Hn.
    + unfold refuses in Hx. destruct (tcp_connect net x); [done|..]; cbn; by rewrite IH.
Qed.

Lemma tcp_connect_resolved net t ep :
  (TcpTransport_connect net t ep).2 = []
  \/ exists addrs, resolve_endpoint_addrs (lookup_host net) ep (tcp_allow_private t) = Ok addrs
     /\ TcpTransport_connect net t ep = try_addrs net addrs None.
Proof.
  unfold TcpTransport_connect. destruct (resolve_endpoint_addrs _ _ _) as [addrs| |]; eauto.
Qed.

Definition allowed (a : SocketAddr) : Prop := is_forbidden_ip (sock_ip a) = false.

Lemma tcp_connect_allowed net t ep :
  tcp_allow_private t = false -> Forall allowed (TcpTransport_connect net t ep).2.
Proof.
  intros Hp. destruct (tcp_connect_resolved net t ep) as [->|(addrs & Hr & ->)]; [apply Forall_nil_2|].
  rewrite Hp in Hr. apply resolve_endpoint_addrs_ok in Hr as [_ Ha]. specialize (Ha eq_refl).
  destruct (try_addrs_dialed net addrs None) as [rest He].
  rewrite He, Forall_app in Ha. by destruct Ha.
Qed.

Lemma tcp_connect_success net t ep fd d :
  TcpTransport_connect net t ep = (Ok fd, d) ->
  exists a, last d = Some a /\ tcp_connect net a = Connected fd.
Proof.
  unfold TcpTransport_connect. destruct (resolve_endpoint_addrs _ _ _) as [addrs| |]; [|done..].
  intros (pre & a & post & _ & -> & _ & Hc & _)%try_addrs_ok. exists a. by rewrite last_snoc.
Qed.

Lemma tls_dialed net t ep : (TlsOutbound_connect net t ep).2 = []
  \/ (TlsOutbound_connect net t ep).2 = (TcpTransport_connect net (tls_tcp t) ep).2.
Proof.
  unfold TlsOutbound_connect. destruct (endpoint_server_name net ep); cbn; auto.
  destruct (TcpTransport_connect _ _ _). auto.
Qed.

Lemma reality_dialed net t ep :
  (RealityOutbound_connect net t ep).2 = (TcpTransport_connect net (reality_tcp t) ep).2.
Proof. unfold RealityOutbound_connect. by destruct (TcpTransport_connect _ _ _). Qed.

Lemma wrap_dialed f p : (wrap_upstream f p).2 = p.2.
Proof. by destruct p. Qed.

Lemma tcp_connect_last net t ep :
  forall fd, (TcpTransport_connect net t ep).1 = Ok fd -> exists a s, last (TcpTransport_connect net t ep).2 = Some a
    /\ tcp_connect net a = Connected s.
Proof.
  intros fd H. destruct (TcpTransport_connect net t ep) as [r d] eqn:Ht. cbn in *. subst r.
  apply tcp_connect_success in Ht as (a & ? & ?). eauto.
Qed.

Lemma tls_connect_last net t ep :
  forall fd, (TlsOutbound_connect net t ep).1 = Ok fd -> exists a s, last (TlsOutbound_connect net t ep).2 = Some a
    /\ tcp_connect net a = Connected s.
Proof.
  intros fd. unfold TlsOutbound_connect. destruct (endpoint_server_name net ep); [|done..].
  pose proof (tcp_connect_last net (tls_tcp t) ep) as Hl.
  destruct (TcpTransport_connect _ _ _) as [[x| |] d]; cbn in *; try done. intros _. by apply (Hl x).
Qed.

Lemma reality_connect_last net t ep :
  forall fd, (RealityOutbound_connect net t ep).1 = Ok fd ->
    exists a s, last (RealityOutbound_connect net t ep).2 = Some a /\ tcp_connect net a = Connected s.
Proof.
  intros fd. unfold RealityOutbound_connect.
  pose proof (tcp_connect_last net (reality_tcp t) ep) as Hl.
  destruct (TcpTransport_connect _ _ _) as [[x| |] d]; cbn in *; try done. intros _. by apply (Hl x).
Qed.

Lemma tls_connect_allowed net t ep :
  tcp_allow_private (tls_tcp t) = false -> Forall allowed (TlsOutbound_connect net t ep).2.
Proof.
  intros H. destruct (tls_dialed net t ep) as [-> | ->]; [apply Forall_nil_2|].
  by apply tcp_connect_allowed.
Qed.

Lemma reality_connect_allowed net t ep :
  tcp_allow_private (reality_tcp t) = false -> Forall allowed (RealityOutbound_connect net t ep).2.
Proof. intros H. rewrite reality_dialed. by apply tcp_connect_allowed. Qed.

(** ** The trait *)

(** [connect::OutboundTransport] and its four implementations. *)
Class OutboundTransport (T : Type) := {
  ot_stream : Type;
  ot_connect : Net -> T -> Endpoint -> dialed ot_stream
}.

#[export] Instance TcpTransport_outbound : OutboundTransport TcpTransport := {
  ot_stream := Z;
  ot_connect := TcpTransport_connect
}.

#[export] Instance TlsOutbound_outbound : OutboundTransport TlsOutboundTransport := {
  ot_stream := Z;
  ot_connect := TlsOutbound_connect
}.

#[export] Instance RealityOutbound_outbound : OutboundTransport RealityTlsOutboundTransport := {
  ot_stream := Z;
  ot_connect := RealityOutbound_connect
}.

#[export] Instance OutboundTcp_outbound : OutboundTransport OutboundTcpTransport := {
  ot_stream := TcpUpstream;
  ot_connect := OutboundTcp_connect
}.

(** The policy of the TCP transport inside. *)
Definition outbound_allow_private (t : OutboundTcpTransport) : bool :=
  match t with
  | OutPlain t => tcp_allow_private t
  | OutTls t => tcp_allow_private (tls_tcp t)
  | OutReality t => tcp_allow_private (reality_tcp t)
  end.

Lemma wrap_ok f p u : (wrap_upstream f p).1 = Ok u -> exists s, p.1 = Ok s.
Proof. destruct p as [[s| |] d]; cbn; try done. eauto. Qed.

(** The sum of transports keeps what its parts guarantee. *)
Lemma outbound_connect_allowed net t ep :
  outbound_allow_private t = false -> Forall allowed (OutboundTcp_connect net t ep).2.
Proof.
  intros H; destruct t; cbn [OutboundTcp_connect]; rewrite wrap_dialed;
    [by apply tcp_connect_allowed|by apply tls_connect_allowed|by apply reality_connect_allowed].
Qed.

Lemma outbound_connect_last net t ep s :
  (OutboundTcp_connect net t ep).1 = Ok s ->
  exists a fd, last (OutboundTcp_connect net t ep).2 = Some a /\ tcp_connect net a = Connected fd.
Proof.
  destruct t as [t|t|t]; cbn [OutboundTcp_connect]; intros [x H]%wrap_ok; rewrite wrap_dialed;
    [by apply (tcp_connect_last net t ep x)|by apply (tls_connect_last net t ep x)|by apply (reality_connect_last net t ep x)].
Qed.

(** ** Properties *)

(** TCP dialling tries the resolved addresses in order and takes the first
    that connects. It succeeds exactly when the name resolves under the policy to
    a list in which some address connects and every one before it does not, with
    that connection as its result and exactly these addresses dialled. *)
Theorem tcp_connect_first_reachable (net : Net) (t : TcpTransport) (ep : Endpoint)
    (fd : Z) (d : list SocketAddr) :
  TcpTransport_connect net t ep = (Ok fd, d) <->
  exists pre a post,
    resolve_endpoint_addrs (lookup_host net) ep (tcp_allow_private t) = Ok (pre ++ a :: post)
    /\ d = pre ++ [a] /\ Forall (refuses net) pre
    /\ tcp_connect net a = Connected fd /\ set_nodelay net fd = None.
Proof.
  unfold TcpTransport_connect. destruct (resolve_endpoint_addrs _ _ _) as [addrs| |].
  - rewrite try_addrs_ok. split; intros (pre & a & post & H & ?); exists pre, a, post; naive_solver.
  - naive_solver.
  - naive_solver.
Qed.

(** C9: the server never dials a forbidden address. The plain, the TLS and the REALITY
    dialer with the private filter on, whatever the resolver, the sockets and the TLS
    peers answer, dial no address that lies in a forbidden CIDR block, and a stream
    that one of them returns runs over the connection to the last address it dialled,
    which is then not forbidden either. *)
Theorem outbound_never_dials_forbidden (net : Net) (t : OutboundTcpTransport) (ep : Endpoint)
    (Hp : outbound_allow_private t = false)
    (Hok : Forall (fun a => ip_ok (sock_ip a)) (OutboundTcp_connect net t ep).2) :
  Forall (fun a => ~ forbidden_spec (sock_ip a)) (OutboundTcp_connect net t ep).2
  /\ forall up, (OutboundTcp_connect net t ep).1 = Ok up ->
       exists a fd, last (OutboundTcp_connect net t ep).2 = Some a /\ tcp_connect net a = Connected fd
         /\ ~ forbidden_spec (sock_ip a).
Proof.
  assert (Hall : Forall (fun a => ~ forbidden_spec (sock_ip a)) (OutboundTcp_connect net t ep).2).
  { pose proof (outbound_connect_allowed net t ep Hp) as Ha. rewrite Forall_forall in Ha, Hok |- *.
    intros a Hin Hf. apply is_forbidden_ip_iff in Hf; [|by apply Hok].
    specialize (Ha a Hin). unfold allowed in Ha. congruence. }
  split; [done|]. intros up Hu. destruct (outbound_connect_last net t ep up Hu) as (a & fd & Hl & Hc).
  exists a, fd. split_and!; [done|done|]. rewrite Forall_forall in Hall. apply Hall.
  by apply last_Some_elem_of.
Qed.

Definition demo_network : Net :=
  {| lookup_host := demo_resolver;
     tcp_connect := fun a => if sock_is_ipv4 a then Connected 7 else Refused broken_pipe;
     set_nodelay := fun _ => None;
     server_name_of := fun h => Some (DnsName h);
     tls_handshake := fun _ s => Established s |}.

Lemma outbound_never_dials_forbidden_witness :
  OutboundTcp_connect demo_network (OutTls {| tls_tcp := tcp_with_policy 10 false |}) (Domain "example.com" 443)
  = (Ok (UpTls 7), [SocketAddr_new (V6 [0x26; 6; 0x47; 0; 0; 0; 0; 0; 0; 0; 0; 0; 0; 0; 0; 1]) 443;
                    SocketAddr_new (V4 (Ipv4 93 184 216 34)) 443])
  /\ ~ forbidden_spec (V4 (Ipv4 93 184 216 34)).
Proof.
  split; [vm_compute; reflexivity|].
  destruct (outbound_never_dials_forbidden demo_network (OutTls {| tls_tcp := tcp_with_policy 10 false |})
    (Domain "example.com" 443)) as [_ H].
  - reflexivity.
  - vm_compute. repeat (constructor; try discriminate).
  - destruct (H (UpTls 7)) as (a & fd & Ha & _ & Hn); [vm_compute; reflexivity|].
    vm_compute in Ha. injection Ha as <-. exact Hn.
Defined.
