(* ===== verification/Socks5Parse.v ===== *)
(** * SOCKS5 wire parsers
    Models crates/skadi-protocol/src/socks5/parse.rs and the constants of
    socks5.rs. The parsers run on a byte slice; an index out of range would be a
    [Panic], which the theorems exclude. *)

From Stdlib Require Import Ascii String.
From stdpp Require Import base list numbers strings pretty.
From S2P Require Import Prelude Core.

(** ** Constants (socks5.rs) *)

Definition SOCKS5_VERSION : Z := 0x05.
Definition AUTH_VERSION : Z := 0x01.
Definition METHOD_NO_AUTH : Z := 0x00.
Definition METHOD_USER_PASS : Z := 0x02.
Definition METHOD_NO_ACCEPTABLE : Z := 0xFF.
Definition CMD_CONNECT : Z := 0x01.
Definition CMD_BIND : Z := 0x02.
Definition CMD_UDP_ASSOCIATE : Z := 0x03.
Definition ATYP_IPV4 : Z := 0x01.
Definition ATYP_DOMAIN : Z := 0x03.
Definition ATYP_IPV6 : Z := 0x04.
Definition MAX_METHODS : nat := 16.

Definition REP_SUCCEEDED : Z := 0x00.
Definition REP_GENERAL_FAILURE : Z := 0x01.
Definition REP_NOT_ALLOWED : Z := 0x02.
Definition REP_NETWORK_UNREACHABLE : Z := 0x03.
Definition REP_HOST_UNREACHABLE : Z := 0x04.
Definition REP_CONNECTION_REFUSED : Z := 0x05.
Definition REP_TTL_EXPIRED : Z := 0x06.
Definition REP_COMMAND_NOT_SUPPORTED : Z := 0x07.
Definition REP_ADDRESS_NOT_SUPPORTED : Z := 0x08.

(** ** Errors *)

Inductive ParseError :=
| Incomplete (need have : nat)
| BadVersion (v : Z)
| ZeroMethods
| TooManyMethods (n : nat)
| BadAuthVersion (v : Z)
| EmptyUsername
| EmptyPassword
| NonZeroRsv (b : Z)
| UnsupportedCommand (c : Z)
| UnsupportedAddressType (t : Z)
| EmptyDomain
| InvalidUtf8 (what : string).

#[export] Instance ParseError_eq_dec : EqDecision ParseError.
Proof. solve_decision. Defined.

Definition parse_error_display (e : ParseError) : string :=
  match e with
  | Incomplete need have =>
    "not enough data: need " +:+ fmt_dec need +:+ ", have " +:+ fmt_dec have
  | BadVersion v => "invalid SOCKS version: 0x" +:+ fmt_02x v
  | ZeroMethods => "zero auth methods offered"
  | TooManyMethods n => "too many auth methods: " +:+ fmt_dec n
  | BadAuthVersion v => "unsupported auth version: 0x" +:+ fmt_02x v
  | EmptyUsername => "empty username"
  | EmptyPassword => "empty password"
  | NonZeroRsv b => "non-zero RSV byte: 0x" +:+ fmt_02x b
  | UnsupportedCommand c => "unsupported command: 0x" +:+ fmt_02x c
  | UnsupportedAddressType t => "unsupported address type: 0x" +:+ fmt_02x t
  | EmptyDomain => "empty domain name"
  | InvalidUtf8 w => "invalid UTF-8 in " +:+ w
  end.

Record Socks5Request := { command : Z; target : Endpoint }.

(** ** Parsers *)

Definition parse_greeting (input : bytes) : res ParseError (bytes * nat) :=
  if (length input <? 2)%nat then Err (Incomplete 2 (length input)) else
  version ← idx input 0;
  nmethods_b ← idx input 1;
  let nmethods := Z.to_nat nmethods_b in
  if negb (version =? SOCKS5_VERSION) then Err (BadVersion version) else
  if (nmethods =? 0)%nat then Err ZeroMethods else
  if (MAX_METHODS <? nmethods)%nat then Err (TooManyMethods nmethods) else
  let total := (2 + nmethods)%nat in
  if (length input <? total)%nat then Err (Incomplete total (length input)) else
  methods ← slice input 2 total;
  Ok (methods, total).

Definition parse_auth (input : bytes) : res ParseError ((string * string) * nat) :=
  if (length input <? 2)%nat then Err (Incomplete 2 (length input)) else
  version ← idx input 0;
  ulen_b ← idx input 1;
  let ulen := Z.to_nat ulen_b in
  if negb (version =? AUTH_VERSION) then Err (BadAuthVersion version) else
  if (ulen =? 0)%nat then Err EmptyUsername else
  let after_uname := (2 + ulen)%nat in
  if (length input <? after_uname + 1)%nat
  then Err (Incomplete (after_uname + 1) (length input)) else
  plen_b ← idx input after_uname;
  let plen := Z.to_nat plen_b in
  if (plen =? 0)%nat then Err EmptyPassword else
  let total := (after_uname + 1 + plen)%nat in
  if (length input <? total)%nat then Err (Incomplete total (length input)) else
  uname_b ← slice input 2 after_uname;
  uname ← from_utf8 uname_b (InvalidUtf8 "username");
  passwd_b ← slice input (after_uname + 1) total;
  passwd ← from_utf8 passwd_b (InvalidUtf8 "password");
  Ok ((uname, passwd), total).

Definition parse_target (input : bytes) (atyp : Z) (offset : nat) : res ParseError (Endpoint * nat) :=
  if atyp =? ATYP_IPV4 then
    let total := (offset + 4 + 2)%nat in
    if (length input <? total)%nat then Err (Incomplete total (length input)) else
    a ← idx input offset;
    b ← idx input (offset + 1);
    c ← idx input (offset + 2);
    d ← idx input (offset + 3);
    p0 ← idx input (offset + 4);
    p1 ← idx input (offset + 5);
    Ok (Ip (SocketAddr_new (V4 (Ipv4 a b c d)) (from_be16 p0 p1)), total)
  else if atyp =? ATYP_IPV6 then
    let total := (offset + 16 + 2)%nat in
    if (length input <? total)%nat then Err (Incomplete total (length input)) else
    octets ← slice input offset (offset + 16);
    p0 ← idx input (offset + 16);
    p1 ← idx input (offset + 17);
    Ok (Ip (SocketAddr_new (V6 octets) (from_be16 p0 p1)), total)
  else if atyp =? ATYP_DOMAIN then
    if (length input <? offset + 1)%nat then Err (Incomplete (offset + 1) (length input)) else
    dlen_b ← idx input offset;
    let dlen := Z.to_nat dlen_b in
    if (dlen =? 0)%nat then Err EmptyDomain else
    let after_domain := (offset + 1 + dlen)%nat in
    let total := (after_domain + 2)%nat in
    if (length input <? total)%nat then Err (Incomplete total (length input)) else
    domain_b ← slice input (offset + 1) after_domain;
    domain ← from_utf8 domain_b (InvalidUtf8 "domain");
    p0 ← idx input after_domain;
    p1 ← idx input (after_domain + 1);
    Ok (Domain domain (from_be16 p0 p1), total)
  else Err (UnsupportedAddressType atyp).

Definition parse_request (input : bytes) : res ParseError (Socks5Request * nat) :=
  if (length input <? 4)%nat then Err (Incomplete 4 (length input)) else
  version ← idx input 0;
  cmd ← idx input 1;
  rsv ← idx input 2;
  atyp ← idx input 3;
  if negb (version =? SOCKS5_VERSION) then Err (BadVersion version) else
  if negb (rsv =? 0) then Err (NonZeroRsv rsv) else
  if negb (cmd =? CMD_CONNECT) && negb (cmd =? CMD_BIND) && negb (cmd =? CMD_UDP_ASSOCIATE)
  then Err (UnsupportedCommand cmd) else
  '(target, consumed) ← parse_target input atyp 4;
  Ok ({| command := cmd; target := target |}, consumed).

Definition parse_udp_datagram (input : bytes) : res ParseError (Endpoint * nat) :=
  if (length input <? 4)%nat then Err (Incomplete 4 (length input)) else
  b0 ← idx input 0;
  b1 ← idx input 1;
  if negb (b0 =? 0) || negb (b1 =? 0) then Err (NonZeroRsv b0) else
  b2 ← idx input 2;
  if negb (b2 =? 0) then Err (UnsupportedCommand b2) else
  b3 ← idx input 3;
  '(target, header_end) ← parse_target input b3 4;
  Ok (target, header_end).

Definition encode_udp_datagram (target : Endpoint) (payload : bytes) : bytes :=
  [0; 0; 0] ++
  match target with
  | Ip (SockV4 ip port) => [ATYP_IPV4] ++ ipv4_octets ip ++ to_be16 port
  | Ip (SockV6 octets port _ _) => [ATYP_IPV6] ++ octets ++ to_be16 port
  | Domain host port =>
    let host_bytes := bytes_of_string host in
    let dlen := Nat.min (length host_bytes) 255 in
    [ATYP_DOMAIN] ++ [as_u8 (Z.of_nat dlen)] ++ take dlen host_bytes ++ to_be16 port
  end ++ payload.

(** ** The wire format, as a specification *)

Definition wire_target (e : Endpoint) : bytes :=
  match e with
  | Ip (SockV4 ip port) => ATYP_IPV4 :: ipv4_octets ip ++ to_be16 port
  | Ip (SockV6 octets port _ _) => ATYP_IPV6 :: octets ++ to_be16 port
  | Domain host port =>
    ATYP_DOMAIN :: Z.of_nat (String.length host) :: bytes_of_string host ++ to_be16 port
  end.

Definition wire_request (r : Socks5Request) : bytes :=
  [SOCKS5_VERSION; command r; 0] ++ wire_target (target r).

Definition command_ok (c : Z) : Prop := c = CMD_CONNECT \/ c = CMD_BIND \/ c = CMD_UDP_ASSOCIATE.

Definition request_ok (r : Socks5Request) : Prop :=
  command_ok (command r) /\ endpoint_ok (target r).

Definition wire_greeting (methods : bytes) : bytes :=
  [SOCKS5_VERSION; Z.of_nat (length methods)] ++ methods.

Definition wire_auth (uname passwd : string) : bytes :=
  [AUTH_VERSION; Z.of_nat (String.length uname)] ++ bytes_of_string uname
  ++ [Z.of_nat (String.length passwd)] ++ bytes_of_string passwd.

Definition credential_ok (s : string) : Prop := str_ok s /\ (1 <= String.length s <= 255)%nat.

(** ** Panic freedom *)

Lemma parse_target_no_panic input atyp offset : parse_target input atyp offset <> Panic.
Proof. unfold parse_target. no_panic. Qed.

Lemma parse_greeting_no_panic input : parse_greeting input <> Panic.
Proof. unfold parse_greeting. no_panic. Qed.

Lemma parse_auth_no_panic input : parse_auth input <> Panic.
Proof. unfold parse_auth. no_panic. Qed.

Lemma parse_request_no_panic input : parse_request input <> Panic.
Proof.
  unfold parse_request. no_panic;
  match goal with |- context [parse_target ?i ?a ?o] =>
    pose proof (parse_target_no_panic i a o); destruct (parse_target i a o) as [[]| |] end; done.
Qed.

Lemma parse_udp_datagram_no_panic input : parse_udp_datagram input <> Panic.
Proof.
  unfold parse_udp_datagram. no_panic;
  match goal with |- context [parse_target ?i ?a ?o] =>
    pose proof (parse_target_no_panic i a o); destruct (parse_target i a o) as [[]| |] end; done.
Qed.

(** ** The parsers invert the wire format *)

Lemma parse_target_domain_eval h0 h1 h2 h3 dlen m p0 p1 rest :
  (1 <= length m)%nat -> Z.to_nat dlen = length m ->
  parse_target ([h0; h1; h2; h3; dlen] ++ m ++ [p0; p1] ++ rest) ATYP_DOMAIN 4
  = (domain ← from_utf8 m (InvalidUtf8 "domain");
     Ok (Domain domain (from_be16 p0 p1), (7 + length m)%nat)).
Proof.
  intros Hm Hd. unfold parse_target. cbn [Z.eqb Pos.eqb ATYP_DOMAIN ATYP_IPV4 ATYP_IPV6].
  rewrite !length_app. cbn [length].
  replace (5 + (length m + (2 + length rest)) <? 4 + 1)%nat with false
    by (symmetry; apply Nat.ltb_ge; lia).
  rewrite (idx_some _ _ dlen) by done. cbn [mbind res_bind]. rewrite Hd.
  replace (length m =? 0)%nat with false by (symmetry; apply Nat.eqb_neq; lia).
  replace (5 + (length m + (2 + length rest)) <? 4 + 1 + length m + 2)%nat with false
    by (symmetry; apply Nat.ltb_ge; lia).
  rewrite slice_app_mid by (cbn; lia). cbn [mbind res_bind].
  destruct (from_utf8 m (InvalidUtf8 "domain")) as [d| |]; cbn [mbind res_bind]; try done.
  rewrite app_assoc.
  rewrite (idx_app_mid ([h0; h1; h2; h3; dlen] ++ m) (p1 :: rest) p0 (4 + 1 + length m)%nat)
    by (rewrite length_app; cbn; lia). cbn [mbind res_bind].
  change ([p0; p1] ++ rest) with ([p0] ++ p1 :: rest). rewrite app_assoc.
  rewrite (idx_app_mid (([h0; h1; h2; h3; dlen] ++ m) ++ [p0]) rest p1 (4 + 1 + length m + 1)%nat)
    by (rewrite !length_app; cbn; lia). cbn [mbind res_bind].
  do 2 f_equal. lia.
Qed.

Lemma parse_target_complete h0 h1 h2 e rest :
  endpoint_ok e ->
  parse_target ([h0; h1; h2] ++ wire_target e ++ rest) (hd 0 (wire_target e)) 4
  = Ok (e, (3 + length (wire_target e))%nat).
Proof.
  destruct e as [[ip port|octets port flow scope]|host port]; cbn [endpoint_ok].
  - intros [_ Hp]. destruct ip as [a b c d].
    cbn. rewrite from_to_be16 by done. done.
  - intros ([Hl _] & Hp & -> & ->).
    do 16 (destruct octets as [|? octets]; [done|]). destruct octets; [|done].
    cbn. rewrite from_to_be16 by done. done.
  - intros (Hs & Hlen & Hp). cbn [wire_target hd app].
    pose proof (parse_target_domain_eval h0 h1 h2 ATYP_DOMAIN (Z.of_nat (String.length host))
      (bytes_of_string host) (port / 256 mod 256) (port mod 256) rest) as He.
    rewrite length_bytes_of_string in He. rewrite <- app_assoc. unfold to_be16.
    rewrite from_utf8_string in He by done. cbn [mbind res_bind app] in He.
    rewrite from_to_be16 in He by done.
    cbn [app]. rewrite He by lia. do 2 f_equal. cbn [length].
    rewrite length_app, length_bytes_of_string. cbn. lia.
Qed.

Lemma parse_target_sound h0 h1 h2 h3 t e n :
  bytes_ok (h3 :: t) ->
  parse_target (h0 :: h1 :: h2 :: h3 :: t) h3 4 = Ok (e, n) ->
  endpoint_ok e /\ n = (3 + length (wire_target e))%nat /\ exists rest, h3 :: t = wire_target e ++ rest.
Proof.
  intros Hb H. inversion_clear Hb as [|? ? Hb3 Ht].
  destruct (decide (h3 = ATYP_IPV4)) as [->|H4];
    [|destruct (decide (h3 = ATYP_IPV6)) as [->|H6];
      [|destruct (decide (h3 = ATYP_DOMAIN)) as [->|Hd]]].
  - do 6 (destruct t as [|? t]; [discriminate H|]). cbn in H. injection H as <- <-.
    repeat match goal with H : Forall _ (_ :: _) |- _ => inversion_clear H end.
    cbn [endpoint_ok wire_target length app ipv4_octets]. rewrite to_from_be16 by done.
    split_and!; eauto with bytesdb. unfold ipv4_ok. by repeat apply Forall_cons_2.
  - do 18 (destruct t as [|? t]; [discriminate H|]). cbn in H. injection H as <- <-.
    repeat match goal with H : Forall _ (_ :: _) |- _ => inversion_clear H end.
    cbn [endpoint_ok wire_target length app]. rewrite to_from_be16 by done.
    split_and!; eauto with bytesdb. split; [done|]. by repeat apply Forall_cons_2.
  - destruct t as [|dlen t]; [discriminate H|]. inversion_clear Ht as [|? ? Hdl Ht'].
    assert (Hg : (1 <= Z.to_nat dlen)%nat /\ (Z.to_nat dlen + 2 <= length t)%nat).
    { unfold parse_target in H. cbn [Z.eqb Pos.eqb ATYP_DOMAIN ATYP_IPV4 ATYP_IPV6] in H.
      cbn [length] in H. rewrite (idx_some _ _ dlen) in H by done. cbn [mbind res_bind] in H.
      repeat case_match; simplify_eq/=; bool_hyps; lia. }
    destruct (split_at t (Z.to_nat dlen)) as (m & t' & -> & Hm); [lia|].
    rewrite length_app in Hg. destruct t' as [|p0 [|p1 rest]]; cbn [length] in Hg; [lia|lia|].
    pose proof (parse_target_domain_eval h0 h1 h2 ATYP_DOMAIN dlen m p0 p1 rest
      ltac:(lia) ltac:(lia)) as He. cbn [app] in He. rewrite He in H. clear He.
    apply Forall_app in Ht' as [Hmok Hrok].
    destruct (from_utf8 m (InvalidUtf8 "domain")) as [d| |] eqn:Hu; cbn in H; try done.
    injection H as <- <-. apply from_utf8_inv in Hu as [-> Hs]; [|done].
    rewrite length_bytes_of_string in Hm.
    repeat match goal with H : Forall _ (_ :: _) |- _ => inversion_clear H end.
    cbn [endpoint_ok wire_target]. rewrite to_from_be16 by done.
    pose proof (byte_to_nat_lt _ Hdl). split_and!; eauto with bytesdb lia.
    + cbn [length]. rewrite length_app, length_bytes_of_string. cbn. lia.
    + exists rest. cbn [app]. rewrite <- app_assoc. do 3 f_equal. unfold byte_ok in Hdl. lia.
  - unfold parse_target in H. rewrite !(proj2 (Z.eqb_neq _ _)) in H by done. done.
Qed.

Lemma wire_target_hd e : exists t, wire_target e = hd 0 (wire_target e) :: t.
Proof. destruct e as [[]|]; cbn; eauto. Qed.

Lemma parse_request_iff input r n :
  bytes_ok input ->
  parse_request input = Ok (r, n) <->
  request_ok r /\ n = length (wire_request r) /\ exists rest, input = wire_request r ++ rest.
Proof.
  intros Hin. split.
  - intros H. do 4 (destruct input as [|? input]; [discriminate H|]).
    unfold parse_request in H. cbn [length Nat.ltb Nat.leb] in H.
    cbn [idx lookup list_lookup mbind res_bind] in H.
    repeat match type of H with (if ?c then _ else _) = _ =>
      let E := fresh "E" in destruct c eqn:E; [discriminate H|] end.
    destruct (parse_target _ _ 4) as [[e k]| |] eqn:Ht; try discriminate H.
    cbn [mbind res_bind] in H. injection H as <- <-.
    inv_bytes_ok. apply parse_target_sound in Ht as (He & -> & rest & Hw); [|by apply bytes_ok_cons].
    bool_hyps.
    unfold request_ok, wire_request, command_ok. cbn [command target].
    split_and!; [|done|done|].
    + destruct (decide (z0 = CMD_CONNECT)); [auto|]. destruct (decide (z0 = CMD_BIND)); [auto|].
      destruct (decide (z0 = CMD_UDP_ASSOCIATE)); [auto|].
      rewrite !(proj2 (Z.eqb_neq _ _)) in E1 by done. done.
    + exists rest. cbn [app]. rewrite <- Hw. congruence.
  - intros ([Hc He] & -> & rest & ->). unfold wire_request, parse_request. rewrite <- app_assoc.
    pose proof (parse_target_complete SOCKS5_VERSION (command r) 0 (target r) rest He) as Hp.
    destruct (wire_target (target r)) as [|h t] eqn:Hw;
      [by destruct (wire_target_hd (target r)); congruence|].
    cbn [app length Nat.ltb Nat.leb idx lookup list_lookup mbind res_bind hd] in *.
    rewrite Z.eqb_refl. change (0 =? 0) with true. cbn [negb].
    replace (negb (command r =? CMD_CONNECT) && negb (command r =? CMD_BIND)
      && negb (command r =? CMD_UDP_ASSOCIATE)) with false
      by (destruct Hc as [-> | [-> | ->]]; reflexivity).
    rewrite Hp. cbn [mbind res_bind]. destruct r; done.
Qed.

Lemma parse_greeting_iff input ms n :
  bytes_ok input ->
  parse_greeting input = Ok (ms, n) <->
  (1 <= length ms <= MAX_METHODS)%nat /\ n = (2 + length ms)%nat
  /\ exists rest, input = wire_greeting ms ++ rest.
Proof.
  intros Hin. unfold parse_greeting, wire_greeting. split.
  - intros H. do 2 (destruct input as [|? input]; [discriminate H|]).
    cbn [idx lookup list_lookup mbind res_bind] in H.
    repeat match type of H with (if ?c then _ else _) = _ =>
      let E := fresh "E" in destruct c eqn:E; [discriminate H|] end.
    bool_hyps. inv_bytes_ok. cbn [length] in *.
    rewrite slice_ok in H by (cbn [length]; lia). cbn [mbind res_bind] in H. injection H as <- <-.
    rewrite Nat.sub_0_r, drop_0, length_take_le by lia. split_and!; [lia|lia|done|].
    exists (drop (Z.to_nat z0) input). cbn [app]. rewrite take_drop. unfold byte_ok in *.
    rewrite Z2Nat.id by lia. congruence.
  - intros (Hl & -> & rest & ->). unfold MAX_METHODS in *.
    cbn [app idx lookup list_lookup mbind res_bind].
    rewrite Z.eqb_refl, Nat2Z.id. cbn [negb length]. rewrite length_app.
    repeat match goal with |- context [if ?c then _ else _] =>
      destruct c eqn:?; bool_hyps; [lia|] end.
    change (SOCKS5_VERSION :: Z.of_nat (length ms) :: ms ++ rest)
      with ([SOCKS5_VERSION; Z.of_nat (length ms)] ++ ms ++ rest).
    rewrite slice_app_mid by done. done.
Qed.

Lemma parse_auth_eval v ulen u plen p rest :
  Z.to_nat ulen = length u -> Z.to_nat plen = length p -> (1 <= length u)%nat -> (1 <= length p)%nat ->
  v = AUTH_VERSION ->
  parse_auth ([v; ulen] ++ u ++ [plen] ++ p ++ rest)
  = (uname ← from_utf8 u (InvalidUtf8 "username");
     passwd ← from_utf8 p (InvalidUtf8 "password");
     Ok ((uname, passwd), (3 + length u + length p)%nat)).
Proof.
  intros Hu Hp Hu1 Hp1 ->. unfold parse_auth.
  rewrite (idx_some _ 0%nat AUTH_VERSION), (idx_some _ 1%nat ulen) by done.
  cbn [mbind res_bind]. rewrite Z.eqb_refl, Hu. cbn [negb].
  rewrite !length_app. cbn [length].
  rewrite (app_assoc [AUTH_VERSION; ulen] u).
  repeat match goal with |- context [if ?c then _ else _] =>
    destruct c eqn:?; bool_hyps; [lia|] end.
  rewrite (idx_app_mid ([AUTH_VERSION; ulen] ++ u) (p ++ rest) plen (2 + length u)%nat)
    by (rewrite length_app; cbn; lia).
  cbn [mbind res_bind]. rewrite Hp.
  repeat match goal with |- context [if ?c then _ else _] =>
    destruct c eqn:?; bool_hyps; [lia|] end.
  rewrite <- app_assoc.
  rewrite (slice_app_mid [AUTH_VERSION; ulen] u ([plen] ++ p ++ rest) 2 (2 + length u)%nat) by done.
  cbn [mbind res_bind]. destruct (from_utf8 u _) as [su| |]; cbn [mbind res_bind]; try done.
  replace ([AUTH_VERSION; ulen] ++ u ++ [plen] ++ p ++ rest)
    with (([AUTH_VERSION; ulen] ++ u ++ [plen]) ++ p ++ rest) by (by rewrite <- !app_assoc).
  rewrite slice_app_mid by (rewrite !length_app; cbn; lia).
  cbn [mbind res_bind]. destruct (from_utf8 p _) as [sp| |]; cbn [mbind res_bind]; try done.
  do 2 f_equal. lia.
Qed.

Lemma parse_auth_complete u p rest :
  credential_ok u -> credential_ok p ->
  parse_auth (wire_auth u p ++ rest) = Ok ((u, p), length (wire_auth u p)).
Proof.
  intros [Hu Hul] [Hp Hpl]. unfold wire_auth. rewrite <- !app_assoc.
  rewrite parse_auth_eval; rewrite ?length_bytes_of_string; try lia.
  rewrite !from_utf8_string by done. cbn. rewrite !length_app, !length_bytes_of_string.
  cbn. do 2 f_equal. rewrite length_bytes_of_string. lia.
Qed.

Lemma parse_auth_sound input u p n :
  bytes_ok input -> parse_auth input = Ok ((u, p), n) ->
  credential_ok u /\ credential_ok p /\ n = length (wire_auth u p)
  /\ exists rest, input = wire_auth u p ++ rest.
Proof.
  intros Hin H. do 2 (destruct input as [|? input]; [discriminate H|]).
  rename z into v, z0 into ulen.
  assert (Hg : v = AUTH_VERSION /\ (1 <= Z.to_nat ulen)%nat /\ (Z.to_nat ulen + 1 <= length input)%nat).
  { unfold parse_auth in H. cbn [idx lookup list_lookup mbind res_bind length] in H.
    repeat case_match; simplify_eq/=; bool_hyps; split_and!; try lia. }
  destruct Hg as (-> & Hu1 & Hl).
  destruct (split_at input (Z.to_nat ulen)) as (ub & t & -> & Hub); [lia|].
  rewrite length_app in Hl. destruct t as [|plen t]; [cbn in Hl; lia|].
  inv_bytes_ok.
  assert (Hg : (1 <= Z.to_nat plen)%nat /\ (Z.to_nat plen <= length t)%nat).
  { unfold parse_auth in H.
    change (AUTH_VERSION :: ulen :: ub ++ plen :: t)
      with ([AUTH_VERSION; ulen] ++ ub ++ plen :: t) in H.
    rewrite app_assoc in H.
    rewrite (idx_some _ 0%nat AUTH_VERSION), (idx_some _ 1%nat ulen) in H by done.
    cbn [mbind res_bind] in H.
    rewrite <- Hub, (idx_app_mid ([AUTH_VERSION; ulen] ++ ub) t plen (2 + length ub)%nat) in H
      by (rewrite length_app; cbn; lia).
    cbn [mbind res_bind] in H. rewrite !length_app in H. cbn [length] in H.
    repeat case_match; simplify_eq/=; bool_hyps; lia. }
  destruct (split_at t (Z.to_nat plen)) as (pb & rest & -> & Hpb); [lia|]. inv_bytes_ok.
  pose proof (parse_auth_eval AUTH_VERSION ulen ub plen pb rest ltac:(lia) ltac:(lia)
    ltac:(lia) ltac:(lia) eq_refl) as He.
  cbn [app] in He. rewrite He in H. clear He.
  destruct (from_utf8 ub _) as [su| |] eqn:Eu; cbn in H; try done.
  destruct (from_utf8 pb _) as [sp| |] eqn:Ep; cbn in H; try done.
  injection H as <- <- <-.
  apply from_utf8_inv in Eu as [-> Hsu]; [|done]. apply from_utf8_inv in Ep as [-> Hsp]; [|done].
  rewrite length_bytes_of_string in *. unfold credential_ok, wire_auth, byte_ok in *.
  rewrite !length_app, !length_bytes_of_string. cbn [length].
  split_and!; try done; try lia.
  exists rest. cbn [app]. rewrite <- !app_assoc. cbn [app].
  replace (Z.of_nat (String.length su)) with ulen by lia.
  by replace (Z.of_nat (String.length sp)) with plen by lia.
Qed.

Lemma encode_udp_wire e payload :
  endpoint_ok e -> encode_udp_datagram e payload = [0; 0; 0] ++ wire_target e ++ payload.
Proof.
  destruct e as [[]|host port]; cbn; intros; [by rewrite <- ?app_assoc..|].
  destruct H as (_ & Hl & _). rewrite length_bytes_of_string, Nat.min_l by lia.
  rewrite as_u8_small by (unfold byte_ok; lia).
  rewrite take_ge by (rewrite length_bytes_of_string; lia). by rewrite <- app_assoc.
Qed.

Lemma parse_udp_complete e payload :
  endpoint_ok e ->
  parse_udp_datagram (encode_udp_datagram e payload) = Ok (e, (3 + length (wire_target e))%nat)
  /\ drop (3 + length (wire_target e)) (encode_udp_datagram e payload) = payload.
Proof.
  intros He. rewrite encode_udp_wire by done. split.
  - pose proof (parse_target_complete 0 0 0 e payload He) as Hp.
    unfold parse_udp_datagram. destruct (wire_target e) as [|h t] eqn:Hw;
      [by destruct (wire_target_hd e); congruence|].
    cbn [app length Nat.ltb Nat.leb idx lookup list_lookup mbind res_bind hd] in *.
    change (0 =? 0) with true. cbn [negb orb]. by rewrite Hp.
  - rewrite app_assoc. apply drop_app_length'. by rewrite length_app.
Qed.

(** ** Incomplete input *)

Lemma idx_app_l {E} (l more : bytes) i : (i < length l)%nat -> @idx E (l ++ more) i = idx l i.
Proof. intros H. unfold idx. by rewrite lookup_app_l. Qed.

Lemma parse_target_incomplete input atyp off need have :
  parse_target input atyp off = Err (Incomplete need have) ->
  have = length input /\ (have < need)%nat
  /\ forall more e n, parse_target (input ++ more) atyp off = Ok (e, n) -> (need <= length (input ++ more))%nat.
Proof.
  unfold parse_target. destruct (atyp =? ATYP_IPV4); [|destruct (atyp =? ATYP_IPV6);
    [|destruct (atyp =? ATYP_DOMAIN); [|done]]]; cbn zeta.
  1,2: intros H; destruct (_ <? _)%nat eqn:E in H; bool_hyps;
    [ injection H as <- <-; split_and!; [done|lia|]; intros more e n Hok;
      destruct (_ <? _)%nat eqn:E2 in Hok; [done|]; bool_hyps; lia
    | exfalso; revert H; no_panic ].
  intros H. destruct (_ <? _)%nat eqn:E in H; bool_hyps.
  { injection H as <- <-. split_and!; [done|lia|]. intros more e n Hok.
    destruct (_ <? _)%nat eqn:E2 in Hok; [done|]. bool_hyps. lia. }
  destruct (@idx_lt ParseError input off) as (dlen & Hi & _); [lia|].
  rewrite Hi in H. cbn [mbind res_bind] in H.
  destruct (Z.to_nat dlen =? 0)%nat eqn:E0; [done|].
  destruct (_ <? _)%nat eqn:E1 in H; bool_hyps.
  - injection H as <- <-. split_and!; [done|lia|]. intros more e n Hok.
    rewrite idx_app_l, Hi in Hok by lia. cbn [mbind res_bind] in Hok.
    rewrite (proj2 (Nat.eqb_neq _ _) E0) in Hok.
    destruct (_ <? _)%nat in Hok; [done|]. destruct (_ <? _)%nat eqn:E2 in Hok; [done|].
    bool_hyps. lia.
  - exfalso. revert H. no_panic.
Qed.

Lemma parse_request_incomplete input need have :
  parse_request input = Err (Incomplete need have) ->
  have = length input /\ (have < need)%nat
  /\ forall more r n, parse_request (input ++ more) = Ok (r, n) -> (need <= length (input ++ more))%nat.
Proof.
  unfold parse_request. intros H. destruct (_ <? _)%nat eqn:E in H; bool_hyps.
  { injection H as <- <-. split_and!; [done|lia|]. intros more r n Hok.
    destruct (_ <? _)%nat eqn:E2 in Hok; [done|]. bool_hyps. lia. }
  do 4 (destruct input as [|? input]; [cbn in E; lia|]).
  cbn [idx lookup list_lookup mbind res_bind app] in *.
  repeat match type of H with (if ?c then _ else _) = _ =>
    let E := fresh "E" in destruct c eqn:E; [done|] end.
  destruct (parse_target _ _ 4) as [[]| |] eqn:Ht; cbn in H; try done. injection H as ->.
  apply parse_target_incomplete in Ht as (-> & Hlt & Hmore). split_and!; [done|done|].
  intros more r n Hok. destruct (_ <? _)%nat in Hok; [done|].
  destruct (parse_target (_ :: _ :: _ :: _ :: input ++ more) _ 4) as [[e k]| |] eqn:Hp;
    cbn in Hok; try done.
  by apply (Hmore more e k).
Qed.

(** ** Properties *)

(** the SOCKS5 parsers are total on untrusted input. For every byte
    slice, the greeting, auth, request and UDP-header parsers return a value or a
    [ParseError]; no index or slice is out of bounds. *)
Theorem socks5_parsers_never_panic (input : bytes) :
  parse_greeting input <> Panic /\ parse_auth input <> Panic
  /\ parse_request input <> Panic /\ parse_udp_datagram input <> Panic.
Proof.
  split_and!.
  - apply parse_greeting_no_panic.
  - apply parse_auth_no_panic.
  - apply parse_request_no_panic.
  - apply parse_udp_datagram_no_panic.
Qed.

(** [parse_request] is the exact inverse of the RFC 1928 request format.
    It accepts a buffer, with consumed length [n], exactly when the buffer starts
    with the encoding of a well-formed request of [n] bytes, and returns that
    request. *)
Theorem socks5_request_wire_exact (input : bytes) (r : Socks5Request) (n : nat)
    (Hin : bytes_ok input) :
  parse_request input = Ok (r, n) <->
  request_ok r /\ n = length (wire_request r) /\ exists rest, input = wire_request r ++ rest.
Proof. by apply parse_request_iff. Qed.

Lemma socks5_request_wire_exact_witness :
  request_ok {| command := CMD_CONNECT; target := Domain "ya.ru" 443 |} /\
  exists rest, [5; 1; 0; 3; 5; 121; 97; 46; 114; 117; 1; 187; 22; 3]
    = wire_request {| command := CMD_CONNECT; target := Domain "ya.ru" 443 |} ++ rest.
Proof.
  destruct (socks5_request_wire_exact [5; 1; 0; 3; 5; 121; 97; 46; 114; 117; 1; 187; 22; 3]
    {| command := CMD_CONNECT; target := Domain "ya.ru" 443 |} 12) as [H _].
  - solve_bytes_ok.
  - destruct H as (H1 & _ & H2); [vm_compute; reflexivity|]. split; [exact H1 | exact H2].
Defined.

(** the greeting and RFC 1929 auth parsers are exact. A greeting is
    accepted exactly when it offers 1 to 16 methods, which are returned; an auth
    frame is accepted exactly when it encodes a user name and a password, each of
    1 to 255 bytes of valid UTF-8, which are returned. *)
Theorem socks5_auth_wire_exact (input : bytes) (Hin : bytes_ok input) :
  (forall ms n, parse_greeting input = Ok (ms, n) <->
     (1 <= length ms <= MAX_METHODS)%nat /\ n = (2 + length ms)%nat
     /\ exists rest, input = wire_greeting ms ++ rest)
  /\ (forall u p n, parse_auth input = Ok ((u, p), n) <->
     credential_ok u /\ credential_ok p /\ n = length (wire_auth u p)
     /\ exists rest, input = wire_auth u p ++ rest).
Proof.
  split; [intros; by apply parse_greeting_iff|].
  intros u p n. split; [by apply parse_auth_sound|].
  intros (Hu & Hp & -> & rest & ->). by apply parse_auth_complete.
Qed.

Lemma socks5_auth_wire_exact_witness :
  credential_ok "bob" /\ credential_ok "pass".
Proof.
  destruct (socks5_auth_wire_exact [1; 3; 98; 111; 98; 4; 112; 97; 115; 115]) as [_ H].
  - solve_bytes_ok.
  - destruct (H "bob"%string "pass"%string 10%nat) as [H' _].
    destruct H' as (H1 & H2 & _); [vm_compute; reflexivity|]. split; [exact H1|exact H2].
Defined.

(** UDP ASSOCIATE datagrams round-trip. For every endpoint the protocol
    can carry and every payload, [parse_udp_datagram] reads back the endpoint from
    [encode_udp_datagram]'s output and reports the offset at which exactly the
    payload starts. *)
Theorem socks5_udp_roundtrip (e : Endpoint) (payload : bytes) (He : endpoint_ok e) :
  exists header_end,
    parse_udp_datagram (encode_udp_datagram e payload) = Ok (e, header_end)
    /\ drop header_end (encode_udp_datagram e payload) = payload.
Proof. eexists. by apply parse_udp_complete. Qed.

Lemma socks5_udp_roundtrip_witness :
  exists header_end,
    parse_udp_datagram (encode_udp_datagram (Domain "dns.google" 53) [1; 2; 3])
      = Ok (Domain "dns.google" 53, header_end)
    /\ drop header_end (encode_udp_datagram (Domain "dns.google" 53) [1; 2; 3]) = [1; 2; 3].
Proof.
  apply (socks5_udp_roundtrip (Domain "dns.google" 53) [1; 2; 3]).
  split; [vm_compute; reflexivity|]. cbn. unfold u16_ok. lia.
Defined.

(** [Incomplete] is an honest request for more data. When [parse_request]
    answers [Incomplete {need, have}], [have] is the input's length, [need] is
    larger, and no extension of the input shorter than [need] is accepted. *)
Theorem socks5_incomplete_is_lower_bound (input : bytes) (need have : nat)
    (H : parse_request input = Err (Incomplete need have)) :
  have = length input /\ (have < need)%nat
  /\ forall more r n, parse_request (input ++ more) = Ok (r, n) -> (need <= length (input ++ more))%nat.
Proof. by apply parse_request_incomplete. Qed.

Lemma socks5_incomplete_is_lower_bound_witness :
  (5 < 18)%nat /\ forall more r n,
    parse_request ([5; 1; 0; 3; 11] ++ more) = Ok (r, n) ->
    (18 <= length ([5; 1; 0; 3; 11]%Z ++ more))%nat.
Proof.
  destruct (socks5_incomplete_is_lower_bound [5; 1; 0; 3; 11] 18 5) as (_ & H1 & H2);
    [vm_compute; reflexivity|]. split; [exact H1|exact H2].
Defined.
