(* ===== verification/Socks5.v ===== *)
(** * The SOCKS5 inbound handler
    Models crates/skadi-protocol/src/socks5.rs: configuration, method
    selection, RFC 1929 authentication, request reading and replies, over the
    stream monad of [Io]. *)

From Stdlib Require Import Ascii String.
From stdpp Require Import base list numbers strings pretty.
From S2P Require Import Prelude Core Io Socks5Parse.

Definition MAX_FRAME : nat := 512.

Inductive AuthMethod := NoAuth | UserPass.

#[export] Instance AuthMethod_eq_dec : EqDecision AuthMethod.
Proof. solve_decision. Defined.

Record UserCredential := { username : string; password : string }.

Record Socks5Config := {
  s5_enabled : bool;
  s5_auth : AuthMethod;
  s5_users : list UserCredential;
  s5_bind : bool;
  s5_udp_associate : bool
}.

Definition socks5_config_default : Socks5Config :=
  {| s5_enabled := false; s5_auth := NoAuth; s5_users := []; s5_bind := false;
     s5_udp_associate := false |}.

Definition lookup_user (config : Socks5Config) (name : string) : option string :=
  option_map password (List.find (fun u => bool_decide (username u = name)) (s5_users config)).

Section Handler.
Context `{ConstantTimeEq}.

Definition constant_time_eq (a b : string) : bool :=
  if negb (String.length a =? String.length b)%nat then false
  else ct_eq (bytes_of_string a) (bytes_of_string b).

(** [Self::write_all]: write, then flush. *)
Definition hwrite (buf : bytes) : io anyhow unit :=
  _ ← io_q (write_all buf);
  io_q flush.

Definition reply_bytes (code : Z) (bound : SocketAddr) : bytes :=
  [SOCKS5_VERSION; code; 0x00] ++
  match bound with
  | SockV4 ip port => [ATYP_IPV4] ++ ipv4_octets ip ++ to_be16 port
  | SockV6 octets port _ _ => [ATYP_IPV6] ++ octets ++ to_be16 port
  end.

Definition send_reply (code : Z) (bound : SocketAddr) : io anyhow unit :=
  hwrite (reply_bytes code bound).

Definition dummy_bound : SocketAddr := SocketAddr_new (V4 (Ipv4 0 0 0 0)) 0.

Definition send_error (code : Z) : io anyhow unit := send_reply code dummy_bound.

Definition read_greeting : io anyhow bytes :=
  header ← io_q (read_exact 2);
  nmethods_b ← of_res (idx header 1);
  let nmethods := Z.to_nat nmethods_b in
  if (MAX_METHODS <? nmethods)%nat
  then fail (bail ("too many auth methods: " +:+ fmt_dec nmethods))
  else
    tail ← io_q (read_exact nmethods);
    '(methods, _) ← of_res (map_err (fun e => bail ("greeting parse: " +:+ parse_error_display e))
                              (parse_greeting (header ++ tail)));
    mret methods.

Definition select_method (methods : bytes) (config : Socks5Config) : Z :=
  let wanted := match s5_auth config with
                | NoAuth => METHOD_NO_AUTH
                | UserPass => METHOD_USER_PASS
                end in
  if bool_decide (wanted ∈ methods) then wanted else METHOD_NO_ACCEPTABLE.

Definition NO_SUCH_USER : string := "__no_such_user__".

Definition perform_auth (config : Socks5Config) : io anyhow unit :=
  header ← io_q (read_exact 2);
  ulen_b ← of_res (idx header 1);
  let ulen := Z.to_nat ulen_b in
  if (ulen =? 0)%nat then fail (bail "empty username") else
  uname_b ← io_q (read_exact ulen);
  plen_buf ← io_q (read_exact 1);
  plen_b ← of_res (idx plen_buf 0);
  let plen := Z.to_nat plen_b in
  if (plen =? 0)%nat then fail (bail "empty password") else
  passwd_b ← io_q (read_exact plen);
  '((uname, passwd), _) ←
    of_res (map_err (fun e => bail ("auth parse: " +:+ parse_error_display e))
              (parse_auth (header ++ uname_b ++ [plen_b] ++ passwd_b)));
  let expected := default NO_SUCH_USER (lookup_user config uname) in
  let ok := constant_time_eq expected passwd in
  let status := if ok then 0x00 else 0x01 in
  _ ← hwrite [AUTH_VERSION; status];
  if negb ok then fail (bail "authentication failed") else mret tt.

Definition request_error_code (e : ParseError) : Z :=
  match e with
  | UnsupportedCommand _ => REP_COMMAND_NOT_SUPPORTED
  | UnsupportedAddressType _ => REP_ADDRESS_NOT_SUPPORTED
  | _ => REP_GENERAL_FAILURE
  end.

Definition read_request (config : Socks5Config) : io anyhow Socks5Request :=
  header ← io_q (read_exact 4);
  atyp ← of_res (idx header 3);
  tail ←
    (if atyp =? ATYP_IPV4 then io_q (read_exact 6)
     else if atyp =? ATYP_IPV6 then io_q (read_exact 18)
     else if atyp =? ATYP_DOMAIN then
       len_buf ← io_q (read_exact 1);
       dlen_b ← of_res (idx len_buf 0);
       let dlen := Z.to_nat dlen_b in
       if (dlen =? 0)%nat then
         _ ← ignore (send_error REP_ADDRESS_NOT_SUPPORTED);
         fail (bail "empty domain")
       else
         rest ← io_q (read_exact (dlen + 2));
         mret ([dlen_b] ++ rest)
     else
       _ ← ignore (send_error REP_ADDRESS_NOT_SUPPORTED);
       fail (bail ("unsupported address type: 0x" +:+ fmt_02x atyp)));
  '(request, _) ←
    of_res (map_err (fun e => bail ("request parse (reply 0x" +:+ fmt_02x (request_error_code e)
                                    +:+ "): " +:+ parse_error_display e))
              (parse_request (header ++ tail)));
  if (command request =? CMD_BIND) && negb (s5_bind config) then
    _ ← ignore (send_error REP_COMMAND_NOT_SUPPORTED);
    fail (bail "SOCKS5 BIND disabled in config")
  else if (command request =? CMD_UDP_ASSOCIATE) && negb (s5_udp_associate config) then
    _ ← ignore (send_error REP_COMMAND_NOT_SUPPORTED);
    fail (bail "SOCKS5 UDP ASSOCIATE disabled in config")
  else mret request.

Definition negotiate_inner (config : Socks5Config) : io anyhow Socks5Request :=
  methods ← read_greeting;
  let selected := select_method methods config in
  _ ← hwrite [SOCKS5_VERSION; selected];
  if selected =? METHOD_NO_ACCEPTABLE then fail (bail "no acceptable auth method") else
  _ ← (if selected =? METHOD_USER_PASS then perform_auth config else mret tt);
  read_request config.

Definition negotiate (config : Socks5Config) : io anyhow Socks5Request :=
  with_timeout "SOCKS5 negotiation timeout" (negotiate_inner config).
End Handler.

(** ** Specification *)

Definition wanted_method (config : Socks5Config) : Z :=
  match s5_auth config with NoAuth => METHOD_NO_AUTH | UserPass => METHOD_USER_PASS end.

(** The passwords the handler accepts for a user name. *)
Definition accepts (config : Socks5Config) (u p : string) : Prop :=
  lookup_user config u = Some p \/ lookup_user config u = None /\ p = NO_SUCH_USER.

#[export] Instance accepts_dec config u p : Decision (accepts config u p).
Proof. unfold accepts. apply _. Defined.

Definition command_enabled (config : Socks5Config) (c : Z) : Prop :=
  c = CMD_CONNECT \/ c = CMD_BIND /\ s5_bind config = true
  \/ c = CMD_UDP_ASSOCIATE /\ s5_udp_associate config = true.

(** The client's side of a negotiation, and the handler's answers. *)
Inductive transcript (config : Socks5Config) (r : Socks5Request) : bytes -> bytes -> Prop :=
| transcript_no_auth ms :
    s5_auth config = NoAuth -> (1 <= length ms <= MAX_METHODS)%nat -> METHOD_NO_AUTH ∈ ms ->
    request_ok r -> command_enabled config (command r) ->
    transcript config r (wire_greeting ms ++ wire_request r) [SOCKS5_VERSION; METHOD_NO_AUTH]
| transcript_user_pass ms u p :
    s5_auth config = UserPass -> (1 <= length ms <= MAX_METHODS)%nat -> METHOD_USER_PASS ∈ ms ->
    credential_ok u -> credential_ok p -> accepts config u p ->
    request_ok r -> command_enabled config (command r) ->
    transcript config r (wire_greeting ms ++ wire_auth u p ++ wire_request r)
      [SOCKS5_VERSION; METHOD_USER_PASS; AUTH_VERSION; 0].

(** ** Lemmas *)

#[export] Hint Resolve parse_greeting_no_panic parse_auth_no_panic parse_request_no_panic : wire.

Lemma wire_target_ok e : endpoint_ok e -> bytes_ok (wire_target e).
Proof.
  destruct e as [[ip port|octets port fl sc]|host port]; cbn [endpoint_ok wire_target].
  - intros [Hip _]. apply bytes_ok_cons. split; [by vm_compute|].
    apply bytes_ok_app. split; [exact Hip|apply bytes_ok_to_be16].
  - intros ([_ Ho] & _). apply bytes_ok_cons. split; [by vm_compute|]. solve_app_ok.
  - intros (_ & Hl & _). apply bytes_ok_cons. split; [by vm_compute|]. solve_app_ok.
Qed.

Lemma wire_request_ok r : request_ok r -> bytes_ok (wire_request r).
Proof.
  intros [Hc He]. unfold wire_request. apply bytes_ok_app. split; [|by apply wire_target_ok].
  destruct Hc as [-> | [-> | ->]]; solve_bytes_ok.
Qed.

Section HandlerLemmas.
Context `{ConstantTimeEq}.

Lemma hwrite_run buf s :
  tx_quota s = None -> hwrite buf s = (Done tt, with_tx (tx s ++ buf) s).
Proof.
  intros Hq. unfold hwrite, io_q, flush, io_map_err, mbind, io_bind, write_all, with_tx.
  by rewrite Hq.
Qed.

Lemma constant_time_eq_spec a b : constant_time_eq a b = bool_decide (a = b).
Proof.
  unfold constant_time_eq. destruct (_ =? _)%nat eqn:E; bool_hyps; cbn [negb].
  - rewrite ct_eq_spec by by rewrite !length_bytes_of_string.
    apply bool_decide_ext. split; [|congruence]. intros Hb.
    by rewrite <- (string_of_bytes_of_string a), <- (string_of_bytes_of_string b), Hb.
  - symmetry. apply bool_decide_eq_false. congruence.
Qed.

Lemma accepts_iff config u p : default NO_SUCH_USER (lookup_user config u) = p <-> accepts config u p.
Proof. unfold accepts. destruct (lookup_user config u); naive_solver. Qed.

(** A buffer read in full is the encoding itself: nothing is left over. *)
Lemma app_rest_nil {A} (w rest l : list A) : l = w ++ rest -> length l = length w -> l = w.
Proof.
  intros -> Hl. rewrite length_app in Hl. destruct rest; [apply app_nil_r|cbn in Hl; lia].
Qed.

Lemma read_greeting_iff s ms s' :
  bytes_ok (rx s) ->
  read_greeting s = (Done ms, s') <->
  (1 <= length ms <= MAX_METHODS)%nat
  /\ exists rest, rx s = wire_greeting ms ++ rest /\ s' = with_rx rest s.
Proof.
  intros Hb. split.
  - intros H1. unfold read_greeting in H1. io_inv H1.
    destruct (MAX_METHODS <? _)%nat eqn:EM; [discriminate H1|]. io_inv H1.
    apply map_err_ok in H2. cbn [with_rx rx] in *. rewrite Hrx, Hrx0 in Hb. inv_bytes_ok.
    apply parse_greeting_iff in H2 as (Hms & -> & more & Hw); [|by apply bytes_ok_app].
    split; [done|]. exists rest0. split; [|done].
    do 2 (destruct a as [|? a]; [done|]). destruct a; [|done].
    cbn in H0. unfold wire_greeting in Hw. cbn [app] in *. injection H0 as <-.
    injection Hw as -> -> Hw. rewrite Nat2Z.id in Hlen0.
    apply app_rest_nil in Hw; [|lia]. subst. rewrite Hrx. done.
  - intros (Hms & rest & Hrx & ->). unfold read_greeting.
    eapply bind_run; [by eapply (run_read_q [SOCKS5_VERSION; Z.of_nat (length ms)] (ms ++ rest))|].
    eapply bind_run; [by apply run_res|]. cbv beta zeta. rewrite Nat2Z.id.
    destruct (MAX_METHODS <? length ms)%nat eqn:EM; bool_hyps; [lia|].
    eapply bind_run; [by apply (run_read_q ms rest)|].
    rewrite Hrx in Hb. inv_bytes_ok.
    eapply bind_run; [apply run_res, map_err_ok, (parse_greeting_iff _ ms (2 + length ms))|done].
    + done.
    + split_and!; [lia|lia|done|]. exists []. by rewrite app_nil_r.
Qed.

(** Reading an auth frame: the bytes on the wire decide the outcome. *)
Lemma perform_auth_run config s u p rest :
  bytes_ok (rx s) -> tx_quota s = None -> credential_ok u -> credential_ok p ->
  rx s = wire_auth u p ++ rest ->
  perform_auth config s =
    (let ok := bool_decide (accepts config u p) in
     (if ok then Done tt else Fail (bail "authentication failed"),
      Stream rest (rx_eof s) (tx s ++ [AUTH_VERSION; if ok then 0 else 1]) None)).
Proof.
  intros Hb Hq Hu Hp Hrx. pose proof Hrx as Hw. unfold wire_auth in Hw.
  rewrite <- !app_assoc in Hw. destruct Hu as [Hu Hul], Hp as [Hp Hpl].
  unfold perform_auth.
  eapply bind_run; [by eapply (run_read_q [AUTH_VERSION; Z.of_nat (String.length u)])|].
  eapply bind_run; [by apply run_res|]. cbv beta zeta. rewrite Nat2Z.id.
  destruct (String.length u =? 0)%nat eqn:E; bool_hyps; [lia|].
  eapply bind_run; [by eapply (run_read_q (bytes_of_string u)); [|apply length_bytes_of_string]|].
  eapply bind_run; [by eapply (run_read_q [Z.of_nat (String.length p)])|].
  eapply bind_run; [by apply run_res|]. cbv beta zeta. rewrite Nat2Z.id.
  destruct (String.length p =? 0)%nat eqn:E2; bool_hyps; [lia|].
  eapply bind_run; [by eapply (run_read_q (bytes_of_string p) rest); [|apply length_bytes_of_string]|].
  eapply bind_run.
  { apply run_res, map_err_ok. pose proof (parse_auth_complete u p []) as Hc.
    rewrite app_nil_r in Hc. by apply Hc. }
  cbv beta zeta iota. eapply bind_run; [by apply hwrite_run|].
  rewrite !constant_time_eq_spec, (bool_decide_ext _ _ (accepts_iff config u p)).
  cbv zeta. unfold with_rx, with_tx. cbn [rx tx rx_eof tx_quota]. rewrite Hq.
  by destruct (bool_decide (accepts config u p)).
Qed.

Lemma perform_auth_iff config s s' :
  bytes_ok (rx s) -> tx_quota s = None ->
  perform_auth config s = (Done tt, s') <->
  exists u p rest, credential_ok u /\ credential_ok p /\ accepts config u p
    /\ rx s = wire_auth u p ++ rest
    /\ s' = Stream rest (rx_eof s) (tx s ++ [AUTH_VERSION; 0]) None.
Proof.
  intros Hb Hq. split.
  - intros H1. pose proof H1 as Hrun. unfold perform_auth in H1. io_inv H1.
    destruct (Z.to_nat a0 =? 0)%nat eqn:E; [discriminate H1|]. io_inv H1.
    destruct (Z.to_nat a3 =? 0)%nat eqn:E2; [discriminate H1|]. io_inv H1.
    apply map_err_ok in H3. clear H1. cbn [with_rx rx] in *. subst.
    destruct a2 as [|? [|]]; try done. injection H2 as ->.
    rewrite Hrx in Hb. inv_bytes_ok.
    apply parse_auth_sound in H3 as (Hu & Hp & _ & more & Hw); [|solve_app_ok].
    assert (Hrx' : rx s = wire_auth s0 s1 ++ (more ++ rest2)).
    { by rewrite Hrx, (app_assoc _ more), <- Hw, <- !app_assoc. }
    assert (Hbs : bytes_ok (rx s)) by (rewrite Hrx; solve_app_ok).
    pose proof (perform_auth_run config s s0 s1 _ Hbs Hq Hu Hp Hrx') as Hr. rewrite Hrun in Hr.
    cbv zeta in Hr. destruct (bool_decide _) eqn:Ha; [|done]. bool_hyps. injection Hr as ->.
    by exists s0, s1, (more ++ rest2).
  - intros (u & p & rest & Hu & Hp & Ha & Hrx & ->).
    rewrite (perform_auth_run config s u p rest) by done. cbv zeta.
    by rewrite (bool_decide_eq_true_2 _ Ha).
Qed.

(** Reading a well-formed request. *)
Lemma read_request_frame config s r rest :
  request_ok r -> rx s = wire_request r ++ rest ->
  read_request config s =
    (if (command r =? CMD_BIND) && negb (s5_bind config) then
       (_ ← ignore (send_error REP_COMMAND_NOT_SUPPORTED);
        fail (bail "SOCKS5 BIND disabled in config"))
     else if (command r =? CMD_UDP_ASSOCIATE) && negb (s5_udp_associate config) then
       (_ ← ignore (send_error REP_COMMAND_NOT_SUPPORTED);
        fail (bail "SOCKS5 UDP ASSOCIATE disabled in config"))
     else mret r) (with_rx rest s).
Proof.
  intros Hr Hrx. pose proof Hr as [_ He].
  assert (Hp : parse_request (wire_request r) = Ok (r, length (wire_request r))).
  { apply parse_request_iff; [by apply wire_request_ok|].
    split_and!; [done|done|]. exists []. by rewrite app_nil_r. }
  unfold wire_request in *. destruct r as [c [[ip port|octets port fl sc]|host port]];
    cbn [command target wire_target app] in *; rewrite <- ?app_assoc in Hrx; unfold read_request.
  - eapply bind_run; [eapply (run_read_q [SOCKS5_VERSION; c; 0; ATYP_IPV4]); [exact Hrx|done]|].
    eapply bind_run; [by apply run_res|].
    eapply bind_run; [by eapply (run_read_q (ipv4_octets ip ++ to_be16 port) rest)|].
    eapply bind_run; [apply run_res, map_err_ok, Hp|]. done.
  - destruct He as ([Hl _] & _).
    eapply bind_run; [eapply (run_read_q [SOCKS5_VERSION; c; 0; ATYP_IPV6]); [exact Hrx|done]|].
    eapply bind_run; [by apply run_res|].
    eapply bind_run.
    { eapply (run_read_q (octets ++ to_be16 port) rest); [by rewrite <- app_assoc|]. rewrite length_app, Hl. done. }
    eapply bind_run; [apply run_res, map_err_ok, Hp|]. done.
  - destruct He as (_ & Hl & _).
    eapply bind_run; [eapply (run_read_q [SOCKS5_VERSION; c; 0; ATYP_DOMAIN]); [exact Hrx|done]|].
    eapply bind_run; [by apply run_res|].
    eapply bind_run.
    { cbn [Z.eqb Pos.eqb ATYP_DOMAIN ATYP_IPV4 ATYP_IPV6].
      eapply bind_run; [by eapply (run_read_q [Z.of_nat (String.length host)])|].
      eapply bind_run; [by apply run_res|]. cbv beta zeta. rewrite Nat2Z.id.
      destruct (String.length host =? 0)%nat eqn:E; bool_hyps; [lia|].
      eapply bind_run; [|reflexivity].
      eapply (run_read_q (bytes_of_string host ++ to_be16 port) rest); [by rewrite <- app_assoc|].
      by rewrite length_app, length_bytes_of_string. }
    eapply bind_run; [apply run_res, map_err_ok, Hp|]. done.
Qed.

Lemma send_error_run code s :
  tx_quota s = None ->
  ignore (F:=anyhow) (send_error code) s = (Done tt, with_tx (tx s ++ reply_bytes code dummy_bound) s).
Proof. intros Hq. unfold ignore, send_error, send_reply. by rewrite hwrite_run. Qed.

(** What a successful [read_request] has read is a prefix of the input. *)
Lemma read_request_read config s r s' :
  read_request config s = (Done r, s') ->
  exists w rest n, rx s = w ++ rest /\ parse_request w = Ok (r, n).
Proof.
  intros H1. unfold read_request in H1. apply bind_done in H1 as (h & s1 & Hh & H1). io_inv Hh.
  apply bind_done in H1 as (atyp & s2 & Ha & H1). io_inv Ha.
  apply bind_done in H1 as (tl & s3 & Ht & H1).
  apply bind_done in H1 as ([r' n] & s4 & Hp & H1). io_inv Hp. apply map_err_ok in Hp.
  assert (r' = r) as -> by (repeat case_match; io_inv H1; done).
  assert (Htl : exists rest1, rx (with_rx rest s) = tl ++ rest1).
  { destruct (atyp =? ATYP_IPV4); [io_inv Ht; eauto|].
    destruct (atyp =? ATYP_IPV6); [io_inv Ht; eauto|].
    destruct (atyp =? ATYP_DOMAIN); io_inv Ht.
    destruct (Z.to_nat a0 =? 0)%nat; io_inv Ht.
    destruct a as [|? [|]]; try done. injection H0 as ->. cbn in *. exists rest1.
    rewrite Hrx0, Hrx1. done. }
  destruct Htl as [rest1 Htl]. cbn in Htl. exists (h ++ tl), rest1, n.
  by rewrite Hrx, Htl, <- app_assoc.
Qed.

Lemma read_request_iff config s r s' :
  bytes_ok (rx s) ->
  read_request config s = (Done r, s') <->
  request_ok r /\ command_enabled config (command r)
  /\ exists rest, rx s = wire_request r ++ rest /\ s' = with_rx rest s.
Proof.
  intros Hb. split.
  - intros H1. destruct (read_request_read _ _ _ _ H1) as (w & rest & n & Hrx & Hp).
    rewrite Hrx in Hb. inv_bytes_ok.
    apply parse_request_iff in Hp as (Hok & _ & more & ->); [|done].
    rewrite <- app_assoc in Hrx. rewrite (read_request_frame config s r _ Hok Hrx) in H1.
    pose proof Hok as [Hc _]. split; [done|]. unfold command_enabled.
    destruct Hc as [Hc|[Hc|Hc]]; rewrite Hc in *; cbn in H1;
      [|destruct (s5_bind config)|destruct (s5_udp_associate config)]; cbn in H1; io_inv H1;
      try (injection H1 as <-); split; eauto.
  - intros (Hok & Hc & rest & Hrx & ->). rewrite (read_request_frame config s r _ Hok Hrx).
    destruct Hc as [Hc|[[Hc Hen]|[Hc Hen]]]; rewrite Hc; cbn; rewrite ?Hen; done.
Qed.

Lemma select_method_spec config ms :
  (select_method ms config = wanted_method config /\ wanted_method config ∈ ms)
  \/ (select_method ms config = METHOD_NO_ACCEPTABLE /\ wanted_method config ∉ ms).
Proof.
  unfold select_method. change (match s5_auth config with NoAuth => _ | UserPass => _ end)
    with (wanted_method config).
  case_bool_decide; auto.
Qed.

Lemma negotiate_inner_iff config s r s' :
  bytes_ok (rx s) -> tx_quota s = None ->
  negotiate_inner config s = (Done r, s') <->
  exists i o rest, transcript config r i o /\ rx s = i ++ rest
    /\ s' = Stream rest (rx_eof s) (tx s ++ o) None.
Proof.
  intros Hb Hq. destruct s as [r0 eof t q]. cbn in Hb, Hq. subst q. split.
  - intros H1. unfold negotiate_inner in H1.
    apply bind_done in H1 as (ms & s1 & Hg & H1).
    apply read_greeting_iff in Hg as (Hms & rest & Hrx & ->); [|done].
    cbv zeta in H1. apply bind_done in H1 as ([] & s2 & Hw & H1).
    rewrite hwrite_run in Hw by done. injection Hw as <-.
    unfold with_rx, with_tx in H1. cbn [rx rx_eof tx tx_quota] in *. subst r0. inv_bytes_ok.
    destruct (select_method_spec config ms) as [[Hsel Hin]|[Hsel _]]; rewrite Hsel in H1; [|done].
    unfold wanted_method in *. destruct (s5_auth config) eqn:Hauth; cbn in H1.
    + apply read_request_iff in H1 as (Hr & Hc & more & Hrx & ->); [|done]. cbn [rx] in Hrx. subst.
      eexists _, _, more. split; [by apply transcript_no_auth with (ms:=ms)|].
      by rewrite <- app_assoc.
    + apply bind_done in H1 as ([] & s3 & Ha & H1).
      apply perform_auth_iff in Ha as (u & p & more & Hu & Hp & Hac & Hrx & ->); [|done|done].
      cbn [rx] in Hrx. subst. inv_bytes_ok.
      apply read_request_iff in H1 as (Hr & Hc & more' & Hrx & ->); [|done]. cbn [rx] in Hrx. subst.
      eexists _, _, more'. split; [by apply (transcript_user_pass _ _ ms u p)|].
      split; [by rewrite <- !app_assoc|]. unfold with_rx. cbn [rx tx rx_eof tx_quota].
      by rewrite <- app_assoc.
  - intros (i & o & rest & Ht & Hrx & ->). cbn in Hrx. unfold negotiate_inner.
    destruct Ht as [ms Hauth Hms Hin Hr Hc|ms u p Hauth Hms Hin Hu Hp Hac Hr Hc];
      rewrite <- !app_assoc in Hrx; subst r0;
      (eapply bind_run; [apply read_greeting_iff; [done|]; split; [done|]; by eexists|]);
      cbv zeta; (eapply bind_run; [by apply hwrite_run|]); apply bytes_ok_app in Hb as [_ Hb];
      unfold select_method; rewrite Hauth, bool_decide_eq_true_2 by done;
      unfold with_rx, with_tx;
      cbn [rx rx_eof tx tx_quota Z.eqb Pos.eqb METHOD_NO_AUTH METHOD_NO_ACCEPTABLE METHOD_USER_PASS].
    + eapply bind_run; [reflexivity|]. apply read_request_iff; [exact Hb|].
      split_and!; [done|done|]. by exists rest.
    + eapply bind_run.
      { apply perform_auth_iff; [exact Hb|done|].
        exists u, p. by eexists. }
      apply bytes_ok_app in Hb as [_ Hb]. apply read_request_iff; [exact Hb|].
      split_and!; [done|done|]. exists rest. split; [done|]. unfold with_rx.
      cbn [rx rx_eof tx tx_quota]. by rewrite <- !app_assoc.
Qed.

Lemma negotiate_iff config s r s' :
  bytes_ok (rx s) -> tx_quota s = None ->
  negotiate config s = (Done r, s') <->
  exists i o rest, transcript config r i o /\ rx s = i ++ rest
    /\ s' = Stream rest (rx_eof s) (tx s ++ o) None.
Proof. intros. unfold negotiate. rewrite timeout_done. by apply negotiate_inner_iff. Qed.

Lemma perform_auth_no_crash config : no_crash (perform_auth config).
Proof. unfold perform_auth, hwrite. solve_no_crash. Qed.

Lemma read_request_no_crash config : no_crash (read_request config).
Proof. unfold read_request, send_error, send_reply, hwrite. solve_no_crash. Qed.

Lemma negotiate_returns config s :
  (exists r, (negotiate config s).1 = Done r) \/ (exists e, (negotiate config s).1 = Fail e).
Proof.
  pose proof (perform_auth_no_crash config). pose proof (read_request_no_crash config).
  apply timeout_returns. unfold negotiate_inner, read_greeting, hwrite. solve_no_crash.
Qed.
End HandlerLemmas.

(** ** Properties *)

Definition demo_config : Socks5Config :=
  {| s5_enabled := true; s5_auth := UserPass;
     s5_users := [{| username := "bob"; password := "pass" |}];
     s5_bind := false; s5_udp_associate := true |}.

Definition demo_request : Socks5Request := {| command := CMD_CONNECT; target := Domain "ya.ru" 443 |}.

Definition demo_stream (u p : string) : stream :=
  Stream (wire_greeting [0; 2] ++ wire_auth u p ++ wire_request demo_request ++ [22; 3]) false [] None.

(** C1: the SOCKS5 handler implements RFC 1928/1929 exactly. On a transport
    that accepts its writes, [negotiate] succeeds with request [r] exactly when
    the client sent a negotiation for [r]: a greeting that offers the configured
    method, an auth frame with accepted credentials when the configuration asks
    for one, and a well-formed request whose command is enabled. It then consumed
    exactly that, leaving the rest of the stream to the relay, and answered with
    the selected method and the auth status. *)
Theorem socks5_negotiate_exact `{ConstantTimeEq} (config : Socks5Config) (s s' : stream)
    (r : Socks5Request) (Hb : bytes_ok (rx s)) (Hq : tx_quota s = None) :
  negotiate config s = (Done r, s') <->
  exists i o rest, transcript config r i o /\ rx s = i ++ rest
    /\ s' = Stream rest (rx_eof s) (tx s ++ o) None.
Proof. by apply negotiate_iff. Qed.

Lemma socks5_negotiate_exact_witness :
  exists i o rest, transcript demo_config demo_request i o
    /\ rx (demo_stream "bob" "pass") = i ++ rest.
Proof.
  destruct (socks5_negotiate_exact demo_config (demo_stream "bob" "pass")
    (Stream [22; 3] false [5; 2; 1; 0] None) demo_request) as [Ht _].
  - solve_bytes_ok.
  - reflexivity.
  - destruct Ht as (i & o & rest & H1 & H2 & _); [vm_compute; reflexivity|].
    exists i, o, rest. split; [exact H1|exact H2].
Defined.

(** wrong credentials are refused before any request is read. When the
    client offers user/pass and sends credentials the configuration does not
    accept, the handler fails, has answered with the method and auth status 1, and
    has not consumed a byte after the auth frame. *)
Theorem socks5_rejects_credentials `{ConstantTimeEq} (config : Socks5Config) (s : stream)
    (ms rest : bytes) (u p : string)
    (Hb : bytes_ok (rx s)) (Hq : tx_quota s = None) (Hauth : s5_auth config = UserPass)
    (Hms : (1 <= length ms <= MAX_METHODS)%nat) (Hin : METHOD_USER_PASS ∈ ms)
    (Hu : credential_ok u) (Hp : credential_ok p)
    (Hrx : rx s = wire_greeting ms ++ wire_auth u p ++ rest) (Hno : ~ accepts config u p) :
  negotiate config s =
    (Fail (bail "authentication failed"),
     Stream rest (rx_eof s) (tx s ++ [SOCKS5_VERSION; METHOD_USER_PASS; AUTH_VERSION; 1]) None).
Proof.
  apply timeout_fail.
  rewrite Hrx in Hb. apply bytes_ok_app in Hb as [Hg Hb]. unfold negotiate_inner.
  eapply bind_run.
  { apply read_greeting_iff; [rewrite Hrx; by apply bytes_ok_app|]. split; [done|]. by eexists. }
  cbv zeta. eapply bind_run; [by apply hwrite_run|].
  unfold select_method. rewrite Hauth, bool_decide_eq_true_2 by done.
  cbn [Z.eqb Pos.eqb METHOD_NO_ACCEPTABLE METHOD_USER_PASS]. apply bind_fail.
  rewrite (perform_auth_run config _ u p rest) by done.
  cbv zeta. rewrite (bool_decide_eq_false_2 _ Hno). cbn [rx_eof tx with_rx with_tx].
  by rewrite <- app_assoc.
Qed.

Lemma socks5_rejects_credentials_witness :
  negotiate demo_config (demo_stream "bob" "oops") =
    (Fail (bail "authentication failed"),
     Stream (wire_request demo_request ++ [22; 3]) false [5; 2; 1; 1] None).
Proof.
  apply (socks5_rejects_credentials demo_config (demo_stream "bob" "oops") [0; 2]
    (wire_request demo_request ++ [22; 3]) "bob" "oops").
  - solve_bytes_ok.
  - reflexivity.
  - reflexivity.
  - vm_compute. lia.
  - apply (bool_decide_eq_true_1 _). vm_compute. reflexivity.
  - split; [vm_compute; reflexivity|vm_compute; lia].
  - split; [vm_compute; reflexivity|vm_compute; lia].
  - reflexivity.
  - intros [H|[H _]]; vm_compute in H; discriminate H.
Defined.

(** C40: the dummy comparison for unknown users is itself a credential. With
    user/pass authentication configured, a client that names any user the
    configuration does not have and sends the password [__no_such_user__] is
    authenticated, and its request is accepted. *)
Theorem socks5_unknown_user_bypass `{ConstantTimeEq} (config : Socks5Config) (u : string)
    (r : Socks5Request) (Hauth : s5_auth config = UserPass) (Hu : credential_ok u)
    (Hunknown : lookup_user config u = None) (Hr : request_ok r)
    (Hc : command_enabled config (command r)) :
  negotiate config
    (Stream (wire_greeting [METHOD_USER_PASS] ++ wire_auth u NO_SUCH_USER ++ wire_request r) false [] None)
  = (Done r, Stream [] false [SOCKS5_VERSION; METHOD_USER_PASS; AUTH_VERSION; 0] None).
Proof.
  assert (Hn : credential_ok NO_SUCH_USER) by (split; [vm_compute; done|vm_compute; lia]).
  apply negotiate_iff; cbn [rx tx_quota]; [|done|].
  - apply bytes_ok_app. split; [solve_bytes_ok|]. apply bytes_ok_app.
    split; [|by apply wire_request_ok]. destruct Hu as [_ Hu]. unfold wire_auth.
    solve_app_ok; try (by vm_compute); unfold byte_ok; vm_compute; lia.
  - exists (wire_greeting [METHOD_USER_PASS] ++ wire_auth u NO_SUCH_USER ++ wire_request r),
      [SOCKS5_VERSION; METHOD_USER_PASS; AUTH_VERSION; 0], [].
    split_and!; [|by rewrite app_nil_r|done].
    apply transcript_user_pass; try done; [cbn; unfold MAX_METHODS; lia|by constructor|by right].
Qed.

Lemma socks5_unknown_user_bypass_witness :
  negotiate demo_config
    (Stream (wire_greeting [METHOD_USER_PASS] ++ wire_auth "mallory" NO_SUCH_USER
             ++ wire_request demo_request) false [] None)
  = (Done demo_request, Stream [] false [SOCKS5_VERSION; METHOD_USER_PASS; AUTH_VERSION; 0] None).
Proof.
  apply (socks5_unknown_user_bypass demo_config "mallory" demo_request).
  - reflexivity.
  - split; [vm_compute; reflexivity|vm_compute; lia].
  - vm_compute. reflexivity.
  - split; [left; reflexivity|]. split; [vm_compute; reflexivity|]. cbn. unfold u16_ok. lia.
  - left. reflexivity.
Defined.

(** a negotiation always ends in a result. Whatever the peer sends or
    withholds and whichever writes fail, [negotiate] returns a request or an
    error: it neither panics nor waits past its timeout. *)
Theorem socks5_negotiate_total `{ConstantTimeEq} (config : Socks5Config) (s : stream) :
  (exists r, (negotiate config s).1 = Done r) \/ (exists e, (negotiate config s).1 = Fail e).
Proof. apply negotiate_returns. Qed.
