(* ===== verification/VlessParse.v ===== *)
(** * VLESS wire parsers and builders
    Models crates/skadi-protocol/src/vless/parse.rs and the request builders of
    vless/client.rs. *)

From Stdlib Require Import Ascii String.
From stdpp Require Import base list list_numbers numbers strings pretty.
From S2P Require Import Prelude Core.

Definition VLESS_VERSION : Z := 0x00.
Definition CMD_TCP : Z := 0x01.
Definition CMD_UDP : Z := 0x02.
Definition CMD_MUX : Z := 0x03.
Definition MUX_PLACEHOLDER_HOST : string := "v1.mux.cool".
Definition ATYP_IPV4 : Z := 0x01.
Definition ATYP_DOMAIN : Z := 0x02.
Definition ATYP_IPV6 : Z := 0x03.
Definition MAX_ADDONS : nat := 512.
Definition MAX_DOMAIN : nat := 255.

Inductive ParseError :=
| Incomplete (need have : nat)
| BadVersion (v : Z)
| AddonsTooLarge (n : nat)
| UnsupportedCommand (c : Z)
| UnsupportedAddressType (t : Z)
| EmptyDomain
| InvalidUtf8 (what : string).

#[export] Instance ParseError_eq_dec : EqDecision ParseError.
Proof. solve_decision. Defined.

Definition parse_error_display (e : ParseError) : string :=
  match e with
  | Incomplete need have =>
    "not enough data: need " +:+ fmt_dec need +:+ ", have " +:+ fmt_dec have
  | BadVersion v => "unsupported VLESS version: 0x" +:+ fmt_02x v
  | AddonsTooLarge n => "addons too large: " +:+ fmt_dec n +:+ " > " +:+ fmt_dec MAX_ADDONS
  | UnsupportedCommand c => "unsupported command: 0x" +:+ fmt_02x c
  | UnsupportedAddressType t => "unsupported address type: 0x" +:+ fmt_02x t
  | EmptyDomain => "empty domain"
  | InvalidUtf8 w => "invalid UTF-8 in " +:+ w
  end.

Record VlessRequest := { uuid : bytes; command : Z; addons : bytes; target : Endpoint }.

(** ** Parsers *)

Definition parse_port_address (input : bytes) : res ParseError (Endpoint * nat) :=
  if (length input <? 3)%nat then Err (Incomplete 3 (length input)) else
  p0 ← idx input 0;
  p1 ← idx input 1;
  let port := from_be16 p0 p1 in
  atyp ← idx input 2;
  let addr_start := 3%nat in
  '(target, addr_len) ←
    (if atyp =? ATYP_IPV4 then
       if (length input <? addr_start + 4)%nat
       then Err (Incomplete (addr_start + 4) (length input)) else
       a ← idx input addr_start;
       b ← idx input (addr_start + 1);
       c ← idx input (addr_start + 2);
       d ← idx input (addr_start + 3);
       Ok (Ip (SocketAddr_new (V4 (Ipv4 a b c d)) port), 4%nat)
     else if atyp =? ATYP_DOMAIN then
       if (length input <? addr_start + 1)%nat
       then Err (Incomplete (addr_start + 1) (length input)) else
       dlen_b ← idx input addr_start;
       let dlen := Z.to_nat dlen_b in
       if (dlen =? 0)%nat then Err EmptyDomain else
       if (MAX_DOMAIN <? dlen)%nat
       then Err (Incomplete (addr_start + 1 + dlen) (length input)) else
       let domain_end := (addr_start + 1 + dlen)%nat in
       if (length input <? domain_end)%nat then Err (Incomplete domain_end (length input)) else
       domain_b ← slice input (addr_start + 1) domain_end;
       domain ← from_utf8 domain_b (InvalidUtf8 "domain");
       Ok (Domain domain port, (1 + dlen)%nat)
     else if atyp =? ATYP_IPV6 then
       if (length input <? addr_start + 16)%nat
       then Err (Incomplete (addr_start + 16) (length input)) else
       octets ← slice input addr_start (addr_start + 16);
       Ok (Ip (SocketAddr_new (V6 octets) port), 16%nat)
     else Err (UnsupportedAddressType atyp));
  Ok (target, (addr_start + addr_len)%nat).

Definition parse_request (input : bytes) : res ParseError (VlessRequest * nat) :=
  if (length input <? 18)%nat then Err (Incomplete 18 (length input)) else
  version ← idx input 0;
  if negb (version =? VLESS_VERSION) then Err (BadVersion version) else
  uuid ← slice input 1 17;
  addons_len_b ← idx input 17;
  let addons_len := Z.to_nat addons_len_b in
  if (MAX_ADDONS <? addons_len)%nat then Err (AddonsTooLarge addons_len) else
  let addons_end := (18 + addons_len)%nat in
  if (length input <? addons_end + 1)%nat
  then Err (Incomplete (addons_end + 1) (length input)) else
  addons ← slice input 18 addons_end;
  command ← idx input addons_end;
  if negb (command =? CMD_TCP) && negb (command =? CMD_UDP) && negb (command =? CMD_MUX)
  then Err (UnsupportedCommand command) else
  if command =? CMD_MUX then
    Ok ({| uuid := uuid; command := command; addons := addons;
           target := Domain MUX_PLACEHOLDER_HOST 0 |}, (addons_end + 1)%nat)
  else
  let after_cmd := (addons_end + 1)%nat in
  if (length input <? after_cmd + 3)%nat
  then Err (Incomplete (after_cmd + 3) (length input)) else
  tail ← slice_from input after_cmd;
  '(target, consumed) ← parse_port_address tail;
  Ok ({| uuid := uuid; command := command; addons := addons; target := target |},
      (after_cmd + consumed)%nat).

(** ** Builders *)

Definition encode_port_address (endpoint : Endpoint) : bytes :=
  match endpoint with
  | Ip addr =>
    to_be16 (sock_port addr) ++
    match sock_ip addr with
    | V4 ip => [ATYP_IPV4] ++ ipv4_octets ip
    | V6 octets => [ATYP_IPV6] ++ octets
    end
  | Domain domain port =>
    let domain_bytes := bytes_of_string domain in
    to_be16 port ++ [ATYP_DOMAIN] ++ [as_u8 (Z.of_nat (length domain_bytes))] ++ domain_bytes
  end.

Definition build_mux_request (uuid : bytes) : bytes :=
  [VLESS_VERSION] ++ uuid ++ [0] ++ [CMD_MUX].

Definition build_response_header (version : Z) : bytes := [version; 0x00].

Definition build_tcp_request (uuid : bytes) (addr : Ipv4Addr) (port : Z) : bytes :=
  [VLESS_VERSION] ++ uuid ++ [0] ++ [CMD_TCP] ++ to_be16 port ++ [ATYP_IPV4] ++ ipv4_octets addr.

Definition build_udp_request (uuid : bytes) (addr : Ipv4Addr) (port : Z) : bytes :=
  [VLESS_VERSION] ++ uuid ++ [0] ++ [CMD_UDP] ++ to_be16 port ++ [ATYP_IPV4] ++ ipv4_octets addr.

Definition build_udp_domain_request (uuid : bytes) (domain : string) (port : Z) : bytes :=
  let domain_bytes := bytes_of_string domain in
  [VLESS_VERSION] ++ uuid ++ [0] ++ [CMD_UDP] ++ to_be16 port ++ [ATYP_DOMAIN]
  ++ [as_u8 (Z.of_nat (length domain_bytes))] ++ domain_bytes.

Definition build_tcp_domain_request (uuid : bytes) (domain : string) (port : Z) : bytes :=
  let domain_bytes := bytes_of_string domain in
  [VLESS_VERSION] ++ uuid ++ [0] ++ [CMD_TCP] ++ to_be16 port ++ [ATYP_DOMAIN]
  ++ [as_u8 (Z.of_nat (length domain_bytes))] ++ domain_bytes.

Definition build_tcp_endpoint_request (uuid : bytes) (target : Endpoint) : bytes :=
  match target with
  | Ip addr =>
    match sock_ip addr with
    | V4 ip => build_tcp_request uuid ip (sock_port addr)
    | V6 _ => [VLESS_VERSION] ++ uuid ++ [0] ++ [CMD_TCP] ++ encode_port_address target
    end
  | Domain domain port => build_tcp_domain_request uuid domain port
  end.

Definition build_udp_endpoint_request (uuid : bytes) (target : Endpoint) : bytes :=
  match target with
  | Ip addr =>
    match sock_ip addr with
    | V4 ip => build_udp_request uuid ip (sock_port addr)
    | V6 _ => [VLESS_VERSION] ++ uuid ++ [0] ++ [CMD_UDP] ++ encode_port_address target
    end
  | Domain domain port => build_udp_domain_request uuid domain port
  end.

(** ** The wire format, as a specification *)

Definition wire_addr (e : Endpoint) : bytes :=
  match e with
  | Ip (SockV4 ip port) => to_be16 port ++ ATYP_IPV4 :: ipv4_octets ip
  | Ip (SockV6 octets port _ _) => to_be16 port ++ ATYP_IPV6 :: octets
  | Domain host port =>
    to_be16 port ++ ATYP_DOMAIN :: Z.of_nat (String.length host) :: bytes_of_string host
  end.

Definition uuid_ok (u : bytes) : Prop := length u = 16%nat /\ bytes_ok u.

Definition wire_head (r : VlessRequest) : bytes :=
  [VLESS_VERSION] ++ uuid r ++ [Z.of_nat (length (addons r))] ++ addons r ++ [command r].

Definition wire_request (r : VlessRequest) : bytes :=
  wire_head r ++ (if command r =? CMD_MUX then [] else wire_addr (target r)).

(** A request the protocol can carry. *)
Record request_ok (r : VlessRequest) : Prop := {
  rq_uuid : uuid_ok (uuid r);
  rq_addons : (length (addons r) <= 255)%nat /\ bytes_ok (addons r);
  rq_target :
    (command r = CMD_TCP \/ command r = CMD_UDP) /\ endpoint_ok (target r)
    \/ command r = CMD_MUX /\ target r = Domain MUX_PLACEHOLDER_HOST 0
}.

(** ** Addresses *)

Lemma parse_port_address_no_panic input : parse_port_address input <> Panic.
Proof. unfold parse_port_address. no_panic. Qed.

Lemma vless_parse_request_no_panic input : parse_request input <> Panic.
Proof.
  unfold parse_request. no_panic;
  match goal with |- context [parse_port_address ?i] =>
    pose proof (parse_port_address_no_panic i); destruct (parse_port_address i) as [[]| |] end; done.
Qed.

#[export] Hint Resolve parse_port_address_no_panic vless_parse_request_no_panic : wire.

Lemma parse_domain_eval p0 p1 dlen m rest :
  (1 <= length m <= 255)%nat -> Z.to_nat dlen = length m ->
  parse_port_address ([p0; p1; ATYP_DOMAIN; dlen] ++ m ++ rest)
  = (domain ← from_utf8 m (InvalidUtf8 "domain");
     Ok (Domain domain (from_be16 p0 p1), (4 + length m)%nat)).
Proof.
  intros Hm Hd. unfold parse_port_address, MAX_DOMAIN.
  rewrite (idx_some _ 0%nat p0), (idx_some _ 1%nat p1), (idx_some _ 2%nat ATYP_DOMAIN),
    (idx_some _ 3%nat dlen) by done.
  cbn [mbind res_bind]. rewrite Hd, !length_app. cbn [length].
  cbn [Z.eqb Pos.eqb ATYP_DOMAIN ATYP_IPV4 ATYP_IPV6].
  repeat match goal with |- context [if ?c then _ else _] =>
    destruct c eqn:?; bool_hyps; [lia|] end.
  rewrite (slice_app_mid [p0; p1; ATYP_DOMAIN; dlen] m rest (3 + 1) (3 + 1 + length m)) by done.
  cbn [mbind res_bind]. destruct (from_utf8 m _); cbn [mbind res_bind]; done.
Qed.

Lemma parse_port_address_complete e rest :
  endpoint_ok e -> parse_port_address (wire_addr e ++ rest) = Ok (e, length (wire_addr e)).
Proof.
  destruct e as [[ip port|octets port fl sc]|host port]; cbn [endpoint_ok].
  - intros [_ Hp]. destruct ip as [a b c d]. cbn. by rewrite from_to_be16.
  - intros ([Hl _] & Hp & -> & ->).
    do 16 (destruct octets as [|? octets]; [done|]). destruct octets; [|done].
    cbn. by rewrite from_to_be16.
  - intros (Hs & Hlen & Hp).
    pose proof (parse_domain_eval (port / 256 mod 256) (port mod 256)
      (Z.of_nat (String.length host)) (bytes_of_string host) rest) as He.
    rewrite length_bytes_of_string, from_utf8_string, from_to_be16 in He by done.
    cbn [wire_addr to_be16 app length]. cbn [app] in He. rewrite He by lia.
    cbn [mbind res_bind]. by rewrite length_bytes_of_string.
Qed.

Lemma parse_port_address_sound input e n :
  bytes_ok input -> parse_port_address input = Ok (e, n) ->
  endpoint_ok e /\ n = length (wire_addr e) /\ exists rest, input = wire_addr e ++ rest.
Proof.
  intros Hb H. do 3 (destruct input as [|? input]; [discriminate H|]).
  rename z into p0, z0 into p1, z1 into atyp.
  destruct (decide (atyp = ATYP_IPV4)) as [->|H4];
    [|destruct (decide (atyp = ATYP_IPV6)) as [->|H6];
      [|destruct (decide (atyp = ATYP_DOMAIN)) as [->|Hd]]].
  - do 4 (destruct input as [|? input]; [discriminate H|]). cbn in H. injection H as <- <-.
    inv_bytes_ok. cbn [endpoint_ok wire_addr length app ipv4_octets].
    rewrite to_from_be16 by done. split_and!; eauto with bytesdb.
    unfold ipv4_ok. by repeat apply Forall_cons_2.
  - do 16 (destruct input as [|? input]; [discriminate H|]). cbn in H. injection H as <- <-.
    inv_bytes_ok. cbn [endpoint_ok wire_addr length app]. rewrite to_from_be16 by done.
    split_and!; eauto with bytesdb. split; [done|]. by repeat apply Forall_cons_2.
  - destruct input as [|dlen t]; [discriminate H|].
    assert (Hg : (1 <= Z.to_nat dlen <= 255)%nat /\ (Z.to_nat dlen <= length t)%nat).
    { unfold parse_port_address, MAX_DOMAIN in H.
      cbn [Z.eqb Pos.eqb ATYP_DOMAIN ATYP_IPV4 ATYP_IPV6] in H.
      cbn [length idx lookup list_lookup mbind res_bind] in H.
      repeat case_match; simplify_eq/=; bool_hyps; lia. }
    destruct (split_at t (Z.to_nat dlen)) as (m & rest & -> & Hm); [lia|].
    pose proof (parse_domain_eval p0 p1 dlen m rest ltac:(lia) ltac:(lia)) as He.
    cbn [app] in He. rewrite He in H. clear He. inv_bytes_ok.
    destruct (from_utf8 m (InvalidUtf8 "domain")) as [d| |] eqn:Hu; cbn in H; try done.
    injection H as <- <-. apply from_utf8_inv in Hu as [-> Hs]; [|done].
    rewrite length_bytes_of_string in *. cbn [endpoint_ok wire_addr]. rewrite to_from_be16 by done.
    unfold byte_ok in *. split_and!; [done|lia|lia|by apply from_be16_ok| |].
    + cbn [length app]. by rewrite length_bytes_of_string.
    + exists rest. cbn [app]. do 4 f_equal. lia.
  - unfold parse_port_address in H. cbn [length idx lookup list_lookup mbind res_bind] in H.
    rewrite !(proj2 (Z.eqb_neq _ _)) in H by done. by destruct (_ <? _)%nat in H.
Qed.

Lemma parse_port_address_iff input e n :
  bytes_ok input ->
  parse_port_address input = Ok (e, n) <->
  endpoint_ok e /\ n = length (wire_addr e) /\ exists rest, input = wire_addr e ++ rest.
Proof.
  intros Hb. split; [by apply parse_port_address_sound|].
  intros (He & -> & rest & ->). by apply parse_port_address_complete.
Qed.

Lemma encode_port_address_wire e : endpoint_ok e -> encode_port_address e = wire_addr e.
Proof.
  destruct e as [[]|host port]; cbn; try done. intros (_ & Hl & _).
  rewrite length_bytes_of_string, as_u8_small; [done|]. unfold byte_ok. lia.
Qed.

Lemma wire_addr_length e : endpoint_ok e -> (5 <= length (wire_addr e) <= 259)%nat.
Proof.
  destruct e as [[]|host port]; cbn; intros H; [lia|..].
  - destruct H as ([-> _] & _). lia.
  - rewrite length_bytes_of_string. destruct H as (_ & H & _). lia.
Qed.

Lemma wire_addr_ok e : endpoint_ok e -> bytes_ok (wire_addr e).
Proof.
  destruct e as [[ip port|octets port fl sc]|host port]; cbn [endpoint_ok wire_addr]; intros He;
    (apply bytes_ok_app; split; [apply bytes_ok_to_be16|]); apply bytes_ok_cons;
    (split; [by vm_compute|]).
  - apply He.
  - apply He.
  - destruct He as (_ & Hl & _). apply bytes_ok_cons. split; [unfold byte_ok; lia|].
    apply bytes_ok_of_string.
Qed.

(** ** Requests *)

(** The head of a request: version, UUID, addons and command. *)
Lemma parse_request_eval u alen a c rest :
  length u = 16%nat -> Z.to_nat alen = length a -> (length a <= 255)%nat ->
  parse_request ([VLESS_VERSION] ++ u ++ [alen] ++ a ++ [c] ++ rest) =
    (if negb (c =? CMD_TCP) && negb (c =? CMD_UDP) && negb (c =? CMD_MUX)
     then Err (UnsupportedCommand c) else
     if c =? CMD_MUX then
       Ok ({| uuid := u; command := c; addons := a; target := Domain MUX_PLACEHOLDER_HOST 0 |},
           (19 + length a)%nat)
     else if (length rest <? 3)%nat
     then Err (Incomplete (22 + length a) (19 + length a + length rest)) else
     '(target, consumed) ← parse_port_address rest;
     Ok ({| uuid := u; command := c; addons := a; target := target |},
         (19 + length a + consumed)%nat)).
Proof.
  intros Hu Ha Hl. set (input := [VLESS_VERSION] ++ u ++ [alen] ++ a ++ [c] ++ rest).
  assert (Hlen : length input = (19 + length a + length rest)%nat).
  { unfold input. rewrite !length_app, Hu. cbn. lia. }
  assert (Hi0 : @idx ParseError input 0 = Ok VLESS_VERSION) by done.
  assert (Hs1 : @slice ParseError input 1 17 = Ok u).
  { apply (slice_app_mid [VLESS_VERSION] u); cbn; [done|lia]. }
  assert (Hi17 : @idx ParseError input 17 = Ok alen).
  { unfold input. rewrite app_assoc. apply idx_app_mid. rewrite length_app, Hu. done. }
  assert (Hs18 : @slice ParseError input 18 (18 + length a) = Ok a).
  { unfold input. rewrite !(app_assoc [VLESS_VERSION]), (app_assoc ([VLESS_VERSION] ++ u)).
    apply slice_app_mid; rewrite !length_app, Hu; done. }
  assert (Hic : @idx ParseError input (18 + length a) = Ok c).
  { unfold input. rewrite !(app_assoc [VLESS_VERSION]), (app_assoc ([VLESS_VERSION] ++ u)), app_assoc.
    apply idx_app_mid. rewrite !length_app, Hu. cbn. lia. }
  assert (Hd : @slice_from ParseError input (18 + length a + 1) = Ok rest).
  { rewrite slice_from_ok by lia. f_equal. unfold input.
    rewrite !(app_assoc [VLESS_VERSION]), (app_assoc ([VLESS_VERSION] ++ u)), !app_assoc.
    apply drop_app_length'. rewrite !length_app, Hu. cbn. lia. }
  unfold parse_request. rewrite Hi0. cbn [mbind res_bind]. rewrite Z.eqb_refl. cbn [negb].
  rewrite Hs1. cbn [mbind res_bind]. rewrite Hi17. cbn [mbind res_bind]. rewrite Ha.
  rewrite Hs18, Hic, Hd, Hlen. cbn [mbind res_bind].
  destruct (_ <? 18)%nat eqn:E0; bool_hyps; [lia|].
  destruct (MAX_ADDONS <? _)%nat eqn:E1; bool_hyps; [unfold MAX_ADDONS in *; lia|].
  destruct (_ <? 18 + _ + 1)%nat eqn:E2; bool_hyps; [lia|].
  destruct (negb (c =? CMD_TCP) && _ && _); [done|].
  destruct (c =? CMD_MUX); [do 2 f_equal; lia|].
  replace (19 + length a + length rest <? 18 + length a + 1 + 3)%nat with (length rest <? 3)%nat.
  2:{ destruct (length rest <? 3)%nat eqn:E; bool_hyps; symmetry;
      [apply Nat.ltb_lt|apply Nat.ltb_ge]; lia. }
  destruct (length rest <? 3)%nat; [do 2 f_equal; lia|].
  destruct (parse_port_address rest) as [[e k]| |]; cbn; [do 2 f_equal; lia|done|done].
Qed.

Lemma wire_head_length r : uuid_ok (uuid r) -> length (wire_head r) = (19 + length (addons r))%nat.
Proof. intros [Hl _]. unfold wire_head. rewrite !length_app, Hl. cbn. lia. Qed.

Lemma wire_request_mux r : command r = CMD_MUX -> wire_request r = wire_head r.
Proof. intros Hc. unfold wire_request. rewrite Hc. apply app_nil_r. Qed.

Lemma wire_request_addr r :
  command r = CMD_TCP \/ command r = CMD_UDP -> wire_request r = wire_head r ++ wire_addr (target r).
Proof. intros Hc. unfold wire_request. by destruct Hc as [-> | ->]. Qed.

Lemma parse_request_complete r rest :
  request_ok r -> parse_request (wire_request r ++ rest) = Ok (r, length (wire_request r)).
Proof.
  intros [Hu [Hal Ha] Ht]. pose proof (wire_head_length r Hu) as Hh.
  unfold wire_request. rewrite length_app, Hh. unfold wire_head. rewrite <- !app_assoc.
  rewrite parse_request_eval by (try apply Hu; lia).
  destruct Ht as [[Hc He]|[Hc He]].
  - replace (command r =? CMD_MUX) with false by (destruct Hc as [-> | ->]; done).
    replace (negb (command r =? CMD_TCP) && _ && _) with false
      by (destruct Hc as [-> | ->]; done).
    pose proof (wire_addr_length _ He). rewrite length_app.
    destruct (_ <? 3)%nat eqn:E; bool_hyps; [lia|].
    rewrite parse_port_address_complete by done. cbn [mbind res_bind].
    destruct r; done.
  - rewrite Hc. cbn. rewrite <- He, <- Hc. destruct r; cbn. do 2 f_equal. lia.
Qed.

Lemma parse_request_sound input r n :
  bytes_ok input -> parse_request input = Ok (r, n) ->
  request_ok r /\ n = length (wire_request r) /\ exists rest, input = wire_request r ++ rest.
Proof.
  intros Hb H.
  assert (Hg : exists u alen a c rest, input = [VLESS_VERSION] ++ u ++ [alen] ++ a ++ [c] ++ rest
    /\ length u = 16%nat /\ Z.to_nat alen = length a).
  { destruct (decide (18 <= length input)%nat) as [Hl|Hl].
    2:{ unfold parse_request in H. replace (length input <? 18)%nat with true in H; [done|].
        symmetry. apply Nat.ltb_lt. lia. }
    destruct input as [|v t]; [cbn in Hl; lia|].
    destruct (split_at t 16) as (u & t' & -> & Hu); [cbn in Hl; lia|].
    cbn [length] in Hl. rewrite length_app in Hl. destruct t' as [|alen t']; [cbn in Hl; lia|].
    assert (Hv : v = VLESS_VERSION /\ (18 + Z.to_nat alen + 1 <= 18 + length t')%nat).
    { unfold parse_request in H.
      assert (Hi : @idx ParseError (v :: u ++ alen :: t') 17 = Ok alen).
      { change (v :: u ++ alen :: t') with ((v :: u) ++ alen :: t'). apply idx_app_mid. cbn. lia. }
      rewrite Hi in H. rewrite (idx_some _ 0%nat v) in H by done. rewrite slice_ok in H
        by (cbn [length]; rewrite length_app; cbn; lia).
      cbn [mbind res_bind] in H. cbn [length] in H. rewrite length_app in H. cbn [length] in H.
      repeat case_match; simplify_eq/=; bool_hyps; split; done || lia. }
    destruct Hv as [-> Hl'].
    destruct (split_at t' (Z.to_nat alen)) as (a & t2 & -> & Ha); [lia|].
    rewrite length_app in Hl'. destruct t2 as [|c rest]; [cbn in Hl'; lia|].
    exists u, alen, a, c, rest. cbn. done. }
  destruct Hg as (u & alen & a & c & rest & -> & Hu & Ha). inv_bytes_ok.
  rewrite parse_request_eval in H by (unfold byte_ok in *; lia).
  assert (Hal : alen = Z.of_nat (length a)) by (unfold byte_ok in *; lia).
  assert (Ha255 : (length a <= 255)%nat) by (unfold byte_ok in *; lia).
  destruct (c =? CMD_TCP) eqn:E1; [|destruct (c =? CMD_UDP) eqn:E2;
    [|destruct (c =? CMD_MUX) eqn:E3; [|done]]].
  3:{ cbn in H. injection H as <- <-. bool_hyps. subst.
      rewrite wire_request_mux, wire_head_length by (done || by split).
      split; [constructor; cbn; auto; by split|]. split; [done|].
      exists rest. unfold wire_head. cbn [uuid addons command]. by rewrite <- !app_assoc. }
  all: bool_hyps; subst c; cbn [negb andb] in H; cbn [Z.eqb Pos.eqb CMD_TCP CMD_UDP CMD_MUX] in H;
    destruct (length rest <? 3)%nat; try done;
    destruct (parse_port_address rest) as [[e k]| |] eqn:Hp; cbn [mbind res_bind] in H; try done;
    injection H as <- <-; apply parse_port_address_sound in Hp as (He & -> & more & ->); [|done];
    subst alen; rewrite wire_request_addr, length_app, wire_head_length by (try (by split); auto);
    (split; [constructor; cbn; auto; by split|]); (split; [done|]);
    exists more; unfold wire_head; cbn [uuid addons command target]; by rewrite <- !app_assoc.
Qed.

Lemma vless_parse_request_iff input r n :
  bytes_ok input ->
  parse_request input = Ok (r, n) <->
  request_ok r /\ n = length (wire_request r) /\ exists rest, input = wire_request r ++ rest.
Proof.
  intros Hb. split; [by apply parse_request_sound|].
  intros (Hr & -> & rest & ->). by apply parse_request_complete.
Qed.

(** ** Builders *)

Lemma build_mux_wire u :
  build_mux_request u = wire_request {| uuid := u; command := CMD_MUX; addons := [];
                                        target := Domain MUX_PLACEHOLDER_HOST 0 |}.
Proof. rewrite wire_request_mux by done. done. Qed.

Lemma build_endpoint_wire c build u e :
  (c = CMD_TCP /\ build = build_tcp_endpoint_request \/ c = CMD_UDP /\ build = build_udp_endpoint_request) ->
  endpoint_ok e ->
  build u e = wire_request {| uuid := u; command := c; addons := []; target := e |}.
Proof.
  intros Hc He. rewrite wire_request_addr by (cbn; tauto). unfold wire_head.
  cbn [uuid command addons target length]. pose proof (encode_port_address_wire e He) as Hw.
  destruct Hc as [[-> ->] | [-> ->]]; destruct e as [[]|host port]; cbn [sock_ip] in *;
    rewrite <- Hw; cbn; by rewrite <- ?app_assoc.
Qed.

(** ** Properties *)

(** the VLESS parsers are total and exact. No input makes them panic, and
    [parse_request] accepts a buffer with consumed length [n] exactly when it
    starts with the [n]-byte encoding of a request the protocol can carry, which
    it returns; the same holds of [parse_port_address] and addresses. *)
Theorem vless_request_wire_exact (input : bytes) (Hb : bytes_ok input) :
  parse_request input <> Panic /\ parse_port_address input <> Panic
  /\ (forall r n, parse_request input = Ok (r, n) <->
       request_ok r /\ n = length (wire_request r) /\ exists rest, input = wire_request r ++ rest)
  /\ (forall e n, parse_port_address input = Ok (e, n) <->
       endpoint_ok e /\ n = length (wire_addr e) /\ exists rest, input = wire_addr e ++ rest).
Proof.
  split_and!; [auto with wire|auto with wire|..]; intros;
    [by apply vless_parse_request_iff|by apply parse_port_address_iff].
Qed.

Lemma vless_request_wire_exact_witness :
  request_ok {| uuid := seqZ 1 16; command := CMD_TCP; addons := []; target := Domain "ya.ru" 443 |}.
Proof.
  destruct (vless_request_wire_exact
    ([0] ++ seqZ 1 16 ++ [0; 1; 1; 187; 2; 5; 121; 97; 46; 114; 117])) as (_ & _ & H & _).
  - solve_bytes_ok.
  - destruct (H {| uuid := seqZ 1 16; command := CMD_TCP; addons := [];
                   target := Domain "ya.ru" 443 |} 28%nat) as [H' _].
    destruct H' as [Hr _]; [vm_compute; reflexivity|exact Hr].
Defined.

(** what the client builds, the server parses. For every 16-byte UUID and
    every endpoint the protocol can carry, the TCP and UDP requests built by the
    client and the Mux request parse back to that UUID, command and target,
    consuming the whole message. *)
Theorem vless_builders_roundtrip (u rest : bytes) (e : Endpoint)
    (Hu : uuid_ok u) (He : endpoint_ok e) :
  parse_request (build_tcp_endpoint_request u e ++ rest)
    = Ok ({| uuid := u; command := CMD_TCP; addons := []; target := e |},
          length (build_tcp_endpoint_request u e))
  /\ parse_request (build_udp_endpoint_request u e ++ rest)
    = Ok ({| uuid := u; command := CMD_UDP; addons := []; target := e |},
          length (build_udp_endpoint_request u e))
  /\ parse_request (build_mux_request u ++ rest)
    = Ok ({| uuid := u; command := CMD_MUX; addons := []; target := Domain MUX_PLACEHOLDER_HOST 0 |},
          length (build_mux_request u)).
Proof.
  assert (Hok : forall c t, ((c = CMD_TCP \/ c = CMD_UDP) /\ endpoint_ok t
      \/ c = CMD_MUX /\ t = Domain MUX_PLACEHOLDER_HOST 0) ->
      request_ok {| uuid := u; command := c; addons := []; target := t |}).
  { intros c t Hc. constructor; cbn; auto. split; [lia|apply Forall_nil_2]. }
  rewrite (build_endpoint_wire CMD_TCP build_tcp_endpoint_request u e),
    (build_endpoint_wire CMD_UDP build_udp_endpoint_request u e), build_mux_wire by auto.
  split_and!; apply parse_request_complete, Hok; auto.
Qed.

Lemma vless_builders_roundtrip_witness :
  exists r n, parse_request (build_tcp_endpoint_request (replicate 16 171) (Domain "ya.ru" 443) ++ [22; 3])
    = Ok (r, n) /\ target r = Domain "ya.ru" 443.
Proof.
  destruct (vless_builders_roundtrip (replicate 16 171) [22; 3] (Domain "ya.ru" 443)) as [H _].
  - split; [reflexivity|solve_bytes_ok].
  - split; [vm_compute; reflexivity|]. cbn. unfold u16_ok. lia.
  - eexists _, _. split; [exact H|reflexivity].
Defined.

(** a host name longer than 255 bytes is sent with a truncated length. The
    address encoder writes the length modulo 256 and then every byte, so the peer
    reads back a proper prefix of the name: for a name of [256 + k] bytes with
    [k] in 1..255, the request the client builds parses to the first [k] bytes. *)
Theorem vless_long_domain_truncated (u : bytes) (host : string) (port : Z) (k : nat)
    (Hu : uuid_ok u) (Hp : u16_ok port) (Hk : (1 <= k <= 255)%nat)
    (Hl : String.length host = (256 + k)%nat)
    (Hs : utf8_valid (take k (bytes_of_string host)) = true) :
  exists n, parse_request (build_tcp_endpoint_request u (Domain host port))
    = Ok ({| uuid := u; command := CMD_TCP; addons := [];
             target := Domain (string_of_bytes (take k (bytes_of_string host))) port |}, n)
    /\ (n < length (build_tcp_endpoint_request u (Domain host port)))%nat.
Proof.
  set (short := string_of_bytes (take k (bytes_of_string host))).
  assert (Hsb : bytes_of_string short = take k (bytes_of_string host)).
  { apply bytes_of_string_of_bytes. auto with bytesdb. }
  assert (Hsl : String.length short = k).
  { rewrite <- length_bytes_of_string, Hsb, length_take, length_bytes_of_string. lia. }
  assert (Hok : endpoint_ok (Domain short port)).
  { cbn. unfold str_ok. rewrite Hsb. split_and!; [done|lia|lia|done]. }
  set (r := {| uuid := u; command := CMD_TCP; addons := []; target := Domain short port |}).
  assert (Hw : build_tcp_endpoint_request u (Domain host port)
    = wire_request r ++ drop k (bytes_of_string host)).
  { rewrite wire_request_addr by (cbn; auto). unfold wire_head. cbn -[Z.of_nat].
    rewrite length_bytes_of_string, Hl, Hsl, Hsb. unfold as_u8.
    replace (Z.of_nat (256 + k) mod 256) with (Z.of_nat k).
    2:{ rewrite Nat2Z.inj_add, Z.add_mod, Z.add_0_l, Z.mod_mod, Z.mod_small by lia. done. }
    rewrite <- !app_assoc. cbn. by rewrite take_drop. }
  rewrite Hw. exists (length (wire_request r)). split.
  - apply parse_request_complete. constructor; cbn; auto. split; [lia|apply Forall_nil_2].
  - rewrite length_app, length_drop, length_bytes_of_string. lia.
Qed.

Lemma vless_long_domain_truncated_witness :
  exists n, parse_request (build_tcp_endpoint_request (replicate 16 171%Z)
      (Domain (string_of_bytes (replicate 257 97%Z)) 443))
    = Ok ({| uuid := replicate 16 171%Z; command := CMD_TCP; addons := []; target := Domain "a" 443 |}, n)
    /\ (n < length (build_tcp_endpoint_request (replicate 16 171%Z)
            (Domain (string_of_bytes (replicate 257 97%Z)) 443)))%nat.
Proof.
  apply (vless_long_domain_truncated (replicate 16 171%Z) (string_of_bytes (replicate 257 97%Z)) 443 1).
  - split; [reflexivity|solve_bytes_ok].
  - unfold u16_ok. lia.
  - lia.
  - vm_compute. reflexivity.
  - vm_compute. reflexivity.
Defined.
