(* ===== verification/VlessConfig.v ===== *)
(** * VLESS users
    Models crates/skadi-protocol/src/vless/config.rs: the UUID text format and
    the lookup of the user a UUID belongs to. *)

From Stdlib Require Import Ascii String.
From stdpp Require Import base list list_numbers numbers strings pretty.
From S2P Require Import Prelude Io VlessParse.

Record Uuid := { uuid_bytes : bytes }.

Inductive UuidParseError :=
| BadLength (n : nat)
| BadHex (c : Z).

Definition hex_val (b : Z) : res UuidParseError Z :=
  if (48 <=? b) && (b <=? 57) then Ok (b - 48)
  else if (97 <=? b) && (b <=? 102) then Ok (b - 97 + 10)
  else if (65 <=? b) && (b <=? 70) then Ok (b - 65 + 10)
  else Err (BadHex b).

(** [for (i, byte) in bytes.iter_mut().enumerate()]: the digits at [2i], [2i+1]. *)
Fixpoint uuid_digits (clean : bytes) (i todo : nat) : res UuidParseError bytes :=
  match todo with
  | O => Ok []
  | S todo' =>
    hi_b ← idx clean (i * 2);
    hi ← hex_val hi_b;
    lo_b ← idx clean (i * 2 + 1);
    lo ← hex_val lo_b;
    rest ← uuid_digits clean (i + 1) todo';
    Ok (Z.lor (Z.shiftl hi 4 mod 256) lo :: rest)
  end.

Definition uuid_parse (s : string) : res UuidParseError Uuid :=
  let clean := List.filter (fun c => negb (c =? 45)) (bytes_of_string s) in
  if negb (length clean =? 32)%nat then Err (BadLength (length clean)) else
  bytes ← uuid_digits clean 0 16;
  Ok {| uuid_bytes := bytes |}.

Definition hex_group (b : bytes) (i n : nat) : string :=
  String.concat "" (map fmt_02x (take n (drop i b))).

Definition uuid_display (u : Uuid) : string :=
  let b := uuid_bytes u in
  hex_group b 0 4 +:+ "-" +:+ hex_group b 4 2 +:+ "-" +:+ hex_group b 6 2 +:+ "-"
  +:+ hex_group b 8 2 +:+ "-" +:+ hex_group b 10 6.

Record VlessUser := { vu_id : string; vu_email : option string; vu_flow : option string }.

Record VlessConfig := { vc_enabled : bool; vc_users : list VlessUser }.

Section Authenticate.
Context `{ConstantTimeEq}.

Fixpoint authenticate_users (users : list VlessUser) (candidate : bytes) : option VlessUser :=
  match users with
  | [] => None
  | user :: rest =>
    match uuid_parse (vu_id user) with
    | Ok uuid => if ct_eq (uuid_bytes uuid) candidate then Some user
                 else authenticate_users rest candidate
    | _ => authenticate_users rest candidate
    end
  end.

Definition authenticate (config : VlessConfig) (candidate : bytes) : option VlessUser :=
  authenticate_users (vc_users config) candidate.
End Authenticate.

(** ** Lemmas *)

Lemma hex_val_ok b h : byte_ok b -> hex_val b = Ok h -> 0 <= h < 16.
Proof.
  unfold hex_val, byte_ok. intros Hb Hh. repeat case_match; simplify_eq/=; bool_hyps; lia.
Qed.

Lemma hex_pair hi lo : 0 <= hi < 16 -> 0 <= lo < 16 -> Z.lor (Z.shiftl hi 4 mod 256) lo = hi * 16 + lo.
Proof.
  intros Hh Hl.
  assert (Hall : forallb (fun h => forallb (fun l => Z.lor (Z.shiftl h 4 mod 256) l =? h * 16 + l)
    (seqZ 0 16)) (seqZ 0 16) = true) by (vm_compute; reflexivity).
  rewrite forallb_forall in Hall. specialize (Hall hi). rewrite forallb_forall in Hall.
  apply Z.eqb_eq, Hall; apply list_elem_of_In, elem_of_seqZ; lia.
Qed.

Lemma uuid_digits_ok clean i todo bs :
  bytes_ok clean -> uuid_digits clean i todo = Ok bs -> length bs = todo /\ bytes_ok bs.
Proof.
  intros Hc. revert i bs. induction todo as [|todo IH]; intros i bs Hd; cbn [uuid_digits] in Hd.
  { injection Hd as <-. split; [done|apply Forall_nil_2]. }
  unfold idx in Hd. destruct (clean !! (i * 2)%nat) as [hb|] eqn:E1; cbn in Hd; [|done].
  destruct (hex_val hb) as [hi| |] eqn:E2; cbn in Hd; try done.
  destruct (clean !! (i * 2 + 1)%nat) as [lb|] eqn:E3; cbn in Hd; [|done].
  destruct (hex_val lb) as [lo| |] eqn:E4; cbn in Hd; try done.
  destruct (uuid_digits clean (i + 1) todo) as [rest| |] eqn:E5; cbn in Hd; try done.
  injection Hd as <-. apply IH in E5 as [<- Hr].
  apply hex_val_ok in E2, E4; [|by apply (bytes_ok_lookup _ _ _ Hc E3)|by apply (bytes_ok_lookup _ _ _ Hc E1)].
  split; [done|]. apply bytes_ok_cons. split; [|done].
  change (byte_ok (Z.lor (Z.shiftl hi 4 mod 256) lo)).
  rewrite hex_pair by done. unfold byte_ok. lia.
Qed.

Lemma bytes_ok_filter f l : bytes_ok l -> bytes_ok (List.filter f l).
Proof.
  unfold bytes_ok. rewrite !Forall_forall. intros Hl x Hx. apply Hl.
  apply list_elem_of_In in Hx. apply List.filter_In in Hx as [Hx _]. by apply list_elem_of_In.
Qed.

Lemma uuid_parse_ok s u : uuid_parse s = Ok u -> uuid_ok (uuid_bytes u).
Proof.
  unfold uuid_parse. destruct (negb _); [done|].
  destruct (uuid_digits _ 0 16) as [bs| |] eqn:E; cbn; try done. intros [= <-].
  apply uuid_digits_ok in E; [done|]. apply bytes_ok_filter, bytes_ok_of_string.
Qed.

Lemma hex_val_no_panic b : hex_val b <> Panic.
Proof. unfold hex_val. by repeat case_match. Qed.

Lemma uuid_digits_no_panic clean i todo :
  (length clean = (i + todo) * 2)%nat -> uuid_digits clean i todo <> Panic.
Proof.
  revert i. induction todo as [|todo IH]; intros i Hl; cbn [uuid_digits]; [done|].
  destruct (@idx_lt UuidParseError clean (i * 2)) as (hb & -> & _); [lia|]. cbn [mbind res_bind].
  destruct (@idx_lt UuidParseError clean (i * 2 + 1)) as (lb & -> & _); [lia|].
  pose proof (hex_val_no_panic hb). pose proof (hex_val_no_panic lb).
  destruct (hex_val hb); cbn; try done. destruct (hex_val lb); cbn; try done.
  specialize (IH (i + 1)%nat ltac:(lia)). by destruct (uuid_digits clean (i + 1) todo).
Qed.

Lemma uuid_parse_no_panic s : uuid_parse s <> Panic.
Proof.
  unfold uuid_parse. destruct (negb _) eqn:E; [done|]. bool_hyps.
  pose proof (uuid_digits_no_panic _ 0 16 E). by destruct (uuid_digits _ 0 16).
Qed.

(** Two digits of [fmt_02x] read back the byte. *)
Definition hex_pair_check (b : Z) : bool :=
  match bytes_of_string (fmt_02x b) with
  | [h; l] =>
    match hex_val h, hex_val l with
    | Ok hi, Ok lo => (Z.lor (Z.shiftl hi 4 mod 256) lo =? b) && negb (h =? 45) && negb (l =? 45)
    | _, _ => false
    end
  | _ => false
  end.

Lemma hex_pair_all b : byte_ok b -> hex_pair_check b = true.
Proof.
  assert (Hall : forallb hex_pair_check (seqZ 0 256) = true) by (vm_compute; reflexivity).
  intros Hb. rewrite forallb_forall in Hall. apply Hall, list_elem_of_In, elem_of_seqZ.
  unfold byte_ok in Hb. lia.
Qed.

Lemma fmt_02x_digits b :
  byte_ok b -> exists h l hi lo, bytes_of_string (fmt_02x b) = [h; l] /\ hex_val h = Ok hi
    /\ hex_val l = Ok lo /\ Z.lor (Z.shiftl hi 4 mod 256) lo = b /\ (h =? 45) = false /\ (l =? 45) = false.
Proof.
  intros Hb. pose proof (hex_pair_all b Hb) as Hc. unfold hex_pair_check in Hc.
  destruct (bytes_of_string (fmt_02x b)) as [|h [|l [|]]]; try done.
  destruct (hex_val h) as [hi| |] eqn:E1; try done. destruct (hex_val l) as [lo| |] eqn:E2; try done.
  bool_hyps. exists h, l, hi, lo. split_and!; try done; by apply Z.eqb_neq.
Qed.

Lemma bytes_of_string_append a b : bytes_of_string (a +:+ b) = bytes_of_string a ++ bytes_of_string b.
Proof.
  induction a as [|c a IH]; [done|]. change (String c a +:+ b) with (String c (a +:+ b)).
  cbn. by rewrite IH.
Qed.

Fixpoint hex_bytes (b : bytes) : bytes :=
  match b with
  | [] => []
  | x :: b' => bytes_of_string (fmt_02x x) ++ hex_bytes b'
  end.

Lemma hex_group_bytes b i n : bytes_of_string (hex_group b i n) = hex_bytes (take n (drop i b)).
Proof.
  unfold hex_group. induction (take n (drop i b)) as [|x l IH]; [done|].
  destruct l as [|y l]; [done|].
  change (String.concat "" (map fmt_02x (x :: y :: l)))
    with (fmt_02x x +:+ ("" +:+ String.concat "" (map fmt_02x (y :: l)))).
  rewrite !bytes_of_string_append, IH. done.
Qed.

Lemma filter_hex_bytes b : bytes_ok b -> List.filter (fun c => negb (c =? 45)) (hex_bytes b) = hex_bytes b.
Proof.
  induction 1 as [|x b Hx Hb IH]; [done|]. cbn [hex_bytes].
  destruct (fmt_02x_digits x Hx) as (h & l & hi & lo & -> & _ & _ & _ & H1 & H2).
  cbn. rewrite H1, H2. cbn. by rewrite IH.
Qed.

Lemma hex_bytes_app a b : hex_bytes (a ++ b) = hex_bytes a ++ hex_bytes b.
Proof. induction a as [|x a IH]; [done|]. cbn [hex_bytes app]. by rewrite IH, app_assoc. Qed.

Lemma length_hex_bytes b : bytes_ok b -> length (hex_bytes b) = (length b * 2)%nat.
Proof.
  induction 1 as [|x b Hx Hb IH]; [done|]. cbn [hex_bytes].
  destruct (fmt_02x_digits x Hx) as (h & l & hi & lo & -> & _). cbn. by rewrite IH.
Qed.

Lemma uuid_digits_hex pre b post :
  bytes_ok b -> forall i, length pre = (i * 2)%nat ->
  uuid_digits (pre ++ hex_bytes b ++ post) i (length b) = Ok b.
Proof.
  intros Hb. revert pre. induction Hb as [|x b Hx Hb IH]; intros pre i Hp; [done|].
  cbn [length uuid_digits hex_bytes].
  destruct (fmt_02x_digits x Hx) as (h & l & hi & lo & -> & Eh & El & Ev & _).
  rewrite <- app_assoc. cbn [app].
  rewrite (idx_app_mid pre (l :: hex_bytes b ++ post) h (i * 2)) by done. cbn [mbind res_bind].
  rewrite Eh. cbn [mbind res_bind].
  change (h :: l :: hex_bytes b ++ post)
    with ([h] ++ l :: hex_bytes b ++ post).
  rewrite app_assoc, (idx_app_mid (pre ++ [h]) (hex_bytes b ++ post) l (i * 2 + 1))
    by (rewrite length_app; cbn; lia). cbn [mbind res_bind].
  rewrite El. cbn [mbind res_bind].
  change (l :: hex_bytes b ++ post) with ([l] ++ hex_bytes b ++ post). rewrite app_assoc.
  rewrite IH by (rewrite !length_app; cbn; lia). cbn [mbind res_bind]. by rewrite Ev.
Qed.

Lemma uuid_clean_display u :
  uuid_ok (uuid_bytes u) ->
  List.filter (fun c => negb (c =? 45)) (bytes_of_string (uuid_display u)) = hex_bytes (uuid_bytes u).
Proof.
  intros [Hl Hb]. unfold uuid_display.
  rewrite !bytes_of_string_append, !hex_group_bytes, !List.filter_app.
  rewrite !filter_hex_bytes by (unfold bytes_ok in *; auto using Forall_take, Forall_drop).
  assert (Hdash : List.filter (fun c => negb (c =? 45)) (bytes_of_string "-") = []) by done.
  rewrite Hdash. cbn [app]. rewrite <- !hex_bytes_app. f_equal. destruct u as [b]. cbn in *.
  do 16 (destruct b as [|? b]; [done|]). by destruct b.
Qed.

Lemma uuid_roundtrip u : uuid_ok (uuid_bytes u) -> uuid_parse (uuid_display u) = Ok u.
Proof.
  intros Hu. pose proof Hu as [Hl Hb]. unfold uuid_parse. rewrite uuid_clean_display by done.
  rewrite length_hex_bytes, Hl by done. cbn [Nat.mul Nat.add Nat.eqb negb].
  pose proof (uuid_digits_hex [] (uuid_bytes u) [] Hb 0 eq_refl) as Hd.
  rewrite app_nil_r, Hl in Hd. cbn [app] in Hd. rewrite Hd. cbn. by destruct u.
Qed.

(** A user whose configured id is this UUID. *)
Definition user_has_uuid (candidate : bytes) (user : VlessUser) : Prop :=
  uuid_parse (vu_id user) = Ok {| uuid_bytes := candidate |}.

Section AuthenticateLemmas.
Context `{ConstantTimeEq}.

Lemma authenticate_users_spec users cand :
  uuid_ok cand ->
  match authenticate_users users cand with
  | Some user => exists l1 l2, users = l1 ++ user :: l2 /\ user_has_uuid cand user
                 /\ Forall (fun v => ~ user_has_uuid cand v) l1
  | None => Forall (fun v => ~ user_has_uuid cand v) users
  end.
Proof.
  intros [Hl _]. induction users as [|v users IH]; [apply Forall_nil_2|].
  cbn [authenticate_users]. unfold user_has_uuid in *.
  assert (Hstep : uuid_parse (vu_id v) <> Ok {| uuid_bytes := cand |} ->
    match authenticate_users users cand with
    | Some user => exists l1 l2, v :: users = l1 ++ user :: l2
        /\ uuid_parse (vu_id user) = Ok {| uuid_bytes := cand |}
        /\ Forall (fun v => ~ uuid_parse (vu_id v) = Ok {| uuid_bytes := cand |}) l1
    | None => Forall (fun v => ~ uuid_parse (vu_id v) = Ok {| uuid_bytes := cand |}) (v :: users)
    end).
  { intros Hn. destruct (authenticate_users users cand) as [user|]; [|by apply Forall_cons_2].
    destruct IH as (l1 & l2 & -> & Hu & Hl1). exists (v :: l1), l2.
    split_and!; [done|done|by apply Forall_cons_2]. }
  destruct (uuid_parse (vu_id v)) as [u| |] eqn:Hp; try (by apply Hstep).
  rewrite ct_eq_spec by (rewrite Hl; apply (uuid_parse_ok _ _ Hp)).
  case_bool_decide as Heq; [|apply Hstep; intros [= ->]; done].
  exists [], users. subst cand. destruct u. split_and!; [done|done|apply Forall_nil_2].
Qed.
End AuthenticateLemmas.

(** ** Properties *)

(** a UUID printed by the server parses back to the same 16 bytes, and
    everything [Uuid::parse] accepts is a 16-byte UUID; the parser never indexes
    out of bounds. *)
Theorem uuid_text_roundtrip (u : Uuid) (Hu : uuid_ok (uuid_bytes u)) :
  uuid_parse (uuid_display u) = Ok u
  /\ forall s, uuid_parse s <> Panic /\ forall v, uuid_parse s = Ok v -> uuid_ok (uuid_bytes v).
Proof.
  split; [by apply uuid_roundtrip|]. intros s.
  split; [apply uuid_parse_no_panic|apply uuid_parse_ok].
Qed.

Lemma uuid_text_roundtrip_witness :
  uuid_display {| uuid_bytes := seqZ 0xA0 16 |} = "a0a1a2a3-a4a5-a6a7-a8a9-aaabacadaeaf"%string
  /\ uuid_parse (uuid_display {| uuid_bytes := seqZ 0xA0 16 |}) = Ok {| uuid_bytes := seqZ 0xA0 16 |}.
Proof.
  split; [vm_compute; reflexivity|].
  destruct (uuid_text_roundtrip {| uuid_bytes := seqZ 0xA0 16 |}) as [H _]; [|exact H].
  split; [reflexivity|solve_bytes_ok].
Defined.

(** authentication finds the first user with the presented UUID and
    nobody else. It answers a user exactly when some configured id parses to the
    candidate, the answer is the first such user, and users with unparsable ids
    are passed over. *)
Theorem vless_authenticate_first_match `{ConstantTimeEq} (config : VlessConfig) (cand : bytes)
    (Hc : uuid_ok cand) :
  match authenticate config cand with
  | Some user => exists l1 l2, vc_users config = l1 ++ user :: l2 /\ user_has_uuid cand user
                 /\ Forall (fun v => ~ user_has_uuid cand v) l1
  | None => Forall (fun v => ~ user_has_uuid cand v) (vc_users config)
  end.
Proof. by apply authenticate_users_spec. Qed.

Definition demo_user : VlessUser :=
  {| vu_id := "a0a1a2a3-a4a5-a6a7-a8a9-AAABACADAEAF"; vu_email := None; vu_flow := None |}.

Definition demo_vless : VlessConfig :=
  {| vc_enabled := true;
     vc_users := [{| vu_id := "not-a-uuid"; vu_email := None; vu_flow := None |}; demo_user] |}.

Lemma vless_authenticate_first_match_witness :
  authenticate demo_vless (seqZ 0xA0 16) = Some demo_user
  /\ exists l1 l2, vc_users demo_vless = l1 ++ demo_user :: l2 /\ user_has_uuid (seqZ 0xA0 16) demo_user.
Proof.
  pose proof (vless_authenticate_first_match demo_vless (seqZ 0xA0 16)) as H.
  assert (He : authenticate demo_vless (seqZ 0xA0 16) = Some demo_user) by (vm_compute; reflexivity).
  rewrite He in H. split; [exact He|].
  destruct H as (l1 & l2 & H1 & H2 & _); [split; [reflexivity|solve_bytes_ok]|].
  exists l1, l2. split; [exact H1|exact H2].
Defined.
