(* ===== verification/Addons.v ===== *)
(** * VLESS addons
    Models crates/skadi-protocol/src/vless/addons.rs: a hand-written protobuf
    reader for the addons field of a request, and the flow policy. The two
    [while offset < data.len()] loops run on fuel; the theorems show that the
    fuel chosen, the length of the data, is always enough. *)

From Stdlib Require Import Ascii String.
From stdpp Require Import base list list_numbers numbers strings pretty.
From S2P Require Import Prelude.

Definition FLOW_XTLS_VISION : string := "xtls-rprx-vision".

Record VlessAddons := { va_flow : option string; va_seed : option bytes }.

Definition vless_addons_default : VlessAddons := {| va_flow := None; va_seed := None |}.

Inductive AddonsError :=
| Truncated
| InvalidWireType (w : Z)
| FlowTooLarge (n : Z)
| SeedTooLarge (n : Z).

Definition addons_error_display (e : AddonsError) : string :=
  match e with
  | Truncated => "truncated protobuf field"
  | InvalidWireType w => "invalid protobuf wire type: " +:+ pretty w
  | FlowTooLarge n => "nested flow message too large: " +:+ pretty n
  | SeedTooLarge n => "seed too large: " +:+ pretty n
  end.

Definition MAX_NESTED : Z := 128.
Definition MAX_SEED : Z := 64.
Definition MAX_ADDONS_SKIP : Z := 512.

(** [u64] wrap-around. *)
Definition as_u64 (n : Z) : Z := n mod 2 ^ 64.
Definition as_u32 (n : Z) : Z := n mod 2 ^ 32.

(** The varint loop: [rest] is [data[pos..]]. *)
Fixpoint varint_loop (rest : bytes) (pos : nat) (result shift : Z) : res AddonsError (Z * nat) :=
  match rest with
  | [] => Err Truncated
  | byte :: rest' =>
    let pos := (pos + 1)%nat in
    let result := Z.lor result (as_u64 (Z.shiftl (Z.land byte 0x7F) shift)) in
    if Z.land byte 0x80 =? 0 then Ok (result, pos) else
    let shift := shift + 7 in
    if 63 <? shift then Err Truncated else varint_loop rest' pos result shift
  end.

Definition read_varint (data : bytes) (offset : nat) : res AddonsError (Z * nat) :=
  varint_loop (drop offset data) offset 0 0.

Definition skip_varint (data : bytes) (offset : nat) : res AddonsError nat :=
  '(_, next) ← read_varint data offset;
  Ok next.

Definition read_tag (data : bytes) (offset : nat) : res AddonsError (Z * Z * nat) :=
  '(value, next) ← read_varint data offset;
  let wire_type := Z.land value 0x07 in
  let tag := as_u32 (Z.shiftr value 3) in
  Ok ((tag, wire_type), next).

Definition read_length_delimited (data : bytes) (offset : nat) (max_len : Z)
    : res AddonsError (bytes * nat) :=
  '(len, next) ← read_varint data offset;
  if max_len <? len then
    Err (if max_len =? MAX_SEED then SeedTooLarge len else FlowTooLarge len)
  else
  let end_ := (next + Z.to_nat len)%nat in
  if (length data <? end_)%nat then Err Truncated else
  s ← slice data next end_;
  Ok (s, end_).

(** The two parsers are [while offset < data.len()] loops. Out of fuel is
    [None], which is not a result of the program. *)
Fixpoint flow_loop (fuel : nat) (data : bytes) (offset : nat) (flow_type : string)
    : option (res AddonsError string) :=
  if negb (offset <? length data)%nat then Some (Ok flow_type) else
  match fuel with
  | O => None
  | S fuel =>
    match read_tag data offset with
    | Ok ((tag, wire_type), offset) =>
      if (tag =? 1) && (wire_type =? 2) then
        match read_length_delimited data offset MAX_NESTED with
        | Ok (value, offset) =>
          match from_utf8 value Truncated with
          | Ok s => flow_loop fuel data offset s
          | Err e => Some (Err e)
          | Panic => Some Panic
          end
        | Err e => Some (Err e)
        | Panic => Some Panic
        end
      else if wire_type =? 0 then
        match skip_varint data offset with
        | Ok offset => flow_loop fuel data offset flow_type
        | Err e => Some (Err e)
        | Panic => Some Panic
        end
      else if wire_type =? 1 then flow_loop fuel data (offset + 8) flow_type
      else if wire_type =? 2 then
        match read_length_delimited data offset MAX_NESTED with
        | Ok (_, offset) => flow_loop fuel data offset flow_type
        | Err e => Some (Err e)
        | Panic => Some Panic
        end
      else if wire_type =? 5 then flow_loop fuel data (offset + 4) flow_type
      else Some (Err (InvalidWireType wire_type))
    | Err e => Some (Err e)
    | Panic => Some Panic
    end
  end.

Definition parse_flow_message (data : bytes) : res AddonsError string :=
  default Panic (flow_loop (length data) data 0 EmptyString).

Fixpoint addons_loop (fuel : nat) (data : bytes) (offset : nat) (addons : VlessAddons)
    : option (res AddonsError VlessAddons) :=
  if negb (offset <? length data)%nat then Some (Ok addons) else
  match fuel with
  | O => None
  | S fuel =>
    match read_tag data offset with
    | Ok ((tag, wire_type), offset) =>
      if (tag =? 1) && (wire_type =? 2) then
        match read_length_delimited data offset MAX_NESTED with
        | Ok (nested, offset) =>
          match parse_flow_message nested with
          | Ok flow => addons_loop fuel data offset {| va_flow := Some flow; va_seed := va_seed addons |}
          | Err e => Some (Err e)
          | Panic => Some Panic
          end
        | Err e => Some (Err e)
        | Panic => Some Panic
        end
      else if (tag =? 2) && (wire_type =? 2) then
        match read_length_delimited data offset MAX_SEED with
        | Ok (seed, offset) =>
          addons_loop fuel data offset {| va_flow := va_flow addons; va_seed := Some seed |}
        | Err e => Some (Err e)
        | Panic => Some Panic
        end
      else if wire_type =? 0 then
        match skip_varint data offset with
        | Ok offset => addons_loop fuel data offset addons
        | Err e => Some (Err e)
        | Panic => Some Panic
        end
      else if wire_type =? 1 then addons_loop fuel data (offset + 8) addons
      else if wire_type =? 2 then
        match read_length_delimited data offset MAX_ADDONS_SKIP with
        | Ok (_, offset) => addons_loop fuel data offset addons
        | Err e => Some (Err e)
        | Panic => Some Panic
        end
      else if wire_type =? 5 then addons_loop fuel data (offset + 4) addons
      else Some (Err (InvalidWireType wire_type))
    | Err e => Some (Err e)
    | Panic => Some Panic
    end
  end.

Definition parse_addons (data : bytes) : res AddonsError VlessAddons :=
  if (length data =? 0)%nat then Ok vless_addons_default else
  default Panic (addons_loop (length data) data 0 vless_addons_default).

(** ** The flow policy *)

Inductive UnsupportedFlow :=
| Vision
| Unknown (flow : string)
| Mismatch (expected : string) (got : option string).

Definition validate_flow (flow user_flow : option string) : res UnsupportedFlow unit :=
  let tail :=
    match user_flow with
    | Some expected =>
      if negb (bool_decide (expected = EmptyString)) && negb (bool_decide (flow = Some expected))
      then Err (Mismatch expected flow) else Ok tt
    | None => Ok tt
    end in
  match flow with
  | Some f =>
    if bool_decide (f = FLOW_XTLS_VISION) then Err Vision
    else if negb (bool_decide (f = EmptyString)) then Err (Unknown f)
    else tail
  | None => tail
  end.

(** ** Builders *)

Definition build_flow_message (flow : string) : bytes :=
  let flow_bytes := bytes_of_string flow in
  [0x0A] ++ [as_u8 (Z.of_nat (length flow_bytes))] ++ flow_bytes.

Definition build_addons_with_flow (flow : string) : bytes :=
  let flow_msg := build_flow_message flow in
  [0x0A] ++ [as_u8 (Z.of_nat (length flow_msg))] ++ flow_msg.

(** ** Specification: the protobuf varint encoding *)

Fixpoint varint (fuel : nat) (v : Z) : bytes :=
  match fuel with
  | O => []
  | S fuel => if v <? 128 then [v] else (v mod 128 + 128) :: varint fuel (v / 128)
  end.

(** A [u64] takes at most ten groups of seven bits. *)
Definition encode_varint (v : Z) : bytes := varint 10 v.

(** ** The readers advance and stay in bounds *)

Lemma varint_loop_bounds rest pos r sh v next :
  varint_loop rest pos r sh = Ok (v, next) -> (pos < next <= pos + length rest)%nat.
Proof.
  revert pos r sh. induction rest as [|b rest IH]; intros pos r sh H; cbn -[Z.land Z.lor] in H; [done|].
  destruct (_ =? 0); [injection H as _ <-; cbn; lia|]. destruct (63 <? _); [done|].
  apply IH in H. cbn. lia.
Qed.

Lemma varint_loop_no_panic rest pos r sh : varint_loop rest pos r sh <> Panic.
Proof.
  revert pos r sh. induction rest as [|b rest IH]; intros; cbn -[Z.land Z.lor]; [done|].
  destruct (_ =? 0); [done|]. by destruct (63 <? _).
Qed.

Lemma read_varint_bounds data off v next :
  (off < length data)%nat -> read_varint data off = Ok (v, next) -> (off < next <= length data)%nat.
Proof. intros Ho H. apply varint_loop_bounds in H. rewrite length_drop in H. lia. Qed.

(** Past the end there is nothing to read. *)
Lemma read_varint_past data off : (length data <= off)%nat -> read_varint data off = Err Truncated.
Proof. intros H. unfold read_varint. by rewrite drop_ge. Qed.

Lemma read_varint_next data off v next :
  read_varint data off = Ok (v, next) -> (off < next <= length data)%nat.
Proof.
  destruct (decide (off < length data)%nat); [by apply read_varint_bounds|].
  by rewrite read_varint_past by lia.
Qed.

Lemma read_tag_next data off t next :
  read_tag data off = Ok (t, next) -> (off < next <= length data)%nat.
Proof.
  unfold read_tag. destruct (read_varint data off) as [[v n]| |] eqn:E; cbn; try done.
  intros [= _ <-]. by apply read_varint_next in E.
Qed.

Lemma read_tag_no_panic data off : read_tag data off <> Panic.
Proof.
  unfold read_tag. pose proof (varint_loop_no_panic (drop off data) off 0 0).
  unfold read_varint. by destruct (varint_loop _ _ _ _) as [[]| |].
Qed.

Lemma skip_varint_next data off next :
  skip_varint data off = Ok next -> (off < next <= length data)%nat.
Proof.
  unfold skip_varint. destruct (read_varint data off) as [[v n]| |] eqn:E; cbn; try done.
  intros [= <-]. by apply read_varint_next in E.
Qed.

Lemma skip_varint_no_panic data off : skip_varint data off <> Panic.
Proof.
  unfold skip_varint, read_varint. pose proof (varint_loop_no_panic (drop off data) off 0 0).
  by destruct (varint_loop _ _ _ _) as [[]| |].
Qed.

Lemma read_length_delimited_next data off m s next :
  read_length_delimited data off m = Ok (s, next) -> (off < next <= length data)%nat.
Proof.
  unfold read_length_delimited.
  destruct (read_varint data off) as [[v n]| |] eqn:E; cbn [mbind res_bind]; try done.
  apply read_varint_next in E. destruct (m <? v); [done|].
  destruct (_ <? _)%nat eqn:El; [done|]. bool_hyps. rewrite slice_ok by lia. cbn.
  intros [= _ <-]. lia.
Qed.

Lemma read_length_delimited_no_panic data off m : read_length_delimited data off m <> Panic.
Proof.
  unfold read_length_delimited. unfold read_varint at 1.
  pose proof (varint_loop_no_panic (drop off data) off 0 0).
  destruct (varint_loop _ _ _ _) as [[v n]| |] eqn:E; cbn [mbind res_bind]; try done.
  change (read_varint data off = Ok (v, n)) in E. apply read_varint_next in E.
  destruct (m <? v); [done|]. destruct (_ <? _)%nat eqn:El; [done|]. bool_hyps.
  rewrite slice_ok by lia. done.
Qed.

#[export] Hint Resolve read_tag_no_panic skip_varint_no_panic read_length_delimited_no_panic : wire.

(** One step of a loop: the reader answers an error, or advances. *)
Ltac reader_step r :=
  let E := fresh "E" in
  destruct r as [| |] eqn:E;
  [ | eexists; split; [reflexivity|done]
    | exfalso; first [ by apply (read_tag_no_panic _ _ E)
                     | by apply (skip_varint_no_panic _ _ E)
                     | by apply (read_length_delimited_no_panic _ _ _ E) ] ];
  repeat match goal with p : _ * _ |- _ => destruct p end;
  first [ apply read_tag_next in E | apply skip_varint_next in E
        | apply read_length_delimited_next in E ].

Ltac loop_done IH := apply IH; lia.

Lemma flow_loop_total fuel data off acc :
  (length data <= off + fuel)%nat ->
  exists r, flow_loop fuel data off acc = Some r /\ r <> Panic.
Proof.
  revert off acc. induction fuel as [|fuel IH]; intros off acc Hf; cbn [flow_loop];
    destruct (off <? length data)%nat eqn:Eo; cbn [negb]; bool_hyps; try (by eexists); [lia|].
  reader_step (read_tag data off).
  destruct ((z =? 1) && (z0 =? 2)).
  { reader_step (read_length_delimited data n MAX_NESTED).
    unfold from_utf8. destruct (utf8_valid _); [loop_done IH|by eexists]. }
  destruct (z0 =? 0); [reader_step (skip_varint data n); loop_done IH|].
  destruct (z0 =? 1); [loop_done IH|].
  destruct (z0 =? 2); [reader_step (read_length_delimited data n MAX_NESTED); loop_done IH|].
  destruct (z0 =? 5); [loop_done IH|]. by eexists.
Qed.

Lemma parse_flow_message_no_panic data : parse_flow_message data <> Panic.
Proof.
  unfold parse_flow_message.
  destruct (flow_loop_total (length data) data 0 EmptyString) as (r & -> & Hr); [lia|done].
Qed.

Lemma addons_loop_total fuel data off acc :
  (length data <= off + fuel)%nat ->
  exists r, addons_loop fuel data off acc = Some r /\ r <> Panic.
Proof.
  revert off acc. induction fuel as [|fuel IH]; intros off acc Hf; cbn [addons_loop];
    destruct (off <? length data)%nat eqn:Eo; cbn [negb]; bool_hyps; try (by eexists); [lia|].
  reader_step (read_tag data off).
  destruct ((z =? 1) && (z0 =? 2)).
  { reader_step (read_length_delimited data n MAX_NESTED).
    pose proof (parse_flow_message_no_panic l).
    destruct (parse_flow_message l); [loop_done IH|by eexists|done]. }
  destruct ((z =? 2) && (z0 =? 2)); [reader_step (read_length_delimited data n MAX_SEED); loop_done IH|].
  destruct (z0 =? 0); [reader_step (skip_varint data n); loop_done IH|].
  destruct (z0 =? 1); [loop_done IH|].
  destruct (z0 =? 2); [reader_step (read_length_delimited data n MAX_ADDONS_SKIP); loop_done IH|].
  destruct (z0 =? 5); [loop_done IH|]. by eexists.
Qed.

Lemma parse_addons_no_panic data : parse_addons data <> Panic.
Proof.
  unfold parse_addons. destruct (_ =? 0)%nat; [done|].
  destruct (addons_loop_total (length data) data 0 vless_addons_default) as (r & -> & Hr); [lia|done].
Qed.

#[export] Hint Resolve parse_addons_no_panic : wire.

(** ** Varints *)

Lemma land_7f b : Z.land b 0x7F = b mod 128.
Proof. change 0x7F with (Z.ones 7). by rewrite Z.land_ones by lia. Qed.

Lemma land_80 b : byte_ok b -> (Z.land b 0x80 =? 0) = (b <? 128).
Proof.
  intros Hb. assert (Hall : forallb (fun b => Bool.eqb (Z.land b 0x80 =? 0) (b <? 128)) (seqZ 0 256) = true)
    by (vm_compute; reflexivity).
  rewrite forallb_forall in Hall. apply Bool.eqb_prop, Hall, list_elem_of_In, elem_of_seqZ.
  unfold byte_ok in Hb. lia.
Qed.

Lemma varint_loop_encode k fuel v acc rest pos :
  (k + fuel = 10)%nat -> 0 <= acc < 2 ^ (7 * Z.of_nat k) ->
  0 <= v < 2 ^ (64 - 7 * Z.of_nat k) -> (k < 10)%nat ->
  varint_loop (varint fuel v ++ rest) pos acc (7 * Z.of_nat k)
  = Ok (acc + v * 2 ^ (7 * Z.of_nat k), (pos + length (varint fuel v))%nat).
Proof.
  revert k v acc pos. induction fuel as [|fuel IH]; intros k v acc pos Hk Ha Hv Hlt; [lia|].
  assert (H64 : 2 ^ 64 = 2 ^ (64 - 7 * Z.of_nat k) * 2 ^ (7 * Z.of_nat k)).
  { rewrite <- Z.pow_add_r by lia. f_equal. lia. }
  assert (Hpos : 0 < 2 ^ (7 * Z.of_nat k)) by (apply Z.pow_pos_nonneg; lia).
  cbn [varint]. destruct (v <? 128) eqn:Ev; bool_hyps; cbn [app varint_loop length].
  - rewrite land_80 by (unfold byte_ok; lia). rewrite land_7f, (Z.mod_small v) by lia.
    replace (v <? 128) with true by (symmetry; apply Z.ltb_lt; lia). unfold as_u64.
    rewrite (Z.mod_small (Z.shiftl _ _)), lor_disjoint by (rewrite ?Z.shiftl_mul_pow2 by lia; nia).
    done.
  - assert (Hm : 0 <= v mod 128 < 128) by (apply Z.mod_pos_bound; lia).
    rewrite land_80 by (unfold byte_ok; lia). rewrite land_7f.
    replace (v mod 128 + 128 <? 128) with false by (symmetry; apply Z.ltb_ge; lia).
    replace ((v mod 128 + 128) mod 128) with (v mod 128)
      by (rewrite <- (Z.add_0_r (v mod 128)) at 1; Z.to_euclidean_division_equations; lia).
    assert (Hk9 : (k < 9)%nat).
    { destruct (decide (k = 9%nat)) as [->|]; [|lia]. cbn in Hv. lia. }
    replace (63 <? 7 * Z.of_nat k + 7) with false by (symmetry; apply Z.ltb_ge; lia).
    unfold as_u64. rewrite (Z.mod_small (Z.shiftl _ _)), lor_disjoint
      by (rewrite ?Z.shiftl_mul_pow2 by lia; try lia;
          assert (128 <= 2 ^ (64 - 7 * Z.of_nat k)) by lia; nia).
    replace (7 * Z.of_nat k + 7) with (7 * Z.of_nat (S k)) by lia.
    assert (Hsplit : 2 ^ (7 * Z.of_nat (S k)) = 128 * 2 ^ (7 * Z.of_nat k)).
    { replace (7 * Z.of_nat (S k)) with (7 + 7 * Z.of_nat k) by lia. by rewrite Z.pow_add_r by lia. }
    assert (H64' : 2 ^ (64 - 7 * Z.of_nat k) = 128 * 2 ^ (64 - 7 * Z.of_nat (S k))).
    { replace (64 - 7 * Z.of_nat k) with (7 + (64 - 7 * Z.of_nat (S k))) by lia.
      by rewrite Z.pow_add_r by lia. }
    pose proof (Z.div_mod v 128 ltac:(lia)).
    rewrite IH; [|lia|rewrite Hsplit; nia| |lia].
    + do 2 f_equal; [rewrite Hsplit; nia|lia].
    + rewrite H64' in Hv. split; [apply Z.div_pos; lia|apply Z.div_lt_upper_bound; lia].
Qed.

Lemma read_varint_encode pre v rest :
  0 <= v < 2 ^ 64 ->
  read_varint (pre ++ encode_varint v ++ rest) (length pre)
  = Ok (v, (length pre + length (encode_varint v))%nat).
Proof.
  intros Hv. unfold read_varint, encode_varint. rewrite drop_app_length.
  rewrite (varint_loop_encode 0 10 v 0 rest) by (cbn; lia). by rewrite Z.mul_1_r.
Qed.

(** ** Specification: protobuf messages *)

Inductive field :=
| FVarint (tag v : Z)
| FFixed64 (tag : Z) (b : bytes)
| FLen (tag : Z) (b : bytes)
| FFixed32 (tag : Z) (b : bytes).

Definition field_tag (f : field) : Z :=
  match f with FVarint t _ | FFixed64 t _ | FLen t _ | FFixed32 t _ => t end.

Definition field_wire_type (f : field) : Z :=
  match f with FVarint _ _ => 0 | FFixed64 _ _ => 1 | FLen _ _ => 2 | FFixed32 _ _ => 5 end.

Definition field_body (f : field) : bytes :=
  match f with
  | FVarint _ v => encode_varint v
  | FFixed64 _ b | FFixed32 _ b => b
  | FLen _ b => encode_varint (Z.of_nat (length b)) ++ b
  end.

Definition encode_field (f : field) : bytes :=
  encode_varint (field_tag f * 8 + field_wire_type f) ++ field_body f.

Fixpoint encode_fields (fs : list field) : bytes :=
  match fs with
  | [] => []
  | f :: fs => encode_field f ++ encode_fields fs
  end.

(** Field numbers are at most [2^29 - 1]; [limit] bounds length-delimited fields. *)
Definition field_ok (limit : Z -> Z) (f : field) : Prop :=
  0 < field_tag f < 2 ^ 29 /\
  match f with
  | FVarint _ v => 0 <= v < 2 ^ 64
  | FFixed64 _ b => length b = 8%nat
  | FFixed32 _ b => length b = 4%nat
  | FLen t b => Z.of_nat (length b) <= limit t
  end.

Definition addons_limit (tag : Z) : Z :=
  if tag =? 1 then MAX_NESTED else if tag =? 2 then MAX_SEED else MAX_ADDONS_SKIP.
Definition flow_limit (tag : Z) : Z := MAX_NESTED.

(** The meaning of a message: fields in order, the last occurrence wins. *)
Definition flow_step (acc : string) (f : field) : res AddonsError string :=
  match f with
  | FLen 1 b => from_utf8 b Truncated
  | _ => Ok acc
  end.

Definition addons_step (acc : VlessAddons) (f : field) : res AddonsError VlessAddons :=
  match f with
  | FLen 1 b => flow ← parse_flow_message b; Ok {| va_flow := Some flow; va_seed := va_seed acc |}
  | FLen 2 b => Ok {| va_flow := va_flow acc; va_seed := Some b |}
  | _ => Ok acc
  end.

Fixpoint fold_fields {A} (step : A -> field -> res AddonsError A) (acc : A) (fs : list field)
    : res AddonsError A :=
  match fs with
  | [] => Ok acc
  | f :: fs => acc ← step acc f; fold_fields step acc fs
  end.

(** ** Reading encoded fields *)

Lemma encode_varint_length v : (1 <= length (encode_varint v))%nat.
Proof. unfold encode_varint. cbn [varint]. destruct (v <? 128); cbn; lia. Qed.

Lemma read_tag_encode pre t w rest :
  0 < t < 2 ^ 29 -> 0 <= w < 8 ->
  read_tag (pre ++ encode_varint (t * 8 + w) ++ rest) (length pre)
  = Ok ((t, w), length (pre ++ encode_varint (t * 8 + w))).
Proof.
  intros Ht Hw. unfold read_tag. rewrite read_varint_encode by lia. cbn [mbind res_bind].
  change 7 with (Z.ones 3). rewrite Z.land_ones, Z.shiftr_div_pow2 by lia.
  change (2 ^ 3) with 8. unfold as_u32.
  replace ((t * 8 + w) / 8) with t by (Z.to_euclidean_division_equations; lia).
  replace ((t * 8 + w) mod 8) with w by (Z.to_euclidean_division_equations; lia).
  by rewrite Z.mod_small, length_app by lia.
Qed.

Lemma read_length_delimited_encode pre b rest m :
  Z.of_nat (length b) <= m -> m <= 512 ->
  read_length_delimited (pre ++ (encode_varint (Z.of_nat (length b)) ++ b) ++ rest) (length pre) m
  = Ok (b, length (pre ++ encode_varint (Z.of_nat (length b)) ++ b)).
Proof.
  intros Hb Hm. unfold read_length_delimited. rewrite <- app_assoc, read_varint_encode by lia.
  cbn [mbind res_bind]. destruct (m <? _) eqn:E; bool_hyps; [lia|]. rewrite Nat2Z.id, !length_app.
  destruct (_ <? _)%nat eqn:E2; bool_hyps; [lia|]. rewrite app_assoc.
  rewrite slice_app_mid by (rewrite length_app; lia). cbn [mbind res_bind]. do 2 f_equal. lia.
Qed.

Lemma skip_varint_encode pre v rest :
  0 <= v < 2 ^ 64 ->
  skip_varint (pre ++ encode_varint v ++ rest) (length pre) = Ok (length (pre ++ encode_varint v)).
Proof. intros Hv. unfold skip_varint. rewrite read_varint_encode by done. by rewrite length_app. Qed.

Lemma encode_field_length f : (1 <= length (encode_field f))%nat.
Proof. unfold encode_field. rewrite length_app. pose proof (encode_varint_length (field_tag f * 8 + field_wire_type f)). lia. Qed.

(** Enter a loop iteration at an encoded field. *)
Ltac enter_field f :=
  rewrite !length_app;
  pose proof (encode_field_length f);
  destruct (_ <? _)%nat eqn:?; bool_hyps; [|lia]; cbn [negb];
  unfold encode_field; rewrite <- !app_assoc.

Lemma addons_loop_fields fuel pre fs acc :
  (length (encode_fields fs) <= fuel)%nat -> Forall (field_ok addons_limit) fs ->
  addons_loop fuel (pre ++ encode_fields fs) (length pre) acc = Some (fold_fields addons_step acc fs).
Proof.
  intros Hf Hok. revert fuel pre acc Hf. induction Hok as [|f fs [Ht Hfok] Hok IH]; intros fuel pre acc Hf.
  { cbn [encode_fields]. rewrite app_nil_r. destruct fuel; cbn [addons_loop]; by rewrite Nat.ltb_irrefl. }
  cbn [encode_fields] in *. rewrite length_app in Hf. pose proof (encode_field_length f).
  destruct fuel as [|fuel]; [lia|]. cbn [addons_loop]. enter_field f.
  rewrite read_tag_encode by (try lia; destruct f; cbn; lia).
  set (p1 := pre ++ encode_varint _). cbn [fold_fields].
  assert (Hnext : forall acc', addons_loop fuel ((p1 ++ field_body f) ++ encode_fields fs)
     (length (p1 ++ field_body f)) acc' = Some (fold_fields addons_step acc' fs)).
  { intros acc'. apply IH. lia. }
  rewrite <- app_assoc in Hnext. rewrite (app_assoc pre). fold p1.
  destruct f as [t v|t b|t b|t b]; cbn [field_tag field_wire_type field_body] in *; cbn [Z.eqb Pos.eqb andb];
    rewrite ?andb_false_r.
  - rewrite skip_varint_encode by done. apply Hnext.
  - rewrite length_app, Hfok in Hnext. apply Hnext.
  - unfold addons_limit in Hfok. rewrite !andb_true_r. cbn [addons_step].
    destruct (t =? 1) eqn:E1; bool_hyps; [subst t|destruct (t =? 2) eqn:E2; bool_hyps; [subst t|]].
    + rewrite read_length_delimited_encode by (done || lia).
      destruct (parse_flow_message b) as [s| |]; cbn [mbind res_bind]; [apply Hnext|done|done].
    + rewrite read_length_delimited_encode by (done || lia). apply Hnext.
    + rewrite read_length_delimited_encode by (done || lia). rewrite Hnext.
      destruct t as [|[[]|[]|]|]; try done.
  - rewrite length_app, Hfok in Hnext. apply Hnext.
Qed.

Lemma flow_loop_fields fuel pre fs acc :
  (length (encode_fields fs) <= fuel)%nat -> Forall (field_ok flow_limit) fs ->
  flow_loop fuel (pre ++ encode_fields fs) (length pre) acc = Some (fold_fields flow_step acc fs).
Proof.
  intros Hf Hok. revert fuel pre acc Hf. induction Hok as [|f fs [Ht Hfok] Hok IH]; intros fuel pre acc Hf.
  { cbn [encode_fields]. rewrite app_nil_r. destruct fuel; cbn [flow_loop]; by rewrite Nat.ltb_irrefl. }
  cbn [encode_fields] in *. rewrite length_app in Hf. pose proof (encode_field_length f).
  destruct fuel as [|fuel]; [lia|]. cbn [flow_loop]. enter_field f.
  rewrite read_tag_encode by (try lia; destruct f; cbn; lia).
  set (p1 := pre ++ encode_varint _). cbn [fold_fields].
  assert (Hnext : forall acc', flow_loop fuel ((p1 ++ field_body f) ++ encode_fields fs)
     (length (p1 ++ field_body f)) acc' = Some (fold_fields flow_step acc' fs)).
  { intros acc'. apply IH. lia. }
  rewrite <- app_assoc in Hnext. rewrite (app_assoc pre). fold p1.
  destruct f as [t v|t b|t b|t b]; cbn [field_tag field_wire_type field_body] in *; cbn [Z.eqb Pos.eqb andb];
    rewrite ?andb_false_r.
  - rewrite skip_varint_encode by done. apply Hnext.
  - rewrite length_app, Hfok in Hnext. apply Hnext.
  - unfold flow_limit in Hfok. rewrite !andb_true_r. cbn [flow_step].
    rewrite read_length_delimited_encode by (done || (unfold MAX_NESTED; lia)).
    destruct (t =? 1) eqn:E1; bool_hyps; [subst t|].
    + unfold from_utf8. destruct (utf8_valid b); cbn [mbind res_bind]; [apply Hnext|done].
    + rewrite Hnext. destruct t as [|[[]|[]|]|]; try done.
  - rewrite length_app, Hfok in Hnext. apply Hnext.
Qed.

Lemma parse_flow_message_fields fs :
  Forall (field_ok flow_limit) fs ->
  parse_flow_message (encode_fields fs) = fold_fields flow_step EmptyString fs.
Proof.
  intros Hok. unfold parse_flow_message.
  pose proof (flow_loop_fields _ [] fs EmptyString (le_n _) Hok) as Hl. cbn [app length] in Hl.
  by rewrite Hl.
Qed.

Lemma parse_addons_fields fs :
  Forall (field_ok addons_limit) fs ->
  parse_addons (encode_fields fs) = fold_fields addons_step vless_addons_default fs.
Proof.
  intros Hok. unfold parse_addons. destruct (_ =? 0)%nat eqn:E.
  - bool_hyps. destruct fs as [|f fs]; [done|]. cbn [encode_fields] in E. rewrite length_app in E.
    pose proof (encode_field_length f). lia.
  - pose proof (addons_loop_fields _ [] fs vless_addons_default (le_n _) Hok) as Hl.
    cbn [app length] in Hl. by rewrite Hl.
Qed.

Lemma encode_varint_small v : 0 <= v < 128 -> encode_varint v = [v].
Proof.
  intros Hv. unfold encode_varint. cbn [varint].
  replace (v <? 128) with true by (symmetry; apply Z.ltb_lt; lia). done.
Qed.

Lemma flow_message_encode flow :
  (String.length flow <= 125)%nat -> build_flow_message flow = encode_fields [FLen 1 (bytes_of_string flow)].
Proof.
  intros Hl. unfold build_flow_message. cbn [encode_fields]. rewrite app_nil_r. unfold encode_field.
  cbn [field_tag field_wire_type field_body].
  rewrite as_u8_small, !encode_varint_small by (rewrite ?length_bytes_of_string; unfold byte_ok; lia).
  done.
Qed.

Lemma validate_flow_ok flow user_flow :
  validate_flow flow user_flow = Ok tt <->
  default EmptyString flow = EmptyString /\ default EmptyString user_flow = EmptyString.
Proof.
  unfold validate_flow. destruct flow as [f|], user_flow as [u|]; cbn;
    repeat case_bool_decide; subst; naive_solver.
Qed.

(** ** Properties *)

(** C38: the addons parser always terminates, within bounds. On every input,
    [parse_addons] returns addons or an [AddonsError]: its loops advance on every
    iteration, so the fuel of the model, the number of bytes, never runs out, and
    no slice is out of range. *)
Theorem addons_parser_total (data : bytes) :
  (exists a, parse_addons data = Ok a) \/ (exists e, parse_addons data = Err e).
Proof.
  pose proof (parse_addons_no_panic data). destruct (parse_addons data); eauto. done.
Qed.

(** the addons parser implements protobuf. For every sequence of
    well-formed fields (varint, fixed64, length-delimited within the parser's
    limits, fixed32) the parser reads the encoded message as the fold of the fields
    in order: the flow and the seed are those of the last field 1 and field 2, and
    unknown fields of every wire type are skipped. *)
Theorem addons_protobuf_exact (fs : list field) (Hok : Forall (field_ok addons_limit) fs) :
  parse_addons (encode_fields fs) = fold_fields addons_step vless_addons_default fs.
Proof. by apply parse_addons_fields. Qed.

Definition demo_fields : list field :=
  [FVarint 7 300; FLen 2 [9]; FLen 1 (encode_fields [FLen 1 [120; 121]]); FFixed32 4 [1; 2; 3; 4];
   FLen 2 [1; 2; 3]].

Lemma addons_protobuf_exact_witness :
  parse_addons (encode_fields demo_fields)
    = Ok {| va_flow := Some "xy"%string; va_seed := Some [1; 2; 3] |}.
Proof.
  rewrite (addons_protobuf_exact demo_fields); [vm_compute; reflexivity|].
  repeat (apply Forall_cons_2; [vm_compute; split; [split; reflexivity|first [reflexivity|discriminate|split; [discriminate|reflexivity]]]|]).
  apply Forall_nil_2.
Defined.

(** a flow survives the round trip through the addons. For every flow of at
    most 125 bytes, parsing what [build_addons_with_flow] writes yields that flow
    and no seed. *)
Theorem addons_flow_roundtrip (flow : string) (Hs : str_ok flow) (Hl : (String.length flow <= 125)%nat) :
  parse_addons (build_addons_with_flow flow) = Ok {| va_flow := Some flow; va_seed := None |}.
Proof.
  assert (Hfl : length (build_flow_message flow) = (2 + String.length flow)%nat).
  { unfold build_flow_message. rewrite !length_app, length_bytes_of_string. done. }
  assert (Hb : build_addons_with_flow flow = encode_fields [FLen 1 (build_flow_message flow)]).
  { unfold build_addons_with_flow. cbn [encode_fields]. rewrite app_nil_r. unfold encode_field.
    cbn [field_tag field_wire_type field_body].
    rewrite as_u8_small, !encode_varint_small by (rewrite ?Hfl; unfold byte_ok; lia). done. }
  rewrite Hb, parse_addons_fields; [cbn [fold_fields addons_step]|].
  - rewrite flow_message_encode, parse_flow_message_fields; [|apply Forall_singleton|done].
    + cbn [fold_fields flow_step]. by rewrite from_utf8_string.
    + split; cbn; [lia|]. unfold flow_limit, MAX_NESTED. rewrite length_bytes_of_string. lia.
  - apply Forall_singleton. split; cbn [field_tag]; [lia|]. rewrite Hfl. cbn. unfold MAX_NESTED. lia.
Qed.

Lemma addons_flow_roundtrip_witness :
  parse_addons (build_addons_with_flow FLOW_XTLS_VISION)
    = Ok {| va_flow := Some FLOW_XTLS_VISION; va_seed := None |}.
Proof. apply (addons_flow_roundtrip FLOW_XTLS_VISION); [vm_compute; reflexivity|vm_compute; lia]. Defined.

(** the flow policy admits only connections without a flow, for users
    without a flow. [validate_flow] succeeds exactly when neither the request nor
    the user names a non-empty flow; in particular a user configured with a flow
    is refused whatever the request says. *)
Theorem validate_flow_exact (flow user_flow : option string) :
  validate_flow flow user_flow = Ok tt <->
  default EmptyString flow = EmptyString /\ default EmptyString user_flow = EmptyString.
Proof. apply validate_flow_ok. Qed.
