(* ===== verification/MuxFrame.v ===== *)
(** * Mux frames
    Models crates/skadi-protocol/src/vless/mux/frame.rs: the frame metadata of
    the Mux.Cool/XUDP multiplexer, its encoder and its parser. *)

From Stdlib Require Import Ascii String.
From stdpp Require Import base list list_numbers numbers strings pretty.
From S2P Require Import Prelude Core VlessParse.

Definition SESSION_STATUS_NEW : Z := 0x01.
Definition SESSION_STATUS_KEEP : Z := 0x02.
Definition SESSION_STATUS_END : Z := 0x03.
Definition SESSION_STATUS_KEEP_ALIVE : Z := 0x04.
Definition OPTION_DATA : Z := 0x01.
Definition OPTION_ERROR : Z := 0x02.
Definition NETWORK_TCP : Z := 0x01.
Definition NETWORK_UDP : Z := 0x02.
Definition MAX_META_LEN : nat := 512.
Definition MAX_CHUNK_SIZE : nat := 8 * 1024.
Definition XUDP_SESSION_ID : Z := 0.
Definition GLOBAL_ID_LEN : nat := 8.

Inductive MuxError :=
| TooShort
| MetaTooLarge (n : nat)
| ChunkTooLarge (n : nat)
| UnknownNetwork (n : Z)
| UnknownStatus (s : Z)
| Address (msg : string).

Definition mux_error_display (e : MuxError) : string :=
  match e with
  | TooShort => "mux metadata too short"
  | MetaTooLarge n => "mux metadata too large: " +:+ fmt_dec n
  | ChunkTooLarge n => "mux chunk too large: " +:+ fmt_dec n
  | UnknownNetwork n => "unknown mux network: 0x" +:+ fmt_02x n
  | UnknownStatus s => "unknown mux session status: 0x" +:+ fmt_02x s
  | Address msg => "address parse error: " +:+ msg
  end.

Record MuxMeta := {
  session_id : Z;
  status : Z;
  mux_option : Z;
  network : option Z;
  mux_target : option Endpoint;
  global_id : option bytes
}.

Definition has_data (meta : MuxMeta) : bool := negb (Z.land (mux_option meta) OPTION_DATA =? 0).

Record MuxFrame := { meta : MuxMeta; payload : option bytes }.

Definition parse_meta_body (body : bytes) : res MuxError MuxMeta :=
  if (length body <? 4)%nat then Err TooShort else
  b0 ← idx body 0;
  b1 ← idx body 1;
  let session_id := from_be16 b0 b1 in
  status ← idx body 2;
  opt ← idx body 3;
  let offset := 4%nat in
  let net := default 0 (body !! offset) in
  let needs_target :=
    (offset <? length body)%nat
    && ((status =? SESSION_STATUS_NEW) && ((net =? NETWORK_TCP) || (net =? NETWORK_UDP))
        || (status =? SESSION_STATUS_KEEP) && (net =? NETWORK_UDP)) in
  if needs_target then
    network ← idx body offset;
    let offset := (offset + 1)%nat in
    tail ← slice_from body offset;
    '(endpoint, consumed) ←
      map_err (fun e => Address (VlessParse.parse_error_display e)) (parse_port_address tail);
    let offset := (offset + consumed)%nat in
    global_id ←
      (if (status =? SESSION_STATUS_NEW) && (network =? NETWORK_UDP)
          && (offset + GLOBAL_ID_LEN <=? length body)%nat
       then g ← slice body offset (offset + GLOBAL_ID_LEN); Ok (Some g)
       else Ok None);
    Ok {| session_id := session_id; status := status; mux_option := opt;
          network := Some network; mux_target := Some endpoint; global_id := global_id |}
  else
    Ok {| session_id := session_id; status := status; mux_option := opt;
          network := None; mux_target := None; global_id := None |}.

(** The body of [encode_meta], before the length prefix. *)
Definition encode_body (meta : MuxMeta) : bytes :=
  to_be16 (session_id meta) ++ [status meta] ++ [mux_option meta] ++
  (if status meta =? SESSION_STATUS_NEW then
     match network meta, mux_target meta with
     | Some network, Some target =>
       [network] ++ encode_port_address target ++
       (if network =? NETWORK_UDP then
          match global_id meta with
          | Some id => id
          | None => []
          end
        else [])
     | _, _ => []
     end
   else if status meta =? SESSION_STATUS_KEEP then
     match network meta, mux_target meta with
     | Some network, Some target =>
       if network =? NETWORK_UDP then [NETWORK_UDP] ++ encode_port_address target else []
     | _, _ => []
     end
   else []).

Definition encode_meta (meta : MuxMeta) : bytes :=
  let body := encode_body meta in
  to_be16 (as_u16 (Z.of_nat (length body))) ++ body.

Definition encode_data_frame (meta : MuxMeta) (payload : bytes) : res MuxError bytes :=
  if (MAX_CHUNK_SIZE <? length payload)%nat then Err (ChunkTooLarge (length payload)) else
  Ok (encode_meta meta ++ to_be16 (as_u16 (Z.of_nat (length payload))) ++ payload).

Definition encode_end_frame (sid : Z) (with_error : bool) : bytes :=
  encode_meta {| session_id := sid; status := SESSION_STATUS_END;
                 mux_option := if with_error then OPTION_ERROR else 0;
                 network := None; mux_target := None; global_id := None |}.

Definition parse_frame (input : bytes) : res MuxError (MuxFrame * nat) :=
  if (length input <? 2)%nat then Err TooShort else
  b0 ← idx input 0;
  b1 ← idx input 1;
  let meta_len := Z.to_nat (from_be16 b0 b1) in
  if (MAX_META_LEN <? meta_len)%nat then Err (MetaTooLarge meta_len) else
  let meta_end := (2 + meta_len)%nat in
  if (length input <? meta_end)%nat then Err TooShort else
  body ← slice input 2 meta_end;
  meta ← parse_meta_body body;
  let consumed := meta_end in
  if has_data meta then
    if (length input <? consumed + 2)%nat then Err TooShort else
    c0 ← idx input consumed;
    c1 ← idx input (consumed + 1);
    let chunk_len := Z.to_nat (from_be16 c0 c1) in
    let consumed := (consumed + 2)%nat in
    if (MAX_CHUNK_SIZE <? chunk_len)%nat then Err (ChunkTooLarge chunk_len) else
    if (length input <? consumed + chunk_len)%nat then Err TooShort else
    data ← slice input consumed (consumed + chunk_len);
    Ok ({| meta := meta; payload := Some data |}, (consumed + chunk_len)%nat)
  else Ok ({| meta := meta; payload := None |}, consumed).

(** ** Specification *)

(** Metadata the protocol can carry: a target only where the status has one. *)
Definition meta_shape_ok (m : MuxMeta) : Prop :=
  match network m, mux_target m, global_id m with
  | None, None, None => True
  | Some n, Some t, g =>
    endpoint_ok t /\
    (status m = SESSION_STATUS_NEW /\ n = NETWORK_TCP /\ g = None
     \/ status m = SESSION_STATUS_NEW /\ n = NETWORK_UDP
        /\ match g with Some id => length id = GLOBAL_ID_LEN | None => True end
     \/ status m = SESSION_STATUS_KEEP /\ n = NETWORK_UDP /\ g = None)
  | _, _, _ => False
  end.

Definition meta_ok (m : MuxMeta) : Prop := u16_ok (session_id m) /\ meta_shape_ok m.

(** ** Lemmas *)

Lemma parse_meta_body_no_panic body : parse_meta_body body <> Panic.
Proof.
  unfold parse_meta_body. destruct (length body <? 4)%nat eqn:E; bool_hyps; [done|].
  do 4 (no_panic_step). destruct (_ && _) eqn:En; [|done]. bool_hyps.
  do 2 no_panic_step.
  pose proof (parse_port_address_no_panic (drop (4 + 1) body)).
  destruct (parse_port_address (drop (4 + 1) body)) as [[e k]| |]; cbn [mbind res_bind map_err]; try done.
  match goal with |- context [if ?c then _ else _] => destruct c eqn:Eg end; cbn [mbind res_bind]; [|done]. bool_hyps.
  rewrite slice_ok by lia. done.
Qed.

Lemma parse_frame_no_panic input : parse_frame input <> Panic.
Proof.
  unfold parse_frame. destruct (length input <? 2)%nat eqn:E; bool_hyps; [done|].
  do 2 no_panic_step. destruct (MAX_META_LEN <? _)%nat; [done|].
  destruct (_ <? 2 + _)%nat eqn:E2; bool_hyps; [done|]. rewrite slice_ok by lia. cbn [mbind res_bind].
  set (body := take _ _). pose proof (parse_meta_body_no_panic body).
  destruct (parse_meta_body body) as [m| |]; cbn [mbind res_bind]; try done.
  destruct (has_data m); [|done]. destruct (_ <? _)%nat eqn:E3; bool_hyps; [done|].
  do 2 no_panic_step. destruct (MAX_CHUNK_SIZE <? _)%nat; [done|].
  destruct (_ <? _)%nat eqn:E4; bool_hyps; [done|]. rewrite slice_ok by lia. done.
Qed.

#[export] Hint Resolve parse_meta_body_no_panic parse_frame_no_panic : wire.

(** Running [parse_meta_body] on a body with and without a target. *)
Lemma parse_meta_plain s0 s1 st op :
  parse_meta_body [s0; s1; st; op]
  = Ok {| session_id := from_be16 s0 s1; status := st; mux_option := op; network := None;
          mux_target := None; global_id := None |}.
Proof. done. Qed.

Lemma parse_meta_target s0 s1 st op n e g :
  endpoint_ok e ->
  st = SESSION_STATUS_NEW /\ (n = NETWORK_TCP \/ n = NETWORK_UDP)
  \/ st = SESSION_STATUS_KEEP /\ n = NETWORK_UDP ->
  parse_meta_body ([s0; s1; st; op] ++ [n] ++ wire_addr e ++ g)
  = Ok {| session_id := from_be16 s0 s1; status := st; mux_option := op; network := Some n;
          mux_target := Some e;
          global_id := if (st =? SESSION_STATUS_NEW) && (n =? NETWORK_UDP)
                          && (GLOBAL_ID_LEN <=? length g)%nat
                       then Some (take GLOBAL_ID_LEN g) else None |}.
Proof.
  intros He Hs. unfold parse_meta_body.
  set (body := [s0; s1; st; op] ++ [n] ++ wire_addr e ++ g).
  assert (Hl : length body = (5 + length (wire_addr e) + length g)%nat).
  { unfold body. rewrite !length_app. cbn. lia. }
  rewrite (idx_some body 0%nat s0), (idx_some body 1%nat s1), (idx_some body 2%nat st),
    (idx_some body 3%nat op), (idx_some body 4%nat n) by done.
  cbn [mbind res_bind]. change (default 0 (body !! 4%nat)) with n.
  destruct (_ <? 4)%nat eqn:E4; bool_hyps; [lia|].
  destruct (4 <? _)%nat eqn:E5; bool_hyps; [|lia].
  assert (Hn : (st =? SESSION_STATUS_NEW) && ((n =? NETWORK_TCP) || (n =? NETWORK_UDP))
    || (st =? SESSION_STATUS_KEEP) && (n =? NETWORK_UDP) = true).
  { destruct Hs as [[-> [-> | ->]] | [-> ->]]; done. }
  rewrite Hn. cbn [andb]. rewrite slice_from_ok by lia. cbn [mbind res_bind].
  change (drop (4 + 1) body) with (wire_addr e ++ g).
  rewrite parse_port_address_complete by done. cbn [mbind res_bind map_err]. rewrite Hl.
  replace (4 + 1 + length (wire_addr e) + GLOBAL_ID_LEN <=? 5 + length (wire_addr e) + length g)%nat
    with (GLOBAL_ID_LEN <=? length g)%nat.
  2:{ destruct (GLOBAL_ID_LEN <=? length g)%nat eqn:Eg; bool_hyps; symmetry;
      [apply Nat.leb_le|apply Nat.leb_gt]; lia. }
  destruct (_ && _ && (GLOBAL_ID_LEN <=? length g)%nat) eqn:Eg; cbn [mbind res_bind]; [|done].
  bool_hyps. rewrite slice_ok by lia. cbn [mbind res_bind]. do 2 f_equal. f_equal.
  unfold body. rewrite (app_assoc [s0; s1; st; op]), app_assoc.
  rewrite drop_app_length' by (rewrite !length_app; cbn; lia).
  f_equal. lia.
Qed.

Lemma encode_body_parse m : meta_ok m -> parse_meta_body (encode_body m) = Ok m.
Proof.
  intros [Hs Hm]. destruct m as [sid st op [n|] [t|] g]; unfold meta_shape_ok in Hm; cbn in Hm, Hs;
    try done; unfold encode_body; cbn [session_id status mux_option network mux_target global_id].
  - destruct Hm as [He Hm]. rewrite encode_port_address_wire by done. unfold to_be16.
    destruct Hm as [(-> & -> & ->) | [(-> & -> & Hg) | (-> & -> & ->)]]; cbn -[wire_addr from_be16].
    + pose proof (parse_meta_target (sid / 256 mod 256) (sid mod 256) SESSION_STATUS_NEW op
        NETWORK_TCP t [] He) as Hp. cbn -[wire_addr from_be16] in Hp.
      rewrite Hp, from_to_be16 by auto. done.
    + pose proof (parse_meta_target (sid / 256 mod 256) (sid mod 256) SESSION_STATUS_NEW op
        NETWORK_UDP t (match g with Some id => id | None => [] end) He) as Hp.
      cbn -[wire_addr from_be16 take] in Hp. rewrite Hp, from_to_be16 by auto.
      destruct g as [id|]; [|done]. rewrite Hg. cbn -[take]. by rewrite take_ge by lia.
    + pose proof (parse_meta_target (sid / 256 mod 256) (sid mod 256) SESSION_STATUS_KEEP op
        NETWORK_UDP t [] He) as Hp. cbn -[wire_addr from_be16] in Hp.
      rewrite app_nil_r in Hp. rewrite Hp, from_to_be16 by auto. done.
  - destruct g; [done|]. unfold to_be16.
    destruct (st =? SESSION_STATUS_NEW); [|destruct (st =? SESSION_STATUS_KEEP)];
      cbn [app]; rewrite parse_meta_plain, from_to_be16 by done; done.
Qed.

Lemma encode_body_length m : meta_ok m -> (4 <= length (encode_body m) <= 272)%nat.
Proof.
  intros [_ Hm]. destruct m as [sid st op [n|] [t|] g]; unfold meta_shape_ok in Hm; cbn in Hm; try done;
    unfold encode_body; cbn [session_id status mux_option network mux_target global_id].
  - destruct Hm as [He Hm]. rewrite encode_port_address_wire by done.
    pose proof (wire_addr_length t He). unfold GLOBAL_ID_LEN in Hm.
    destruct Hm as [(-> & -> & ->) | [(-> & -> & Hg) | (-> & -> & ->)]]; cbn -[wire_addr];
      rewrite ?length_app; try (destruct g); cbn; lia.
  - destruct (st =? SESSION_STATUS_NEW); [|destruct (st =? SESSION_STATUS_KEEP)]; cbn; lia.
Qed.

(** A length-prefixed field of at most 65535 bytes. *)
Lemma prefix_value n : Z.of_nat n <= 65535 ->
  Z.to_nat (from_be16 (as_u16 (Z.of_nat n) / 256 mod 256) (as_u16 (Z.of_nat n) mod 256)) = n.
Proof.
  intros Hn. rewrite as_u16_small by (unfold u16_ok; lia).
  rewrite from_to_be16 by (unfold u16_ok; lia). lia.
Qed.

Lemma parse_frame_meta m tail :
  meta_ok m ->
  parse_frame (encode_meta m ++ tail) =
    (let consumed := length (encode_meta m) in
     let input := encode_meta m ++ tail in
     if has_data m then
       if (length input <? consumed + 2)%nat then Err TooShort else
       c0 ← idx input consumed;
       c1 ← idx input (consumed + 1);
       let chunk_len := Z.to_nat (from_be16 c0 c1) in
       let consumed := (consumed + 2)%nat in
       if (MAX_CHUNK_SIZE <? chunk_len)%nat then Err (ChunkTooLarge chunk_len) else
       if (length input <? consumed + chunk_len)%nat then Err TooShort else
       data ← slice input consumed (consumed + chunk_len);
       Ok ({| meta := m; payload := Some data |}, (consumed + chunk_len)%nat)
     else Ok ({| meta := m; payload := None |}, consumed)).
Proof.
  intros Hm. pose proof (encode_body_length m Hm) as Hl.
  set (body := encode_body m) in *.
  set (len := as_u16 (Z.of_nat (length body))).
  set (input := encode_meta m ++ tail).
  assert (Hin : input = [len / 256 mod 256; len mod 256] ++ body ++ tail).
  { unfold input, encode_meta, to_be16. fold body len. by rewrite <- app_assoc. }
  assert (Hil : length input = (2 + length body + length tail)%nat).
  { rewrite Hin, !length_app. cbn. lia. }
  assert (Hel : length (encode_meta m) = (2 + length body)%nat).
  { unfold encode_meta. rewrite length_app. done. }
  unfold parse_frame. rewrite (idx_some input 0%nat (len / 256 mod 256)),
    (idx_some input 1%nat (len mod 256)) by (rewrite Hin; done).
  cbn [mbind res_bind]. unfold len. rewrite prefix_value by lia.
  destruct (_ <? 2)%nat eqn:E; bool_hyps; [lia|].
  destruct (MAX_META_LEN <? _)%nat eqn:E1; bool_hyps; [unfold MAX_META_LEN in *; lia|].
  destruct (_ <? 2 + _)%nat eqn:E2; bool_hyps; [lia|].
  assert (Hs : @slice MuxError input 2 (2 + length body) = Ok body).
  { rewrite Hin. by apply (slice_app_mid [_; _] body tail). }
  rewrite Hs. cbn [mbind res_bind]. unfold body. rewrite encode_body_parse by done.
  cbn [mbind res_bind]. cbv zeta. by rewrite Hel.
Qed.

Lemma parse_frame_plain m tail :
  meta_ok m -> has_data m = false ->
  parse_frame (encode_meta m ++ tail)
  = Ok ({| meta := m; payload := None |}, length (encode_meta m)).
Proof. intros Hm Hd. rewrite parse_frame_meta by done. cbv zeta. by rewrite Hd. Qed.

Lemma parse_frame_data m p tail :
  meta_ok m -> has_data m = true -> (length p <= MAX_CHUNK_SIZE)%nat ->
  parse_frame ((encode_meta m ++ to_be16 (as_u16 (Z.of_nat (length p))) ++ p) ++ tail)
  = Ok ({| meta := m; payload := Some p |}, (length (encode_meta m) + 2 + length p)%nat).
Proof.
  intros Hm Hd Hp. rewrite <- !app_assoc, parse_frame_meta by done. cbv zeta. rewrite Hd.
  set (e := encode_meta m). set (len := as_u16 (Z.of_nat (length p))).
  assert (Hp' : Z.of_nat (length p) <= 65535) by (unfold MAX_CHUNK_SIZE in Hp; lia).
  rewrite !length_app. change (length (to_be16 len)) with 2%nat.
  destruct (_ <? _)%nat eqn:E; bool_hyps; [lia|].
  unfold to_be16. change ([len / 256 mod 256; len mod 256] ++ p ++ tail)
    with (len / 256 mod 256 :: ([len mod 256] ++ p ++ tail)).
  rewrite (idx_app_mid e _ (len / 256 mod 256) (length e)) by done. cbn [mbind res_bind].
  change (e ++ len / 256 mod 256 :: [len mod 256] ++ p ++ tail)
    with (e ++ [len / 256 mod 256] ++ len mod 256 :: (p ++ tail)).
  rewrite (app_assoc e [len / 256 mod 256]).
  rewrite (idx_app_mid (e ++ [len / 256 mod 256]) _ (len mod 256) (length e + 1)%nat)
    by (rewrite length_app; done). cbn [mbind res_bind].
  unfold len. rewrite prefix_value by done.
  destruct (MAX_CHUNK_SIZE <? _)%nat eqn:E1; bool_hyps; [lia|].
  destruct (_ <? _)%nat eqn:E2; bool_hyps; [lia|]. fold len.
  change ((e ++ [len / 256 mod 256]) ++ len mod 256 :: p ++ tail)
    with ((e ++ [len / 256 mod 256]) ++ [len mod 256] ++ p ++ tail).
  rewrite (app_assoc _ [len mod 256]).
  rewrite (slice_app_mid ((e ++ [len / 256 mod 256]) ++ [len mod 256]) p tail (length e + 2)
    (length e + 2 + length p)) by (rewrite !length_app; cbn; lia).
  done.
Qed.

(** What the parser yields always has the shape the encoder expects. *)
Lemma parse_meta_body_shape body m :
  bytes_ok body -> parse_meta_body body = Ok m -> meta_ok m.
Proof.
  intros Hb H. do 4 (destruct body as [|? body]; [discriminate H|]).
  unfold parse_meta_body in H. cbn [idx lookup list_lookup mbind res_bind] in H.
  destruct (_ <? 4)%nat; [done|]. inv_bytes_ok.
  match type of H with (if ?c then _ else _) = _ => destruct c eqn:En end.
  2:{ injection H as <-. split; [by apply from_be16_ok|done]. }
  destruct body as [|n body]; [by rewrite Nat.ltb_irrefl in En|]. inv_bytes_ok.
  cbn [idx lookup list_lookup mbind res_bind default] in H.
  rewrite slice_from_ok in H by (cbn; lia). cbn [mbind res_bind] in H.
  change (drop (4 + 1) (z :: z0 :: z1 :: z2 :: n :: body)) with body in H.
  destruct (parse_port_address body) as [[e k]| |] eqn:Hp; cbn [map_err mbind res_bind] in H; try done.
  apply parse_port_address_sound in Hp as (He & -> & rest & Hrest); [|done].
  apply andb_true_iff in En as [_ En]. cbn [lookup list_lookup default] in En.
  assert (Hcases : z1 = SESSION_STATUS_NEW /\ (n = NETWORK_TCP \/ n = NETWORK_UDP)
    \/ z1 = SESSION_STATUS_KEEP /\ n = NETWORK_UDP).
  { apply orb_true_iff in En as [En|En]; apply andb_true_iff in En as [E1 E2]; bool_hyps;
      [left|right; done]. split; [done|].
    apply orb_true_iff in E2 as [E2|E2]; bool_hyps; auto. }
  match type of H with context [if ?c then _ else _] => destruct c eqn:Eg end;
    cbn [mbind res_bind] in H.
  - bool_hyps. rewrite slice_ok in H by lia. cbn [mbind res_bind] in H. injection H as <-.
    subst. split; [by apply from_be16_ok|]. cbn. split; [done|]. right. left.
    split_and!; [done|done|]. rewrite length_take_le; [lia|]. rewrite length_drop. cbn in *. lia.
  - injection H as <-. split; [by apply from_be16_ok|]. cbn. split; [done|].
    destruct Hcases as [[-> [-> | ->]] | [-> ->]]; auto.
Qed.

(** ** Properties *)

(** Mux frames round-trip. A frame without data, and a data frame with a
    chunk of at most 8 KiB, parse back from what the encoder writes, whatever
    follows on the stream, and the parser consumes exactly the frame. Larger chunks
    are refused by the encoder. *)
Theorem mux_frame_roundtrip (m : MuxMeta) (p tail : bytes) (Hm : meta_ok m) :
  (has_data m = false ->
     parse_frame (encode_meta m ++ tail)
     = Ok ({| meta := m; payload := None |}, length (encode_meta m)))
  /\ (has_data m = true -> (length p <= MAX_CHUNK_SIZE)%nat ->
     exists f, encode_data_frame m p = Ok f
       /\ parse_frame (f ++ tail) = Ok ({| meta := m; payload := Some p |}, length f))
  /\ ((MAX_CHUNK_SIZE < length p)%nat -> encode_data_frame m p = Err (ChunkTooLarge (length p))).
Proof.
  split_and!.
  - intros. by apply parse_frame_plain.
  - intros Hd Hp. unfold encode_data_frame.
    destruct (MAX_CHUNK_SIZE <? _)%nat eqn:E; bool_hyps; [lia|].
    eexists. split; [reflexivity|]. rewrite parse_frame_data by done.
    rewrite !length_app. change (length (to_be16 _)) with 2%nat. do 2 f_equal. lia.
  - intros Hp. unfold encode_data_frame.
    destruct (MAX_CHUNK_SIZE <? _)%nat eqn:E; bool_hyps; [done|lia].
Qed.

Definition demo_meta : MuxMeta :=
  {| session_id := 0; status := SESSION_STATUS_NEW; mux_option := OPTION_DATA;
     network := Some NETWORK_UDP; mux_target := Some (Domain "dns.google" 53);
     global_id := Some [1; 2; 3; 4; 5; 6; 7; 8] |}.

Lemma mux_frame_roundtrip_witness :
  exists f, encode_data_frame demo_meta [9; 9] = Ok f
    /\ parse_frame (f ++ [1]) = Ok ({| meta := demo_meta; payload := Some [9; 9] |}, length f).
Proof.
  destruct (mux_frame_roundtrip demo_meta [9; 9] [1]) as (_ & H & _).
  - split; [split; vm_compute; [discriminate|reflexivity]|]. split.
    + split; [vm_compute; reflexivity|]. split; [vm_compute; lia|].
      unfold u16_ok. lia.
    + right. left. split_and!; reflexivity.
  - apply H; [reflexivity|]. vm_compute. lia.
Defined.

(** C31: the frame parser is safe and canonical. It panics on no input; the
    metadata it accepts from any byte string is well formed, so encoding that
    metadata again and parsing the result gives the same metadata. *)
Theorem mux_meta_canonical (body : bytes) (Hb : bytes_ok body) :
  parse_frame body <> Panic /\ parse_meta_body body <> Panic
  /\ forall m, parse_meta_body body = Ok m -> meta_ok m /\ parse_meta_body (encode_body m) = Ok m.
Proof.
  split_and!; [auto with wire|auto with wire|]. intros m Hm.
  apply parse_meta_body_shape in Hm; [|done]. split; [done|by apply encode_body_parse].
Qed.

Lemma mux_meta_canonical_witness :
  parse_meta_body (encode_body {| session_id := 7; status := SESSION_STATUS_END; mux_option := 0;
      network := None; mux_target := None; global_id := None |})
  = Ok {| session_id := 7; status := SESSION_STATUS_END; mux_option := 0;
      network := None; mux_target := None; global_id := None |}.
Proof.
  destruct (mux_meta_canonical [0; 7; 3; 0; 2; 99]) as (_ & _ & H).
  - solve_bytes_ok.
  - apply H. vm_compute. reflexivity.
Defined.

(** an END frame never carries a network or a target. Whatever bytes follow
    the status, [parse_meta_body] leaves network, target and GlobalID empty when
    the status is END, so such a frame cannot be classified as XUDP. *)
Theorem mux_end_has_no_network (body : bytes) (m : MuxMeta)
    (H : parse_meta_body body = Ok m) (Hst : status m = SESSION_STATUS_END) :
  network m = None /\ mux_target m = None /\ global_id m = None.
Proof.
  do 4 (destruct body as [|? body]; [discriminate H|]).
  unfold parse_meta_body in H. cbn [idx lookup list_lookup mbind res_bind] in H.
  destruct (_ <? 4)%nat; [done|].
  match type of H with (if ?c then _ else _) = _ => destruct c eqn:En end; [|by injection H as <-].
  exfalso. assert (z1 = SESSION_STATUS_END) as ->.
  { rewrite <- Hst. clear -H. repeat match type of H with
      | (?x ≫= _) = Ok _ => destruct x as [?| |]; cbn [mbind res_bind] in H; try discriminate H
      | (let '(_, _) := ?p in _) = Ok _ => destruct p
      end. by injection H as <-. }
  by rewrite andb_false_r in En.
Qed.

Lemma mux_end_has_no_network_witness :
  exists m, parse_meta_body [0; 0; 3; 0; 2; 0; 53; 1; 8; 8; 8; 8] = Ok m /\ network m = None.
Proof.
  eexists. split; [vm_compute; reflexivity|].
  apply (mux_end_has_no_network [0; 0; 3; 0; 2; 0; 53; 1; 8; 8; 8; 8]); [vm_compute; reflexivity|reflexivity].
Defined.
