(* ===== verification/Vless.v ===== *)
(** * The VLESS handshakes
    Models crates/skadi-protocol/src/vless/handler.rs (server side) and
    vless/client.rs (client side) over the stream monad of [Io]. *)

From Stdlib Require Import Ascii String.
From stdpp Require Import base list list_numbers numbers strings pretty.
From S2P Require Import Prelude Core Io VlessParse VlessConfig Addons.

Record VlessHandshake := { hs_command : Z; hs_target : Endpoint }.

(** ** Server *)

(** The reading half of [handshake_inner]: the UUID and the bytes of the request. *)
Definition read_header : io anyhow (bytes * bytes) :=
  head ← with_context "failed to read VLESS header prefix" (read_exact 18);
  version ← of_res (idx head 0);
  if negb (version =? VLESS_VERSION)
  then fail (bail ("unsupported VLESS version: 0x" +:+ fmt_02x version)) else
  uuid ← of_res (slice head 1 17);
  addons_len_b ← of_res (idx head 17);
  let addons_len := Z.to_nat addons_len_b in
  if (MAX_ADDONS <? addons_len)%nat
  then fail (bail ("VLESS addons too large: " +:+ fmt_dec addons_len)) else
  full ←
    (if (0 <? addons_len)%nat then
       addons ← with_context "failed to read VLESS addons" (read_exact addons_len);
       mret (head ++ addons)
     else mret head);
  command_buf ← with_context "failed to read VLESS command" (read_exact 1);
  command ← of_res (idx command_buf 0);
  let full := full ++ [command] in
  if negb (command =? CMD_MUX) then
    port_atyp ← with_context "failed to read VLESS port and ATYP" (read_exact 3);
    let full := full ++ port_atyp in
    atyp ← of_res (idx port_atyp 2);
    '(full, addr_len) ←
      (if atyp =? ATYP_IPV4 then mret (full, 4%nat)
       else if atyp =? ATYP_IPV6 then mret (full, 16%nat)
       else if atyp =? ATYP_DOMAIN then
         dlen_buf ← io_q (read_exact 1);
         dlen ← of_res (idx dlen_buf 0);
         mret (full ++ [dlen], Z.to_nat dlen)
       else fail (bail ("unsupported address type: 0x" +:+ fmt_02x atyp)));
    if (MAX_DOMAIN <? addr_len)%nat
    then fail (bail ("address too long: " +:+ fmt_dec addr_len)) else
    addr ← with_context "failed to read VLESS address" (read_exact addr_len);
    mret (uuid, full ++ addr)
  else mret (uuid, full).

Section Server.
Context `{ConstantTimeEq}.

Definition handshake_inner (config : VlessConfig) : io anyhow VlessHandshake :=
  '(uuid, full) ← read_header;
  match authenticate config uuid with
  | None => fail (bail "authentication failed")
  | Some user =>
    '(request, _) ←
      of_res (map_err (fun e => bail ("VLESS parse: " +:+ parse_error_display e)) (parse_request full));
    addons ←
      of_res (map_err (fun e => bail ("VLESS addons: " +:+ addons_error_display e))
                (parse_addons (addons request)));
    match validate_flow (va_flow addons) (vu_flow user) with
    | Ok _ =>
      _ ← io_q (write_all (build_response_header VLESS_VERSION));
      _ ← io_q flush;
      mret {| hs_command := command request; hs_target := target request |}
    | Err _ => fail (bail "unsupported flow")
    | Panic => fun s => (Crash, s)
    end
  end.

Definition handshake (config : VlessConfig) : io anyhow VlessHandshake :=
  with_timeout "VLESS handshake timeout" (handshake_inner config).
End Server.

(** ** Client *)

Definition client_handshake_inner (request : bytes) : io anyhow unit :=
  _ ← with_context "failed to write VLESS request" (write_all request);
  response ← with_context "failed to read VLESS response header" (read_exact 2);
  let expected := build_response_header VLESS_VERSION in
  if negb (bool_decide (response = expected)) then
    r0 ← of_res (idx response 0);
    r1 ← of_res (idx response 1);
    fail (bail ("unexpected VLESS response: " +:+ fmt_02x r0 +:+ " " +:+ fmt_02x r1))
  else mret tt.

Definition client_handshake (request : bytes) : io anyhow unit :=
  with_timeout "VLESS client handshake timeout" (client_handshake_inner request).

Definition handshake_tcp (uuid : bytes) (target : Endpoint) : io anyhow unit :=
  client_handshake (build_tcp_endpoint_request uuid target).

Definition handshake_udp (uuid : bytes) (target : Endpoint) : io anyhow unit :=
  client_handshake (build_udp_endpoint_request uuid target).

(** ** Specification *)

Section Spec.
Context `{ConstantTimeEq}.

(** The requests a configuration admits. *)
Definition admitted (config : VlessConfig) (r : VlessRequest) : Prop :=
  exists user a, authenticate config (uuid r) = Some user /\ parse_addons (addons r) = Ok a
    /\ validate_flow (va_flow a) (vu_flow user) = Ok tt.
End Spec.

(** ** Reading the header *)

Lemma read_header_keeps_tx : keeps_tx read_header.
Proof. unfold read_header. solve_keeps_tx. Qed.

Lemma read_header_no_crash : no_crash read_header.
Proof. unfold read_header. solve_no_crash. all: rewrite slice_ok by lia; done. Qed.

(** What has been read is a prefix of the input. *)
Lemma read_header_prefix s u full s' :
  read_header s = (Done (u, full), s') -> exists rest, rx s = full ++ rest.
Proof.
  intros H. unfold read_header in H. apply bind_done in H as (hd & s1 & Hh & H). io_inv Hh.
  apply bind_done in H as (v & s2 & Hv & H). io_inv Hv. destruct (negb _) in H; [done|].
  apply bind_done in H as (uu & s3 & Hu & H). io_inv Hu.
  apply bind_done in H as (al & s4 & Ha & H). io_inv Ha. cbv zeta in H.
  destruct (MAX_ADDONS <? _)%nat in H; [done|].
  apply bind_done in H as (full1 & s5 & Hf & H).
  assert (Hf1 : exists r1, rx s = full1 ++ r1 /\ s5 = with_rx r1 s).
  { destruct (0 <? _)%nat in Hf; io_inv Hf; [|by exists rest].
    cbn in Hrx0. exists rest0. by rewrite Hrx, Hrx0, <- app_assoc. }
  destruct Hf1 as (r1 & Hrx1 & ->). clear Hf.
  apply bind_done in H as (cb & s6 & Hc & H). io_inv Hc.
  apply bind_done in H as (c & s7 & Hcc & H). io_inv Hcc. cbv zeta in H.
  destruct cb as [|? [|]]; try done. injection Hcc as ->. cbn in Hrx0.
  destruct (negb _) in H; [|io_inv H; eexists; rewrite Hrx1, Hrx0; by rewrite <- app_assoc].
  apply bind_done in H as (pa & s8 & Hp & H). io_inv Hp.
  apply bind_done in H as (at_ & s9 & Hat & H). io_inv Hat.
  apply bind_done in H as ([full2 n] & s10 & Hf & H). cbn in Hrx2.
  assert (Hf2 : exists r2, rx s = full2 ++ r2 /\ s10 = with_rx r2 s).
  { assert (Hall : rx s = (full1 ++ [c]) ++ pa ++ rest1) by (by rewrite Hrx1, Hrx0, Hrx2, <- app_assoc).
    destruct (_ =? ATYP_IPV4) in Hf; [io_inv Hf; exists rest1; by rewrite <- app_assoc|].
    destruct (_ =? ATYP_IPV6) in Hf; [io_inv Hf; exists rest1; by rewrite <- app_assoc|].
    destruct (_ =? ATYP_DOMAIN) in Hf; io_inv Hf. cbn in Hrx3.
    destruct a as [|? [|]]; try done. injection H0 as ->. subst s10. exists rest2.
    split; [|done]. rewrite Hall, Hrx3. by rewrite <- !app_assoc. }
  destruct Hf2 as (r2 & Hrx4 & ->). destruct (MAX_DOMAIN <? _)%nat in H; io_inv H.
  cbn in Hrx3. eexists. by rewrite Hrx4, Hrx3, <- app_assoc.
Qed.

(** The address part of [read_header], after the command. *)
Definition read_address (uuid full : bytes) : io anyhow (bytes * bytes) :=
  port_atyp ← with_context "failed to read VLESS port and ATYP" (read_exact 3);
  let full := full ++ port_atyp in
  atyp ← of_res (idx port_atyp 2);
  '(full, addr_len) ←
    (if atyp =? ATYP_IPV4 then mret (full, 4%nat)
     else if atyp =? ATYP_IPV6 then mret (full, 16%nat)
     else if atyp =? ATYP_DOMAIN then
       dlen_buf ← io_q (read_exact 1);
       dlen ← of_res (idx dlen_buf 0);
       mret (full ++ [dlen], Z.to_nat dlen)
     else fail (bail ("unsupported address type: 0x" +:+ fmt_02x atyp)));
  if (MAX_DOMAIN <? addr_len)%nat
  then fail (bail ("address too long: " +:+ fmt_dec addr_len)) else
  addr ← with_context "failed to read VLESS address" (read_exact addr_len);
  mret (uuid, full ++ addr).

Lemma read_address_run uuid full e s rest :
  endpoint_ok e ->
  read_address uuid full (with_rx (wire_addr e ++ rest) s) = (Done (uuid, full ++ wire_addr e), with_rx rest s).
Proof.
  intros He. unfold read_address. destruct e as [[ip port|octets port fl sc]|host port]; cbn [wire_addr] in *; rewrite <- ?app_assoc.
  - eapply bind_run; [by apply (run_read_ctx _ (to_be16 port ++ [ATYP_IPV4]) (ipv4_octets ip ++ rest))|].
    eapply bind_run; [by apply run_res|]. eapply bind_run; [done|]. cbv iota.
    eapply bind_run; [by apply (run_read_ctx _ (ipv4_octets ip) rest)|].
    unfold mret, io_ret. by rewrite <- !app_assoc.
  - destruct He as ([Hl _] & _).
    eapply bind_run; [by apply (run_read_ctx _ (to_be16 port ++ [ATYP_IPV6]) (octets ++ rest))|].
    eapply bind_run; [by apply run_res|]. eapply bind_run; [done|]. cbv iota.
    eapply bind_run; [by apply (run_read_ctx _ octets rest)|].
    unfold mret, io_ret. by rewrite <- !app_assoc.
  - destruct He as (_ & Hl & _).
    eapply bind_run; [by apply (run_read_ctx _ (to_be16 port ++ [ATYP_DOMAIN])
      ([Z.of_nat (String.length host)] ++ bytes_of_string host ++ rest))|].
    eapply bind_run; [by apply run_res|]. eapply bind_run.
    { cbn [Z.eqb Pos.eqb ATYP_DOMAIN ATYP_IPV4 ATYP_IPV6].
      eapply bind_run; [by apply (run_read_q [Z.of_nat (String.length host)] (bytes_of_string host ++ rest))|].
      eapply bind_run; [by apply run_res|]. reflexivity. }
    cbv iota. rewrite Nat2Z.id.
    destruct (MAX_DOMAIN <? _)%nat eqn:Ed; bool_hyps; [unfold MAX_DOMAIN in Ed; lia|].
    eapply bind_run; [apply (run_read_ctx _ (bytes_of_string host) rest); [done|apply length_bytes_of_string]|].
    unfold mret, io_ret. by rewrite <- !app_assoc.
Qed.

Lemma read_header_run r s rest :
  request_ok r -> rx s = wire_request r ++ rest ->
  read_header s = (Done (uuid r, wire_request r), with_rx rest s).
Proof.
  intros [[Hul Hub] [Hal Hab] Ht] Hrx. unfold wire_request, wire_head in *.
  rewrite <- !app_assoc in Hrx. unfold read_header.
  set (alen := Z.of_nat (length (addons r))) in *.
  assert (Hh : length ([VLESS_VERSION] ++ uuid r ++ [alen]) = 18%nat).
  { rewrite !length_app, Hul. done. }
  set (tl := if command r =? CMD_MUX then [] else wire_addr (target r)) in *.
  eapply bind_run.
  { apply (run_read_ctx _ ([VLESS_VERSION] ++ uuid r ++ [alen])
      (addons r ++ [command r] ++ tl ++ rest)); [|exact Hh]. by rewrite Hrx, <- !app_assoc. }
  eapply bind_run; [by apply run_res|]. rewrite Z.eqb_refl. cbn [negb].
  eapply bind_run; [apply run_res, slice_app_mid; cbn; [done|lia]|].
  eapply bind_run; [apply run_res; rewrite app_assoc; apply idx_app_mid; rewrite length_app, Hul; done|].
  cbv zeta. replace (Z.to_nat alen) with (length (addons r)) by (unfold alen; lia).
  destruct (MAX_ADDONS <? _)%nat eqn:E; bool_hyps; [unfold MAX_ADDONS in E; lia|].
  apply bind_run with (a := ([VLESS_VERSION] ++ uuid r ++ [alen]) ++ addons r)
    (s1 := with_rx ([command r] ++ tl ++ rest) s).
  { destruct (0 <? length (addons r))%nat eqn:Ea; bool_hyps.
    - eapply bind_run; [apply run_read_ctx; [reflexivity|done]|]. done.
    - destruct (addons r); [|cbn in Ea; lia]. by rewrite app_nil_r. }
  eapply bind_run; [by apply (run_read_ctx _ [command r])|].
  eapply bind_run; [by apply run_res|]. rewrite with_rx_twice.
  destruct Ht as [[Hc He]|[Hc _]].
  2:{ assert (Hmux : (command r =? CMD_MUX) = true) by (by rewrite Hc).
      unfold tl. rewrite Hmux. cbn [negb]. unfold mret, io_ret. by rewrite <- !app_assoc. }
  assert (Hmux : (command r =? CMD_MUX) = false) by (destruct Hc as [-> | ->]; done).
  unfold tl. rewrite Hmux. cbn [negb].
  pose proof (read_address_run (uuid r) ((([VLESS_VERSION] ++ uuid r ++ [alen]) ++ addons r) ++ [command r]) (target r) s rest He) as Ha.
  rewrite <- !app_assoc in Ha |- *. exact Ha.
Qed.

(** ** The server's answer *)

Section ServerLemmas.
Context `{ConstantTimeEq}.

Lemma write_response_run h s :
  tx_quota s = None ->
  (_ ← io_q (write_all (build_response_header VLESS_VERSION)); _ ← io_q flush; mret h : io anyhow VlessHandshake) s
  = (Done h, with_tx (tx s ++ [0; 0]) s).
Proof. destruct s as [r eof t q]. cbn. by intros ->. Qed.

Lemma handshake_iff config s h s' :
  bytes_ok (rx s) -> tx_quota s = None ->
  handshake config s = (Done h, s') <->
  exists r rest, request_ok r /\ admitted config r /\ rx s = wire_request r ++ rest
    /\ h = {| hs_command := command r; hs_target := target r |}
    /\ s' = Stream rest (rx_eof s) (tx s ++ [0; 0]) None.
Proof.
  intros Hb Hq. unfold handshake. rewrite timeout_done. unfold handshake_inner. split.
  - intros Hrun. apply bind_done in Hrun as ([u full] & s1 & Hr & Hrun). cbv iota in Hrun.
    destruct (authenticate config u) as [user|] eqn:Ha; [|done].
    apply bind_done in Hrun as ([r n] & s2 & Hp & Hrun). io_inv Hp. apply map_err_ok in Hp.
    apply bind_done in Hrun as (a & s3 & Had & Hrun). io_inv Had. apply map_err_ok in Had.
    destruct (read_header_prefix _ _ _ _ Hr) as [rest Hrx]. rewrite Hrx in Hb. inv_bytes_ok.
    apply vless_parse_request_iff in Hp as (Hok & _ & more & ->); [|done].
    rewrite <- app_assoc in Hrx. pose proof (read_header_run r s _ Hok Hrx) as Hr2.
    rewrite Hr2 in Hr. injection Hr as <- Hmore <-.
    destruct (validate_flow _ _) as [[]| |] eqn:Hv; try done.
    rewrite write_response_run in Hrun by done. injection Hrun as <- <-.
    exists r, (more ++ rest). split_and!; try done; [by exists user, a|]. unfold with_tx. cbn. by rewrite Hq.
  - intros (r & rest & Hok & (user & a & Hu & Hpa & Hv) & Hrx & -> & ->).
    eapply bind_run; [by apply (read_header_run r s rest)|]. cbv iota. rewrite Hu.
    eapply bind_run.
    { apply run_res, map_err_ok. pose proof (parse_request_complete r [] Hok) as Hp.
      rewrite app_nil_r in Hp. exact Hp. }
    eapply bind_run; [by apply run_res, map_err_ok|]. rewrite Hv.
    rewrite write_response_run by done. unfold with_tx. cbn. by rewrite Hq.
Qed.

Lemma validate_flow_no_panic f u : validate_flow f u <> Panic.
Proof. unfold validate_flow. by repeat case_match. Qed.

Lemma handshake_inner_no_crash config : no_crash (handshake_inner config).
Proof.
  unfold handshake_inner. apply no_crash_bind; [apply read_header_no_crash|].
  intros s [u full] s' _. destruct (authenticate config u) as [user|]; [|solve_no_crash].
  apply no_crash_bind; [solve_no_crash|]. intros ? [r n] ? _.
  apply no_crash_bind; [solve_no_crash|]. intros ? a ? _.
  pose proof (validate_flow_no_panic (va_flow a) (vu_flow user)).
  destruct (validate_flow _ _); [solve_no_crash|solve_no_crash|done].
Qed.

(** What the response leaves behind, however it ends. *)
Lemma write_response_sends (h : VlessHandshake) s r s' :
  (_ ← io_q (write_all (build_response_header VLESS_VERSION)); _ ← io_q flush; mret h : io anyhow VlessHandshake) s = (r, s') ->
  exists n, tx s' = tx s ++ take n (build_response_header VLESS_VERSION).
Proof.
  destruct (write_all_sends (build_response_header VLESS_VERSION) s) as (n & Hn & _). intros Hr. exists n. rewrite <- Hn.
  unfold mbind, io_bind, io_q, io_map_err in Hr. destruct (write_all _ s) as [[[]|?| |] s1]; [|by injection Hr as _ <-..].
  pose proof (flush_keeps s1) as Hf. destruct (flush s1) as [[[]|?| |] s2]; cbn in Hf; subst s2; by injection Hr as _ <-.
Qed.

(** The handler writes at most once, after all its checks. *)
Lemma handshake_inner_sends config s r s' :
  bytes_ok (rx s) -> handshake_inner config s = (r, s') ->
  tx s' = tx s
  \/ exists q rest n, request_ok q /\ admitted config q /\ rx s = wire_request q ++ rest
       /\ tx s' = tx s ++ take n (build_response_header VLESS_VERSION).
Proof.
  intros Hb. unfold handshake_inner. pose proof (read_header_keeps_tx s) as Ht. unfold mbind at 1, io_bind at 1.
  destruct (read_header s) as [[[u full]|?| |] s1] eqn:Hr; cbn in Ht; try (intros [= _ <-]; by left).
  destruct (authenticate config u) as [user|] eqn:Ha; [|intros [= _ <-]; by left].
  destruct (read_header_prefix _ _ _ _ Hr) as [rest Hrx].
  unfold mbind at 1, io_bind at 1, of_res at 1.
  destruct (parse_request full) as [[q n]| |] eqn:Hp; cbn [map_err]; try (intros [= _ <-]; by left).
  unfold mbind at 1, io_bind at 1, of_res at 1.
  destruct (parse_addons (addons q)) as [a| |] eqn:Had; cbn [map_err]; try (intros [= _ <-]; by left).
  destruct (validate_flow _ _) as [[]| |] eqn:Hv; try (intros [= _ <-]; by left).
  intros Hw. apply write_response_sends in Hw as (k & Hk). right.
  rewrite Hrx in Hb. inv_bytes_ok. apply vless_parse_request_iff in Hp as (Hok & _ & more & ->); [|done].
  rewrite <- app_assoc in Hrx. pose proof (read_header_run q s _ Hok Hrx) as Hr2. rewrite Hr2 in Hr. injection Hr as <- Hmore <-.
  exists q, (more ++ rest), k. split_and!; [done| |done|by rewrite Hk]. by exists user, a.
Qed.
End ServerLemmas.

(** The server's side of a request without addons, for a user without a flow. *)
Lemma server_accepts `{ConstantTimeEq} config user u c e data :
  uuid_ok u -> endpoint_ok e -> bytes_ok data -> authenticate config u = Some user -> default EmptyString (vu_flow user) = EmptyString ->
  c = CMD_TCP \/ c = CMD_UDP ->
  handshake config (Stream (wire_request {| uuid := u; command := c; addons := []; target := e |} ++ data) false [] None)
  = (Done {| hs_command := c; hs_target := e |}, Stream data false [0; 0] None).
Proof.
  intros Hu He Hd Ha Hf Hc. set (r := {| uuid := u; command := c; addons := []; target := e |}).
  assert (Hr : request_ok r).
  { constructor; cbn; [done|split; [lia|apply Forall_nil_2]|]. left. by split. }
  apply handshake_iff; cbn [rx tx_quota]; [|done|].
  - apply bytes_ok_app. split; [|done]. unfold wire_request, wire_head. destruct Hu as [_ Hu].
    pose proof (wire_addr_ok e He). unfold r. cbn [uuid addons command target length].
    destruct Hc as [-> | ->]; cbn [Z.eqb Pos.eqb CMD_TCP CMD_UDP CMD_MUX];
      solve_app_ok; unfold byte_ok; vm_compute; split; (reflexivity || discriminate).
  - exists r, data. split_and!; try done. exists user, vless_addons_default.
    split_and!; [done|done|]. by apply validate_flow_ok.
Qed.

(** ** Properties *)

Definition demo_request : VlessRequest :=
  {| uuid := seqZ 0xA0 16; command := CMD_TCP; addons := []; target := Domain "ya.ru" 443 |}.

Lemma demo_request_ok : request_ok demo_request.
Proof.
  constructor.
  - split; [reflexivity|solve_bytes_ok].
  - split; [cbn; lia|apply Forall_nil_2].
  - left. split; [left; reflexivity|]. split; [vm_compute; reflexivity|]. cbn. unfold u16_ok. lia.
Defined.

(** C2: the VLESS server accepts exactly the admitted requests. On a transport
    that accepts its writes, the handshake succeeds exactly when the stream starts
    with a well-formed request whose UUID belongs to a configured user and whose
    addons parse to a flow the policy admits; it then returns the request's command
    and target, has consumed exactly the request and has answered two zero bytes. *)
Theorem vless_handshake_exact `{ConstantTimeEq} (config : VlessConfig) (s s' : stream)
    (h : VlessHandshake) (Hb : bytes_ok (rx s)) (Hq : tx_quota s = None) :
  handshake config s = (Done h, s') <->
  exists r rest, request_ok r /\ admitted config r /\ rx s = wire_request r ++ rest
    /\ h = {| hs_command := command r; hs_target := target r |}
    /\ s' = Stream rest (rx_eof s) (tx s ++ [0; 0]) None.
Proof. by apply handshake_iff. Qed.

Lemma vless_handshake_exact_witness :
  exists r rest, request_ok r /\ admitted demo_vless r
    /\ wire_request demo_request ++ [22; 3] = wire_request r ++ rest.
Proof.
  destruct (vless_handshake_exact demo_vless
    (Stream (wire_request demo_request ++ [22; 3]) false [] None)
    (Stream [22; 3] false [0; 0] None)
    {| hs_command := CMD_TCP; hs_target := Domain "ya.ru" 443 |}) as [Hr _].
  - solve_bytes_ok.
  - reflexivity.
  - destruct Hr as (r & rest & H1 & H2 & H3 & _); [vm_compute; reflexivity|].
    exists r, rest. split_and!; [exact H1|exact H2|exact H3].
Defined.

(** C5: a rejected VLESS client learns nothing. However the handshake fails, a client
    whose bytes do not start with a well-formed request that the configuration admits
    (wrong version, unknown UUID, malformed request or addons, refused flow, truncated
    stream) has been sent not one byte. Only an admitted client can have seen a part of
    the two-byte response when the handshake fails, and only on a transport that broke
    or stalled while the response was written or flushed. *)
Theorem vless_failure_is_silent `{ConstantTimeEq} (config : VlessConfig) (s s' : stream) (e : anyhow)
    (Hb : bytes_ok (rx s)) (Hf : handshake config s = (Fail e, s')) :
  ((forall r rest, request_ok r -> admitted config r -> rx s <> wire_request r ++ rest) -> tx s' = tx s)
  /\ (tx_quota s = None -> tx s' = tx s)
  /\ exists n, tx s' = tx s ++ take n (build_response_header VLESS_VERSION).
Proof.
  unfold handshake, with_timeout in Hf. destruct (handshake_inner config s) as [r1 s1] eqn:Hi.
  assert (s1 = s') as -> by (by destruct r1; injection Hf as ? ->).
  destruct (handshake_inner_sends config s r1 s' Hb Hi) as [Ht|(q & rest & n & Hok & Had & Hrx & Ht)].
  - split_and!; [done..|]. exists O. by rewrite app_nil_r.
  - split_and!; [intros Hno; by destruct (Hno q rest)| |by exists n]. intros Hq.
    assert (Hd : handshake config s = (Done {| hs_command := command q; hs_target := target q |}, Stream rest (rx_eof s) (tx s ++ [0; 0]) None))
      by (apply handshake_iff; [done|done|by exists q, rest]).
    unfold handshake, with_timeout in Hd. rewrite Hi in Hd. by destruct r1.
Qed.

Definition unknown_uuid_request : bytes :=
  wire_request {| uuid := replicate 16 1%Z; command := CMD_TCP; addons := []; target := Domain "ya.ru" 443 |}.

(** An unknown user; and an admitted one whose transport breaks after one byte. *)
Lemma vless_failure_is_silent_witness :
  (exists s', handshake demo_vless (Stream unknown_uuid_request false [7] None)
             = (Fail (bail "authentication failed"), s') /\ tx s' = [7])
  /\ (exists s' n, handshake demo_vless (Stream (wire_request demo_request) false [7] (Some (TxLimit 1 false)))
             = (Fail (anyhow_of_io broken_pipe), s') /\ tx s' = [7; 0] /\ tx s' = [7] ++ take n (build_response_header VLESS_VERSION)).
Proof.
  split.
  - eexists. split; [vm_compute; reflexivity|].
    destruct (vless_failure_is_silent demo_vless (Stream unknown_uuid_request false [7] None)
      (Stream [] false [7] None) (bail "authentication failed")) as (_ & Hq & _);
      [solve_bytes_ok|vm_compute; reflexivity|]. apply Hq. reflexivity.
  - destruct (vless_failure_is_silent demo_vless (Stream (wire_request demo_request) false [7] (Some (TxLimit 1 false)))
      (Stream [] false [7; 0] (Some (TxLimit 0 false))) (anyhow_of_io broken_pipe)) as (_ & _ & n & Hn);
      [solve_bytes_ok|vm_compute; reflexivity|].
    eexists _, n. split; [vm_compute; reflexivity|]. split; [reflexivity|exact Hn].
Defined.

(** the VLESS handshake always ends in a result: whatever the peer sends or
    withholds, it returns a command and target or an error; it does not panic, and
    does not wait past its timeout. The same holds of the client's handshake. *)
Theorem vless_handshake_total `{ConstantTimeEq} (config : VlessConfig) (request : bytes) (s : stream) :
  ((exists h, (handshake config s).1 = Done h) \/ (exists e, (handshake config s).1 = Fail e))
  /\ ((client_handshake request s).1 = Done tt \/ exists e, (client_handshake request s).1 = Fail e).
Proof.
  split; [apply timeout_returns, handshake_inner_no_crash|].
  destruct (timeout_returns "VLESS client handshake timeout" (client_handshake_inner request) s)
    as [[[] Hd]|Hf]; [|by left|by right].
  unfold client_handshake_inner. solve_no_crash.
Qed.

(** client and server agree. For a registered user without a flow and any
    endpoint the protocol can carry, the bytes the client's TCP or UDP handshake
    sends make the server's handshake succeed with that command and target and
    leave the application data untouched, and the server's answer makes the client's
    handshake succeed. *)
Theorem vless_client_server_agree `{ConstantTimeEq} (config : VlessConfig) (user : VlessUser)
    (u data : bytes) (e : Endpoint)
    (Hu : uuid_ok u) (He : endpoint_ok e) (Hd : bytes_ok data)
    (Ha : authenticate config u = Some user) (Hf : default EmptyString (vu_flow user) = EmptyString) :
  forall c hs, c = CMD_TCP /\ hs = handshake_tcp \/ c = CMD_UDP /\ hs = handshake_udp ->
  exists req,
    hs u e (Stream [0; 0] false [] None) = (Done tt, Stream [] false req None)
    /\ handshake config (Stream (req ++ data) false [] None)
       = (Done {| hs_command := c; hs_target := e |}, Stream data false [0; 0] None).
Proof.
  intros c hs Hc. exists (wire_request {| uuid := u; command := c; addons := []; target := e |}).
  split; [|apply (server_accepts config user u c e data); tauto].
  destruct Hc as [[-> ->] | [-> ->]];
    [unfold handshake_tcp; rewrite (build_endpoint_wire CMD_TCP build_tcp_endpoint_request)
    |unfold handshake_udp; rewrite (build_endpoint_wire CMD_UDP build_udp_endpoint_request)];
    auto; unfold client_handshake; apply timeout_done; done.
Qed.

Lemma vless_client_server_agree_witness :
  exists req,
    handshake_udp (seqZ 0xA0 16) (Domain "ya.ru" 53) (Stream [0; 0] false [] None)
      = (Done tt, Stream [] false req None)
    /\ handshake demo_vless (Stream (req ++ [1; 2]) false [] None)
       = (Done {| hs_command := CMD_UDP; hs_target := Domain "ya.ru" 53 |}, Stream [1; 2] false [0; 0] None).
Proof.
  apply (vless_client_server_agree demo_vless demo_user (seqZ 0xA0 16) [1; 2] (Domain "ya.ru" 53)).
  - split; [reflexivity|solve_bytes_ok].
  - split; [vm_compute; reflexivity|]. cbn. unfold u16_ok. lia.
  - solve_bytes_ok.
  - vm_compute. reflexivity.
  - reflexivity.
  - right. split; reflexivity.
Defined.
