(* ===== verification/Inbound.v ===== *)
(** * Inbound dispatch
    Models crates/skadi-protocol/src/inbound.rs: the [InboundHandler] trait as a
    type class with the laws its clients rely on, its two implementations and the
    dispatcher; and crates/skadi-server/src/prefixed.rs, the stream that gives a
    sniffed byte back. *)

From Stdlib Require Import Ascii String.
From stdpp Require Import base list list_numbers numbers strings pretty.
From S2P Require Import Prelude Core Io Socks5Parse Socks5 VlessParse VlessConfig Vless.

Record InboundRequest := { ir_protocol : Protocol; ir_command : Z; ir_target : Endpoint }.

Definition from_socks5 (req : Socks5Request) : InboundRequest :=
  {| ir_protocol := Core.Socks5; ir_command := Socks5Parse.command req;
     ir_target := Socks5Parse.target req |}.

Definition from_vless (hs : VlessHandshake) : InboundRequest :=
  {| ir_protocol := Core.Vless; ir_command := hs_command hs; ir_target := hs_target hs |}.

Definition is_tcp_connect (r : InboundRequest) : bool :=
  match ir_protocol r with
  | Core.Socks5 => ir_command r =? CMD_CONNECT
  | Core.Vless => ir_command r =? CMD_TCP
  end.

(** The requests a protocol can deliver. *)
Definition deliverable (r : InboundRequest) : Prop :=
  match ir_protocol r with
  | Core.Socks5 => command_ok (ir_command r) /\ endpoint_ok (ir_target r)
  | Core.Vless =>
    (ir_command r = CMD_TCP \/ ir_command r = CMD_UDP) /\ endpoint_ok (ir_target r)
    \/ ir_command r = CMD_MUX /\ ir_target r = Domain MUX_PLACEHOLDER_HOST 0
  end.

(** ** The trait *)

Class InboundHandler (Config : Type) (proto : Protocol) := {
  inbound_handshake : Config -> io anyhow InboundRequest;
  (** the handshake returns or fails: it neither panics nor hangs *)
  inbound_total : forall cfg s, (exists r, (inbound_handshake cfg s).1 = Done r)
                                \/ (exists e, (inbound_handshake cfg s).1 = Fail e);
  (** a delivered request is well formed and tagged with the protocol *)
  inbound_sound : forall cfg s r s', bytes_ok (rx s) -> tx_quota s = None ->
    inbound_handshake cfg s = (Done r, s') -> ir_protocol r = proto /\ deliverable r;
  (** the handshake consumes a prefix of the stream and keeps what follows *)
  inbound_prefix : forall cfg s r s', bytes_ok (rx s) -> tx_quota s = None ->
    inbound_handshake cfg s = (Done r, s') -> exists used, rx s = used ++ rx s' /\ used <> [];
  (** and leaves a stream that can still be written *)
  inbound_writable : forall cfg s r s', bytes_ok (rx s) -> tx_quota s = None ->
    inbound_handshake cfg s = (Done r, s') -> tx_quota s' = None
}.

Section Handlers.
Context `{ConstantTimeEq}.

Definition socks5_handshake (config : Socks5Config) : io anyhow InboundRequest :=
  req ← Socks5.negotiate config;
  mret (from_socks5 req).

Definition vless_handshake (config : VlessConfig) : io anyhow InboundRequest :=
  hs ← Vless.handshake config;
  mret (from_vless hs).

Lemma bind_ret_total {A B} (m : io anyhow A) (f : A -> B) s :
  ((exists r, (m s).1 = Done r) \/ (exists e, (m s).1 = Fail e)) ->
  (exists r, ((x ← m; mret (f x)) s).1 = Done r) \/ (exists e, ((x ← m; mret (f x)) s).1 = Fail e).
Proof.
  unfold mbind, io_bind. destruct (m s) as [[]]; cbn; naive_solver.
Qed.

Lemma transcript_request config r i o : transcript config r i o -> Socks5Parse.request_ok r /\ i <> [].
Proof. by intros []. Qed.

#[export] Program Instance socks5_inbound : InboundHandler Socks5Config Core.Socks5 :=
  {| inbound_handshake := socks5_handshake |}.
Next Obligation. intros cfg s. apply bind_ret_total, Socks5.negotiate_returns. Qed.
Next Obligation.
  intros cfg s r s' Hb Hq Hr. unfold socks5_handshake in Hr. io_inv Hr.
  apply Socks5.negotiate_iff in H0 as (i & o & rest & Ht & _); [|done|done].
  apply transcript_request in Ht as [[Hc He] _]. done.
Qed.
Next Obligation.
  intros cfg s r s' Hb Hq Hr. unfold socks5_handshake in Hr. io_inv Hr.
  apply Socks5.negotiate_iff in H0 as (i & o & rest & Ht & Hrx & ->); [|done|done].
  apply transcript_request in Ht as [_ Hi]. by exists i.
Qed.
Next Obligation.
  intros cfg s r s' Hb Hq Hr. unfold socks5_handshake in Hr. io_inv Hr.
  by apply Socks5.negotiate_iff in H0 as (i & o & rest & _ & _ & ->).
Qed.

#[export] Program Instance vless_inbound : InboundHandler VlessConfig Core.Vless :=
  {| inbound_handshake := vless_handshake |}.
Next Obligation. intros cfg s. apply bind_ret_total, timeout_returns, handshake_inner_no_crash. Qed.
Next Obligation.
  intros cfg s r s' Hb Hq Hr. unfold vless_handshake in Hr. io_inv Hr.
  apply handshake_iff in H0 as (rq & rest & Hok & _ & _ & -> & _); [|done|done].
  split; [done|]. by destruct Hok.
Qed.
Next Obligation.
  intros cfg s r s' Hb Hq Hr. unfold vless_handshake in Hr. io_inv Hr.
  apply handshake_iff in H0 as (rq & rest & Hok & _ & Hrx & _ & ->); [|done|done].
  by exists (VlessParse.wire_request rq).
Qed.
Next Obligation.
  intros cfg s r s' Hb Hq Hr. unfold vless_handshake in Hr. io_inv Hr.
  by apply handshake_iff in H0 as (rq & rest & _ & _ & _ & _ & ->).
Qed.

(** ** The dispatcher *)

Definition handshake_inbound (protocol : Protocol) (socks5 : Socks5Config) (vless : VlessConfig)
    : io anyhow InboundRequest :=
  match protocol with
  | Core.Socks5 => inbound_handshake (proto := Core.Socks5) socks5
  | Core.Vless => inbound_handshake (proto := Core.Vless) vless
  end.
End Handlers.

(** What follows from the interface alone. *)
Section Clients.
Context {Config : Type} {proto : Protocol} `{!InboundHandler Config proto}.

Lemma handler_contract (cfg : Config) s :
  bytes_ok (rx s) -> tx_quota s = None ->
  match inbound_handshake cfg s with
  | (Done r, s') => ir_protocol r = proto /\ deliverable r
                    /\ exists used, rx s = used ++ rx s' /\ used <> []
  | (Fail _, _) => True
  | _ => False
  end.
Proof.
  intros Hb Hq. pose proof (inbound_total cfg s) as Ht.
  pose proof (inbound_sound cfg s) as Hs. pose proof (inbound_prefix cfg s) as Hp.
  destruct (inbound_handshake cfg s) as [[r|e| |] s']; cbn in *; [|done|naive_solver..].
  destruct (Hs r s' Hb Hq eq_refl) as [H1 H2]. by split_and!; [..|apply (Hp r s')].
Qed.
End Clients.

(** ** The prefixed stream *)

Record PrefixedStream := { inner : stream; prefix : option Z }.

Definition prefixed_new (s : stream) (p : option Z) : PrefixedStream := {| inner := s; prefix := p |}.

(** [poll_read] into a buffer with [remaining] free bytes; when it is the inner
    stream that is polled, it has [avail] bytes ready (possibly none). *)
Definition poll_read (this : PrefixedStream) (remaining avail : nat) : bytes * PrefixedStream :=
  match prefix this with
  | Some byte =>
    if (remaining =? 0)%nat then ([], this)
    else ([byte], {| inner := inner this; prefix := None |})
  | None =>
    let n := Nat.min remaining avail in
    (take n (rx (inner this)),
     {| inner := with_rx (drop n (rx (inner this))) (inner this); prefix := None |})
  end.

(** [poll_write] goes to the inner stream. *)
Definition prefixed_write (this : PrefixedStream) (buf : bytes) : outcome io_error unit * PrefixedStream :=
  let '(o, s) := write_all buf (inner this) in (o, {| inner := s; prefix := prefix this |}).

(** The bytes a reader of the wrapper has still to see. *)
Definition pending_bytes (this : PrefixedStream) : bytes :=
  match prefix this with Some b => [b] | None => [] end ++ rx (inner this).

Inductive reads : PrefixedStream -> bytes -> PrefixedStream -> Prop :=
| reads_nil this : reads this [] this
| reads_step this remaining avail d this1 data this2 :
    poll_read this remaining avail = (d, this1) -> reads this1 data this2 ->
    reads this (d ++ data) this2.

Lemma poll_read_pending this remaining avail d this' :
  poll_read this remaining avail = (d, this') ->
  pending_bytes this = d ++ pending_bytes this' /\ (length d <= remaining)%nat
  /\ tx (inner this') = tx (inner this).
Proof.
  unfold poll_read, pending_bytes. destruct (prefix this) as [b|] eqn:Hp.
  - destruct (remaining =? 0)%nat eqn:E; intros [= <- <-]; bool_hyps; cbn; rewrite ?Hp; split_and!; done || lia.
  - intros [= <- <-]. cbn [prefix inner rx tx with_rx app]. rewrite take_drop, length_take.
    split_and!; [done|lia|done].
Qed.

(** ** Properties *)

(** the inbound dispatcher satisfies the handler contract for both
    protocols. On every stream it ends in a request or an error; a delivered
    request carries the dispatched protocol, a command and target that protocol can
    express, and the handshake has consumed a non-empty prefix of the stream and
    left the rest for the relay. *)
Theorem inbound_dispatch_contract `{ConstantTimeEq} (protocol : Protocol) (s5 : Socks5Config)
    (vl : VlessConfig) (s : stream) (Hb : bytes_ok (rx s)) (Hq : tx_quota s = None) :
  match handshake_inbound protocol s5 vl s with
  | (Done r, s') => ir_protocol r = protocol /\ deliverable r
                    /\ exists used, rx s = used ++ rx s' /\ used <> []
  | (Fail _, _) => True
  | _ => False
  end.
Proof. destruct protocol; by apply handler_contract. Qed.

Lemma inbound_dispatch_contract_witness :
  exists r s', handshake_inbound Core.Vless Socks5.demo_config demo_vless
      (Stream (VlessParse.wire_request Vless.demo_request ++ [22; 3]) false [] None) = (Done r, s')
    /\ deliverable r /\ rx s' = [22; 3].
Proof.
  pose proof (inbound_dispatch_contract Core.Vless Socks5.demo_config demo_vless
    (Stream (VlessParse.wire_request Vless.demo_request ++ [22; 3]) false [] None)) as Hc.
  assert (Hr : handshake_inbound Core.Vless Socks5.demo_config demo_vless
      (Stream (VlessParse.wire_request Vless.demo_request ++ [22; 3]) false [] None)
    = (Done {| ir_protocol := Core.Vless; ir_command := CMD_TCP; ir_target := Domain "ya.ru" 443 |},
       Stream [22; 3] false [0; 0] None)) by (vm_compute; reflexivity).
  rewrite Hr in Hc. eexists _, _. split; [exact Hr|]. split; [|reflexivity].
  apply Hc; [solve_bytes_ok|reflexivity].
Defined.

(** sniffing loses and reorders nothing. However a reader polls a
    [PrefixedStream] (any buffer sizes, any chunking by the socket), what it has
    read followed by what is still pending is the sniffed byte followed by the
    socket's bytes, and reading sends nothing. *)
Theorem prefixed_stream_transparent (this this' : PrefixedStream) (data : bytes)
    (Hr : reads this data this') :
  pending_bytes this = data ++ pending_bytes this' /\ tx (inner this') = tx (inner this).
Proof.
  induction Hr as [this|this rem avail d this1 data this2 Hp Hr [IH1 IH2]]; [done|].
  apply poll_read_pending in Hp as (H1 & _ & H2).
  by rewrite H1, IH1, IH2, app_assoc.
Qed.

Lemma prefixed_stream_transparent_witness :
  pending_bytes (prefixed_new (Stream [1; 0] false [] None) (Some 5)) = [5; 1] ++ [0].
Proof.
  destruct (prefixed_stream_transparent (prefixed_new (Stream [1; 0] false [] None) (Some 5))
    {| inner := Stream [0] false [] None; prefix := None |} [5; 1]) as [H _]; [|exact H].
  apply (reads_step _ 2 7 [5] {| inner := Stream [1; 0] false [] None; prefix := None |} [1]);
    [reflexivity|].
  apply (reads_step _ 1 7 [1] {| inner := Stream [0] false [] None; prefix := None |} []);
    [reflexivity|apply reads_nil].
Defined.
