(* ===== verification/Gate.v ===== *)
(** * The connection gate
    Models crates/skadi-server/src/connection_gate.rs: a lock-free counter of
    active sessions shared by all connection tasks. Each atomic operation of
    [try_acquire] and of the permit's [Drop] is one step of a relation on the
    shared counter and the program counters of the tasks; the tasks interleave
    arbitrarily and the weak compare-exchange may fail spuriously. *)

From stdpp Require Import base list list_numbers numbers relations.
From S2P Require Import Prelude.

(** [u32] arithmetic of [AtomicU32::fetch_sub]. *)
Definition wrap_u32 (n : Z) : Z := n mod 2 ^ 32.

Record ConnectionGate := { max : option Z; active : Z }.

Definition gate_new (max_connections : option Z) : ConnectionGate :=
  {| max := max_connections; active := 0 |}.

(** Where a task is: outside the gate, in the loop of [try_acquire] with the
    [current] it last saw, holding a permit (counted when the gate has a limit), or
    refused. *)
Inductive pc :=
| Idle
| Trying (current : Z)
| Holding (counted : bool)
| Refused.

#[export] Instance pc_eq_dec : EqDecision pc.
Proof. solve_decision. Defined.

Record system := { gate : ConnectionGate; tasks : list pc }.

Definition set_active (g : ConnectionGate) (n : Z) : ConnectionGate := {| max := max g; active := n |}.

(** What one task does in one atomic step; [spurious] lets the weak
    compare-exchange fail although the value matches. *)
Definition task_step (g : ConnectionGate) (p : pc) (spurious : bool) : ConnectionGate * pc :=
  match p with
  | Idle =>
    match max g with
    | None => (g, Holding false)
    | Some _ => (g, Trying (active g))
    end
  | Trying current =>
    match max g with
    | None => (g, Holding false)
    | Some m =>
      if current <? m then
        if (active g =? current) && negb spurious
        then (set_active g (current + 1), Holding true)
        else (g, Trying (active g))
      else (g, Refused)
    end
  | Holding true => (set_active g (wrap_u32 (active g - 1)), Idle)
  | Holding false => (g, Idle)
  | Refused => (g, Idle)
  end.

Inductive step : system -> system -> Prop :=
| step_task g ts i p spurious g' p' :
    ts !! i = Some p -> task_step g p spurious = (g', p') ->
    step {| gate := g; tasks := ts |} {| gate := g'; tasks := <[i := p']> ts |}.

Definition initial (max_connections : option Z) (n : nat) : system :=
  {| gate := gate_new max_connections; tasks := replicate n Idle |}.

Definition reachable (max_connections : option Z) (n : nat) (s : system) : Prop :=
  rtc step (initial max_connections n) s.

(** Running a schedule: which task moves, and whether its exchange fails. *)
Definition exec (s : system) (i : nat) (spurious : bool) : option system :=
  match tasks s !! i with
  | Some p =>
    let '(g', p') := task_step (gate s) p spurious in
    Some {| gate := g'; tasks := <[i := p']> (tasks s) |}
  | None => None
  end.

Fixpoint exec_all (s : system) (schedule : list (nat * bool)) : option system :=
  match schedule with
  | [] => Some s
  | (i, spurious) :: rest => s' ← exec s i spurious; exec_all s' rest
  end.

Lemma exec_all_rtc schedule s s' : exec_all s schedule = Some s' -> rtc step s s'.
Proof.
  revert s. induction schedule as [|[i sp] rest IH]; intros s H; [injection H as ->; apply rtc_refl|].
  cbn in H. unfold exec in H. destruct s as [g ts]. cbn in H.
  destruct (ts !! i) as [p|] eqn:Hi; [|done].
  destruct (task_step g p sp) as [g' p'] eqn:Ht. cbn in H.
  eapply rtc_l; [by eapply step_task|]. by apply IH.
Qed.

(** ** Counting permits *)

Definition weight (p : pc) : Z := match p with Holding true => 1 | _ => 0 end.

Fixpoint holders (ts : list pc) : Z :=
  match ts with
  | [] => 0
  | p :: ts => weight p + holders ts
  end.

Lemma weight_nonneg p : 0 <= weight p.
Proof. destruct p as [| |[]|]; cbn; lia. Qed.

Lemma holders_nonneg ts : 0 <= holders ts.
Proof. induction ts as [|p ts IH]; cbn; [lia|]. pose proof (weight_nonneg p). lia. Qed.

Lemma holders_insert ts i p q :
  ts !! i = Some p -> holders (<[i := q]> ts) = holders ts - weight p + weight q.
Proof.
  revert i. induction ts as [|x ts IH]; intros [|i] Hi; try done.
  - cbn in *. injection Hi as ->. lia.
  - change (<[S i := q]> (x :: ts)) with (x :: <[i := q]> ts). cbn [holders].
    rewrite (IH i Hi). lia.
Qed.

Lemma holders_lookup ts i p : ts !! i = Some p -> weight p <= holders ts.
Proof.
  revert i. induction ts as [|x ts IH]; intros [|i] Hi; cbn in *; try done.
  - injection Hi as ->. pose proof (holders_nonneg ts). lia.
  - specialize (IH i Hi). pose proof (weight_nonneg x). lia.
Qed.

Lemma holders_idle n : holders (replicate n Idle) = 0.
Proof. induction n; cbn; [done|]. exact IHn. Qed.

(** ** The invariant *)

Definition limit_ok (m : option Z) : Prop := match m with Some m => 0 <= m < 2 ^ 32 | None => True end.

Record inv (m : option Z) (s : system) : Prop := {
  inv_max : max (gate s) = m;
  inv_count : active (gate s) = holders (tasks s);
  inv_bound : match m with Some m => active (gate s) <= m | None => active (gate s) = 0 end
}.

Lemma inv_initial m n : limit_ok m -> inv m (initial m n).
Proof.
  intros Hm. constructor; cbn; [done|by rewrite holders_idle|]. destruct m; cbn in *; lia.
Qed.

Lemma inv_step m s s' : limit_ok m -> inv m s -> step s s' -> inv m s'.
Proof.
  intros Hm [Hmax Hc Hb] Hs. destruct Hs as [g ts i p sp g' p' Hi Ht]. cbn in *.
  pose proof (holders_insert ts i p p' Hi) as Hins. pose proof (holders_lookup ts i p Hi) as Hl.
  destruct p as [|current|[]|]; cbn [task_step weight] in *; rewrite ?Hmax in Ht.
  - destruct m; injection Ht as <- <-; constructor; cbn in *; lia || done.
  - destruct m as [m|]; [|injection Ht as <- <-; constructor; cbn in *; lia || done].
    destruct (current <? m) eqn:E; [|injection Ht as <- <-; constructor; cbn in *; lia || done].
    destruct (_ && _) eqn:Ec; injection Ht as <- <-; bool_hyps;
      constructor; cbn in *; lia || done.
  - injection Ht as <- <-. unfold wrap_u32. cbn in Hm.
    assert (0 <= active g - 1 < 2 ^ 32) by (destruct m; cbn in Hm; lia).
    rewrite Z.mod_small by done. constructor; cbn in *; [done|lia|]. destruct m; lia.
  - injection Ht as <- <-. constructor; cbn in *; lia || done.
  - injection Ht as <- <-. constructor; cbn in *; lia || done.
Qed.

Lemma inv_reachable m n s : limit_ok m -> reachable m n s -> inv m s.
Proof.
  intros Hm Hr. unfold reachable in Hr.
  assert (Hgen : forall s0 s1, rtc step s0 s1 -> inv m s0 -> inv m s1).
  { induction 1 as [|x y z Hxy Hyz IH]; [done|]. intros Hi. apply IH. by apply (inv_step m x y). }
  by apply (Hgen _ _ Hr), inv_initial.
Qed.

(** ** Properties *)

(** C8: the gate never admits more sessions than its limit. In every state that
    any number of tasks can reach by interleaving the atomic operations of
    [try_acquire] and of dropping permits, with spurious compare-exchange failures,
    the shared counter equals the number of counted permits held and is at most the
    limit; the counter never wraps below zero. *)
Theorem gate_limit_respected (m : Z) (n : nat) (s : system)
    (Hm : 0 <= m < 2 ^ 32) (Hr : reachable (Some m) n s) :
  active (gate s) = holders (tasks s) /\ 0 <= active (gate s) <= m.
Proof.
  pose proof (inv_reachable (Some m) n s Hm Hr) as [_ Hc Hb]. cbn in Hb.
  pose proof (holders_nonneg (tasks s)). lia.
Qed.

Lemma gate_limit_respected_witness :
  exists s, reachable (Some 1) 2 s /\ tasks s = [Holding true; Refused] /\ active (gate s) <= 1.
Proof.
  assert (Hr : reachable (Some 1) 2
    {| gate := {| max := Some 1; active := 1 |}; tasks := [Holding true; Refused] |}).
  { apply (exec_all_rtc [(0, false); (1, false); (0, false); (1, false); (1, false)]%nat).
    reflexivity. }
  eexists. split; [exact Hr|]. split; [reflexivity|].
  apply (gate_limit_respected 1 2 _ ltac:(lia) Hr).
Defined.

(** permits are not leaked and free slots are found. Once no task holds a
    counted permit the counter is back at zero; and from every reachable state a
    task that enters the gate while the others pause gets a permit when a slot is
    free, and is refused when none is. *)
Theorem gate_slots_reusable (m : Z) (n i : nat) (s : system)
    (Hm : 0 <= m < 2 ^ 32) (Hr : reachable (Some m) n s) (Hi : tasks s !! i = Some Idle) :
  (Forall (fun p => weight p = 0) (tasks s) -> active (gate s) = 0)
  /\ exists s', rtc step s s'
      /\ tasks s' !! i = Some (if active (gate s) <? m then Holding true else Refused)
      /\ (forall j, j <> i -> tasks s' !! j = tasks s !! j).
Proof.
  pose proof (inv_reachable (Some m) n s Hm Hr) as [Hmax Hc Hb]. cbn in Hb. split.
  - rewrite Hc. clear. induction (tasks s) as [|p ts IH]; [done|]. intros [Hp Ht]%Forall_cons.
    cbn. rewrite Hp, (IH Ht). done.
  - destruct s as [g ts]. cbn in *. pose proof (lookup_lt_Some _ _ _ Hi) as Hlt.
    set (ts1 := <[i := Trying (active g)]> ts).
    assert (Hi1 : ts1 !! i = Some (Trying (active g))) by by apply list_lookup_insert_eq.
    assert (H1 : step {| gate := g; tasks := ts |} {| gate := g; tasks := ts1 |}).
    { apply (step_task g ts i Idle false); [done|]. cbn. by rewrite Hmax. }
    destruct (active g <? m) eqn:E.
    + exists {| gate := set_active g (active g + 1); tasks := <[i := Holding true]> ts1 |}. split_and!.
      * eapply rtc_l; [exact H1|]. apply rtc_once. apply (step_task g ts1 i (Trying (active g)) false); [done|].
        cbn. by rewrite Hmax, E, Z.eqb_refl.
      * cbn. apply list_lookup_insert_eq. unfold ts1. by rewrite length_insert.
      * intros j Hj. cbn. unfold ts1. by rewrite !list_lookup_insert_ne by done.
    + exists {| gate := g; tasks := <[i := Refused]> ts1 |}. split_and!.
      * eapply rtc_l; [exact H1|]. apply rtc_once. apply (step_task g ts1 i (Trying (active g)) false); [done|].
        cbn. by rewrite Hmax, E.
      * cbn. apply list_lookup_insert_eq. unfold ts1. by rewrite length_insert.
      * intros j Hj. cbn. unfold ts1. by rewrite !list_lookup_insert_ne by done.
Qed.

Lemma gate_slots_reusable_witness :
  exists s', rtc step (initial (Some 3) 2) s' /\ tasks s' !! 1%nat = Some (Holding true).
Proof.
  destruct (gate_slots_reusable 3 2 1 (initial (Some 3) 2)) as (_ & s' & H1 & H2 & _).
  - lia.
  - apply rtc_refl.
  - reflexivity.
  - exists s'. split; [exact H1|exact H2].
Defined.
