(* ===== verification/AuthRate.v ===== *)
(** * Rate limiting of failed authentications
    Models crates/skadi-server/src/auth_rate_limit.rs. The table of per-address
    states is a finite map; the lock makes each operation atomic, so a history is a
    sequence of operations with the instants at which they took the lock.
    Instants and durations are nanoseconds; [Instant + Duration] panics beyond the
    range of the platform's clock, and a panic while the lock is held poisons the
    mutex, whose later users panic too. *)

From Stdlib Require Import Ascii String.
From stdpp Require Import base list list_numbers numbers strings gmap fin_maps.
From S2P Require Import Prelude Core Io.

#[export] Instance Ipv4Addr_countable : Countable Ipv4Addr :=
  inj_countable' (fun a => (o0 a, o1 a, o2 a, o3 a)) (fun '(a, b, c, d) => Ipv4 a b c d)
    ltac:(by intros []).

#[export] Instance IpAddr_countable : Countable IpAddr :=
  inj_countable' (fun a => match a with V4 ip => inl ip | V6 o => inr o end)
    (fun s => match s with inl ip => V4 ip | inr o => V6 o end) ltac:(by intros []).

Definition NANOS : Z := 1000000000.
Definition DURATION_MAX : Z := (2 ^ 64 - 1) * NANOS + 999999999.

(** [Duration::from_secs], [Duration::saturating_mul], [Instant::duration_since]. *)
Definition from_secs (s : Z) : Z := s * NANOS.
Definition saturating_mul (d m : Z) : Z := Z.min (d * m) DURATION_MAX.
Definition duration_since (now earlier : Z) : Z := Z.max 0 (now - earlier).

(** [u32::saturating_add]. *)
Definition saturating_add_u32 (a b : Z) : Z := Z.min (a + b) (2 ^ 32 - 1).

(** [Instant + Duration] on a clock of signed 64-bit seconds; [None] is the panic. *)
Definition INSTANT_MAX : Z := (2 ^ 63 - 1) * NANOS + 999999999.
Definition instant_add (now d : Z) : option Z := if now + d <=? INSTANT_MAX then Some (now + d) else None.

Record AuthRateLimitConfig := {
  arl_enabled : bool;
  arl_max_failures : option Z;
  arl_window_secs : Z;
  arl_ban_base_secs : Z;
  arl_ban_max_secs : Z
}.

Record IpState := {
  failures : Z;
  window_start : Z;
  blocked_until : option Z;
  ban_level : Z
}.

Record LimiterInner := {
  max_failures : Z;
  window : Z;
  ban_base : Z;
  ban_max : Z
}.

Abbreviation states := (gmap IpAddr IpState).

(** [Mutex<HashMap<IpAddr, IpState>>]: [None] when it is poisoned. *)
Abbreviation states_mutex := (option states).

Definition from_config (config : AuthRateLimitConfig) : option (LimiterInner * states_mutex) :=
  if negb (arl_enabled config) then None else
  match arl_max_failures config with
  | Some n =>
    if 0 <? n then
      Some ({| max_failures := n; window := from_secs (arl_window_secs config);
               ban_base := from_secs (arl_ban_base_secs config);
               ban_max := from_secs (arl_ban_max_secs config) |}, Some ∅)
    else None
  | None => None
  end.

Section Limiter.
Context (lim : LimiterInner).

(** The closure of [retain]: whether an entry survives. *)
Definition keep_entry (now : Z) (state : IpState) : bool :=
  let window_alive := duration_since now (window_start state) <? window lim in
  let ban_active := match blocked_until state with Some until => now <? until | None => false end in
  window_alive || ban_active || (0 <? failures state).

Definition cleanup_expired (guard : states) (now : Z) : states :=
  filter (fun kv => keep_entry now kv.2 = true) guard.

(** After [lock().expect(..)]. *)
Definition is_blocked (guard : states) (ip : IpAddr) (now : Z) : bool * states :=
  let guard := cleanup_expired guard now in
  match guard !! ip with
  | Some state =>
    match blocked_until state with
    | Some until =>
      if now <? until then (true, guard)
      else (false, <[ip := {| failures := failures state; window_start := window_start state;
                              blocked_until := None; ban_level := ban_level state |}]> guard)
    | None => (false, guard)
    end
  | None => (false, guard)
  end.

Definition ban_for (level : Z) : Z :=
  let multiplier := Z.shiftl 1 (Z.min level 10) in
  Z.min (saturating_mul (ban_base lim) multiplier) (ban_max lim).

(** The body of [record_failure] on the entry of the address; [None] is the panic of
    [now + ban]. *)
Definition fail_entry (state : IpState) (now : Z) : option IpState :=
  let state :=
    if window lim <=? duration_since now (window_start state)
    then {| failures := 0; window_start := now;
            blocked_until := blocked_until state; ban_level := ban_level state |}
    else state in
  let n := failures state + 1 in
  if n <? max_failures lim
  then Some {| failures := n; window_start := window_start state;
               blocked_until := blocked_until state; ban_level := ban_level state |}
  else
    let level := saturating_add_u32 (ban_level state) 1 in
    until ← instant_add now (ban_for level);
    Some {| failures := 0; window_start := now; blocked_until := Some until; ban_level := level |}.

Definition fresh_entry (now : Z) : IpState :=
  {| failures := 0; window_start := now; blocked_until := None; ban_level := 0 |}.

(** After [lock().expect(..)]: the new table, or the panic, which poisons the mutex. *)
Definition record_failure (guard : states) (ip : IpAddr) (now : Z) : states_mutex :=
  let guard := cleanup_expired guard now in
  let state := default (fresh_entry now) (guard !! ip) in
  state ← fail_entry state now;
  Some (<[ip := state]> guard).

(** ** Histories *)

Inductive event :=
| Failure (ip : IpAddr) (now : Z)
| Check (ip : IpAddr) (now : Z).

Definition event_time (e : event) : Z := match e with Failure _ t | Check _ t => t end.

(** An operation takes the lock: on a poisoned mutex it panics. *)
Definition apply_event (m : states_mutex) (e : event) : states_mutex :=
  guard ← m;
  match e with
  | Failure ip now => record_failure guard ip now
  | Check ip now => Some (is_blocked guard ip now).2
  end.

Definition run (m : states_mutex) (es : list event) : states_mutex := foldl apply_event m es.

Definition is_failure_of (ip : IpAddr) (e : event) : bool :=
  match e with Failure ip' _ => bool_decide (ip' = ip) | Check _ _ => false end.

(** The instants at which [ip] failed. *)
Definition failure_times (ip : IpAddr) (es : list event) : list Z :=
  omap (fun e => if is_failure_of ip e then Some (event_time e) else None) es.

(** ** Lemmas *)

Lemma cleanup_lookup guard now ip :
  cleanup_expired guard now !! ip =
    match guard !! ip with
    | Some st => if keep_entry now st then Some st else None
    | None => None
    end.
Proof.
  unfold cleanup_expired. rewrite map_lookup_filter. destruct (guard !! ip) as [st|]; cbn; [|done].
  destruct (keep_entry now st) eqn:E; [by rewrite option_guard_True|by rewrite option_guard_False].
Qed.

Lemma is_blocked_iff guard ip now :
  (is_blocked guard ip now).1 = true <->
  exists st until, guard !! ip = Some st /\ blocked_until st = Some until /\ now < until.
Proof.
  unfold is_blocked. rewrite cleanup_lookup. destruct (guard !! ip) as [st|] eqn:Hg; [|naive_solver].
  destruct (keep_entry now st) eqn:Hk.
  - destruct (blocked_until st) as [u|] eqn:Hb; [|naive_solver].
    destruct (now <? u) eqn:E; bool_hyps; cbn; naive_solver lia.
  - split; [done|]. intros (st' & u & [= <-] & Hu & Hlt). exfalso.
    unfold keep_entry in Hk. rewrite Hu in Hk. apply orb_false_iff in Hk as [Hk _].
    apply orb_false_iff in Hk as [_ Hk]. bool_hyps. lia.
Qed.

(** What an operation does to the entry of an address: it may drop it, a check clears a
    ban that is over, a failure of this address goes to [fail_entry]. *)
Lemma apply_event_lookup guard e ip guard' :
  apply_event (Some guard) e = Some guard' ->
  if is_failure_of ip e
  then exists st, fail_entry (default (fresh_entry (event_time e)) (cleanup_expired guard (event_time e) !! ip))
                    (event_time e) = Some st /\ guard' !! ip = Some st
  else guard' !! ip = cleanup_expired guard (event_time e) !! ip
       \/ exists st u, cleanup_expired guard (event_time e) !! ip = Some st /\ blocked_until st = Some u
            /\ u <= event_time e
            /\ guard' !! ip = Some {| failures := failures st; window_start := window_start st;
                                     blocked_until := None; ban_level := ban_level st |}.
Proof.
  destruct e as [ip' now|ip' now]; cbn [apply_event mbind option_bind is_failure_of event_time].
  - unfold record_failure. destruct (fail_entry _ _) as [st|] eqn:Hf; [|done]. intros [= <-].
    case_bool_decide as He; [subst ip'; exists st; by rewrite lookup_insert_eq|].
    left. by rewrite lookup_insert_ne.
  - intros [= <-]. unfold is_blocked. destruct (cleanup_expired guard now !! ip') as [st|] eqn:Hs; [|by left].
    destruct (blocked_until st) as [u|] eqn:Hb; [|by left]. destruct (now <? u) eqn:E; [by left|]. bool_hyps. cbn [snd].
    destruct (decide (ip' = ip)) as [->|Hne]; [|left; by rewrite lookup_insert_ne].
    right. exists st, u. rewrite lookup_insert_eq. done.
Qed.

Lemma run_none es : run None es = None.
Proof. induction es; [done|]. cbn. done. Qed.

Lemma run_cons m e es : run m (e :: es) = run (apply_event m e) es.
Proof. done. Qed.

(** An invariant of every operation that does not panic is one of every history. *)
Lemma run_inv (P : states -> Prop) guard es guard' :
  (forall g e g', e ∈ es -> P g -> apply_event (Some g) e = Some g' -> P g') ->
  P guard -> run (Some guard) es = Some guard' -> P guard'.
Proof.
  revert guard. induction es as [|e es IH]; intros guard Hs Hp H; [by injection H as <-|].
  rewrite run_cons in H. destruct (apply_event (Some guard) e) as [g|] eqn:He; [|by rewrite run_none in H].
  apply (IH g); [|eapply Hs; [left|done..]|done]. intros g1 e1 g2 Hin. apply Hs. by right.
Qed.

Lemma apply_event_other guard e ip guard' :
  is_failure_of ip e = false -> guard !! ip = None -> apply_event (Some guard) e = Some guard' -> guard' !! ip = None.
Proof.
  intros He Hg H. apply (apply_event_lookup _ _ ip) in H. rewrite He, cleanup_lookup, Hg in H. naive_solver.
Qed.

(** An entry that counts failures and is not banned is left as it is. *)
Lemma apply_event_keeps guard e ip st guard' :
  is_failure_of ip e = false -> guard !! ip = Some st -> 0 < failures st -> blocked_until st = None ->
  apply_event (Some guard) e = Some guard' -> guard' !! ip = Some st.
Proof.
  intros He Hg Hf Hb H. apply (apply_event_lookup _ _ ip) in H. rewrite He, cleanup_lookup, Hg in H.
  assert (Hk : keep_entry (event_time e) st = true)
    by (unfold keep_entry; rewrite (proj2 (Z.ltb_lt _ _) Hf); by rewrite orb_true_r).
  rewrite Hk in H. naive_solver.
Qed.

(** While the failures of an address stay below the limit and inside one window,
    its entry counts them. *)
Definition counted (ip : IpAddr) (w k : Z) (guard : states) : Prop :=
  if k =? 0 then guard !! ip = None
  else guard !! ip = Some {| failures := k; window_start := w; blocked_until := None; ban_level := 0 |}.

Lemma counted_other ip w k guard e guard' :
  0 <= k -> is_failure_of ip e = false -> counted ip w k guard -> apply_event (Some guard) e = Some guard' ->
  counted ip w k guard'.
Proof.
  unfold counted. intros Hk He. destruct (k =? 0) eqn:E; bool_hyps; [by apply apply_event_other|].
  intros Hg. apply apply_event_keeps; cbn; done || lia.
Qed.

(** One more failure, at [now], when [k] are counted since [w]. *)
Lemma counted_failure ip w k guard now :
  0 <= k -> 0 < window lim -> (k = 0 -> now = w) -> w <= now < w + window lim ->
  counted ip w k guard ->
  fail_entry (default (fresh_entry now) (cleanup_expired guard now !! ip)) now =
    if k + 1 <? max_failures lim
    then Some {| failures := k + 1; window_start := w; blocked_until := None; ban_level := 0 |}
    else until ← instant_add now (ban_for 1);
         Some {| failures := 0; window_start := now; blocked_until := Some until; ban_level := 1 |}.
Proof.
  intros Hk Hw H0 Hin Hc. unfold counted in Hc.
  assert (He : default (fresh_entry now) (cleanup_expired guard now !! ip)
    = {| failures := k; window_start := w; blocked_until := None; ban_level := 0 |}).
  { rewrite cleanup_lookup. destruct (k =? 0) eqn:E; bool_hyps; rewrite Hc.
    - subst k. rewrite H0 by done. done.
    - unfold keep_entry. cbn. rewrite (proj2 (Z.ltb_lt 0 k)) by lia. by rewrite orb_true_r. }
  rewrite He. unfold fail_entry, duration_since. cbn [failures window_start blocked_until ban_level].
  destruct (window lim <=? Z.max 0 (now - w)) eqn:E; bool_hyps; [lia|]. cbn.
  by destruct (k + 1 <? max_failures lim).
Qed.

Lemma run_counted ip w k guard es guard' :
  0 <= k -> 0 < window lim -> counted ip w k guard ->
  Forall (fun t => w <= t < w + window lim) (failure_times ip es) ->
  (k = 0 -> head (failure_times ip es) = None \/ head (failure_times ip es) = Some w) ->
  k + Z.of_nat (length (failure_times ip es)) < max_failures lim ->
  run (Some guard) es = Some guard' ->
  counted ip w (k + Z.of_nat (length (failure_times ip es))) guard'.
Proof.
  revert k guard. induction es as [|e es IH]; intros k guard Hk Hw Hc Ht Hhd Hlt H.
  { cbn. rewrite Z.add_0_r. by injection H as <-. }
  cbn [failure_times omap list_omap] in *. fold (failure_times ip es) in *. rewrite run_cons in H.
  destruct (apply_event (Some guard) e) as [g|] eqn:Hg; [|by rewrite run_none in H].
  destruct (is_failure_of ip e) eqn:He.
  - destruct e as [ip' now|]; [|done]. cbn in He. bool_hyps. subst ip'. cbn [event_time length] in *.
    apply Forall_cons in Ht as [Hnow Ht].
    assert (Hnow0 : k = 0 -> now = w) by (intros; destruct Hhd; naive_solver).
    pose proof (counted_failure ip w k guard now Hk Hw Hnow0 Hnow Hc) as Hf.
    rewrite (proj2 (Z.ltb_lt (k + 1) (max_failures lim))) in Hf by lia.
    apply (apply_event_lookup _ _ ip) in Hg. cbn [is_failure_of event_time] in Hg.
    rewrite bool_decide_eq_true_2 in Hg by done. destruct Hg as (st & Hst & Hlk). rewrite Hf in Hst. injection Hst as <-.
    replace (k + Z.of_nat (S (length (failure_times ip es))))
      with ((k + 1) + Z.of_nat (length (failure_times ip es))) in * by lia.
    apply (IH (k + 1) g); [lia|done| |done|lia|lia|done]. unfold counted.
    by rewrite (proj2 (Z.eqb_neq (k + 1) 0)) by lia.
  - apply (IH k g); try done. by eapply counted_other.
Qed.

(** *** Bans *)

Lemma shiftl_levels a b : 0 <= a <= b -> Z.shiftl 1 a <= Z.shiftl 1 b.
Proof. intros H. rewrite !Z.shiftl_1_l. apply Z.pow_le_mono_r; lia. Qed.

(** Longer records mean longer bans, up to the maximum. *)
Lemma ban_for_mono a b : 0 <= ban_base lim -> 0 <= a <= b -> ban_for a <= ban_for b.
Proof.
  intros Hb Hab. unfold ban_for, saturating_mul.
  pose proof (shiftl_levels (Z.min a 10) (Z.min b 10) ltac:(lia)) as Hs.
  pose proof (Z.mul_le_mono_nonneg_l _ _ (ban_base lim) Hb Hs). lia.
Qed.

Lemma ban_for_max level : ban_for level <= ban_max lim.
Proof. unfold ban_for. lia. Qed.

(** The address is banned at least until [u], after [level] bans. *)
Definition banned (ip : IpAddr) (u : Z) (guard : states) : Prop :=
  exists st u', guard !! ip = Some st /\ blocked_until st = Some u' /\ u <= u' /\ 1 <= ban_level st.

Lemma banned_blocked ip u guard now : banned ip u guard -> now < u -> (is_blocked guard ip now).1 = true.
Proof. intros (st & u' & Hg & Hb & Hu & _) Hn. apply is_blocked_iff. exists st, u'. split_and!; [done|done|lia]. Qed.

Lemma banned_clean ip u guard now : banned ip u guard -> now < u -> cleanup_expired guard now !! ip = guard !! ip.
Proof.
  intros (st & u' & Hg & Hb & Hu & _) Hn. rewrite cleanup_lookup, Hg. unfold keep_entry. rewrite Hb.
  rewrite (proj2 (Z.ltb_lt now u')) by lia. by rewrite orb_true_r.
Qed.

(** During the ban nothing lifts it: further failures of the address, whose bans are no
    shorter, leave it or extend it. *)
Lemma banned_step ip start guard e guard' :
  0 <= ban_base lim ->
  let u := start + ban_for 1 in
  banned ip u guard -> start <= event_time e < u -> apply_event (Some guard) e = Some guard' -> banned ip u guard'.
Proof.
  intros Hbase u Hb Ht H. pose proof (banned_clean ip u guard (event_time e) Hb ltac:(lia)) as Hc.
  destruct Hb as (st & u' & Hg & Hu & Hle & Hlv). apply (apply_event_lookup _ _ ip) in H. rewrite Hc, Hg in H.
  destruct (is_failure_of ip e).
  - destruct H as (st' & Hf & Hg'). unfold fail_entry in Hf.
    set (st1 := if window lim <=? _ then _ else _) in Hf.
    assert (H1 : blocked_until st1 = Some u' /\ ban_level st1 = ban_level st) by (unfold st1; destruct (window lim <=? _); split; done).
    destruct H1 as [H1 H2]. destruct (_ <? max_failures lim).
    + injection Hf as <-. eexists _, u'. split_and!; [exact Hg'|done|done|]. cbn. lia.
    + destruct (instant_add _ _) as [v|] eqn:Hv; [|done]. cbn in Hf. injection Hf as <-. unfold instant_add in Hv.
      destruct (_ <=? INSTANT_MAX); [|done]. injection Hv as <-.
      pose proof (ban_for_mono 1 (saturating_add_u32 (ban_level st1) 1) Hbase) as Hm.
      assert (1 <= saturating_add_u32 (ban_level st1) 1) by (unfold saturating_add_u32; lia).
      eexists _, _. split_and!; [exact Hg'|reflexivity|unfold u; lia|done].
  - destruct H as [H|(st' & v & [= <-] & Hv & Hlt & _)]; [|rewrite Hu in Hv; injection Hv as <-; lia].
    exists st, u'. done.
Qed.

Lemma banned_run ip start guard es guard' :
  0 <= ban_base lim ->
  let u := start + ban_for 1 in
  banned ip u guard -> Forall (fun e => start <= event_time e < u) es -> run (Some guard) es = Some guard' ->
  banned ip u guard'.
Proof.
  intros Hbase u Hb Ht. apply run_inv; [|done]. intros g e g' Hin. rewrite Forall_forall in Ht.
  pose proof (Ht e Hin). intros Hg Ha. by apply (banned_step ip start g e g').
Qed.

(** Without further failures the ban ends. *)
Definition ban_ends (ip : IpAddr) (u : Z) (guard : states) : Prop :=
  forall st v, guard !! ip = Some st -> blocked_until st = Some v -> v = u.

Lemma ban_ends_step ip u guard e guard' :
  is_failure_of ip e = false -> ban_ends ip u guard -> apply_event (Some guard) e = Some guard' -> ban_ends ip u guard'.
Proof.
  intros He Hb H st v Hg Hv. apply (apply_event_lookup _ _ ip) in H. rewrite He, cleanup_lookup in H.
  destruct H as [H|(st' & w & _ & _ & _ & H)]; rewrite Hg in H; [|by injection H as ->].
  destruct (guard !! ip) as [st'|] eqn:Hg'; [|done]. destruct (keep_entry _ _); [|done]. injection H as ->.
  by apply (Hb st' v).
Qed.

Lemma ban_ends_run ip u guard es guard' :
  failure_times ip es = [] -> ban_ends ip u guard -> run (Some guard) es = Some guard' -> ban_ends ip u guard'.
Proof.
  intros Hn. apply run_inv. intros g e g' Hin Hb. apply ban_ends_step; [|done].
  destruct (is_failure_of ip e) eqn:E; [|done]. exfalso.
  assert (Hx : event_time e ∈ failure_times ip es).
  { apply list_elem_of_omap. exists e. split; [done|]. by rewrite E. }
  rewrite Hn in Hx. by apply not_elem_of_nil in Hx.
Qed.

(** *** Clocks far from their end *)

Definition roomy (now : Z) : Prop := now + ban_max lim <= INSTANT_MAX.

Lemma instant_add_roomy now level : roomy now -> instant_add now (ban_for level) = Some (now + ban_for level).
Proof.
  unfold roomy, instant_add. intros H. pose proof (ban_for_max level). by rewrite (proj2 (Z.leb_le _ _)) by lia.
Qed.

Lemma apply_event_roomy guard e : roomy (event_time e) -> is_Some (apply_event (Some guard) e).
Proof.
  intros Hr. destruct e as [ip now|ip now]; cbn [apply_event mbind option_bind]; [|by eexists].
  unfold record_failure, fail_entry. cbn in Hr. case_match; cbn; [by eexists|].
  rewrite instant_add_roomy by done. by eexists.
Qed.

Lemma run_roomy guard es : Forall (fun e => roomy (event_time e)) es -> is_Some (run (Some guard) es).
Proof.
  revert guard. induction es as [|e es IH]; intros guard H; [by eexists|]. inversion_clear H as [|? ? H1 H2].
  rewrite run_cons. destruct (apply_event_roomy guard e H1) as [g ->]. by apply IH.
Qed.
End Limiter.

Definition is_auth_failure (err : anyhow) : bool :=
  let msg := anyhow_to_string err in
  str_contains "authentication failed" msg || str_contains "unsupported flow" msg.

(** ** Properties *)

Definition demo_limiter : LimiterInner :=
  {| max_failures := 2; window := from_secs 600; ban_base := from_secs 60; ban_max := from_secs 3600 |}.

Definition demo_ip : IpAddr := V4 (Ipv4 203 0 113 1).

(** nobody is banned for the failures of others. An address unknown to the
    table that never fails stays unknown through every history of operations on
    other addresses that leaves the limiter alive, and is never reported blocked. *)
Theorem auth_limiter_isolates (lim : LimiterInner) (ip : IpAddr) (guard guard' : states) (es : list event)
    (t : Z) (Hnew : guard !! ip = None) (Hnone : failure_times ip es = [])
    (Hrun : run lim (Some guard) es = Some guard') :
  guard' !! ip = None /\ (is_blocked lim guard' ip t).1 = false.
Proof.
  assert (Hr : guard' !! ip = None).
  { revert guard Hnew Hnone Hrun. induction es as [|e es IH]; intros guard Hg Hn H; [by injection H as <-|].
    rewrite run_cons in H. destruct (apply_event lim (Some guard) e) as [g|] eqn:Ha; [|by rewrite run_none in H].
    cbn [failure_times omap list_omap] in Hn. destruct (is_failure_of ip e) eqn:He; [done|].
    apply (IH g); [|exact Hn|done]. by eapply apply_event_other. }
  split; [done|]. destruct (is_blocked lim _ ip t).1 eqn:E; [|done].
  apply is_blocked_iff in E as (st & u & Hs & _). congruence.
Qed.

Lemma auth_limiter_isolates_witness :
  exists g, run demo_limiter (Some ∅) [Failure demo_ip 5; Failure demo_ip 6; Failure demo_ip 7] = Some g
    /\ (is_blocked demo_limiter g (V4 (Ipv4 8 8 8 8)) 8).1 = false.
Proof.
  eexists. split; [reflexivity|].
  apply (auth_limiter_isolates demo_limiter (V4 (Ipv4 8 8 8 8)) ∅ _
    [Failure demo_ip 5; Failure demo_ip 6; Failure demo_ip 7] 8); reflexivity.
Defined.

(** a pending failure count is never forgotten. Once an address has a
    positive count below the limit and no ban, its entry survives every later
    history of operations on other addresses, however much time passes: the cleanup
    does not bound the table. *)
Theorem auth_limiter_entry_never_expires (lim : LimiterInner) (ip : IpAddr) (guard guard' : states)
    (es : list event) (st : IpState)
    (Hg : guard !! ip = Some st) (Hf : 0 < failures st) (Hb : blocked_until st = None)
    (Hnone : failure_times ip es = []) (Hrun : run lim (Some guard) es = Some guard') :
  guard' !! ip = Some st.
Proof.
  revert guard Hg Hnone Hrun. induction es as [|e es IH]; intros guard Hg Hn H; [by injection H as <-|].
  rewrite run_cons in H. destruct (apply_event lim (Some guard) e) as [g|] eqn:Ha; [|by rewrite run_none in H].
  cbn [failure_times omap list_omap] in Hn. destruct (is_failure_of ip e) eqn:He; [done|].
  apply (IH g); [|exact Hn|done]. by eapply apply_event_keeps.
Qed.

Lemma auth_limiter_entry_never_expires_witness :
  exists g, run demo_limiter (record_failure demo_limiter ∅ demo_ip 5)
    [Check (V4 (Ipv4 8 8 8 8)) (from_secs 100000000)] = Some g
  /\ g !! demo_ip = Some {| failures := 1; window_start := 5; blocked_until := None; ban_level := 0 |}.
Proof.
  eexists. split; [reflexivity|].
  apply (auth_limiter_entry_never_expires demo_limiter demo_ip
    {[demo_ip := {| failures := 1; window_start := 5; blocked_until := None; ban_level := 0 |}]} _
    [Check (V4 (Ipv4 8 8 8 8)) (from_secs 100000000)]); reflexivity.
Defined.

(** a ban that the clock cannot represent takes the limiter down. When the failure
    that should ban an address comes so late, or the ban is so long, that its end lies
    beyond the clock's range, recording it panics with the lock held: from then on
    every operation of the limiter, for any address, panics. *)
Theorem auth_limiter_overflow_poisons (lim : LimiterInner) (ip : IpAddr) (guard : states) (now : Z)
    (es : list event)
    (Hone : max_failures lim = 1) (Hnew : guard !! ip = None) (Hw : 0 < window lim)
    (Hover : INSTANT_MAX < now + ban_for lim 1) :
  run lim (Some guard) (Failure ip now :: es) = None.
Proof.
  rewrite run_cons. cbn [apply_event mbind option_bind]. unfold record_failure.
  rewrite (counted_failure lim ip now 0 guard now) by (try done; lia).
  rewrite Hone. cbn [Z.add Z.ltb Z.compare Pos.compare Pos.compare_cont]. unfold instant_add.
  rewrite (proj2 (Z.leb_gt _ _)) by lia. cbn. apply run_none.
Qed.

(** The longest ban that the configuration accepts. *)
Definition eternal_limiter : LimiterInner :=
  {| max_failures := 1; window := from_secs 600; ban_base := from_secs (2 ^ 63); ban_max := from_secs (2 ^ 63) |}.

Lemma auth_limiter_overflow_poisons_witness :
  run eternal_limiter (Some ∅) [Failure demo_ip 5; Check (V4 (Ipv4 8 8 8 8)) 6] = None.
Proof.
  apply (auth_limiter_overflow_poisons eternal_limiter demo_ip ∅ 5 [Check (V4 (Ipv4 8 8 8 8)) 6]);
    vm_compute; reflexivity.
Defined.
