(* ===== verification/ApiRate.v ===== *)
(** * The gRPC rate limiter
    Models crates/skadi-server/src/api/rate_limit.rs: a fixed-window counter
    behind a mutex. [check] takes the instant at which it holds the lock; a
    poisoned lock, which answers [Internal], is not reachable since no code panics
    while holding it. *)

From stdpp Require Import base list list_numbers numbers.
From S2P Require Import Prelude.

Record WindowState := { start : Z; count : Z }.

Record ApiRateLimiter := { limit : Z; window : Z; state : WindowState }.

Inductive Status := ResourceExhausted.

Definition NANOS_PER_SEC : Z := 1000000000.

Definition api_limiter_new (limit_per_sec : option Z) (now : Z) : option ApiRateLimiter :=
  match limit_per_sec with
  | Some limit =>
    if 0 <? limit
    then Some {| limit := limit; window := NANOS_PER_SEC; state := {| start := now; count := 0 |} |}
    else None
  | None => None
  end.

Definition check (l : ApiRateLimiter) (now : Z) : res Status unit * ApiRateLimiter :=
  let guard := state l in
  let guard :=
    if window l <=? Z.max 0 (now - start guard) then {| start := now; count := 0 |} else guard in
  if limit l <=? count guard
  then (Err ResourceExhausted, {| limit := limit l; window := window l; state := guard |})
  else (Ok tt, {| limit := limit l; window := window l;
                  state := {| start := start guard; count := count guard + 1 |} |}).

(** A history of checks: how many were admitted, and the limiter after it. *)
Fixpoint checks (l : ApiRateLimiter) (ts : list Z) : Z * ApiRateLimiter :=
  match ts with
  | [] => (0, l)
  | t :: ts =>
    let '(r, l) := check l t in
    let '(n, l) := checks l ts in
    ((match r with Ok _ => 1 | _ => 0 end) + n, l)
  end.

Definition limiter_ok (l : ApiRateLimiter) : Prop :=
  0 < limit l /\ 0 < window l /\ 0 <= count (state l) <= limit l.

(** ** Lemmas *)

Lemma check_ok l now : limiter_ok l -> limiter_ok (check l now).2.
Proof.
  intros (H1 & H2 & H3). unfold check.
  destruct (_ <=? Z.max _ _); cbn; destruct (_ <=? _) eqn:E; bool_hyps; repeat split; cbn in *; lia.
Qed.

Lemma check_config l now : limit (check l now).2 = limit l /\ window (check l now).2 = window l.
Proof. unfold check. destruct (_ <=? Z.max _ _); cbn; by destruct (_ <=? _). Qed.

(** Inside the current window only the remaining budget is admitted. *)
Lemma checks_in_window l ts :
  limiter_ok l -> Forall (fun t => t < start (state l) + window l) ts ->
  (checks l ts).1 <= limit l - count (state l) /\ limiter_ok (checks l ts).2.
Proof.
  revert l. induction ts as [|t ts IH]; intros l Hl Ht; cbn [checks].
  { split; [|done]. destruct Hl as (_ & _ & ?). cbn. lia. }
  apply Forall_cons_1 in Ht as [Ht Hts]. pose proof (check_ok l t Hl) as Hl'.
  unfold check in *. destruct Hl as (H1 & H2 & H3).
  destruct (window l <=? _) eqn:E; bool_hyps; [lia|].
  destruct (limit l <=? count (state l)) eqn:E2; bool_hyps; cbn in Hl'.
  - specialize (IH _ Hl' Hts). destruct (checks _ ts) as [n l']. cbn in *. split; [lia|apply IH].
  - specialize (IH _ Hl' Hts). destruct (checks _ ts) as [n l']. cbn in *. split; [lia|apply IH].
Qed.

(** Every history of instants shorter than a window admits at most twice the limit. *)
Lemma checks_sliding l ts a :
  limiter_ok l -> Forall (fun t => a <= t < a + window l) ts ->
  (checks l ts).1 <= (limit l - count (state l)) + limit l.
Proof.
  revert l. induction ts as [|t ts IH]; intros l Hl Ht; cbn [checks].
  { destruct Hl as (? & _ & ?). cbn. lia. }
  apply Forall_cons_1 in Ht as [Ht Hts]. pose proof (check_ok l t Hl) as Hl'.
  unfold check in *. destruct Hl as (H1 & H2 & H3).
  destruct (window l <=? Z.max 0 (t - start (state l))) eqn:E; bool_hyps; cbn [count start] in *.
  - assert (Hw : Forall (fun t' => t' < t + window l) ts).
    { eapply Forall_impl; [|exact Hts]. cbn. lia. }
    replace (limit l <=? 0) with false in * by (symmetry; apply Z.leb_gt; lia).
    pose proof (checks_in_window _ ts Hl' Hw) as [Hc _].
    destruct (checks _ ts) as [n l']. cbn in *. lia.
  - destruct (limit l <=? count (state l)) eqn:E2; bool_hyps; cbn in Hl'.
    + specialize (IH _ Hl' Hts). destruct (checks _ ts) as [n l']. cbn in *. lia.
    + specialize (IH _ Hl' Hts). destruct (checks _ ts) as [n l']. cbn in *. lia.
Qed.

(** ** Properties *)

(** C33: the API limiter bounds the request rate. Starting from a limiter the
    server creates, whatever checks happened before, the checks whose instants fit
    in one window length admit at most twice the limit, and those inside the
    limiter's current window at most the limit. *)
Theorem api_limiter_bounds_rate (limit_per_sec now a : Z) (l0 l : ApiRateLimiter) (before ts : list Z)
    (Hnew : api_limiter_new (Some limit_per_sec) now = Some l0)
    (Hl : l = (checks l0 before).2)
    (Hts : Forall (fun t => a <= t < a + NANOS_PER_SEC) ts) :
  (checks l ts).1 <= 2 * limit_per_sec
  /\ (Forall (fun t => t < start (state l) + NANOS_PER_SEC) ts -> (checks l ts).1 <= limit_per_sec).
Proof.
  unfold api_limiter_new in Hnew. destruct (0 <? limit_per_sec) eqn:E; [|done]. bool_hyps.
  assert (Hgen : forall ts l, limiter_ok l -> limiter_ok (checks l ts).2
    /\ limit (checks l ts).2 = limit l /\ window (checks l ts).2 = window l).
  { clear. induction ts as [|t ts IH]; intros l Hl; [done|]. cbn [checks].
    pose proof (check_ok l t Hl) as Hl'. pose proof (check_config l t) as [Hc1 Hc2].
    destruct (check l t) as [r l1]. cbn in *. specialize (IH l1 Hl') as (I1 & I2 & I3).
    destruct (checks l1 ts) as [n l2]. cbn in *. split_and!; [done|congruence|congruence]. }
  injection Hnew as <-.
  destruct (Hgen before {| limit := limit_per_sec; window := NANOS_PER_SEC;
                           state := {| start := now; count := 0 |} |}) as (Hok & Hlim & Hwin).
  { repeat split; cbn; unfold NANOS_PER_SEC; lia. }
  rewrite <- Hl in *. cbn in Hlim, Hwin. pose proof Hok as (_ & _ & Hcnt). split.
  - rewrite <- Hwin in Hts. pose proof (checks_sliding l ts a Hok Hts). lia.
  - intros Hin. rewrite <- Hwin in Hin. pose proof (checks_in_window l ts Hok Hin). lia.
Qed.

Definition demo_api_limiter : ApiRateLimiter :=
  {| limit := 2; window := NANOS_PER_SEC; state := {| start := 0; count := 0 |} |}.

Lemma api_limiter_bounds_rate_witness :
  api_limiter_new (Some 2) 0 = Some demo_api_limiter /\ (checks demo_api_limiter [1; 2; 3; 4; 5]).1 <= 4.
Proof.
  split; [reflexivity|].
  apply (api_limiter_bounds_rate 2 0 1 demo_api_limiter demo_api_limiter [] [1; 2; 3; 4; 5]);
    [reflexivity|reflexivity|].
  repeat (apply Forall_cons_2; [vm_compute; split; [discriminate|reflexivity]|]). apply Forall_nil_2.
Defined.

(** after a quiet window the API limiter admits again: a check at least one
    window after the start of the current one succeeds. *)
Theorem api_limiter_recovers (l : ApiRateLimiter) (now : Z)
    (Hl : limiter_ok l) (Hq : start (state l) + window l <= now) :
  (check l now).1 = Ok tt /\ start (state (check l now).2) = now.
Proof.
  destruct Hl as (H1 & H2 & H3). unfold check.
  destruct (window l <=? _) eqn:E; bool_hyps; [|lia]. cbn.
  destruct (limit l <=? 0) eqn:E2; bool_hyps; [lia|done].
Qed.

Lemma api_limiter_recovers_witness :
  (check {| limit := 1; window := 10; state := {| start := 0; count := 1 |} |} 10).1 = Ok tt.
Proof.
  apply (api_limiter_recovers {| limit := 1; window := 10; state := {| start := 0; count := 1 |} |} 10);
    [repeat split; cbn; lia|cbn; lia].
Defined.
