(* ===== verification/Store.v ===== *)
(** * The user store
    Models crates/skadi-server/src/store.rs: the users and protocol flags shared
    by the protocols, the management API and the reload on SIGHUP. The [RwLock]
    makes each operation atomic, so an operation is a function on the state. The
    store refines a pair of finite maps from names to users. *)

From Stdlib Require Import Ascii String.
From stdpp Require Import base numbers list_numbers list strings gmap fin_maps.
From S2P Require Import Prelude Core Io Socks5 VlessParse VlessConfig.

Record ProtocolConfig := { pc_socks5 : Socks5Config; pc_vless : VlessConfig }.

Record StoreState := {
  vless_enabled : bool;
  socks_enabled : bool;
  socks_auth : AuthMethod;
  socks_bind : bool;
  socks_udp_associate : bool;
  vless_users : list VlessUser;
  socks_users : list UserCredential
}.

Definition reload_from_protocol (state : StoreState) (protocol : ProtocolConfig) : StoreState :=
  {| vless_enabled := vc_enabled (pc_vless protocol);
     socks_enabled := s5_enabled (pc_socks5 protocol);
     socks_auth := s5_auth (pc_socks5 protocol);
     socks_bind := s5_bind (pc_socks5 protocol);
     socks_udp_associate := s5_udp_associate (pc_socks5 protocol);
     vless_users := vc_users (pc_vless protocol);
     socks_users := s5_users (pc_socks5 protocol) |}.

Definition from_protocol (protocol : ProtocolConfig) : StoreState :=
  reload_from_protocol
    {| vless_enabled := vc_enabled (pc_vless protocol);
       socks_enabled := s5_enabled (pc_socks5 protocol);
       socks_auth := s5_auth (pc_socks5 protocol);
       socks_bind := s5_bind (pc_socks5 protocol);
       socks_udp_associate := s5_udp_associate (pc_socks5 protocol);
       vless_users := []; socks_users := [] |} protocol.

Definition vless_config (state : StoreState) : VlessConfig :=
  {| vc_enabled := vless_enabled state; vc_users := vless_users state |}.

Definition socks5_config (state : StoreState) : Socks5Config :=
  {| s5_enabled := socks_enabled state; s5_auth := socks_auth state; s5_users := socks_users state;
     s5_bind := socks_bind state; s5_udp_associate := socks_udp_associate state |}.

Definition vless_user_count (state : StoreState) : Z := Z.of_nat (length (vless_users state)).
Definition socks5_user_count (state : StoreState) : Z := Z.of_nat (length (socks_users state)).

Definition set_vless (state : StoreState) (users : list VlessUser) : StoreState :=
  {| vless_enabled := vless_enabled state; socks_enabled := socks_enabled state;
     socks_auth := socks_auth state; socks_bind := socks_bind state;
     socks_udp_associate := socks_udp_associate state;
     vless_users := users; socks_users := socks_users state |}.

Definition set_socks (state : StoreState) (users : list UserCredential) : StoreState :=
  {| vless_enabled := vless_enabled state; socks_enabled := socks_enabled state;
     socks_auth := socks_auth state; socks_bind := socks_bind state;
     socks_udp_associate := socks_udp_associate state;
     vless_users := vless_users state; socks_users := users |}.

Definition uuid_error_display (e : UuidParseError) : string :=
  match e with
  | BadLength n => "UUID must contain 32 hex digits, got " +:+ fmt_dec n
  | BadHex c => "invalid hex character: " +:+ string_of_bytes (push_char c)
  end.

(** [iter().any(|u| key(u) == k)] and [retain(|u| key(u) != k)]. *)
Definition has_key {U} (key : U -> string) (k : string) (users : list U) : bool :=
  existsb (fun u => bool_decide (key u = k)) users.
Definition drop_key {U} (key : U -> string) (k : string) (users : list U) : list U :=
  List.filter (fun u => negb (bool_decide (key u = k))) users.

Definition add_vless_user (state : StoreState) (user : VlessUser) : res anyhow unit * StoreState :=
  match uuid_parse (vu_id user) with
  | Ok _ =>
    if has_key vu_id (vu_id user) (vless_users state)
    then (Err (bail ("VLESS user already exists: " +:+ vu_id user)), state)
    else (Ok tt, set_vless state (vless_users state ++ [user]))
  | Err e => (Err (bail ("invalid VLESS user id: " +:+ uuid_error_display e)), state)
  | Panic => (Panic, state)
  end.

Definition remove_vless_user (state : StoreState) (id : string) : res anyhow unit * StoreState :=
  let len_before := length (vless_users state) in
  let users := drop_key vu_id id (vless_users state) in
  if (length users =? len_before)%nat
  then (Err (bail ("VLESS user not found: " +:+ id)), set_vless state users)
  else (Ok tt, set_vless state users).

Definition add_socks5_user (state : StoreState) (user : UserCredential) : res anyhow unit * StoreState :=
  if bool_decide (username user = EmptyString)
  then (Err (bail "SOCKS5 username must not be empty"), state) else
  if bool_decide (password user = EmptyString)
  then (Err (bail "SOCKS5 password must not be empty"), state) else
  if has_key username (username user) (socks_users state)
  then (Err (bail ("SOCKS5 user already exists: " +:+ username user)), state)
  else (Ok tt, set_socks state (socks_users state ++ [user])).

Definition remove_socks5_user (state : StoreState) (name : string) : res anyhow unit * StoreState :=
  let len_before := length (socks_users state) in
  let users := drop_key username name (socks_users state) in
  if (length users =? len_before)%nat
  then (Err (bail ("SOCKS5 user not found: " +:+ name)), set_socks state users)
  else (Ok tt, set_socks state users).

(** ** The abstract store: users by name *)

Definition by_key {U} (key : U -> string) (users : list U) : gmap string U :=
  list_to_map (map (fun u => (key u, u)) users).

Record AbstractStore := { a_vless : gmap string VlessUser; a_socks : gmap string UserCredential }.

Definition abstract (state : StoreState) : AbstractStore :=
  {| a_vless := by_key vu_id (vless_users state); a_socks := by_key username (socks_users state) |}.

(** The store's invariant: names are unique. *)
Record store_ok (state : StoreState) : Prop := {
  vless_unique : NoDup (map vu_id (vless_users state));
  socks_unique : NoDup (map username (socks_users state))
}.

(** ** Lemmas on keyed lists *)

Section Keyed.
Context {U : Type} (key : U -> string).

Lemma by_key_keys (users : list U) : (map (fun u => (key u, u)) users).*1 = map key users.
Proof. induction users as [|u users IH]; [done|]. cbn. by f_equal. Qed.

Lemma has_key_iff k users : has_key key k users = true <-> k ∈ map key users.
Proof.
  unfold has_key. rewrite existsb_exists, list_elem_of_In, in_map_iff. split.
  - intros (u & Hu & Hk). exists u. by bool_hyps.
  - intros (u & Hk & Hu). exists u. by rewrite bool_decide_eq_true.
Qed.

Lemma by_key_elem k users : k ∈ map key users <-> is_Some (by_key key users !! k).
Proof.
  unfold by_key. rewrite <- (by_key_keys users). destruct (list_to_map _ !! k) as [u|] eqn:E.
  - split; [by eexists|]. intros _. apply elem_of_list_to_map_2 in E.
    apply list_elem_of_fmap. by exists (k, u).
  - apply not_elem_of_list_to_map_2 in E. split; [done|]. by intros [? ?].
Qed.

Lemma by_key_add u users :
  key u ∉ map key users -> by_key key (users ++ [u]) = <[key u := u]> (by_key key users).
Proof.
  intros Hn. unfold by_key. rewrite map_app. cbn [map].
  rewrite list_to_map_snoc; [done|]. by rewrite by_key_keys.
Qed.

Lemma by_key_drop k users : by_key key (drop_key key k users) = delete k (by_key key users).
Proof.
  unfold by_key, drop_key. induction users as [|u users IH]; cbn [map List.filter list_to_map].
  { cbn. by rewrite delete_empty. }
  case_bool_decide as Hk; cbn [negb].
  - rewrite IH. cbn. rewrite Hk. by rewrite delete_insert_eq.
  - cbn. rewrite IH. by rewrite delete_insert_ne by done.
Qed.

Lemma drop_key_length k users :
  (length (drop_key key k users) =? length users)%nat = negb (has_key key k users).
Proof.
  unfold drop_key, has_key. induction users as [|u users IH]; [done|]. cbn.
  assert (Hle : (length (List.filter (fun u => negb (bool_decide (key u = k))) users) <= length users)%nat)
    by apply List.filter_length_le.
  case_bool_decide; cbn [negb orb length].
  - apply Nat.eqb_neq. lia.
  - exact IH.
Qed.

Lemma drop_key_absent k users : has_key key k users = false -> drop_key key k users = users.
Proof.
  unfold drop_key, has_key. induction users as [|u users IH]; [done|]. cbn.
  case_bool_decide; cbn [orb negb]; [done|]. intros Hk. by rewrite IH.
Qed.

Lemma drop_key_nodup k users : NoDup (map key users) -> NoDup (map key (drop_key key k users)).
Proof.
  unfold drop_key. induction users as [|u users IH]; [done|]. cbn [map List.filter].
  intros Hnd. apply NoDup_cons in Hnd as [Hu Hnd]. destruct (negb _); [|by apply IH].
  cbn [map]. apply NoDup_cons. split; [|by apply IH]. intros Hin. apply Hu.
  apply list_elem_of_In, in_map_iff in Hin as (v & Hv & Hin). apply List.filter_In in Hin as [Hin _].
  apply list_elem_of_In, in_map_iff. by exists v.
Qed.

Lemma add_nodup u users :
  NoDup (map key users) -> key u ∉ map key users -> NoDup (map key (users ++ [u])).
Proof.
  intros Hnd Hu. rewrite map_app. apply NoDup_app. split_and!; [done| |apply NoDup_singleton].
  intros x Hx Hx'. apply list_elem_of_singleton in Hx'. subst. done.
Qed.
End Keyed.

Lemma has_key_false {U} (key : U -> string) k users : has_key key k users = false <-> k ∉ map key users.
Proof. rewrite <- not_true_iff_false, has_key_iff. done. Qed.

(** ** Operations *)

Inductive store_op :=
| AddVless (user : VlessUser)
| RemoveVless (id : string)
| AddSocks (user : UserCredential)
| RemoveSocks (name : string)
| Reload (protocol : ProtocolConfig).

Definition apply_op (state : StoreState) (op : store_op) : res anyhow unit * StoreState :=
  match op with
  | AddVless u => add_vless_user state u
  | RemoveVless id => remove_vless_user state id
  | AddSocks u => add_socks5_user state u
  | RemoveSocks n => remove_socks5_user state n
  | Reload p => (Ok tt, reload_from_protocol state p)
  end.

(** What each operation promises, on the abstract store. *)
Definition op_admissible (a : AbstractStore) (op : store_op) : Prop :=
  match op with
  | AddVless u => (exists v, uuid_parse (vu_id u) = Ok v) /\ a_vless a !! vu_id u = None
  | RemoveVless id => is_Some (a_vless a !! id)
  | AddSocks u => username u <> EmptyString /\ password u <> EmptyString
                  /\ a_socks a !! username u = None
  | RemoveSocks n => is_Some (a_socks a !! n)
  | Reload _ => True
  end.

Definition op_effect (a : AbstractStore) (op : store_op) : AbstractStore :=
  match op with
  | AddVless u => {| a_vless := <[vu_id u := u]> (a_vless a); a_socks := a_socks a |}
  | RemoveVless id => {| a_vless := delete id (a_vless a); a_socks := a_socks a |}
  | AddSocks u => {| a_vless := a_vless a; a_socks := <[username u := u]> (a_socks a) |}
  | RemoveSocks n => {| a_vless := a_vless a; a_socks := delete n (a_socks a) |}
  | Reload p => {| a_vless := by_key vu_id (vc_users (pc_vless p));
                   a_socks := by_key username (s5_users (pc_socks5 p)) |}
  end.

(** A configuration with unique names; the loader does not check this. *)
Definition protocol_ok (p : ProtocolConfig) : Prop :=
  NoDup (map vu_id (vc_users (pc_vless p))) /\ NoDup (map username (s5_users (pc_socks5 p))).

Definition op_ok (op : store_op) : Prop := match op with Reload p => protocol_ok p | _ => True end.

(** The outcome of an operation: success with the promised effect, or an error
    that leaves the store as it was. *)
Definition op_outcome (state : StoreState) (op : store_op) (r : res anyhow unit * StoreState) : Prop :=
  (op_admissible (abstract state) op /\ r.1 = Ok tt /\ abstract r.2 = op_effect (abstract state) op)
  \/ (~ op_admissible (abstract state) op /\ (exists e, r.1 = Err e) /\ r.2 = state).

Lemma lookup_none {U} (key : U -> string) k users :
  has_key key k users = false <-> by_key key users !! k = None.
Proof. by rewrite has_key_false, by_key_elem, eq_None_not_Some. Qed.

Lemma lookup_some {U} (key : U -> string) k users :
  has_key key k users = true <-> is_Some (by_key key users !! k).
Proof. by rewrite has_key_iff, by_key_elem. Qed.

Lemma add_vless_outcome state u :
  op_outcome state (AddVless u) (add_vless_user state u).
Proof.
  unfold op_outcome, add_vless_user. cbn. pose proof (uuid_parse_no_panic (vu_id u)).
  destruct (uuid_parse (vu_id u)) as [v|e|] eqn:Hp; [|right; split_and!; naive_solver|done].
  destruct (has_key vu_id (vu_id u) (vless_users state)) eqn:Hk; [right|left]; cbn.
  - split_and!; [|by eexists|done]. intros [_ Hn]. apply lookup_none in Hn. congruence.
  - split_and!; [by eexists|by apply lookup_none|done|].
    unfold abstract, op_effect. cbn. f_equal. apply by_key_add. by apply has_key_false.
Qed.

Lemma set_vless_same state : set_vless state (vless_users state) = state.
Proof. by destruct state. Qed.

Lemma set_socks_same state : set_socks state (socks_users state) = state.
Proof. by destruct state. Qed.

Lemma remove_vless_outcome state id :
  op_outcome state (RemoveVless id) (remove_vless_user state id).
Proof.
  unfold op_outcome, remove_vless_user. cbn. rewrite drop_key_length.
  destruct (has_key vu_id id (vless_users state)) eqn:Hk; cbn; [left|right].
  - split_and!; [by apply lookup_some|done|]. unfold abstract, op_effect. cbn. f_equal.
    apply by_key_drop.
  - split_and!; [|by eexists|].
    + intros Hs. apply lookup_some in Hs. congruence.
    + rewrite drop_key_absent by done. apply set_vless_same.
Qed.

Lemma add_socks_outcome state u :
  op_outcome state (AddSocks u) (add_socks5_user state u).
Proof.
  unfold op_outcome, add_socks5_user. cbn.
  case_bool_decide as H1; [right; split_and!; naive_solver|].
  case_bool_decide as H2; [right; split_and!; naive_solver|].
  destruct (has_key username (username u) (socks_users state)) eqn:Hk; [right|left]; cbn.
  - split_and!; [|by eexists|done]. intros (_ & _ & Hn). apply lookup_none in Hn. congruence.
  - split_and!; [done|done|by apply lookup_none|done|].
    unfold abstract, op_effect. cbn. f_equal. apply by_key_add. by apply has_key_false.
Qed.

Lemma remove_socks_outcome state name :
  op_outcome state (RemoveSocks name) (remove_socks5_user state name).
Proof.
  unfold op_outcome, remove_socks5_user. cbn. rewrite drop_key_length.
  destruct (has_key username name (socks_users state)) eqn:Hk; cbn; [left|right].
  - split_and!; [by apply lookup_some|done|]. unfold abstract, op_effect. cbn. f_equal.
    apply by_key_drop.
  - split_and!; [|by eexists|].
    + intros Hs. apply lookup_some in Hs. congruence.
    + rewrite drop_key_absent by done. apply set_socks_same.
Qed.

Lemma apply_op_outcome state op : op_outcome state op (apply_op state op).
Proof.
  destruct op as [u|id|u|n|p]; cbn [apply_op].
  - apply add_vless_outcome.
  - apply remove_vless_outcome.
  - apply add_socks_outcome.
  - apply remove_socks_outcome.
  - by left.
Qed.

Lemma apply_op_ok state op : store_ok state -> op_ok op -> store_ok (apply_op state op).2.
Proof.
  intros [Hv Hs] Hok. destruct op as [u|id|u|n|p]; cbn [apply_op op_ok] in *.
  - unfold add_vless_user. destruct (uuid_parse _); [|by constructor..].
    destruct (has_key _ _ _) eqn:Hk; [by constructor|]. constructor; cbn; [|done].
    apply add_nodup; [done|by apply has_key_false].
  - unfold remove_vless_user. destruct (_ =? _)%nat; constructor; cbn; auto using drop_key_nodup.
  - unfold add_socks5_user. repeat case_bool_decide; try by constructor.
    destruct (has_key _ _ _) eqn:Hk; [by constructor|]. constructor; cbn; [done|].
    apply add_nodup; [done|by apply has_key_false].
  - unfold remove_socks5_user. destruct (_ =? _)%nat; constructor; cbn; auto using drop_key_nodup.
  - destruct Hok. by constructor.
Qed.

Definition run_ops (state : StoreState) (ops : list store_op) : StoreState :=
  foldl (fun s op => (apply_op s op).2) state ops.

(** ** Properties *)

(** C18: the user store refines a pair of finite maps. Every operation succeeds
    exactly when it is admissible on the maps (a valid new UUID, a present name, a
    new user with non-empty name and password), then acts on them as insertion,
    deletion or replacement; otherwise it answers an error and changes nothing. *)
Theorem store_refines_maps (state : StoreState) (op : store_op) :
  op_outcome state op (apply_op state op).
Proof. apply apply_op_outcome. Qed.

(** user names stay unique. Through any sequence of management operations
    and reloads of configurations with unique names, no VLESS id and no SOCKS5 user
    name occurs twice in the store. *)
Theorem store_names_unique (state : StoreState) (ops : list store_op)
    (Hs : store_ok state) (Hops : Forall op_ok ops) :
  store_ok (run_ops state ops).
Proof.
  revert state Hs. induction Hops as [|op ops Hop Hops IH]; intros state Hs; [done|].
  change (run_ops state (op :: ops)) with (run_ops (apply_op state op).2 ops).
  apply IH. by apply apply_op_ok.
Qed.

Definition demo_store : StoreState :=
  from_protocol {| pc_socks5 := socks5_config_default; pc_vless := {| vc_enabled := true; vc_users := [] |} |}.

Lemma store_names_unique_witness :
  store_ok (run_ops demo_store [AddVless demo_user; AddVless demo_user;
                                AddSocks {| username := "bob"; password := "x" |};
                                RemoveVless "none"]).
Proof.
  apply (store_names_unique demo_store).
  - constructor; apply NoDup_nil_2.
  - repeat (apply Forall_cons_2; [exact I|]). apply Forall_nil_2.
Defined.

(** an added user can log in, a removed one cannot under that id. After a
    successful [add_vless_user] the store's configuration authenticates the user's
    UUID; after [remove_vless_user], a UUID none of the remaining ids spells is no
    longer authenticated. *)
Theorem store_controls_authentication `{ConstantTimeEq} (state : StoreState) (user : VlessUser)
    (v : Uuid) (id : string)
    (Hv : uuid_parse (vu_id user) = Ok v) (Hadd : (add_vless_user state user).1 = Ok tt) :
  (exists u, authenticate (vless_config (add_vless_user state user).2) (uuid_bytes v) = Some u)
  /\ (Forall (fun u => vu_id u = id \/ uuid_parse (vu_id u) <> Ok v) (vless_users state) ->
      authenticate (vless_config (remove_vless_user state id).2) (uuid_bytes v) = None).
Proof.
  pose proof (uuid_parse_ok _ _ Hv) as Hok. destruct v as [cand]. cbn [uuid_bytes] in *. split.
  - unfold add_vless_user in *. rewrite Hv in *. destruct (has_key _ _ _); [done|]. cbn.
    pose proof (authenticate_users_spec (vless_users state ++ [user]) cand Hok) as Ha.
    unfold authenticate. cbn. destruct (authenticate_users _ cand) as [u|]; [by exists u|].
    apply Forall_app in Ha as [_ Ha]. apply Forall_inv in Ha. exfalso. exact (Ha Hv).
  - intros Hall.
    assert (Hu : vless_users (remove_vless_user state id).2 = drop_key vu_id id (vless_users state)).
    { unfold remove_vless_user. by destruct (_ =? _)%nat. }
    unfold authenticate. cbn. rewrite Hu.
    pose proof (authenticate_users_spec (drop_key vu_id id (vless_users state)) cand Hok) as Ha.
    destruct (authenticate_users _ cand) as [u|]; [|done].
    destruct Ha as (l1 & l2 & Hl & Hhas & _). exfalso.
    assert (Hin : u ∈ drop_key vu_id id (vless_users state))
      by (rewrite Hl; apply elem_of_app; right; by constructor).
    apply list_elem_of_In, List.filter_In in Hin as [Hin Hne]. bool_hyps.
    rewrite Forall_forall in Hall. apply list_elem_of_In in Hin. destruct (Hall u Hin); done.
Qed.

Lemma store_controls_authentication_witness :
  authenticate (vless_config (remove_vless_user demo_store "x").2) (seqZ 0xA0 16) = None.
Proof.
  apply (store_controls_authentication demo_store demo_user {| uuid_bytes := seqZ 0xA0 16 |} "x").
  - vm_compute. reflexivity.
  - vm_compute. reflexivity.
  - apply Forall_nil_2.
Defined.

(** ids are compared as text, UUIDs as bytes. Adding the same UUID in another
    spelling succeeds, and removing the user by the first spelling leaves the UUID
    authenticated. *)
Theorem store_spelling_survives_removal :
  let upper := {| vu_id := "A0A1A2A3-A4A5-A6A7-A8A9-AAABACADAEAF"; vu_email := None; vu_flow := None |} in
  let lower := {| vu_id := "a0a1a2a3-a4a5-a6a7-a8a9-aaabacadaeaf"; vu_email := None; vu_flow := None |} in
  let s := run_ops demo_store [AddVless upper; AddVless lower; RemoveVless (vu_id upper)] in
  vless_users s = [lower] /\ authenticate (vless_config s) (seqZ 0xA0 16) = Some lower.
Proof. split; vm_compute; reflexivity. Qed.
