(* ===== verification/Api.v ===== *)
(** * The management API
    Models crates/skadi-server/src/api/service.rs (the RPC handlers), the
    interceptor and [check_auth] of api/mod.rs, and the audit calls of api/audit.rs
    as a log of records. tonic's transport is not modelled: a call carries the
    peer's printed address, the text of its [authorization] header if it has one,
    and the decoded request. *)

From Stdlib Require Import Ascii String.
From stdpp Require Import base numbers list_numbers list strings gmap fin_maps pretty.
From S2P Require Import Prelude Core Io Socks5 VlessParse VlessConfig Store ApiRate.

(** ** Messages (skadi-api proto) *)

Record ProtoVlessUser := { pv_id : string; pv_email : string }.
Record ProtoSocks5User := { ps_username : string; ps_password : string }.
Record UserResponse := { ur_ok : bool; ur_message : string }.

Inductive request :=
| AddVlessUserRequest (user : option ProtoVlessUser)
| RemoveVlessUserRequest (id : string)
| ListVlessUsersRequest
| AddSocks5UserRequest (user : option ProtoSocks5User)
| RemoveSocks5UserRequest (username : string)
| ListSocks5UsersRequest
| GetStatsRequest.

Inductive response :=
| RUser (r : UserResponse)
| RVlessUsers (users : list ProtoVlessUser)
| RSocks5Users (users : list ProtoSocks5User)
| RStats (vless_users socks5_users : Z).

(** ** The audit log *)

Inductive audit_record :=
| AuditRpc (peer : string) (method detail : string) (ok : bool)
| AuditAuthFailure (peer : string) (reason : string)
| AuditRateLimited (peer : string).

Definition peer_or_unknown (peer : option string) : string := default "unknown"%string peer.

Record SkadiApiService := { store : StoreState; audit_log : bool; log : list audit_record }.

Definition audit (svc : SkadiApiService) (peer : option string) (method detail : string) (ok : bool)
    : SkadiApiService :=
  if audit_log svc
  then {| store := store svc; audit_log := audit_log svc;
          log := log svc ++ [AuditRpc (peer_or_unknown peer) method detail ok] |}
  else svc.

Definition with_store (svc : SkadiApiService) (s : StoreState) : SkadiApiService :=
  {| store := s; audit_log := audit_log svc; log := log svc |}.

Definition ok_response (message : string) : UserResponse := {| ur_ok := true; ur_message := message |}.
Definition err_response (message : string) : UserResponse := {| ur_ok := false; ur_message := message |}.

Definition optional_string (value : string) : option string :=
  if bool_decide (value = EmptyString) then None else Some value.

(** ** Handlers *)

(** The common tail of the four mutating handlers: answer and audit the outcome
    of the store operation. *)
Definition finish (svc : SkadiApiService) (peer : option string) (method detail done_msg : string)
    (r : res anyhow unit * StoreState) : response * SkadiApiService :=
  let svc := with_store svc r.2 in
  match r.1 with
  | Ok _ => (RUser (ok_response done_msg), audit svc peer method detail true)
  | Err e =>
    let msg := anyhow_to_string e in
    (RUser (err_response msg), audit svc peer method (detail +:+ " err=" +:+ msg) false)
  | Panic => (RUser (err_response EmptyString), svc)
  end.

Definition api_add_vless_user (svc : SkadiApiService) (peer : option string)
    (user : option ProtoVlessUser) : response * SkadiApiService :=
  match user with
  | None => (RUser (err_response "user is required"),
             audit svc peer "AddVlessUser" "user is required" false)
  | Some user =>
    if bool_decide (pv_id user = EmptyString)
    then (RUser (err_response "id is required"), audit svc peer "AddVlessUser" "id is required" false)
    else
      let vless_user := {| vu_id := pv_id user; vu_email := optional_string (pv_email user);
                           vu_flow := None |} in
      let detail := ("vless_id=" +:+ pv_id user)%string in
      finish svc peer "AddVlessUser" detail "added" (add_vless_user (store svc) vless_user)
  end.

Definition api_remove_vless_user (svc : SkadiApiService) (peer : option string) (id : string)
    : response * SkadiApiService :=
  if bool_decide (id = EmptyString)
  then (RUser (err_response "id is required"), audit svc peer "RemoveVlessUser" "id is required" false)
  else finish svc peer "RemoveVlessUser" ("vless_id=" +:+ id) "removed" (remove_vless_user (store svc) id).

Definition api_list_vless_users (svc : SkadiApiService) (peer : option string)
    : response * SkadiApiService :=
  let users := map (fun u => {| pv_id := vu_id u; pv_email := default EmptyString (vu_email u) |})
                 (vless_users (store svc)) in
  (RVlessUsers users,
   audit svc peer "ListVlessUsers" ("count=" +:+ fmt_dec (length users)) true).

Definition api_add_socks5_user (svc : SkadiApiService) (peer : option string)
    (user : option ProtoSocks5User) : response * SkadiApiService :=
  match user with
  | None => (RUser (err_response "user is required"),
             audit svc peer "AddSocks5User" "user is required" false)
  | Some user =>
    let cred := {| username := ps_username user; password := ps_password user |} in
    let detail := ("socks5_user=" +:+ ps_username user)%string in
    finish svc peer "AddSocks5User" detail "added" (add_socks5_user (store svc) cred)
  end.

Definition api_remove_socks5_user (svc : SkadiApiService) (peer : option string) (name : string)
    : response * SkadiApiService :=
  if bool_decide (name = EmptyString)
  then (RUser (err_response "username is required"),
        audit svc peer "RemoveSocks5User" "username is required" false)
  else finish svc peer "RemoveSocks5User" ("socks5_user=" +:+ name) "removed"
         (remove_socks5_user (store svc) name).

Definition api_list_socks5_users (svc : SkadiApiService) (peer : option string)
    : response * SkadiApiService :=
  let users := map (fun u => {| ps_username := username u; ps_password := password u |})
                 (socks_users (store svc)) in
  (RSocks5Users users,
   audit svc peer "ListSocks5Users" ("count=" +:+ fmt_dec (length users)) true).

Definition api_get_stats (svc : SkadiApiService) (peer : option string) : response * SkadiApiService :=
  let v := vless_user_count (store svc) in
  let s := socks5_user_count (store svc) in
  (RStats v s,
   audit svc peer "GetStats" ("vless_users=" +:+ pretty v +:+ " socks5_users=" +:+ pretty s) true).

Definition dispatch (svc : SkadiApiService) (peer : option string) (req : request)
    : response * SkadiApiService :=
  match req with
  | AddVlessUserRequest u => api_add_vless_user svc peer u
  | RemoveVlessUserRequest id => api_remove_vless_user svc peer id
  | ListVlessUsersRequest => api_list_vless_users svc peer
  | AddSocks5UserRequest u => api_add_socks5_user svc peer u
  | RemoveSocks5UserRequest n => api_remove_socks5_user svc peer n
  | ListSocks5UsersRequest => api_list_socks5_users svc peer
  | GetStatsRequest => api_get_stats svc peer
  end.

(** ** The interceptor *)

Inductive Rejection :=
| Unauthenticated (msg : string)
| Exhausted (msg : string).

Record call := { peer : option string; authorization : option string; body : request }.

Definition add_log (svc : SkadiApiService) (r : audit_record) : SkadiApiService :=
  if audit_log svc
  then {| store := store svc; audit_log := audit_log svc; log := log svc ++ [r] |}
  else svc.

Definition check_auth (token : string) (svc : SkadiApiService) (c : call)
    : res Rejection unit * SkadiApiService :=
  match authorization c with
  | None => (Err (Unauthenticated "missing authorization header"),
             add_log svc (AuditAuthFailure (peer_or_unknown (peer c)) "missing authorization header"))
  | Some auth_header =>
    let expected := ("Bearer " +:+ token)%string in
    if negb (bool_decide (auth_header = expected))
    then (Err (Unauthenticated "invalid token"),
          add_log svc (AuditAuthFailure (peer_or_unknown (peer c)) "invalid token"))
    else (Ok tt, svc)
  end.

(** One RPC: rate limit, then token, then the handler. *)
Definition serve (token : string) (limiter : option ApiRateLimiter) (svc : SkadiApiService)
    (c : call) (now : Z) : res Rejection response * option ApiRateLimiter * SkadiApiService :=
  let '(admitted, limiter) :=
    match limiter with
    | Some l => let '(r, l) := check l now in (r, Some l)
    | None => (Ok tt, None)
    end in
  match admitted with
  | Ok _ =>
    match check_auth token svc c with
    | (Ok _, svc) => let '(r, svc) := dispatch svc (peer c) (body c) in (Ok r, limiter, svc)
    | (Err e, svc) => (Err e, limiter, svc)
    | (Panic, svc) => (Panic, limiter, svc)
    end
  | Err _ => (Err (Exhausted "rate limit exceeded"), limiter,
              add_log svc (AuditRateLimited (peer_or_unknown (peer c))))
  | Panic => (Panic, limiter, svc)
  end.

(** ** Lemmas *)

Lemma audit_store svc p m d ok : store (audit svc p m d ok) = store svc.
Proof. unfold audit. by destruct (audit_log svc). Qed.

Lemma add_log_store svc r : store (add_log svc r) = store svc.
Proof. unfold add_log. by destruct (audit_log svc). Qed.

Lemma finish_store svc p m d msg r : store (finish svc p m d msg r).2 = r.2.
Proof. unfold finish. destruct r.1; cbn; by rewrite ?audit_store. Qed.

(** The store operation a request asks for. *)
Definition request_op (req : request) : option store_op :=
  match req with
  | AddVlessUserRequest (Some u) =>
    if bool_decide (pv_id u = EmptyString) then None
    else Some (AddVless {| vu_id := pv_id u; vu_email := optional_string (pv_email u); vu_flow := None |})
  | RemoveVlessUserRequest id =>
    if bool_decide (id = EmptyString) then None else Some (RemoveVless id)
  | AddSocks5UserRequest (Some u) =>
    Some (AddSocks {| username := ps_username u; password := ps_password u |})
  | RemoveSocks5UserRequest n =>
    if bool_decide (n = EmptyString) then None else Some (RemoveSocks n)
  | _ => None
  end.

Lemma dispatch_store svc p req :
  store (dispatch svc p req).2 =
    match request_op req with
    | Some op => (apply_op (store svc) op).2
    | None => store svc
    end.
Proof.
  destruct req as [[u|]|id| |[u|]|n| |]; cbn [dispatch request_op];
    unfold api_add_vless_user, api_remove_vless_user, api_list_vless_users, api_add_socks5_user,
      api_remove_socks5_user, api_list_socks5_users, api_get_stats;
    try case_bool_decide; cbn [snd apply_op]; rewrite ?audit_store, ?finish_store; done.
Qed.

Lemma request_op_ok req op : request_op req = Some op -> op_ok op.
Proof. destruct req as [[u|]|id| |[u|]|n| |]; cbn; try case_bool_decide; by intros [= <-]. Qed.

Lemma serve_cases token limiter svc c now :
  (exists l r, serve token limiter svc c now = (Ok r, l, (dispatch svc (peer c) (body c)).2)
      /\ authorization c = Some ("Bearer " +:+ token)%string)
  \/ (exists l e rec, serve token limiter svc c now = (Err e, l, add_log svc rec))
  \/ (exists l, serve token limiter svc c now = (Panic, l, svc)).
Proof.
  unfold serve.
  destruct (match limiter with Some l => let '(r, l) := check l now in (r, Some l) | None => (Ok tt, None) end)
    as [[|e|] l]; [|right; left; by eexists _, _, _|right; right; by eexists].
  unfold check_auth. destruct (authorization c) as [h|]; [|right; left; by eexists _, _, _].
  case_bool_decide as Hh; cbn [negb]; [|right; left; by eexists _, _, _].
  left. destruct (dispatch svc (peer c) (body c)) as [r s]. exists l, r. subst. done.
Qed.

Fixpoint serve_all (token : string) (limiter : option ApiRateLimiter) (svc : SkadiApiService)
    (calls : list (call * Z)) : SkadiApiService :=
  match calls with
  | [] => svc
  | (c, now) :: rest =>
    let '(_, limiter, svc) := serve token limiter svc c now in
    serve_all token limiter svc rest
  end.

(** ** Properties *)

(** C19: only the bearer of the token can change the users. Whatever the limiter
    does, a call whose [authorization] header is not exactly ["Bearer "] followed by
    the configured token is refused and leaves the user store untouched; an accepted
    call changes the store by at most the one operation its request names. *)
Theorem api_requires_token (token : string) (limiter : option ApiRateLimiter)
    (svc : SkadiApiService) (c : call) (now : Z) :
  let '(r, _, svc') := serve token limiter svc c now in
  (authorization c <> Some ("Bearer " +:+ token)%string ->
     (forall resp, r <> Ok resp) /\ store svc' = store svc)
  /\ (forall resp, r = Ok resp ->
       store svc' = match request_op (body c) with
                    | Some op => (apply_op (store svc) op).2
                    | None => store svc
                    end).
Proof.
  destruct (serve_cases token limiter svc c now) as [(l & r & -> & Ha)|[(l & e & rec & ->)|(l & ->)]].
  - split; [done|]. intros _ _. apply dispatch_store.
  - split; [|done]. intros _. split; [done|]. apply add_log_store.
  - split; [|done]. done.
Qed.

(** no sequence of API calls breaks the store. From a store with unique
    names, any calls, authorised or not, in any order and at any time, leave a store
    with unique names. *)
Theorem api_keeps_store_ok (token : string) (limiter : option ApiRateLimiter)
    (svc : SkadiApiService) (calls : list (call * Z)) (Hs : store_ok (store svc)) :
  store_ok (store (serve_all token limiter svc calls)).
Proof.
  revert limiter svc Hs. induction calls as [|[c now] rest IH]; intros limiter svc Hs; [done|].
  cbn [serve_all].
  destruct (serve_cases token limiter svc c now) as [(l & r & -> & _)|[(l & e & rec & ->)|(l & ->)]];
    apply IH; [|by rewrite add_log_store|done].
  rewrite dispatch_store. destruct (request_op (body c)) as [op|] eqn:Ho; [|done].
  apply apply_op_ok; [done|by apply (request_op_ok _ _ Ho)].
Qed.

Definition demo_service : SkadiApiService := {| store := demo_store; audit_log := true; log := [] |}.

Definition add_bob (pass : string) (auth : option string) : call :=
  {| peer := Some "127.0.0.1:9"%string; authorization := auth;
     body := AddSocks5UserRequest (Some {| ps_username := "bob"; ps_password := pass |}) |}.

Lemma api_keeps_store_ok_witness :
  store_ok (store (serve_all "t" None demo_service
    [(add_bob "x" None, 1); (add_bob "x" (Some "Bearer t"%string), 2); (add_bob "y" (Some "Bearer t"%string), 3)])).
Proof. apply (api_keeps_store_ok "t" None demo_service). constructor; apply NoDup_nil_2. Defined.

(** passwords stay out of the audit log. Two AddSocks5User calls that differ
    only in their non-empty passwords leave exactly the same audit log. *)
Theorem api_audit_hides_passwords (svc : SkadiApiService) (p : option string)
    (name pass1 pass2 : string) (H1 : pass1 <> EmptyString) (H2 : pass2 <> EmptyString) :
  log (dispatch svc p (AddSocks5UserRequest (Some {| ps_username := name; ps_password := pass1 |}))).2
  = log (dispatch svc p (AddSocks5UserRequest (Some {| ps_username := name; ps_password := pass2 |}))).2.
Proof.
  cbn [dispatch]. unfold api_add_socks5_user, add_socks5_user, finish, audit. cbn.
  case_bool_decide; cbn; [by destruct (audit_log svc)|].
  rewrite !bool_decide_eq_false_2 by done.
  destruct (has_key _ _ _); cbn; by destruct (audit_log svc).
Qed.

Lemma api_audit_hides_passwords_witness :
  log (dispatch demo_service None (body (add_bob "secret" None))).2
  = log (dispatch demo_service None (body (add_bob "other" None))).2.
Proof. apply (api_audit_hides_passwords demo_service None "bob" "secret" "other"); discriminate. Defined.
