(* ===== verification/Xudp.v ===== *)
(** * The XUDP session registry
    Models crates/skadi-transport/src/xudp.rs: the global table of UDP sockets by
    GlobalID, with its life cycle Active -> Expiring -> deleted. The table's mutex
    makes each operation atomic; the result of [UdpSocket::bind] is an input
    (a socket, numbered by the system, or an error). *)

From Stdlib Require Import Ascii String.
From stdpp Require Import base numbers list_numbers list strings gmap fin_maps.
From S2P Require Import Prelude Io.

(** Nanoseconds. *)
Definition XUDP_EXPIRE_TTL : Z := 60 * 1000000000.

Inductive XudpStatus := Active | Initializing | Expiring.

#[export] Instance XudpStatus_eq_dec : EqDecision XudpStatus.
Proof. solve_decision. Defined.

(** Sockets and tasks are the numbers the system gave them. *)
Record XudpEntry := {
  socket : Z;
  status : XudpStatus;
  expire_at : option Z;
  reader_abort : option Z
}.

(** The table, and the reader tasks that have been aborted. *)
Record XudpManager := { entries : gmap (list Z) XudpEntry; aborted : list Z }.

Definition manager_new : XudpManager := {| entries := ∅; aborted := [] |}.

Definition abort_reader (m : XudpManager) (r : option Z) : list Z :=
  aborted m ++ match r with Some t => [t] | None => [] end.

Definition acquire (m : XudpManager) (gid : bytes) (bind : io_error + Z)
    : res io_error (Z * bool) * XudpManager :=
  match entries m !! gid with
  | Some entry =>
    if bool_decide (status entry = Initializing) then (Ok (socket entry, true), m)
    else
      (Ok (socket entry, true),
       {| entries := <[gid := {| socket := socket entry; status := Active; expire_at := None;
                                 reader_abort := None |}]> (entries m);
          aborted := abort_reader m (reader_abort entry) |})
  | None =>
    match bind with
    | inl e => (Err (IoError OtherKind (io_msg e)), m)
    | inr s =>
      (Ok (s, false),
       {| entries := <[gid := {| socket := s; status := Active; expire_at := None;
                                 reader_abort := None |}]> (entries m);
          aborted := aborted m |})
    end
  end.

Definition detach (m : XudpManager) (gid : bytes) (now : Z) : XudpManager :=
  match entries m !! gid with
  | Some entry =>
    if bool_decide (status entry = Active) then
      {| entries := <[gid := {| socket := socket entry; status := Expiring;
                                expire_at := Some (now + XUDP_EXPIRE_TTL);
                                reader_abort := None |}]> (entries m);
         aborted := abort_reader m (reader_abort entry) |}
    else m
  | None => m
  end.

Definition register_reader (m : XudpManager) (gid : bytes) (task : Z) : XudpManager :=
  match entries m !! gid with
  | Some entry =>
    {| entries := <[gid := {| socket := socket entry; status := status entry;
                              expire_at := expire_at entry; reader_abort := Some task |}]> (entries m);
       aborted := aborted m |}
  | None => m
  end.

Definition is_expired (now : Z) (e : XudpEntry) : bool :=
  bool_decide (status e = Expiring) && match expire_at e with Some t => t <=? now | None => false end.

Definition cleanup_expired (m : XudpManager) (now : Z) : XudpManager :=
  let expired := filter (fun kv => is_expired now kv.2 = true) (entries m) in
  {| entries := filter (fun kv => is_expired now kv.2 = false) (entries m);
     aborted := aborted m ++ omap (fun kv => reader_abort kv.2) (map_to_list expired) |}.

(** ** Histories *)

Inductive op :=
| Acquire (gid : bytes) (bind : io_error + Z)
| Detach (gid : bytes) (now : Z)
| Register (gid : bytes) (task : Z)
| Cleanup (now : Z).

Definition apply (m : XudpManager) (o : op) : XudpManager :=
  match o with
  | Acquire gid b => (acquire m gid b).2
  | Detach gid now => detach m gid now
  | Register gid t => register_reader m gid t
  | Cleanup now => cleanup_expired m now
  end.

Definition run (m : XudpManager) (ops : list op) : XudpManager := foldl apply m ops.

Inductive reachable : XudpManager -> Prop :=
| reach_new : reachable manager_new
| reach_step m o :
    reachable m ->
    (** the system hands out sockets that are not in use *)
    (forall gid s, o = Acquire gid (inr s) -> forall g e, entries m !! g = Some e -> socket e <> s) ->
    reachable (apply m o).

(** ** The invariant *)

Definition entry_ok (e : XudpEntry) : Prop :=
  match status e with
  | Active => expire_at e = None
  | Expiring => is_Some (expire_at e)
  | Initializing => False
  end.

Record inv (m : XudpManager) : Prop := {
  inv_entries : forall g e, entries m !! g = Some e -> entry_ok e;
  inv_sockets : forall g1 g2 e1 e2, entries m !! g1 = Some e1 -> entries m !! g2 = Some e2 ->
    socket e1 = socket e2 -> g1 = g2
}.

(** ** Lemmas *)

Lemma xudp_cleanup_lookup m now g :
  entries (cleanup_expired m now) !! g =
    match entries m !! g with
    | Some e => if is_expired now e then None else Some e
    | None => None
    end.
Proof.
  unfold cleanup_expired. cbn. rewrite map_lookup_filter. destruct (entries m !! g) as [e|]; cbn; [|done].
  destruct (is_expired now e); [by rewrite option_guard_False|by rewrite option_guard_True].
Qed.

(** Replacing an entry by one with the same socket keeps the invariant. *)
Lemma inv_update m g e e' ab :
  inv m -> entries m !! g = Some e -> socket e' = socket e -> entry_ok e' ->
  inv {| entries := <[g := e']> (entries m); aborted := ab |}.
Proof.
  intros [He Hs] Hg Hsock Hok. constructor; cbn.
  - intros g' x. rewrite lookup_insert_Some. intros [[<- <-]|[_ Hx]]; [done|by apply (He g')].
  - intros g1 g2 e1 e2. rewrite !lookup_insert_Some.
    intros [[<- <-]|[Hn1 H1]] [[<- <-]|[Hn2 H2]] Heq; [done|..].
    + rewrite Hsock in Heq. by apply (Hs g g2 e e2).
    + rewrite Hsock in Heq. by apply (Hs g1 g e1 e).
    + by apply (Hs g1 g2 e1 e2).
Qed.

Lemma inv_apply m o :
  inv m ->
  (forall gid s, o = Acquire gid (inr s) -> forall g e, entries m !! g = Some e -> socket e <> s) ->
  inv (apply m o).
Proof.
  intros Hi Hfresh. pose proof Hi as [He Hs]. destruct o as [gid b|gid now|gid t|now]; cbn.
  - unfold acquire. destruct (entries m !! gid) as [e|] eqn:Hg.
    + case_bool_decide; [done|]. cbn. by apply (inv_update m gid e).
    + destruct b as [err|s]; [done|]. cbn. specialize (Hfresh gid s eq_refl). constructor; cbn.
      * intros g x. rewrite lookup_insert_Some. intros [[<- <-]|[_ Hx]]; [done|by apply (He g)].
      * intros g1 g2 e1 e2. rewrite !lookup_insert_Some.
        intros [[<- <-]|[Hn1 H1]] [[<- <-]|[Hn2 H2]] Heq; cbn in Heq; [done|..|by apply (Hs g1 g2 e1 e2)];
          exfalso; eapply Hfresh; eauto.
  - unfold detach. destruct (entries m !! gid) as [e|] eqn:Hg; [|done].
    case_bool_decide; [|done]. apply (inv_update m gid e); [done|done|done|]. by eexists.
  - unfold register_reader. destruct (entries m !! gid) as [e|] eqn:Hg; [|done].
    apply (inv_update m gid e); [done|done|done|]. exact (He gid e Hg).
  - constructor.
    + intros g e. rewrite xudp_cleanup_lookup. destruct (entries m !! g) as [x|] eqn:Hg; [|done].
      destruct (is_expired now x); [done|]. intros [= <-]. by apply (He g).
    + intros g1 g2 e1 e2. rewrite !xudp_cleanup_lookup.
      destruct (entries m !! g1) as [x1|] eqn:H1; [|done]. destruct (is_expired now x1); [done|].
      destruct (entries m !! g2) as [x2|] eqn:H2; [|done]. destruct (is_expired now x2); [done|].
      intros [= <-] [= <-]. by apply (Hs g1 g2).
Qed.

Lemma reachable_inv m : reachable m -> inv m.
Proof.
  induction 1 as [|m o Hr IH Hf]; [by constructor|]. by apply inv_apply.
Qed.

(** The entry of [gid] has socket [s] and will not be deleted before [limit]. *)
Definition kept (gid : bytes) (s limit : Z) (m : XudpManager) : Prop :=
  exists e, entries m !! gid = Some e /\ socket e = s /\ entry_ok e
    /\ match expire_at e with Some t => limit <= t | None => True end.

(** Operations that cannot delete the entry of [gid] before [limit]. *)
Definition harmless (gid : bytes) (limit : Z) (o : op) : Prop :=
  match o with
  | Detach g now => g = gid -> limit <= now + XUDP_EXPIRE_TTL
  | Cleanup now => now < limit
  | _ => True
  end.

Lemma kept_apply gid s limit m o : kept gid s limit m -> harmless gid limit o -> kept gid s limit (apply m o).
Proof.
  intros (e & Hg & Hs & Hok & Hl) Hh. unfold kept. destruct o as [g b|g now|g t|now]; cbn [apply harmless] in *.
  - unfold acquire. destruct (decide (g = gid)) as [->|Hne].
    + rewrite Hg. case_bool_decide; [by exists e|]. cbn. eexists. by rewrite lookup_insert_eq.
    + destruct (entries m !! g) as [x|]; [case_bool_decide|destruct b]; cbn; exists e;
        by rewrite ?lookup_insert_ne by done.
  - unfold detach. destruct (decide (g = gid)) as [->|Hne].
    + rewrite Hg. case_bool_decide; [|by exists e]. cbn. eexists. rewrite lookup_insert_eq.
      split_and!; [done|done|by eexists|]. cbn. by apply Hh.
    + destruct (entries m !! g) as [x|]; [case_bool_decide|]; cbn; exists e;
        by rewrite ?lookup_insert_ne by done.
  - unfold register_reader. destruct (decide (g = gid)) as [->|Hne].
    + rewrite Hg. cbn. eexists. by rewrite lookup_insert_eq.
    + destruct (entries m !! g) as [x|]; cbn; exists e; by rewrite ?lookup_insert_ne by done.
  - exists e. rewrite xudp_cleanup_lookup, Hg. unfold is_expired, entry_ok in *.
    destruct (expire_at e) as [t|] eqn:Ht; [|by rewrite andb_false_r].
    destruct (t <=? now) eqn:E; bool_hyps; [lia|]. by rewrite andb_false_r.
Qed.

Lemma kept_run gid s limit m ops :
  kept gid s limit m -> Forall (harmless gid limit) ops -> kept gid s limit (run m ops).
Proof.
  intros Hk Hops. revert m Hk. induction Hops as [|o ops Ho Hops IH]; intros m Hk; [done|].
  apply IH. by apply kept_apply.
Qed.

Lemma acquire_hit gid s limit m b : kept gid s limit m -> (acquire m gid b).1 = Ok (s, true).
Proof.
  intros (e & Hg & <- & Hok & _). unfold acquire. rewrite Hg. by case_bool_decide.
Qed.

(** ** Properties *)

(** C24: the XUDP registry stays well formed. In every reachable state each entry
    is Active without a deadline or Expiring with one (the transient Initializing
    state is never visible), and no two GlobalIDs share a socket. *)
Theorem xudp_registry_invariant (m : XudpManager) (Hr : reachable m) :
  (forall g e, entries m !! g = Some e ->
     (status e = Active /\ expire_at e = None) \/ (status e = Expiring /\ is_Some (expire_at e)))
  /\ (forall g1 g2 e1 e2, entries m !! g1 = Some e1 -> entries m !! g2 = Some e2 ->
       socket e1 = socket e2 -> g1 = g2).
Proof.
  apply reachable_inv in Hr as [He Hs]. split; [|exact Hs]. intros g e Hg.
  specialize (He g e Hg). unfold entry_ok in He. destruct (status e); auto. done.
Qed.

Lemma xudp_registry_invariant_witness :
  reachable (run manager_new [Acquire [1] (inr 7); Detach [1] 5])
  /\ forall g e, entries (run manager_new [Acquire [1] (inr 7); Detach [1] 5]) !! g = Some e ->
     (status e = Active /\ expire_at e = None) \/ (status e = Expiring /\ is_Some (expire_at e)).
Proof.
  assert (Hr : reachable (run manager_new [Acquire [1] (inr 7); Detach [1] 5])).
  { apply (reach_step (apply manager_new (Acquire [1] (inr 7))) (Detach [1] 5)); [|discriminate].
    apply (reach_step manager_new); [apply reach_new|]. intros gid s _ g e Hg. discriminate Hg. }
  split; [exact Hr|]. destruct (xudp_registry_invariant _ Hr) as [H _]. exact H.
Defined.

(** a cone keeps its socket across reconnects. Once a GlobalID is acquired,
    through any operations on any ids in which the id is detached no earlier than
    [t0] and cleanups run before [t0] plus the 60 s lifetime, the next acquire hits
    and returns the same socket, whatever a bind would answer. *)
Theorem xudp_reconnect_same_socket (m : XudpManager) (gid : bytes) (b b' : io_error + Z) (s t0 : Z)
    (hit : bool) (ops : list op)
    (Hr : reachable m) (Ha : (acquire m gid b).1 = Ok (s, hit))
    (Hops : Forall (harmless gid (t0 + XUDP_EXPIRE_TTL)) ops) :
  (acquire (run (acquire m gid b).2 ops) gid b').1 = Ok (s, true).
Proof.
  apply (acquire_hit gid s (t0 + XUDP_EXPIRE_TTL)). apply kept_run; [|done]. unfold kept.
  apply reachable_inv in Hr as [He _]. unfold acquire in *.
  destruct (entries m !! gid) as [e|] eqn:Hg.
  - specialize (He gid e Hg). case_bool_decide as Hin.
    + unfold entry_ok in He. by rewrite Hin in He.
    + injection Ha as <- <-. cbn. eexists. by rewrite lookup_insert_eq.
  - destruct b as [err|s']; [done|]. injection Ha as <- <-. cbn. eexists. by rewrite lookup_insert_eq.
Qed.

Lemma xudp_reconnect_same_socket_witness :
  (acquire (run (acquire manager_new [1] (inr 7)).2
     [Register [1] 3; Detach [1] 1000; Acquire [2] (inr 8); Cleanup 50000000000]) [1] (inr 9)).1 = Ok (7, true).
Proof.
  apply (xudp_reconnect_same_socket manager_new [1] (inr 7) (inr 9) 7 1000 false).
  - apply reach_new.
  - reflexivity.
  - unfold harmless, XUDP_EXPIRE_TTL. repeat (apply Forall_cons_2; [cbn; lia|]). apply Forall_nil_2.
Defined.

(** an abandoned cone is released. After a detach at [now] of an id in use, a
    cleanup at or after the 60 s deadline removes the entry, and the next acquire
    binds a new socket. Entries in use are never removed. *)
Theorem xudp_abandoned_released (m : XudpManager) (gid : bytes) (e : XudpEntry) (now later s : Z)
    (Hg : entries m !! gid = Some e) (Hst : status e = Active)
    (Hl : now + XUDP_EXPIRE_TTL <= later) :
  entries (cleanup_expired (detach m gid now) later) !! gid = None
  /\ (acquire (cleanup_expired (detach m gid now) later) gid (inr s)).1 = Ok (s, false)
  /\ entries (cleanup_expired m later) !! gid = Some e.
Proof.
  assert (Hn : entries (cleanup_expired (detach m gid now) later) !! gid = None).
  { rewrite xudp_cleanup_lookup. unfold detach. rewrite Hg, bool_decide_eq_true_2 by done. cbn.
    rewrite lookup_insert_eq. unfold is_expired. cbn. rewrite (proj2 (Z.leb_le _ _)) by done. done. }
  split_and!; [done| |].
  - unfold acquire. by rewrite Hn.
  - rewrite xudp_cleanup_lookup, Hg. unfold is_expired. by rewrite Hst.
Qed.

Lemma xudp_abandoned_released_witness :
  (acquire (cleanup_expired (detach (acquire manager_new [1] (inr 7)).2 [1] 5) 60000000005) [1] (inr 9)).1
  = Ok (9, false).
Proof.
  apply (xudp_abandoned_released (acquire manager_new [1] (inr 7)).2 [1]
    {| socket := 7; status := Active; expire_at := None; reader_abort := None |} 5 60000000005 9).
  - reflexivity.
  - reflexivity.
  - unfold XUDP_EXPIRE_TTL. lia.
Defined.

(** two connections that acquire the same GlobalID before either registers
    its reader leave both readers running. The second registration replaces the
    first handle without aborting its task, so no later operation aborts it. *)
Theorem xudp_reader_race (m : XudpManager) (gid : bytes) (s t1 t2 : Z)
    (Hnew : entries m !! gid = None) (Hdiff : t1 <> t2) (Ht : t1 ∉ aborted m) :
  let m' := run m [Acquire gid (inr s); Acquire gid (inr s); Register gid t1; Register gid t2] in
  (t1 ∉ aborted m')
  /\ entries m' !! gid = Some {| socket := s; status := Active; expire_at := None; reader_abort := Some t2 |}
  /\ t1 ∉ aborted (detach m' gid 0).
Proof.
  unfold run. cbn [foldl apply]. unfold acquire. rewrite Hnew. cbn [snd entries].
  rewrite lookup_insert_eq. cbn [status snd]. rewrite bool_decide_eq_false_2 by done.
  unfold register_reader, detach, abort_reader. cbn [entries snd reader_abort aborted socket].
  rewrite !lookup_insert_eq. cbn [entries socket status expire_at reader_abort aborted].
  rewrite !lookup_insert_eq. cbn [entries socket status expire_at reader_abort aborted].
  rewrite !lookup_insert_eq, app_nil_r. cbn. split_and!; [done|done|].
  rewrite bool_decide_eq_true_2 by done. cbn.
  rewrite elem_of_app, list_elem_of_singleton. naive_solver.
Qed.

Lemma xudp_reader_race_witness :
  (3 : Z) ∉ aborted (run manager_new [Acquire [1] (inr 7); Acquire [1] (inr 7); Register [1] 3; Register [1] 4]).
Proof.
  apply (xudp_reader_race manager_new [1] 7 3 4).
  - reflexivity.
  - lia.
  - apply not_elem_of_nil.
Defined.
