(* ===== verification/Relay.v ===== *)
(** * The bidirectional relay
    Models crates/skadi-transport/src/relay.rs: [copy_bidirectional_with_limits]
    as the steps of its [select!] loop. Every completion the loop can observe (a
    timer, a read from either side with the outcome of the write it causes) is an
    event with the instant at which it happened; which ready branch wins is up to
    the event sequence. Without limits the function is tokio's
    [copy_bidirectional], a parameter here. *)

From Stdlib Require Import Ascii String.
From stdpp Require Import base numbers list_numbers list strings.
From S2P Require Import Prelude Io.

Definition IDLE_TIMEOUT_MSG : string := "idle timeout".
Definition SESSION_LIFETIME_MSG : string := "max session lifetime".

Record RelayLimits := { idle : option Z; max_lifetime : option Z }.

Definition has_limits (l : RelayLimits) : bool :=
  match idle l, max_lifetime l with None, None => false | _, _ => true end.

Inductive side := A | B.

#[export] Instance side_eq_dec : EqDecision side.
Proof. solve_decision. Defined.

Definition other (x : side) : side := match x with A => B | B => A end.

(** What the loop observes: a deadline, or a read on one side. [Ok []] is end of
    stream; [write] is the error, if any, of the write or shutdown it causes. *)
Inductive event :=
| IdleFires
| LifetimeFires
| Read (x : side) (r : io_error + bytes) (write : option io_error).

(** The loop's variables, and what each side has been sent. *)
Record state := {
  a_to_b : Z;
  b_to_a : Z;
  a_read_done : bool;
  b_read_done : bool;
  idle_deadline : option Z;
  lifetime_deadline : option Z;
  sent_a : bytes;
  sent_b : bytes;
  shut_a : bool;
  shut_b : bool
}.

Definition read_done (st : state) (x : side) : bool :=
  match x with A => a_read_done st | B => b_read_done st end.

Definition relay_start (limits : RelayLimits) (now : Z) : state :=
  {| a_to_b := 0; b_to_a := 0; a_read_done := false; b_read_done := false;
     idle_deadline := option_map (Z.add now) (idle limits);
     lifetime_deadline := option_map (Z.add now) (max_lifetime limits);
     sent_a := []; sent_b := []; shut_a := false; shut_b := false |}.

(** [b.shutdown()] after the end of [a], and symmetrically. *)
Definition half_close (st : state) (x : side) : state :=
  match x with
  | A => {| a_to_b := a_to_b st; b_to_a := b_to_a st; a_read_done := true; b_read_done := b_read_done st;
            idle_deadline := idle_deadline st; lifetime_deadline := lifetime_deadline st;
            sent_a := sent_a st; sent_b := sent_b st; shut_a := shut_a st; shut_b := true |}
  | B => {| a_to_b := a_to_b st; b_to_a := b_to_a st; a_read_done := a_read_done st; b_read_done := true;
            idle_deadline := idle_deadline st; lifetime_deadline := lifetime_deadline st;
            sent_a := sent_a st; sent_b := sent_b st; shut_a := true; shut_b := shut_b st |}
  end.

(** [b.write_all(data)], the counter, and the new idle deadline. *)
Definition forward (limits : RelayLimits) (st : state) (x : side) (data : bytes) (now : Z) : state :=
  let n := Z.of_nat (length data) in
  let deadline := option_map (Z.add now) (idle limits) in
  match x with
  | A => {| a_to_b := a_to_b st + n; b_to_a := b_to_a st; a_read_done := a_read_done st;
            b_read_done := b_read_done st; idle_deadline := deadline;
            lifetime_deadline := lifetime_deadline st; sent_a := sent_a st;
            sent_b := sent_b st ++ data; shut_a := shut_a st; shut_b := shut_b st |}
  | B => {| a_to_b := a_to_b st; b_to_a := b_to_a st + n; a_read_done := a_read_done st;
            b_read_done := b_read_done st; idle_deadline := deadline;
            lifetime_deadline := lifetime_deadline st; sent_a := sent_a st ++ data;
            sent_b := sent_b st; shut_a := shut_a st; shut_b := shut_b st |}
  end.

Definition reached (deadline : option Z) (now : Z) : bool :=
  match deadline with Some d => d <=? now | None => false end.

(** One iteration of the loop: [None] when the event's branch is disabled,
    otherwise the function's result or the next state. *)
Definition relay_step (limits : RelayLimits) (st : state) (now : Z) (ev : event)
    : option ((res io_error (Z * Z)) + state) :=
  if a_read_done st && b_read_done st then Some (inl (Ok (a_to_b st, b_to_a st))) else
  match ev with
  | IdleFires =>
    if reached (idle_deadline st) now then Some (inl (Err (IoError TimedOut IDLE_TIMEOUT_MSG))) else None
  | LifetimeFires =>
    if reached (lifetime_deadline st) now
    then Some (inl (Err (IoError TimedOut SESSION_LIFETIME_MSG))) else None
  | Read x r write =>
    if read_done st x then None else
    match r with
    | inl e => Some (inl (Err e))
    | inr [] =>
      match write with
      | Some e => Some (inl (Err e))
      | None => Some (inr (half_close st x))
      end
    | inr data =>
      match write with
      | Some e => Some (inl (Err e))
      | None => Some (inr (forward limits st x data now))
      end
    end
  end.

(** The loop over a sequence of events; [inr]: still running after them. *)
Fixpoint relay_loop (limits : RelayLimits) (st : state) (evs : list (Z * event))
    : option ((res io_error (Z * Z)) + state) :=
  match evs with
  | [] =>
    if a_read_done st && b_read_done st then Some (inl (Ok (a_to_b st, b_to_a st))) else Some (inr st)
  | (now, ev) :: evs =>
    match relay_step limits st now ev with
    | Some (inr st) => relay_loop limits st evs
    | r => r
    end
  end.

Section Copy.
(** tokio's [copy_bidirectional] on the same pair of streams. *)
Context (copy_bidirectional : list (Z * event) -> option ((res io_error (Z * Z)) + state)).

Definition copy_bidirectional_with_limits (limits : RelayLimits) (start : Z) (evs : list (Z * event))
    : option ((res io_error (Z * Z)) + state) :=
  if negb (has_limits limits) then copy_bidirectional evs
  else relay_loop limits (relay_start limits start) evs.

Definition copy_bidirectional_with_idle_timeout (i : Z) (start : Z) (evs : list (Z * event))
    : option ((res io_error (Z * Z)) + state) :=
  copy_bidirectional_with_limits {| idle := Some i; max_lifetime := None |} start evs.
End Copy.

(** ** Specification *)

(** What one side has produced in a sequence of events. *)
Fixpoint produced (x : side) (evs : list (Z * event)) : bytes :=
  match evs with
  | [] => []
  | (_, Read y (inr data) _) :: evs => (if decide (x = y) then data else []) ++ produced x evs
  | _ :: evs => produced x evs
  end.

Definition counts (st : state) : Prop :=
  a_to_b st = Z.of_nat (length (sent_b st)) /\ b_to_a st = Z.of_nat (length (sent_a st))
  /\ shut_b st = a_read_done st /\ shut_a st = b_read_done st.

(** ** Lemmas *)

Lemma relay_step_next limits st now ev st' :
  relay_step limits st now ev = Some (inr st') ->
  exists x data, ev = Read x (inr data) None /\ read_done st x = false
    /\ (data = [] /\ st' = half_close st x \/ data <> [] /\ st' = forward limits st x data now).
Proof.
  unfold relay_step. destruct (a_read_done st && b_read_done st); [done|].
  destruct ev as [| |x [e|[|b data]] [w|]]; repeat case_match; try done;
    intros [= <-]; eexists _, _; (split; [done|]); (split; [done|]); auto.
Qed.

Lemma counts_next limits st now x data st' :
  counts st -> (data = [] /\ st' = half_close st x \/ data <> [] /\ st' = forward limits st x data now) ->
  counts st'.
Proof.
  intros (H1 & H2 & H3 & H4) [[-> ->]|[_ ->]]; destruct x; unfold counts; cbn; rewrite ?length_app;
    split_and!; done || lia.
Qed.

(** Relayed so far, plus what the remaining events relay. *)
Lemma relay_loop_running limits st evs st' :
  counts st -> relay_loop limits st evs = Some (inr st') ->
  counts st' /\ sent_b st' = sent_b st ++ produced A evs /\ sent_a st' = sent_a st ++ produced B evs.
Proof.
  revert st. induction evs as [|[now ev] evs IH]; intros st Hc H; cbn [relay_loop] in H.
  - destruct (_ && _); [done|]. injection H as <-. by rewrite !app_nil_r.
  - destruct (relay_step limits st now ev) as [[r|st1]|] eqn:Hs; try done.
    destruct (relay_step_next _ _ _ _ _ Hs) as (x & data & -> & _ & Hx).
    destruct (IH st1 (counts_next _ _ _ _ _ _ Hc Hx) H) as (I1 & I2 & I3).
    split; [done|]. rewrite I2, I3. cbn [produced].
    destruct Hx as [[-> ->]|[_ ->]]; destruct x; cbn; rewrite <- ?app_assoc; done.
Qed.

Lemma relay_loop_ok limits st evs n m :
  counts st -> relay_loop limits st evs = Some (inl (Ok (n, m))) ->
  exists used rest, evs = used ++ rest
    /\ n = Z.of_nat (length (sent_b st ++ produced A used))
    /\ m = Z.of_nat (length (sent_a st ++ produced B used)).
Proof.
  revert st. induction evs as [|[now ev] evs IH]; intros st Hc H; cbn [relay_loop] in H.
  - destruct (_ && _); [|done]. injection H as <- <-. destruct Hc as (H1 & H2 & _).
    exists [], []. cbn. by rewrite !app_nil_r.
  - destruct (relay_step limits st now ev) as [[r|st1]|] eqn:Hs; [|..|done].
    + injection H as ->. unfold relay_step in Hs. destruct (_ && _) in Hs.
      * injection Hs as <- <-. destruct Hc as (H1 & H2 & _). exists [], ((now, ev) :: evs).
        cbn. by rewrite !app_nil_r.
      * by repeat case_match.
    + destruct (relay_step_next _ _ _ _ _ Hs) as (x & data & -> & _ & Hx).
      destruct (IH st1 (counts_next _ _ _ _ _ _ Hc Hx) H) as (used & rest & -> & -> & ->).
      exists ((now, Read x (inr data) None) :: used), rest. split; [done|]. cbn [produced].
      destruct Hx as [[-> ->]|[_ ->]]; destruct x; cbn; rewrite <- ?app_assoc; done.
Qed.

(** A run that the idle timer ends: the deadline of the last activity. *)
Definition last_activity (start : Z) (evs : list (Z * event)) : Z :=
  foldl (fun t p => match p with (now, Read _ (inr (_ :: _)) None) => now | _ => t end) start evs.

Lemma relay_loop_deadlines limits start st evs st' :
  idle_deadline st = option_map (Z.add start) (idle limits) ->
  relay_loop limits st evs = Some (inr st') ->
  idle_deadline st' = option_map (Z.add (last_activity start evs)) (idle limits)
  /\ lifetime_deadline st' = lifetime_deadline st.
Proof.
  revert start st. induction evs as [|[now ev] evs IH]; intros start st Hd H; cbn [relay_loop] in H.
  - destruct (_ && _); [done|]. by injection H as <-.
  - destruct (relay_step limits st now ev) as [[r|st1]|] eqn:Hs; try done.
    destruct (relay_step_next _ _ _ _ _ Hs) as (x & data & -> & _ & Hx).
    unfold last_activity. cbn [foldl]. destruct Hx as [[-> ->]|[Hne ->]].
    + destruct (IH start (half_close st x)) as [I1 I2]; [by destruct x|done|].
      split; [exact I1|]. rewrite I2. by destruct x.
    + destruct data as [|b data]; [done|].
      destruct (IH now (forward limits st x (b :: data) now)) as [I1 I2]; [by destruct x|done|].
      split; [exact I1|]. rewrite I2. by destruct x.
Qed.

Lemma relay_loop_app limits st evs1 evs2 :
  relay_loop limits st (evs1 ++ evs2) =
    match relay_loop limits st evs1 with
    | Some (inr st') => relay_loop limits st' evs2
    | Some (inl r) => Some (inl r)
    | None => None
    end.
Proof.
  revert st. induction evs1 as [|[now ev] evs1 IH]; intros st; cbn [relay_loop app].
  - destruct (a_read_done st && b_read_done st) eqn:E; [|done].
    destruct evs2 as [|[now ev] evs2]; cbn [relay_loop]; [by rewrite E|].
    unfold relay_step. by rewrite E.
  - destruct (relay_step limits st now ev) as [[|st1]|]; [done|apply IH|done].
Qed.

Lemma relay_loop_open limits st evs st' :
  relay_loop limits st evs = Some (inr st') -> a_read_done st' && b_read_done st' = false.
Proof.
  intros H. pose proof (relay_loop_app limits st evs []) as Ha. rewrite app_nil_r, H in Ha. cbn in Ha.
  by destruct (_ && _).
Qed.

(** ** Properties *)

(** C15: the relay neither loses, duplicates nor reorders bytes. With an idle or a
    lifetime limit, at any point of any run, what each side has been sent is exactly what
    the other side produced, in order, the counters are the numbers of bytes sent, a
    side has been shut down exactly when the other's stream ended, and the relay is
    still running only because one of the streams has not ended; when it returns counts,
    they are the numbers of bytes relayed in each direction. Without limits, which is
    the default, the streams are handed as they are to tokio's [copy_bidirectional]. *)
Theorem relay_preserves_streams (copy : list (Z * event) -> option ((res io_error (Z * Z)) + state))
    (limits : RelayLimits) (start : Z) (evs : list (Z * event)) :
  if has_limits limits then
    (forall st, copy_bidirectional_with_limits copy limits start evs = Some (inr st) ->
       sent_b st = produced A evs /\ sent_a st = produced B evs /\ counts st
       /\ a_read_done st && b_read_done st = false)
    /\ (forall n m, copy_bidirectional_with_limits copy limits start evs = Some (inl (Ok (n, m))) ->
       exists used rest, evs = used ++ rest
         /\ n = Z.of_nat (length (produced A used)) /\ m = Z.of_nat (length (produced B used)))
  else copy_bidirectional_with_limits copy limits start evs = copy evs.
Proof.
  unfold copy_bidirectional_with_limits. destruct (has_limits limits) eqn:Hl; cbn [negb]; [|done].
  assert (Hc : counts (relay_start limits start)) by done. split.
  - intros st H. destruct (relay_loop_running _ _ _ _ Hc H) as (H1 & H2 & H3).
    split_and!; [done|done|done|]. by apply relay_loop_open in H.
  - intros n m H. destruct (relay_loop_ok _ _ _ _ _ Hc H) as (u & r & He & Hn & Hm).
    by exists u, r.
Qed.

Definition demo_limits : RelayLimits := {| idle := Some 30; max_lifetime := Some 1000 |}.

Definition demo_events : list (Z * event) :=
  [(5, Read A (inr [1; 2; 3]) None); (20, Read B (inr [9]) None); (41, Read A (inr [4]) None);
   (50, Read A (inr []) None); (60, Read B (inr []) None); (61, IdleFires)].

Lemma relay_preserves_streams_witness :
  relay_loop demo_limits (relay_start demo_limits 0) demo_events = Some (inl (Ok (4, 1)))
  /\ exists used rest, demo_events = used ++ rest /\ 4 = Z.of_nat (length (produced A used)).
Proof.
  destruct (relay_preserves_streams (fun _ => None) demo_limits 0 demo_events) as [_ H].
  split; [vm_compute; reflexivity|].
  destruct (H 4 1) as (u & r & H1 & H2 & _); [vm_compute; reflexivity|].
  exists u, r. split; [exact H1|exact H2].
Defined.

(** the relay's timers are honest. If a run that is still going is ended by
    the idle timer at [now], no byte was relayed during the last idle period; if it
    is ended by the lifetime timer, the session lasted at least its lifetime; and a
    timer that is not configured never ends it. *)
Theorem relay_timeouts_exact (limits : RelayLimits) (start now : Z) (evs : list (Z * event)) (st : state)
    (Hrun : relay_loop limits (relay_start limits start) evs = Some (inr st)) :
  (relay_step limits st now IdleFires = Some (inl (Err (IoError TimedOut IDLE_TIMEOUT_MSG))) <->
     exists i, idle limits = Some i /\ last_activity start evs + i <= now)
  /\ (relay_step limits st now LifetimeFires = Some (inl (Err (IoError TimedOut SESSION_LIFETIME_MSG))) <->
     exists t, max_lifetime limits = Some t /\ start + t <= now).
Proof.
  assert (Hnd : a_read_done st && b_read_done st = false) by (by eapply relay_loop_open).
  destruct (relay_loop_deadlines limits start (relay_start limits start) evs st eq_refl Hrun) as [Hi Hl].
  unfold relay_step. rewrite Hnd, Hi, Hl. cbn [relay_start lifetime_deadline].
  split.
  - destruct (idle limits) as [i|]; cbn; [|naive_solver].
    destruct (_ <=? now) eqn:E; bool_hyps; naive_solver lia.
  - destruct (max_lifetime limits) as [t|]; cbn; [|naive_solver].
    destruct (_ <=? now) eqn:E; bool_hyps; naive_solver lia.
Qed.

Lemma relay_timeouts_exact_witness :
  exists st, relay_loop demo_limits (relay_start demo_limits 0) [(5, Read A (inr [1]) None)] = Some (inr st)
    /\ relay_step demo_limits st 35 IdleFires = Some (inl (Err (IoError TimedOut IDLE_TIMEOUT_MSG))).
Proof.
  eexists. split; [vm_compute; reflexivity|].
  apply (relay_timeouts_exact demo_limits 0 35 [(5, Read A (inr [1]) None)]); [vm_compute; reflexivity|].
  exists 30. split; [reflexivity|]. vm_compute. discriminate.
Defined.
