(* ===== verification/Udp.v ===== *)
(** * VLESS over UDP
    Models crates/skadi-transport/src/udp.rs: the transport's connect policy, the
    length-prefixed framing, and the relay loop. The frame reader sits in a
    [select!] branch; when another branch wins, the future is dropped with the bytes
    it has already taken from the stream, which the model keeps track of. *)

From Stdlib Require Import Ascii String.
From stdpp Require Import base numbers list_numbers list strings.
From S2P Require Import Prelude Core Io Outbound Relay.

Definition MAX_VLESS_UDP_PAYLOAD : Z := 65535.

(** ** Framing *)

Definition too_large : io_error := IoError InvalidData "VLESS UDP frame too large".

Definition read_vless_udp_frame : io io_error (option bytes) := fun s =>
  match read_exact 2 s with
  | (Fail e, s) =>
    if bool_decide (io_kind e = UnexpectedEof) then (Done None, s) else (Fail e, s)
  | (Crash, s) => (Crash, s)
  | (Pending, s) => (Pending, s)
  | (Done len_buf, s) =>
    (b0 ← of_res (idx len_buf 0);
     b1 ← of_res (idx len_buf 1);
     let len := from_be16 b0 b1 in
     if MAX_VLESS_UDP_PAYLOAD <? len then fail too_large else
     payload ← (if 0 <? len then read_exact (Z.to_nat len) else mret []);
     mret (Some payload)) s
  end.

Definition write_vless_udp_frame (payload : bytes) : io io_error unit :=
  if MAX_VLESS_UDP_PAYLOAD <? Z.of_nat (length payload) then fail too_large else
  let len := to_be16 (as_u16 (Z.of_nat (length payload))) in
  _ ← write_all len;
  _ ← write_all payload;
  mret tt.

(** ** Connecting *)

Section Connect.
(** The system resolver, and connecting a bound socket to a resolved address. *)
Context (lookup_host : string -> io_error + list SocketAddr).
Context (bind : io_error + unit).
Context (connect : SocketAddr -> option (io_error + unit)).

(** [UdpTransport::connect]: [None] from [connect] is the timeout. *)
Definition udp_connect (allow_private : bool) (endpoint : Endpoint) : res anyhow SocketAddr :=
  match bind with
  | inl e => Err (add_context "failed to bind UDP socket" (anyhow_of_io e))
  | inr _ =>
    target ← resolve_endpoint lookup_host endpoint allow_private;
    match connect target with
    | None => Err (bail ("UDP connect timeout to " +:+ sock_display target))
    | Some (inl e) =>
      Err (add_context ("UDP connect failed to " +:+ sock_display target) (anyhow_of_io e))
    | Some (inr _) => Ok target
    end
  end.
End Connect.

(** ** The relay loop *)

Record udp_state := {
  client : stream;
  to_upstream : list bytes;
  client_to_upstream : Z;
  upstream_to_client : Z;
  u_idle_deadline : option Z;
  u_lifetime_deadline : option Z
}.

Inductive udp_event :=
| UIdle
| ULifetime
(** more bytes reach the client's socket *)
| Arrive (bs : bytes)
(** the frame reader completes first; [send] is the outcome of [upstream.send] *)
| FrameReady (send : option io_error)
(** a datagram arrives first; the dropped frame reader had taken [lost] bytes *)
| Datagram (r : io_error + bytes) (lost : nat).

Definition udp_start (limits : RelayLimits) (now : Z) (client : stream) : udp_state :=
  {| client := client; to_upstream := []; client_to_upstream := 0; upstream_to_client := 0;
     u_idle_deadline := option_map (Z.add now) (idle limits);
     u_lifetime_deadline := option_map (Z.add now) (max_lifetime limits) |}.

Definition arrive (s : stream) (bs : bytes) : stream :=
  Stream (rx s ++ bs) (rx_eof s) (tx s) (tx_quota s).

(** The bytes of an unfinished frame at the head of [rx]: what a frame reader can
    hold when it is dropped. *)
Definition partial_frame (bs : bytes) : Prop :=
  match bs with
  | [] | [_] => True
  | b0 :: b1 :: rest => Z.of_nat (length rest) < from_be16 b0 b1
  end.

#[export] Instance partial_frame_dec bs : Decision (partial_frame bs).
Proof. destruct bs as [|? [|? ?]]; cbn; apply _. Defined.

Definition udp_step (limits : RelayLimits) (st : udp_state) (now : Z) (ev : udp_event)
    : option ((res io_error (Z * Z)) + udp_state) :=
  let deadline := option_map (Z.add now) (idle limits) in
  match ev with
  | UIdle =>
    if reached (u_idle_deadline st) now
    then Some (inl (Err (IoError TimedOut IDLE_TIMEOUT_MSG))) else None
  | ULifetime =>
    if reached (u_lifetime_deadline st) now
    then Some (inl (Err (IoError TimedOut SESSION_LIFETIME_MSG))) else None
  | Arrive bs =>
    Some (inr {| client := arrive (client st) bs; to_upstream := to_upstream st;
                 client_to_upstream := client_to_upstream st;
                 upstream_to_client := upstream_to_client st;
                 u_idle_deadline := u_idle_deadline st;
                 u_lifetime_deadline := u_lifetime_deadline st |})
  | FrameReady send =>
    match read_vless_udp_frame (client st) with
    | (Done None, _) => Some (inl (Ok (client_to_upstream st, upstream_to_client st)))
    | (Done (Some payload), s) =>
      match send with
      | Some e => Some (inl (Err e))
      | None =>
        Some (inr {| client := s; to_upstream := to_upstream st ++ [payload];
                     client_to_upstream := client_to_upstream st + Z.of_nat (length payload);
                     upstream_to_client := upstream_to_client st;
                     u_idle_deadline := deadline; u_lifetime_deadline := u_lifetime_deadline st |})
      end
    | (Fail e, _) => Some (inl (Err e))
    | (Crash, _) => Some (inl Panic)
    | (Pending, _) => None
    end
  | Datagram r lost =>
    if negb (bool_decide (lost <= length (rx (client st)))%nat)
       || negb (bool_decide (partial_frame (take lost (rx (client st))))) then None else
    let s := with_rx (drop lost (rx (client st))) (client st) in
    match r with
    | inl e => Some (inl (Err e))
    | inr [] =>
      Some (inr {| client := s; to_upstream := to_upstream st;
                   client_to_upstream := client_to_upstream st;
                   upstream_to_client := upstream_to_client st;
                   u_idle_deadline := u_idle_deadline st;
                   u_lifetime_deadline := u_lifetime_deadline st |})
    | inr data =>
      match write_vless_udp_frame data s with
      | (Done _, s) =>
        Some (inr {| client := s; to_upstream := to_upstream st;
                     client_to_upstream := client_to_upstream st;
                     upstream_to_client := upstream_to_client st + Z.of_nat (length data);
                     u_idle_deadline := deadline; u_lifetime_deadline := u_lifetime_deadline st |})
      | (Fail e, _) => Some (inl (Err e))
      | (Crash, _) => Some (inl Panic)
      | (Pending, _) => None
      end
    end
  end.

(** [relay_vless_udp_with_limits] over a sequence of events; [inr]: still running. *)
Fixpoint udp_loop (limits : RelayLimits) (st : udp_state) (evs : list (Z * udp_event))
    : option ((res io_error (Z * Z)) + udp_state) :=
  match evs with
  | [] => Some (inr st)
  | (now, ev) :: evs =>
    match udp_step limits st now ev with
    | Some (inr st) => udp_loop limits st evs
    | r => r
    end
  end.

Definition relay_vless_udp_with_limits (limits : RelayLimits) (start : Z) (client : stream)
    (evs : list (Z * udp_event)) : option ((res io_error (Z * Z)) + udp_state) :=
  udp_loop limits (udp_start limits start client) evs.

(** ** Specification *)

Definition wire_frame (payload : bytes) : bytes :=
  to_be16 (Z.of_nat (length payload)) ++ payload.

Definition wire_frames (ps : list bytes) : bytes := mjoin (map wire_frame ps).

Definition payload_ok (p : bytes) : Prop := Z.of_nat (length p) <= MAX_VLESS_UDP_PAYLOAD.

(** What the client's socket has delivered, and the datagrams that came back. *)
Fixpoint arrived (evs : list (Z * udp_event)) : bytes :=
  match evs with
  | [] => []
  | (_, Arrive bs) :: evs => bs ++ arrived evs
  | _ :: evs => arrived evs
  end.

Fixpoint received (evs : list (Z * udp_event)) : list bytes :=
  match evs with
  | [] => []
  | (_, Datagram (inr (b :: d)) _) :: evs => (b :: d) :: received evs
  | _ :: evs => received evs
  end.

(** No frame reader was dropped in the middle of a frame. *)
Definition lossless (evs : list (Z * udp_event)) : Prop :=
  Forall (fun p => match p.2 with Datagram _ lost => lost = 0%nat | _ => True end) evs.

(** ** Lemmas *)

Lemma wire_frames_cons p ps : wire_frames (p :: ps) = wire_frame p ++ wire_frames ps.
Proof. done. Qed.

Lemma wire_frames_app ps qs : wire_frames (ps ++ qs) = wire_frames ps ++ wire_frames qs.
Proof.
  induction ps as [|p ps IH]; [done|]. rewrite <- app_comm_cons, !wire_frames_cons, IH. by rewrite app_assoc.
Qed.

Lemma read_frame_wire p rest s :
  payload_ok p -> rx s = wire_frame p ++ rest ->
  read_vless_udp_frame s = (Done (Some p), with_rx rest s).
Proof.
  unfold payload_ok, MAX_VLESS_UDP_PAYLOAD. intros Hp Hrx. unfold wire_frame in Hrx.
  rewrite <- app_assoc in Hrx. unfold read_vless_udp_frame.
  rewrite (run_read _ _ s 2 Hrx) by done.
  eapply bind_run; [by apply run_res|]. eapply bind_run; [by apply run_res|]. cbv zeta.
  rewrite from_to_be16 by (unfold u16_ok; lia).
  destruct (MAX_VLESS_UDP_PAYLOAD <? _) eqn:E; bool_hyps; [unfold MAX_VLESS_UDP_PAYLOAD in E; lia|].
  apply bind_run with (a := p) (s1 := with_rx rest s); [|done].
  destruct (0 <? _) eqn:E0; bool_hyps.
  - rewrite Nat2Z.id. by apply (run_read p rest (with_rx (p ++ rest) s)).
  - destruct p as [|b p]; [|cbn in E0; lia]. done.
Qed.

Lemma write_frame_wire p s :
  payload_ok p -> tx_quota s = None ->
  write_vless_udp_frame p s = (Done tt, with_tx (tx s ++ wire_frame p) s).
Proof.
  unfold payload_ok. intros Hp Hq. unfold write_vless_udp_frame.
  destruct (MAX_VLESS_UDP_PAYLOAD <? _) eqn:E; bool_hyps; [lia|].
  rewrite as_u16_small by (unfold u16_ok, MAX_VLESS_UDP_PAYLOAD in *; lia).
  destruct s as [r eof t q]. cbn in Hq. subst q. unfold wire_frame, with_tx, write_all, mbind, io_bind.
  cbn [tx tx_quota rx rx_eof]. by rewrite <- app_assoc.
Qed.

Lemma read_frame_sound s p s' :
  bytes_ok (rx s) -> read_vless_udp_frame s = (Done (Some p), s') ->
  payload_ok p /\ rx s = wire_frame p ++ rx s' /\ tx s' = tx s /\ tx_quota s' = tx_quota s.
Proof.
  intros Hb H. unfold read_vless_udp_frame in H.
  destruct (read_exact 2 s) as [[l|e| |] s1] eqn:Hr; try done; [|by case_bool_decide].
  apply read_exact_done in Hr as (Hrx & Hl & _ & Ht & Hq).
  destruct l as [|b0 [|b1 [|]]]; try done. rewrite Hrx in Hb. inv_bytes_ok.
  pose proof (from_be16_ok b0 b1 ltac:(done) ltac:(done)) as Hlen. unfold u16_ok in Hlen.
  apply bind_done in H as (x0 & s2 & Hi0 & H). io_inv Hi0. injection Hi0 as <-.
  apply bind_done in H as (x1 & s3 & Hi1 & H). io_inv Hi1. injection Hi1 as <-. cbv zeta in H.
  destruct (MAX_VLESS_UDP_PAYLOAD <? _) eqn:E; [done|]. bool_hyps.
  apply bind_done in H as (pl & s4 & Hp & H). injection H as -> ->.
  assert (Hpl : rx s1 = p ++ rx s' /\ Z.of_nat (length p) = from_be16 b0 b1 /\ tx s' = tx s1
    /\ tx_quota s' = tx_quota s1).
  { destruct (0 <? _) eqn:E0; bool_hyps.
    - apply read_exact_done in Hp as (Hp1 & Hp2 & _ & Hp3 & Hp4). split_and!; try done. lia.
    - injection Hp as <- <-. split_and!; try done. cbn. lia. }
  destruct Hpl as (Hp1 & Hp2 & Hp3 & Hp4). unfold payload_ok, MAX_VLESS_UDP_PAYLOAD.
  split_and!; [lia| |congruence|congruence].
  rewrite Hrx, Hp1. unfold wire_frame. rewrite Hp2, to_from_be16 by done. done.
Qed.

(** With only the length prefix there, the frame reader waits. *)
Lemma read_frame_pending b0 b1 s :
  rx s = [b0; b1] -> rx_eof s = false -> 0 < from_be16 b0 b1 <= MAX_VLESS_UDP_PAYLOAD ->
  exists s', read_vless_udp_frame s = (Pending, s').
Proof.
  intros Hrx He Hlen. unfold read_vless_udp_frame. rewrite (run_read [b0; b1] [] s 2) by done.
  eexists. eapply bind_run; [by apply run_res|]. eapply bind_run; [by apply run_res|]. cbv zeta.
  destruct (MAX_VLESS_UDP_PAYLOAD <? _) eqn:E; bool_hyps; [lia|].
  destruct (0 <? _) eqn:E0; bool_hyps; [|lia]. unfold mbind, io_bind, read_exact.
  cbn [rx with_rx length rx_eof]. destruct (_ <=? 0)%nat eqn:E1; bool_hyps; [lia|]. by rewrite He.
Qed.

Definition udp_inv (evs : list (Z * udp_event)) (st0 st : udp_state) : Prop :=
  exists ps, to_upstream st = to_upstream st0 ++ ps
    /\ rx (client st0) ++ arrived evs = wire_frames ps ++ rx (client st)
    /\ tx (client st) = tx (client st0) ++ wire_frames (received evs)
    /\ Forall payload_ok ps.

Lemma bytes_ok_suffix a b : bytes_ok (a ++ b) -> bytes_ok b.
Proof. by intros [_ H]%bytes_ok_app. Qed.

Lemma udp_step_inv limits st now ev st1 :
  bytes_ok (rx (client st)) -> tx_quota (client st) = None ->
  match ev with Datagram _ lost => lost = 0%nat | _ => True end ->
  udp_step limits st now ev = Some (inr st1) ->
  udp_inv [(now, ev)] st st1 /\ tx_quota (client st1) = None.
Proof.
  intros Hb Hq Hl Hs. unfold udp_inv. destruct ev as [| |bs|send|[e|[|b d]] lost]; cbn [udp_step] in Hs.
  - by case_match.
  - by case_match.
  - injection Hs as <-. cbn. rewrite !app_nil_r. split; [|done]. exists [].
    rewrite !app_nil_r. split_and!; [done|done|done|apply Forall_nil_2].
  - destruct (read_vless_udp_frame (client st)) as [[[p|]|e| |] s'] eqn:Hr; try done.
    destruct send; [done|]. injection Hs as <-. cbn. rewrite !app_nil_r.
    apply read_frame_sound in Hr as (Hp & Hrx & Ht & Hq'); [|done]. split; [|congruence].
    exists [p]. cbn. rewrite app_nil_r. split_and!; [done|done|done|by apply Forall_singleton].
  - by destruct (negb _ || negb _).
  - destruct (negb _ || negb _); [done|]. injection Hs as <-. subst lost. cbn.
    rewrite !app_nil_r. split; [|done]. exists []. rewrite !app_nil_r, drop_0.
    split_and!; [done|done|done|apply Forall_nil_2].
  - destruct (negb _ || negb _); [done|]. subst lost.
    set (s0 := with_rx _ _) in Hs.
    destruct (MAX_VLESS_UDP_PAYLOAD <? Z.of_nat (length (b :: d))) eqn:E.
    { unfold write_vless_udp_frame in Hs. by rewrite E in Hs. }
    bool_hyps. rewrite write_frame_wire in Hs by done. injection Hs as <-. cbn [client].
    split; [|done]. exists []. cbn. rewrite !app_nil_r, drop_0.
    split_and!; [done|done|done|apply Forall_nil_2].
Qed.

Lemma udp_loop_inv limits st evs st' :
  bytes_ok (rx (client st) ++ arrived evs) -> tx_quota (client st) = None -> lossless evs ->
  udp_loop limits st evs = Some (inr st') -> udp_inv evs st st'.
Proof.
  revert st. induction evs as [|[now ev] evs IH]; intros st Hb Hq Hl Hr; cbn [udp_loop] in Hr.
  { injection Hr as <-. exists []. cbn. rewrite !app_nil_r. split_and!; done. }
  inversion_clear Hl as [|? ? Hlost Hl']. cbn in Hlost.
  destruct (udp_step limits st now ev) as [[r|st1]|] eqn:Hs; try done.
  assert (Hb0 : bytes_ok (rx (client st))) by (by apply bytes_ok_app in Hb as [? _]).
  destruct (udp_step_inv limits st now ev st1 Hb0 Hq Hlost Hs) as [(ps & P1 & P2 & P3 & P4) Hq1].
  assert (Ha : arrived ((now, ev) :: evs) = arrived [(now, ev)] ++ arrived evs).
  { destruct ev; cbn; rewrite ?app_nil_r; done. }
  assert (Hd : received ((now, ev) :: evs) = received [(now, ev)] ++ received evs).
  { destruct ev as [| | | |[?|[|? ?]] ?]; done. }
  rewrite Ha, app_assoc, P2, <- app_assoc in Hb. apply bytes_ok_suffix in Hb.
  destruct (IH st1 Hb Hq1 Hl' Hr) as (qs & Q1 & Q2 & Q3 & Q4).
  exists (ps ++ qs). split_and!.
  - by rewrite Q1, P1, app_assoc.
  - rewrite Ha, app_assoc, P2, wire_frames_app, <- !app_assoc. by rewrite Q2.
  - rewrite Q3, P3, Hd, wire_frames_app. by rewrite app_assoc.
  - by apply Forall_app_2.
Qed.

(** ** Properties *)

(** VLESS UDP framing round-trips. Writing any datagrams of at most 65535
    bytes one after the other and reading frames from the result returns exactly
    these datagrams in order, then end of stream; a larger datagram is refused and
    nothing is written. *)
Theorem udp_framing_roundtrip (p rest : bytes) (s : stream) (Hq : tx_quota s = None) :
  (payload_ok p ->
     write_vless_udp_frame p s = (Done tt, with_tx (tx s ++ wire_frame p) s)
     /\ (forall r, rx r = wire_frame p ++ rest ->
          read_vless_udp_frame r = (Done (Some p), with_rx rest r)))
  /\ (~ payload_ok p -> write_vless_udp_frame p s = (Fail too_large, s))
  /\ (forall r, rx r = [] -> rx_eof r = true -> exists r', read_vless_udp_frame r = (Done None, r')).
Proof.
  split_and!.
  - intros Hp. split; [by apply write_frame_wire|]. intros r Hr. by apply read_frame_wire.
  - intros Hp. unfold write_vless_udp_frame, payload_ok in *.
    destruct (MAX_VLESS_UDP_PAYLOAD <? _) eqn:E; [done|]. bool_hyps. lia.
  - intros [r eof t q] Hr He. cbn in *. subst. by eexists.
Qed.

Lemma udp_framing_roundtrip_witness :
  read_vless_udp_frame (Stream (wire_frame [1; 2; 3] ++ [9]) false [] None)
  = (Done (Some [1; 2; 3]), Stream [9] false [] None).
Proof.
  destruct (udp_framing_roundtrip [1; 2; 3] [9] (Stream [] false [] None)) as (H & _ & _).
  - reflexivity.
  - apply H; [vm_compute; discriminate|reflexivity].
Defined.

(** C23: the UDP relay is faithful as long as no frame read is interrupted. In a
    run in which every datagram from upstream arrived between frames, the datagrams
    sent upstream are exactly the frames the client's bytes spell, in order, with
    the unread rest still in the stream, and the client has been sent exactly the
    frames of the datagrams received. *)
Theorem udp_relay_faithful (limits : RelayLimits) (start : Z) (s : stream) (evs : list (Z * udp_event))
    (st : udp_state)
    (Hb : bytes_ok (rx s ++ arrived evs)) (Hq : tx_quota s = None) (Hl : lossless evs)
    (Hr : relay_vless_udp_with_limits limits start s evs = Some (inr st)) :
  rx s ++ arrived evs = wire_frames (to_upstream st) ++ rx (client st)
  /\ tx (client st) = tx s ++ wire_frames (received evs)
  /\ Forall payload_ok (to_upstream st).
Proof.
  destruct (udp_loop_inv limits (udp_start limits start s) evs st Hb Hq Hl Hr) as (ps & P1 & P2 & P3 & P4).
  cbn in P1, P2, P3. rewrite P1. done.
Qed.

Definition demo_udp_events : list (Z * udp_event) :=
  [(1, Arrive ([0; 2; 7; 8; 0; 1])); (2, FrameReady None); (3, Datagram (inr [5]) 0);
   (4, Arrive [9]); (5, FrameReady None)].

Lemma udp_relay_faithful_witness :
  exists st, relay_vless_udp_with_limits demo_limits 0 (Stream [] false [] None) demo_udp_events = Some (inr st)
    /\ to_upstream st = [[7; 8]; [9]] /\ tx (client st) = [0; 1; 5].
Proof.
  eexists. split; [vm_compute; reflexivity|]. split; [reflexivity|].
  edestruct (udp_relay_faithful demo_limits 0 (Stream [] false [] None) demo_udp_events)
    as (_ & H & _).
  - solve_bytes_ok.
  - reflexivity.
  - repeat (apply Forall_cons_2; [first [exact I|reflexivity]|]). apply Forall_nil_2.
  - vm_compute. reflexivity.
  - exact H.
Defined.

(** an interrupted frame read corrupts the client's stream. When the client's
    frame has arrived up to its length prefix and a datagram from upstream wins the
    [select!] at that moment, the two prefix bytes are gone: the payload that arrives
    next is parsed as a new length prefix, and the datagram the client sent is never
    forwarded. *)
Theorem udp_relay_interrupted_read (start : Z) (b0 b1 b2 b3 d : Z) :
  0 < from_be16 b0 b1 <= 65535 -> 0 < from_be16 b2 b3 <= 65535 ->
  exists st,
    relay_vless_udp_with_limits {| idle := None; max_lifetime := None |} start (Stream [] false [] None)
      [(start, Arrive [b0; b1]); (start, Datagram (inr [d]) 2); (start, Arrive [b2; b3])] = Some (inr st)
    /\ to_upstream st = [] /\ rx (client st) = [b2; b3]
    /\ udp_step {| idle := None; max_lifetime := None |} st start (FrameReady None) = None.
Proof.
  intros H1 H2. unfold relay_vless_udp_with_limits. cbn [udp_loop udp_step udp_start client arrive rx app].
  rewrite bool_decide_eq_true_2 by (cbn; lia).
  rewrite bool_decide_eq_true_2 by (cbn; lia). cbn [negb orb].
  eexists. split; [reflexivity|]. split; [reflexivity|]. split; [reflexivity|].
  cbn [udp_step client].
  edestruct (read_frame_pending b2 b3) as [s' ->]; [..|done]; [reflexivity|reflexivity|].
  unfold MAX_VLESS_UDP_PAYLOAD. lia.
Qed.

Lemma udp_relay_interrupted_read_witness :
  exists st,
    relay_vless_udp_with_limits {| idle := None; max_lifetime := None |} 0 (Stream [] false [] None)
      [(0, Arrive [0; 2]); (0, Datagram (inr [5]) 2); (0, Arrive [7; 8])] = Some (inr st)
    /\ to_upstream st = [] /\ rx (client st) = [7; 8]
    /\ udp_step {| idle := None; max_lifetime := None |} st 0 (FrameReady None) = None.
Proof. apply (udp_relay_interrupted_read 0 0 2 7 8 5); vm_compute; split; (reflexivity || discriminate). Defined.
