(* ===== verification/MuxRelay.v ===== *)
(** * The mux relay
    Models crates/skadi-transport/src/mux.rs: the frame reader, the session table,
    the XUDP cone and the reader tasks of one mux connection. The connection is a
    state machine: the main task is in its [select!], handling a frame, or waiting
    for an upstream's lock or for the client's writer; every reader task is waiting
    for its upstream's lock, reading while it holds the lock, sending a frame, or about
    to remove its session. A frame leaves in pieces while its task holds the writer's
    mutex, and a task can be aborted between any two pieces, which releases the mutex;
    the upstream mutexes are held across a read. The sessions mutex is held for one
    operation at a time, which makes these operations atomic. *)

From Stdlib Require Import Ascii String.
From stdpp Require Import base numbers list_numbers strings pretty gmap fin_maps list.
From S2P Require Import Prelude Core Io VlessParse Outbound Connect MuxFrame Xudp Relay Udp.

(** ** Frames on the client's stream *)

Definition map_mux_error (e : MuxError) : io_error := IoError InvalidData (mux_error_display e).

Definition read_mux_frame : io io_error (option MuxFrame) := fun s =>
  match read_exact 2 s with
  | (Fail e, s) => if bool_decide (io_kind e = UnexpectedEof) then (Done None, s) else (Fail e, s)
  | (Crash, s) => (Crash, s)
  | (Pending, s) => (Pending, s)
  | (Done len_buf, s) =>
    (b0 ← of_res (idx len_buf 0);
     b1 ← of_res (idx len_buf 1);
     let meta_len := Z.to_nat (from_be16 b0 b1) in
     if (MAX_META_LEN <? meta_len)%nat then fail (map_mux_error (MetaTooLarge meta_len)) else
     meta_body ← read_exact meta_len;
     meta ← of_res (map_err map_mux_error (parse_meta_body meta_body));
     if has_data meta then
       chunk_len_buf ← read_exact 2;
       c0 ← of_res (idx chunk_len_buf 0);
       c1 ← of_res (idx chunk_len_buf 1);
       let chunk_len := Z.to_nat (from_be16 c0 c1) in
       if (MAX_CHUNK_SIZE <? chunk_len)%nat then fail (map_mux_error (ChunkTooLarge chunk_len)) else
       payload ← (if (0 <? chunk_len)%nat then read_exact chunk_len else mret []);
       mret (Some {| meta := meta; payload := Some payload |})
     else mret (Some {| meta := meta; payload := None |})) s
  end.

(** [MuxWriter]. *)
Definition write_frame (frame : bytes) : io io_error unit :=
  _ ← write_all frame;
  flush.

(** [write_mux_data], [write_data] and [write_end] up to their call of [write_frame]:
    the frame they hand to it, or the error they return instead. *)
Definition write_mux_data (sid status : Z) (target : option Endpoint) (payload : bytes) : res io_error bytes :=
  let meta := {| session_id := sid; MuxFrame.status := status; mux_option := OPTION_DATA;
                 network := match target with Some _ => Some NETWORK_UDP | None => None end;
                 mux_target := target; global_id := None |} in
  map_err map_mux_error (encode_data_frame meta payload).

Definition write_data (sid status : Z) (payload : bytes) : res io_error bytes :=
  write_mux_data sid status None payload.

Definition write_end (sid : Z) : bytes := encode_end_frame sid false.

(** ** The state of a mux connection *)

(** Upstreams (the shared [Arc]s) and tasks are numbered as they are created. *)
Inductive MuxSession :=
| Tcp (upstream reader_task : Z)
| Udp (upstream reader_task : Z).

Definition ms_upstream (s : MuxSession) : Z := match s with Tcp u _ | Udp u _ => u end.
Definition ms_task (s : MuxSession) : Z := match s with Tcp _ t | Udp _ t => t end.

Record XudpCone := { cone_gid : option bytes; cone_socket : Z; cone_reader : option Z }.

Inductive pump := PumpTcp (upstream : Z) | PumpUdp (upstream : Z) | PumpXudp (socket : Z).

#[export] Instance pump_eq_dec : EqDecision pump.
Proof. solve_decision. Defined.

(** What a reader task sends: the chunk it has read (with its origin, for a datagram of
    the cone), or the end of its session. *)
Inductive sends := SendData (origin : option Endpoint) (data : bytes) | SendEnd.

(** A task in [write_frame] waits for the writer ([written] is [None]) or holds it
    and has written so many bytes of the frame. *)
Inductive phase :=
| Locking
| Reading
| Sending (what : sends) (frame : bytes) (written : option nat)
| Closing.

#[export] Instance sends_eq_dec : EqDecision sends.
Proof. solve_decision. Defined.

#[export] Instance phase_eq_dec : EqDecision phase.
Proof. solve_decision. Defined.

Record task := { t_sid : Z; t_pump : pump; t_phase : phase }.

(** What the main task is doing: the [select!], the handler of a frame, the wait of
    [forward_keep_frame] for the lock of an upstream, or [write_end], which waits for
    the writer. *)
Inductive main :=
| Select
| Handling (f : MuxFrame)
| Forwarding (upstream : Z) (payload : bytes)
| Ending (sid : Z).

Record mux := {
  m_client : stream;
  m_main : main;
  m_sessions : gmap Z MuxSession;
  m_xudp : option XudpCone;
  m_registry : XudpManager;
  m_tasks : gmap Z task;
  m_next : Z;
  (** what has been written to each upstream, and sent from XUDP sockets *)
  m_outbox : list (Z * bytes);
  m_datagrams : list (Z * SocketAddr * bytes);
  m_c2u : Z;
  m_u2c : Z;
  m_idle : option Z;
  m_lifetime : option Z
}.

Definition set_client (m : mux) (s : stream) : mux :=
  {| m_client := s; m_main := m_main m; m_sessions := m_sessions m; m_xudp := m_xudp m;
     m_registry := m_registry m; m_tasks := m_tasks m; m_next := m_next m; m_outbox := m_outbox m;
     m_datagrams := m_datagrams m; m_c2u := m_c2u m; m_u2c := m_u2c m; m_idle := m_idle m;
     m_lifetime := m_lifetime m |}.

Definition set_main (m : mux) (x : main) : mux :=
  {| m_client := m_client m; m_main := x; m_sessions := m_sessions m; m_xudp := m_xudp m;
     m_registry := m_registry m; m_tasks := m_tasks m; m_next := m_next m; m_outbox := m_outbox m;
     m_datagrams := m_datagrams m; m_c2u := m_c2u m; m_u2c := m_u2c m; m_idle := m_idle m;
     m_lifetime := m_lifetime m |}.

Definition set_sessions (m : mux) (x : gmap Z MuxSession) : mux :=
  {| m_client := m_client m; m_main := m_main m; m_sessions := x; m_xudp := m_xudp m;
     m_registry := m_registry m; m_tasks := m_tasks m; m_next := m_next m; m_outbox := m_outbox m;
     m_datagrams := m_datagrams m; m_c2u := m_c2u m; m_u2c := m_u2c m; m_idle := m_idle m;
     m_lifetime := m_lifetime m |}.

Definition set_tasks (m : mux) (x : gmap Z task) : mux :=
  {| m_client := m_client m; m_main := m_main m; m_sessions := m_sessions m; m_xudp := m_xudp m;
     m_registry := m_registry m; m_tasks := x; m_next := m_next m; m_outbox := m_outbox m;
     m_datagrams := m_datagrams m; m_c2u := m_c2u m; m_u2c := m_u2c m; m_idle := m_idle m;
     m_lifetime := m_lifetime m |}.

Definition set_cone (m : mux) (x : option XudpCone) : mux :=
  {| m_client := m_client m; m_main := m_main m; m_sessions := m_sessions m; m_xudp := x;
     m_registry := m_registry m; m_tasks := m_tasks m; m_next := m_next m; m_outbox := m_outbox m;
     m_datagrams := m_datagrams m; m_c2u := m_c2u m; m_u2c := m_u2c m; m_idle := m_idle m;
     m_lifetime := m_lifetime m |}.

(** The tasks that an abort handle or [JoinHandle::abort] has stopped. *)
Definition kill (ts : list Z) (tasks : gmap Z task) : gmap Z task := foldr delete tasks ts.

(** A new state of the global registry: the readers it aborted are gone. *)
Definition set_registry (m : mux) (r : XudpManager) : mux :=
  {| m_client := m_client m; m_main := m_main m; m_sessions := m_sessions m; m_xudp := m_xudp m;
     m_registry := r; m_tasks := kill (aborted r) (m_tasks m); m_next := m_next m;
     m_outbox := m_outbox m; m_datagrams := m_datagrams m; m_c2u := m_c2u m; m_u2c := m_u2c m;
     m_idle := m_idle m; m_lifetime := m_lifetime m |}.

Definition add_datagram (m : mux) (sock : Z) (addr : SocketAddr) (p : bytes) : mux :=
  {| m_client := m_client m; m_main := m_main m; m_sessions := m_sessions m; m_xudp := m_xudp m;
     m_registry := m_registry m; m_tasks := m_tasks m; m_next := m_next m; m_outbox := m_outbox m;
     m_datagrams := m_datagrams m ++ [(sock, addr, p)]; m_c2u := m_c2u m; m_u2c := m_u2c m;
     m_idle := m_idle m; m_lifetime := m_lifetime m |}.

Definition add_outbox (m : mux) (u : Z) (p : bytes) : mux :=
  {| m_client := m_client m; m_main := m_main m; m_sessions := m_sessions m; m_xudp := m_xudp m;
     m_registry := m_registry m; m_tasks := m_tasks m; m_next := m_next m;
     m_outbox := m_outbox m ++ [(u, p)]; m_datagrams := m_datagrams m; m_c2u := m_c2u m;
     m_u2c := m_u2c m; m_idle := m_idle m; m_lifetime := m_lifetime m |}.

(** [tokio::spawn]: a task with the next number. *)
Definition spawn (m : mux) (tk : task) : mux :=
  {| m_client := m_client m; m_main := m_main m; m_sessions := m_sessions m; m_xudp := m_xudp m;
     m_registry := m_registry m; m_tasks := <[m_next m := tk]> (m_tasks m); m_next := m_next m + 1;
     m_outbox := m_outbox m; m_datagrams := m_datagrams m; m_c2u := m_c2u m; m_u2c := m_u2c m;
     m_idle := m_idle m; m_lifetime := m_lifetime m |}.

(** ** Frame handlers *)

(** What the system answers during one handler. *)
Record mux_env := {
  e_net : Net;
  e_tcp : OutboundTcpTransport;
  (** [outbound_udp.allow_private()] *)
  e_allow_private : bool;
  (** [UdpSocket::bind] and connecting the bound socket ([None]: timeout) *)
  e_bind : io_error + Z;
  e_udp_connect : SocketAddr -> option (io_error + unit);
  (** the outcome of a write or send to an upstream *)
  e_write : option io_error;
  e_now : Z
}.

Definition mux_io (A : Type) : Type := mux -> outcome io_error A * mux.

#[export] Instance mux_ret : MRet mux_io := fun A a m => (Done a, m).
#[export] Instance mux_bind : MBind mux_io := fun A B f c m =>
  match c m with
  | (Done a, m) => f a m
  | (Fail e, m) => (Fail e, m)
  | (Crash, m) => (Crash, m)
  | (Pending, m) => (Pending, m)
  end.

Definition mfail {A} (e : io_error) : mux_io A := fun m => (Fail e, m).
Definition modify (f : mux -> mux) : mux_io unit := fun m => (Done tt, f m).
Definition gets {A} (f : mux -> A) : mux_io A := fun m => (Done (f m), m).

(** A result used with [?]. *)
Definition lift {A} (r : res io_error A) : mux_io A := fun m =>
  match r with
  | Ok a => (Done a, m)
  | Err e => (Fail e, m)
  | Panic => (Crash, m)
  end.

Definition other_error (e : anyhow) : io_error := IoError OtherKind (anyhow_to_string e).

Record RelayBytes := { rb_c2u : Z; rb_u2c : Z }.
Definition no_bytes : RelayBytes := {| rb_c2u := 0; rb_u2c := 0 |}.
Definition count_up (b : RelayBytes) (p : bytes) : RelayBytes :=
  {| rb_c2u := rb_c2u b + Z.of_nat (length p); rb_u2c := rb_u2c b |}.

(** The handler finished, has to wait for the lock of an upstream before it writes a
    payload there, or for the client's writer before it ends a session. *)
Inductive handled := Finished (b : RelayBytes) | Awaits (upstream : Z) (payload : bytes) | Ends (sid : Z).

(** [frame.payload.as_deref().filter(|p| !p.is_empty())]. *)
Definition nonempty_payload (f : MuxFrame) : option bytes :=
  match payload f with
  | Some (b :: p) => Some (b :: p)
  | _ => None
  end.

(** A write to an upstream that no one else uses yet; [write_all] of an empty
    buffer does nothing. *)
Definition first_write (env : mux_env) (u : Z) (p : bytes) (bytes : RelayBytes) : mux_io RelayBytes :=
  match e_write env with
  | Some e => mfail e
  | None =>
    _ ← modify (fun m => add_outbox m u p);
    mret (count_up bytes p)
  end.

Definition open_tcp_session (env : mux_env) (f : MuxFrame) (target : Endpoint) (bytes : RelayBytes)
    : mux_io RelayBytes :=
  _ ← lift (map_err other_error (OutboundTcp_connect (e_net env) (e_tcp env) target).1);
  id ← gets m_next;
  bytes ← match nonempty_payload f with
          | Some p => first_write env id p bytes
          | None => mret bytes
          end;
  let sid := session_id (meta f) in
  _ ← modify (fun m => spawn m {| t_sid := sid; t_pump := PumpTcp id; t_phase := Locking |});
  _ ← modify (fun m => set_sessions m (<[sid := Tcp id id]> (m_sessions m)));
  mret bytes.

Definition open_udp_session (env : mux_env) (f : MuxFrame) (target : Endpoint) (bytes : RelayBytes)
    : mux_io RelayBytes :=
  _ ← lift (map_err other_error
              (udp_connect (lookup_host (e_net env))
                 (match e_bind env with inl e => inl e | inr _ => inr tt end)
                 (e_udp_connect env) (e_allow_private env) target));
  id ← gets m_next;
  bytes ← match nonempty_payload f with
          | Some p => first_write env id p bytes
          | None => mret bytes
          end;
  let sid := session_id (meta f) in
  _ ← modify (fun m => spawn m {| t_sid := sid; t_pump := PumpUdp id; t_phase := Locking |});
  _ ← modify (fun m => set_sessions m (<[sid := Udp id id]> (m_sessions m)));
  mret bytes.

Definition forward_keep_frame (f : MuxFrame) (bytes : RelayBytes) : mux_io handled :=
  let sid := session_id (meta f) in
  let p := nonempty_payload f in
  session ← gets (fun m => m_sessions m !! sid);
  match session, p with
  | None, _ => mret (Ends sid)
  | Some (Tcp u _), Some p => mret (Awaits u p)
  | Some (Udp u _), Some p => mret (Awaits u p)
  | Some _, None => mret (Finished bytes)
  end.

(** *** XUDP *)

Definition is_xudp_frame (meta : MuxMeta) : bool :=
  (session_id meta =? XUDP_SESSION_ID)
  && match network meta with Some n => n =? NETWORK_UDP | None => false end.

Definition ensure_xudp_cone (env : mux_env) (gid : option bytes) : mux_io unit :=
  cone ← gets m_xudp;
  match cone with
  | Some cone =>
    match gid with
    | Some id =>
      modify (fun m => set_cone m (Some {| cone_gid := Some id; cone_socket := cone_socket cone;
                                           cone_reader := cone_reader cone |}))
    | None => mret tt
    end
  | None =>
    socket ← match gid with
             | Some id =>
               registry ← gets m_registry;
               let '(r, registry) := acquire registry id (e_bind env) in
               _ ← modify (fun m => set_registry m registry);
               '(socket, hit) ← lift r;
               mret socket
             | None =>
               match e_bind env with
               | inl e => mfail (IoError OtherKind (io_msg e))
               | inr s => mret s
               end
             end;
    modify (fun m => set_cone m (Some {| cone_gid := gid; cone_socket := socket; cone_reader := None |}))
  end.

Definition cone_missing : io_error := IoError NotConnected "xudp cone missing".

Definition start_xudp_reader_if_needed : mux_io unit :=
  cone ← gets m_xudp;
  match cone with
  | None => mfail cone_missing
  | Some cone =>
    match cone_reader cone with
    | Some _ => mret tt
    | None =>
      task ← gets m_next;
      _ ← modify (fun m => spawn m {| t_sid := XUDP_SESSION_ID; t_pump := PumpXudp (cone_socket cone);
                                      t_phase := Reading |});
      _ ← match cone_gid cone with
          | Some id => modify (fun m => set_registry m (register_reader (m_registry m) id task))
          | None => mret tt
          end;
      modify (fun m => set_cone m (Some {| cone_gid := cone_gid cone; cone_socket := cone_socket cone;
                                           cone_reader := Some task |}))
    end
  end.

Definition xudp_send (env : mux_env) (f : MuxFrame) (target : Endpoint) (bytes : RelayBytes)
    : mux_io RelayBytes :=
  match nonempty_payload f with
  | None => mret bytes
  | Some p =>
    addr ← lift (map_err other_error
                   (resolve_endpoint (lookup_host (e_net env)) target (e_allow_private env)));
    cone ← gets m_xudp;
    match cone with
    | None => mfail cone_missing
    | Some cone =>
      match e_write env with
      | Some e => mfail (IoError OtherKind (io_msg e))
      | None =>
        _ ← modify (fun m => add_datagram m (cone_socket cone) addr p);
        mret (count_up bytes p)
      end
    end
  end.

(** Abort the cone's reader and give its socket back to the registry. *)
Definition close_cone (now : Z) (m : mux) : mux :=
  match m_xudp m with
  | None => m
  | Some cone =>
    let m := set_cone m None in
    let m := match cone_reader cone with
             | Some t => set_tasks m (delete t (m_tasks m))
             | None => m
             end in
    match cone_gid cone with
    | Some id => set_registry m (detach (m_registry m) id now)
    | None => m
    end
  end.

Definition handle_xudp_frame (env : mux_env) (f : MuxFrame) (bytes : RelayBytes) : mux_io RelayBytes :=
  let st := MuxFrame.status (meta f) in
  if st =? SESSION_STATUS_NEW then
    match mux_target (meta f) with
    | None => mfail (IoError InvalidData "xudp new frame without target")
    | Some target =>
      _ ← ensure_xudp_cone env (global_id (meta f));
      bytes ← xudp_send env f target bytes;
      _ ← start_xudp_reader_if_needed;
      mret bytes
    end
  else if st =? SESSION_STATUS_KEEP then
    match mux_target (meta f) with
    | None => mret bytes
    | Some target =>
      cone ← gets m_xudp;
      _ ← match cone with
          | None => ensure_xudp_cone env None
          | Some _ => mret tt
          end;
      bytes ← xudp_send env f target bytes;
      _ ← start_xudp_reader_if_needed;
      mret bytes
    end
  else if st =? SESSION_STATUS_END then
    _ ← modify (close_cone (e_now env));
    mret bytes
  else if st =? SESSION_STATUS_KEEP_ALIVE then mret bytes
  else mfail (IoError InvalidData ("unknown xudp status: 0x" +:+ fmt_02x st)).

(** [MuxSession::abort]. *)
Definition abort (s : MuxSession) (m : mux) : mux := set_tasks m (delete (ms_task s) (m_tasks m)).

Definition remove_session (sid : Z) (m : mux) : mux :=
  match m_sessions m !! sid with
  | Some s => abort s (set_sessions m (delete sid (m_sessions m)))
  | None => m
  end.

Definition handle_mux_frame (env : mux_env) (f : MuxFrame) : mux_io handled :=
  let bytes := no_bytes in
  if is_xudp_frame (meta f) then
    bytes ← handle_xudp_frame env f bytes;
    mret (Finished bytes)
  else
  let st := MuxFrame.status (meta f) in
  if st =? SESSION_STATUS_NEW then
    match mux_target (meta f) with
    | None => mfail (IoError InvalidData "mux new frame without target")
    | Some target =>
      let network := default NETWORK_TCP (network (meta f)) in
      if network =? NETWORK_TCP then
        bytes ← open_tcp_session env f target bytes;
        mret (Finished bytes)
      else if network =? NETWORK_UDP then
        bytes ← open_udp_session env f target bytes;
        mret (Finished bytes)
      else mret (Ends (session_id (meta f)))
    end
  else if st =? SESSION_STATUS_KEEP then forward_keep_frame f bytes
  else if st =? SESSION_STATUS_END then
    _ ← modify (remove_session (session_id (meta f)));
    mret (Finished bytes)
  else if st =? SESSION_STATUS_KEEP_ALIVE then mret (Finished bytes)
  else mfail (IoError InvalidData ("unknown mux status: 0x" +:+ fmt_02x st)).

(** ** The relay *)

Inductive mux_event :=
(** the deadlines of the [select!] *)
| MIdle
| MLifetime
(** bytes reach the client's socket, or its end of stream does *)
| MArrive (bs : bytes)
| MEof
(** the frame reader completes *)
| MFrame
(** the handler of the frame runs *)
| MHandle (env : mux_env)
(** the lock is there and the payload is written *)
| MForward (write : option io_error)
(** the writer is there and the end frame is written *)
| MEnd
(** a reader task takes its upstream's lock *)
| TaskLock (t : Z)
(** its read completes, on an upstream or on an XUDP socket *)
| TaskRead (t : Z) (r : io_error + bytes)
| TaskRecvFrom (t : Z) (r : io_error + (bytes * SocketAddr))
(** it holds the client's writer and sends so many more bytes of its frame, or all the
    rest of it ([None]) *)
| TaskWrite (t : Z) (n : option nat)
(** it removes its session and ends *)
| TaskRemove (t : Z)
(** other connections have used the XUDP registry *)
| Others (r : XudpManager).

(** The upstream's mutex is held by a reader. *)
Definition reads_from (u : Z) (tk : task) : Prop :=
  (t_pump tk = PumpTcp u \/ t_pump tk = PumpUdp u) /\ t_phase tk = Reading.

#[export] Instance reads_from_dec u tk : Decision (reads_from u tk).
Proof. unfold reads_from. apply _. Defined.

Definition locked (m : mux) (u : Z) : bool :=
  bool_decide (map_Exists (fun _ tk => reads_from u tk) (m_tasks m)).

Definition set_phase (m : mux) (t : Z) (tk : task) (p : phase) : mux :=
  set_tasks m (<[t := {| t_sid := t_sid tk; t_pump := t_pump tk; t_phase := p |}]> (m_tasks m)).

(** [copy]'s buffers. *)
Definition TCP_BUF : Z := 8192.

(** The writer's mutex is held by a reader. *)
Definition writes (tk : task) : bool := match t_phase tk with Sending _ _ (Some _) => true | _ => false end.

Definition writer_held (m : mux) : bool :=
  bool_decide (map_Exists (fun _ tk => writes tk = true) (m_tasks m)).

Definition finish (m : mux) (t : Z) : mux := set_tasks m (delete t (m_tasks m)).

(** [pump_tcp_upstream_to_client] from the completion of a read to the next await, and
    from the completion of a write. *)
Definition pump_tcp_read (m : mux) (t : Z) (tk : task) (r : io_error + bytes) : mux :=
  match r with
  | inl _ => set_phase m t tk Closing
  | inr [] => set_phase m t tk (Sending SendEnd (write_end (t_sid tk)) None)
  | inr data =>
    match write_data (t_sid tk) SESSION_STATUS_KEEP data with
    | Ok frame => set_phase m t tk (Sending (SendData None data) frame None)
    | Err _ => set_phase m t tk Closing
    | Panic => finish m t
    end
  end.

Definition pump_tcp_wrote (m : mux) (t : Z) (tk : task) (what : sends) (ok : bool) : mux :=
  match what, ok with
  | SendData _ _, true => set_phase m t tk Locking
  | _, _ => set_phase m t tk Closing
  end.

(** [pump_udp_upstream_to_client]. *)
Definition pump_udp_read (m : mux) (t : Z) (tk : task) (r : io_error + bytes) : mux :=
  match r with
  | inl _ => set_phase m t tk (Sending SendEnd (write_end (t_sid tk)) None)
  | inr data =>
    match write_data (t_sid tk) SESSION_STATUS_KEEP data with
    | Ok frame => set_phase m t tk (Sending (SendData None data) frame None)
    | Err _ => set_phase m t tk (Sending SendEnd (write_end (t_sid tk)) None)
    | Panic => finish m t
    end
  end.

Definition pump_udp_wrote (m : mux) (t : Z) (tk : task) (what : sends) (ok : bool) : mux :=
  match what, ok with
  | SendData _ _, true => set_phase m t tk Locking
  | SendData _ _, false => set_phase m t tk (Sending SendEnd (write_end (t_sid tk)) None)
  | SendEnd, _ => set_phase m t tk Closing
  end.

(** [pump_xudp_upstream_to_client], whose task has no session to remove. *)
Definition pump_xudp_read (m : mux) (t : Z) (tk : task) (r : io_error + (bytes * SocketAddr)) : mux :=
  match r with
  | inl _ => set_phase m t tk (Sending SendEnd (write_end XUDP_SESSION_ID) None)
  | inr (data, source) =>
    match write_mux_data XUDP_SESSION_ID SESSION_STATUS_KEEP (Some (Ip source)) data with
    | Ok frame => set_phase m t tk (Sending (SendData (Some (Ip source)) data) frame None)
    | Err _ => set_phase m t tk (Sending SendEnd (write_end XUDP_SESSION_ID) None)
    | Panic => finish m t
    end
  end.

Definition pump_xudp_wrote (m : mux) (t : Z) (tk : task) (what : sends) (ok : bool) : mux :=
  match what, ok with
  | SendData _ _, true => set_phase m t tk Reading
  | SendData _ _, false => set_phase m t tk (Sending SendEnd (write_end XUDP_SESSION_ID) None)
  | SendEnd, _ => finish m t
  end.

Definition pump_wrote (m : mux) (t : Z) (tk : task) (what : sends) (ok : bool) : mux :=
  match t_pump tk with
  | PumpTcp _ => pump_tcp_wrote m t tk what ok
  | PumpUdp _ => pump_udp_wrote m t tk what ok
  | PumpXudp _ => pump_xudp_wrote m t tk what ok
  end.

(** A piece of a task's [write_frame]. A frame is started when nobody holds the writer. *)
Definition task_write (m : mux) (t : Z) (tk : task) (what : sends) (frame : bytes) (written n : option nat)
    : option mux :=
  if match written with None => writer_held m | Some _ => false end then None else
  let k := default 0%nat written in
  match n with
  | Some n =>
    if (length frame <? k + n)%nat then None else
    match write_all (take n (drop k frame)) (m_client m) with
    | (Done _, s) => Some (set_phase (set_client m s) t tk (Sending what frame (Some (k + n)%nat)))
    | _ => None
    end
  | None =>
    match write_frame (drop k frame) (m_client m) with
    | (Done _, s) => Some (pump_wrote (set_client m s) t tk what true)
    | (Fail _, s) => Some (pump_wrote (set_client m s) t tk what false)
    | _ => None
    end
  end.

(** The end of the loop: every session and the cone are closed. *)
Definition close_all (now : Z) (m : mux) : mux :=
  let m := map_fold (fun _ s m => abort s m) m (m_sessions m) in
  close_cone now (set_sessions m ∅).

(** What the function returns, with the state it leaves behind. *)
Definition returned : Type := res io_error (Z * Z) * mux.

Definition add_bytes (m : mux) (b : RelayBytes) : mux :=
  {| m_client := m_client m; m_main := m_main m; m_sessions := m_sessions m; m_xudp := m_xudp m;
     m_registry := m_registry m; m_tasks := m_tasks m; m_next := m_next m; m_outbox := m_outbox m;
     m_datagrams := m_datagrams m; m_c2u := m_c2u m + rb_c2u b; m_u2c := m_u2c m + rb_u2c b;
     m_idle := m_idle m; m_lifetime := m_lifetime m |}.

Definition reset_idle (limits : RelayLimits) (now : Z) (m : mux) : mux :=
  {| m_client := m_client m; m_main := m_main m; m_sessions := m_sessions m; m_xudp := m_xudp m;
     m_registry := m_registry m; m_tasks := m_tasks m; m_next := m_next m; m_outbox := m_outbox m;
     m_datagrams := m_datagrams m; m_c2u := m_c2u m; m_u2c := m_u2c m;
     m_idle := option_map (Z.add now) (idle limits); m_lifetime := m_lifetime m |}.

(** The three waiting points of the main task. *)
Definition select_step (limits : RelayLimits) (m : mux) (now : Z) (ev : mux_event) : option (returned + mux) :=
  match ev with
  | MIdle =>
    if reached (m_idle m) now then Some (inl (Err (IoError TimedOut IDLE_TIMEOUT_MSG), m)) else None
  | MLifetime =>
    if reached (m_lifetime m) now then Some (inl (Err (IoError TimedOut SESSION_LIFETIME_MSG), m)) else None
  | MFrame =>
    match read_mux_frame (m_client m) with
    | (Done None, s) => Some (inl (Ok (m_c2u m, m_u2c m), close_all now (set_client m s)))
    | (Done (Some f), s) => Some (inr (set_main (reset_idle limits now (set_client m s)) (Handling f)))
    | (Fail e, s) => Some (inl (Err e, set_client m s))
    | (Crash, s) => Some (inl (Panic, set_client m s))
    | (Pending, _) => None
    end
  | _ => None
  end.

Definition handle_step (m : mux) (f : MuxFrame) (env : mux_env) : option (returned + mux) :=
  match handle_mux_frame env f m with
  | (Done (Finished b), m) => Some (inr (set_main (add_bytes m b) Select))
  | (Done (Awaits u p), m) => Some (inr (set_main m (Forwarding u p)))
  | (Done (Ends sid), m) => Some (inr (set_main m (Ending sid)))
  | (Fail e, m) => Some (inl (Err e, m))
  | (Crash, m) => Some (inl (Panic, m))
  | (Pending, _) => None
  end.

Definition forward_step (m : mux) (u : Z) (p : bytes) (write : option io_error) : option (returned + mux) :=
  if locked m u then None else
  match write with
  | Some e => Some (inl (Err e, m))
  | None => Some (inr (set_main (add_bytes (add_outbox m u p) (count_up no_bytes p)) Select))
  end.

(** The main task's [write_end]. Nobody cancels it, and nobody else writes before it
    releases the writer, so it is one step. *)
Definition end_step (m : mux) (sid : Z) : option (returned + mux) :=
  if writer_held m then None else
  match write_frame (write_end sid) (m_client m) with
  | (Done _, s) => Some (inr (set_main (set_client m s) Select))
  | (Fail e, s) => Some (inl (Err e, set_client m s))
  | _ => None
  end.

(** A step of a reader task. *)
Definition task_step (m : mux) (ev : mux_event) : option mux :=
  match ev with
  | TaskLock t =>
    tk ← m_tasks m !! t;
    match t_pump tk, t_phase tk with
    | (PumpTcp u | PumpUdp u), Locking => if locked m u then None else Some (set_phase m t tk Reading)
    | _, _ => None
    end
  | TaskRead t r =>
    tk ← m_tasks m !! t;
    match t_pump tk, t_phase tk with
    | PumpTcp _, Reading =>
      match r with
      | inr data => if TCP_BUF <? Z.of_nat (length data) then None else Some (pump_tcp_read m t tk r)
      | inl _ => Some (pump_tcp_read m t tk r)
      end
    | PumpUdp _, Reading =>
      match r with
      | inr data =>
        if MAX_VLESS_UDP_PAYLOAD <? Z.of_nat (length data) then None else Some (pump_udp_read m t tk r)
      | inl _ => Some (pump_udp_read m t tk r)
      end
    | _, _ => None
    end
  | TaskRecvFrom t r =>
    tk ← m_tasks m !! t;
    match t_pump tk, t_phase tk with
    | PumpXudp _, Reading =>
      match r with
      | inr (data, _) =>
        if MAX_VLESS_UDP_PAYLOAD <? Z.of_nat (length data) then None else Some (pump_xudp_read m t tk r)
      | inl _ => Some (pump_xudp_read m t tk r)
      end
    | _, _ => None
    end
  | TaskWrite t n =>
    tk ← m_tasks m !! t;
    match t_phase tk with
    | Sending what frame written => task_write m t tk what frame written n
    | _ => None
    end
  | TaskRemove t =>
    tk ← m_tasks m !! t;
    match t_phase tk with
    | Closing =>
      Some (set_tasks (set_sessions m (delete (t_sid tk) (m_sessions m))) (delete t (m_tasks m)))
    | _ => None
    end
  | _ => None
  end.

(** One step of the connection: [None] when the event is not possible. *)
Definition mux_step (limits : RelayLimits) (m : mux) (now : Z) (ev : mux_event) : option (returned + mux) :=
  match ev with
  | MArrive bs => Some (inr (set_client m (arrive (m_client m) bs)))
  | MEof =>
    Some (inr (set_client m (Stream (rx (m_client m)) true (tx (m_client m)) (tx_quota (m_client m)))))
  | Others r => Some (inr (set_registry m r))
  | TaskLock _ | TaskRead _ _ | TaskRecvFrom _ _ | TaskWrite _ _ | TaskRemove _ =>
    m ← task_step m ev; Some (inr m)
  | MHandle env => match m_main m with Handling f => handle_step m f env | _ => None end
  | MForward w => match m_main m with Forwarding u p => forward_step m u p w | _ => None end
  | MEnd => match m_main m with Ending sid => end_step m sid | _ => None end
  | MIdle | MLifetime | MFrame =>
    match m_main m with Select => select_step limits m now ev | _ => None end
  end.

Fixpoint mux_loop (limits : RelayLimits) (m : mux) (evs : list (Z * mux_event)) : option (returned + mux) :=
  match evs with
  | [] => Some (inr m)
  | (now, ev) :: evs =>
    match mux_step limits m now ev with
    | Some (inr m) => mux_loop limits m evs
    | r => r
    end
  end.

Definition mux_start (limits : RelayLimits) (now : Z) (client : stream) (registry : XudpManager) : mux :=
  {| m_client := client; m_main := Select; m_sessions := ∅; m_xudp := None; m_registry := registry;
     m_tasks := ∅; m_next := 0; m_outbox := []; m_datagrams := []; m_c2u := 0; m_u2c := 0;
     m_idle := option_map (Z.add now) (idle limits);
     m_lifetime := option_map (Z.add now) (max_lifetime limits) |}.

Definition relay_vless_mux_with_limits (limits : RelayLimits) (start : Z) (client : stream)
    (registry : XudpManager) (evs : list (Z * mux_event)) : option (returned + mux) :=
  mux_loop limits (mux_start limits start client registry) evs.
