(* ===== verification/MuxFlow.v ===== *)
(** * Correctness of the mux relay
    Properties of the model in MuxRelay.v: the streaming frame reader and the
    buffer parser agree; every reachable connection is well formed; payloads reach
    the upstream of their session in order, data from the upstreams reaches the
    client as frames it can decode, and the byte counters are exact; and what the
    lock held across a read, and the early returns of the loop, lead to. *)

From Stdlib Require Import Ascii String.
From stdpp Require Import base numbers list_numbers strings pretty gmap fin_maps list.
From S2P Require Import Prelude Core Io VlessParse Outbound Connect MuxFrame Xudp Relay Udp MuxRelay.

(** ** The stream reader and the buffer parser *)

Lemma read_exact_split n s :
  read_exact n s =
    if (n <=? length (rx s))%nat then (Done (take n (rx s)), with_rx (drop n (rx s)) s)
    else (if rx_eof s then Fail early_eof else Pending, with_rx [] s).
Proof. unfold read_exact. by case_match. Qed.

Lemma read_chunk_split n s :
  (n <= length (rx s))%nat ->
  (if (0 <? n)%nat then read_exact n else mret []) s = (Done (take n (rx s)), with_rx (drop n (rx s)) s).
Proof.
  intros Hn. destruct (0 <? n)%nat eqn:E; bool_hyps.
  - rewrite read_exact_split. by rewrite (proj2 (Nat.leb_le _ _)).
  - assert (n = 0%nat) as -> by lia. destruct s. by rewrite take_0, drop_0.
Qed.

Lemma idx_two {E} (l : bytes) : (2 <= length l)%nat ->
  exists b0 b1 rest, l = b0 :: b1 :: rest /\ @idx E l 0 = Ok b0 /\ @idx E l 1 = Ok b1.
Proof. destruct l as [|b0 [|b1 rest]]; cbn; try lia. intros _. by exists b0, b1, rest. Qed.

(** What the reader does, by what the parser says of the bytes that are there. *)
Definition reader_agrees (s : stream) : Prop :=
  match parse_frame (rx s) with
  | Ok (f, n) => read_mux_frame s = (Done (Some f), with_rx (drop n (rx s)) s)
  | Err TooShort => forall f s', read_mux_frame s <> (Done (Some f), s')
  | Err e => (read_mux_frame s).1 = Fail (map_mux_error e)
  | Panic => False
  end.

Lemma bind_pending {E A B} (m : io E A) (f : A -> io E B) s s1 :
  m s = (Pending, s1) -> (m ≫= f) s = (Pending, s1).
Proof. unfold mbind, io_bind. by intros ->. Qed.

Lemma read_short {A} n s (k : bytes -> io io_error (option A)) :
  (length (rx s) < n)%nat -> forall a s', (read_exact n ≫= k) s <> (Done (Some a), s').
Proof.
  intros Hn a s'. unfold mbind, io_bind. rewrite read_exact_split, (proj2 (Nat.leb_gt _ _)) by done.
  by destruct (rx_eof s).
Qed.

Lemma io_bind_eq {E A B} (m : io E A) (f : A -> io E B) s :
  (m ≫= f) s = match m s with
               | (Done a, s) => f a s
               | (Fail e, s) => (Fail e, s)
               | (Crash, s) => (Crash, s)
               | (Pending, s) => (Pending, s)
               end.
Proof. done. Qed.

(** The data chunk of a frame, for the parser and for the reader. *)
Definition parse_chunk (me : MuxMeta) (input : bytes) (consumed : nat) : res MuxError (MuxFrame * nat) :=
  if (length input <? consumed + 2)%nat then Err TooShort else
  c0 ← idx input consumed;
  c1 ← idx input (consumed + 1);
  let chunk_len := Z.to_nat (from_be16 c0 c1) in
  let consumed := (consumed + 2)%nat in
  if (MAX_CHUNK_SIZE <? chunk_len)%nat then Err (ChunkTooLarge chunk_len) else
  if (length input <? consumed + chunk_len)%nat then Err TooShort else
  data ← slice input consumed (consumed + chunk_len);
  Ok ({| meta := me; payload := Some data |}, (consumed + chunk_len)%nat).

Definition read_chunk (me : MuxMeta) : io io_error (option MuxFrame) :=
  chunk_len_buf ← read_exact 2;
  c0 ← of_res (idx chunk_len_buf 0);
  c1 ← of_res (idx chunk_len_buf 1);
  let chunk_len := Z.to_nat (from_be16 c0 c1) in
  if (MAX_CHUNK_SIZE <? chunk_len)%nat then fail (map_mux_error (ChunkTooLarge chunk_len)) else
  payload ← (if (0 <? chunk_len)%nat then read_exact chunk_len else mret []);
  mret (Some {| meta := me; payload := Some payload |}).

Lemma chunk_agrees me head rest s :
  match parse_chunk me (head ++ rest) (length head) with
  | Ok (f, n) => read_chunk me (with_rx rest s) = (Done (Some f), with_rx (drop n (head ++ rest)) s)
  | Err TooShort => forall f s', read_chunk me (with_rx rest s) <> (Done (Some f), s')
  | Err e => (read_chunk me (with_rx rest s)).1 = Fail (map_mux_error e)
  | Panic => False
  end.
Proof.
  unfold parse_chunk, read_chunk. rewrite length_app.
  destruct (_ <? _)%nat eqn:EC; bool_hyps; [apply read_short; cbn; lia|].
  destruct rest as [|c0 [|c1 tl]]; cbn [length] in EC; [lia..|].
  rewrite (idx_some _ (length head) c0) by (rewrite lookup_app_r, Nat.sub_diag by lia; done).
  rewrite (idx_some _ (length head + 1) c1) by (rewrite lookup_app_r by lia; by replace (length head + 1 - length head)%nat with 1%nat by lia).
  cbn [mbind res_bind]. rewrite io_bind_eq, read_exact_split. change (rx (with_rx (c0 :: c1 :: tl) s)) with (c0 :: c1 :: tl).
  rewrite (proj2 (Nat.leb_le _ _)) by (cbn; lia).
  change (take 2 (c0 :: c1 :: tl)) with [c0; c1]. change (drop 2 (c0 :: c1 :: tl)) with tl.
  rewrite io_bind_eq. cbn [of_res idx lookup list_lookup]. rewrite io_bind_eq. cbn [of_res idx lookup list_lookup].
  set (cl := Z.to_nat (from_be16 c0 c1)). destruct (MAX_CHUNK_SIZE <? cl)%nat; [done|].
  destruct (_ <? _)%nat eqn:EF; bool_hyps; cbn [length] in EF.
  { intros f s'. destruct (0 <? cl)%nat eqn:E0; bool_hyps; [|lia]. apply read_short. cbn. lia. }
  rewrite io_bind_eq, read_chunk_split by (cbn; lia). rewrite slice_ok by (rewrite length_app; cbn; lia). cbn [mbind res_bind].
  replace (length head + 2 + cl - (length head + 2))%nat with cl by lia.
  rewrite <- (Nat.add_assoc (length head) 2 cl), !drop_app_add. done.
Qed.

Lemma reader_agrees_all s : reader_agrees s.
Proof.
  unfold reader_agrees, parse_frame, read_mux_frame. rewrite read_exact_split.
  destruct (length (rx s) <? 2)%nat eqn:E2; bool_hyps.
  { rewrite (proj2 (Nat.leb_gt _ _)) by lia. intros f s'. destruct (rx_eof s); [|done].
    by case_bool_decide. }
  rewrite (proj2 (Nat.leb_le _ _)) by lia.
  destruct (rx s) as [|b0 [|b1 rest]] eqn:Hrx; cbn in E2; [lia..|]. clear E2.
  change (drop 2 (b0 :: b1 :: rest)) with rest. change (take 2 (b0 :: b1 :: rest)) with [b0; b1].
  cbn [idx lookup list_lookup]. cbn [mbind res_bind].
  set (s1 := with_rx rest s). rewrite !io_bind_eq. cbn [of_res idx lookup list_lookup].
  rewrite !io_bind_eq. cbn [of_res idx lookup list_lookup].
  set (ml := Z.to_nat (from_be16 b0 b1)). cbv zeta.
  destruct (MAX_META_LEN <? ml)%nat eqn:EM; [done|].
  change (length (b0 :: b1 :: rest)) with (2 + length rest)%nat.
  destruct (2 + length rest <? 2 + ml)%nat eqn:EL; bool_hyps.
  { apply read_short. cbn. lia. }
  rewrite io_bind_eq, read_exact_split. change (rx s1) with rest. rewrite (proj2 (Nat.leb_le _ _)) by lia.
  rewrite slice_ok by (cbn; lia). cbn [res_bind].
  replace (2 + ml - 2)%nat with ml by lia. change (drop 2 (b0 :: b1 :: rest)) with rest.
  set (s2 := with_rx (drop ml rest) s1). rewrite io_bind_eq.
  pose proof (parse_meta_body_no_panic (take ml rest)).
  cbn [mbind res_bind].
  destruct (parse_meta_body (take ml rest)) as [me|e|]; cbn [map_err of_res mbind res_bind];
    [|by destruct e|done].
  destruct (has_data me); [|unfold s2, s1; rewrite with_rx_twice; done].
  pose proof (chunk_agrees me ([b0; b1] ++ take ml rest) (drop ml rest) s) as Hc.
  rewrite <- app_assoc, take_drop, length_app, length_take_le in Hc by lia.
  unfold s2, s1. rewrite with_rx_twice. exact Hc.
Qed.

(** ** Successful runs of the handlers *)

Lemma mux_bind_done {A B} (c : mux_io A) (f : A -> mux_io B) m b m' :
  (c ≫= f) m = (Done b, m') <-> exists a m1, c m = (Done a, m1) /\ f a m1 = (Done b, m').
Proof. unfold mbind, mux_bind. destruct (c m) as [[a|e| |] m1]; naive_solver. Qed.

Lemma lift_done {A} (r : res io_error A) m a m' : lift r m = (Done a, m') <-> r = Ok a /\ m' = m.
Proof. unfold lift. destruct r; naive_solver. Qed.

Lemma first_write_done env u p b m b' m' :
  first_write env u p b m = (Done b', m') -> b' = count_up b p /\ m' = add_outbox m u p.
Proof. unfold first_write. destruct (e_write env); [done|]. by intros [= <- <-]. Qed.

(** Take a successful run of a handler apart, one [bind] at a time. *)
Ltac mux_inv H :=
  lazymatch type of H with
  | (mbind _ _) _ = (Done _, _) =>
      let a := fresh "a" in let m1 := fresh "m" in let H1 := fresh "H" in
      apply mux_bind_done in H as (a & m1 & H1 & H); mux_inv H1; cbv beta zeta in H; mux_inv H
  | lift _ _ = (Done _, _) => apply lift_done in H as [H ->]
  | mret _ _ = (Done _, _) => first [discriminate H | injection H as <- <- | injection H as <-]
  | modify _ _ = (Done _, _) => first [injection H as <- <- | injection H as <-]
  | gets _ _ = (Done _, _) => first [injection H as <- <- | injection H as <-]
  | mfail _ _ = (Done _, _) => discriminate H
  | first_write _ _ _ _ _ = (Done _, _) => apply first_write_done in H as [-> ->]
  | (match ?p with _ => _ end) _ = (Done _, _) => let E := fresh "E" in destruct p eqn:E; mux_inv H
  | _ => idtac
  end.

(** What a handler may do to the connection's books. *)
Fixpoint sum_lengths (l : list bytes) : Z :=
  match l with
  | [] => 0
  | p :: l => Z.of_nat (length p) + sum_lengths l
  end.

Definition sent_total (m : mux) : Z :=
  sum_lengths (map snd (m_outbox m)) + sum_lengths (map snd (m_datagrams m)).

Lemma sum_lengths_app l l' : sum_lengths (l ++ l') = sum_lengths l + sum_lengths l'.
Proof. induction l; cbn; lia. Qed.

Lemma sent_total_outbox m u p : sent_total (add_outbox m u p) = sent_total m + Z.of_nat (length p).
Proof. unfold sent_total. cbn. rewrite map_app, sum_lengths_app. cbn. lia. Qed.

Lemma sent_total_datagram m s a p : sent_total (add_datagram m s a p) = sent_total m + Z.of_nat (length p).
Proof. unfold sent_total. cbn. rewrite map_app, sum_lengths_app. cbn. lia. Qed.

Record books (m : mux) (b b' : RelayBytes) (m' : mux) : Prop := {
  bk_c2u : m_c2u m' = m_c2u m;
  bk_u2c : m_u2c m' = m_u2c m;
  bk_main : m_main m' = m_main m;
  bk_idle : m_idle m' = m_idle m;
  bk_lifetime : m_lifetime m' = m_lifetime m;
  bk_down : rb_u2c b' = rb_u2c b;
  bk_sent : sent_total m' - sent_total m = rb_c2u b' - rb_c2u b
}.

Lemma books_refl m b : books m b b m.
Proof. constructor; auto. lia. Qed.

Lemma books_trans m b m1 b1 m2 b2 : books m b b1 m1 -> books m1 b1 b2 m2 -> books m b b2 m2.
Proof. intros [] []. constructor; (congruence || lia). Qed.

Ltac same_books := constructor; cbn; try done; unfold sent_total; cbn; lia.

(** Unfold a handler, take it apart, and settle the books of its steps. *)
Ltac books_tac H :=
  mux_inv H;
  try (constructor; cbn; try done; unfold sent_total; cbn; rewrite ?map_app, ?sum_lengths_app; cbn; lia).

Lemma open_tcp_books env f target b m b' m' :
  open_tcp_session env f target b m = (Done b', m') -> books m b b' m'.
Proof. unfold open_tcp_session. intros H. books_tac H. Qed.

Lemma open_udp_books env f target b m b' m' :
  open_udp_session env f target b m = (Done b', m') -> books m b b' m'.
Proof. unfold open_udp_session. intros H. books_tac H. Qed.

Lemma ensure_cone_books env gid b m u m' :
  ensure_xudp_cone env gid m = (Done u, m') -> books m b b m'.
Proof. unfold ensure_xudp_cone. intros H. books_tac H. Qed.

Lemma xudp_send_books env f target b m b' m' :
  xudp_send env f target b m = (Done b', m') -> books m b b' m'.
Proof. unfold xudp_send. intros H. books_tac H. Qed.

Lemma start_reader_books b m u m' :
  start_xudp_reader_if_needed m = (Done u, m') -> books m b b m'.
Proof. unfold start_xudp_reader_if_needed. intros H. books_tac H. Qed.

Lemma close_cone_books now b m : books m b b (close_cone now m).
Proof. unfold close_cone. repeat case_match; same_books. Qed.

Create HintDb books discriminated.
#[export] Hint Resolve books_refl open_tcp_books open_udp_books ensure_cone_books xudp_send_books
  start_reader_books close_cone_books : books.

Lemma handle_xudp_books env f b m b' m' :
  handle_xudp_frame env f b m = (Done b', m') -> books m b b' m'.
Proof.
  unfold handle_xudp_frame. intros H. mux_inv H; eauto with books.
  all: repeat match goal with
    | H : ensure_xudp_cone _ _ _ = _ |- _ => apply (ensure_cone_books _ _ b) in H
    | H : xudp_send _ _ _ _ _ = _ |- _ => apply xudp_send_books in H
    | H : start_xudp_reader_if_needed _ = (_, _) |- books _ _ ?b' _ => apply (start_reader_books b') in H
    end.
  all: eauto using books_trans.
Qed.

(** The bytes a handler reports are the bytes it has sent. *)
Lemma handle_books env f m h m' :
  handle_mux_frame env f m = (Done h, m') ->
  match h with
  | Finished b => books m no_bytes b m'
  | Awaits u p =>
    m' = m /\ exists s, m_sessions m !! session_id (meta f) = Some s /\ ms_upstream s = u
      /\ nonempty_payload f = Some p /\ is_xudp_frame (meta f) = false
      /\ MuxFrame.status (meta f) = SESSION_STATUS_KEEP
  | Ends sid => m' = m /\ sid = session_id (meta f)
  end.
Proof.
  unfold handle_mux_frame. destruct (is_xudp_frame (meta f)).
  { intros H. mux_inv H. by apply handle_xudp_books in H0. }
  destruct (_ =? SESSION_STATUS_NEW).
  { intros H. mux_inv H; eauto with books; same_books. }
  destruct (_ =? SESSION_STATUS_KEEP) eqn:Ek; bool_hyps.
  { unfold forward_keep_frame. intros H. mux_inv H; try same_books; naive_solver. }
  intros H. mux_inv H; [|same_books].
  unfold remove_session. case_match; same_books.
Qed.

(** ** Well-formed connections *)

(** Upstreams and tasks carry numbers below [m_next]; a session's upstream and
    reader have the same number, which no other session has. *)
Record wf (m : mux) : Prop := {
  wf_sessions : forall sid s, m_sessions m !! sid = Some s ->
    ms_upstream s = ms_task s /\ ms_upstream s < m_next m;
  wf_inj : forall sid1 sid2 s1 s2, m_sessions m !! sid1 = Some s1 -> m_sessions m !! sid2 = Some s2 ->
    ms_upstream s1 = ms_upstream s2 -> sid1 = sid2;
  wf_tasks : forall t tk, m_tasks m !! t = Some tk ->
    t < m_next m /\ u16_ok (t_sid tk) /\
    match t_pump tk with PumpTcp u | PumpUdp u => u = t | PumpXudp _ => t_sid tk = XUDP_SESSION_ID end;
  wf_main : match m_main m with
    | Handling f => u16_ok (session_id (meta f))
    | Ending sid => u16_ok sid
    | _ => True
    end;
  wf_rx : bytes_ok (rx (m_client m))
}.

Create HintDb wfdb discriminated.

Lemma wf_client m s : wf m -> rx s = rx (m_client m) -> wf (set_client m s).
Proof. intros [] Hr. constructor; cbn; try done. by rewrite Hr. Qed.

Lemma wf_outbox m u p : wf m -> wf (add_outbox m u p).
Proof. by intros []. Qed.

Lemma wf_datagram m s a p : wf m -> wf (add_datagram m s a p).
Proof. by intros []. Qed.

Lemma wf_cone m c : wf m -> wf (set_cone m c).
Proof. by intros []. Qed.

Lemma wf_add_bytes m b : wf m -> wf (add_bytes m b).
Proof. by intros []. Qed.

Lemma wf_select m : wf m -> wf (set_main m Select).
Proof. by intros []. Qed.

Lemma wf_forwarding m u p : wf m -> wf (set_main m (Forwarding u p)).
Proof. by intros []. Qed.

Lemma wf_ending m sid : wf m -> u16_ok sid -> wf (set_main m (Ending sid)).
Proof. by intros []. Qed.

Lemma wf_fewer_tasks m x : wf m -> x ⊆ m_tasks m -> wf (set_tasks m x).
Proof.
  intros [] Hx. constructor; cbn; try done. intros t tk Ht. apply wf_tasks0. by eapply lookup_weaken.
Qed.

Lemma wf_delete_session m sid : wf m -> wf (set_sessions m (delete sid (m_sessions m))).
Proof.
  intros []. constructor; cbn; try done.
  - intros i s [_ Hs]%lookup_delete_Some. eauto.
  - intros i j s1 s2 [_ H1]%lookup_delete_Some [_ H2]%lookup_delete_Some. eauto.
Qed.

Lemma kill_subseteq ts x : kill ts x ⊆ x.
Proof.
  induction ts as [|t ts IH]; [done|]. cbn. etransitivity; [apply delete_subseteq|done].
Qed.

Lemma wf_registry m r : wf m -> wf (set_registry m r).
Proof.
  intros []. constructor; cbn; try done. intros t tk Ht. apply wf_tasks0.
  eapply lookup_weaken; [done|apply kill_subseteq].
Qed.

Lemma wf_spawn m tk :
  wf m -> u16_ok (t_sid tk) ->
  match t_pump tk with PumpTcp u | PumpUdp u => u = m_next m | PumpXudp _ => t_sid tk = XUDP_SESSION_ID end ->
  wf (spawn m tk).
Proof.
  intros [] Hu Hp. constructor; cbn; try done.
  - intros sid s Hs. destruct (wf_sessions0 sid s Hs). split; [done|lia].
  - intros t x. rewrite lookup_insert_Some. intros [[<- <-]|[Hne Ht]].
    + split_and!; [lia|done|]. destruct (t_pump tk); done.
    + destruct (wf_tasks0 t x Ht) as (? & ? & ?). split_and!; [lia|done|done].
Qed.

(** Opening a session on a new upstream. *)
Lemma wf_open m sid s p :
  wf m -> u16_ok sid -> ms_upstream s = m_next m -> ms_task s = m_next m ->
  p = PumpTcp (m_next m) \/ p = PumpUdp (m_next m) ->
  wf (set_sessions (spawn m {| t_sid := sid; t_pump := p; t_phase := Locking |}) (<[sid := s]> (m_sessions m))).
Proof.
  intros Hw Hu H1 H2 Hp.
  assert (Hs : wf (spawn m {| t_sid := sid; t_pump := p; t_phase := Locking |})).
  { apply wf_spawn; [done|done|]. by destruct Hp as [-> | ->]. }
  destruct Hs as [S1 _ S3 S4 S5]. destruct Hw as [W1 W2 _ _ _]. constructor; cbn in *; try done.
  - intros i x. rewrite lookup_insert_Some. intros [[<- <-]|[_ Hx]]; [split; [congruence|lia]|by apply (S1 i)].
  - intros i j x y. rewrite !lookup_insert_Some.
    intros [[<- <-]|[Hi Hx]] [[<- <-]|[Hj Hy]] He; [done|..|by apply (W2 i j x y)];
      exfalso; [destruct (W1 j y Hy)|destruct (W1 i x Hx)]; lia.
Qed.

#[export] Hint Resolve wf_outbox wf_datagram wf_cone wf_add_bytes wf_select wf_forwarding wf_registry
  wf_delete_session : wfdb.

(** Writing to the client leaves what it sent us. *)
Lemma write_frame_rx b s : rx (write_frame b s).2 = rx s.
Proof.
  unfold write_frame. rewrite io_bind_eq. destruct (write_all_sends b s) as (n & _ & Hr).
  destruct (write_all b s) as [[[]|e| |] s1]; cbn in Hr |- *; try done. by rewrite flush_keeps.
Qed.

Lemma open_tcp_wf env f target b m b' m' :
  wf m -> u16_ok (session_id (meta f)) -> open_tcp_session env f target b m = (Done b', m') -> wf m'.
Proof.
  unfold open_tcp_session. intros Hw Hu H. mux_inv H.
  - apply (wf_open (add_outbox m (m_next m) l)); auto with wfdb.
  - apply (wf_open m); auto with wfdb.
Qed.

Lemma open_udp_wf env f target b m b' m' :
  wf m -> u16_ok (session_id (meta f)) -> open_udp_session env f target b m = (Done b', m') -> wf m'.
Proof.
  unfold open_udp_session. intros Hw Hu H. mux_inv H.
  - apply (wf_open (add_outbox m (m_next m) l)); auto with wfdb.
  - apply (wf_open m); auto with wfdb.
Qed.

Lemma ensure_cone_wf env gid m u m' : wf m -> ensure_xudp_cone env gid m = (Done u, m') -> wf m'.
Proof. unfold ensure_xudp_cone. intros Hw H. mux_inv H; auto with wfdb. Qed.

Lemma xudp_send_wf env f target b m b' m' : wf m -> xudp_send env f target b m = (Done b', m') -> wf m'.
Proof. unfold xudp_send. intros Hw H. mux_inv H; auto with wfdb. Qed.

Lemma start_reader_wf m u m' : wf m -> start_xudp_reader_if_needed m = (Done u, m') -> wf m'.
Proof.
  unfold start_xudp_reader_if_needed. intros Hw H. mux_inv H; auto with wfdb.
  all: apply wf_cone; try apply wf_registry; apply wf_spawn; done.
Qed.

Lemma close_cone_wf now m : wf m -> wf (close_cone now m).
Proof.
  intros Hw. unfold close_cone. destruct (m_xudp m) as [c|]; [|done].
  assert (Hc : wf (set_cone m None)) by auto with wfdb.
  destruct (cone_reader c), (cone_gid c); try apply wf_registry; try done;
    apply wf_fewer_tasks; try done; apply delete_subseteq.
Qed.

Lemma abort_wf s m : wf m -> wf (abort s m).
Proof. intros Hw. apply wf_fewer_tasks; [done|apply delete_subseteq]. Qed.

Lemma remove_session_wf sid m : wf m -> wf (remove_session sid m).
Proof.
  intros Hw. unfold remove_session. destruct (_ !! _); [|done]. apply abort_wf. auto with wfdb.
Qed.

Lemma handle_wf env f m h m' :
  wf m -> u16_ok (session_id (meta f)) -> handle_mux_frame env f m = (Done h, m') -> wf m'.
Proof.
  intros Hw Hu. unfold handle_mux_frame, handle_xudp_frame, forward_keep_frame. intros H.
  mux_inv H; eauto using open_tcp_wf, open_udp_wf, ensure_cone_wf, xudp_send_wf, start_reader_wf,
    close_cone_wf, remove_session_wf.
Qed.

(** A parsed frame has well-formed metadata. *)
Lemma parse_frame_shape input f n : bytes_ok input -> parse_frame input = Ok (f, n) -> meta_ok (meta f).
Proof.
  intros Hb H. unfold parse_frame in H.
  destruct (length input <? 2)%nat eqn:E2; bool_hyps; [done|].
  destruct (@idx_two MuxError input E2) as (b0 & b1 & rest & _ & Hi0 & Hi1).
  rewrite Hi0, Hi1 in H. cbn [mbind res_bind] in H. cbv zeta in H.
  destruct (MAX_META_LEN <? _)%nat; [done|]. destruct (_ <? 2 + _)%nat eqn:EL; bool_hyps; [done|].
  rewrite slice_ok in H by lia. cbn [mbind res_bind] in H.
  destruct (parse_meta_body _) as [me|e|] eqn:Hm; cbn [mbind res_bind] in H; try done.
  apply parse_meta_body_shape in Hm; [|by apply bytes_ok_take, bytes_ok_drop].
  assert (meta f = me) as ->; [|done].
  destruct (has_data me); [|by injection H as <- _].
  destruct (length input <? _)%nat eqn:EC; bool_hyps; [done|].
  destruct (@idx_lt MuxError input (2 + Z.to_nat (from_be16 b0 b1))) as (c0 & Hc0 & _); [lia|].
  destruct (@idx_lt MuxError input (2 + Z.to_nat (from_be16 b0 b1) + 1)) as (c1 & Hc1 & _); [lia|].
  rewrite Hc0, Hc1 in H. cbn [mbind res_bind] in H.
  destruct (MAX_CHUNK_SIZE <? _)%nat; [done|]. destruct (length input <? _)%nat eqn:EF; bool_hyps; [done|].
  rewrite slice_ok in H by lia. by injection H as <- _.
Qed.

Lemma read_mux_frame_done s f s' :
  read_mux_frame s = (Done (Some f), s') ->
  exists n, parse_frame (rx s) = Ok (f, n) /\ s' = with_rx (drop n (rx s)) s.
Proof.
  intros H. pose proof (reader_agrees_all s) as Ha. unfold reader_agrees in Ha.
  destruct (parse_frame (rx s)) as [[f' n]|e|]; [|destruct e; first [by apply Ha in H|by rewrite H in Ha]|done].
  rewrite Ha in H. injection H as <- <-. by exists n.
Qed.

(** ** Steps *)

Definition ev_ok (ev : mux_event) : Prop :=
  match ev with
  | MArrive bs => bytes_ok bs
  | TaskRecvFrom _ (inr (_, source)) => endpoint_ok (Ip source)
  | _ => True
  end.

Lemma wf_phase m t tk p : wf m -> m_tasks m !! t = Some tk -> wf (set_phase m t tk p).
Proof.
  intros [] Ht. constructor; cbn; try done. intros i x. rewrite lookup_insert_Some.
  intros [[<- <-]|[_ Hx]]; [exact (wf_tasks0 t tk Ht)|by apply wf_tasks0].
Qed.

(** *** The steps of the reader tasks *)

Definition task_of (ev : mux_event) : option Z :=
  match ev with
  | TaskLock t | TaskRead t _ | TaskRecvFrom t _ | TaskWrite t _ | TaskRemove t => Some t
  | _ => None
  end.

(** A task goes to another phase or ends. *)
Definition place (m : mux) (t : Z) (tk : task) (o : option phase) : mux :=
  match o with
  | Some p => set_phase m t tk p
  | None => finish m t
  end.

Ltac placed := first [by eexists (Some _) | by exists None].

Lemma pump_wrote_place m t tk what ok : exists o, pump_wrote m t tk what ok = place m t tk o.
Proof.
  unfold pump_wrote, pump_tcp_wrote, pump_udp_wrote, pump_xudp_wrote.
  destruct (t_pump tk), what, ok; placed.
Qed.

Lemma pump_read_place m t tk r :
  (exists o, pump_tcp_read m t tk r = place m t tk o) /\ (exists o, pump_udp_read m t tk r = place m t tk o).
Proof.
  unfold pump_tcp_read, pump_udp_read. destruct r as [e|[|b data]]; split; try placed; case_match; placed.
Qed.

Lemma pump_xudp_place m t tk r : exists o, pump_xudp_read m t tk r = place m t tk o.
Proof. unfold pump_xudp_read. destruct r as [e|[data src]]; [placed|]. case_match; placed. Qed.

Lemma set_client_same m : set_client m (m_client m) = m.
Proof. by destruct m. Qed.

(** What a step of a task does: it may write to the client and moves the task, or the
    task removes its session. *)
Lemma task_step_shape m ev m' :
  task_step m ev = Some m' ->
  exists t tk, task_of ev = Some t /\ m_tasks m !! t = Some tk /\
    ((exists s o, rx s = rx (m_client m) /\ m' = place (set_client m s) t tk o)
     \/ m' = set_tasks (set_sessions m (delete (t_sid tk) (m_sessions m))) (delete t (m_tasks m))).
Proof.
  destruct ev as [| | | | | | | |t|t r|t r|t n|t|]; cbn [task_step]; try done;
    destruct (m_tasks m !! t) as [tk|] eqn:Ht; cbn [mbind option_bind]; try done; intros H;
    exists t, tk; (split_and!; [done|done|]).
  4: { destruct (t_phase tk) as [| |what frame w|]; try done. unfold task_write in H.
       destruct (match w with Some _ => _ | None => _ end); [done|]. left. destruct n as [n|].
       - destruct (_ <? _)%nat; [done|].
         destruct (write_all_sends (take n (drop (default 0%nat w) frame)) (m_client m)) as (j & _ & Hr).
         destruct (write_all _ (m_client m)) as [[[]|e| |] s]; try done. injection H as <-.
         exists s. by eexists (Some _).
       - pose proof (write_frame_rx (drop (default 0%nat w) frame) (m_client m)) as Hr.
         destruct (write_frame _ (m_client m)) as [[[]|e| |] s]; try done; injection H as <-;
           (destruct (pump_wrote_place (set_client m s) t tk what true) as [o ->]
            || destruct (pump_wrote_place (set_client m s) t tk what false) as [o ->]); by exists s, o. }
  4: { destruct (t_phase tk); try done. right. by injection H as <-. }
  all: left; exists (m_client m); rewrite set_client_same.
  - destruct (t_pump tk) as [u|u|sk], (t_phase tk); try done; destruct (locked m u); try done;
      injection H as <-; by eexists (Some _).
  - destruct (pump_read_place m t tk r) as [[o1 H1] [o2 H2]].
    destruct (t_pump tk) as [u|u|sk], (t_phase tk); try done; [exists o1|exists o2];
      (split; [done|]); (destruct r as [e|data]; [|destruct (_ <? _); [done|]]); injection H as <-; done.
  - destruct (pump_xudp_place m t tk r) as [o Hp].
    destruct (t_pump tk) as [u|u|sk], (t_phase tk); try done. exists o. split; [done|].
    (destruct r as [e|[data src]]; [|destruct (_ <? _); [done|]]); injection H as <-; done.
Qed.

Lemma task_step_wf m ev m' : wf m -> task_step m ev = Some m' -> wf m'.
Proof.
  intros Hw (t & tk & _ & Ht & [(s & [p|] & Hr & ->)| ->])%task_step_shape.
  - apply wf_phase; [by apply wf_client|done].
  - apply wf_fewer_tasks; [by apply wf_client|apply delete_subseteq].
  - apply wf_fewer_tasks; [by apply wf_delete_session|apply delete_subseteq].
Qed.

Lemma mux_step_wf limits m now ev m' :
  wf m -> ev_ok ev -> mux_step limits m now ev = Some (inr m') -> wf m'.
Proof.
  intros Hw Ho H. pose proof Hw as [W1 W2 W3 W4 W5].
  destruct ev; cbn [mux_step] in H;
    try (destruct (task_step m _) as [m1|] eqn:Ht; [|done]; cbn in H; injection H as <-;
         by eapply task_step_wf).
  - destruct (m_main m); try done. cbn in H. by case_match.
  - destruct (m_main m); try done. cbn in H. by case_match.
  - injection H as <-. constructor; cbn; try done. by apply bytes_ok_app.
  - injection H as <-. by apply wf_client.
  - destruct (m_main m) eqn:Hm; try done. cbn [select_step] in H.
    destruct (read_mux_frame (m_client m)) as [[[f|]|e| |] s] eqn:Hr; try done. injection H as <-.
    apply read_mux_frame_done in Hr as (n & Hp & ->).
    constructor; cbn; try done; [|by apply bytes_ok_drop].
    by apply parse_frame_shape in Hp as [? _].
  - destruct (m_main m) as [|f| |] eqn:Hm; try done. unfold handle_step in H.
    destruct (handle_mux_frame env f m) as [[h|e| |] m1] eqn:Hh; try done. pose proof (handle_books _ _ _ _ _ Hh) as Hb.
    apply handle_wf in Hh; [|done|done]. destruct h; injection H as <-; auto with wfdb.
    destruct Hb as [_ ->]. by apply wf_ending.
  - destruct (m_main m) as [| |u p|] eqn:Hm; try done. unfold forward_step in H.
    destruct (locked m u); [done|]. destruct write; [done|]. injection H as <-. auto with wfdb.
  - destruct (m_main m) as [| | |sid] eqn:Hm; try done. unfold end_step in H.
    destruct (writer_held m); [done|]. pose proof (write_frame_rx (write_end sid) (m_client m)) as Hr.
    destruct (write_frame _ _) as [[[]|e| |] s]; try done. injection H as <-.
    by apply wf_select, wf_client.
  - injection H as <-. by apply wf_registry.
Qed.

(** Reader tasks touch the client's stream, the tasks and the sessions only. *)
Record main_same (m m' : mux) : Prop := {
  ms_main_eq : m_main m' = m_main m;
  ms_outbox_eq : m_outbox m' = m_outbox m;
  ms_datagrams_eq : m_datagrams m' = m_datagrams m;
  ms_c2u_eq : m_c2u m' = m_c2u m;
  ms_u2c_eq : m_u2c m' = m_u2c m;
  ms_idle_eq : m_idle m' = m_idle m;
  ms_lifetime_eq : m_lifetime m' = m_lifetime m;
  ms_next_eq : m_next m' = m_next m
}.

Lemma task_step_main m ev m' : task_step m ev = Some m' -> main_same m m'.
Proof.
  intros (t & tk & _ & _ & [(s & [p|] & _ & ->)| ->])%task_step_shape; by constructor.
Qed.

Lemma task_step_inv limits m now ev r :
  mux_step limits m now ev = Some r ->
  match ev with
  | TaskLock _ | TaskRead _ _ | TaskRecvFrom _ _ | TaskWrite _ _ | TaskRemove _ =>
    exists m', r = inr m' /\ task_step m ev = Some m'
  | _ => True
  end.
Proof.
  destruct ev; cbn [mux_step]; try done; destruct (task_step m _); cbn; try done; intros [= <-]; eauto.
Qed.

(** An invariant of every step is one of every run. *)
Lemma mux_loop_inv (P : mux -> Prop) limits m evs m' :
  (forall m now ev m', (now, ev) ∈ evs -> P m -> mux_step limits m now ev = Some (inr m') -> P m') ->
  P m -> mux_loop limits m evs = Some (inr m') -> P m'.
Proof.
  revert m. induction evs as [|[now ev] evs IH]; intros m Hs Hp H; cbn [mux_loop] in H.
  - by injection H as <-.
  - destruct (mux_step limits m now ev) as [[r|m1]|] eqn:He; try done.
    apply (IH m1); [|eapply Hs; [left|done..]|done].
    intros m2 now2 ev2 m3 Hin. apply Hs. by right.
Qed.

Lemma mux_loop_wf limits m evs m' :
  wf m -> Forall (fun p => ev_ok p.2) evs -> mux_loop limits m evs = Some (inr m') -> wf m'.
Proof.
  intros Hw Ho. apply mux_loop_inv; [|done]. intros m1 now ev m2 Hin Hw1 Hs.
  rewrite Forall_forall in Ho. apply (mux_step_wf limits m1 now ev m2); [done|exact (Ho _ Hin)|done].
Qed.

Lemma wf_start limits now s r : bytes_ok (rx s) -> wf (mux_start limits now s r).
Proof. intros Hb. by constructor. Qed.

(** ** What reaches the upstreams *)

Definition balanced (m : mux) : Prop := m_c2u m = sent_total m /\ m_u2c m = 0.

Lemma sent_total_same m m' : main_same m m' -> sent_total m' = sent_total m.
Proof. intros []. unfold sent_total. congruence. Qed.

Lemma balanced_step limits m now ev m' :
  balanced m -> mux_step limits m now ev = Some (inr m') -> balanced m'.
Proof.
  intros [H1 H2] H. unfold balanced. pose proof (task_step_inv _ _ _ _ _ H) as Ht.
  destruct ev; try (destruct Ht as (m1 & [= <-] & Ht); apply task_step_main in Ht;
    rewrite (sent_total_same _ _ Ht); destruct Ht; split; congruence); clear Ht; cbn [mux_step] in H.
  - destruct (m_main m); try done. cbn in H. by case_match.
  - destruct (m_main m); try done. cbn in H. by case_match.
  - by injection H as <-.
  - by injection H as <-.
  - destruct (m_main m); try done. cbn [select_step] in H.
    destruct (read_mux_frame (m_client m)) as [[[f|]|e| |] s]; try done. by injection H as <-.
  - destruct (m_main m) as [|f| |]; try done. unfold handle_step in H.
    destruct (handle_mux_frame env f m) as [[h|e| |] m1] eqn:Hh; try done. apply handle_books in Hh.
    destruct h as [b|u p|sid]; injection H as <-; cbn.
    + destruct Hh as [B1 B2 _ _ _ B6 B7]. cbn in B6, B7. unfold sent_total in *. cbn. lia.
    + destruct Hh as [-> _]. done.
    + destruct Hh as [-> _]. done.
  - destruct (m_main m) as [| |u p|]; try done. unfold forward_step in H.
    destruct (locked m u); [done|]. destruct write; [done|]. injection H as <-.
    pose proof (sent_total_outbox m u p) as Ho. unfold sent_total in *. cbn in *. lia.
  - destruct (m_main m) as [| | |sid]; try done. unfold end_step in H. destruct (writer_held m); [done|].
    destruct (write_frame _ _) as [[[]|e| |] s]; try done. by injection H as <-.
  - by injection H as <-.
Qed.

(** The payloads written to an upstream, and the one the main task holds for it. *)
Definition to_up (u : Z) (m : mux) : list bytes := map snd (filter (fun p => p.1 = u) (m_outbox m)).

Definition waiting (u : Z) (m : mux) : list bytes :=
  match m_main m with
  | Forwarding u' p => if decide (u' = u) then [p] else []
  | _ => []
  end.

(** The payload that a frame carries for an open session. *)
Definition keep_payload (sid : Z) (f : MuxFrame) : list bytes :=
  if (session_id (meta f) =? sid) && (MuxFrame.status (meta f) =? SESSION_STATUS_KEEP)
     && negb (is_xudp_frame (meta f))
  then match nonempty_payload f with Some p => [p] | None => [] end else [].

(** The payloads for a session among the frames handled in a run. *)
Fixpoint kept_payloads (limits : RelayLimits) (sid : Z) (m : mux) (evs : list (Z * mux_event)) : list bytes :=
  match evs with
  | [] => []
  | (now, ev) :: evs =>
    match ev, m_main m with MHandle _, Handling f => keep_payload sid f | _, _ => [] end
    ++ match mux_step limits m now ev with
       | Some (inr m) => kept_payloads limits sid m evs
       | _ => []
       end
  end.

(** The session table maps [sid] to [s] all along a run. *)
Fixpoint stays_open (limits : RelayLimits) (sid : Z) (s : MuxSession) (m : mux) (evs : list (Z * mux_event)) : Prop :=
  m_sessions m !! sid = Some s /\
  match evs with
  | [] => True
  | (now, ev) :: evs =>
    match mux_step limits m now ev with
    | Some (inr m) => stays_open limits sid s m evs
    | _ => True
    end
  end.

Lemma xudp_outbox env f b m b' m' : handle_xudp_frame env f b m = (Done b', m') -> m_outbox m' = m_outbox m.
Proof.
  unfold handle_xudp_frame, ensure_xudp_cone, xudp_send, start_xudp_reader_if_needed. intros H.
  mux_inv H; cbn; try done.
  unfold close_cone. by repeat case_match.
Qed.

(** A finished handler wrote at most to an upstream it created. *)
Lemma handle_outbox env f m b m' :
  handle_mux_frame env f m = (Done (Finished b), m') ->
  m_outbox m' = m_outbox m \/ exists p, m_outbox m' = m_outbox m ++ [(m_next m, p)].
Proof.
  unfold handle_mux_frame. destruct (is_xudp_frame (meta f)).
  { intros H. mux_inv H. apply xudp_outbox in H0. auto. }
  unfold open_tcp_session, open_udp_session, forward_keep_frame. intros H. mux_inv H; cbn; eauto.
  unfold remove_session. case_match; auto.
Qed.

(** Frames with data for an open session are never finished without a write. *)
Lemma handle_keep env f m sid s h m' :
  m_sessions m !! sid = Some s -> handle_mux_frame env f m = (Done h, m') ->
  match h with Awaits _ _ => True | _ => keep_payload sid f = [] end.
Proof.
  intros Hs H. cut (keep_payload sid f = [] \/ exists u p, h = Awaits u p).
  { intros [Hk|(u & p & ->)]; [by destruct h|done]. }
  unfold keep_payload. destruct (_ =? sid) eqn:Es; [|by left]. bool_hyps. subst sid. cbn [andb].
  destruct (_ =? SESSION_STATUS_KEEP) eqn:Ek; [|by left]. cbn [andb]. bool_hyps.
  destruct (is_xudp_frame (meta f)) eqn:Ex; [by left|]. cbn [negb]. unfold handle_mux_frame in H.
  rewrite Ex, Ek in H. cbn in H. unfold forward_keep_frame in H. mux_inv H; naive_solver.
Qed.

Lemma to_up_snoc u m m' v p :
  m_outbox m' = m_outbox m ++ [(v, p)] -> to_up u m' = to_up u m ++ (if decide (v = u) then [p] else []).
Proof.
  intros H. unfold to_up. rewrite H, filter_app, map_app. f_equal.
  destruct (decide (v = u)) as [->|Hn]; [by rewrite filter_cons_True|by rewrite filter_cons_False].
Qed.

Lemma to_up_same u m m' : m_outbox m' = m_outbox m -> to_up u m' = to_up u m.
Proof. intros H. unfold to_up. by rewrite H. Qed.

Lemma deliver_step limits sid s m now ev m' :
  wf m -> m_sessions m !! sid = Some s -> mux_step limits m now ev = Some (inr m') ->
  let u := ms_upstream s in
  to_up u m' ++ waiting u m' = to_up u m ++ waiting u m
    ++ match ev, m_main m with MHandle _, Handling f => keep_payload sid f | _, _ => [] end.
Proof.
  intros Hw Hs H u. pose proof (task_step_inv _ _ _ _ _ H) as Ht.
  destruct ev; try (destruct Ht as (m1 & [= <-] & Ht); apply task_step_main in Ht;
    unfold waiting; rewrite (to_up_same u m m') by (by destruct Ht); destruct Ht as [-> _ _ _ _ _ _ _];
    by rewrite app_nil_r); clear Ht; cbn [mux_step] in H; rewrite ?app_nil_r.
  - destruct (m_main m); try done. cbn in H. by case_match.
  - destruct (m_main m); try done. cbn in H. by case_match.
  - by injection H as <-.
  - by injection H as <-.
  - unfold waiting. destruct (m_main m); try done. cbn [select_step] in H.
    destruct (read_mux_frame (m_client m)) as [[[f|]|e| |] st]; try done. by injection H as <-.
  - unfold waiting at 2. destruct (m_main m) as [|f| |]; try done. unfold handle_step in H. cbn [app].
    destruct (handle_mux_frame env f m) as [[h|e| |] m1] eqn:Hh; try done.
    pose proof (handle_keep _ _ _ _ _ _ _ Hs Hh) as Hk0.
    destruct h as [b|v p|v]; injection H as <-; unfold waiting; cbn [set_main m_main].
    + rewrite Hk0, !app_nil_r.
      destruct (wf_sessions m Hw sid s Hs) as [_ Hlt].
      apply handle_outbox in Hh as [Ho|[p Ho]]; [by rewrite (to_up_same u m)|].
      rewrite (to_up_snoc u m _ (m_next m) p) by done.
      rewrite decide_False by (unfold u; lia). by rewrite app_nil_r.
    + apply handle_books in Hh as (-> & s' & Hs' & <- & Hp & Hx & Hk).
      f_equal. unfold keep_payload. rewrite Hx, Hk, Hp. cbn [negb]. rewrite andb_true_r.
      change (SESSION_STATUS_KEEP =? SESSION_STATUS_KEEP) with true. rewrite andb_true_r.
      destruct (decide (ms_upstream s' = u)) as [He|Hne].
      * rewrite (wf_inj m Hw _ _ _ _ Hs' Hs He), Z.eqb_refl. done.
      * destruct (_ =? sid) eqn:E; [|done]. bool_hyps. subst sid. unfold u in Hne. congruence.
    + apply handle_books in Hh as [-> _]. by rewrite Hk0, !app_nil_r.
  - unfold waiting. destruct (m_main m) as [| |v p|]; try done. unfold forward_step in H.
    destruct (locked m v); [done|]. destruct write; [done|]. injection H as <-. cbn [set_main m_main].
    rewrite app_nil_r. by apply to_up_snoc.
  - unfold waiting. destruct (m_main m) as [| | |v]; try done. unfold end_step in H. destruct (writer_held m); [done|].
    destruct (write_frame _ _) as [[[]|e| |] st]; try done. by injection H as <-.
  - by injection H as <-.
Qed.

Lemma deliver_loop limits sid s m evs m' :
  wf m -> Forall (fun p => ev_ok p.2) evs -> stays_open limits sid s m evs ->
  mux_loop limits m evs = Some (inr m') ->
  let u := ms_upstream s in
  to_up u m' ++ waiting u m' = to_up u m ++ waiting u m ++ kept_payloads limits sid m evs.
Proof.
  revert m. induction evs as [|[now ev] evs IH]; intros m Hw Ho Hst H; cbn [mux_loop stays_open kept_payloads] in *.
  { injection H as <-. by rewrite app_nil_r. }
  destruct Hst as [Hs Hst]. inversion_clear Ho as [|? ? Ho1 Ho2].
  destruct (mux_step limits m now ev) as [[r|m1]|] eqn:He; try done.
  rewrite (IH m1); [|by eapply mux_step_wf|done|done|done].
  rewrite app_assoc, (deliver_step limits sid s m now ev m1 Hw Hs He), <- !app_assoc. done.
Qed.

(** ** What reaches the client *)

Definition wire (f : MuxFrame) : bytes :=
  match payload f with
  | Some p => encode_meta (meta f) ++ to_be16 (as_u16 (Z.of_nat (length p))) ++ p
  | None => encode_meta (meta f)
  end.

Definition end_frame (sid : Z) : MuxFrame :=
  {| meta := {| session_id := sid; MuxFrame.status := SESSION_STATUS_END; mux_option := 0; network := None;
                mux_target := None; global_id := None |};
     payload := None |}.

Definition data_frame (sid : Z) (target : option Endpoint) (p : bytes) : MuxFrame :=
  {| meta := {| session_id := sid; MuxFrame.status := SESSION_STATUS_KEEP; mux_option := OPTION_DATA;
                network := match target with Some _ => Some NETWORK_UDP | None => None end;
                mux_target := target; global_id := None |};
     payload := Some p |}.

Definition frame_ok (f : MuxFrame) : Prop :=
  meta_ok (meta f) /\
  match payload f with
  | Some p => has_data (meta f) = true /\ (length p <= MAX_CHUNK_SIZE)%nat
  | None => has_data (meta f) = false
  end.

(** The frames a peer reads off a byte string with the parser. *)
Inductive spells : bytes -> list MuxFrame -> Prop :=
| spells_nil : spells [] []
| spells_cons input f n fs :
    parse_frame input = Ok (f, n) -> spells (drop n input) fs -> spells input (f :: fs).

Lemma parse_wire f rest : frame_ok f -> parse_frame (wire f ++ rest) = Ok (f, length (wire f)).
Proof.
  intros [Hm Hp]. destruct f as [me [p|]]; cbn in Hm, Hp; unfold wire; cbn [meta payload].
  - destruct Hp as [Hd Hl]. rewrite parse_frame_data by done. rewrite !length_app.
    change (length (to_be16 _)) with 2%nat. do 2 f_equal. lia.
  - by apply parse_frame_plain.
Qed.

Lemma spells_wires fs : Forall frame_ok fs -> spells (concat (map wire fs)) fs.
Proof.
  induction 1 as [|f fs Hf Hfs IH]; cbn; [constructor|].
  econstructor; [by apply parse_wire|]. by rewrite drop_app_length.
Qed.

Lemma end_frame_ok sid : u16_ok sid -> frame_ok (end_frame sid).
Proof. by split. Qed.

Lemma data_frame_ok sid target p :
  u16_ok sid -> match target with Some t => endpoint_ok t | None => True end ->
  (length p <= MAX_CHUNK_SIZE)%nat -> frame_ok (data_frame sid target p).
Proof.
  intros Hs Ht Hp. split; [|by split]. split; [done|]. destruct target as [t|]; [|done].
  split; [done|]. by right; right.
Qed.

Lemma write_end_wire sid : write_end sid = wire (end_frame sid).
Proof. reflexivity. Qed.

Lemma write_data_wire sid target p :
  write_mux_data sid SESSION_STATUS_KEEP target p =
    if (MAX_CHUNK_SIZE <? length p)%nat then Err (map_mux_error (ChunkTooLarge (length p)))
    else Ok (wire (data_frame sid target p)).
Proof.
  unfold write_mux_data, encode_data_frame. cbv zeta. by destruct (MAX_CHUNK_SIZE <? length p)%nat.
Qed.

(** A chunk on its way to the client: session, origin and bytes. *)
Definition chunk : Type := Z * option Endpoint * bytes.

Definition data_of (f : MuxFrame) : option chunk :=
  match payload f with
  | Some p => Some (session_id (meta f), mux_target (meta f), p)
  | None => None
  end.

(** The chunk that a step of a reader task takes from its upstream, with the task; a
    datagram longer than a frame can carry ends its session instead. *)
Definition read_by (m : mux) (ev : mux_event) : list (Z * chunk) :=
  match ev with
  | TaskRead t (inr data) =>
    match m_tasks m !! t with
    | Some tk =>
      match t_pump tk, data with
      | PumpTcp _, [] => []
      | _, _ => if (length data <=? MAX_CHUNK_SIZE)%nat then [(t, (t_sid tk, None, data))] else []
      end
    | None => []
    end
  | TaskRecvFrom t (inr (data, source)) =>
    if (length data <=? MAX_CHUNK_SIZE)%nat then [(t, (XUDP_SESSION_ID, Some (Ip source), data))] else []
  | _ => []
  end.

(** The chunk a task has in its hands. *)
Definition in_flight (tk : task) : list chunk :=
  match t_phase tk with
  | Sending (SendData origin data) _ _ => [(t_sid tk, origin, data)]
  | _ => []
  end.

(** The chunk whose frame is complete after a step. *)
Definition written_by (m : mux) (ev : mux_event) : list (Z * chunk) :=
  match ev with
  | TaskWrite t None =>
    match m_tasks m !! t with
    | Some tk => map (pair t) (in_flight tk)
    | None => []
    end
  | _ => []
  end.

(** What the steps of a run add to a log. *)
Fixpoint logged (log : mux -> mux_event -> list (Z * chunk)) (limits : RelayLimits) (m : mux)
    (evs : list (Z * mux_event)) : list (Z * chunk) :=
  match evs with
  | [] => []
  | (now, ev) :: evs =>
    match mux_step limits m now ev with
    | Some (inr m') => log m ev ++ logged log limits m' evs
    | _ => []
    end
  end.

Definition by_task (t : Z) (l : list (Z * chunk)) : list chunk := map snd (filter (fun p => p.1 = t) l).

(** A reader that holds the writer is still there after a step, or the step is its own. *)
Definition spared (m : mux) (ev : mux_event) (m' : mux) : bool :=
  bool_decide (map_Forall (fun t tk => writes tk = true -> is_Some (m_tasks m' !! t) \/ task_of ev = Some t)
    (m_tasks m)).

(** No reader is aborted in the middle of a frame. *)
Fixpoint uncut (limits : RelayLimits) (m : mux) (evs : list (Z * mux_event)) : bool :=
  match evs with
  | [] => true
  | (now, ev) :: evs =>
    match mux_step limits m now ev with
    | Some (inr m') => spared m ev m' && uncut limits m' evs
    | _ => true
    end
  end.

(** The frame a task sends. *)
Definition frame_of (tk : task) (what : sends) : MuxFrame :=
  match what with
  | SendData origin data => data_frame (t_sid tk) origin data
  | SendEnd => end_frame (t_sid tk)
  end.

(** The bytes of the frame in progress that have left already. *)
Definition part_of (m : mux) (part : bytes) : Prop :=
  (writer_held m = false /\ part = [])
  \/ exists t tk what n, m_tasks m !! t = Some tk
       /\ t_phase tk = Sending what (wire (frame_of tk what)) (Some n)
       /\ part = take n (wire (frame_of tk what)).

(** *** Tasks that send *)

(** The phase of a task is right: the frame it sends is the one for what it holds. *)
Definition phase_ok (tk : task) : Prop :=
  match t_phase tk with
  | Sending what frame w =>
    frame = wire (frame_of tk what) /\ frame_ok (frame_of tk what)
  | _ => True
  end.

Record senders (m : mux) : Prop := {
  sd_ok : forall t tk, m_tasks m !! t = Some tk -> phase_ok tk;
  sd_one : forall t1 t2 tk1 tk2, m_tasks m !! t1 = Some tk1 -> m_tasks m !! t2 = Some tk2 ->
    writes tk1 = true -> writes tk2 = true -> t1 = t2
}.

Lemma writer_held_true m : writer_held m = true <-> exists t tk, m_tasks m !! t = Some tk /\ writes tk = true.
Proof. unfold writer_held. rewrite bool_decide_eq_true. unfold map_Exists. done. Qed.

Lemma writer_held_false m t tk : writer_held m = false -> m_tasks m !! t = Some tk -> writes tk = false.
Proof.
  intros Hf Ht. destruct (writes tk) eqn:E; [|done]. exfalso.
  assert (writer_held m = true) by (apply writer_held_true; eauto). congruence.
Qed.

(** The tasks of [m'] are tasks of [m], or fresh ones that send nothing. *)
Definition tasks_from (m m' : mux) : Prop :=
  m_next m <= m_next m' /\
  forall t tk, m_tasks m' !! t = Some tk ->
    m_tasks m !! t = Some tk \/ (m_next m <= t /\ (t_phase tk = Locking \/ t_phase tk = Reading)).

Lemma tasks_from_sub m m' : m_next m' = m_next m -> m_tasks m' ⊆ m_tasks m -> tasks_from m m'.
Proof. intros Hn Hs. split; [lia|]. intros t tk Ht. left. by eapply lookup_weaken. Qed.

Lemma tasks_from_refl m m' : m_next m' = m_next m -> m_tasks m' = m_tasks m -> tasks_from m m'.
Proof. intros Hn Hs. apply tasks_from_sub; [done|by rewrite Hs]. Qed.

Lemma tasks_from_trans m m1 m2 : tasks_from m m1 -> tasks_from m1 m2 -> tasks_from m m2.
Proof.
  intros [N1 H1] [N2 H2]. split; [lia|]. intros t tk Ht.
  destruct (H2 t tk Ht) as [Ht1|[Hn Hp]]; [by apply H1|]. right. split; [lia|done].
Qed.

Lemma tasks_from_spawn m m' tk :
  t_phase tk = Locking \/ t_phase tk = Reading -> m_next m' = m_next m + 1 ->
  m_tasks m' ⊆ <[m_next m := tk]> (m_tasks m) -> tasks_from m m'.
Proof.
  intros Hp Hn Hs. split; [lia|]. intros t x Hx. eapply lookup_weaken in Hx; [|exact Hs].
  apply lookup_insert_Some in Hx as [[<- <-]|[_ Hx]]; [right; split; [lia|done]|by left].
Qed.

Lemma xudp_reader_from m u m' : start_xudp_reader_if_needed m = (Done u, m') -> tasks_from m m'.
Proof.
  unfold start_xudp_reader_if_needed. intros H. mux_inv H; try (by apply tasks_from_refl);
    (apply (tasks_from_spawn m _ {| t_sid := XUDP_SESSION_ID; t_pump := PumpXudp (cone_socket x); t_phase := Reading |});
     [by right|done|cbn; first [done | apply kill_subseteq]]).
Qed.

Lemma xudp_cone_from env gid m u m' : ensure_xudp_cone env gid m = (Done u, m') -> tasks_from m m'.
Proof.
  unfold ensure_xudp_cone. intros H. mux_inv H; try (by apply tasks_from_refl);
    apply tasks_from_sub; try done; apply kill_subseteq.
Qed.

Lemma xudp_send_from env f target b m b' m' : xudp_send env f target b m = (Done b', m') -> tasks_from m m'.
Proof. unfold xudp_send. intros H. mux_inv H; by apply tasks_from_refl. Qed.

Lemma close_cone_tasks now m : m_tasks (close_cone now m) ⊆ m_tasks m.
Proof.
  unfold close_cone. destruct (m_xudp m) as [c|]; [|done].
  destruct (cone_reader c), (cone_gid c); cbn; try done.
  - etransitivity; [apply kill_subseteq|apply delete_subseteq].
  - apply delete_subseteq.
  - apply kill_subseteq.
Qed.

Lemma close_cone_next now m : m_next (close_cone now m) = m_next m.
Proof. unfold close_cone. by repeat case_match. Qed.

Lemma handle_from env f m h m' : handle_mux_frame env f m = (Done h, m') -> tasks_from m m'.
Proof.
  unfold handle_mux_frame, handle_xudp_frame, open_tcp_session, open_udp_session, forward_keep_frame. intros H.
  mux_inv H; try (by apply tasks_from_refl);
    eauto 6 using tasks_from_trans, xudp_reader_from, xudp_cone_from, xudp_send_from, tasks_from_refl.
  2-5: (eapply tasks_from_spawn; [| |cbn; reflexivity]; [by left|done]).
  - apply tasks_from_sub; [apply close_cone_next|apply close_cone_tasks].
  - unfold remove_session. case_match; [|by apply tasks_from_refl].
    apply tasks_from_sub; [done|apply delete_subseteq].
Qed.

Lemma main_step_from limits m now ev m' :
  mux_step limits m now ev = Some (inr m') -> task_of ev = None -> tasks_from m m'.
Proof.
  intros H He. destruct ev; try done; cbn [mux_step] in H;
    try (injection H as <-; first [by apply tasks_from_refl | by apply tasks_from_sub, kill_subseteq]);
    destruct (m_main m) as [|f|u p|sid]; try done; cbn [select_step] in H.
  - by case_match.
  - by case_match.
  - destruct (read_mux_frame (m_client m)) as [[[f|]|e| |] s]; try done. injection H as <-. by apply tasks_from_refl.
  - unfold handle_step in H. destruct (handle_mux_frame env f m) as [[h|e| |] m1] eqn:Hh; try done.
    apply handle_from in Hh. eapply tasks_from_trans; [exact Hh|].
    destruct h; injection H as <-; by apply tasks_from_refl.
  - unfold forward_step in H. destruct (locked m u), write; try done. injection H as <-. by apply tasks_from_refl.
  - unfold end_step in H. destruct (writer_held m); [done|].
    destruct (write_frame _ _) as [[[]|e| |] s]; try done. injection H as <-. by apply tasks_from_refl.
Qed.

Lemma tasks_from_senders m m' : tasks_from m m' -> senders m -> senders m'.
Proof.
  intros [_ H] [S1 S2]. split.
  - intros t tk Ht. destruct (H t tk Ht) as [Ht1|[_ [Hp|Hp]]]; [by eapply S1|..]; unfold phase_ok; by rewrite Hp.
  - intros t1 t2 k1 k2 H1 H2 W1 W2.
    destruct (H t1 k1 H1) as [K1|[_ [Hp|Hp]]]; [|unfold writes in W1; by rewrite Hp in W1..].
    destruct (H t2 k2 H2) as [K2|[_ [Hp|Hp]]]; [|unfold writes in W2; by rewrite Hp in W2..].
    by apply (S2 t1 t2 k1 k2).
Qed.

(** A step in which a task does not write: it has nothing in its hands before, and
    afterwards what it has read. *)
Record reader_step (m : mux) (ev : mux_event) (t : Z) (m' : mux) : Prop := {
  rs_before : exists tk, m_tasks m !! t = Some tk /\ in_flight tk = [] /\ writes tk = false;
  rs_client : m_client m' = m_client m;
  rs_next : m_next m' = m_next m;
  rs_others : forall t', t' <> t -> m_tasks m' !! t' = m_tasks m !! t';
  rs_after : match m_tasks m' !! t with
    | Some tk => phase_ok tk /\ writes tk = false /\ map (pair t) (in_flight tk) = read_by m ev
    | None => read_by m ev = []
    end
}.

Lemma reader_step_phase m ev t tk p :
  m_tasks m !! t = Some tk -> in_flight tk = [] -> writes tk = false ->
  let tk' := {| t_sid := t_sid tk; t_pump := t_pump tk; t_phase := p |} in
  phase_ok tk' -> writes tk' = false -> map (pair t) (in_flight tk') = read_by m ev ->
  reader_step m ev t (set_phase m t tk p).
Proof.
  intros Ht Hf Hw tk' H1 H2 H3. split; try done.
  - by exists tk.
  - intros t' Hne. cbn. by rewrite lookup_insert_ne.
  - cbn. by rewrite lookup_insert_eq.
Qed.

Lemma reader_step_delete m ev t tk ss :
  m_tasks m !! t = Some tk -> in_flight tk = [] -> writes tk = false -> read_by m ev = [] ->
  reader_step m ev t (set_tasks (set_sessions m ss) (delete t (m_tasks m))).
Proof.
  intros Ht Hf Hw H1. split; try done.
  - by exists tk.
  - intros t' Hne. cbn. by rewrite lookup_delete_ne.
  - cbn. by rewrite lookup_delete_eq.
Qed.

Lemma leb_ltb_neg (a b : nat) : (a <=? b)%nat = negb (b <? a)%nat.
Proof. apply Nat.leb_antisym. Qed.

Lemma small_chunk (data : bytes) :
  (TCP_BUF <? Z.of_nat (length data)) = false -> (MAX_CHUNK_SIZE <? length data)%nat = false.
Proof. unfold TCP_BUF, MAX_CHUNK_SIZE. intros H. bool_hyps. apply Nat.ltb_ge. lia. Qed.

Lemma fits_chunk (data : bytes) :
  (MAX_CHUNK_SIZE <? length data)%nat = false -> (length data <= MAX_CHUNK_SIZE)%nat.
Proof. apply Nat.ltb_ge. Qed.

(** The phases a task reaches after a read. *)
Lemma end_phase_ok sid p w :
  u16_ok sid -> phase_ok {| t_sid := sid; t_pump := p; t_phase := Sending SendEnd (write_end sid) w |}.
Proof. intros Hs. split; [done|by apply end_frame_ok]. Qed.

Lemma data_phase_ok sid p origin data w :
  u16_ok sid -> match origin with Some t => endpoint_ok t | None => True end ->
  (MAX_CHUNK_SIZE <? length data)%nat = false ->
  phase_ok {| t_sid := sid; t_pump := p; t_phase := Sending (SendData origin data) (wire (data_frame sid origin data)) w |}.
Proof. intros Hs Ho Hd. split; [done|]. by apply data_frame_ok, fits_chunk. Qed.

Lemma tcp_read_step m t tk r u :
  m_tasks m !! t = Some tk -> t_pump tk = PumpTcp u -> t_phase tk = Reading -> u16_ok (t_sid tk) ->
  match r with inr data => (TCP_BUF <? Z.of_nat (length data)) = false | inl _ => True end ->
  reader_step m (TaskRead t r) t (pump_tcp_read m t tk r).
Proof.
  intros Ht Hp Hph Hu Hr.
  assert (Hf : in_flight tk = []) by (unfold in_flight; by rewrite Hph).
  assert (Hn : writes tk = false) by (unfold writes; by rewrite Hph).
  unfold pump_tcp_read. destruct r as [e|[|b data]].
  - by apply reader_step_phase.
  - apply reader_step_phase; [done|done|done|by apply end_phase_ok|done|]. cbn [read_by]. by rewrite Ht, Hp.
  - apply small_chunk in Hr. unfold write_data. rewrite write_data_wire, Hr.
    apply reader_step_phase; [done|done|done|by apply data_phase_ok|done|].
    cbn [read_by]. by rewrite Ht, Hp, leb_ltb_neg, Hr.
Qed.

Lemma udp_read_step m t tk r u :
  m_tasks m !! t = Some tk -> t_pump tk = PumpUdp u -> t_phase tk = Reading -> u16_ok (t_sid tk) ->
  reader_step m (TaskRead t r) t (pump_udp_read m t tk r).
Proof.
  intros Ht Hp Hph Hu.
  assert (Hf : in_flight tk = []) by (unfold in_flight; by rewrite Hph).
  assert (Hn : writes tk = false) by (unfold writes; by rewrite Hph).
  unfold pump_udp_read. destruct r as [e|data].
  - apply reader_step_phase; [done|done|done|by apply end_phase_ok|done|done].
  - unfold write_data. rewrite write_data_wire. destruct (MAX_CHUNK_SIZE <? length data)%nat eqn:Hr.
    + apply reader_step_phase; [done|done|done|by apply end_phase_ok|done|].
      cbn [read_by]. by rewrite Ht, Hp, leb_ltb_neg, Hr.
    + apply reader_step_phase; [done|done|done|by apply data_phase_ok|done|].
      cbn [read_by]. by rewrite Ht, Hp, leb_ltb_neg, Hr.
Qed.

Lemma xudp_read_step m t tk r sk :
  m_tasks m !! t = Some tk -> t_pump tk = PumpXudp sk -> t_phase tk = Reading -> t_sid tk = XUDP_SESSION_ID ->
  ev_ok (TaskRecvFrom t r) -> reader_step m (TaskRecvFrom t r) t (pump_xudp_read m t tk r).
Proof.
  intros Ht Hp Hph Hs Ho.
  assert (Hf : in_flight tk = []) by (unfold in_flight; by rewrite Hph).
  assert (Hn : writes tk = false) by (unfold writes; by rewrite Hph).
  assert (Hu : u16_ok XUDP_SESSION_ID) by done.
  unfold pump_xudp_read. destruct r as [e|[data src]].
  - apply reader_step_phase; [done|done|done|rewrite Hs; by apply end_phase_ok|done|done].
  - rewrite write_data_wire. destruct (MAX_CHUNK_SIZE <? length data)%nat eqn:Hr.
    + apply reader_step_phase; [done|done|done|rewrite Hs; by apply end_phase_ok|done|].
      cbn [read_by]. by rewrite leb_ltb_neg, Hr.
    + apply reader_step_phase; [done|done|done|rewrite Hs; by apply data_phase_ok|done|].
      cbn [read_by]. rewrite leb_ltb_neg, Hr. unfold in_flight. cbn. by rewrite Hs.
Qed.

Lemma task_reads m ev m' t :
  wf m -> ev_ok ev -> task_step m ev = Some m' -> task_of ev = Some t ->
  (forall n, ev <> TaskWrite t n) -> reader_step m ev t m'.
Proof.
  intros Hw Ho H He Hn. destruct ev as [| | | | | | | |x|x r|x r|x n|x|]; cbn [task_step] in H; try done;
    injection He as ->; destruct (m_tasks m !! t) as [tk|] eqn:Ht; cbn [mbind option_bind] in H; try done;
    destruct (wf_tasks m Hw t tk Ht) as (_ & Hu & Hpump).
  - destruct (t_pump tk) as [u|u|sk], (t_phase tk) eqn:Hph; try done; destruct (locked m u); try done;
      injection H as <-; apply reader_step_phase; try done; unfold in_flight, writes; by rewrite Hph.
  - destruct (t_pump tk) as [u|u|sk] eqn:Hp, (t_phase tk) eqn:Hph; try done.
    + assert (Hr : match r with inr data => (TCP_BUF <? Z.of_nat (length data)) = false | inl _ => True end
                   /\ pump_tcp_read m t tk r = m').
      { destruct r as [e|data]; [by injection H|]. by destruct (TCP_BUF <? _); [|injection H]. }
      destruct Hr as [Hr <-]. by apply (tcp_read_step m t tk r u).
    + assert (pump_udp_read m t tk r = m') as <-.
      { destruct r as [e|data]; [by injection H|]. by destruct (MAX_VLESS_UDP_PAYLOAD <? _); [|injection H]. }
      by apply (udp_read_step m t tk r u).
  - destruct (t_pump tk) as [u|u|sk] eqn:Hp, (t_phase tk) eqn:Hph; try done.
    assert (pump_xudp_read m t tk r = m') as <-.
    { destruct r as [e|[data src]]; [by injection H|]. by destruct (MAX_VLESS_UDP_PAYLOAD <? _); [|injection H]. }
    by apply (xudp_read_step m t tk r sk).
  - by destruct (Hn n).
  - destruct (t_phase tk) eqn:Hph; try done. injection H as <-.
    apply (reader_step_delete m (TaskRemove t) t tk); try done; unfold in_flight, writes; by rewrite Hph.
Qed.

(** A step in which a task writes a piece of its frame. *)
Record writer_step (m : mux) (t : Z) (n : option nat) (m' : mux) (tk : task) (what : sends) (k : nat) : Prop := {
  ws_before : exists w, t_phase tk = Sending what (wire (frame_of tk what)) w /\ default 0%nat w = k
    /\ (w = None -> writer_held m = false);
  ws_task : m_tasks m !! t = Some tk;
  ws_quota : tx_quota (m_client m') = None;
  ws_next : m_next m' = m_next m;
  ws_others : forall t', t' <> t -> m_tasks m' !! t' = m_tasks m !! t';
  ws_after : let frame := wire (frame_of tk what) in
    match n with
    | Some j =>
      tx (m_client m') = tx (m_client m) ++ take j (drop k frame)
      /\ m_tasks m' !! t = Some {| t_sid := t_sid tk; t_pump := t_pump tk; t_phase := Sending what frame (Some (k + j)%nat) |}
    | None =>
      tx (m_client m') = tx (m_client m) ++ drop k frame
      /\ (forall tk', m_tasks m' !! t = Some tk' -> phase_ok tk' /\ writes tk' = false /\ in_flight tk' = [])
    end
}.

Lemma write_frame_all b s :
  tx_quota s = None -> write_frame b s = (Done tt, with_tx (tx s ++ b) s).
Proof. intros Hq. unfold write_frame. rewrite io_bind_eq. unfold write_all, flush, with_tx. by rewrite Hq. Qed.

Lemma pump_wrote_ok m t tk what :
  m_client (pump_wrote m t tk what true) = m_client m /\ m_next (pump_wrote m t tk what true) = m_next m
  /\ (forall t', t' <> t -> m_tasks (pump_wrote m t tk what true) !! t' = m_tasks m !! t')
  /\ (forall tk', m_tasks (pump_wrote m t tk what true) !! t = Some tk' ->
        phase_ok tk' /\ writes tk' = false /\ in_flight tk' = []).
Proof.
  unfold pump_wrote, pump_tcp_wrote, pump_udp_wrote, pump_xudp_wrote.
  destruct (t_pump tk), what; cbn; split_and!; try done;
    intros t'; first [intros Hne; by rewrite ?lookup_insert_ne, ?lookup_delete_ne
                     | by rewrite ?lookup_insert_eq, ?lookup_delete_eq; intros [= <-]].
Qed.

Lemma task_writes m t n m' :
  senders m -> tx_quota (m_client m) = None -> task_step m (TaskWrite t n) = Some m' ->
  exists tk what k, writer_step m t n m' tk what k.
Proof.
  intros [S1 _] Hq H. cbn [task_step] in H. destruct (m_tasks m !! t) as [tk|] eqn:Ht; [|done].
  cbn [mbind option_bind] in H. pose proof (S1 t tk Ht) as Hp. unfold phase_ok in Hp.
  destruct (t_phase tk) as [| |what frame w|] eqn:Hph; try done. destruct Hp as [-> Hf]. unfold task_write in H.
  destruct (match w with Some _ => _ | None => _ end) eqn:Hl; [done|].
  exists tk, what, (default 0%nat w).
  assert (Hbefore : exists w', Sending what (wire (frame_of tk what)) w = Sending what (wire (frame_of tk what)) w'
    /\ default 0%nat w' = default 0%nat w /\ (w' = None -> writer_held m = false)).
  { exists w. split_and!; [done|done|]. by intros ->. }
  destruct n as [j|].
  - destruct (_ <? _)%nat; [done|]. unfold write_all in H. rewrite Hq in H. injection H as <-.
    split; cbn; rewrite ?Hph; try done.
    + intros t' Hne. by rewrite lookup_insert_ne.
    + by rewrite lookup_insert_eq.
  - rewrite write_frame_all in H by done. injection H as <-.
    destruct (pump_wrote_ok (set_client m (with_tx (tx (m_client m) ++ drop (default 0%nat w) (wire (frame_of tk what)))
      (m_client m))) t tk what) as (P1 & P2 & P3 & P4).
    split; rewrite ?Hph, ?P1, ?P2; try done.
Qed.

(** Handlers send the client nothing. *)
Lemma handle_client env f m h m' : handle_mux_frame env f m = (Done h, m') -> m_client m' = m_client m.
Proof.
  unfold handle_mux_frame, handle_xudp_frame, ensure_xudp_cone, xudp_send, start_xudp_reader_if_needed,
    open_tcp_session, open_udp_session, forward_keep_frame.
  intros H. mux_inv H; cbn; try done.
  - unfold close_cone. by repeat case_match.
  - unfold remove_session. by case_match.
Qed.

(** A step of the main task writes nothing, or an end frame while the writer is free. *)
Lemma main_step_client limits m now ev m' :
  wf m -> tx_quota (m_client m) = None -> mux_step limits m now ev = Some (inr m') -> task_of ev = None ->
  tx_quota (m_client m') = None /\
  (tx (m_client m') = tx (m_client m)
   \/ writer_held m = false /\ m_tasks m' = m_tasks m
      /\ exists sid, u16_ok sid /\ tx (m_client m') = tx (m_client m) ++ wire (end_frame sid)).
Proof.
  intros Hw Hq H He. pose proof (wf_main m Hw) as Hm. destruct ev; try done; cbn [mux_step] in H;
    try (injection H as <-; split; [done|by left]); destruct (m_main m) as [|f|u p|sid]; try done; cbn [select_step] in H.
  - by case_match.
  - by case_match.
  - destruct (read_mux_frame (m_client m)) as [[[f|]|e| |] s] eqn:Hr; try done. injection H as <-.
    apply read_mux_frame_done in Hr as (n & _ & ->). split; [done|by left].
  - unfold handle_step in H. destruct (handle_mux_frame env f m) as [[h|e| |] m1] eqn:Hh; try done.
    apply handle_client in Hh. assert (Hc : m_client m' = m_client m) by (by destruct h; injection H as <-).
    rewrite Hc. split; [done|by left].
  - unfold forward_step in H. destruct (locked m u), write; try done. injection H as <-. split; [done|by left].
  - unfold end_step in H. destruct (writer_held m) eqn:Hl; [done|].
    rewrite write_frame_all in H by done. injection H as <-. split; [done|]. right. split_and!; [done|done|].
    exists sid. split; [done|]. by rewrite write_end_wire.
Qed.

(** The senders after a step of the task [t] that leaves it without the writer. *)
Lemma senders_update m m' t :
  senders m -> (forall t', t' <> t -> m_tasks m' !! t' = m_tasks m !! t') ->
  (forall tk, m_tasks m' !! t = Some tk -> phase_ok tk /\ (writes tk = true ->
     forall t' tk', m_tasks m !! t' = Some tk' -> writes tk' = true -> t' = t)) -> senders m'.
Proof.
  intros [S1 S2] Ho Ht. split.
  - intros t1 k1 H1. destruct (decide (t1 = t)) as [->|Hne]; [by apply Ht|]. rewrite Ho in H1 by done. by eapply S1.
  - intros t1 t2 k1 k2 H1 H2 W1 W2. destruct (decide (t1 = t)) as [->|N1], (decide (t2 = t)) as [->|N2]; [done|..].
    + rewrite Ho in H2 by done. symmetry. by eapply Ht.
    + rewrite Ho in H1 by done. by eapply Ht.
    + rewrite Ho in H1, H2 by done. by eapply S2.
Qed.

Lemma writer_is m t tk t' tk' :
  senders m -> m_tasks m !! t = Some tk -> (writes tk = true \/ writer_held m = false) ->
  m_tasks m !! t' = Some tk' -> writes tk' = true -> t' = t.
Proof.
  intros [_ S2] Ht Hw Ht' Hw'. destruct Hw as [Hw|Hw]; [by eapply S2|].
  by rewrite (writer_held_false m t' tk' Hw Ht') in Hw'.
Qed.

Lemma writer_step_sole m t n m' tk what k :
  writer_step m t n m' tk what k -> writes tk = true \/ writer_held m = false.
Proof.
  intros [(w & Hp & _ & Hw) _ _ _ _ _]. destruct w; [left; unfold writes; by rewrite Hp|right; auto].
Qed.

Lemma senders_step limits m now ev m' :
  wf m -> ev_ok ev -> tx_quota (m_client m) = None -> senders m ->
  mux_step limits m now ev = Some (inr m') -> senders m'.
Proof.
  intros Hw Ho Hq Hs H. destruct (task_of ev) as [t|] eqn:He.
  2: { apply main_step_from in H; [|done]. by eapply tasks_from_senders. }
  pose proof (task_step_inv _ _ _ _ _ H) as Ht.
  assert (task_step m ev = Some m') as Hst by (destruct ev; try done; by destruct Ht as (? & [= <-] & ?)). clear Ht.
  destruct ev as [| | | | | | | |x|x r|x r|x n|x|]; try done; injection He as ->.
  4: { destruct (task_writes m t n m' Hs Hq Hst) as (tk & what & k & Hws).
       pose proof (writer_step_sole _ _ _ _ _ _ _ Hws) as Hsole. destruct Hws as [W0 W1 _ _ W2 W3].
       apply (senders_update m m' t); [done|done|]. intros tk' Htk'. destruct n as [j|].
       - destruct W3 as [_ W3]. rewrite W3 in Htk'. injection Htk' as <-.
         split; [|intros _ t' k'; by eapply writer_is].
         pose proof (sd_ok m Hs t tk W1) as Hok. unfold phase_ok in *. destruct W0 as (w & Hph & _).
         rewrite Hph in Hok. destruct what; exact Hok.
       - destruct W3 as [_ W3]. destruct (W3 tk' Htk') as (P1 & P2 & _). split; [done|]. by rewrite P2. }
  all: (destruct (task_reads m _ m' t Hw Ho Hst eq_refl) as [_ _ _ R1 R2]; [done|]);
    apply (senders_update m m' t); [done|done|]; intros tk' Htk'; rewrite Htk' in R2;
    destruct R2 as (P1 & P2 & _); (split; [done|by rewrite P2]).
Qed.

(** *** The bytes on the wire *)

(** The client has got the frames [fs] and a part of the frame in progress. *)
Definition shown (m : mux) (fs : list MuxFrame) : Prop :=
  Forall frame_ok fs /\ tx_quota (m_client m) = None
  /\ exists part, part_of m part /\ tx (m_client m) = concat (map wire fs) ++ part.

Lemma part_of_writer m t tk what w part :
  senders m -> m_tasks m !! t = Some tk -> t_phase tk = Sending what (wire (frame_of tk what)) w ->
  (w = None -> writer_held m = false) -> part_of m part ->
  part = take (default 0%nat w) (wire (frame_of tk what)).
Proof.
  intros Hs Ht Hp Hw [[Hf ->]|(t' & tk' & what' & n & Ht' & Hp' & ->)].
  - destruct w; [|done]. exfalso. pose proof (writer_held_false m t tk Hf Ht) as Hn.
    unfold writes in Hn. by rewrite Hp in Hn.
  - assert (Hw' : writes tk' = true) by (unfold writes; by rewrite Hp').
    assert (t' = t) as ->.
    { apply (writer_is m t tk t' tk'); try done. destruct w; [left; unfold writes; by rewrite Hp|right; auto]. }
    rewrite Ht in Ht'. injection Ht' as <-. rewrite Hp in Hp'.
    assert (what' = what /\ w = Some n) as [-> ->] by (by injection Hp' as -> _ ->). done.
Qed.

Lemma free_part m part : writer_held m = false -> part_of m part -> part = [].
Proof.
  intros Hf [[_ ->]|(t & tk & what & n & Ht & Hp & _)]; [done|].
  pose proof (writer_held_false m t tk Hf Ht) as Hn. unfold writes in Hn. by rewrite Hp in Hn.
Qed.

Lemma not_held m : (forall t tk, m_tasks m !! t = Some tk -> writes tk = false) -> writer_held m = false.
Proof.
  intros H. destruct (writer_held m) eqn:E; [|done]. apply writer_held_true in E as (t & tk & Ht & Hw).
  by rewrite (H t tk Ht) in Hw.
Qed.

(** A step that neither starts nor cuts a frame leaves the part that has left. *)
Lemma part_kept m m' part :
  (forall t tk, m_tasks m' !! t = Some tk -> writes tk = true -> m_tasks m !! t = Some tk) ->
  (forall t tk, m_tasks m !! t = Some tk -> writes tk = true -> m_tasks m' !! t = Some tk) ->
  part_of m part -> part_of m' part.
Proof.
  intros H1 H2 [[Hf ->]|(t & tk & what & n & Ht & Hp & ->)].
  - left. split; [|done]. apply not_held. intros t tk Ht. destruct (writes tk) eqn:E; [|done].
    pose proof (writer_held_false m t tk Hf (H1 t tk Ht E)). congruence.
  - right. exists t, tk, what, n. split_and!; [|done|done]. apply H2; [done|]. unfold writes. by rewrite Hp.
Qed.

Lemma spared_kept m ev m' t tk :
  wf m -> tasks_from m m' -> task_of ev = None -> spared m ev m' = true ->
  m_tasks m !! t = Some tk -> writes tk = true -> m_tasks m' !! t = Some tk.
Proof.
  intros Hw [_ Hf] He Hs Ht Hwr. unfold spared in Hs. apply bool_decide_eq_true in Hs.
  destruct (Hs t tk Ht Hwr) as [[tk' Ht']|Hc]; [|congruence].
  destruct (Hf t tk' Ht') as [Ht1|[Hn _]]; [congruence|]. destruct (wf_tasks m Hw t tk Ht). lia.
Qed.

Lemma from_kept m m' t tk :
  tasks_from m m' -> m_tasks m' !! t = Some tk -> writes tk = true -> m_tasks m !! t = Some tk.
Proof.
  intros [_ Hf] Ht Hw. destruct (Hf t tk Ht) as [?|[_ [Hp|Hp]]]; [done|..]; unfold writes in Hw; by rewrite Hp in Hw.
Qed.

Lemma shown_main limits m now ev m' fs :
  wf m -> shown m fs -> mux_step limits m now ev = Some (inr m') -> task_of ev = None -> spared m ev m' = true ->
  exists gs, shown m' (fs ++ gs) /\ omap data_of gs = [].
Proof.
  intros Hw (F & Hq & part & Hp & Ht) H He Hs. pose proof (main_step_from _ _ _ _ _ H He) as Hf.
  destruct (main_step_client limits m now ev m' Hw Hq H He) as [Hq' [Hx|(Hfree & Hk & sid & Hu & Hx)]].
  - exists []. rewrite app_nil_r. split; [|done]. split_and!; [done|done|]. exists part. split; [|by rewrite Hx].
    apply (part_kept m); [|intros; by eapply spared_kept|done]. intros t tk. by apply from_kept.
  - exists [end_frame sid]. split; [|done]. split_and!; [|done|].
    + apply Forall_app_2; [done|]. by apply Forall_singleton, end_frame_ok.
    + exists []. split; [left; unfold writer_held in *; by rewrite Hk|].
      rewrite (free_part m part Hfree Hp), app_nil_r in Ht.
      by rewrite Hx, Ht, map_app, concat_app, !app_nil_r.
Qed.

Lemma shown_read m ev t m' fs : senders m -> reader_step m ev t m' -> shown m fs -> shown m' fs.
Proof.
  intros Hs [(tk & Rt & _ & Rw) Rc _ Ro Ra] (F & Hq & part & Hp & Ht). split_and!; [done|by rewrite Rc|].
  exists part. split; [|by rewrite Rc]. apply (part_kept m); [..|done]; intros t' tk' Ht' Hw';
    (destruct (decide (t' = t)) as [->|Hne]; [|by rewrite ?Ro in * by done]).
  - rewrite Ht' in Ra. destruct Ra as (_ & Ra & _). congruence.
  - congruence.
Qed.

Lemma shown_write m t n m' tk what k fs :
  senders m -> writer_step m t n m' tk what k -> shown m fs ->
  exists gs, shown m' (fs ++ gs) /\ omap data_of gs = map snd (written_by m (TaskWrite t n)).
Proof.
  intros Hs Hws (F & Hq & part & Hp & Ht). pose proof (writer_step_sole _ _ _ _ _ _ _ Hws) as Hsole.
  destruct Hws as [(w & Wp & <- & Ww) Wt Wq _ Wo Wa].
  pose proof (part_of_writer m t tk what w part Hs Wt Wp Ww Hp) as ->. destruct n as [j|]; cbn [written_by].
  - exists []. rewrite app_nil_r. split; [|done]. destruct Wa as [Wx Wn]. split_and!; [done|done|].
    exists (take (default 0%nat w + j) (wire (frame_of tk what))). split.
    + right. eexists t, _, what, _. split_and!; [exact Wn|..]; by destruct what.
    + by rewrite Wx, Ht, <- app_assoc, take_take_drop.
  - destruct Wa as [Wx Wn]. exists [frame_of tk what].
    pose proof (sd_ok m Hs t tk Wt) as Hok. unfold phase_ok in Hok. rewrite Wp in Hok. destruct Hok as [_ Hok].
    split.
    + split_and!; [apply Forall_app_2; [done|by apply Forall_singleton]|done|]. exists []. split.
      * left. split; [|done]. apply not_held. intros t' tk' Ht'. destruct (decide (t' = t)) as [->|Hne].
        -- by destruct (Wn tk' Ht') as (_ & ? & _).
        -- rewrite Wo in Ht' by done. destruct (writes tk') eqn:E; [|done].
           destruct Hne. by eapply writer_is.
      * rewrite Wx, Ht, <- app_assoc, take_drop, map_app, concat_app. cbn. by rewrite !app_nil_r.
    + rewrite Wt. unfold in_flight. rewrite Wp. by destruct what.
Qed.

Lemma shown_step limits m now ev m' fs :
  wf m -> ev_ok ev -> senders m -> shown m fs -> mux_step limits m now ev = Some (inr m') -> spared m ev m' = true ->
  exists gs, shown m' (fs ++ gs) /\ omap data_of gs = map snd (written_by m ev).
Proof.
  intros Hw Ho Hs Hsh H Hsp. destruct (task_of ev) as [t|] eqn:He.
  2: { destruct (shown_main limits m now ev m' fs Hw Hsh H He Hsp) as (gs & ? & ?). exists gs. by destruct ev. }
  pose proof (task_step_inv _ _ _ _ _ H) as Ht.
  assert (task_step m ev = Some m') as Hst by (destruct ev; try done; by destruct Ht as (? & [= <-] & ?)). clear Ht.
  destruct ev as [| | | | | | | |x|x r|x r|x n|x|]; try done; injection He as ->.
  4: { destruct (task_writes m t n m' Hs) as (tk & what & k & Hws); [by destruct Hsh as (_ & ? & _)|done|].
       by eapply shown_write. }
  all: exists []; rewrite app_nil_r; (split; [|done]);
    (eapply shown_read; [done|by eapply task_reads|done]).
Qed.

(** *** The books of the chunks *)

(** What each task has read is what it has written, and the chunk in its hands. *)
Definition accounted (m : mux) (R W : list (Z * chunk)) : Prop := forall t,
  (m_next m <= t -> by_task t R = []) /\
  exists last, by_task t R = by_task t W ++ last
    /\ match m_tasks m !! t with Some tk => last = in_flight tk | None => (length last <= 1)%nat end.

Lemma by_task_app t l l' : by_task t (l ++ l') = by_task t l ++ by_task t l'.
Proof. unfold by_task. by rewrite filter_app, map_app. Qed.

Lemma by_task_own t (l : list chunk) : by_task t (map (pair t) l) = l.
Proof. unfold by_task. induction l as [|c l IH]; [done|]. cbn [map]. rewrite filter_cons_True by done. cbn. by f_equal. Qed.

Lemma by_task_other t t' (l : list chunk) : t <> t' -> by_task t' (map (pair t) l) = [].
Proof. intros H. unfold by_task. induction l as [|c l IH]; [done|]. cbn [map]. by rewrite filter_cons_False. Qed.

Lemma in_flight_one tk : (length (in_flight tk) <= 1)%nat.
Proof. unfold in_flight. destruct (t_phase tk) as [| |[]|]; cbn; lia. Qed.

Lemma accounted_main m m' R W : wf m -> tasks_from m m' -> accounted m R W -> accounted m' R W.
Proof.
  intros Hw [Hn Hf] Ha t. destruct (Ha t) as [H1 (last & H2 & H3)]. split; [intros; apply H1; lia|].
  exists last. split; [done|]. destruct (m_tasks m' !! t) as [tk|] eqn:Ht.
  - destruct (Hf t tk Ht) as [Ht1|[Hge Hp]]; [by rewrite Ht1 in H3|].
    rewrite (H1 Hge) in H2. symmetry in H2. apply app_eq_nil in H2 as [_ ->].
    unfold in_flight. by destruct Hp as [-> | ->].
  - destruct (m_tasks m !! t) as [tk|]; [|done]. rewrite H3. apply in_flight_one.
Qed.

(** A step of one task that reads [rs] and writes [ws]. *)
Lemma accounted_task m m' t tk rs ws R W :
  wf m -> m_tasks m !! t = Some tk -> m_next m' = m_next m ->
  (forall t', t' <> t -> m_tasks m' !! t' = m_tasks m !! t') ->
  (exists last, in_flight tk ++ rs = ws ++ last
     /\ match m_tasks m' !! t with Some tk' => last = in_flight tk' | None => (length last <= 1)%nat end) ->
  accounted m R W -> accounted m' (R ++ map (pair t) rs) (W ++ map (pair t) ws).
Proof.
  intros Hw Ht Hn Ho (last & Hl & Hl') Ha t'. destruct (Ha t') as [H1 (last' & H2 & H3)]. rewrite Hn, !by_task_app.
  destruct (decide (t' = t)) as [->|Hne].
  - rewrite !by_task_own. rewrite Ht in H3. subst last'. split.
    + intros Hge. destruct (wf_tasks m Hw t tk Ht). lia.
    + exists last. split; [|done]. by rewrite H2, <- !app_assoc, Hl.
  - rewrite !by_task_other, !app_nil_r by done. split; [done|]. exists last'. by rewrite Ho.
Qed.

Lemma accounted_step limits m now ev m' R W :
  wf m -> ev_ok ev -> senders m -> tx_quota (m_client m) = None -> accounted m R W ->
  mux_step limits m now ev = Some (inr m') -> accounted m' (R ++ read_by m ev) (W ++ written_by m ev).
Proof.
  intros Hw Ho Hs Hq Ha H. destruct (task_of ev) as [t|] eqn:He.
  2: { replace (read_by m ev) with (@nil (Z * chunk)) by (by destruct ev).
       replace (written_by m ev) with (@nil (Z * chunk)) by (by destruct ev). rewrite !app_nil_r.
       apply (accounted_main m); [done| |done]. by eapply main_step_from. }
  pose proof (task_step_inv _ _ _ _ _ H) as Ht.
  assert (task_step m ev = Some m') as Hst by (destruct ev; try done; by destruct Ht as (? & [= <-] & ?)). clear Ht.
  destruct ev as [| | | | | | | |x|x r|x r|x n|x|]; try done; injection He as ->.
  4: { destruct (task_writes m t n m' Hs Hq Hst) as (tk & what & k & [(w & Wp & _ & _) Wt _ Wn Wo Wa]).
       apply (accounted_task m m' t tk [] (match n with Some _ => [] | None => in_flight tk end) R W) in Ha; try done.
       - destruct n; cbn [written_by]; [done|]. by rewrite Wt.
       - rewrite app_nil_r. destruct n as [j|]; destruct Wa as [_ Wa].
         + exists (in_flight tk). split; [done|]. rewrite Wa. unfold in_flight. by rewrite Wp.
         + exists []. rewrite app_nil_r. split; [done|]. destruct (m_tasks m' !! t) as [tk'|]; [|cbn; lia].
           by destruct (Wa tk' eq_refl) as (_ & _ & ->). }
  all: (destruct (task_reads m _ m' t Hw Ho Hst eq_refl) as [(tk & Rt & Rf & _) _ Rn Ro Ra]; [done|]).
  all: assert (Hr : exists rs, map (pair t) rs = read_by m _
         /\ match m_tasks m' !! t with Some tk' => rs = in_flight tk' | None => (length rs <= 1)%nat end)
         by (destruct (m_tasks m' !! t) as [tk'|];
             [destruct Ra as (_ & _ & Ra); by exists (in_flight tk')|exists []; by rewrite Ra; split; [|cbn; lia]]).
  all: destruct Hr as (rs & <- & Hr); apply (accounted_task m m' t tk rs [] R W); try done;
    exists rs; by rewrite Rf.
Qed.

(** *** Runs *)

Lemma quota_step limits m now ev m' :
  wf m -> ev_ok ev -> senders m -> tx_quota (m_client m) = None -> mux_step limits m now ev = Some (inr m') ->
  tx_quota (m_client m') = None.
Proof.
  intros Hw Ho Hs Hq H. destruct (task_of ev) as [t|] eqn:He.
  2: { by destruct (main_step_client limits m now ev m' Hw Hq H He). }
  pose proof (task_step_inv _ _ _ _ _ H) as Ht.
  assert (task_step m ev = Some m') as Hst by (destruct ev; try done; by destruct Ht as (? & [= <-] & ?)). clear Ht.
  destruct ev as [| | | | | | | |x|x r|x r|x n|x|]; try done; injection He as ->.
  4: { destruct (task_writes m t n m' Hs Hq Hst) as (tk & what & k & Hws). by destruct Hws. }
  all: (destruct (task_reads m _ m' t Hw Ho Hst eq_refl) as [_ Hc _ _ _]; [done|]); by rewrite Hc.
Qed.

Lemma run_senders limits start s registry evs m :
  bytes_ok (rx s) -> tx_quota s = None -> Forall (fun p => ev_ok p.2) evs ->
  relay_vless_mux_with_limits limits start s registry evs = Some (inr m) -> senders m.
Proof.
  intros Hb Hq Ho Hrun.
  apply (mux_loop_inv (fun m => wf m /\ tx_quota (m_client m) = None /\ senders m) limits
    (mux_start limits start s registry) evs m); [|split_and!; [by apply wf_start|done|by split]|done].
  intros m1 now ev m2 Hin (Hw & Hq1 & Hs) H. rewrite Forall_forall in Ho. pose proof (Ho _ Hin) as Ho1. cbn in Ho1.
  split_and!; [by eapply mux_step_wf|by eapply quota_step|by eapply senders_step].
Qed.

Lemma run_shows limits m evs m' fs R W :
  wf m -> Forall (fun p => ev_ok p.2) evs -> senders m -> shown m fs -> accounted m R W ->
  uncut limits m evs = true -> mux_loop limits m evs = Some (inr m') ->
  exists gs, shown m' (fs ++ gs) /\ omap data_of gs = map snd (logged written_by limits m evs)
    /\ accounted m' (R ++ logged read_by limits m evs) (W ++ logged written_by limits m evs).
Proof.
  revert m fs R W. induction evs as [|[now ev] evs IH]; intros m fs R W Hw Ho Hs Hsh Ha Hu H;
    cbn [mux_loop logged uncut] in *.
  { injection H as <-. exists []. rewrite !app_nil_r. split_and!; done. }
  inversion_clear Ho as [|? ? Ho1 Ho2].
  destruct (mux_step limits m now ev) as [[r|m1]|] eqn:He; try done. apply andb_true_iff in Hu as [Hu1 Hu2].
  assert (Hq : tx_quota (m_client m) = None) by (by destruct Hsh as (_ & ? & _)).
  destruct (shown_step limits m now ev m1 fs) as (gs & Hsh1 & Hd); try done.
  destruct (IH m1 (fs ++ gs) (R ++ read_by m ev) (W ++ written_by m ev)) as (hs & Hsh2 & Hd2 & Ha2); try done.
  - by eapply mux_step_wf.
  - by eapply senders_step.
  - by eapply accounted_step.
  - exists (gs ++ hs). by rewrite omap_app, map_app, Hd, Hd2, !app_assoc.
Qed.

Lemma start_shows limits start s registry evs m :
  let m0 := mux_start limits start s registry in
  bytes_ok (rx s) -> tx s = [] -> tx_quota s = None -> Forall (fun p => ev_ok p.2) evs ->
  uncut limits m0 evs = true -> relay_vless_mux_with_limits limits start s registry evs = Some (inr m) ->
  exists fs, shown m fs /\ omap data_of fs = map snd (logged written_by limits m0 evs)
    /\ accounted m (logged read_by limits m0 evs) (logged written_by limits m0 evs).
Proof.
  intros m0 Hb Ht Hq Ho Hu Hrun. apply (run_shows limits m0 evs m [] [] []); [by apply wf_start|done|by split|..|done|done].
  - split_and!; [constructor|done|]. exists []. split; [by left|done].
  - intros t. split; [done|]. exists []. split; [done|]. destruct (m_tasks m0 !! t) eqn:E; [done|cbn; lia].
Qed.

(** ** Locks held across reads *)

(** A step of one task leaves the others where they are. *)
Lemma task_step_other m ev m' t t' :
  task_step m ev = Some m' -> task_of ev = Some t -> t <> t' -> m_tasks m' !! t' = m_tasks m !! t'.
Proof.
  intros (x & tk & Hx & _ & [(s & [p|] & _ & ->)| ->])%task_step_shape He Hne; rewrite He in Hx;
    injection Hx as <-; cbn; by rewrite ?lookup_insert_ne, ?lookup_delete_ne.
Qed.

(** The only step of a task that is reading is the end of the read. *)
Lemma reading_step m ev m' t tk u :
  task_step m ev = Some m' -> task_of ev = Some t -> m_tasks m !! t = Some tk -> reads_from u tk ->
  exists r, ev = TaskRead t r.
Proof.
  intros H He Ht [Hp Hph]. destruct ev as [| | | | | | | |x|x r|x r|x n|x|]; cbn [task_step] in H; try done;
    injection He as ->; rewrite Ht in H; cbn [mbind option_bind] in H; rewrite Hph in H.
  - by destruct Hp as [Hp|Hp]; rewrite Hp in H.
  - eauto.
  - by destruct Hp as [Hp|Hp]; rewrite Hp in H.
  - done.
  - done.
Qed.

Lemma kill_lookup ts x t : t ∉ ts -> kill ts x !! t = x !! t.
Proof.
  intros Hn. induction ts as [|y ts IH]; [done|]. rewrite not_elem_of_cons in Hn. destruct Hn as [H1 H2].
  cbn. rewrite lookup_delete_ne by done. by apply IH.
Qed.

(** Events other than the end of the read of [t]. *)
Definition quiet (t : Z) (ev : mux_event) : Prop :=
  match ev with
  | TaskRead t' _ => t' <> t
  | Others r => t ∉ aborted r
  | _ => True
  end.

Definition stalled (u : Z) (p : bytes) (t : Z) (tk : task) (m0 m : mux) : Prop :=
  m_main m = Forwarding u p /\ m_tasks m !! t = Some tk /\ m_outbox m = m_outbox m0
  /\ m_datagrams m = m_datagrams m0.

Lemma locked_by m t tk u : m_tasks m !! t = Some tk -> reads_from u tk -> locked m u = true.
Proof. intros Ht Hr. unfold locked. apply bool_decide_eq_true_2. by exists t, tk. Qed.

Lemma stalled_step limits u p t tk m0 m now ev m' :
  reads_from u tk -> quiet t ev -> stalled u p t tk m0 m -> mux_step limits m now ev = Some (inr m') ->
  stalled u p t tk m0 m'.
Proof.
  intros Hr Hq (Hm & Ht & Ho & Hd) H. pose proof (task_step_inv _ _ _ _ _ H) as Hs.
  assert (Hother : forall x, task_of ev = Some x -> task_step m ev = Some m' -> stalled u p t tk m0 m').
  { intros x Hx Hst. pose proof (task_step_main _ _ _ Hst) as [S1 S2 S3 _ _ _ _ _].
    assert (Hne : x <> t).
    { intros ->. destruct (reading_step _ _ _ _ _ _ Hst Hx Ht Hr) as [r ->]. done. }
    unfold stalled. rewrite S1, S2, S3, (task_step_other m ev m' x t) by done. done. }
  destruct ev; try (destruct Hs as (m1 & [= <-] & Hs); by eapply Hother); clear Hs; cbn [mux_step] in H;
    rewrite ?Hm in H; try done.
  - by injection H as <-.
  - by injection H as <-.
  - unfold forward_step in H. by rewrite (locked_by m t tk u Ht Hr) in H.
  - injection H as <-. unfold stalled. cbn. by rewrite kill_lookup by done.
Qed.

(** ** Leaving the loop *)

Lemma abort_all m (ss : gmap Z MuxSession) :
  let m' := map_fold (fun _ s m => abort s m) m ss in
  (forall sid s, ss !! sid = Some s -> m_tasks m' !! ms_task s = None)
  /\ m_tasks m' ⊆ m_tasks m /\ m_xudp m' = m_xudp m /\ m_registry m' = m_registry m.
Proof.
  cbv zeta. apply (map_fold_weak_ind (fun m' (ss : gmap Z MuxSession) =>
    (forall sid s, ss !! sid = Some s -> m_tasks m' !! ms_task s = None)
    /\ m_tasks m' ⊆ m_tasks m /\ m_xudp m' = m_xudp m /\ m_registry m' = m_registry m)).
  - split_and!; [by intros ??|done|done|done].
  - intros i x ss' r Hi (H1 & H2 & H3 & H4). split_and!; [|..|done|done].
    + intros sid s. rewrite lookup_insert_Some. cbn. intros [[<- <-]|[_ Hs]]; [by rewrite lookup_delete_eq|].
      destruct (decide (ms_task x = ms_task s)) as [->|Hne]; [by rewrite lookup_delete_eq|].
      rewrite lookup_delete_ne by done. by apply (H1 sid).
    + cbn. etransitivity; [apply delete_subseteq|done].
Qed.

Lemma close_cone_sessions now m : m_sessions (close_cone now m) = m_sessions m.
Proof. unfold close_cone. by repeat case_match. Qed.

Lemma close_cone_xudp now m : m_xudp (close_cone now m) = None.
Proof. unfold close_cone. repeat case_match; done. Qed.

Lemma close_cone_registry now m cone gid :
  m_xudp m = Some cone -> cone_gid cone = Some gid ->
  m_registry (close_cone now m) = detach (m_registry m) gid now.
Proof. intros Hx Hg. unfold close_cone. rewrite Hx, Hg. by destruct (cone_reader cone). Qed.

(** ** Properties *)

(** C29: the streaming frame reader is the frame parser. A frame is read from the
    client's stream exactly when the parser accepts the bytes that are there, with
    the same frame and the same number of bytes consumed, and an error of the parser
    other than missing bytes is the reader's error. *)
Theorem mux_reader_equals_parser (s s' : stream) (f : MuxFrame) :
  (read_mux_frame s = (Done (Some f), s') <->
     exists n, parse_frame (rx s) = Ok (f, n) /\ s' = with_rx (drop n (rx s)) s)
  /\ (forall e, parse_frame (rx s) = Err e -> e <> TooShort ->
        (read_mux_frame s).1 = Fail (map_mux_error e)).
Proof.
  pose proof (reader_agrees_all s) as Ha. unfold reader_agrees in Ha. split.
  - split; [apply read_mux_frame_done|]. intros (n & Hp & ->). by rewrite Hp in Ha.
  - intros e He Hne. rewrite He in Ha. by destruct e.
Qed.

(** C3: a session's payloads reach its upstream, in order and nothing else. In any
    run, as long as a session stays in the table, what its upstream has been sent
    (with the payload the main task is about to write there) grows by exactly the
    payloads of the frames handled for this session, in the order of the frames,
    whatever happens to the other sessions. *)
Theorem mux_delivers_in_order (limits : RelayLimits) (start : Z) (s : stream) (registry : XudpManager)
    (before after : list (Z * mux_event)) (m m' : mux) (sid : Z) (session : MuxSession)
    (Hb : bytes_ok (rx s)) (Ho : Forall (fun p => ev_ok p.2) (before ++ after))
    (Hrun : relay_vless_mux_with_limits limits start s registry before = Some (inr m))
    (Hopen : stays_open limits sid session m after)
    (Hrun' : mux_loop limits m after = Some (inr m')) :
  let u := ms_upstream session in
  to_up u m' ++ waiting u m' = to_up u m ++ waiting u m ++ kept_payloads limits sid m after.
Proof.
  rewrite Forall_app in Ho. destruct Ho as [Ho1 Ho2].
  apply deliver_loop; [|done..]. eapply mux_loop_wf; [|exact Ho1|exact Hrun]. by apply wf_start.
Qed.


(** an abort in the middle of a frame leaves its first part on the wire. When the
    client ends a session while the session's reader is writing a frame, the reader is
    gone at once, what it has written stays, and the writer is free: whatever is sent
    next follows the truncated frame, where the client expects the rest of it. *)
Theorem mux_abort_truncates (limits : RelayLimits) (start now : Z) (s : stream) (registry : XudpManager)
    (evs : list (Z * mux_event)) (m : mux) (env : mux_env) (f : MuxFrame) (session : MuxSession)
    (tk : task) (what : sends) (frame : bytes) (n : nat)
    (Hb : bytes_ok (rx s)) (Ht : tx s = []) (Hq : tx_quota s = None)
    (Ho : Forall (fun p => ev_ok p.2) evs)
    (Huncut : uncut limits (mux_start limits start s registry) evs = true)
    (Hrun : relay_vless_mux_with_limits limits start s registry evs = Some (inr m))
    (Hf : m_main m = Handling f) (Hend : MuxFrame.status (meta f) = SESSION_STATUS_END)
    (Hx : is_xudp_frame (meta f) = false) (Hs : m_sessions m !! session_id (meta f) = Some session)
    (Htk : m_tasks m !! ms_task session = Some tk) (Hw : t_phase tk = Sending what frame (Some n)) :
  exists m' whole fs, mux_step limits m now (MHandle env) = Some (inr m')
    /\ spells whole fs /\ tx (m_client m') = whole ++ take n frame
    /\ m_tasks m' !! ms_task session = None /\ m_main m' = Select /\ writer_held m' = false.
Proof.
  destruct (start_shows limits start s registry evs m) as (fs & (Hfs & _ & part & Hp & Hxs) & _ & _); try done.
  pose proof (run_senders limits start s registry evs m Hb Hq Ho Hrun) as Hsd.
  pose proof (sd_ok m Hsd _ tk Htk) as Hok. unfold phase_ok in Hok. rewrite Hw in Hok. destruct Hok as [-> _].
  pose proof (part_of_writer m _ tk what (Some n) part Hsd Htk Hw ltac:(done) Hp) as ->.
  cbn [mux_step]. rewrite Hf. unfold handle_step, handle_mux_frame. rewrite Hx, Hend.
  change (SESSION_STATUS_END =? SESSION_STATUS_NEW) with false. change (SESSION_STATUS_END =? SESSION_STATUS_KEEP) with false.
  change (SESSION_STATUS_END =? SESSION_STATUS_END) with true. cbv iota beta zeta.
  unfold mbind, mux_bind, modify, mret, mux_ret, remove_session. rewrite Hs. eexists _, (concat (map wire fs)), fs.
  split_and!; [reflexivity|by apply spells_wires|done|cbn; apply lookup_delete_eq|done|].
  apply not_held. cbn. intros t x [Hne Hlk]%lookup_delete_Some. destruct (writes x) eqn:E; [|done]. destruct Hne.
  symmetry. eapply (writer_is m _ tk t x); try done. left. unfold writes. by rewrite Hw.
Qed.

(** the relay's byte counters are exact upstream and silent downstream. At
    every point of every run the client-to-upstream counter is the number of bytes
    that were written to the sessions' upstreams and sent from XUDP sockets; the
    upstream-to-client counter is always zero, although data is relayed that way. *)
Theorem mux_counters (limits : RelayLimits) (start : Z) (s : stream) (registry : XudpManager)
    (evs : list (Z * mux_event)) (m : mux)
    (Hrun : relay_vless_mux_with_limits limits start s registry evs = Some (inr m)) :
  m_c2u m = sent_total m /\ m_u2c m = 0.
Proof.
  apply (mux_loop_inv balanced limits (mux_start limits start s registry) evs m); [|done|done].
  intros m1 now ev m2 _. apply balanced_step.
Qed.

(** C32: one silent upstream stalls the whole connection. While the main task waits
    to forward a payload to an upstream whose reader sits in its read, then until
    that read completes, in every run: nothing is forwarded to any session and no
    datagram is sent, no further frame of the client can be read, and neither the
    idle nor the lifetime deadline can end the relay. *)
Theorem mux_lock_stalls (limits : RelayLimits) (m m' : mux) (u t : Z) (p : bytes) (tk : task)
    (evs : list (Z * mux_event))
    (Hm : m_main m = Forwarding u p) (Ht : m_tasks m !! t = Some tk) (Hr : reads_from u tk)
    (Hq : Forall (fun e => quiet t e.2) evs) (Hrun : mux_loop limits m evs = Some (inr m')) :
  m_outbox m' = m_outbox m /\ m_datagrams m' = m_datagrams m
  /\ (forall now w, mux_step limits m' now (MForward w) = None)
  /\ (forall now, mux_step limits m' now MFrame = None /\ mux_step limits m' now MIdle = None
        /\ mux_step limits m' now MLifetime = None).
Proof.
  destruct (mux_loop_inv (stalled u p t tk m) limits m evs m') as (Sm & St & So & Sd); [|done|done|].
  { intros m1 now ev m2 Hin. apply stalled_step; [done|]. rewrite Forall_forall in Hq. exact (Hq _ Hin). }
  split_and!; [done|done|..].
  - intros now w. cbn [mux_step]. rewrite Sm. unfold forward_step. by rewrite (locked_by m' t tk u St Hr).
  - intros now. cbn [mux_step]. by rewrite Sm.
Qed.

(** a clean end releases everything. When the client closes its stream, every
    session is removed, every reader of a session is aborted, the XUDP cone is gone,
    and a cone with a GlobalID has given its socket back to the registry, which will
    delete it after its time to live. *)
Theorem mux_clean_end_releases (limits : RelayLimits) (m m' : mux) (now : Z) (n : Z * Z)
    (Hend : mux_step limits m now MFrame = Some (inl (Ok n, m'))) :
  n = (m_c2u m, m_u2c m) /\ m_sessions m' = ∅ /\ m_xudp m' = None
  /\ (forall sid s, m_sessions m !! sid = Some s -> m_tasks m' !! ms_task s = None)
  /\ (forall cone gid, m_xudp m = Some cone -> cone_gid cone = Some gid ->
        m_registry m' = detach (m_registry m) gid now).
Proof.
  cbn [mux_step] in Hend. destruct (m_main m); try done. cbn [select_step] in Hend.
  destruct (read_mux_frame (m_client m)) as [[[f|]|e| |] s]; try done. injection Hend as <- <-.
  unfold close_all. set (m1 := set_client m s).
  destruct (abort_all m1 (m_sessions m1)) as (A1 & A2 & A3 & A4).
  split_and!; [done|by rewrite close_cone_sessions|apply close_cone_xudp|..].
  - intros sid x Hx. eapply lookup_weaken_None; [|apply close_cone_tasks]. exact (A1 sid x Hx).
  - intros cone gid Hx Hg. rewrite (close_cone_registry now _ cone gid); [|exact (eq_trans A3 Hx)|done].
    f_equal. exact A4.
Qed.

(** a timeout releases nothing. When a deadline ends the relay, the reader
    tasks of its sessions are not aborted and its XUDP cone is not detached: a
    registry entry in use stays in use, and no later cleanup removes it. *)
Theorem mux_timeout_leaks (limits : RelayLimits) (m m' : mux) (now later : Z) (ev : mux_event)
    (r : res io_error (Z * Z)) (gid : bytes) (e : XudpEntry)
    (Hev : ev = MIdle \/ ev = MLifetime)
    (Hend : mux_step limits m now ev = Some (inl (r, m')))
    (Hg : entries (m_registry m) !! gid = Some e) (Ha : Xudp.status e = Active) :
  m_tasks m' = m_tasks m /\ entries (cleanup_expired (m_registry m') later) !! gid = Some e.
Proof.
  assert (m' = m) as ->.
  { destruct Hev as [-> | ->]; cbn [mux_step] in Hend; destruct (m_main m); try done; cbn in Hend;
      case_match; try done; by injection Hend. }
  split; [done|]. rewrite xudp_cleanup_lookup, Hg. unfold is_expired. by rewrite Ha.
Qed.

(** a finished reader removes whichever session has its id. When the id of a
    session was taken again before the old reader got to its removal, the removal
    deletes the new session: its upstream stays connected and its reader running,
    but the client's next frame for the id finds no session. *)
Theorem mux_stale_removal (limits : RelayLimits) (m : mux) (now t : Z) (tk : task) (s : MuxSession)
    (Ht : m_tasks m !! t = Some tk) (Hp : t_phase tk = Closing)
    (Hs : m_sessions m !! t_sid tk = Some s) (Hne : ms_task s <> t) :
  exists m', mux_step limits m now (TaskRemove t) = Some (inr m')
    /\ m_sessions m' !! t_sid tk = None /\ m_tasks m' !! ms_task s = m_tasks m !! ms_task s.
Proof.
  cbn [mux_step task_step]. rewrite Ht. cbn [mbind option_bind]. rewrite Hp. cbn [option_bind].
  eexists. split; [reflexivity|]. cbn. rewrite lookup_delete_eq, lookup_delete_ne by done. done.
Qed.

(** ** Witnesses *)

(** A connection with one TCP session (id 5) whose reader is in its read. *)
Definition new_frame (sid : Z) : MuxFrame :=
  {| meta := {| session_id := sid; MuxFrame.status := SESSION_STATUS_NEW; mux_option := 0;
                network := Some NETWORK_TCP; mux_target := Some (Domain "example.com" 443);
                global_id := None |};
     payload := None |}.

Definition demo_mux_env : mux_env :=
  {| e_net := demo_network; e_tcp := OutPlain (tcp_with_policy 10 false); e_allow_private := false;
     e_bind := inr 100; e_udp_connect := fun _ => Some (inr tt); e_write := None; e_now := 0 |}.

Definition demo_client : stream :=
  Stream (wire (new_frame 5) ++ wire (data_frame 5 None [7; 8]) ++ wire (data_frame 5 None [9])) false [] None.

Definition open_events : list (Z * mux_event) := [(1, MFrame); (1, MHandle demo_mux_env)].

Definition keep_events : list (Z * mux_event) :=
  [(2, MFrame); (2, MHandle demo_mux_env); (2, MForward None); (3, TaskLock 0);
   (4, TaskRead 0 (inr [65; 66])); (4, TaskWrite 0 (Some 3%nat)); (5, MFrame); (5, TaskWrite 0 None);
   (5, MHandle demo_mux_env)].

(** The state a run ends in. *)
Definition final (evs : list (Z * mux_event)) : mux :=
  match relay_vless_mux_with_limits demo_limits 0 demo_client manager_new evs with
  | Some (inr m) => m
  | _ => mux_start demo_limits 0 demo_client manager_new
  end.

Lemma demo_client_ok : bytes_ok (rx demo_client).
Proof. repeat (apply Forall_cons_2; [split; vm_compute; (reflexivity || discriminate)|]). apply Forall_nil_2. Qed.

Lemma demo_events_ok : Forall (fun p => ev_ok p.2) (open_events ++ keep_events).
Proof. repeat (apply Forall_cons_2; [exact I|]). apply Forall_nil_2. Qed.

Lemma mux_delivers_in_order_witness :
  to_up 0 (final (open_events ++ keep_events)) ++ waiting 0 (final (open_events ++ keep_events)) = [[7; 8]; [9]].
Proof.
  refine (mux_delivers_in_order demo_limits 0 demo_client manager_new open_events keep_events
    (final open_events) (final (open_events ++ keep_events)) 5 (Tcp 0 0) demo_client_ok demo_events_ok _ _ _).
  - vm_compute. reflexivity.
  - vm_compute. repeat split.
  - vm_compute. reflexivity.
Defined.


(** The client ends the session when three bytes of a frame have left. *)
Definition abort_client : stream :=
  Stream (wire (new_frame 5) ++ wire (end_frame 5)) false [] None.

Definition abort_events : list (Z * mux_event) :=
  open_events ++ [(2, TaskLock 0); (3, TaskRead 0 (inr [65; 66])); (4, TaskWrite 0 (Some 3%nat)); (5, MFrame)].

Definition aborting : mux :=
  match relay_vless_mux_with_limits demo_limits 0 abort_client manager_new abort_events with
  | Some (inr m) => m
  | _ => mux_start demo_limits 0 demo_client manager_new
  end.

Lemma mux_abort_truncates_witness :
  exists m' whole fs, mux_step demo_limits aborting 6 (MHandle demo_mux_env) = Some (inr m')
    /\ spells whole fs /\ tx (m_client m') = whole ++ take 3 (wire (data_frame 5 None [65; 66]))
    /\ m_tasks m' !! 0 = None /\ m_main m' = Select /\ writer_held m' = false.
Proof.
  refine (mux_abort_truncates demo_limits 0 6 abort_client manager_new abort_events aborting demo_mux_env
    (end_frame 5) (Tcp 0 0)
    {| t_sid := 5; t_pump := PumpTcp 0;
       t_phase := Sending (SendData None [65; 66]) (wire (data_frame 5 None [65; 66])) (Some 3%nat) |}
    (SendData None [65; 66]) (wire (data_frame 5 None [65; 66])) 3 _ eq_refl eq_refl _ _ _ _ _ _ _ _ _).
  - repeat (apply Forall_cons_2; [split; vm_compute; (reflexivity || discriminate)|]). apply Forall_nil_2.
  - repeat (apply Forall_cons_2; [exact I|]). apply Forall_nil_2.
  - vm_compute. reflexivity.
  - vm_compute. reflexivity.
  - vm_compute. reflexivity.
  - reflexivity.
  - reflexivity.
  - vm_compute. reflexivity.
  - vm_compute. reflexivity.
  - reflexivity.
Defined.

Lemma mux_counters_witness :
  m_c2u (final (open_events ++ keep_events)) = 2 /\ m_u2c (final (open_events ++ keep_events)) = 0.
Proof.
  exact (mux_counters demo_limits 0 demo_client manager_new (open_events ++ keep_events)
    (final (open_events ++ keep_events)) ltac:(vm_compute; reflexivity)).
Defined.

(** The reader locks the upstream before the client's first payload is there. *)
Definition stall_events : list (Z * mux_event) :=
  open_events ++ [(2, TaskLock 0); (3, MFrame); (3, MHandle demo_mux_env)].

Lemma mux_lock_stalls_witness :
  m_outbox (final (stall_events ++ [(900, MArrive [0; 4])])) = []
  /\ mux_step demo_limits (final (stall_events ++ [(900, MArrive [0; 4])])) 5000 MIdle = None.
Proof.
  destruct (mux_lock_stalls demo_limits (final stall_events) (final (stall_events ++ [(900, MArrive [0; 4])]))
    0 0 [7; 8] {| t_sid := 5; t_pump := PumpTcp 0; t_phase := Reading |} [(900, MArrive [0; 4])])
    as (H1 & _ & _ & H2).
  - vm_compute. reflexivity.
  - vm_compute. reflexivity.
  - split; [left; reflexivity|reflexivity].
  - apply Forall_cons_2; [exact I|apply Forall_nil_2].
  - vm_compute. reflexivity.
  - split; [exact H1|]. exact (proj1 (proj2 (H2 5000))).
Defined.

Definition ended_client : mux :=
  final (open_events ++ [(9, MFrame); (9, MHandle demo_mux_env); (9, MForward None); (9, MFrame);
                         (9, MHandle demo_mux_env); (9, MForward None); (9, MEof)]).

(** The state the relay leaves when a step ends it. *)
Definition left_by (m : mux) (now : Z) (ev : mux_event) : mux :=
  match mux_step demo_limits m now ev with
  | Some (inl (_, m)) => m
  | _ => m
  end.

Lemma mux_clean_end_releases_witness :
  m_sessions (left_by ended_client 10 MFrame) = ∅ /\ m_xudp (left_by ended_client 10 MFrame) = None.
Proof.
  destruct (mux_clean_end_releases demo_limits ended_client (left_by ended_client 10 MFrame) 10 (3, 0))
    as (_ & H1 & H2 & _).
  - vm_compute. reflexivity.
  - split; [exact H1|exact H2].
Defined.

(** A connection with an XUDP cone for a GlobalID. *)
Definition xudp_frame : MuxFrame :=
  {| meta := {| session_id := XUDP_SESSION_ID; MuxFrame.status := SESSION_STATUS_NEW;
                mux_option := OPTION_DATA; network := Some NETWORK_UDP;
                mux_target := Some (Domain "example.com" 443); global_id := Some [1; 2; 3; 4; 5; 6; 7; 8] |};
     payload := Some [42] |}.

Definition xudp_mux : mux :=
  match relay_vless_mux_with_limits demo_limits 0 (Stream (wire xudp_frame) false [] None) manager_new open_events with
  | Some (inr m) => m
  | _ => mux_start demo_limits 0 demo_client manager_new
  end.

Lemma mux_timeout_leaks_witness :
  entries (cleanup_expired (m_registry (left_by xudp_mux 31 MIdle)) 1000000000000) !! [1; 2; 3; 4; 5; 6; 7; 8]
  = Some {| socket := 100; Xudp.status := Active; expire_at := None; reader_abort := Some 0 |}.
Proof.
  refine (proj2 (mux_timeout_leaks demo_limits xudp_mux (left_by xudp_mux 31 MIdle) 31 1000000000000 MIdle
    (Err (IoError TimedOut IDLE_TIMEOUT_MSG)) [1; 2; 3; 4; 5; 6; 7; 8] _ _ _ _ _)).
  - left. reflexivity.
  - vm_compute. reflexivity.
  - vm_compute. reflexivity.
  - reflexivity.
Defined.

(** The id 5 is opened again while its first reader is about to remove it. *)
Definition reopen_events : list (Z * mux_event) :=
  open_events ++ [(2, TaskLock 0); (3, TaskRead 0 (inr [])); (3, TaskWrite 0 None);
                  (4, MArrive (wire (new_frame 5)))].

Definition reopen_client : stream := Stream (wire (new_frame 5)) false [] None.

Definition reopened : mux :=
  match relay_vless_mux_with_limits demo_limits 0 reopen_client manager_new
          (reopen_events ++ [(5, MFrame); (5, MHandle demo_mux_env)]) with
  | Some (inr m) => m
  | _ => mux_start demo_limits 0 demo_client manager_new
  end.

Lemma mux_stale_removal_witness :
  exists m', mux_step demo_limits reopened 6 (TaskRemove 0) = Some (inr m')
    /\ m_sessions m' !! 5 = None /\ m_tasks m' !! 1 = m_tasks reopened !! 1.
Proof.
  refine (mux_stale_removal demo_limits reopened 6 0
    {| t_sid := 5; t_pump := PumpTcp 0; t_phase := Closing |} (Tcp 1 1) _ _ _ _).
  - vm_compute. reflexivity.
  - reflexivity.
  - vm_compute. reflexivity.
  - discriminate.
Defined.
