(* ===== verification/Socks5Relay.v ===== *)
(** * SOCKS5 BIND and UDP ASSOCIATE
    Models crates/skadi-server/src/socks5_relay.rs. BIND is a computation on the
    client's stream with the outcomes of the listener and of the relay as inputs.
    UDP ASSOCIATE is its [select!] loop as a step function: an event is a deadline,
    a read on the control connection, or a datagram with what the system answered
    while it was handled. Instants are nanoseconds; adding a duration to an instant
    panics on overflow, as in the standard library. *)

From Stdlib Require Import Ascii String.
From stdpp Require Import base numbers list_numbers strings pretty list.
From S2P Require Import Prelude Core Io Outbound Socks5Parse Socks5 AuthRate Relay Udp.

Definition MAX_UDP_PAYLOAD : Z := 65507.

(** ** Instants *)

(** The last instant: 64-bit signed seconds. *)
Definition INSTANT_MAX : Z := (2 ^ 63 - 1) * NANOS + 999999999.

(** [Instant + Duration]. *)
Definition instant_add {E} (now d : Z) : res E Z :=
  if now + d <=? INSTANT_MAX then Ok (now + d) else Panic.

(** [tokio::time::sleep]: thirty years when the deadline is not an instant. *)
Definition sleep_deadline (now d : Z) : Z :=
  if now + d <=? INSTANT_MAX then now + d else now + 86400 * 365 * 30 * NANOS.

(** ** BIND *)

Record bind_env := {
  (** [TcpListener::bind] with [local_addr] *)
  be_listen : io_error + (io_error + SocketAddr);
  (** [listener.accept()] under the timeout; [None]: it expired *)
  be_accept : option (io_error + SocketAddr);
  (** [copy_bidirectional_with_limits] *)
  be_relay : option ((res io_error (Z * Z)) + Relay.state)
}.

Definition deadline_elapsed : anyhow := bail "deadline has elapsed".

Definition handle_socks5_bind (env : bind_env) : io anyhow unit :=
  match be_listen env with
  | inl e => fail (add_context "SOCKS5 BIND listen failed" (anyhow_of_io e))
  | inr (inl e) => fail (anyhow_of_io e)
  | inr (inr bound) =>
    _ ← send_reply REP_SUCCEEDED bound;
    match be_accept env with
    | None => fail (add_context "SOCKS5 BIND accept timeout" deadline_elapsed)
    | Some (inl e) => fail (add_context "SOCKS5 BIND accept failed" (anyhow_of_io e))
    | Some (inr remote_addr) =>
      _ ← send_reply REP_SUCCEEDED remote_addr;
      match be_relay env with
      | Some (inl (Ok _)) => mret tt
      | Some (inl (Err e)) => fail (add_context "SOCKS5 BIND relay" (anyhow_of_io e))
      | Some (inl Panic) => fun s => (Crash, s)
      | _ => fun s => (Pending, s)
      end
    end
  end.

(** ** UDP ASSOCIATE *)

(** What the system answers while one datagram is handled. *)
Record assoc_env := {
  ae_lookup_host : string -> io_error + list SocketAddr;
  ae_bind : io_error + unit;
  ae_connect : SocketAddr -> option (io_error + unit);
  ae_send : option io_error;
  (** [upstream.recv] under the five seconds; [None]: they expired *)
  ae_reply : option (io_error + bytes);
  (** [relay.send_to] *)
  ae_send_to : option io_error
}.

Inductive assoc_event :=
| ALifetime
| AIdle
(** a read on the control connection: bytes or an error *)
| AControl (r : io_error + Z)
(** a datagram on the relay socket *)
| ADatagram (r : io_error + (bytes * SocketAddr)) (env : assoc_env).

Record assoc := {
  a_idle_deadline : Z;
  a_lifetime_deadline : Z;
  (** datagrams sent to upstreams, and packets sent back to clients *)
  a_upstream : list (SocketAddr * bytes);
  a_replies : list (SocketAddr * bytes)
}.

Definition idle_of (limits : RelayLimits) : Z := default DURATION_MAX (idle limits).
Definition lifetime_of (limits : RelayLimits) : Z := default DURATION_MAX (max_lifetime limits).

Definition assoc_start (limits : RelayLimits) (now : Z) : assoc :=
  {| a_idle_deadline := sleep_deadline now (idle_of limits);
     a_lifetime_deadline := sleep_deadline now (lifetime_of limits);
     a_upstream := []; a_replies := [] |}.

Definition set_idle (st : assoc) (d : Z) : assoc :=
  {| a_idle_deadline := d; a_lifetime_deadline := a_lifetime_deadline st;
     a_upstream := a_upstream st; a_replies := a_replies st |}.

Definition add_upstream (st : assoc) (addr : SocketAddr) (p : bytes) : assoc :=
  {| a_idle_deadline := a_idle_deadline st; a_lifetime_deadline := a_lifetime_deadline st;
     a_upstream := a_upstream st ++ [(addr, p)]; a_replies := a_replies st |}.

Definition add_reply (st : assoc) (addr : SocketAddr) (p : bytes) : assoc :=
  {| a_idle_deadline := a_idle_deadline st; a_lifetime_deadline := a_lifetime_deadline st;
     a_upstream := a_upstream st; a_replies := a_replies st ++ [(addr, p)] |}.

(** The body of the [recv] branch after the idle deadline is reset; [continue]
    is the unchanged state. *)
Definition relay_datagram (allow_private : bool) (env : assoc_env) (st : assoc) (data : bytes)
    (client_addr : SocketAddr) : res anyhow assoc :=
  if (length data <? 4)%nat then Ok st else
  match parse_udp_datagram data with
  | Panic => Panic
  | Err _ => Ok st
  | Ok (target, header_len) =>
    payload ← slice data header_len (length data);
    if bool_decide (payload = []) then Ok st else
    match udp_connect (ae_lookup_host env) (ae_bind env) (ae_connect env) allow_private target with
    | Panic => Panic
    | Err _ => Ok st
    | Ok addr =>
      match ae_send env with
      | Some _ => Ok st
      | None =>
        let st := add_upstream st addr payload in
        match ae_reply env with
        | Some (inr resp) =>
          if (0 <? length resp)%nat then
            let packet := encode_udp_datagram target resp in
            match ae_send_to env with
            | None => Ok (add_reply st client_addr packet)
            | Some _ => Ok st
            end
          else Ok st
        | _ => Ok st
        end
      end
    end
  end.

Definition assoc_step (limits : RelayLimits) (allow_private : bool) (st : assoc) (now : Z) (ev : assoc_event)
    : option (res anyhow unit + assoc) :=
  match ev with
  | ALifetime => if a_lifetime_deadline st <=? now then Some (inl (Ok tt)) else None
  | AIdle => if a_idle_deadline st <=? now then Some (inl (Ok tt)) else None
  | AControl (inl _) => Some (inl (Ok tt))
  | AControl (inr n) =>
    if n =? 0 then Some (inl (Ok tt)) else
    match instant_add now (idle_of limits) with
    | Ok d => Some (inr (set_idle st d))
    | Err e => Some (inl (Err e))
    | Panic => Some (inl Panic)
    end
  | ADatagram (inl e) _ => Some (inl (Err (add_context "SOCKS5 UDP recv" (anyhow_of_io e))))
  | ADatagram (inr (data, client_addr)) env =>
    if MAX_UDP_PAYLOAD + 512 <? Z.of_nat (length data) then None else
    match d ← instant_add now (idle_of limits);
          relay_datagram allow_private env (set_idle st d) data client_addr with
    | Ok st => Some (inr st)
    | Err e => Some (inl (Err e))
    | Panic => Some (inl Panic)
    end
  end.

Fixpoint assoc_loop (limits : RelayLimits) (allow_private : bool) (st : assoc) (evs : list (Z * assoc_event))
    : option (res anyhow unit + assoc) :=
  match evs with
  | [] => Some (inr st)
  | (now, ev) :: evs =>
    match assoc_step limits allow_private st now ev with
    | Some (inr st) => assoc_loop limits allow_private st evs
    | r => r
    end
  end.

(** [UdpSocket::bind] with [local_addr], the reply on the control connection, and
    the loop. *)
Definition handle_socks5_udp_associate (bind : io_error + (io_error + SocketAddr)) (limits : RelayLimits)
    (allow_private : bool) (start : Z) (evs : list (Z * assoc_event)) : io anyhow unit :=
  match bind with
  | inl e => fail (add_context "SOCKS5 UDP relay bind failed" (anyhow_of_io e))
  | inr (inl e) => fail (anyhow_of_io e)
  | inr (inr relay_addr) =>
    _ ← send_reply REP_SUCCEEDED relay_addr;
    match assoc_loop limits allow_private (assoc_start limits start) evs with
    | Some (inl (Ok _)) => mret tt
    | Some (inl (Err e)) => fail e
    | Some (inl Panic) => fun s => (Crash, s)
    | _ => fun s => (Pending, s)
    end
  end.

(** ** Lemmas *)

Lemma parse_udp_sound data e n :
  bytes_ok data -> parse_udp_datagram data = Ok (e, n) ->
  endpoint_ok e /\ n = (3 + length (wire_target e))%nat
  /\ exists payload, data = [0; 0; 0] ++ wire_target e ++ payload.
Proof.
  intros Hb H. do 4 (destruct data as [|? data]; [discriminate H|]).
  unfold parse_udp_datagram in H. cbn [length Nat.ltb Nat.leb] in H.
  cbn [idx lookup list_lookup mbind res_bind] in H.
  repeat match type of H with (if ?c then _ else _) = _ =>
    let E := fresh "E" in destruct c eqn:E; [discriminate H|] end.
  destruct (parse_target _ _ 4) as [[e' k]| |] eqn:Ht; try discriminate H.
  cbn [mbind res_bind] in H. injection H as <- <-.
  inv_bytes_ok. apply parse_target_sound in Ht as (He & -> & rest & Hw); [|by apply bytes_ok_cons].
  bool_hyps. split_and!; [done|done|]. exists rest. rewrite <- Hw. subst. done.
Qed.

Lemma udp_connect_no_panic lookup bind connect allow ep : udp_connect lookup bind connect allow ep <> Panic.
Proof.
  unfold udp_connect. destruct bind; [done|]. unfold resolve_endpoint.
  pose proof (resolve_endpoint_addrs_no_panic lookup ep allow) as Hn.
  destruct (resolve_endpoint_addrs lookup ep allow) as [addrs| |] eqn:Hr; cbn; try done.
  apply resolve_endpoint_addrs_ok in Hr as [Hne _]. destruct addrs as [|a l]; [done|]. cbn.
  destruct (connect _) as [[]|]; done.
Qed.

Lemma udp_connect_allowed lookup bind connect ep addr :
  udp_connect lookup bind connect false ep = Ok addr -> is_forbidden_ip (sock_ip addr) = false.
Proof.
  unfold udp_connect. destruct bind; [done|]. unfold resolve_endpoint.
  destruct (resolve_endpoint_addrs lookup ep false) as [addrs| |] eqn:Hr; cbn [mbind res_bind]; try done.
  destruct (prefer_ipv4 addrs) as [a| |] eqn:Hp; cbn [mbind res_bind]; try done.
  intros H. assert (a = addr) as ->.
  { destruct (connect a) as [[]|]; try done. by injection H. }
  apply resolve_endpoint_addrs_ok in Hr as [_ Ha]. apply prefer_ipv4_elem in Hp.
  specialize (Ha eq_refl). rewrite Forall_forall in Ha. by apply Ha.
Qed.

(** What handling one datagram does, on every path. *)
Inductive datagram_effect (allow_private : bool) (data : bytes) (c : SocketAddr) (st : assoc) : assoc -> Prop :=
(** it is dropped, *)
| effect_dropped : datagram_effect allow_private data c st st
(** or its payload goes to the resolved target, and the answer, if there is one,
    comes back to its sender in the same encapsulation *)
| effect_sent target payload addr :
    endpoint_ok target -> data = [0; 0; 0] ++ wire_target target ++ payload -> payload <> [] ->
    (allow_private = false -> is_forbidden_ip (sock_ip addr) = false) ->
    datagram_effect allow_private data c st (add_upstream st addr payload)
| effect_answered target payload addr resp :
    endpoint_ok target -> data = [0; 0; 0] ++ wire_target target ++ payload -> payload <> [] ->
    (allow_private = false -> is_forbidden_ip (sock_ip addr) = false) ->
    resp <> [] ->
    datagram_effect allow_private data c st
      (add_reply (add_upstream st addr payload) c ([0; 0; 0] ++ wire_target target ++ resp)).

Lemma relay_datagram_effect allow_private env st data c :
  bytes_ok data ->
  exists st', relay_datagram allow_private env st data c = Ok st' /\ datagram_effect allow_private data c st st'.
Proof.
  intros Hb. unfold relay_datagram. destruct (length data <? 4)%nat; [eexists; by split; [|constructor]|].
  pose proof (parse_udp_datagram_no_panic data) as Hn.
  destruct (parse_udp_datagram data) as [[target n]| |] eqn:Hp; [|eexists; by split; [|constructor]|done].
  apply parse_udp_sound in Hp as (He & -> & payload & ->); [|done].
  assert (Hs : @slice anyhow ([0; 0; 0] ++ wire_target target ++ payload) (3 + length (wire_target target))
    (length ([0; 0; 0] ++ wire_target target ++ payload)) = Ok payload).
  { pose proof (@slice_app_mid anyhow ([0; 0; 0] ++ wire_target target) payload []) as H.
    rewrite app_nil_r, <- app_assoc in H. apply H; rewrite !length_app; cbn; lia. }
  rewrite Hs. cbn [mbind res_bind]. case_bool_decide as Hpl; [eexists; by split; [|constructor]|].
  pose proof (udp_connect_no_panic (ae_lookup_host env) (ae_bind env) (ae_connect env) allow_private target) as Hc.
  destruct (udp_connect _ _ _ _ _) as [addr| |] eqn:Hu; [|eexists; by split; [|constructor]|done].
  assert (Ha : allow_private = false -> is_forbidden_ip (sock_ip addr) = false).
  { intros ->. by eapply udp_connect_allowed. }
  destruct (ae_send env); [eexists; by split; [|constructor]|].
  assert (Hsent : datagram_effect allow_private ([0; 0; 0] ++ wire_target target ++ payload) c st
    (add_upstream st addr payload)) by by eapply effect_sent.
  destruct (ae_reply env) as [[e|resp]|]; [eauto..|]; [|eauto].
  destruct (0 <? length resp)%nat eqn:El; bool_hyps; [|eauto].
  destruct (ae_send_to env); [eauto|]. eexists. split; [reflexivity|].
  rewrite encode_udp_wire by done. eapply effect_answered; try done. intros ->. cbn in El. lia.
Qed.

(** ** Properties *)

(** UDP ASSOCIATE relays datagrams faithfully. With an idle timeout configured
    (and the clock far from the end of time), a datagram never ends or crashes the
    association: it is dropped, or its payload is sent to the target its header
    names, never to a forbidden address, and the answer is sent back to the sender
    in an encapsulation that names the target and carries the answer unchanged. *)
Theorem socks5_udp_relays (limits : RelayLimits) (allow_private : bool) (st : assoc) (now i : Z)
    (data : bytes) (c : SocketAddr) (env : assoc_env)
    (Hi : idle limits = Some i) (Hnow : now + i <= INSTANT_MAX) (Hb : bytes_ok data)
    (Hl : Z.of_nat (length data) <= MAX_UDP_PAYLOAD + 512) :
  exists st', assoc_step limits allow_private st now (ADatagram (inr (data, c)) env) = Some (inr st')
    /\ datagram_effect allow_private data c (set_idle st (now + i)) st'
    /\ a_idle_deadline st' = now + i.
Proof.
  cbn [assoc_step]. destruct (_ <? _) eqn:E; bool_hyps; [lia|].
  unfold instant_add, idle_of. rewrite Hi. cbn [default id]. rewrite (proj2 (Z.leb_le _ _)) by done.
  cbn [mbind res_bind].
  destruct (relay_datagram_effect allow_private env (set_idle st (now + i)) data c Hb) as (st' & -> & He).
  exists st'. split; [done|]. split; [done|]. by destruct He.
Qed.

Definition demo_assoc_env : assoc_env :=
  {| ae_lookup_host := demo_resolver; ae_bind := inr tt; ae_connect := fun _ => Some (inr tt);
     ae_send := None; ae_reply := Some (inr [9; 9]); ae_send_to := None |}.

Definition demo_peer : SocketAddr := SockV4 (Ipv4 198 51 100 7) 4000.

Lemma socks5_udp_relays_witness :
  exists st', assoc_step demo_limits false (assoc_start demo_limits 0) 5
      (ADatagram (inr (encode_udp_datagram (Domain "example.com" 443) [1; 2], demo_peer)) demo_assoc_env)
    = Some (inr st') /\ a_idle_deadline st' = 35
    /\ a_replies st' = [(demo_peer, encode_udp_datagram (Domain "example.com" 443) [9; 9])].
Proof.
  destruct (socks5_udp_relays demo_limits false (assoc_start demo_limits 0) 5 30
    (encode_udp_datagram (Domain "example.com" 443) [1; 2]) demo_peer demo_assoc_env) as (st' & H1 & _ & H3).
  - reflexivity.
  - vm_compute. discriminate.
  - solve_bytes_ok.
  - vm_compute. discriminate.
  - exists st'. split; [exact H1|]. split; [exact H3|].
    assert (He : Some (inr st') = assoc_step demo_limits false (assoc_start demo_limits 0) 5
      (ADatagram (inr (encode_udp_datagram (Domain "example.com" 443) [1; 2], demo_peer)) demo_assoc_env))
      by (symmetry; exact H1).
    vm_compute in He. injection He as ->. reflexivity.
Defined.

(** without an idle timeout, UDP ASSOCIATE dies at the first datagram. The idle
    period is then the longest duration, and resetting the deadline to now plus that
    duration overflows the clock: any datagram at all, like any byte on the control
    connection, panics the task. *)
Theorem socks5_udp_panics_without_idle (limits : RelayLimits) (allow_private : bool) (st : assoc) (now : Z)
    (Hi : idle limits = None) (Hnow : 0 <= now) :
  (forall data c env, Z.of_nat (length data) <= MAX_UDP_PAYLOAD + 512 ->
     assoc_step limits allow_private st now (ADatagram (inr (data, c)) env) = Some (inl Panic))
  /\ (forall n, 0 < n -> assoc_step limits allow_private st now (AControl (inr n)) = Some (inl Panic)).
Proof.
  assert (Hp : forall E, @instant_add E now (idle_of limits) = Panic).
  { intros E. unfold instant_add, idle_of. rewrite Hi. cbn [default].
    rewrite (proj2 (Z.leb_gt _ _)); [done|]. unfold INSTANT_MAX, DURATION_MAX, NANOS. lia. }
  split.
  - intros data c env Hl. cbn [assoc_step]. destruct (_ <? _) eqn:E; bool_hyps; [lia|]. by rewrite Hp.
  - intros n Hn. cbn [assoc_step]. rewrite (proj2 (Z.eqb_neq _ _)) by lia. by rewrite Hp.
Qed.

Lemma socks5_udp_panics_without_idle_witness :
  assoc_step {| idle := None; max_lifetime := None |} false
    (assoc_start {| idle := None; max_lifetime := None |} 0) 1
    (ADatagram (inr (encode_udp_datagram (Domain "example.com" 443) [1], demo_peer)) demo_assoc_env)
  = Some (inl Panic).
Proof.
  apply (socks5_udp_panics_without_idle {| idle := None; max_lifetime := None |} false
    (assoc_start {| idle := None; max_lifetime := None |} 0) 1 eq_refl).
  - lia.
  - vm_compute. discriminate.
Defined.

(** BIND sends the two replies of RFC 1928. When it succeeds, the client has
    been sent a success reply with the listening address and then one with the
    address of the peer that connected, and the relay has ended without error; when
    no peer connects in time or accepting fails, only the first has been sent. *)
Theorem socks5_bind_replies (env : bind_env) (s s' : stream) (r : outcome anyhow unit)
    (Hq : tx_quota s = None) (Hrun : handle_socks5_bind env s = (r, s')) :
  (forall u, r = Done u -> exists bound remote n,
     be_listen env = inr (inr bound) /\ be_accept env = Some (inr remote)
     /\ be_relay env = Some (inl (Ok n))
     /\ tx s' = tx s ++ reply_bytes REP_SUCCEEDED bound ++ reply_bytes REP_SUCCEEDED remote)
  /\ (forall bound, be_listen env = inr (inr bound) ->
        match be_accept env with
        | Some (inr _) => True
        | _ => tx s' = tx s ++ reply_bytes REP_SUCCEEDED bound /\ exists e, r = Fail e
        end)
  /\ rx s' = rx s.
Proof.
  revert Hrun. unfold handle_socks5_bind, send_reply.
  destruct (be_listen env) as [e|[e|bound]]; [intros [= <- <-]; naive_solver..|].
  unfold mbind at 1, io_bind at 1. rewrite hwrite_run by done.
  destruct (be_accept env) as [[e|remote]|]; [intros [= <- <-]; naive_solver| |intros [= <- <-]; naive_solver].
  unfold mbind, io_bind. rewrite hwrite_run by done.
  destruct (be_relay env) as [[[n|e|]|st]|]; intros [= <- <-]; cbn; rewrite <- ?app_assoc; naive_solver.
Qed.

Definition demo_bind_env : bind_env :=
  {| be_listen := inr (inr (SockV4 (Ipv4 0 0 0 0) 5000)); be_accept := Some (inr demo_peer);
     be_relay := Some (inl (Ok (3, 4))) |}.

Lemma socks5_bind_replies_witness :
  tx (handle_socks5_bind demo_bind_env (Stream [] false [] None)).2
  = [5; 0; 0; 1; 0; 0; 0; 0; 19; 136] ++ [5; 0; 0; 1; 198; 51; 100; 7; 15; 160].
Proof.
  destruct (socks5_bind_replies demo_bind_env (Stream [] false [] None)
    (handle_socks5_bind demo_bind_env (Stream [] false [] None)).2 (Done tt)) as (H & _ & _).
  - reflexivity.
  - vm_compute. reflexivity.
  - destruct (H tt eq_refl) as (b & r & n & Hb & Hr & _ & Ht). rewrite Ht.
    injection Hb as <-. injection Hr as <-. vm_compute. reflexivity.
Defined.
