(* ===== verification/Server.v ===== *)
(** * Connection handling
    Models crates/skadi-server/src/lib.rs from the accept loop to the end of a
    connection, and the metrics of observability/metrics.rs as a log. The
    handshakes, the outbound policy and dialers, the relays and the failed
    authentication limiter are the components modelled in the other files, composed
    the way [handle_connection] composes them; a relay is given by the events it
    observes, and what it returns is its model's result. *)

From Stdlib Require Import Ascii String.
From stdpp Require Import base numbers list_numbers strings pretty gmap fin_maps list.
From S2P Require Import Prelude Core Io Outbound Connect Socks5Parse Socks5 VlessParse VlessConfig Vless.
From S2P Require Import Inbound AuthRate Store Xudp Relay Udp MuxRelay Socks5Relay.

(** ** Metrics *)

Inductive metric :=
| ConnectionOpened (protocol : string)
| ConnectionClosed (protocol : string) (up down : Z)
| ConnectionFailed (protocol : string)
| ConnectionRejected
| AuthFailure (protocol : string)
| AuthBlocked.

(** The gauge [skadicore_active_connections]. *)
Definition gauge_step (m : metric) : Z :=
  match m with
  | ConnectionOpened _ => 1
  | ConnectionClosed _ _ _ => -1
  | ConnectionFailed _ => -1
  | _ => 0
  end.

Fixpoint gauge (ms : list metric) : Z :=
  match ms with
  | [] => 0
  | m :: ms => gauge_step m + gauge ms
  end.

(** ** Connections *)

(** The client's stream, what the connection reported, and the shared limiter. *)
Record conn := {
  c_stream : stream;
  c_metrics : list metric;
  c_limiter : option (LimiterInner * states_mutex)
}.

Definition with_stream (c : conn) (s : stream) : conn :=
  {| c_stream := s; c_metrics := c_metrics c; c_limiter := c_limiter c |}.
Definition report (m : metric) (c : conn) : conn :=
  {| c_stream := c_stream c; c_metrics := c_metrics c ++ [m]; c_limiter := c_limiter c |}.
Definition with_limiter (c : conn) (l : option (LimiterInner * states_mutex)) : conn :=
  {| c_stream := c_stream c; c_metrics := c_metrics c; c_limiter := l |}.

Definition conn_io (A : Type) : Type := conn -> outcome anyhow A * conn.

#[export] Instance conn_ret : MRet conn_io := fun A a c => (Done a, c).
#[export] Instance conn_bind : MBind conn_io := fun A B f m c =>
  match m c with
  | (Done a, c) => f a c
  | (Fail e, c) => (Fail e, c)
  | (Crash, c) => (Crash, c)
  | (Pending, c) => (Pending, c)
  end.

Definition cfail {A} (e : anyhow) : conn_io A := fun c => (Fail e, c).
Definition ccrash {A} : conn_io A := fun c => (Crash, c).
Definition on_stream {A} (m : io anyhow A) : conn_io A := fun c =>
  let '(r, s) := m (c_stream c) in (r, with_stream c s).
Definition update (f : conn -> conn) : conn_io unit := fun c => (Done tt, f c).

(** A relay that ended, with its result; otherwise the connection is still open. *)
Definition await_relay {X} (o : option ((res io_error (Z * Z)) + X)) : conn_io (res io_error (Z * Z)) := fun c =>
  match o with
  | Some (inl Panic) => (Crash, c)
  | Some (inl r) => (Done r, c)
  | _ => (Pending, c)
  end.

(** [relay.map(|_| (0, 0)).map_err(std::io::Error::other)]. *)
Definition as_io_result (m : io anyhow unit) : conn_io (res io_error (Z * Z)) := fun c =>
  let '(r, s) := m (c_stream c) in
  match r with
  | Done _ => (Done (Ok (0, 0)), with_stream c s)
  | Fail e => (Done (Err (IoError OtherKind (anyhow_to_string e))), with_stream c s)
  | Crash => (Crash, with_stream c s)
  | Pending => (Pending, with_stream c s)
  end.

(** ** Helpers of lib.rs *)

Definition vless_metric_label (protocol : Protocol) (vless_command : Z) : string :=
  if bool_decide (protocol = Core.Socks5) then metric_label protocol
  else if vless_command =? CMD_UDP then "vless-udp"
  else if vless_command =? CMD_MUX then "vless-mux"
  else metric_label protocol.

Definition classify_connect_error (e : anyhow) : Z :=
  let msg := anyhow_to_string e in
  if str_contains "forbidden destination" msg then REP_NOT_ALLOWED
  else if str_contains "refused" msg then REP_CONNECTION_REFUSED
  else if str_contains "unreachable" msg || str_contains "timeout" msg then REP_HOST_UNREACHABLE
  else REP_GENERAL_FAILURE.

(** The limiter's lock may be poisoned, or get poisoned: both are panics. *)
Definition record_auth_failure (ip : IpAddr) (now : Z) (protocol : string) : conn_io unit := fun c =>
  match c_limiter c with
  | Some (lim, mutex) =>
    match mutex ≫= fun guard => record_failure lim guard ip now with
    | Some guard => (Done tt, report (AuthFailure protocol) (with_limiter c (Some (lim, Some guard))))
    | None => (Crash, with_limiter c (Some (lim, None)))
    end
  | None => (Done tt, report (AuthFailure protocol) c)
  end.

Definition finish_relay (protocol_label : string) (relay : res io_error (Z * Z)) : conn_io unit :=
  match relay with
  | Ok (up, down) => update (report (ConnectionClosed protocol_label up down))
  | Err e =>
    if bool_decide (io_kind e = TimedOut) && bool_decide (io_msg e = IDLE_TIMEOUT_MSG) then
      update (report (ConnectionClosed protocol_label 0 0))
    else if bool_decide (io_kind e = TimedOut) && bool_decide (io_msg e = SESSION_LIFETIME_MSG) then
      update (report (ConnectionClosed protocol_label 0 0))
    else
      _ ← update (report (ConnectionFailed protocol_label));
      cfail (anyhow_of_io e)
  | Panic => ccrash
  end.

(** ** A connection *)

(** What the system and the peers do during the connection. *)
Record conn_env := {
  ce_net : Net;
  ce_tcp : OutboundTcpTransport;
  ce_local_addr : Z -> io_error + SocketAddr;
  ce_allow_private : bool;
  ce_limits : RelayLimits;
  (** when the handshake ended, and when the relay starts *)
  ce_now : Z;
  ce_bind : bind_env;
  ce_assoc_bind : io_error + (io_error + SocketAddr);
  ce_assoc : list (Z * assoc_event);
  ce_registry : XudpManager;
  ce_mux : list (Z * mux_event);
  ce_udp_bind : io_error + unit;
  ce_udp_connect : SocketAddr -> option (io_error + unit);
  ce_udp : list (Z * udp_event);
  (** tokio's unlimited copy, and what the relay between the two streams observes *)
  ce_copy : list (Z * Relay.event) -> option ((res io_error (Z * Z)) + Relay.state);
  ce_relay : list (Z * Relay.event)
}.

(** The result of the mux relay without the state it leaves. *)
Definition mux_result (o : option (returned + mux)) : option ((res io_error (Z * Z)) + mux) :=
  match o with
  | Some (inl (r, _)) => Some (inl r)
  | Some (inr m) => Some (inr m)
  | None => None
  end.

(** From the validation of the target to the end of the connection. *)
Definition serve_target (env : conn_env) (protocol : Protocol) (command : Z) (target : Endpoint) : conn_io unit :=
  match validate_outbound_literal target (ce_allow_private env) with
  | Panic => ccrash
  | Err err =>
    _ ← (if bool_decide (protocol = Core.Socks5) then on_stream (ignore (send_error REP_NOT_ALLOWED))
         else mret tt);
    cfail (core_err err)
  | Ok _ =>
    let protocol_label := vless_metric_label protocol command in
    _ ← update (report (ConnectionOpened protocol_label));
    if bool_decide (protocol = Core.Vless) && (command =? CMD_MUX) then
      relay ← (fun c => await_relay (mux_result (relay_vless_mux_with_limits (ce_limits env) (ce_now env)
                           (c_stream c) (ce_registry env) (ce_mux env))) c);
      finish_relay protocol_label relay
    else if bool_decide (protocol = Core.Vless) && (command =? CMD_UDP) then
      match udp_connect (lookup_host (ce_net env)) (ce_udp_bind env) (ce_udp_connect env)
              (ce_allow_private env) target with
      | Panic => ccrash
      | Err e =>
        _ ← update (report (ConnectionFailed protocol_label));
        cfail e
      | Ok _ =>
        relay ← (fun c => await_relay (relay_vless_udp_with_limits (ce_limits env) (ce_now env)
                             (c_stream c) (ce_udp env)) c);
        finish_relay protocol_label relay
      end
    else
      match (OutboundTcp_connect (ce_net env) (ce_tcp env) target).1 with
      | Panic => ccrash
      | Err e =>
        _ ← (if bool_decide (protocol = Core.Socks5)
             then on_stream (ignore (send_error (classify_connect_error e))) else mret tt);
        _ ← update (report (ConnectionFailed protocol_label));
        cfail e
      | Ok upstream =>
        _ ← (if bool_decide (protocol = Core.Socks5) then
               let bound := match local_addr (ce_local_addr env) upstream with
                            | inr a => a
                            | inl _ => dummy_bound
                            end in
               on_stream (send_reply REP_SUCCEEDED bound)
             else mret tt);
        relay ← await_relay (copy_bidirectional_with_limits (ce_copy env) (ce_limits env) (ce_now env)
                               (ce_relay env));
        finish_relay protocol_label relay
      end
  end.

(** BIND and UDP ASSOCIATE branch off before the target is looked at. *)
Definition serve_request (env : conn_env) (protocol : Protocol) (inbound : InboundRequest) : conn_io unit :=
  let command := ir_command inbound in
  let target := ir_target inbound in
  if bool_decide (protocol = Core.Socks5) && (command =? CMD_BIND) then
    _ ← update (report (ConnectionOpened "socks5-bind"));
    relay ← as_io_result (handle_socks5_bind (ce_bind env));
    finish_relay "socks5-bind" relay
  else if bool_decide (protocol = Core.Socks5) && (command =? CMD_UDP_ASSOCIATE) then
    _ ← update (report (ConnectionOpened "socks5-udp"));
    relay ← as_io_result (handle_socks5_udp_associate (ce_assoc_bind env) (ce_limits env)
                            (ce_allow_private env) (ce_now env) (ce_assoc env));
    finish_relay "socks5-udp" relay
  else serve_target env protocol command target.

Section Handle.
Context `{ConstantTimeEq}.

(** The handshake, with the failed authentication counted against the peer. *)
Definition handshake_or_record (env : conn_env) (store : StoreState) (peer : SocketAddr) (protocol : Protocol)
    : conn_io InboundRequest := fun c =>
  let '(r, s) := handshake_inbound protocol (socks5_config store) (vless_config store) (c_stream c) in
  let c := with_stream c s in
  match r with
  | Done req => (Done req, c)
  | Fail e =>
    if is_auth_failure e then
      (_ ← record_auth_failure (sock_ip peer) (ce_now env) (metric_label protocol); cfail e) c
    else (Fail e, c)
  | Crash => (Crash, c)
  | Pending => (Pending, c)
  end.

(** Sniffing: the first byte, given back through [PrefixedStream]. *)
Definition sniff (enabled : EnabledProtocols) : conn_io (option Z) :=
  if needs_sniffing enabled then
    first ← on_stream (with_context "failed to read protocol byte" (read_exact 1));
    b ← on_stream (of_res (idx first 0));
    mret (Some b)
  else mret None.

Definition prefixed (prefix_byte : option Z) (c : conn) : conn :=
  with_stream c (with_rx (pending_bytes (prefixed_new (c_stream c) prefix_byte)) (c_stream c)).

Definition select_protocol (enabled : EnabledProtocols) (prefix_byte : option Z) : conn_io Protocol :=
  if needs_sniffing enabled then
    match prefix_byte with
    | Some byte => on_stream (of_res (map_err core_err (detect enabled byte)))
    | None => ccrash
    end
  else
    match sole enabled with
    | Some p => mret p
    | None => ccrash
    end.

Definition handle_connection (env : conn_env) (store : StoreState) (enabled : EnabledProtocols)
    (peer : SocketAddr) : conn_io unit :=
  prefix_byte ← sniff enabled;
  _ ← update (prefixed prefix_byte);
  protocol ← select_protocol enabled prefix_byte;
  inbound ← handshake_or_record env store peer protocol;
  serve_request env protocol inbound.

(** [accept_xhttp] of hyper's connection: upgraded to a stream, or a POST that was
    answered, or an error. *)
Inductive xhttp_result := Upgraded (s : stream) | PostHandled | XhttpFailed (msg : string).

Definition serve_inbound (env : conn_env) (xhttp_inbound : option xhttp_result) (store : StoreState)
    (enabled : EnabledProtocols) (peer : SocketAddr) : conn_io unit :=
  match xhttp_inbound with
  | Some (XhttpFailed msg) => cfail (bail msg)
  | Some (Upgraded upgraded) =>
    _ ← update (fun c => with_stream c upgraded);
    handle_connection env store enabled peer
  | Some PostHandled => mret tt
  | None => handle_connection env store enabled peer
  end.
End Handle.

(** The listener's transport, with what its handshake gave: rustls' TLS stream or
    an error, and for REALITY also a client that was handed to the decoy. *)
Inductive inbound_transport :=
| InPlain
| InTls (accepted : anyhow + stream)
| InReality (accepted : reality_accept)
with reality_accept :=
| RealityOk (s : stream)
| FallbackHandled
| RealityFailed (e : anyhow).

(** The task of an accepted connection. *)
Definition run_session `{ConstantTimeEq} (env : conn_env) (inbound : inbound_transport)
    (xhttp_inbound : option xhttp_result) (store : StoreState) (enabled : EnabledProtocols)
    (peer : SocketAddr) : conn_io unit :=
  match inbound with
  | InPlain => serve_inbound env xhttp_inbound store enabled peer
  | InTls (inr tls_stream) | InReality (RealityOk tls_stream) =>
    _ ← update (fun c => with_stream c tls_stream);
    serve_inbound env xhttp_inbound store enabled peer
  | InTls (inl e) => cfail e
  | InReality FallbackHandled => mret tt
  | InReality (RealityFailed e) => cfail e
  end.

(** ** The accept loop *)

(** What is shared by the listeners: the limiter, the metrics, the session
    counter and the sessions that were started. [permit] is what the connection
    gate answers. The loop stops on shutdown, and when the limiter panics in it. *)
Record acceptor := {
  ac_limiter : option (LimiterInner * states_mutex);
  ac_metrics : list metric;
  ac_counter : Z;
  ac_started : list Session;
  ac_stopped : bool
}.

Inductive accept_event :=
| Shutdown (value : bool)
| Accepted (peer : SocketAddr) (permit : bool)
| AcceptError (e : io_error).

Definition ac_stop (a : acceptor) : acceptor :=
  {| ac_limiter := ac_limiter a; ac_metrics := ac_metrics a; ac_counter := ac_counter a;
     ac_started := ac_started a; ac_stopped := true |}.

(** [None]: the lock is poisoned. *)
Definition check_blocked (a : acceptor) (ip : IpAddr) (now : Z) : option (bool * acceptor) :=
  match ac_limiter a with
  | None => Some (false, a)
  | Some (lim, mutex) =>
    guard ← mutex;
    let '(blocked, guard) := is_blocked lim guard ip now in
    Some (blocked, {| ac_limiter := Some (lim, Some guard); ac_metrics := ac_metrics a; ac_counter := ac_counter a;
                      ac_started := ac_started a; ac_stopped := ac_stopped a |})
  end.

Definition ac_report (m : metric) (a : acceptor) : acceptor :=
  {| ac_limiter := ac_limiter a; ac_metrics := ac_metrics a ++ [m]; ac_counter := ac_counter a;
     ac_started := ac_started a; ac_stopped := ac_stopped a |}.

Definition accept_step (a : acceptor) (now : Z) (ev : accept_event) : acceptor :=
  if ac_stopped a then a else
  match ev with
  | Shutdown true => ac_stop a
  | Shutdown false => a
  | AcceptError _ => a
  | Accepted peer permit =>
    match check_blocked a (sock_ip peer) now with
    | None => ac_stop a
    | Some (true, a) => ac_report AuthBlocked a
    | Some (false, a) =>
      if negb permit then ac_report ConnectionRejected a
      else
        let '(session, counter) := session_new (ac_counter a) peer in
        {| ac_limiter := ac_limiter a; ac_metrics := ac_metrics a; ac_counter := counter;
           ac_started := ac_started a ++ [session]; ac_stopped := ac_stopped a |}
    end
  end.

(** The loop, with the failures that the sessions record in between. *)
Inductive server_event :=
| Listener (ev : accept_event)
| SessionFailed (peer : SocketAddr) (protocol : string).

Definition server_step (a : acceptor) (now : Z) (ev : server_event) : acceptor :=
  match ev with
  | Listener ev => accept_step a now ev
  | SessionFailed peer protocol =>
    let c := (record_auth_failure (sock_ip peer) now protocol
                {| c_stream := Stream [] true [] None; c_metrics := ac_metrics a; c_limiter := ac_limiter a |}).2 in
    {| ac_limiter := c_limiter c; ac_metrics := c_metrics c; ac_counter := ac_counter a;
       ac_started := ac_started a; ac_stopped := ac_stopped a |}
  end.

Definition server_run (a : acceptor) (evs : list (Z * server_event)) : acceptor :=
  foldl (fun a p => server_step a p.1 p.2) a evs.

Definition acceptor_start (config : AuthRateLimitConfig) : acceptor :=
  {| ac_limiter := from_config config; ac_metrics := []; ac_counter := 1; ac_started := []; ac_stopped := false |}.

(** ** Lemmas *)

Definition ended {A} (r : outcome anyhow A) : Prop :=
  match r with Done _ | Fail _ => True | _ => False end.

Lemma gauge_app a b : gauge (a ++ b) = gauge a + gauge b.
Proof. induction a as [|m a IH]; cbn [gauge app]; [done|]. rewrite IH. lia. Qed.

Lemma gauge_report m c : gauge (c_metrics (report m c)) = gauge (c_metrics c) + gauge_step m.
Proof. cbn [report c_metrics]. rewrite gauge_app. cbn [gauge]. lia. Qed.

Lemma conn_bind_eq {A B} (m : conn_io A) (f : A -> conn_io B) c :
  (m ≫= f) c = match m c with
               | (Done a, c) => f a c
               | (Fail e, c) => (Fail e, c)
               | (Crash, c) => (Crash, c)
               | (Pending, c) => (Pending, c)
               end.
Proof. done. Qed.

(** [finish_relay] reports the end of the connection exactly once. *)
Lemma finish_relay_report label relay c r c' :
  finish_relay label relay c = (r, c') -> ended r ->
  exists m, c' = report m c /\ gauge_step m = -1.
Proof.
  unfold finish_relay. destruct relay as [[up down]|e|].
  - intros [= <- <-] _. by eexists.
  - destruct (_ && _); [intros [= <- <-] _; by eexists|].
    destruct (_ && _); [intros [= <- <-] _; by eexists|]. intros [= <- <-] _. by eexists.
  - by intros [= <- <-].
Qed.

(** A computation that reports nothing and leaves the limiter alone. *)
Definition silent {A} (m : conn_io A) : Prop :=
  forall c, c_metrics (m c).2 = c_metrics c /\ c_limiter (m c).2 = c_limiter c.

Lemma silent_ret {A} (a : A) : silent (mret a).
Proof. done. Qed.

Lemma silent_on_stream {A} (m : io anyhow A) : silent (on_stream m).
Proof. intros c. unfold on_stream. by destruct (m (c_stream c)). Qed.

Lemma silent_await {X} (o : option ((res io_error (Z * Z)) + X)) : silent (await_relay o).
Proof. intros c. unfold await_relay. by destruct o as [[[]|]|]. Qed.

Lemma silent_as_io m : silent (as_io_result m).
Proof. intros c. unfold as_io_result. by destruct (m (c_stream c)) as [[]]. Qed.

#[local] Hint Resolve silent_ret silent_on_stream silent_await silent_as_io : core.

(** A silent relay followed by its report. *)
Lemma relay_then_finish label (m : conn_io (res io_error (Z * Z))) c r c' :
  silent m -> (relay ← m; finish_relay label relay) c = (r, c') ->
  c_limiter c' = c_limiter c
  /\ (ended r -> (exists e, (m c).1 = Fail e) \/ gauge (c_metrics c') = gauge (c_metrics c) - 1).
Proof.
  intros Hs. rewrite conn_bind_eq. specialize (Hs c).
  destruct (m c) as [[relay|e| |] c1]; cbn [fst snd] in *; destruct Hs as [Hm Hl].
  - intros Hf. split.
    + rewrite <- Hl. unfold finish_relay in Hf. destruct relay as [[]|e|]; [| |by injection Hf as _ <-].
      * by injection Hf as _ <-.
      * by repeat case_match; injection Hf as _ <-.
    + intros He. right. destruct (finish_relay_report _ _ _ _ _ Hf He) as (x & -> & Hx).
      rewrite gauge_report, Hm. lia.
  - intros [= <- <-]. split; [done|]. intros _. left. eauto.
  - by intros [= <- <-].
  - by intros [= <- <-].
Qed.

Lemma await_no_fail {X} (o : option ((res io_error (Z * Z)) + X)) c e : (await_relay o c).1 <> Fail e.
Proof. unfold await_relay. by destruct o as [[[]|]|]. Qed.

Lemma as_io_no_fail m c e : (as_io_result m c).1 <> Fail e.
Proof. unfold as_io_result. by destruct (m (c_stream c)) as [[]]. Qed.

(** Opening, relaying and reporting leaves the gauge where it was. *)
Lemma opened_relay label (m : conn_io (res io_error (Z * Z))) c r c' :
  silent m -> (forall c e, (m c).1 <> Fail e) ->
  (relay ← m; finish_relay label relay) (report (ConnectionOpened label) c) = (r, c') ->
  c_limiter c' = c_limiter c /\ (ended r -> gauge (c_metrics c') = gauge (c_metrics c)).
Proof.
  intros Hs Hf H. destruct (relay_then_finish _ _ _ _ _ Hs H) as [Hl Hg]. split; [done|].
  intros He. destruct (Hg He) as [[e Hfail]|Hd]; [by apply Hf in Hfail|].
  rewrite Hd, gauge_report. cbn. lia.
Qed.

Lemma send_ok code bound c :
  tx_quota (c_stream c) = None ->
  on_stream (send_reply code bound) c
  = (Done tt, with_stream c (with_tx (tx (c_stream c) ++ reply_bytes code bound) (c_stream c))).
Proof. intros Hq. unfold on_stream, send_reply. by rewrite hwrite_run. Qed.

Lemma send_error_ok code c :
  tx_quota (c_stream c) = None ->
  on_stream (ignore (send_error code)) c
  = (Done tt, with_stream c (with_tx (tx (c_stream c) ++ reply_bytes code dummy_bound) (c_stream c))).
Proof. intros Hq. unfold on_stream. by rewrite send_error_run. Qed.

(** Opened, then failed. *)
Lemma opened_failed label c s e (r : outcome anyhow unit) c' :
  (_ ← update (report (ConnectionFailed label)); cfail e) (with_stream (report (ConnectionOpened label) c) s)
    = (r, c') ->
  c_limiter c' = c_limiter c /\ (ended r -> gauge (c_metrics c') = gauge (c_metrics c)).
Proof.
  rewrite conn_bind_eq. cbn [update]. intros [= <- <-]. split; [done|]. intros _.
  rewrite gauge_report. change (c_metrics (with_stream ?x _)) with (c_metrics x).
  rewrite gauge_report. cbn. lia.
Qed.

Lemma serve_target_gauge env protocol command target c r c' :
  tx_quota (c_stream c) = None -> serve_target env protocol command target c = (r, c') ->
  c_limiter c' = c_limiter c /\ (ended r -> gauge (c_metrics c') = gauge (c_metrics c)).
Proof.
  intros Hq. unfold serve_target. destruct (validate_outbound_literal _ _) as [u|err|]; [| |by intros [= <- <-]].
  2:{ rewrite conn_bind_eq. destruct (bool_decide _); [rewrite send_error_ok by done|]; by intros [= <- <-]. }
  rewrite conn_bind_eq. cbn [update]. set (label := vless_metric_label protocol command).
  destruct (bool_decide (protocol = Core.Vless) && (command =? CMD_MUX)).
  { apply opened_relay; [intros x; apply silent_await|intros; apply await_no_fail]. }
  destruct (bool_decide (protocol = Core.Vless) && (command =? CMD_UDP)).
  { destruct (udp_connect _ _ _ _ _) as [a|e|]; [| |by intros [= <- <-]].
    - apply opened_relay; [intros x; apply silent_await|intros; apply await_no_fail].
    - apply opened_failed. }
  destruct (OutboundTcp_connect _ _ _).1 as [up|e|]; [| |by intros [= <- <-]].
  - rewrite conn_bind_eq. destruct (bool_decide (protocol = Core.Socks5)).
    + cbv zeta. rewrite send_ok by done.
      apply (opened_relay label _ (with_stream c _)); [apply silent_await|intros; apply await_no_fail].
    + apply opened_relay; [apply silent_await|intros; apply await_no_fail].
  - rewrite conn_bind_eq. destruct (bool_decide (protocol = Core.Socks5)).
    + rewrite send_error_ok by done. apply opened_failed.
    + apply opened_failed.
Qed.

Lemma serve_request_gauge env protocol req c r c' :
  tx_quota (c_stream c) = None -> serve_request env protocol req c = (r, c') ->
  c_limiter c' = c_limiter c /\ (ended r -> gauge (c_metrics c') = gauge (c_metrics c)).
Proof.
  intros Hq. unfold serve_request. destruct (_ && _).
  { rewrite conn_bind_eq. cbn [update]. apply opened_relay; [apply silent_as_io|intros; apply as_io_no_fail]. }
  destruct (_ && _); [|by apply serve_target_gauge].
  rewrite conn_bind_eq. cbn [update]. apply opened_relay; [apply silent_as_io|intros; apply as_io_no_fail].
Qed.

(** ** The steps before the relay *)

Section Front.
Context `{ConstantTimeEq}.

(** Sniffing takes one byte and gives it back. *)
Lemma sniff_prefixed enabled c b c1 :
  sniff enabled c = (Done b, c1) -> prefixed b c1 = c
  /\ (needs_sniffing enabled = true -> exists x rest, b = Some x /\ rx (c_stream c) = x :: rest)
  /\ (needs_sniffing enabled = false -> b = None).
Proof.
  unfold sniff. destruct (needs_sniffing enabled).
  - rewrite conn_bind_eq. unfold on_stream at 1.
    destruct (with_context _ (read_exact 1) (c_stream c)) as [[first|e| |] s] eqn:Hr; try done.
    apply map_err_done, read_exact_iff in Hr as (rest & Hrx & Hl & ->).
    destruct first as [|x [|]]; try done. rewrite conn_bind_eq. cbn. intros [= <- <-].
    split_and!; [|intros _; by exists x, rest|done].
    destruct c as [[r eof t q] ms lim]. cbn in *. by subst r.
  - intros [= <- <-]. split_and!; [|done|done]. by destruct c as [[r eof t q] ms lim].
Qed.

Lemma sniff_silent enabled : silent (sniff enabled).
Proof.
  intros c. unfold sniff. destruct (needs_sniffing enabled); [|done]. rewrite conn_bind_eq.
  unfold on_stream at 1 3. destruct (with_context _ _ (c_stream c)) as [[first|e| |] s]; try done.
  rewrite conn_bind_eq. unfold on_stream. by destruct (of_res (idx first 0) _) as [[] ?].
Qed.

Lemma select_silent enabled b : silent (select_protocol enabled b).
Proof.
  intros c. unfold select_protocol. destruct (needs_sniffing enabled).
  - destruct b; [apply silent_on_stream|done].
  - by destruct (sole enabled).
Qed.

Lemma select_stream enabled b c p c1 : select_protocol enabled b c = (Done p, c1) -> c1 = c.
Proof.
  unfold select_protocol. destruct (needs_sniffing enabled).
  - destruct b as [x|]; [|done]. unfold on_stream, of_res. destruct (map_err _ _); [|done..].
    intros [= _ <-]. by destruct c.
  - destruct (sole enabled); [|done]. by intros [= _ <-].
Qed.

(** A failed authentication is counted and reported, or the limiter panics. *)
Lemma record_cases {A} ip now label e c (r : outcome anyhow A) c' :
  (r, c') = (_ ← record_auth_failure ip now label; cfail e) c ->
  (r = Crash /\ c_metrics c' = c_metrics c
   /\ exists lim mutex, c_limiter c = Some (lim, mutex) /\ c_limiter c' = Some (lim, None)
        /\ (mutex ≫= fun guard => record_failure lim guard ip now) = None)
  \/ (r = Fail e /\ c_metrics c' = c_metrics c ++ [AuthFailure label]
      /\ (c_limiter c = None /\ c_limiter c' = None
          \/ exists lim mutex guard, c_limiter c = Some (lim, mutex) /\ c_limiter c' = Some (lim, Some guard)
               /\ (mutex ≫= fun guard => record_failure lim guard ip now) = Some guard)).
Proof.
  rewrite conn_bind_eq. unfold record_auth_failure. destruct (c_limiter c) as [[lim mutex]|] eqn:Hl.
  - destruct (mutex ≫= _) as [guard|] eqn:Hm; intros [= -> ->]; [right|left]; naive_solver.
  - intros [= -> ->]. right. split_and!; [done|done|]. by left.
Qed.

Lemma handshake_writable protocol s5 vl s req s' :
  bytes_ok (rx s) -> tx_quota s = None -> handshake_inbound protocol s5 vl s = (Done req, s') ->
  tx_quota s' = None.
Proof. destruct protocol; apply inbound_writable. Qed.

(** A connection ends before the handshake does, or fails to authenticate, or is
    served. *)
Lemma handle_cases env store enabled peer c r c' :
  bytes_ok (rx (c_stream c)) -> tx_quota (c_stream c) = None ->
  handle_connection env store enabled peer c = (r, c') ->
  (c_metrics c' = c_metrics c /\ c_limiter c' = c_limiter c /\ forall u, r <> Done u)
  \/ (exists protocol e s,
       handshake_inbound protocol (socks5_config store) (vless_config store) (c_stream c) = (Fail e, s)
       /\ is_auth_failure e = true
       /\ (r, c') = (_ ← record_auth_failure (sock_ip peer) (ce_now env) (metric_label protocol); cfail e)
                     (with_stream c s))
  \/ (exists protocol req s,
       handshake_inbound protocol (socks5_config store) (vless_config store) (c_stream c) = (Done req, s)
       /\ tx_quota s = None /\ serve_request env protocol req (with_stream c s) = (r, c')).
Proof.
  intros Hb Hq. unfold handle_connection. rewrite conn_bind_eq.
  pose proof (sniff_silent enabled c) as [S1 S2].
  destruct (sniff enabled c) as [[b|e| |] c1] eqn:Hs; [|intros [= <- <-]; left; done..].
  apply sniff_prefixed in Hs as (Hp & _). rewrite conn_bind_eq. cbn [update]. rewrite Hp, conn_bind_eq.
  pose proof (select_silent enabled b c) as [S3 S4].
  destruct (select_protocol enabled b c) as [[protocol|e| |] c2] eqn:Hsel; [|intros [= <- <-]; left; done..].
  apply select_stream in Hsel as ->. rewrite conn_bind_eq. unfold handshake_or_record.
  destruct (handshake_inbound _ _ _ _) as [[req|e| |] s] eqn:Hh; [|..|intros [= <- <-]; left; done].
  - intros Hr. right. right. exists protocol, req, s. split_and!; [done| |done].
    by eapply handshake_writable.
  - destruct (is_auth_failure e) eqn:Ha; [|intros [= <- <-]; left; done].
    intros H1. right. left. exists protocol, e, s. split_and!; [done|done|].
    rewrite <- H1, !conn_bind_eq. by destruct (record_auth_failure _ _ _ _) as [[[]|e'| |] c2].
  - by intros [= <- <-]; left.
Qed.

(** The stream the protocols run on, when the transports give one. *)
Definition session_stream (inbound : inbound_transport) (xhttp_inbound : option xhttp_result) (s : stream)
    : option stream :=
  let over s := match xhttp_inbound with
                | Some (Upgraded s) => Some s
                | Some _ => None
                | None => Some s
                end in
  match inbound with
  | InPlain => over s
  | InTls (inr s) | InReality (RealityOk s) => over s
  | _ => None
  end.

Lemma run_session_cases env inbound xhttp_inbound store enabled peer c :
  match session_stream inbound xhttp_inbound (c_stream c) with
  | Some s => run_session env inbound xhttp_inbound store enabled peer c
              = handle_connection env store enabled peer (with_stream c s)
  | None => silent (run_session env inbound xhttp_inbound store enabled peer)
  end.
Proof.
  destruct c as [s ms lim]. destruct inbound as [|[e|s']|[s'| |e]], xhttp_inbound as [[s''| |msg]|]; done.
Qed.
End Front.

(** Computations that leave the client's stream alone. *)
Definition keeps_stream {A} (m : conn_io A) : Prop := forall c, c_stream (m c).2 = c_stream c.

Lemma keeps_bind {A B} (m : conn_io A) (f : A -> conn_io B) :
  keeps_stream m -> (forall a, keeps_stream (f a)) -> keeps_stream (m ≫= f).
Proof.
  intros Hm Hf c. rewrite conn_bind_eq. specialize (Hm c).
  destruct (m c) as [[a|e| |] c1]; cbn in *; try done. by rewrite Hf.
Qed.

Lemma keeps_report m : keeps_stream (update (report m)).
Proof. done. Qed.

Lemma keeps_cfail {A} e : keeps_stream (@cfail A e).
Proof. done. Qed.

Lemma keeps_await {X} (o : option ((res io_error (Z * Z)) + X)) : keeps_stream (await_relay o).
Proof. intros c. unfold await_relay. by destruct o as [[[]|]|]. Qed.

Lemma keeps_finish label relay : keeps_stream (finish_relay label relay).
Proof.
  unfold finish_relay. destruct relay as [[]|e|]; [done| |done].
  destruct (_ && _); [done|]. destruct (_ && _); done.
Qed.

#[local] Hint Resolve keeps_report keeps_cfail keeps_await keeps_finish : core.

Lemma keeps_relay {X} (o : option ((res io_error (Z * Z)) + X)) label :
  keeps_stream (relay ← await_relay o; finish_relay label relay).
Proof. apply keeps_bind; auto. Qed.

(** ** Properties *)

(** C4: the active-connections gauge is exact. A session over a plain, TLS, REALITY
    or XHTTP inbound that ends, in success or in error, leaves the gauge where it
    found it as long as its stream takes what is written to it: whatever the peers
    send and the relays do, each reported opening is followed by exactly one closing
    or failure. *)
Theorem server_gauge_balanced `{ConstantTimeEq} (env : conn_env) (inbound : inbound_transport)
    (xhttp_inbound : option xhttp_result) (store : StoreState)
    (enabled : EnabledProtocols) (peer : SocketAddr) (c c' : conn) (r : outcome anyhow unit)
    (Hs : forall s, session_stream inbound xhttp_inbound (c_stream c) = Some s ->
                    bytes_ok (rx s) /\ tx_quota s = None)
    (Hrun : run_session env inbound xhttp_inbound store enabled peer c = (r, c')) (He : ended r) :
  gauge (c_metrics c') = gauge (c_metrics c).
Proof.
  pose proof (run_session_cases env inbound xhttp_inbound store enabled peer c) as Hc.
  destruct (session_stream _ _ _) as [s|]; cycle 1.
  { specialize (Hc c) as [Hm _]. rewrite Hrun in Hm. cbn in Hm. by rewrite Hm. }
  rewrite Hc in Hrun. clear Hc. destruct (Hs s eq_refl) as [Hb Hq].
  destruct (handle_cases _ _ _ _ (with_stream c s) _ _ Hb Hq Hrun) as [(-> & _)|[(p & e & s' & _ & _ & Hr)|(p & req & s' & _ & Hw & Hs')]].
  - done.
  - apply record_cases in Hr as [(-> & _)|(_ & -> & _)]; [done|]. rewrite gauge_app. cbn. lia.
  - by apply (serve_request_gauge env p req (with_stream c s') r c').
Qed.

(** exactly the failed authentications are counted. A connection changes the
    limiter only when its handshake fails with an authentication error; then the
    peer's address, and no other, gets one more failure, one authentication failure
    is reported, and nothing else is; when the limiter panics nothing is reported and
    it is poisoned. *)
Theorem server_counts_auth_failures `{ConstantTimeEq} (env : conn_env) (store : StoreState)
    (enabled : EnabledProtocols) (peer : SocketAddr) (c c' : conn) (r : outcome anyhow unit)
    (Hb : bytes_ok (rx (c_stream c))) (Hq : tx_quota (c_stream c) = None)
    (Hrun : handle_connection env store enabled peer c = (r, c')) :
  c_limiter c' = c_limiter c
  \/ exists lim mutex, c_limiter c = Some (lim, mutex)
     /\ c_limiter c' = Some (lim, mutex ≫= fun guard => record_failure lim guard (sock_ip peer) (ce_now env))
     /\ (r = Crash /\ c_metrics c' = c_metrics c
         \/ exists protocol e, r = Fail e /\ is_auth_failure e = true
             /\ c_metrics c' = c_metrics c ++ [AuthFailure (metric_label protocol)]).
Proof.
  destruct (handle_cases _ _ _ _ _ _ _ Hb Hq Hrun) as [(_ & -> & _)|[(p & e & s & _ & Ha & Hr)|(p & req & s & _ & Hw & Hs)]].
  - by left.
  - apply record_cases in Hr as [(-> & Hm & lim & mutex & Hl & Hl' & Hn)|(-> & Hm & [[Hl Hl']|(lim & mutex & g & Hl & Hl' & Hn)])].
    + right. exists lim, mutex. rewrite Hn. split_and!; [done|done|by left].
    + left. by rewrite Hl'.
    + right. exists lim, mutex. rewrite Hn. split_and!; [done|done|]. right. by exists p, e.
  - left. by apply serve_request_gauge in Hs as [-> _].
Qed.

(** SOCKS5 clients get the reply that fits. For a SOCKS5 request to connect, a
    target that the policy forbids is answered with "not allowed", a failed dial
    with the code of its error, and a successful one with success and the local
    address of the upstream, before any byte is relayed. *)
Theorem server_connect_replies (env : conn_env) (command : Z) (target : Endpoint)
    (c c' : conn) (r : outcome anyhow unit)
    (Hq : tx_quota (c_stream c) = None) (Hrun : serve_target env Core.Socks5 command target c = (r, c')) :
  match validate_outbound_literal target (ce_allow_private env),
        (OutboundTcp_connect (ce_net env) (ce_tcp env) target).1 with
  | Err err, _ =>
    r = Fail (core_err err) /\ c_metrics c' = c_metrics c
    /\ tx (c_stream c') = tx (c_stream c) ++ reply_bytes REP_NOT_ALLOWED dummy_bound
  | Ok _, Err e =>
    r = Fail e
    /\ tx (c_stream c') = tx (c_stream c) ++ reply_bytes (classify_connect_error e) dummy_bound
  | Ok _, Ok up =>
    tx (c_stream c') = tx (c_stream c) ++ reply_bytes REP_SUCCEEDED
      (match local_addr (ce_local_addr env) up with inr a => a | inl _ => dummy_bound end)
  | _, _ => True
  end.
Proof.
  revert Hrun. unfold serve_target.
  rewrite (bool_decide_eq_true_2 (Core.Socks5 = Core.Socks5)),
    (bool_decide_eq_false_2 (Core.Socks5 = Core.Vless)) by done. cbn [andb].
  destruct (validate_outbound_literal _ _) as [[]|err|]; [| |done].
  2:{ rewrite conn_bind_eq, send_error_ok by done. by intros [= <- <-]. }
  rewrite conn_bind_eq. cbn [update]. destruct (OutboundTcp_connect _ _ _).1 as [up|e|]; [| |done].
  - rewrite conn_bind_eq, send_ok by done. intros Hr.
    apply (f_equal (fun p => c_stream p.2)) in Hr. rewrite keeps_relay in Hr. cbn in Hr. by rewrite <- Hr.
  - rewrite conn_bind_eq, send_error_ok, conn_bind_eq by done. cbn. by intros [= <- <-].
Qed.

(** ** The limiter behind the accept loop *)

(** The operations on the limiter that a history of the server amounts to. *)
Fixpoint limiter_events (stopped : bool) (evs : list (Z * server_event)) : list AuthRate.event :=
  match evs with
  | [] => []
  | (now, SessionFailed peer _) :: evs => Failure (sock_ip peer) now :: limiter_events stopped evs
  | (now, Listener (Accepted peer _)) :: evs =>
    if stopped then limiter_events stopped evs
    else AuthRate.Check (sock_ip peer) now :: limiter_events stopped evs
  | (_, Listener (Shutdown true)) :: evs => limiter_events true evs
  | _ :: evs => limiter_events stopped evs
  end.

(** When the sessions of an address failed to authenticate. *)
Definition session_failures (ip : IpAddr) (evs : list (Z * server_event)) : list Z :=
  omap (fun p => match p.2 with
                 | SessionFailed peer _ => if bool_decide (sock_ip peer = ip) then Some p.1 else None
                 | Listener _ => None
                 end) evs.

Lemma limiter_events_failures ip stopped evs :
  failure_times ip (limiter_events stopped evs) = session_failures ip evs.
Proof.
  revert stopped. induction evs as [|[now [[[]|peer permit|e]|peer protocol]] evs IH]; intros stopped;
    cbn [limiter_events]; [done|apply IH|apply IH|destruct stopped; apply IH|apply IH|].
  unfold failure_times, session_failures in *. cbn. rewrite IH. done.
Qed.

Lemma limiter_events_times (P : Z -> Prop) stopped evs :
  Forall (fun p => P p.1) evs -> Forall (fun e => P (event_time e)) (limiter_events stopped evs).
Proof.
  intros H. revert stopped. induction H as [|[now ev] evs H1 H2 IH]; intros stopped; [constructor|].
  destruct ev as [[[]|peer permit|e]|peer protocol]; cbn [limiter_events]; try apply IH; [destruct stopped; [apply IH|]|];
    by constructor; [|apply IH].
Qed.

Lemma server_step_limiter a now ev lim m :
  ac_limiter a = Some (lim, m) ->
  ac_limiter (server_step a now ev)
  = Some (lim, AuthRate.run lim m (limiter_events (ac_stopped a) [(now, ev)])).
Proof.
  intros Hl. destruct ev as [[[]|peer permit|e]|peer protocol]; cbn; unfold accept_step;
    destruct (ac_stopped a); cbn; try done; unfold record_auth_failure, check_blocked; cbn; rewrite ?Hl;
    destruct m as [guard|]; cbn; try done.
  - destruct (is_blocked lim guard (sock_ip peer) now) as [[] guard'] eqn:Hb; cbn; [done|]. by destruct permit.
  - by destruct (record_failure lim guard (sock_ip peer) now).
  - by destruct (record_failure lim guard (sock_ip peer) now).
Qed.

Lemma server_step_stopped a now ev lim guard :
  ac_limiter a = Some (lim, Some guard) ->
  ac_stopped (server_step a now ev)
  = match ev with Listener (Shutdown true) => true | _ => ac_stopped a end.
Proof.
  intros Hl. destruct ev as [[[]|peer permit|e]|peer protocol]; cbn; unfold accept_step;
    destruct (ac_stopped a) eqn:Hs; cbn; try done.
  unfold check_blocked. rewrite Hl. cbn.
  destruct (is_blocked lim guard (sock_ip peer) now) as [[] guard']; [done|]. by destruct permit.
Qed.

Lemma server_run_poisoned a evs lim :
  ac_limiter a = Some (lim, None) -> ac_limiter (server_run a evs) = Some (lim, None).
Proof.
  revert a. induction evs as [|[now ev] evs IH]; intros a Hl; [done|]. cbn. apply IH.
  by rewrite (server_step_limiter a now ev lim None Hl), run_none.
Qed.

(** The limiter after a history is the limiter that ran the history's operations. *)
Lemma server_run_limiter a evs lim guard :
  ac_limiter a = Some (lim, Some guard) ->
  ac_limiter (server_run a evs) = Some (lim, AuthRate.run lim (Some guard) (limiter_events (ac_stopped a) evs)).
Proof.
  revert a guard. induction evs as [|[now ev] evs IH]; intros a guard Hl; [done|].
  change (server_run a ((now, ev) :: evs)) with (server_run (server_step a now ev) evs).
  pose proof (server_step_limiter a now ev lim _ Hl) as Hs.
  assert (Hsplit : limiter_events (ac_stopped a) ((now, ev) :: evs)
    = limiter_events (ac_stopped a) [(now, ev)] ++ limiter_events (ac_stopped (server_step a now ev)) evs).
  { rewrite (server_step_stopped a now ev lim guard Hl).
    destruct ev as [[[]|peer permit|e]|peer protocol]; cbn; try done; by destruct (ac_stopped a). }
  rewrite Hsplit. unfold AuthRate.run in *. rewrite foldl_app.
  destruct (foldl _ _ (limiter_events (ac_stopped a) [(now, ev)])) as [g|].
  - by apply IH.
  - rewrite (server_run_poisoned _ evs lim Hs). do 2 f_equal. symmetry. apply (run_none lim).
Qed.

Lemma server_run_app a evs evs' : server_run a (evs ++ evs') = server_run (server_run a evs) evs'.
Proof. unfold server_run. by rewrite foldl_app. Qed.

(** What accepting does when the limiter answers. *)
Lemma accept_step_blocked a now peer permit lim guard :
  ac_stopped a = false -> ac_limiter a = Some (lim, Some guard) ->
  (is_blocked lim guard (sock_ip peer) now).1 = true ->
  let a' := accept_step a now (Accepted peer permit) in
  ac_metrics a' = ac_metrics a ++ [AuthBlocked] /\ ac_started a' = ac_started a.
Proof.
  intros Hs Hl Hb. cbv zeta. unfold accept_step, check_blocked. rewrite Hs, Hl. cbn.
  by destruct (is_blocked lim guard (sock_ip peer) now) as [[] guard'].
Qed.

Lemma accept_step_admitted a now peer lim guard :
  ac_stopped a = false -> ac_limiter a = Some (lim, Some guard) ->
  (is_blocked lim guard (sock_ip peer) now).1 = false ->
  let a' := accept_step a now (Accepted peer true) in
  ac_metrics a' = ac_metrics a
  /\ exists session, ses_peer session = peer /\ ac_started a' = ac_started a ++ [session].
Proof.
  intros Hs Hl Hb. cbv zeta. unfold accept_step, check_blocked. rewrite Hs, Hl. cbn.
  destruct (is_blocked lim guard (sock_ip peer) now) as [[] guard']; cbn in *; [done|].
  split; [done|]. eexists. split; [|reflexivity]. done.
Qed.

(** The failure that completes the count bans the address, and the limiter lives on. *)
Lemma bruteforce_bans lim guard es ip w now :
  0 < window lim -> 0 < max_failures lim -> guard !! ip = None ->
  Z.of_nat (length (failure_times ip es)) = max_failures lim - 1 ->
  from_option id now (head (failure_times ip es)) = w ->
  Forall (fun t => w <= t < w + window lim) (failure_times ip es) -> w <= now < w + window lim ->
  roomy lim now -> Forall (fun e => roomy lim (event_time e)) es ->
  exists g, apply_event lim (AuthRate.run lim (Some guard) es) (Failure ip now) = Some g
    /\ g !! ip = Some {| failures := 0; window_start := now; blocked_until := Some (now + ban_for lim 1);
                         ban_level := 1 |}.
Proof.
  intros Hw Hmax Hnew Hn Hfirst Hin Hnow Hr Hrs. destruct (run_roomy lim guard es Hrs) as [g0 Hg0]. rewrite Hg0.
  assert (Hc : counted ip w (max_failures lim - 1) g0).
  { rewrite <- Hn. apply (run_counted lim ip w 0 guard es g0); try done; [|lia].
    intros _. destruct (head (failure_times ip es)); cbn in Hfirst; [right; by subst|by left]. }
  assert (H0 : max_failures lim - 1 = 0 -> now = w).
  { intros H0. rewrite H0 in Hn. destruct (failure_times ip es); [done|]. cbn in Hn. lia. }
  pose proof (counted_failure lim ip w (max_failures lim - 1) g0 now ltac:(lia) Hw H0 Hnow Hc) as Hf.
  rewrite Z.sub_add, Z.ltb_irrefl, instant_add_roomy in Hf by done. cbn in Hf.
  destruct (apply_event_roomy lim g0 (Failure ip now) Hr) as [g Hg]. exists g. split; [done|].
  apply (apply_event_lookup lim _ _ ip) in Hg. cbn [is_failure_of event_time] in Hg.
  rewrite bool_decide_eq_true_2 in Hg by done. destruct Hg as (st & Hst & Hlk). rewrite Hf in Hst. by injection Hst as <-.
Qed.

(** ** More properties *)

(** C10: the server keeps out brute-forcing addresses. When the sessions of an address
    of which the limiter knows nothing fail to authenticate [max_failures] times within
    one window, then, whatever the listeners and the sessions (of this address too) do
    during the ban, every connection the address opens before the ban is over is
    dropped before a session starts and counted as blocked; and after the ban, if none of
    its sessions failed again, it is served. The clock is far enough from the end of its
    range for the longest ban. *)
Theorem server_bans_bruteforce (a : acceptor) (lim : LimiterInner) (guard : states)
    (evs later : list (Z * server_event)) (peer peer' : SocketAddr) (protocol : string) (permit : bool) (w now t : Z)
    (Hl : ac_limiter a = Some (lim, Some guard))
    (Hroom : Forall (fun p => roomy lim p.1) (evs ++ (now, SessionFailed peer protocol) :: later))
    (Hip : sock_ip peer' = sock_ip peer)
    (Hw : 0 < window lim) (Hmax : 0 < max_failures lim) (Hbase : 0 <= ban_base lim)
    (Hnew : guard !! sock_ip peer = None)
    (Hn : Z.of_nat (length (session_failures (sock_ip peer) evs)) = max_failures lim - 1)
    (Hfirst : from_option id now (head (session_failures (sock_ip peer) evs)) = w)
    (Hin : Forall (fun t => w <= t < w + window lim) (session_failures (sock_ip peer) evs))
    (Hnow : w <= now < w + window lim)
    (Hs : ac_stopped (server_run a (evs ++ (now, SessionFailed peer protocol) :: later)) = false) :
  let until := now + Z.min (saturating_mul (ban_base lim) 2) (ban_max lim) in
  let a1 := server_run a (evs ++ (now, SessionFailed peer protocol) :: later) in
  let a2 := accept_step a1 t (Accepted peer' permit) in
  (Forall (fun p => now <= p.1 < until) later -> t < until ->
     ac_metrics a2 = ac_metrics a1 ++ [AuthBlocked] /\ ac_started a2 = ac_started a1)
  /\ (session_failures (sock_ip peer) later = [] -> until <= t -> permit = true ->
       ac_metrics a2 = ac_metrics a1
       /\ exists session, ses_peer session = peer' /\ ac_started a2 = ac_started a1 ++ [session]).
Proof.
  intros u a1 a2. rewrite <- (limiter_events_failures _ (ac_stopped a)) in Hn, Hfirst, Hin.
  apply Forall_app in Hroom as [R1 R2]. inversion_clear R2 as [|? ? R3 R4]. cbn in R3.
  destruct (bruteforce_bans lim guard (limiter_events (ac_stopped a) evs) (sock_ip peer) w now)
    as (g & Hg & Hst); try done; [by apply limiter_events_times|].
  set (b := server_step (server_run a evs) now (SessionFailed peer protocol)).
  assert (Hb : ac_limiter b = Some (lim, Some g)).
  { unfold b. erewrite server_step_limiter by (by apply server_run_limiter). do 2 f_equal. exact Hg. }
  assert (Ha1 : a1 = server_run b later) by (unfold a1; by rewrite server_run_app).
  destruct (run_roomy lim g (limiter_events (ac_stopped b) later)) as [g1 Hg1]; [by apply limiter_events_times|].
  assert (Hl1 : ac_limiter a1 = Some (lim, Some g1)) by (rewrite Ha1, (server_run_limiter b later lim g Hb); by rewrite Hg1).
  split.
  - intros Hl2 Ht. apply (accept_step_blocked a1 t peer' permit lim g1 Hs Hl1). rewrite Hip.
    apply (banned_blocked lim (sock_ip peer) u); [|done].
    apply (banned_run lim (sock_ip peer) now g (limiter_events (ac_stopped b) later) g1); [done| | |done].
    + eexists _, _. split_and!; [exact Hst|reflexivity|done|done].
    + by apply (limiter_events_times (fun x => now <= x < now + ban_for lim 1)).
  - intros Hnone Ht ->. apply (accept_step_admitted a1 t peer' lim g1 Hs Hl1). rewrite Hip.
    assert (He : ban_ends (sock_ip peer) u g1).
    { apply (ban_ends_run lim (sock_ip peer) u g (limiter_events (ac_stopped b) later)); [by rewrite limiter_events_failures| |done].
      intros st v Hx Hv. rewrite Hst in Hx. injection Hx as <-. by injection Hv as <-. }
    destruct (is_blocked lim g1 (sock_ip peer) t).1 eqn:E; [|done].
    apply is_blocked_iff in E as (st & v & Hx & Hv & Hlt). rewrite (He st v Hx Hv) in Hlt. lia.
Qed.

(** a client that leaves before its SOCKS5 reply leaks the gauge. When the dial
    succeeds but the reply cannot be written, the connection fails after it was
    reported open and is never reported closed or failed: the gauge stays one too
    high. *)
Theorem server_lost_client_leaks_gauge (env : conn_env) (command : Z) (target : Endpoint) (c : conn)
    (up : TcpUpstream)
    (Hv : validate_outbound_literal target (ce_allow_private env) = Ok tt)
    (Hd : (OutboundTcp_connect (ce_net env) (ce_tcp env) target).1 = Ok up)
    (Hq : tx_quota (c_stream c) = Some (TxLimit 0 false)) :
  exists c', serve_target env Core.Socks5 command target c = (Fail (anyhow_of_io broken_pipe), c')
    /\ gauge (c_metrics c') = gauge (c_metrics c) + 1.
Proof.
  unfold serve_target. rewrite Hv, Hd.
  rewrite (bool_decide_eq_true_2 (Core.Socks5 = Core.Socks5)),
    (bool_decide_eq_false_2 (Core.Socks5 = Core.Vless)) by done. cbn [andb].
  rewrite conn_bind_eq. cbn [update]. rewrite conn_bind_eq. cbv zeta. unfold on_stream.
  assert (Hsend : forall code bound, send_reply code bound (c_stream c)
                    = (Fail (anyhow_of_io broken_pipe), c_stream c)).
  { intros. unfold send_reply, hwrite, io_q, io_map_err, mbind, io_bind, write_all. rewrite Hq. cbn [tl_bytes].
    destruct (c_stream c) as [rx eof tx q]. cbn in Hq |- *. subst q. by rewrite app_nil_r. }
  change (c_stream (report _ c)) with (c_stream c). rewrite Hsend. eexists. split; [done|].
  change (c_metrics (with_stream ?x _)) with (c_metrics x). rewrite gauge_report. cbn. lia.
Qed.

Lemma prefix_app p s : String.prefix p (p +:+ s) = true.
Proof.
  induction p as [|a p IH]; [by destruct s|].
  change (String a p +:+ s) with (String a (p +:+ s)). cbn [String.prefix].
  by destruct (ascii_dec a a).
Qed.

Lemma str_contains_prefix p s : String.prefix p s = true -> str_contains p s = true.
Proof. intros Hp. destruct s; cbn [str_contains]; by rewrite Hp. Qed.

(** rebinding names are reported as forbidden. A name one of whose resolved
    addresses is forbidden is not dialled at all, not even at its other addresses,
    and the SOCKS5 client is answered "connection not allowed". *)
Theorem server_forbidden_is_reported (env : conn_env) (command port : Z) (host : string)
    (tcp : TcpTransport) (c : conn) (addrs : list SocketAddr) (a : SocketAddr)
    (Ht : ce_tcp env = OutPlain tcp) (Hpol : tcp_allow_private tcp = false)
    (Hr : lookup_host (ce_net env) (host +:+ ":" +:+ pretty port) = inr addrs)
    (Ha : a ∈ addrs) (Hf : is_forbidden_ip (sock_ip a) = true)
    (Hq : tx_quota (c_stream c) = None) :
  (OutboundTcp_connect (ce_net env) (ce_tcp env) (Domain host port)).2 = []
  /\ tx (c_stream (serve_target env Core.Socks5 command (Domain host port) c).2)
     = tx (c_stream c) ++ reply_bytes REP_NOT_ALLOWED dummy_bound.
Proof.
  assert (Hc : exists b, check_addrs addrs = Err (ForbiddenDestination b)).
  { destruct (check_addrs_cases addrs) as [Hok|(b & _ & _ & He)]; [|by eexists].
    apply check_addrs_ok in Hok. rewrite Forall_forall in Hok. specialize (Hok a Ha). congruence. }
  destruct Hc as [b Hc].
  assert (Hd : OutboundTcp_connect (ce_net env) (ce_tcp env) (Domain host port)
               = (Err (core_err (ForbiddenDestination b)), [])).
  { rewrite Ht. cbn. unfold TcpTransport_connect, resolve_endpoint_addrs. rewrite Hpol. cbn. rewrite Hr.
    destruct addrs as [|x l]; [by apply not_elem_of_nil in Ha|]. cbn. cbn in Hc. by rewrite Hc. }
  split; [by rewrite Hd|].
  unfold serve_target. rewrite (bool_decide_eq_true_2 (Core.Socks5 = Core.Socks5)),
    (bool_decide_eq_false_2 (Core.Socks5 = Core.Vless)) by done. cbn [andb]. rewrite Hd.
  replace (validate_outbound_literal (Domain host port) (ce_allow_private env)) with (Ok (E:=Error) tt)
    by (by destruct (ce_allow_private env)).
  rewrite conn_bind_eq. cbn [update fst]. rewrite conn_bind_eq, send_error_ok, conn_bind_eq by done. cbn [update].
  unfold classify_connect_error, core_err, bail, anyhow_to_string. cbn [chain error_display].
  rewrite (str_contains_prefix "forbidden destination"); [done|].
  exact (prefix_app "forbidden destination" (": " +:+ b)).
Qed.

(** ** Witnesses *)

Definition demo_conn_env : conn_env :=
  {| ce_net := demo_network; ce_tcp := OutPlain (tcp_with_policy 10 false);
     ce_local_addr := fun _ => inr (SockV4 (Ipv4 192 0 2 1) 40000);
     ce_allow_private := false; ce_limits := demo_limits; ce_now := 0;
     ce_bind := demo_bind_env; ce_assoc_bind := inr (inr demo_peer); ce_assoc := [];
     ce_registry := manager_new; ce_mux := []; ce_udp_bind := inr tt;
     ce_udp_connect := fun _ => Some (inr tt); ce_udp := []; ce_copy := fun _ => None;
     ce_relay := demo_events |}.

Definition demo_server_store : StoreState :=
  from_protocol {| pc_socks5 := demo_config; pc_vless := {| vc_enabled := true; vc_users := [] |} |}.

Definition both_protocols : EnabledProtocols := {| ep_socks5 := true; ep_vless := true |}.

(** A SOCKS5 client of example.com:443 that authenticates with [p]. *)
Definition demo_conn (p : string) : conn :=
  {| c_stream := Stream (wire_greeting [0; 2] ++ wire_auth "bob" p
                         ++ Socks5Parse.wire_request {| Socks5Parse.command := CMD_CONNECT;
                                          Socks5Parse.target := Domain "example.com" 443 |})
                   false [] None;
     c_metrics := []; c_limiter := Some (demo_limiter, Some ∅) |}.

Definition demo_session (p : string) : outcome anyhow unit * conn :=
  handle_connection demo_conn_env demo_server_store both_protocols demo_peer (demo_conn p).

Lemma server_gauge_balanced_witness :
  c_metrics (demo_session "pass").2 = [ConnectionOpened "socks5"; ConnectionClosed "socks5" 4 1]
  /\ gauge (c_metrics (demo_session "pass").2) = 0.
Proof.
  split; [vm_compute; reflexivity|].
  apply (server_gauge_balanced demo_conn_env (InTls (inr (c_stream (demo_conn "pass")))) None demo_server_store
    both_protocols demo_peer (demo_conn "pass") (demo_session "pass").2 (Done tt)).
  - intros s [= <-]. split; [solve_bytes_ok|reflexivity].
  - vm_compute. reflexivity.
  - exact I.
Defined.

Definition knows_demo_peer (l : option (LimiterInner * states_mutex)) : bool :=
  match l with
  | Some (_, Some guard) => match guard !! sock_ip demo_peer with Some _ => true | None => false end
  | _ => false
  end.

Lemma server_counts_auth_failures_witness :
  exists mutex, c_limiter (demo_session "oops").2
      = Some (demo_limiter, mutex ≫= fun guard => record_failure demo_limiter guard (sock_ip demo_peer) 0)
    /\ c_metrics (demo_session "oops").2 = [AuthFailure "socks5"].
Proof.
  destruct (server_counts_auth_failures demo_conn_env demo_server_store both_protocols demo_peer
    (demo_conn "oops") (demo_session "oops").2 (Fail (bail "authentication failed"))) as [H|H].
  - solve_bytes_ok.
  - reflexivity.
  - vm_compute. reflexivity.
  - exfalso. apply (f_equal knows_demo_peer) in H. vm_compute in H. discriminate H.
  - destruct H as (lim & mutex & H1 & H2 & _). exists mutex. injection H1 as <- _.
    split; [exact H2|]. vm_compute. reflexivity.
Defined.

Lemma server_connect_replies_witness :
  tx (c_stream (serve_target demo_conn_env Core.Socks5 CMD_CONNECT (Domain "example.com" 443) (demo_conn "")).2)
  = [5; 0; 0; 1; 192; 0; 2; 1; 156; 64].
Proof.
  exact (server_connect_replies demo_conn_env CMD_CONNECT (Domain "example.com" 443) (demo_conn "") _ _ eq_refl
    (surjective_pairing _)).
Defined.

Definition demo_failures : list (Z * server_event) :=
  [(3, Listener (Accepted demo_peer true)); (5, SessionFailed demo_peer "socks5");
   (7, SessionFailed (SockV4 (Ipv4 8 8 8 8) 1) "vless"); (8, Listener (Accepted demo_peer true))].

Definition demo_acceptor : acceptor :=
  {| ac_limiter := Some (demo_limiter, Some ∅); ac_metrics := []; ac_counter := 1; ac_started := [];
     ac_stopped := false |}.

(** During the ban a session that was still open fails too, and others come and go. *)
Definition demo_later : list (Z * server_event) :=
  [(11, SessionFailed demo_peer "vless"); (12, Listener (Accepted (SockV4 (Ipv4 8 8 8 8) 1) true));
   (13, Listener (Accepted demo_peer true)); (14, Listener (AcceptError broken_pipe))].

Lemma server_bans_bruteforce_witness :
  let a := server_run demo_acceptor (demo_failures ++ (9, SessionFailed demo_peer "socks5") :: demo_later) in
  ac_started (accept_step a 15 (Accepted (SockV4 (Ipv4 198 51 100 7) 4001) true)) = ac_started a
  /\ length (ac_started a) = 3%nat.
Proof.
  split; [|vm_compute; reflexivity].
  refine (proj2 (proj1 (server_bans_bruteforce demo_acceptor demo_limiter ∅ demo_failures demo_later demo_peer
    (SockV4 (Ipv4 198 51 100 7) 4001) "socks5" true 5 9 15 eq_refl _ eq_refl _ _ _ eq_refl _ _ _ _ _) _ _)).
  - repeat (apply Forall_cons_2; [vm_compute; discriminate|]). apply Forall_nil_2.
  - vm_compute. reflexivity.
  - vm_compute. reflexivity.
  - vm_compute. discriminate.
  - vm_compute. reflexivity.
  - vm_compute. reflexivity.
  - apply Forall_cons_2; [vm_compute; split; [discriminate|reflexivity]|apply Forall_nil_2].
  - vm_compute. split; [discriminate|reflexivity].
  - vm_compute. reflexivity.
  - repeat (apply Forall_cons_2; [vm_compute; split; [discriminate|reflexivity]|]). apply Forall_nil_2.
  - vm_compute. reflexivity.
Defined.

Definition gone_conn : conn :=
  {| c_stream := Stream [] false [] (Some (TxLimit 0 false)); c_metrics := []; c_limiter := None |}.

Lemma server_lost_client_leaks_gauge_witness :
  exists c', serve_target demo_conn_env Core.Socks5 CMD_CONNECT (Domain "example.com" 443) gone_conn
             = (Fail (anyhow_of_io broken_pipe), c') /\ gauge (c_metrics c') = 1.
Proof.
  apply (server_lost_client_leaks_gauge demo_conn_env CMD_CONNECT (Domain "example.com" 443) gone_conn (UpPlain 7));
    vm_compute; reflexivity.
Defined.

Lemma server_forbidden_is_reported_witness :
  tx (c_stream (serve_target demo_conn_env Core.Socks5 CMD_CONNECT (Domain "rebind.test" 80) (demo_conn "")).2)
  = [5; 2; 0; 1; 0; 0; 0; 0; 0; 0].
Proof.
  apply (server_forbidden_is_reported demo_conn_env CMD_CONNECT 80 "rebind.test" (tcp_with_policy 10 false)
    (demo_conn "") [SocketAddr_new (V4 (Ipv4 127 0 0 1)) 80] (SocketAddr_new (V4 (Ipv4 127 0 0 1)) 80)).
  - reflexivity.
  - reflexivity.
  - vm_compute. reflexivity.
  - left.
  - vm_compute. reflexivity.
  - reflexivity.
Defined.
