(* ===== verification/Hello.v ===== *)
(** * The TLS ClientHello parser of REALITY
    Models crates/skadi-transport/src/reality/hello_parser.rs. The offsets are those
    of the code; an index or slice out of range is [Panic], and so is a loop that
    uses up its fuel, so that freedom from [Panic] says that the loops end too.
    Each iteration of a loop consumes at least three bytes: the length of the data
    is enough fuel. *)

From Stdlib Require Import Ascii String.
From stdpp Require Import base list list_numbers numbers strings.
From S2P Require Import Prelude Io.

Record ClientHelloInfo := {
  session_id : bytes;
  client_random : bytes;
  public_key : option bytes;
  server_name : option string
}.

(** [u16::from_be_bytes([l[i], l[i + 1]])], as a [usize]. *)
Definition be16_at {E} (l : bytes) (i : nat) : res E nat :=
  hi ← idx l i;
  lo ← idx l (S i);
  Ok (Z.to_nat (from_be16 hi lo)).

Fixpoint sni_loop (fuel : nat) (ext_data : bytes) (offset end_ : nat) : res anyhow (option string) :=
  match fuel with
  | O => Panic
  | S fuel =>
    if (offset + 3 <=? end_)%nat then
      name_type ← idx ext_data offset;
      name_len ← be16_at ext_data (offset + 1);
      let offset := (offset + 3)%nat in
      if (end_ <? offset + name_len)%nat then Ok None
      else if name_type =? 0x00 then
        name ← slice ext_data offset (offset + name_len);
        Ok (if utf8_valid name then Some (string_of_bytes name) else None)
      else sni_loop fuel ext_data (offset + name_len) end_
    else Ok None
  end.

Definition parse_sni (ext_data : bytes) : res anyhow (option string) :=
  if (length ext_data <? 2)%nat then Ok None else
  list_len ← be16_at ext_data 0;
  if (length ext_data <? 2 + list_len)%nat then Ok None else
  sni_loop (S (length ext_data)) ext_data 2 (2 + list_len).

Fixpoint key_share_loop (fuel : nat) (ext_data : bytes) (offset end_ : nat) : res anyhow (option bytes) :=
  match fuel with
  | O => Panic
  | S fuel =>
    if (offset + 4 <=? end_)%nat then
      group ← be16_at ext_data offset;
      key_len ← be16_at ext_data (offset + 2);
      let offset := (offset + 4)%nat in
      if (end_ <? offset + key_len)%nat then Ok None
      else if (group =? 0x001d)%nat && (key_len =? 32)%nat then
        key ← slice ext_data offset (offset + 32);
        Ok (Some key)
      else key_share_loop fuel ext_data (offset + key_len) end_
    else Ok None
  end.

Definition parse_key_share (ext_data : bytes) : res anyhow (option bytes) :=
  if (length ext_data <? 2)%nat then Ok None else
  shares_len ← be16_at ext_data 0;
  if (length ext_data <? 2 + shares_len)%nat then Ok None else
  key_share_loop (S (length ext_data)) ext_data 2 (2 + shares_len).

Definition found {X} (o : option X) : bool := match o with Some _ => true | None => false end.

Fixpoint extensions_loop (fuel : nat) (extensions : bytes) (offset : nat)
    (public_key : option bytes) (server_name : option string)
    : res anyhow (option bytes * option string) :=
  match fuel with
  | O => Panic
  | S fuel =>
    if (offset + 4 <=? length extensions)%nat then
      ext_type ← be16_at extensions offset;
      ext_len ← be16_at extensions (offset + 2);
      let offset := (offset + 4)%nat in
      if (length extensions <? offset + ext_len)%nat then Ok (public_key, server_name) else
      ext_data ← slice extensions offset (offset + ext_len);
      let offset := (offset + ext_len)%nat in
      found_now ←
        (if (ext_type =? 0x0000)%nat then
           name ← parse_sni ext_data; Ok (public_key, name)
         else if (ext_type =? 0x0033)%nat then
           key ← parse_key_share ext_data; Ok (key, server_name)
         else Ok (public_key, server_name));
      let '(public_key, server_name) := found_now in
      if found public_key && found server_name then Ok (public_key, server_name)
      else extensions_loop fuel extensions offset public_key server_name
    else Ok (public_key, server_name)
  end.

Definition parse_extensions (extensions : bytes) : res anyhow (option bytes * option string) :=
  extensions_loop (S (length extensions)) extensions 0 None None.

(** [return Err(anyhow!(msg))] when the buffer ends before [offset + n]. *)
Definition need (buf : bytes) (end_ : nat) (msg : string) : res anyhow unit :=
  if (length buf <? end_)%nat then Err (bail msg) else Ok tt.

(** From the session id on, at [offset]. *)
Definition parse_hello_tail (buf client_random : bytes) (offset : nat) : res anyhow (option ClientHelloInfo) :=
  _ ← need buf (S offset) "short buffer for session id len";
  session_id_len ← idx buf offset;
  let session_id_len := Z.to_nat session_id_len in
  let offset := S offset in
  _ ← need buf (offset + session_id_len) "short buffer for session id";
  session_id ← slice buf offset (offset + session_id_len);
  let offset := (offset + session_id_len)%nat in
  _ ← need buf (offset + 2) "short buffer for cipher suites len";
  cipher_suites_len ← be16_at buf offset;
  let offset := (offset + 2)%nat in
  _ ← need buf (offset + cipher_suites_len) "short buffer for cipher suites";
  let offset := (offset + cipher_suites_len)%nat in
  _ ← need buf (S offset) "short buffer for compression methods len";
  compression_methods_len ← idx buf offset;
  let compression_methods_len := Z.to_nat compression_methods_len in
  let offset := S offset in
  _ ← need buf (offset + compression_methods_len) "short buffer for compression methods";
  let offset := (offset + compression_methods_len)%nat in
  if (length buf <? offset + 2)%nat then
    Ok (Some {| session_id := session_id; client_random := client_random;
                public_key := None; server_name := None |})
  else
  extensions_len ← be16_at buf offset;
  let offset := (offset + 2)%nat in
  _ ← need buf (offset + extensions_len) "short buffer for extensions";
  extensions ← slice buf offset (offset + extensions_len);
  p ← parse_extensions extensions;
  let '(public_key, server_name) := p in
  Ok (Some {| session_id := session_id; client_random := client_random;
              public_key := public_key; server_name := server_name |}).

Definition parse_client_hello (buf : bytes) : res anyhow (option ClientHelloInfo) :=
  if (length buf <? 5)%nat then Ok None else
  b0 ← idx buf 0;
  if negb (b0 =? 0x16) then Ok None else
  record_len ← be16_at buf 3;
  if (length buf <? 5 + record_len)%nat then Ok None else
  let offset := 5%nat in
  _ ← need buf (offset + 4) "short buffer";
  kind ← idx buf offset;
  if negb (kind =? 0x01) then Ok None else
  let offset := (offset + 4)%nat in
  _ ← need buf (offset + 2) "short buffer for version";
  let offset := (offset + 2)%nat in
  _ ← need buf (offset + 32) "short buffer for random";
  client_random ← slice buf offset (offset + 32);
  parse_hello_tail buf client_random (offset + 32).

(** ** The messages *)

Inductive Ext :=
| ExtSni (names : list (Z * bytes))
| ExtKeyShare (shares : list (Z * bytes))
| ExtOther (ext_type : Z) (data : bytes).

(** A two-byte length and the data. *)
Definition vec16 (d : bytes) : bytes := to_be16 (Z.of_nat (length d)) ++ d.

Definition encode_name (p : Z * bytes) : bytes := [p.1] ++ vec16 p.2.
Definition encode_share (p : Z * bytes) : bytes := to_be16 p.1 ++ vec16 p.2.

Definition ext_data_of (e : Ext) : bytes :=
  match e with
  | ExtSni names => vec16 (concat (map encode_name names))
  | ExtKeyShare shares => vec16 (concat (map encode_share shares))
  | ExtOther _ d => d
  end.

Definition ext_type_of (e : Ext) : Z :=
  match e with ExtSni _ => 0x0000 | ExtKeyShare _ => 0x0033 | ExtOther t _ => t end.

Definition encode_ext (e : Ext) : bytes := to_be16 (ext_type_of e) ++ vec16 (ext_data_of e).

Record Hello := {
  h_head : bytes; (* the handshake length (three bytes) and the version (two) *)
  h_random : bytes;
  h_session : bytes;
  h_suites : bytes;
  h_compression : bytes;
  h_exts : list Ext
}.

Definition vec8 (d : bytes) : bytes := Z.of_nat (length d) :: d.

(** The handshake message; its session id starts at offset 39. *)
Definition encode_handshake (h : Hello) : bytes :=
  [0x01] ++ h_head h ++ h_random h ++ vec8 (h_session h) ++ vec16 (h_suites h) ++ vec8 (h_compression h)
  ++ vec16 (concat (map encode_ext (h_exts h))).

Definition encode_record (h : Hello) : bytes :=
  [0x16; 0x03; 0x01] ++ vec16 (encode_handshake h).

(** ** What they mean *)

(** The first host name, if it is text. *)
Fixpoint first_name (names : list (Z * bytes)) : option string :=
  match names with
  | [] => None
  | (t, n) :: names =>
    if t =? 0x00 then if utf8_valid n then Some (string_of_bytes n) else None else first_name names
  end.

(** The first X25519 share. *)
Fixpoint first_share (shares : list (Z * bytes)) : option bytes :=
  match shares with
  | [] => None
  | (g, k) :: shares =>
    if (g =? 0x001d) && (length k =? 32)%nat then Some k else first_share shares
  end.

(** The last name and share up to the first point where both are known. *)
Fixpoint scan (pk : option bytes) (sn : option string) (exts : list Ext) : option bytes * option string :=
  match exts with
  | [] => (pk, sn)
  | e :: exts =>
    let '(pk, sn) := match e with
                     | ExtSni names => (pk, first_name names)
                     | ExtKeyShare shares => (first_share shares, sn)
                     | ExtOther _ _ => (pk, sn)
                     end in
    if found pk && found sn then (pk, sn) else scan pk sn exts
  end.

(** Lengths that fit their fields; other extensions are not of the two types. *)
Definition name_ok (p : Z * bytes) : Prop := byte_ok p.1 /\ u16_ok (Z.of_nat (length p.2)).
Definition share_ok (p : Z * bytes) : Prop := u16_ok p.1 /\ u16_ok (Z.of_nat (length p.2)).

Definition ext_ok (e : Ext) : Prop :=
  u16_ok (Z.of_nat (length (ext_data_of e)))
  /\ match e with
     | ExtSni names => Forall name_ok names
     | ExtKeyShare shares => Forall share_ok shares
     | ExtOther t _ => u16_ok t /\ t <> 0x0000 /\ t <> 0x0033
     end.

Definition hello_ok (h : Hello) : Prop :=
  length (h_head h) = 5%nat /\ length (h_random h) = 32%nat
  /\ Z.of_nat (length (h_session h)) < 256 /\ u16_ok (Z.of_nat (length (h_suites h)))
  /\ Z.of_nat (length (h_compression h)) < 256
  /\ Forall ext_ok (h_exts h) /\ u16_ok (Z.of_nat (length (encode_handshake h))).

(** ** The parser never panics *)

Lemma be16_at_lt {E} (l : bytes) i : (S i < length l)%nat -> exists n, @be16_at E l i = Ok n.
Proof.
  intros H. unfold be16_at. destruct (@idx_lt E l i) as (hi & -> & _); [lia|].
  destruct (@idx_lt E l (S i)) as (lo & -> & _); [lia|]. by eexists.
Qed.

(** One step of a panic-freedom proof of this file. *)
Ltac hello_step :=
  match goal with
  | |- context [@be16_at ?E ?l ?i] =>
      let n := fresh "n" in let H := fresh "Hn" in
      destruct (@be16_at_lt E l i) as [n H]; [lia|rewrite H; cbn [mbind res_bind]]
  | |- context [need ?b ?e ?m] => unfold need
  | _ => no_panic_step
  end.
Ltac hello_no_panic := repeat first [ done | hello_step ].

Lemma sni_loop_no_panic fuel d offset end_ :
  (end_ <= length d)%nat -> (length d - offset < fuel)%nat -> sni_loop fuel d offset end_ <> Panic.
Proof.
  revert offset. induction fuel as [|fuel IH]; intros offset He Hf; [lia|]. cbn [sni_loop].
  hello_no_panic. apply IH; lia.
Qed.

Lemma parse_sni_no_panic d : parse_sni d <> Panic.
Proof. unfold parse_sni. hello_no_panic. apply sni_loop_no_panic; lia. Qed.

Lemma key_share_loop_no_panic fuel d offset end_ :
  (end_ <= length d)%nat -> (length d - offset < fuel)%nat -> key_share_loop fuel d offset end_ <> Panic.
Proof.
  revert offset. induction fuel as [|fuel IH]; intros offset He Hf; [lia|]. cbn [key_share_loop].
  hello_no_panic. apply IH; lia.
Qed.

Lemma parse_key_share_no_panic d : parse_key_share d <> Panic.
Proof. unfold parse_key_share. hello_no_panic. apply key_share_loop_no_panic; lia. Qed.

Lemma extensions_loop_no_panic fuel d offset pk sn :
  (length d - offset < fuel)%nat -> extensions_loop fuel d offset pk sn <> Panic.
Proof.
  revert offset pk sn. induction fuel as [|fuel IH]; intros offset pk sn Hf; [lia|]. cbn [extensions_loop].
  destruct (offset + 4 <=? length d)%nat eqn:E; [|done]. bool_hyps.
  do 2 hello_step. destruct (_ <? _)%nat eqn:E2; [done|]. bool_hyps. hello_step.
  set (data := take _ _). pose proof (parse_sni_no_panic data). pose proof (parse_key_share_no_panic data).
  destruct (n0 =? 0)%nat; [|destruct (n0 =? 51)%nat].
  - destruct (parse_sni data); cbn [mbind res_bind]; [|done..]. destruct (_ && _); [done|]. apply IH. lia.
  - destruct (parse_key_share data); cbn [mbind res_bind]; [|done..]. destruct (_ && _); [done|]. apply IH. lia.
  - cbn [mbind res_bind]. destruct (_ && _); [done|]. apply IH. lia.
Qed.

Lemma parse_hello_tail_no_panic buf random offset : parse_hello_tail buf random offset <> Panic.
Proof.
  unfold parse_hello_tail, parse_extensions. hello_no_panic.
  match goal with |- context [extensions_loop ?f ?d ?o ?p ?s] =>
    pose proof (extensions_loop_no_panic f d o p s ltac:(lia)); by destruct (extensions_loop f d o p s) as [[]| |]
  end.
Qed.

Lemma parse_client_hello_no_panic buf : parse_client_hello buf <> Panic.
Proof. unfold parse_client_hello. hello_no_panic. apply parse_hello_tail_no_panic. Qed.

(** ** Encoded messages parse *)

Lemma idx_at {E} (l p s : bytes) x i : l = p ++ x :: s -> i = length p -> @idx E l i = Ok x.
Proof. intros -> ->. by apply idx_app_mid. Qed.

Lemma be16_at_app {E} (l p s : bytes) n i :
  l = p ++ to_be16 n ++ s -> i = length p -> u16_ok n -> @be16_at E l i = Ok (Z.to_nat n).
Proof.
  intros -> -> Hn. unfold be16_at, to_be16. cbn [app].
  rewrite (idx_at _ p (n mod 256 :: s) (n / 256 mod 256) (length p)) by done. cbn [mbind res_bind].
  rewrite (idx_at _ (p ++ [n / 256 mod 256]) s (n mod 256)); [|by rewrite <- app_assoc|rewrite length_app; cbn; lia].
  cbn [mbind res_bind]. by rewrite from_to_be16.
Qed.

(** The length field of a vector. *)
Lemma be16_at_vec {E} (l p d s : bytes) i :
  l = p ++ vec16 d ++ s -> i = length p -> u16_ok (Z.of_nat (length d)) -> @be16_at E l i = Ok (length d).
Proof.
  intros -> -> Hd. unfold vec16. rewrite <- app_assoc.
  rewrite (be16_at_app _ p (d ++ s) (Z.of_nat (length d))) by done. by rewrite Nat2Z.id.
Qed.

Lemma slice_at {E} (l p m s : bytes) a b :
  l = p ++ m ++ s -> a = length p -> b = (length p + length m)%nat -> @slice E l a b = Ok m.
Proof. intros -> -> ->. by apply slice_app_mid. Qed.

Lemma length_vec16 d : length (vec16 d) = (2 + length d)%nat.
Proof. done. Qed.

Lemma length_to_be16 n : length (to_be16 n) = 2%nat.
Proof. done. Qed.

(** Reassociate and compare. *)
Ltac same_bytes := unfold vec16, vec8; repeat (progress (cbn [app]; rewrite <- ?app_assoc)); reflexivity.
Ltac same_offset := rewrite ?length_app, ?length_vec16, ?length_to_be16; cbn [length app];
  rewrite ?length_app, ?length_vec16, ?length_to_be16; lia.

Lemma sni_loop_names fuel l p names s offset end_ :
  l = p ++ concat (map encode_name names) ++ s -> offset = length p ->
  end_ = (length p + length (concat (map encode_name names)))%nat ->
  Forall name_ok names -> (length names < fuel)%nat ->
  sni_loop fuel l offset end_ = Ok (first_name names).
Proof.
  revert fuel p offset. induction names as [|[t n] names IH]; intros fuel p offset Hl -> He Hok Hf;
    (destruct fuel as [|fuel]; [cbn in Hf; lia|]); cbn [sni_loop].
  - cbn [map concat length] in He. destruct (_ <=? _)%nat eqn:E; bool_hyps; [lia|done].
  - apply Forall_cons in Hok as [[Ht Hn] Hok]. cbn [fst snd] in Ht, Hn. cbn [map concat] in Hl, He.
    set (rest := concat (map encode_name names)) in *. unfold encode_name in Hl, He. cbn [fst snd] in Hl, He.
    rewrite !length_app, length_vec16 in He. cbn [length] in He.
    destruct (length p + 3 <=? end_)%nat eqn:E; bool_hyps; [|lia].
    rewrite (idx_at l p (vec16 n ++ rest ++ s) t) by (done || (rewrite Hl; same_bytes)). cbn [mbind res_bind].
    rewrite (be16_at_vec l (p ++ [t]) n (rest ++ s)) by (done || same_offset || (rewrite Hl; same_bytes)).
    cbn [mbind res_bind]. destruct (_ <? _)%nat eqn:E2; bool_hyps; [lia|]. cbn [first_name].
    destruct (t =? 0).
    + rewrite (slice_at l (p ++ [t] ++ to_be16 (Z.of_nat (length n))) n (rest ++ s))
        by (same_offset || (rewrite Hl; same_bytes)). done.
    + apply (IH fuel (p ++ [t] ++ vec16 n)); [rewrite Hl; same_bytes|same_offset|same_offset|done|cbn in Hf; lia].
Qed.

Lemma parse_sni_names names :
  Forall name_ok names -> u16_ok (Z.of_nat (length (concat (map encode_name names)))) ->
  parse_sni (vec16 (concat (map encode_name names))) = Ok (first_name names).
Proof.
  intros Hok Hu. set (d := concat (map encode_name names)) in *. unfold parse_sni. rewrite length_vec16.
  destruct (_ <? _)%nat eqn:E; bool_hyps; [lia|].
  rewrite (be16_at_vec _ [] d []) by (done || (cbn [app]; by rewrite app_nil_r)). cbn [mbind res_bind].
  destruct (_ <? _)%nat eqn:E2; bool_hyps; [lia|].
  apply (sni_loop_names _ _ (to_be16 (Z.of_nat (length d))) names []); [|done|done|done|].
  - unfold vec16. fold d. by rewrite app_nil_r.
  - assert (length names <= length d)%nat; [|lia]. unfold d. clear.
    induction names as [|[t n] names IH]; [done|]. cbn [map concat]. rewrite length_app. cbn. lia.
Qed.

Lemma key_share_loop_shares fuel l p shares s offset end_ :
  l = p ++ concat (map encode_share shares) ++ s -> offset = length p ->
  end_ = (length p + length (concat (map encode_share shares)))%nat ->
  Forall share_ok shares -> (length shares < fuel)%nat ->
  key_share_loop fuel l offset end_ = Ok (first_share shares).
Proof.
  revert fuel p offset. induction shares as [|[g k] shares IH]; intros fuel p offset Hl -> He Hok Hf;
    (destruct fuel as [|fuel]; [cbn in Hf; lia|]); cbn [key_share_loop].
  - cbn [map concat length] in He. destruct (_ <=? _)%nat eqn:E; bool_hyps; [lia|done].
  - apply Forall_cons in Hok as [[Hg Hk] Hok]. cbn [fst snd] in Hg, Hk. cbn [map concat] in Hl, He.
    set (rest := concat (map encode_share shares)) in *. unfold encode_share in Hl, He. cbn [fst snd] in Hl, He.
    rewrite !length_app, length_vec16, length_to_be16 in He.
    destruct (length p + 4 <=? end_)%nat eqn:E; bool_hyps; [|lia].
    rewrite (be16_at_app l p (vec16 k ++ rest ++ s) g (length p)) by (done || (rewrite Hl; same_bytes)). cbn [mbind res_bind].
    rewrite (be16_at_vec l (p ++ to_be16 g) k (rest ++ s)) by (done || same_offset || (rewrite Hl; same_bytes)).
    cbn [mbind res_bind]. destruct (_ <? _)%nat eqn:E2; bool_hyps; [lia|]. cbn [first_share].
    replace (Z.to_nat g =? 29)%nat with (g =? 29)
      by (unfold u16_ok in Hg; destruct (g =? 29) eqn:E3, (Z.to_nat g =? 29)%nat eqn:E4; bool_hyps; done || lia).
    destruct (_ && _) eqn:E3; bool_hyps.
    + rewrite (slice_at l (p ++ to_be16 g ++ to_be16 (Z.of_nat (length k))) k (rest ++ s))
        by (same_offset || (rewrite Hl; same_bytes)). done.
    + apply (IH fuel (p ++ to_be16 g ++ vec16 k));
        [rewrite Hl; same_bytes|same_offset|same_offset|done|cbn in Hf; lia].
Qed.

(** A list of non-empty encodings is not longer than its concatenation. *)
Lemma concat_length {X} (f : X -> bytes) (l : list X) :
  (forall x, f x <> []) -> (length l <= length (concat (map f l)))%nat.
Proof.
  intros Hf. induction l as [|x l IH]; cbn [map concat]; [done|]. rewrite length_app. cbn [length].
  specialize (Hf x). destruct (f x); [done|]. cbn [length]. lia.
Qed.

Lemma parse_key_share_shares shares :
  Forall share_ok shares -> u16_ok (Z.of_nat (length (concat (map encode_share shares)))) ->
  parse_key_share (vec16 (concat (map encode_share shares))) = Ok (first_share shares).
Proof.
  intros Hok Hu. pose proof (concat_length encode_share shares ltac:(done)) as Hc.
  set (d := concat (map encode_share shares)) in *. unfold parse_key_share. rewrite length_vec16.
  destruct (_ <? _)%nat eqn:E; bool_hyps; [lia|].
  rewrite (be16_at_vec _ [] d []) by (done || (cbn [app]; by rewrite app_nil_r)). cbn [mbind res_bind].
  destruct (_ <? _)%nat eqn:E2; bool_hyps; [lia|].
  apply (key_share_loop_shares _ _ (to_be16 (Z.of_nat (length d))) shares []); [|done|done|done|lia].
  unfold vec16. fold d. by rewrite app_nil_r.
Qed.

(** What one extension contributes. *)
Definition ext_result (pk : option bytes) (sn : option string) (e : Ext) : option bytes * option string :=
  match e with
  | ExtSni names => (pk, first_name names)
  | ExtKeyShare shares => (first_share shares, sn)
  | ExtOther _ _ => (pk, sn)
  end.

Lemma ext_type_u16 e : ext_ok e -> u16_ok (ext_type_of e).
Proof. intros [_ H]. destruct e; [unfold u16_ok; cbn; lia..|by destruct H]. Qed.

Lemma ext_data_parsed e pk sn :
  ext_ok e ->
  (if (Z.to_nat (ext_type_of e) =? 0)%nat then name ← parse_sni (ext_data_of e); Ok (pk, name)
   else if (Z.to_nat (ext_type_of e) =? 51)%nat then key ← parse_key_share (ext_data_of e); Ok (key, sn)
   else Ok (pk, sn)) = Ok (ext_result pk sn e).
Proof.
  intros [Hl Hok]. destruct e as [names|shares|t d]; cbn [ext_type_of ext_data_of ext_result] in *.
  - cbn [Z.to_nat Nat.eqb]. rewrite parse_sni_names; [done|done|].
    rewrite length_vec16 in Hl. unfold u16_ok in *. lia.
  - change (Z.to_nat 51) with 51%nat. cbn [Nat.eqb]. rewrite parse_key_share_shares; [done|done|].
    rewrite length_vec16 in Hl. unfold u16_ok in *. lia.
  - destruct Hok as (Ht & H0 & H51). unfold u16_ok in Ht.
    destruct (_ =? 0)%nat eqn:E; bool_hyps; [lia|]. destruct (_ =? 51)%nat eqn:E2; bool_hyps; [lia|done].
Qed.

Lemma extensions_loop_exts fuel l p exts offset pk sn :
  l = p ++ concat (map encode_ext exts) -> offset = length p ->
  Forall ext_ok exts -> (length exts < fuel)%nat ->
  extensions_loop fuel l offset pk sn = Ok (scan pk sn exts).
Proof.
  revert fuel p offset pk sn.
  induction exts as [|e exts IH]; intros fuel p offset pk sn Hl -> Hok Hf;
    (destruct fuel as [|fuel]; [cbn in Hf; lia|]); cbn [extensions_loop].
  - cbn [map concat] in Hl. rewrite Hl, app_nil_r. destruct (_ <=? _)%nat eqn:E; bool_hyps; [lia|done].
  - apply Forall_cons in Hok as [He Hok]. cbn [map concat] in Hl.
    set (rest := concat (map encode_ext exts)) in *. unfold encode_ext in Hl. pose proof (ext_type_u16 e He) as Ht.
    pose proof He as [Hlen _].
    assert (Hll : length l = (length p + 4 + length (ext_data_of e) + length rest)%nat)
      by (rewrite Hl; same_offset).
    destruct (length p + 4 <=? length l)%nat eqn:E; bool_hyps; [|lia].
    rewrite (be16_at_app l p (vec16 (ext_data_of e) ++ rest) (ext_type_of e) (length p)) by (done || (rewrite Hl; same_bytes)).
    cbn [mbind res_bind].
    rewrite (be16_at_vec l (p ++ to_be16 (ext_type_of e)) (ext_data_of e) rest)
      by (done || same_offset || (rewrite Hl; same_bytes)).
    cbn [mbind res_bind]. destruct (_ <? _)%nat eqn:E2; bool_hyps; [lia|].
    rewrite (slice_at l (p ++ to_be16 (ext_type_of e) ++ to_be16 (Z.of_nat (length (ext_data_of e))))
      (ext_data_of e) rest) by (same_offset || (rewrite Hl; same_bytes)).
    cbn [mbind res_bind]. rewrite (ext_data_parsed e pk sn He). cbn [mbind res_bind scan].
    change (match e with ExtSni names => (pk, first_name names) | ExtKeyShare shares => (first_share shares, sn)
            | ExtOther _ _ => (pk, sn) end) with (ext_result pk sn e).
    destruct (ext_result pk sn e) as [pk' sn']. destruct (_ && _); [done|].
    apply (IH fuel (p ++ encode_ext e)); [rewrite Hl; same_bytes|unfold encode_ext; same_offset|done|cbn in Hf; lia].
Qed.

Lemma parse_extensions_exts exts :
  Forall ext_ok exts -> parse_extensions (concat (map encode_ext exts)) = Ok (scan None None exts).
Proof.
  intros Hok. unfold parse_extensions. apply (extensions_loop_exts _ _ [] exts); [done|done|done|].
  pose proof (concat_length encode_ext exts ltac:(done)). lia.
Qed.

Lemma need_ok buf e msg : (e <= length buf)%nat -> need buf e msg = Ok tt.
Proof. intros H. unfold need. destruct (_ <? _)%nat eqn:E; bool_hyps; [lia|done]. Qed.

Lemma length_vec8 d : length (vec8 d) = S (length d).
Proof. done. Qed.

Lemma parse_hello_tail_encoded buf p random sess suites comp exts trailing :
  buf = p ++ vec8 sess ++ vec16 suites ++ vec8 comp ++ vec16 (concat (map encode_ext exts)) ++ trailing ->
  u16_ok (Z.of_nat (length suites)) ->
  Forall ext_ok exts -> u16_ok (Z.of_nat (length (concat (map encode_ext exts)))) ->
  parse_hello_tail buf random (length p) =
    Ok (Some {| session_id := sess; client_random := random;
                public_key := (scan None None exts).1; server_name := (scan None None exts).2 |}).
Proof.
  intros Hb Hsu Hok Hx. set (e := concat (map encode_ext exts)) in *.
  assert (Hl : length buf = (length p + (1 + length sess) + (2 + length suites) + (1 + length comp)
                             + (2 + length e) + length trailing)%nat)
    by (rewrite Hb, !length_app, !length_vec8, !length_vec16; lia).
  unfold parse_hello_tail. rewrite need_ok by lia. cbn [mbind res_bind].
  rewrite (idx_at buf p (sess ++ vec16 suites ++ vec8 comp ++ vec16 e ++ trailing) (Z.of_nat (length sess)))
    by (done || (rewrite Hb; same_bytes)).
  cbn [mbind res_bind]. rewrite Nat2Z.id, need_ok by lia. cbn [mbind res_bind].
  rewrite (slice_at buf (p ++ [Z.of_nat (length sess)]) sess (vec16 suites ++ vec8 comp ++ vec16 e ++ trailing))
    by (same_offset || (rewrite Hb; same_bytes)).
  cbn [mbind res_bind]. rewrite need_ok by lia. cbn [mbind res_bind].
  rewrite (be16_at_vec buf (p ++ vec8 sess) suites (vec8 comp ++ vec16 e ++ trailing))
    by (done || (rewrite length_app, length_vec8; lia) || (rewrite Hb; same_bytes)).
  cbn [mbind res_bind]. rewrite !need_ok by lia. cbn [mbind res_bind].
  rewrite (idx_at buf (p ++ vec8 sess ++ vec16 suites) (comp ++ vec16 e ++ trailing) (Z.of_nat (length comp)))
    by ((rewrite !length_app, length_vec8, length_vec16; lia) || (rewrite Hb; same_bytes)).
  cbn [mbind res_bind]. rewrite Nat2Z.id, need_ok by lia. cbn [mbind res_bind].
  destruct (_ <? _)%nat eqn:E; bool_hyps; [lia|].
  rewrite (be16_at_vec buf (p ++ vec8 sess ++ vec16 suites ++ vec8 comp) e trailing)
    by (done || (rewrite !length_app, !length_vec8, length_vec16; lia) || (rewrite Hb; same_bytes)).
  cbn [mbind res_bind]. rewrite need_ok by lia. cbn [mbind res_bind].
  rewrite (slice_at buf (p ++ vec8 sess ++ vec16 suites ++ vec8 comp ++ to_be16 (Z.of_nat (length e))) e trailing)
    by ((rewrite !length_app, !length_vec8, length_vec16, length_to_be16; lia) || (rewrite Hb; same_bytes)).
  cbn [mbind res_bind]. unfold e. rewrite parse_extensions_exts by done. cbn [mbind res_bind].
  by destruct (scan None None exts).
Qed.

Lemma length_handshake h :
  hello_ok h -> length (encode_handshake h) = (38 + length (vec8 (h_session h) ++ vec16 (h_suites h)
    ++ vec8 (h_compression h) ++ vec16 (concat (map encode_ext (h_exts h)))))%nat.
Proof.
  intros (H5 & H32 & _). unfold encode_handshake. rewrite (length_app [_]), (length_app (h_head h)), (length_app (h_random h)).
  cbn [length]. lia.
Qed.

Lemma parse_encoded h trailing :
  hello_ok h ->
  parse_client_hello (encode_record h ++ trailing) =
    Ok (Some {| session_id := h_session h; client_random := h_random h;
                public_key := (scan None None (h_exts h)).1; server_name := (scan None None (h_exts h)).2 |}).
Proof.
  intros Hok. pose proof (length_handshake h Hok) as Hlh.
  pose proof Hok as (H5 & H32 & Hs & Hsu & Hc & Hx & Hu).
  set (hs := encode_handshake h) in *. set (buf := encode_record h ++ trailing).
  assert (Hb : buf = [22; 3; 1] ++ vec16 hs ++ trailing) by done.
  assert (Hl : length buf = (5 + length hs + length trailing)%nat)
    by (rewrite Hb, !length_app, length_vec16; cbn [length]; lia).
  unfold parse_client_hello. destruct (_ <? _)%nat eqn:E; bool_hyps; [lia|].
  rewrite (idx_at buf [] ([3; 1] ++ vec16 hs ++ trailing) 22 0) by done. cbn [mbind res_bind].
  change (negb (22 =? 22)) with false. cbv iota.
  rewrite (be16_at_vec buf [22; 3; 1] hs trailing) by done. cbn [mbind res_bind].
  destruct (_ <? _)%nat eqn:E2; bool_hyps; [lia|]. rewrite need_ok by lia. cbn [mbind res_bind].
  assert (Hb' : buf = ([22; 3; 1] ++ to_be16 (Z.of_nat (length hs))) ++ [1] ++ h_head h ++ h_random h
    ++ vec8 (h_session h) ++ vec16 (h_suites h) ++ vec8 (h_compression h)
    ++ vec16 (concat (map encode_ext (h_exts h))) ++ trailing)
    by (rewrite Hb; unfold vec16 at 1; unfold hs, encode_handshake; by rewrite <- !app_assoc).
  set (start := [22; 3; 1] ++ to_be16 (Z.of_nat (length hs))) in *.
  assert (Hst : length start = 5%nat) by done.
  rewrite (idx_at buf start (h_head h ++ h_random h ++ vec8 (h_session h) ++ vec16 (h_suites h)
    ++ vec8 (h_compression h) ++ vec16 (concat (map encode_ext (h_exts h))) ++ trailing) 1 5) by done.
  cbn [mbind res_bind]. change (negb (1 =? 1)) with false. cbv iota. rewrite !need_ok by lia. cbn [mbind res_bind].
  rewrite (slice_at buf (start ++ [1] ++ h_head h) (h_random h) (vec8 (h_session h) ++ vec16 (h_suites h)
    ++ vec8 (h_compression h) ++ vec16 (concat (map encode_ext (h_exts h))) ++ trailing)); cycle 1.
  { by rewrite Hb', <- !app_assoc. }
  { rewrite !length_app. cbn [length]. lia. }
  { rewrite !length_app. cbn [length]. lia. }
  cbn [mbind res_bind].
  replace (5 + 4 + 2 + 32)%nat with (length (start ++ [1] ++ h_head h ++ h_random h))
    by (rewrite !length_app; cbn [length]; lia).
  apply (parse_hello_tail_encoded buf (start ++ [1] ++ h_head h ++ h_random h) (h_random h) (h_session h)
    (h_suites h) (h_compression h) (h_exts h) trailing); [by rewrite Hb', <- !app_assoc|done|done|].
  rewrite !length_app, !length_vec16, !length_vec8 in Hlh. unfold u16_ok in *. lia.
Qed.

(** ** Properties *)

(** the parser is total. Whatever bytes a prober sends, the parser ends with a
    hello, with nothing or with an error: no index or slice is out of bounds and no
    loop runs on. *)
Theorem hello_parser_total (buf : bytes) : parse_client_hello buf <> Panic.
Proof. apply parse_client_hello_no_panic. Qed.

(** the parser reads what the messages mean. For every ClientHello whose parts
    fit their fields, with any extensions in any order and anything after it, the
    parser answers its random, its session id, and the server name and X25519 share
    that its extensions carry. *)
Theorem hello_parser_reads_encoding (h : Hello) (trailing : bytes) (Hok : hello_ok h) :
  parse_client_hello (encode_record h ++ trailing) =
    Ok (Some {| session_id := h_session h; client_random := h_random h;
                public_key := (scan None None (h_exts h)).1; server_name := (scan None None (h_exts h)).2 |}).
Proof. by apply parse_encoded. Qed.

Definition demo_hello : Hello :=
  {| h_head := [0; 0; 120; 3; 3]; h_random := replicate 32 7; h_session := replicate 32 9;
     h_suites := [0x13; 0x01]; h_compression := [0];
     h_exts := [ExtOther 10 [0; 2; 0; 29]; ExtKeyShare [(0x11ec, [1; 2; 3]); (0x1d, replicate 32 5)];
                ExtSni [(0, bytes_of_string "example.com")]; ExtSni []] |}.

Lemma demo_hello_ok : hello_ok demo_hello.
Proof.
  assert (Hu : forall n, bool_decide (u16_ok n) = true -> u16_ok n) by (intros n H; exact (bool_decide_eq_true_1 _ H)).
  unfold hello_ok. split_and!; try (vm_compute; reflexivity); try (apply Hu; vm_compute; reflexivity).
  repeat apply Forall_cons_2; try apply Forall_nil_2; unfold ext_ok;
    (split; [apply Hu; vm_compute; reflexivity|]); cbn [demo_hello].
  - split_and!; [apply Hu; vm_compute; reflexivity|done|done].
  - repeat apply Forall_cons_2; try apply Forall_nil_2; split; apply Hu; vm_compute; reflexivity.
  - repeat apply Forall_cons_2; try apply Forall_nil_2. split; [unfold byte_ok; cbn; lia|].
    apply Hu; vm_compute; reflexivity.
  - apply Forall_nil_2.
Qed.

Lemma hello_parser_reads_encoding_witness :
  parse_client_hello (encode_record demo_hello ++ [1; 2]) =
    Ok (Some {| session_id := replicate 32 9; client_random := replicate 32 7;
                public_key := Some (replicate 32 5); server_name := Some "example.com"%string |}).
Proof. exact (hello_parser_reads_encoding demo_hello [1; 2] demo_hello_ok). Defined.
