(* ===== verification/Reality.v ===== *)
(** * REALITY: authentication and fallback
    Models crates/skadi-transport/src/reality/auth.rs, client_auth.rs, prefixed.rs
    and the inbound side of server.rs. The primitives of the crates x25519-dalek,
    hkdf, aes-gcm and hex are the fields of a class, with the laws their
    documentation states; what follows a verified hello is in RealityCert. *)

From Stdlib Require Import Ascii String.
From stdpp Require Import base list list_numbers numbers strings.
From S2P Require Import Prelude Io Relay Hello.

Class RealityCrypto := {
  (** [secret.diffie_hellman(&public)] and [PublicKey::from(&secret)] *)
  x25519 : bytes -> bytes -> bytes;
  x25519_public : bytes -> bytes;
  (** [Hkdf::<Sha256>::new(Some(salt), ikm).expand(info, &mut [0; len])] *)
  hkdf_expand : bytes -> bytes -> bytes -> nat -> option bytes;
  (** AES-256-GCM: key, nonce, additional data, message *)
  aes_seal : bytes -> bytes -> bytes -> bytes -> option bytes;
  aes_open : bytes -> bytes -> bytes -> bytes -> option bytes;
  hex_encode : bytes -> string;
  x25519_agree a b : x25519 a (x25519_public b) = x25519 b (x25519_public a);
  x25519_public_length a : length (x25519_public a) = 32%nat;
  hkdf_expand_ok salt ikm info n :
    (n <= 255 * 32)%nat -> exists k, hkdf_expand salt ikm info n = Some k /\ length k = n;
  aes_seal_ok key nonce aad msg :
    length key = 32%nat -> exists c, aes_seal key nonce aad msg = Some c /\ length c = (length msg + 16)%nat;
  aes_open_seal key nonce aad msg c : aes_seal key nonce aad msg = Some c -> aes_open key nonce aad c = Some msg;
  hex_encode_digits l : hex_encode l = foldr (fun b s => fmt_02x b +:+ s) EmptyString l
}.

(** [for i in 0..32 { if pos + i < aad.len() { aad[pos + i] = 0; } }]. *)
Definition zero_32 (aad : bytes) (pos : nat) : bytes :=
  foldl (fun aad i => <[(pos + i)%nat := 0]> aad) aad (seq 0 32).

(** The handshake message of a record, or the bytes themselves. *)
Definition handshake_msg (full : bytes) : res anyhow bytes :=
  if bool_decide (head full = Some 0x16) then slice_from full 5 else Ok full.

Definition REALITY_INFO : bytes := bytes_of_string "REALITY".

(** ** auth.rs *)

Section Server.
Context `{RealityCrypto}.

Definition verify_client_reality (info : ClientHelloInfo) (full_hello private_key : bytes)
    (short_ids : list bytes) : res anyhow (option bytes) :=
  if negb (length (session_id info) =? 32)%nat || negb (found (public_key info)) then Ok None else
  match public_key info with
  | None => Ok None
  | Some client_pub =>
    if negb (length client_pub =? 32)%nat then Ok None else
    let shared := x25519 private_key client_pub in
    match hkdf_expand (take 20 (client_random info)) shared REALITY_INFO 32 with
    | None => Ok None
    | Some auth_key =>
      if negb (length auth_key =? 32)%nat then Ok None else
      let nonce := take 12 (drop 20 (client_random info)) in
      handshake ← handshake_msg full_hello;
      let aad := match str_find (hex_encode (session_id info)) (hex_encode handshake) with
                 | Some p => zero_32 handshake (p / 2)
                 | None => handshake
                 end in
      match aes_open auth_key nonce aad (session_id info) with
      | None => Ok None
      | Some buf =>
        if (length buf <? 16)%nat then Ok None else
        a ← slice buf 4 12;
        b ← slice buf 8 16;
        Ok (if existsb (fun sid => bool_decide (sid = a) || bool_decide (sid = b)) short_ids
            then Some auth_key else None)
      end
    end
  end.
End Server.

(** ** client_auth.rs *)

Record RealityClientAuth := { server_public_key : bytes; short_id : bytes }.

Inductive RealityClientAuthError := InvalidShortId | CipherError | EncryptError.

Section Client.
Context `{RealityCrypto}.

Definition derive_auth_key (self : RealityClientAuth) (client_secret client_random : bytes) : res anyhow bytes :=
  let shared := x25519 client_secret (server_public_key self) in
  match hkdf_expand (take 20 client_random) shared REALITY_INFO 32 with
  | Some auth_key => Ok auth_key
  | None => Panic
  end.

Definition session_id_offset_in_hello_aad (hello_aad : bytes) : res RealityClientAuthError (option nat) :=
  p ← (if bool_decide (head hello_aad = Some 0x16)
       then h ← slice_from hello_aad 5; Ok (5%nat, h)
       else Ok (O, hello_aad));
  let '(base, handshake) := p in
  if (length handshake <? 40)%nat || negb (bool_decide (head handshake = Some 0x01)) then Ok None
  else Ok (Some (base + 4 + 2 + 32 + 1)%nat).

(** [ts] is the time in seconds since the epoch as a big-endian [u32]. *)
Definition session_plaintext (short_id ts : bytes) : bytes :=
  [0x01; 0x08; 0x00; 0x00] ++ ts ++ short_id ++ replicate (8 - length short_id) 0.

Definition encrypt_session_id (self : RealityClientAuth) (auth_key client_random hello_aad ts : bytes)
    : res RealityClientAuthError bytes :=
  if (length (short_id self) =? 0)%nat || (8 <? length (short_id self))%nat then Err InvalidShortId else
  if negb (length auth_key =? 32)%nat then Err CipherError else
  let nonce := take 12 (drop 20 client_random) in
  let plaintext := session_plaintext (short_id self) ts in
  o ← session_id_offset_in_hello_aad hello_aad;
  let aad := match o with Some offset => zero_32 hello_aad offset | None => hello_aad end in
  match aes_seal auth_key nonce aad plaintext with
  | None => Err EncryptError
  | Some sealed => if (length sealed =? 32)%nat then Ok sealed else Err EncryptError
  end.

Definition zero_session_id_aad_handshake (record : bytes) (offset : nat) : res anyhow bytes :=
  handshake ← handshake_msg record;
  Ok (zero_32 handshake offset).

Definition find_session_id_offset (handshake sid : bytes) : option nat :=
  if (length sid =? 0)%nat then None
  else (fun p => p / 2)%nat <$> str_find (hex_encode sid) (hex_encode handshake).

Definition session_id_offset_in_handshake (record : bytes) : res anyhow (option nat) :=
  match parse_client_hello record with
  | Ok (Some info) =>
    handshake ← handshake_msg record;
    Ok (find_session_id_offset handshake (session_id info))
  | Panic => Panic
  | _ => Ok None
  end.
End Client.

(** ** prefixed.rs *)

Record BufferedPrefixStream := { bp_prefix : bytes; bp_position : nat; bp_inner : stream }.

Definition buffered_new (prefix : bytes) (inner : stream) : BufferedPrefixStream :=
  {| bp_prefix := prefix; bp_position := O; bp_inner := inner |}.

(** [poll_read] into [remaining] free bytes; the inner stream has [avail] ready. *)
Definition buffered_poll_read (this : BufferedPrefixStream) (remaining avail : nat)
    : bytes * BufferedPrefixStream :=
  if (bp_position this <? length (bp_prefix this))%nat then
    let data := drop (bp_position this) (bp_prefix this) in
    let n := Nat.min remaining (length data) in
    (take n data,
     {| bp_prefix := bp_prefix this; bp_position := (bp_position this + n)%nat; bp_inner := bp_inner this |})
  else
    let n := Nat.min remaining avail in
    (take n (rx (bp_inner this)),
     {| bp_prefix := bp_prefix this; bp_position := bp_position this;
        bp_inner := with_rx (drop n (rx (bp_inner this))) (bp_inner this) |}).

(** ** server.rs *)

Inductive RealityError :=
| Handshake (msg : string)
| HandshakeTimeout
| EarlyClose
| FallbackHandled
| OtherError (e : anyhow).

(** What the socket gives within the handshake timeout, read by read; an empty
    chunk is the end of the stream. *)
Abbreviation sock_reads := (list (io_error + bytes)).

Fixpoint fill_header (buffer : bytes) (reads : sock_reads) : (RealityError + bytes) * sock_reads :=
  if (5 <=? length buffer)%nat then (inr buffer, reads) else
  match reads with
  | [] => (inl HandshakeTimeout, [])
  | inl e :: reads => (inl (OtherError (anyhow_of_io e)), reads)
  | inr [] :: reads => (inl EarlyClose, reads)
  | inr chunk :: reads => fill_header (buffer ++ chunk) reads
  end.

Fixpoint fill_record (needed : nat) (buffer : bytes) (reads : sock_reads) : (RealityError + bytes) * sock_reads :=
  if (length buffer <? needed)%nat && (Z.of_nat (length buffer) <? 16384) then
    match reads with
    | [] => (inl HandshakeTimeout, [])
    | inl e :: reads => (inl (OtherError (anyhow_of_io e)), reads)
    | inr [] :: reads => (inr buffer, reads)
    | inr chunk :: reads => fill_record needed (buffer ++ chunk) reads
    end
  else (inr buffer, reads).

Definition needed_length (buffer : bytes) : res anyhow nat :=
  b0 ← idx buffer 0;
  if b0 =? 0x16 then n ← be16_at buffer 3; Ok (5 + n)%nat else Ok (length buffer).

Definition read_client_hello_prefix (reads : sock_reads) : res RealityError (bytes * sock_reads) :=
  match fill_header [] reads with
  | (inl e, _) => Err e
  | (inr buffer, reads) =>
    needed ← map_err OtherError (needed_length buffer);
    match fill_record needed buffer reads with
    | (inl e, _) => Err e
    | (inr buffer, reads) => Ok (buffer, reads)
    end
  end.

(** [rustls::reality::RealityConfig] of third_party/rustls-reality. *)
Record RealityConfig := {
  rc_private_key : bytes;
  rc_verify_client : bool;
  rc_dest : option string;
  rc_short_ids : list bytes
}.

(** [validate]: the message of its error. *)
Definition reality_validate (c : RealityConfig) : option string :=
  if negb (length (rc_private_key c) =? 32)%nat then Some "Reality private key must be 32 bytes"%string else None.

Record RealityTransport := {
  rt_reality_config : RealityConfig;
  rt_server_names : list string;
  rt_private_key : bytes;
  rt_short_ids : list bytes;
  rt_relay_limits : RelayLimits
}.

(** [RealityTransport::new]; [debug_error] prints rustls' error with [{:?}]. *)
Definition reality_new (debug_error : string -> string)
    (private_key : bytes) (dest : string) (server_names : list string) (short_ids : list bytes)
    (limits : RelayLimits) : res anyhow RealityTransport :=
  if existsb (fun id => (length id =? 0)%nat || (8 <? length id)%nat) short_ids
  then Err (bail "REALITY short_id must be 1..8 bytes")
  else if (length short_ids =? 0)%nat then Err (bail "REALITY requires at least one short_id")
  else
    let reality_config := {| rc_private_key := private_key; rc_verify_client := true;
                             rc_dest := Some dest; rc_short_ids := short_ids |} in
    match reality_validate reality_config with
    | Some e => Err (bail ("REALITY config validation failed: " +:+ debug_error e))
    | None => Ok {| rt_reality_config := reality_config;
                    rt_server_names := map (fun s => lowercase (trim s)) server_names;
                    rt_private_key := private_key; rt_short_ids := short_ids; rt_relay_limits := limits |}
    end.

Definition sni_allowed (self : RealityTransport) (info : ClientHelloInfo) : bool :=
  match rt_server_names self with
  | [] => true
  | names => match server_name info with
             | Some s => existsb (fun n => bool_decide (n = lowercase s)) names
             | None => false
             end
  end.

(** What the fallback meets: the dial of the decoy, the write of the prefix, and
    the events of the relay that follows. *)
Record fallback_env := {
  fe_connect : option (io_error + unit);
  fe_write : option io_error;
  fe_start : Z;
  fe_copy : list (Z * event) -> option ((res io_error (Z * Z)) + Relay.state);
  fe_relay : list (Z * event)
}.

(** How [accept] goes on: a TLS handshake with a verified client, the decoy with
    the bytes it has been sent and the relay, or an error before either. *)
Inductive accepted :=
| TlsWith (buffer auth_key : bytes) (name : string)
| Decoy (dest : string) (sent : bytes) (relay : option ((res io_error (Z * Z)) + Relay.state))
| DecoyFailed (dest : string) (e : anyhow).

Definition fallback (env : fallback_env) (self : RealityTransport) (dest : string) (prefix : bytes) : accepted :=
  match fe_connect env with
  | Some (inl e) => DecoyFailed dest (anyhow_of_io e)
  | None => DecoyFailed dest (bail "fallback connection timeout")
  | Some (inr _) =>
    match fe_write env with
    | Some e => DecoyFailed dest (anyhow_of_io e)
    | None => Decoy dest prefix
                (copy_bidirectional_with_limits (fe_copy env) (rt_relay_limits self) (fe_start env) (fe_relay env))
    end
  end.

(** The error [accept] ends with, once it has ended: after a decoy session it is
    [FallbackHandled], which the server does not report. *)
Definition accept_error (a : accepted) : option RealityError :=
  match a with
  | TlsWith _ _ _ => None
  | Decoy _ _ (Some (inl (Ok _))) => Some FallbackHandled
  | Decoy _ _ (Some (inl (Err e))) => Some (OtherError (anyhow_of_io e))
  | Decoy _ _ _ => None
  | DecoyFailed _ e => Some (OtherError e)
  end.

Section Accept.
Context `{RealityCrypto}.

(** The key of a hello that may go on to TLS. *)
Definition authenticated (self : RealityTransport) (buffer : bytes) : res anyhow (option (bytes * ClientHelloInfo)) :=
  match parse_client_hello buffer with
  | Panic => Panic
  | Ok (Some info) =>
    if sni_allowed self info then
      k ← verify_client_reality info buffer (rt_private_key self) (rt_short_ids self);
      Ok (option_map (fun key => (key, info)) k)
    else Ok None
  | _ => Ok None
  end.

Definition accept (env : fallback_env) (self : RealityTransport) (reads : sock_reads)
    : res RealityError (accepted * sock_reads) :=
  p ← read_client_hello_prefix reads;
  let '(buffer, reads) := p in
  a ← map_err OtherError (authenticated self buffer);
  match a with
  | Some (auth_key, info) => Ok (TlsWith buffer auth_key (default "localhost"%string (server_name info)), reads)
  | None => Ok (fallback env self (default "www.microsoft.com:443"%string (rc_dest (rt_reality_config self))) buffer, reads)
  end.
End Accept.

(** ** Lemmas *)

Lemma zero_32_app p m s :
  length m = 32%nat -> zero_32 (p ++ m ++ s) (length p) = p ++ replicate 32 0 ++ s.
Proof.
  intros Hm. do 32 (destruct m as [|? m]; [done|]). destruct m; [|done]. clear Hm.
  unfold zero_32. cbn [seq foldl].
  repeat match goal with |- context [<[(length p + ?i)%nat := 0]> (p ++ ?l)] =>
    rewrite (insert_app_r p l i 0); cbn [insert list_insert app] end. done.
Qed.

Lemma length_zero_32 l pos : length (zero_32 l pos) = length l.
Proof.
  unfold zero_32. generalize (seq 0 32). intros ns. revert l. induction ns as [|i ns IH]; intros l; [done|].
  cbn [foldl]. by rewrite IH, length_insert.
Qed.

Section Session.
Context `{RealityCrypto}.

(** A hello with another session id. *)
Definition with_session (h : Hello) (sid : bytes) : Hello :=
  {| h_head := h_head h; h_random := h_random h; h_session := sid; h_suites := h_suites h;
     h_compression := h_compression h; h_exts := h_exts h |}.

(** The handshake message around its session id. *)
Lemma handshake_parts h :
  length (h_session h) = 32%nat ->
  encode_handshake h = ([0x01] ++ h_head h ++ h_random h ++ [32]) ++ h_session h
    ++ (vec16 (h_suites h) ++ vec8 (h_compression h) ++ vec16 (concat (map encode_ext (h_exts h)))).
Proof.
  intros Hs. unfold encode_handshake. unfold vec8 at 1. rewrite Hs, <- !app_assoc.
  reflexivity.
Qed.

Lemma zeroed_handshake h :
  hello_ok h -> length (h_session h) = 32%nat ->
  zero_32 (encode_handshake h) 39 = encode_handshake (with_session h (replicate 32 0)).
Proof.
  intros (H5 & H32 & _) Hs. rewrite (handshake_parts h), (handshake_parts (with_session h _)) by done.
  set (p := [1] ++ h_head h ++ h_random h ++ [32]).
  assert (Hp : 39%nat = length p) by (unfold p; rewrite !length_app; cbn [length]; lia).
  rewrite Hp, zero_32_app by done. done.
Qed.

Lemma with_session_ok h sid :
  hello_ok h -> length (h_session h) = 32%nat -> length sid = 32%nat -> hello_ok (with_session h sid).
Proof.
  intros (H5 & H32 & Hs & Hsu & Hc & Hx & Hu) Hl Hsid. unfold hello_ok. cbn [with_session h_head h_random h_session
    h_suites h_compression h_exts]. split_and!; try done; [lia|].
  replace (length (encode_handshake (with_session h sid))) with (length (encode_handshake h)); [done|].
  rewrite (handshake_parts h), (handshake_parts (with_session h sid)) by done.
  cbn [with_session h_head h_random h_session h_suites h_compression h_exts].
  set (a := [1] ++ _). set (b := vec16 _ ++ _). rewrite (length_app a), (length_app a), !length_app. lia.
Qed.

(** The client's session id, when the hello has room for it. *)
Lemma encrypt_handshake auth key h ts :
  hello_ok h -> length (h_session h) = 32%nat -> length key = 32%nat -> length ts = 4%nat ->
  (1 <= length (short_id auth) <= 8)%nat ->
  exists sid, encrypt_session_id auth key (h_random h) (encode_handshake h) ts = Ok sid /\ length sid = 32%nat
    /\ aes_open key (take 12 (drop 20 (h_random h))) (encode_handshake (with_session h (replicate 32 0))) sid
       = Some (session_plaintext (short_id auth) ts).
Proof.
  intros Hok Hs Hk Ht Hid. unfold encrypt_session_id.
  destruct (_ || _) eqn:E; [apply orb_true_iff in E as [E|E]; bool_hyps; lia|]. clear E.
  rewrite Hk. cbn [Nat.eqb negb].
  assert (Ho : session_id_offset_in_hello_aad (encode_handshake h) = Ok (Some 39%nat)).
  { unfold session_id_offset_in_hello_aad. rewrite bool_decide_eq_false_2 by done. cbn [mbind res_bind].
    rewrite (bool_decide_eq_true_2 (head (encode_handshake h) = Some 1)) by done. cbn [negb].
    destruct (_ || _) eqn:E; [|done]. rewrite orb_false_r in E. bool_hyps.
    rewrite length_handshake, length_app, length_vec8 in E by done. lia. }
  rewrite Ho. cbn [mbind res_bind]. rewrite zeroed_handshake by done.
  assert (Hp : length (session_plaintext (short_id auth) ts) = 16%nat)
    by (unfold session_plaintext; rewrite !length_app, length_replicate; cbn [length]; lia).
  destruct (aes_seal_ok key (take 12 (drop 20 (h_random h))) (encode_handshake (with_session h (replicate 32 0)))
    (session_plaintext (short_id auth) ts) Hk) as (c & Hc & Hl).
  rewrite Hc, Hl, Hp. cbn [Nat.eqb Nat.add]. exists c. split_and!; [done|lia|]. by apply aes_open_seal.
Qed.

(** What the server makes of a hello whose session id opens to [buf]. *)
Lemma verify_opened h secret pub key buf ids :
  hello_ok h -> length (h_session h) = 32%nat ->
  (scan None None (h_exts h)).1 = Some pub -> length pub = 32%nat ->
  hkdf_expand (take 20 (h_random h)) (x25519 secret pub) REALITY_INFO 32 = Some key -> length key = 32%nat ->
  str_find (hex_encode (h_session h)) (hex_encode (encode_handshake h)) = Some 78%nat ->
  aes_open key (take 12 (drop 20 (h_random h))) (encode_handshake (with_session h (replicate 32 0))) (h_session h)
    = Some buf -> (16 <= length buf)%nat ->
  exists info, parse_client_hello (encode_record h) = Ok (Some info)
    /\ verify_client_reality info (encode_record h) secret ids
       = Ok (if existsb (fun sid => bool_decide (sid = take 8 (drop 4 buf)) || bool_decide (sid = take 8 (drop 8 buf))) ids
             then Some key else None).
Proof.
  intros Hok Hs Hpk Hpub Hkey Hk Hf Hop Hb.
  eexists. split; [rewrite <- (app_nil_r (encode_record h)); by apply parse_encoded|].
  unfold verify_client_reality. cbn [session_id public_key client_random]. rewrite Hpk, Hs, Hpub.
  cbn [Nat.eqb negb found orb]. rewrite Hkey, Hk. cbn [Nat.eqb negb].
  assert (Hm : handshake_msg (encode_record h) = Ok (encode_handshake h)).
  { unfold handshake_msg. rewrite bool_decide_eq_true_2 by done. apply slice_from_ok.
    unfold encode_record. rewrite length_app, length_vec16. cbn [length]. lia. }
  rewrite Hm. cbn [mbind res_bind]. rewrite Hf. change (78 / 2)%nat with 39%nat.
  rewrite zeroed_handshake, Hop by done. destruct (_ <? _)%nat eqn:E; bool_hyps; [lia|].
  rewrite !slice_ok by lia. done.
Qed.
(** A session id that opens to one of the short ids is recognised. *)
Lemma sealed_recognised auth server_secret client_secret ts ids h key sid :
  hello_ok h -> length (h_session h) = 32%nat -> length sid = 32%nat -> length ts = 4%nat ->
  (scan None None (h_exts h)).1 = Some (x25519_public client_secret) ->
  hkdf_expand (take 20 (h_random h)) (x25519 server_secret (x25519_public client_secret)) REALITY_INFO 32 = Some key ->
  length key = 32%nat -> short_id auth ∈ ids -> length (short_id auth) = 8%nat ->
  aes_open key (take 12 (drop 20 (h_random h))) (encode_handshake (with_session h (replicate 32 0))) sid
    = Some (session_plaintext (short_id auth) ts) ->
  str_find (hex_encode sid) (hex_encode (encode_handshake (with_session h sid))) = Some 78%nat ->
  exists info, parse_client_hello (encode_record (with_session h sid)) = Ok (Some info)
    /\ verify_client_reality info (encode_record (with_session h sid)) server_secret ids = Ok (Some key).
Proof.
  intros Hok Hs Hl Ht Hshare Hk Hkl Hid H8 Ho Hf.
  destruct (verify_opened (with_session h sid) server_secret (x25519_public client_secret) key
    (session_plaintext (short_id auth) ts) ids) as (info & Hp & Hv); try done.
  { by apply with_session_ok. }
  { apply x25519_public_length. }
  { unfold session_plaintext. rewrite !length_app, length_replicate. cbn [length]. lia. }
  exists info. split; [done|]. rewrite Hv. destruct (existsb _ ids) eqn:Hx; [done|].
  apply not_true_iff_false in Hx as []. apply existsb_exists. exists (short_id auth).
  split; [by apply list_elem_of_In|]. apply orb_true_iff. right. apply bool_decide_eq_true_2.
  unfold session_plaintext. rewrite (app_assoc _ ts), drop_app_length' by (rewrite length_app; cbn [length]; lia).
  by rewrite take_app_length'.
Qed.
End Session.

(** ** Reading the hello *)

(** The bytes of a sequence of reads. *)
Definition got (reads : sock_reads) : bytes :=
  concat (map (fun r => match r with inr chunk => chunk | inl _ => [] end) reads).

Lemma fill_header_keeps b reads buffer rest :
  fill_header b reads = (inr buffer, rest) -> buffer ++ got rest = b ++ got reads /\ (5 <= length buffer)%nat.
Proof.
  revert b. induction reads as [|r reads IH]; intros b; cbn [fill_header].
  - destruct (5 <=? _)%nat eqn:E; bool_hyps; [|done]. by intros [= <- <-].
  - destruct (5 <=? _)%nat eqn:E; bool_hyps; [by intros [= <- <-]|].
    destruct r as [e|[|x chunk]]; [done..|]. intros Hf. destruct (IH _ Hf) as [IH1 IH2]. split; [|done].
    rewrite IH1, <- app_assoc. done.
Qed.

Lemma fill_record_keeps needed b reads buffer rest :
  fill_record needed b reads = (inr buffer, rest) ->
  buffer ++ got rest = b ++ got reads /\ (length b <= length buffer)%nat.
Proof.
  revert b. induction reads as [|r reads IH]; intros b; cbn [fill_record].
  - destruct (_ && _); [done|]. by intros [= <- <-].
  - destruct (_ && _); [|by intros [= <- <-]].
    destruct r as [e|[|x chunk]]; [done|by intros [= <- <-]|]. intros Hf. destruct (IH _ Hf) as [IH1 IH2].
    rewrite length_app in IH2. split; [|lia]. rewrite IH1, <- app_assoc. done.
Qed.

(** The sniffed bytes and those still to come are the client's bytes. *)
Lemma read_prefix_keeps reads buffer rest :
  read_client_hello_prefix reads = Ok (buffer, rest) ->
  buffer ++ got rest = got reads /\ (5 <= length buffer)%nat.
Proof.
  unfold read_client_hello_prefix. destruct (fill_header [] reads) as [[e|b] r1] eqn:Hh; [done|].
  apply fill_header_keeps in Hh as [H1 H2]. destruct (needed_length b) as [n|e|]; cbn; [|done..].
  destruct (fill_record n b r1) as [[e|b2] r2] eqn:Hr; [done|]. intros [= <- <-].
  apply fill_record_keeps in Hr as [H3 H4]. split; [by rewrite H3, H1|lia].
Qed.

Lemma needed_length_no_panic b : (5 <= length b)%nat -> needed_length b <> Panic.
Proof.
  intros Hl. unfold needed_length. destruct (@idx_lt anyhow b 0) as (b0 & -> & _); [lia|]. cbn [mbind res_bind].
  destruct (b0 =? 22); [|done]. destruct (@be16_at_lt anyhow b 3) as [n ->]; [lia|done].
Qed.

Lemma read_prefix_no_panic reads : read_client_hello_prefix reads <> Panic.
Proof.
  unfold read_client_hello_prefix. destruct (fill_header [] reads) as [[e|b] r1] eqn:Hh; [done|].
  apply fill_header_keeps in Hh as [_ H2]. pose proof (needed_length_no_panic b H2).
  destruct (needed_length b); cbn; [|done..]. by destruct (fill_record _ _ _) as [[]].
Qed.

Lemma parse_some_length buf info : parse_client_hello buf = Ok (Some info) -> (5 <= length buf)%nat.
Proof. unfold parse_client_hello. destruct (_ <? _)%nat eqn:E; bool_hyps; [done|lia]. Qed.

(** *** Who sends a hello in time *)

(** Nothing more is waited for: the bytes are no TLS handshake record, or the whole
    record, or more than the limit. *)
Definition hello_complete (b : bytes) : Prop :=
  b !! 0%nat <> Some 0x16
  \/ (exists hi lo, b !! 3%nat = Some hi /\ b !! 4%nat = Some lo
        /\ (5 + Z.to_nat (from_be16 hi lo) <= length b)%nat)
  \/ 16384 <= Z.of_nat (length b).

(** Within the handshake timeout, and before its socket fails, the client sends at least
    five bytes, and then the whole record or its end of stream. *)
Definition sends_hello (reads : sock_reads) : Prop :=
  exists chunks rest, reads = map inr chunks ++ rest /\ Forall (fun c => c <> []) chunks
    /\ (5 <= length (concat chunks))%nat /\ (hello_complete (concat chunks) \/ head rest = Some (inr [])).

Lemma fill_header_data chunks b rest :
  Forall (fun c => c <> []) chunks -> (5 <= length (b ++ concat chunks))%nat ->
  exists c1 c2, chunks = c1 ++ c2 /\ (5 <= length (b ++ concat c1))%nat
    /\ fill_header b (map inr chunks ++ rest) = (inr (b ++ concat c1), map inr c2 ++ rest).
Proof.
  intros Hc. revert b. induction Hc as [|c chunks Hne Hc IH]; intros b Hl.
  - exists [], []. cbn [concat map app] in Hl |- *. rewrite app_nil_r in Hl |- *. split_and!; [done|done|].
    destruct rest as [|[] ?]; cbn [fill_header]; by rewrite (proj2 (Nat.leb_le _ _)).
  - destruct (decide (5 <= length b)%nat) as [Hb|Hb].
    + exists [], (c :: chunks). cbn [concat]. rewrite app_nil_r. split_and!; [done|done|].
      cbn [map app fill_header]. by rewrite (proj2 (Nat.leb_le _ _)).
    + destruct (IH (b ++ c)) as (c1 & c2 & -> & Hl1 & Hf); [by rewrite <- app_assoc|].
      exists (c :: c1), c2. cbn [concat]. rewrite app_assoc. split_and!; [done|done|].
      cbn [map app fill_header]. rewrite (proj2 (Nat.leb_gt _ _)) by lia. by destruct c.
Qed.

Lemma fill_record_data needed chunks b rest :
  Forall (fun c => c <> []) chunks ->
  (needed <= length (b ++ concat chunks))%nat \/ 16384 <= Z.of_nat (length (b ++ concat chunks))
    \/ head rest = Some (inr []) ->
  exists buffer rest', fill_record needed b (map inr chunks ++ rest) = (inr buffer, rest').
Proof.
  intros Hc. revert b. induction Hc as [|c chunks Hne Hc IH]; intros b Hl.
  - cbn [concat map app] in Hl |- *. rewrite app_nil_r in Hl.
    destruct ((length b <? needed)%nat && (Z.of_nat (length b) <? 16384)) eqn:E.
    + apply andb_true_iff in E as [E1 E2]. bool_hyps. destruct Hl as [Hl|[Hl|Hl]]; [lia|lia|].
      destruct rest as [|r rest]; [done|]. injection Hl as ->. cbn [fill_record].
      rewrite (proj2 (Nat.ltb_lt _ _)), (proj2 (Z.ltb_lt _ _)) by lia. cbn [andb]. eauto.
    + destruct rest as [|[] ?]; cbn [fill_record]; rewrite E; eauto.
  - cbn [map app fill_record]. destruct (_ && _); [|eauto].
    destruct c as [|x c]; [done|]. apply IH. rewrite <- app_assoc. done.
Qed.

(** What the loops return was sent as non-empty chunks. *)
Lemma fill_header_sent b reads buffer rest :
  fill_header b reads = (inr buffer, rest) ->
  exists chunks, reads = map inr chunks ++ rest /\ buffer = b ++ concat chunks /\ Forall (fun c => c <> []) chunks.
Proof.
  revert b. induction reads as [|r reads IH]; intros b; cbn [fill_header].
  - destruct (5 <=? _)%nat; [|done]. intros [= <- <-]. exists []. cbn [concat]. by rewrite (app_nil_r b).
  - destruct (5 <=? _)%nat; [intros [= <- <-]; exists []; cbn [concat]; by rewrite (app_nil_r b)|].
    destruct r as [e|[|x chunk]]; [done..|]. intros Hf. destruct (IH _ Hf) as (chunks & -> & -> & Hc).
    exists ((x :: chunk) :: chunks). cbn [map app concat]. rewrite <- app_assoc. split_and!; [done|done|by constructor].
Qed.

Lemma fill_record_sent needed b reads buffer rest :
  fill_record needed b reads = (inr buffer, rest) ->
  exists chunks rest', reads = map inr chunks ++ rest' /\ buffer = b ++ concat chunks /\ Forall (fun c => c <> []) chunks
    /\ ((needed <= length buffer)%nat \/ 16384 <= Z.of_nat (length buffer) \/ head rest' = Some (inr [])).
Proof.
  revert b. induction reads as [|r reads IH]; intros b; cbn [fill_record].
  - destruct (_ && _) eqn:E; [done|]. intros [= <- <-]. exists [], []. cbn [concat]. rewrite (app_nil_r b). split_and!; [done..|].
    apply andb_false_iff in E as [E|E]; bool_hyps; auto.
  - destruct (_ && _) eqn:E.
    + destruct r as [e|[|x chunk]]; [done| |].
      * intros [= <- <-]. exists [], (inr [] :: reads). cbn [concat]. rewrite (app_nil_r b). split_and!; [done..|]. auto.
      * intros Hf. destruct (IH _ Hf) as (chunks & rest' & -> & -> & Hc & Hd).
        exists ((x :: chunk) :: chunks), rest'. cbn [map app concat]. rewrite <- app_assoc in *.
        split_and!; [done|done|by constructor|done].
    + intros [= <- <-]. exists [], (r :: reads). cbn [concat]. rewrite (app_nil_r b). split_and!; [done..|].
      apply andb_false_iff in E as [E|E]; bool_hyps; auto.
Qed.

Lemma needed_length_eq b : (5 <= length b)%nat ->
  (b !! 0%nat <> Some 0x16 /\ needed_length b = Ok (length b))
  \/ (b !! 0%nat = Some 0x16 /\ exists hi lo, b !! 3%nat = Some hi /\ b !! 4%nat = Some lo
        /\ needed_length b = Ok (5 + Z.to_nat (from_be16 hi lo))%nat).
Proof.
  intros Hl. do 5 (destruct b as [|? b]; cbn in Hl; [lia|]).
  unfold needed_length, be16_at. cbn. destruct (_ =? 0x16) eqn:E; bool_hyps; [right|left].
  - subst. split; [done|]. by eexists _, _.
  - split; [congruence|done].
Qed.

(** The hello is read exactly from the clients that send one. *)
Lemma read_prefix_iff reads :
  (exists buffer rest, read_client_hello_prefix reads = Ok (buffer, rest)) <-> sends_hello reads.
Proof.
  unfold read_client_hello_prefix. split.
  - intros (buffer & rest & H). destruct (fill_header [] reads) as [[e|b] r1] eqn:Hh; [done|].
    pose proof (fill_header_keeps _ _ _ _ Hh) as [_ Hl].
    apply fill_header_sent in Hh as (c1 & -> & -> & Hc1). cbn [app] in *.
    destruct (needed_length_eq _ Hl) as [[Hb Hn]|(Hb & hi & lo & H3 & H4 & Hn)]; rewrite Hn in H; cbn in H;
      destruct (fill_record _ _ r1) as [[e|b2] r2] eqn:Hr in H; try done;
      apply fill_record_sent in Hr as (c2 & r3 & -> & -> & Hc2 & Hd); exists (c1 ++ c2), r3;
      rewrite map_app, concat_app, <- app_assoc; (split_and!; [done|by apply Forall_app|rewrite length_app; lia|]).
    + left. left. by rewrite lookup_app_l by lia.
    + unfold hello_complete. destruct Hd as [Hd|[Hd|Hd]]; [left; right; left|left; by right; right|by right].
      exists hi, lo. rewrite !lookup_app_l by lia. done.
  - intros (chunks & rest & -> & Hc & Hl & Hd).
    destruct (fill_header_data chunks [] rest Hc Hl) as (c1 & c2 & -> & Hl1 & ->). cbn [app] in Hl1.
    rewrite Forall_app in Hc. destruct Hc as [_ Hc2]. rewrite concat_app in Hd. cbn [app].
    assert (Hgo : forall n, needed_length (concat c1) = Ok n ->
      (n <= length (concat c1 ++ concat c2))%nat \/ 16384 <= Z.of_nat (length (concat c1 ++ concat c2))
        \/ head rest = Some (inr [])).
    { intros n Hn. destruct Hd as [Hd|Hd]; [|auto].
      destruct (needed_length_eq _ Hl1) as [[Hb Hn']|(Hb & hi & lo & H3 & H4 & Hn')]; rewrite Hn' in Hn; injection Hn as <-.
      - left. rewrite length_app. lia.
      - destruct Hd as [Hd|[(hi' & lo' & D3 & D4 & Hle)|Hd]]; [by rewrite lookup_app_l in Hd by lia| |auto].
        left. rewrite !lookup_app_l in D3, D4 by lia. by simplify_eq. }
    destruct (needed_length (concat c1)) as [n|e|] eqn:Hn; cbn.
    + destruct (fill_record_data n c2 (concat c1) rest Hc2 (Hgo n eq_refl)) as (b & r & ->). eauto.
    + exfalso. destruct (needed_length_eq _ Hl1) as [[_ Hx]|(_ & ? & ? & _ & _ & Hx)]; congruence.
    + exfalso. by apply (needed_length_no_panic _ Hl1).
Qed.

Section Decision.
Context `{RealityCrypto}.

(** A verified client knows a full short id under the key agreed with the server. *)
Definition knows_short_id (self : RealityTransport) (info : ClientHelloInfo) (buffer key : bytes) : Prop :=
  exists client_pub handshake aad plaintext sid,
    public_key info = Some client_pub
    /\ hkdf_expand (take 20 (client_random info)) (x25519 (rt_private_key self) client_pub) REALITY_INFO 32 = Some key
    /\ handshake_msg buffer = Ok handshake /\ length aad = length handshake
    /\ aes_open key (take 12 (drop 20 (client_random info))) aad (session_id info) = Some plaintext
    /\ sid ∈ rt_short_ids self /\ length sid = 8%nat
    /\ (sid = take 8 (drop 4 plaintext) \/ sid = take 8 (drop 8 plaintext)).

Lemma verify_some self info buffer key :
  verify_client_reality info buffer (rt_private_key self) (rt_short_ids self) = Ok (Some key) ->
  knows_short_id self info buffer key.
Proof.
  unfold verify_client_reality. destruct (_ || _); [done|]. destruct (public_key info) as [pub|] eqn:Hpub; [|done].
  destruct (negb _); [done|]. destruct (hkdf_expand _ _ _ _) as [k|] eqn:Hk; [|done].
  destruct (negb _); [done|]. destruct (handshake_msg buffer) as [hs|e|] eqn:Hh; [|done..]. cbn [mbind res_bind].
  set (aad := match str_find _ _ with Some p => _ | None => _ end).
  destruct (aes_open _ _ _ _) as [buf|] eqn:Ho; [|done]. destruct (_ <? _)%nat eqn:E; bool_hyps; [done|].
  rewrite !slice_ok by lia. cbn [mbind res_bind]. destruct (existsb _ _) eqn:Hx; [|done]. intros [= <-].
  apply existsb_exists in Hx as (sid & Hin & Hs).
  exists pub, hs, aad, buf, sid. split_and!; [done|done|done| |done|by apply list_elem_of_In|..].
  - unfold aad. destruct (str_find _ _); [apply length_zero_32|done].
  - apply orb_true_iff in Hs as [Hs|Hs]; bool_hyps; rewrite Hs, length_take, length_drop; lia.
  - apply orb_true_iff in Hs as [Hs|Hs]; bool_hyps; auto.
Qed.

Lemma verify_no_panic info buffer key ids :
  (5 <= length buffer)%nat -> verify_client_reality info buffer key ids <> Panic.
Proof.
  intros Hl. unfold verify_client_reality. destruct (_ || _); [done|]. destruct (public_key info); [|done].
  destruct (negb _); [done|]. destruct (hkdf_expand _ _ _ _); [|done]. destruct (negb _); [done|].
  assert (Hh : exists hs, handshake_msg buffer = Ok hs)
    by (unfold handshake_msg; case_bool_decide; [rewrite slice_from_ok by done|]; by eexists).
  destruct Hh as [hs ->]. cbn [mbind res_bind]. destruct (aes_open _ _ _ _); [|done].
  destruct (_ <? _)%nat eqn:E; bool_hyps; [done|]. by rewrite !slice_ok by lia.
Qed.

Lemma verify_no_err info buffer key ids e : verify_client_reality info buffer key ids <> Err e.
Proof.
  unfold verify_client_reality. repeat case_match; try done. unfold handshake_msg.
  case_bool_decide; [unfold slice_from, slice; case_match; cbn; [|done]|cbn]; repeat case_match; try done;
    unfold slice; repeat case_match; done.
Qed.

Lemma authenticated_no_err self buffer e : authenticated self buffer <> Err e.
Proof.
  unfold authenticated. destruct (parse_client_hello buffer) as [[info|]|e'|]; [|done..].
  destruct (sni_allowed self info); [|done].
  pose proof (verify_no_err info buffer (rt_private_key self) (rt_short_ids self)) as Hv.
  destruct (verify_client_reality _ _ _ _) as [k|e'|]; cbn; [done| |done]. intros _. by apply (Hv e').
Qed.

Lemma authenticated_no_panic self buffer : authenticated self buffer <> Panic.
Proof.
  unfold authenticated. pose proof (parse_client_hello_no_panic buffer).
  destruct (parse_client_hello buffer) as [[info|]|e|] eqn:Hp; [|done..].
  destruct (sni_allowed self info); [|done].
  pose proof (verify_no_panic info buffer (rt_private_key self) (rt_short_ids self) (parse_some_length _ _ Hp)).
  by destruct (verify_client_reality _ _ _ _).
Qed.
End Decision.

(** A reader of the prefixed stream: what is still to be read. *)
Definition buffered_pending (this : BufferedPrefixStream) : bytes :=
  drop (bp_position this) (bp_prefix this) ++ rx (bp_inner this).

Inductive buffered_reads : BufferedPrefixStream -> bytes -> BufferedPrefixStream -> Prop :=
| breads_nil this : buffered_reads this [] this
| breads_step this remaining avail d this1 data this2 :
    buffered_poll_read this remaining avail = (d, this1) -> buffered_reads this1 data this2 ->
    buffered_reads this (d ++ data) this2.

Lemma buffered_poll_pending this remaining avail d this' :
  buffered_poll_read this remaining avail = (d, this') ->
  buffered_pending this = d ++ buffered_pending this' /\ tx (bp_inner this') = tx (bp_inner this).
Proof.
  unfold buffered_poll_read, buffered_pending. destruct (_ <? _)%nat eqn:E; bool_hyps; intros [= <- <-]; cbn [bp_prefix
    bp_position bp_inner with_rx rx tx].
  - split; [|done]. rewrite app_assoc, <- drop_drop, take_drop. done.
  - split; [|done]. rewrite drop_ge by done. cbn [app]. by rewrite take_drop.
Qed.

(** ** Properties *)

(** a client with the right credentials is recognised. Whoever builds a hello
    with an X25519 share, derives the key from the server's public key and seals one
    of the server's 8-byte short ids into the session id is verified by the server
    with the same key, provided that the session id does not also occur earlier in
    the message. *)
Theorem reality_client_recognised `{RealityCrypto} (auth : RealityClientAuth)
    (server_secret client_secret ts : bytes) (ids : list bytes) (h : Hello)
    (Hok : hello_ok h) (Hs : length (h_session h) = 32%nat) (Ht : length ts = 4%nat)
    (Hpub : server_public_key auth = x25519_public server_secret)
    (Hshare : (scan None None (h_exts h)).1 = Some (x25519_public client_secret))
    (Hid : short_id auth ∈ ids) (H8 : length (short_id auth) = 8%nat) :
  exists key sid,
    derive_auth_key auth client_secret (h_random h) = Ok key
    /\ encrypt_session_id auth key (h_random h) (encode_handshake h) ts = Ok sid
    /\ (str_find (hex_encode sid) (hex_encode (encode_handshake (with_session h sid))) = Some 78%nat ->
        exists info, parse_client_hello (encode_record (with_session h sid)) = Ok (Some info)
          /\ verify_client_reality info (encode_record (with_session h sid)) server_secret ids = Ok (Some key)).
Proof.
  destruct (hkdf_expand_ok (take 20 (h_random h)) (x25519 server_secret (x25519_public client_secret))
    REALITY_INFO 32 ltac:(lia)) as (key & Hk & Hkl).
  destruct (encrypt_handshake auth key h ts Hok Hs Hkl Ht ltac:(lia)) as (sid & He & Hl & Ho).
  exists key, sid. split_and!; [|done|].
  { unfold derive_auth_key. by rewrite Hpub, x25519_agree, Hk. }
  intros Hf. by apply (sealed_recognised auth server_secret client_secret ts ids h key sid).
Qed.

(** short ids shorter than eight bytes authenticate nobody. The configuration
    admits ids of one to eight bytes and the client pads them with zeros, but the
    server compares them unpadded with eight bytes: with only shorter ids every
    hello is refused, whatever the client knows. *)
Theorem reality_short_ids_never_match `{RealityCrypto} (info : ClientHelloInfo) (hello private_key key : bytes)
    (ids : list bytes) (Hids : Forall (fun id => (length id < 8)%nat) ids) :
  verify_client_reality info hello private_key ids <> Ok (Some key).
Proof.
  intros Hv. set (self := {| rt_reality_config := {| rc_private_key := private_key; rc_verify_client := true;
      rc_dest := None; rc_short_ids := ids |};
    rt_server_names := []; rt_private_key := private_key; rt_short_ids := ids; rt_relay_limits := {| idle := None; max_lifetime := None |} |}).
  destruct (verify_some self info hello key Hv) as (? & ? & ? & ? & sid & _ & _ & _ & _ & _ & Hin & Hl & _).
  cbn in Hin. rewrite Forall_forall in Hids. specialize (Hids sid Hin). lia.
Qed.


(** TLS reads the hello again. However the acceptor polls the prefixed stream,
    it reads the sniffed bytes followed by the socket's, nothing lost or reordered. *)
Theorem reality_prefix_transparent (this this' : BufferedPrefixStream) (data : bytes)
    (Hr : buffered_reads this data this') :
  buffered_pending this = data ++ buffered_pending this' /\ tx (bp_inner this') = tx (bp_inner this).
Proof.
  induction Hr as [this|this rem avail d this1 data this2 Hp Hr [IH1 IH2]]; [done|].
  apply buffered_poll_pending in Hp as (H1 & H2). by rewrite H1, IH1, IH2, app_assoc.
Qed.

(** ** Witnesses *)

(** A model of the laws: addition as agreement, a checksum of the data as tag. *)
Definition pad32 (a : bytes) : bytes := resize 32 0 a.
Definition toy_tag (key nonce aad : bytes) : bytes := replicate 16 (foldr Z.add 0 (key ++ nonce ++ aad)).

Definition toy_open (key nonce aad c : bytes) : option bytes :=
  let m := take (length c - 16) c in
  if bool_decide (drop (length c - 16) c = toy_tag key nonce aad) then Some m else None.

Lemma toy_agree a b : zip_with Z.add (pad32 a) (pad32 b) = zip_with Z.add (pad32 b) (pad32 a).
Proof.
  generalize (pad32 a) (pad32 b). intros l. induction l as [|x l IH]; intros [|y k]; cbn; [done..|].
  by rewrite IH, Z.add_comm.
Qed.

Lemma toy_open_seal key nonce aad msg c :
  Some (msg ++ toy_tag key nonce aad) = Some c -> toy_open key nonce aad c = Some msg.
Proof.
  intros [= <-]. unfold toy_open. rewrite length_app. replace (length msg + _ - 16)%nat with (length msg)
    by (unfold toy_tag; rewrite length_replicate; lia).
  by rewrite drop_app_length, take_app_length, bool_decide_eq_true_2.
Qed.

Lemma toy_hkdf_ok (salt ikm info : bytes) n :
  (n <= 255 * 32)%nat -> exists k, Some (resize n 0 (salt ++ ikm)) = Some k /\ length k = n.
Proof. intros _. eexists. split; [done|]. apply length_resize. Qed.

Lemma toy_seal_ok (key nonce aad msg : bytes) :
  length key = 32%nat -> exists c, Some (msg ++ toy_tag key nonce aad) = Some c /\ length c = (length msg + 16)%nat.
Proof. intros _. eexists. split; [done|]. by rewrite length_app. Qed.

#[export] Instance toy_crypto : RealityCrypto := {
  x25519 := fun secret public => zip_with Z.add (pad32 secret) public;
  x25519_public := pad32;
  hkdf_expand := fun salt ikm _ n => Some (resize n 0 (salt ++ ikm));
  aes_seal := fun key nonce aad msg => Some (msg ++ toy_tag key nonce aad);
  aes_open := toy_open;
  hex_encode := fun l => foldr (fun b s => fmt_02x b +:+ s) EmptyString l;
  x25519_agree := toy_agree;
  x25519_public_length := fun a => length_resize a 32 0;
  hkdf_expand_ok := toy_hkdf_ok;
  aes_seal_ok := toy_seal_ok;
  aes_open_seal := toy_open_seal;
  hex_encode_digits := fun l => eq_refl
}.

Definition demo_secret : bytes := [66; 66].
Definition demo_client_secret : bytes := replicate 32 5.

Definition demo_auth : RealityClientAuth :=
  {| server_public_key := x25519_public demo_secret; short_id := [1; 35; 69; 103; 137; 171; 205; 239] |}.

Definition demo_session_id : bytes :=
  match derive_auth_key demo_auth demo_client_secret (h_random demo_hello) with
  | Ok key => match encrypt_session_id demo_auth key (h_random demo_hello) (encode_handshake demo_hello) [0; 0; 0; 9] with
              | Ok sid => sid
              | _ => []
              end
  | _ => []
  end.

Definition demo_client_hello : Hello := with_session demo_hello demo_session_id.

Lemma reality_client_recognised_witness :
  exists key info, parse_client_hello (encode_record demo_client_hello) = Ok (Some info)
    /\ verify_client_reality info (encode_record demo_client_hello) demo_secret [short_id demo_auth] = Ok (Some key).
Proof.
  destruct (reality_client_recognised demo_auth demo_secret demo_client_secret [0; 0; 0; 9] [short_id demo_auth] demo_hello)
    as (key & sid & Hk & Hs & Hv).
  - exact demo_hello_ok.
  - reflexivity.
  - reflexivity.
  - reflexivity.
  - vm_compute. reflexivity.
  - left.
  - reflexivity.
  - assert (sid = demo_session_id) as ->.
    { unfold demo_session_id. rewrite Hk, Hs. reflexivity. }
    exists key. apply Hv. vm_compute. reflexivity.
Defined.

Lemma reality_short_ids_never_match_witness :
  verify_client_reality {| session_id := replicate 32 0; client_random := replicate 32 0;
      public_key := Some (replicate 32 1); server_name := None |} [] demo_secret [[1; 35]] <> Ok (Some (replicate 32 0)).
Proof.
  apply reality_short_ids_never_match. apply Forall_cons_2; [cbn; lia|apply Forall_nil_2].
Defined.

Definition demo_transport : RealityTransport :=
  {| rt_reality_config := {| rc_private_key := demo_secret; rc_verify_client := true;
       rc_dest := Some "decoy.example:443"%string; rc_short_ids := [short_id demo_auth] |};
     rt_server_names := ["example.com"%string]; rt_private_key := demo_secret; rt_short_ids := [short_id demo_auth];
     rt_relay_limits := demo_limits |}.

Definition demo_fallback : fallback_env :=
  {| fe_connect := Some (inr tt); fe_write := None; fe_start := 0; fe_copy := fun _ => None;
     fe_relay := [(1, Read B (inr [21; 3]) None)] |}.

(** A prober that sends a hello of its own, in two reads. *)
Definition demo_probe : sock_reads :=
  [inr (take 7 (encode_record demo_hello)); inr (drop 7 (encode_record demo_hello)); inr [9]].


Lemma reality_prefix_transparent_witness :
  buffered_pending (buffered_new [1; 2; 3] (Stream [4; 5] false [] None)) = [1; 2; 3; 4] ++ [5].
Proof.
  destruct (reality_prefix_transparent (buffered_new [1; 2; 3] (Stream [4; 5] false [] None))
    {| bp_prefix := [1; 2; 3]; bp_position := 3; bp_inner := Stream [5] false [] None |} [1; 2; 3; 4]) as [H _]; [|exact H].
  apply (breads_step _ 2 9 [1; 2] {| bp_prefix := [1; 2; 3]; bp_position := 2; bp_inner := Stream [4; 5] false [] None |} [3; 4]);
    [reflexivity|].
  apply (breads_step _ 2 9 [3] {| bp_prefix := [1; 2; 3]; bp_position := 3; bp_inner := Stream [4; 5] false [] None |} [4]);
    [reflexivity|].
  apply (breads_step _ 1 9 [4] {| bp_prefix := [1; 2; 3]; bp_position := 3; bp_inner := Stream [5] false [] None |} []);
    [reflexivity|apply breads_nil].
Defined.
