(* ===== verification/RealityCert.v ===== *)
(** * REALITY: the certificate and the client's hello
    Models crates/skadi-transport/src/reality/cert.rs, the TLS side of server.rs
    ([accept_reality_client]) and the REALITY part of third_party/rustls-reality:
    reality.rs, reality/client.rs (the sealed ClientHello, the key slot shared by the
    connections of a transport) and reality/verifier.rs (the client's check of the
    certificate). rcgen, x509-parser, rustls-webpki and ring's HMAC are the fields of
    a class with the laws their documentation states. *)

From Stdlib Require Import Ascii String.
From stdpp Require Import base list list_numbers numbers strings.
From S2P Require Import Prelude Core Io Relay Hello Reality.

(** ** What the crates offer *)

Inductive DnType :=
| CommonName
| CountryName
| LocalityName
| StateOrProvinceName
| OrganizationName
| OrganizationalUnitName.

#[export] Instance DnType_eq_dec : EqDecision DnType.
Proof. solve_decision. Defined.

Inductive SanType := DnsName (name : string) | IpAddress (ip : IpAddr).
Inductive KeyUsagePurpose := DigitalSignature | KeyEncipherment.
Inductive ExtendedKeyUsagePurpose := ServerAuth.

(** x509-parser's view of a certificate: what cert.rs reads of it. An attribute is
    its object identifier and its value as text, or why it is none. *)
Inductive GeneralName := GnDns (name : string) | GnIp (ip : bytes) | GnOther.

Inductive ParsedExtension :=
| SubjectAlternativeName (general_names : list GeneralName)
| KeyUsage (digital_signature key_encipherment : bool)
| ExtendedKeyUsage (server_auth : bool)
| OtherExtension.

Record X509Certificate := {
  raw_serial : bytes;
  valid_from : Z;
  valid_until : Z;
  subject : list (list (list Z * (anyhow + string)));
  extensions : list ParsedExtension
}.

(** rcgen's [CertificateParams]: the fields the code sets, over the [dn] of the
    crate and the fields it leaves alone. *)
Record CertificateParams (dn rest : Type) := {
  serial_number : option bytes;
  not_before : Z;
  not_after : Z;
  distinguished_name : dn;
  subject_alt_names : list SanType;
  key_usages : list KeyUsagePurpose;
  extended_key_usages : list ExtendedKeyUsagePurpose;
  other_params : rest
}.
Arguments serial_number {dn rest} _.
Arguments not_before {dn rest} _.
Arguments not_after {dn rest} _.
Arguments distinguished_name {dn rest} _.
Arguments subject_alt_names {dn rest} _.
Arguments key_usages {dn rest} _.
Arguments extended_key_usages {dn rest} _.
Arguments other_params {dn rest} _.
Arguments Build_CertificateParams {dn rest}.

(** The SubjectPublicKeyInfo of an Ed25519 key (RFC 8410): a fixed header, then the key. *)
Definition ed25519_spki (key : bytes) : bytes :=
  [0x30; 0x2a; 0x30; 0x05; 0x06; 0x03; 0x2b; 0x65; 0x70; 0x03; 0x21; 0x00] ++ key.

Class CertCrates := {
  (** rcgen *)
  KeyPair : Type;
  public_key_raw : KeyPair -> bytes;
  serialize_der : KeyPair -> bytes;
  Dn : Type;
  ParamsRest : Type;
  dn_new : Dn;
  dn_push : Dn -> DnType -> string -> Dn;
  dn_get : Dn -> DnType -> option string;
  ia5_error : string -> option anyhow;
  params_new : list string -> res anyhow (CertificateParams Dn ParamsRest);
  params_default : CertificateParams Dn ParamsRest;
  self_signed : CertificateParams Dn ParamsRest -> KeyPair -> res anyhow bytes;
  (** x509-parser, rustls-webpki, ring *)
  x509_from_der : bytes -> res anyhow X509Certificate;
  end_entity_spki : bytes -> option bytes;
  hmac_sha512 : bytes -> bytes -> bytes;
  hmac_sha256 : bytes -> bytes -> bytes;
  (** lengths of the primitives *)
  public_key_raw_length kp : length (public_key_raw kp) = 32%nat;
  hmac_sha512_length key msg : length (hmac_sha512 key msg) = 64%nat;
  hmac_sha256_length key msg : length (hmac_sha256 key msg) = 32%nat;
  (** a distinguished name is a map from attribute types *)
  dn_get_new ty : dn_get dn_new ty = None;
  dn_get_push dn ty v ty' : dn_get (dn_push dn ty v) ty' = if bool_decide (ty' = ty) then Some v else dn_get dn ty';
  (** a certificate ends with its signature, 64 bytes for Ed25519; reading the key of
      a certificate does not look at the signature *)
  self_signed_layout p kp der :
    self_signed p kp = Ok der -> (64 < length der)%nat /\ end_entity_spki der = Some (ed25519_spki (public_key_raw kp));
  end_entity_signature p kp der sig :
    self_signed p kp = Ok der -> length sig = 64%nat ->
    end_entity_spki (take (length der - 64) der ++ sig) = end_entity_spki der;
  (** the crates return errors, they do not panic *)
  params_new_calm l : params_new l <> Panic;
  self_signed_calm p kp : self_signed p kp <> Panic;
  x509_from_der_calm der : x509_from_der der <> Panic
}.

(** ** cert.rs *)

Section Cert.
Context `{CertCrates}.

(** What [generate_reality_cert] draws: the key pair, the serial number, the jitter,
    and the time in seconds. *)
Record cert_draws := {
  cd_key : res anyhow KeyPair;
  cd_serial : bytes;
  cd_jitter : bytes;
  cd_now : Z
}.

(** [OffsetDateTime] reaches from year -9999 to 9999; its arithmetic panics outside. *)
Definition date_ok (t : Z) : bool := (-377705116800 <=? t) && (t <=? 253402300799).
Definition checked_date (t : Z) : res anyhow Z := if date_ok t then Ok t else Panic.
Definition days (n : Z) : Z := n * 86400.

(** [cert_der[sig_pos..].copy_from_slice(signature)]: the lengths must agree. *)
Definition copy_tail (l : bytes) (pos : nat) (src : bytes) : res anyhow bytes :=
  if (pos <=? length l)%nat && (length src =? length l - pos)%nat then Ok (take pos l ++ src) else Panic.

Definition patch_reality_signature (cert_der auth_key pub_key_raw : bytes) : res anyhow bytes :=
  if (length cert_der <? 64)%nat then Err (bail "generated certificate DER is too short") else
  let sig_pos := (length cert_der - 64)%nat in
  copy_tail cert_der sig_pos (hmac_sha512 auth_key pub_key_raw).

Definition build_fallback_params (draws : cert_draws) (server_name : string)
    : res anyhow (CertificateParams Dn ParamsRest) :=
  let serial_bytes := alter (fun b => Z.lor b 1) O (cd_serial draws) in
  j0 ← idx (cd_jitter draws) 0;
  j1 ← idx (cd_jitter draws) 1;
  let days_ago := 30 + j0 mod 60 in
  let days_valid := 365 + j1 mod 365 in
  not_before ← checked_date (cd_now draws - days days_ago);
  not_after ← checked_date (not_before + days days_valid);
  params ← params_new [server_name];
  Ok {| serial_number := Some serial_bytes;
        not_before := not_before;
        not_after := not_after;
        distinguished_name := dn_push dn_new CommonName server_name;
        subject_alt_names := subject_alt_names params;
        key_usages := [DigitalSignature];
        extended_key_usages := [ServerAuth];
        other_params := other_params params |}.

(** The attribute types of X.520 under 2.5.4. *)
Definition map_dn_type (oid : list Z) : option DnType :=
  if bool_decide (oid = [2; 5; 4; 3]) then Some CommonName
  else if bool_decide (oid = [2; 5; 4; 6]) then Some CountryName
  else if bool_decide (oid = [2; 5; 4; 7]) then Some LocalityName
  else if bool_decide (oid = [2; 5; 4; 8]) then Some StateOrProvinceName
  else if bool_decide (oid = [2; 5; 4; 10]) then Some OrganizationName
  else if bool_decide (oid = [2; 5; 4; 11]) then Some OrganizationalUnitName
  else None.

Fixpoint push_attributes (dn : Dn) (attrs : list (list Z * (anyhow + string))) : res anyhow Dn :=
  match attrs with
  | [] => Ok dn
  | (_, inl e) :: _ => Err (add_context "invalid subject attribute encoding" e)
  | (oid, inr value) :: attrs =>
    push_attributes (match map_dn_type oid with Some ty => dn_push dn ty value | None => dn end) attrs
  end.

(** The attributes of all the relative names, in order. *)
Definition parse_distinguished_name (subject : list (list (list Z * (anyhow + string)))) : res anyhow Dn :=
  push_attributes dn_new (concat subject).

Definition ip_of_octets (ip : bytes) : option IpAddr :=
  match ip with
  | [a; b; c; d] => Some (V4 (Ipv4 a b c d))
  | _ => if (length ip =? 16)%nat then Some (V6 ip) else None
  end.

Fixpoint push_general_names (sans : list SanType) (names : list GeneralName) : res anyhow (list SanType) :=
  match names with
  | [] => Ok sans
  | GnDns dns :: names =>
    match ia5_error dns with
    | Some e => Err (add_context "invalid DNS SAN" e)
    | None => push_general_names (sans ++ [DnsName dns]) names
    end
  | GnIp ip :: names =>
    push_general_names (match ip_of_octets ip with Some ip => sans ++ [IpAddress ip] | None => sans end) names
  | GnOther :: names => push_general_names sans names
  end.

Fixpoint san_loop (sans : list SanType) (exts : list ParsedExtension) : res anyhow (list SanType) :=
  match exts with
  | [] => Ok sans
  | SubjectAlternativeName names :: exts => sans ← push_general_names sans names; san_loop sans exts
  | _ :: exts => san_loop sans exts
  end.

Definition parse_subject_alt_names (cert : X509Certificate) : res anyhow (list SanType) :=
  san_loop [] (extensions cert).

Fixpoint usage_loop (usages : list KeyUsagePurpose) (ext_usages : list ExtendedKeyUsagePurpose)
    (exts : list ParsedExtension) : list KeyUsagePurpose * list ExtendedKeyUsagePurpose :=
  match exts with
  | [] => (usages, ext_usages)
  | KeyUsage ds ke :: exts =>
    usage_loop (usages ++ (if ds then [DigitalSignature] else []) ++ (if ke then [KeyEncipherment] else []))
      ext_usages exts
  | ExtendedKeyUsage sa :: exts => usage_loop usages (ext_usages ++ (if sa then [ServerAuth] else [])) exts
  | _ :: exts => usage_loop usages ext_usages exts
  end.

(** [if v.is_empty() { v.push(d) }]. *)
Definition or_one {A} (d : A) (l : list A) : list A := match l with [] => [d] | _ => l end.

Definition apply_key_usages (cert : X509Certificate) : list KeyUsagePurpose * list ExtendedKeyUsagePurpose :=
  let '(usages, ext_usages) := usage_loop [] [] (extensions cert) in
  (or_one DigitalSignature usages, or_one ServerAuth ext_usages).

Definition build_impersonate_params (der : bytes) (server_name : string)
    : res anyhow (CertificateParams Dn ParamsRest) :=
  cert ← map_err (add_context "parse impersonate cert DER") (x509_from_der der);
  dn ← parse_distinguished_name (subject cert);
  let dn := match dn_get dn CommonName with Some _ => dn | None => dn_push dn CommonName server_name end in
  sans ← parse_subject_alt_names cert;
  let '(usages, ext_usages) := apply_key_usages cert in
  sans ← match sans with
         | [] => match ia5_error server_name with
                 | Some e => Err (add_context "invalid DNS name in SNI" e)
                 | None => Ok [DnsName server_name]
                 end
         | _ => Ok sans
         end;
  Ok {| serial_number := Some (raw_serial cert);
        not_before := valid_from cert;
        not_after := valid_until cert;
        distinguished_name := dn;
        subject_alt_names := sans;
        key_usages := usages;
        extended_key_usages := ext_usages;
        other_params := other_params params_default |}.

(** The certificate and the private key, both in DER. *)
Definition generate_reality_cert (draws : cert_draws) (auth_key : bytes) (server_name : string)
    (impersonate_der : option bytes) : res anyhow (bytes * bytes) :=
  key_pair ← cd_key draws;
  params ← match impersonate_der with
           | Some der => build_impersonate_params der server_name
           | None => build_fallback_params draws server_name
           end;
  cert_der ← self_signed params key_pair;
  cert_der ← patch_reality_signature cert_der auth_key (public_key_raw key_pair);
  Ok (cert_der, serialize_der key_pair).
End Cert.

(** ** verifier.rs *)

Inductive TlsError := BadEncoding | BadSignature | General (msg : string) | InvalidKeyShare.

Definition AUTH_HMAC_TAIL_LEN : nat := 64.
Definition ED25519_OID : bytes := [0x06; 0x03; 0x2b; 0x65; 0x70].

Section Verifier.
Context `{CertCrates}.

(** [bytes.windows(n).any(|w| w == pat)]. *)
Definition has_window (pat l : bytes) : bool :=
  existsb (fun i => bool_decide (take (length pat) (drop i l) = pat)) (seq 0 (length l - length pat + 1)).

Definition ed25519_public_key_raw (cert_der : bytes) : res TlsError bytes :=
  match end_entity_spki cert_der with
  | None => Err BadEncoding
  | Some spki =>
    if negb (has_window ED25519_OID spki)
    then Err (General "REALITY leaf certificate must use Ed25519")
    else if (length spki <? 32)%nat then Err BadEncoding
    else slice_from spki (length spki - 32)
  end.

Definition verify_server_cert_hmac (auth_key cert_der : bytes) : res TlsError unit :=
  if (length cert_der <? AUTH_HMAC_TAIL_LEN + 1)%nat then Err BadEncoding else
  expected ← slice_from cert_der (length cert_der - AUTH_HMAC_TAIL_LEN);
  pub_key ← ed25519_public_key_raw cert_der;
  let computed := hmac_sha512 auth_key pub_key in
  if negb (length computed =? AUTH_HMAC_TAIL_LEN)%nat
  then Err (General "internal error: REALITY HMAC length mismatch")
  else if bool_decide (expected = computed) then Ok tt else Err BadSignature.
End Verifier.

(** ** reality.rs *)

Section Inject.
Context `{CertCrates}.

(** The server's random as it is sent. *)
Definition inject_auth (server_random : bytes) (config : RealityConfig) (client_random : bytes) : res TlsError bytes :=
  match reality_validate config with
  | Some e => Err (General e)
  | None =>
    prefix ← slice server_random 0 20;
    tag ← slice (hmac_sha256 (rc_private_key config) (prefix ++ client_random)) 0 12;
    Ok (take 20 server_random ++ tag)
  end.
End Inject.

(** [RealityConfig::new], [with_verify_client], [with_dest] and [with_short_ids]. *)
Definition reality_config_new (private_key : bytes) : RealityConfig :=
  {| rc_private_key := private_key; rc_verify_client := true; rc_dest := None; rc_short_ids := [] |}.

Definition with_verify_client (verify : bool) (c : RealityConfig) : RealityConfig :=
  {| rc_private_key := rc_private_key c; rc_verify_client := verify; rc_dest := rc_dest c; rc_short_ids := rc_short_ids c |}.

Definition with_dest (dest : string) (c : RealityConfig) : RealityConfig :=
  {| rc_private_key := rc_private_key c; rc_verify_client := rc_verify_client c; rc_dest := Some dest; rc_short_ids := rc_short_ids c |}.

Definition with_short_ids (short_ids : list bytes) (c : RealityConfig) : RealityConfig :=
  {| rc_private_key := rc_private_key c; rc_verify_client := rc_verify_client c; rc_dest := rc_dest c; rc_short_ids := short_ids |}.

(** [verify_client] of the library, which only looks at lengths. *)
Definition rustls_verify_client (session_id client_random : bytes) (config : RealityConfig) : bool :=
  (length (rc_private_key config) =? 32)%nat && (length session_id =? 32)%nat.

(** ** client.rs *)

Record RealityClientSettings := {
  cs_server_public_key : bytes;
  cs_short_id : bytes;
  cs_eph_secret : bytes
}.

(** [RealityAuthKeySlot]: the key once [ready] is set. The settings, the verifier and
    every connection of a transport share one slot. *)
Abbreviation auth_slot := (option bytes).

Definition slot_get (slot : auth_slot) : res TlsError bytes :=
  match slot with
  | Some key => Ok key
  | None => Err (General "REALITY auth_key not ready before certificate verify")
  end.

(** [RealityAuthKeySlot::set]. *)
Definition slot_set (key : bytes) : auth_slot := Some key.

Section HelloSeal.
Context `{RealityCrypto}.

(** The key share of a hello, [PrecomputedX25519]: the secret of the settings. *)
Record PrecomputedX25519 := { px_secret : bytes; px_pub_bytes : bytes }.

Definition precomputed_from_secret (secret : bytes) : PrecomputedX25519 :=
  {| px_secret := secret; px_pub_bytes := x25519_public secret |}.

Definition start_key_share (settings : RealityClientSettings) : PrecomputedX25519 :=
  precomputed_from_secret (cs_eph_secret settings).

Definition precomputed_complete (self : PrecomputedX25519) (peer_pub_key : bytes) : res TlsError bytes :=
  if negb (length peer_pub_key =? 32)%nat then Err InvalidKeyShare
  else Ok (x25519 (px_secret self) peer_pub_key).

Definition client_auth_key (eph_secret server_public client_random : bytes) : res TlsError bytes :=
  match hkdf_expand (take 20 client_random) (x25519 eph_secret server_public) REALITY_INFO 32 with
  | Some key => Ok key
  | None => Panic
  end.

Definition hello_session_offset (hello_encoded : bytes) : res TlsError nat :=
  if (length hello_encoded <? 40)%nat || negb (bool_decide (head hello_encoded = Some 0x01))
  then Err (General "invalid ClientHello encoding for REALITY")
  else Ok (4 + 2 + 32 + 1)%nat.

Definition seal_session_id (auth_key client_random hello_aad short_id ts : bytes) : res TlsError bytes :=
  if negb (length auth_key =? 32)%nat then Err (General "REALITY AES-GCM init failed") else
  nonce ← slice client_random 20 32;
  if (8 <? length short_id)%nat then Panic else
  match aes_seal auth_key nonce hello_aad (session_plaintext short_id ts) with
  | None => Err (General "REALITY session_id seal failed")
  | Some sealed => if negb (length sealed =? 32)%nat then Err (General "REALITY session_id length mismatch") else Ok sealed
  end.

(** [apply_client_hello] on the encoded hello: the session id it puts into the
    message and the slot afterwards. *)
Definition apply_client_hello (hello_raw client_random ts : bytes) (settings : RealityClientSettings)
    (slot : auth_slot) : res TlsError bytes * auth_slot :=
  if (length (cs_short_id settings) =? 0)%nat || (8 <? length (cs_short_id settings))%nat
  then (Err (General "REALITY short_id must be 1..8 bytes"), slot) else
  match client_auth_key (cs_eph_secret settings) (cs_server_public_key settings) client_random with
  | Ok auth_key =>
    match (offset ← hello_session_offset hello_raw;
           seal_session_id auth_key client_random (zero_32 hello_raw offset) (cs_short_id settings) ts) with
    | Ok session_id => (Ok session_id, slot_set auth_key)
    | r => (r, slot)
    end
  | r => (r, slot)
  end.
End HelloSeal.

Section Deferred.
Context `{CertCrates}.

(** [DeferredRealityServerCertVerifier::verify_server_cert]. *)
Definition verify_server_cert (slot : auth_slot) (end_entity : bytes) (intermediates : list bytes) : res TlsError unit :=
  match intermediates with
  | _ :: _ => Err (General "REALITY rejects TLS certificate chains with intermediates")
  | [] =>
    auth_key ← slot_get slot;
    verify_server_cert_hmac auth_key end_entity
  end.

(** [RealityServerCertVerifier::verify_server_cert], with a key known beforehand. *)
Definition verify_server_cert_with (auth_key end_entity : bytes) (intermediates : list bytes) : res TlsError unit :=
  match intermediates with
  | _ :: _ => Err (General "REALITY rejects TLS certificate chains with intermediates")
  | [] => verify_server_cert_hmac auth_key end_entity
  end.
End Deferred.

(** ** server.rs: TLS with a verified client *)

(** The [ServerConfig] of one connection. *)
Record ServerTls := {
  st_cert : bytes;
  st_key : bytes;
  st_reality : RealityConfig;
  st_alpn : list bytes
}.

(** rustls and tokio: the provider, the versions, the key's check, and how the
    handshake ends within its five seconds ([None]: it does not). *)
Record tls_steps := {
  ts_provider : res anyhow unit;
  ts_versions : option anyhow;
  ts_single_cert : bytes -> bytes -> option string;
  ts_handshake : ServerTls -> option (option string)
}.

Section AcceptClient.
Context `{CertCrates}.

Definition accept_reality_client (env : tls_steps) (draws : cert_draws) (self : RealityTransport)
    (impersonate_cert : option bytes) (server_name : string) (auth_key : bytes) : res RealityError ServerTls :=
  ck ← map_err OtherError (generate_reality_cert draws auth_key server_name impersonate_cert);
  let '(cert, key) := ck in
  let conn := {| rc_private_key := auth_key; rc_verify_client := false;
                 rc_dest := rc_dest (rt_reality_config self); rc_short_ids := rc_short_ids (rt_reality_config self) |} in
  _ ← map_err OtherError (ts_provider env);
  match ts_versions env with
  | Some e => Err (OtherError (add_context "unsupported TLS protocol versions" e))
  | None =>
    match ts_single_cert env cert key with
    | Some e => Err (Handshake e)
    | None =>
      let config := {| st_cert := cert; st_key := key; st_reality := conn;
                       st_alpn := [bytes_of_string "h2"; bytes_of_string "http/1.1"] |} in
      match ts_handshake env config with
      | Some None => Ok config
      | Some (Some e) => Err (Handshake e)
      | None => Err HandshakeTimeout
      end
    end
  end.
End AcceptClient.

(** ** One slot, several connections *)

(** What the connections of one transport do with their slot, in the order in which
    it happens: a connection seals its hello, or checks the certificate it got. *)
Inductive slot_event :=
| SealHello (hello_raw client_random ts : bytes)
| CheckCert (end_entity : bytes).

Section Slot.
Context `{RealityCrypto} `{CertCrates}.

Definition slot_step (settings : RealityClientSettings) (slot : auth_slot) (ev : slot_event)
    : res TlsError unit * auth_slot :=
  match ev with
  | SealHello hello random ts =>
    let '(r, slot) := apply_client_hello hello random ts settings slot in
    ((_ ← r; Ok tt), slot)
  | CheckCert cert => (verify_server_cert slot cert [], slot)
  end.

Fixpoint slot_run (settings : RealityClientSettings) (slot : auth_slot) (evs : list slot_event)
    : list (res TlsError unit) :=
  match evs with
  | [] => []
  | ev :: evs => let '(r, slot) := slot_step settings slot ev in r :: slot_run settings slot evs
  end.
End Slot.

(** ** Lemmas *)

Section CertLemmas.
Context `{CertCrates}.

Lemma patched der auth_key pub :
  (64 < length der)%nat ->
  patch_reality_signature der auth_key pub = Ok (take (length der - 64) der ++ hmac_sha512 auth_key pub).
Proof.
  intros Hl. unfold patch_reality_signature, copy_tail. rewrite hmac_sha512_length.
  destruct (_ <? _)%nat eqn:E; bool_hyps; [lia|]. clear E.
  destruct (_ && _) eqn:E; [done|]. apply andb_false_iff in E as [E|E]; bool_hyps; lia.
Qed.

(** What a generated certificate is made of. *)
Lemma generated draws auth_key name imp cert priv :
  generate_reality_cert draws auth_key name imp = Ok (cert, priv) ->
  exists kp params der, cd_key draws = Ok kp /\ self_signed params kp = Ok der /\ priv = serialize_der kp
    /\ cert = take (length der - 64) der ++ hmac_sha512 auth_key (public_key_raw kp).
Proof.
  unfold generate_reality_cert. destruct (cd_key draws) as [kp|e|]; [|done..]. cbn [mbind res_bind].
  destruct (match imp with Some der => _ | None => _ end) as [params|e|]; [|done..]. cbn [mbind res_bind].
  destruct (self_signed params kp) as [der|e|] eqn:Hs; [|done..]. cbn [mbind res_bind].
  destruct (self_signed_layout params kp der Hs) as [Hl _]. rewrite patched by done. cbn [mbind res_bind].
  intros [= <- <-]. by exists kp, params, der.
Qed.

Lemma spki_key cert key :
  end_entity_spki cert = Some (ed25519_spki key) -> length key = 32%nat -> ed25519_public_key_raw cert = Ok key.
Proof.
  intros Hs Hl. unfold ed25519_public_key_raw. rewrite Hs.
  assert (Hlen : length (ed25519_spki key) = 44%nat) by (unfold ed25519_spki; rewrite length_app, Hl; done).
  assert (has_window ED25519_OID (ed25519_spki key) = true) as ->.
  { unfold has_window. rewrite Hlen. apply existsb_exists. exists 4%nat.
    split; [apply in_seq; cbn; lia|]. by apply bool_decide_eq_true_2. }
  cbn [negb]. destruct (_ <? _)%nat eqn:E; bool_hyps; [lia|]. rewrite slice_from_ok by lia. rewrite Hlen. done.
Qed.

Lemma hmac_checked cert body tag key auth_key :
  cert = body ++ tag -> length tag = 64%nat -> body <> [] ->
  end_entity_spki cert = Some (ed25519_spki key) -> length key = 32%nat ->
  verify_server_cert_hmac auth_key cert = if bool_decide (tag = hmac_sha512 auth_key key) then Ok tt else Err BadSignature.
Proof.
  intros Hc Ht Hb Hs Hk. unfold verify_server_cert_hmac, AUTH_HMAC_TAIL_LEN.
  assert (Hl : length cert = (length body + 64)%nat) by (rewrite Hc, length_app; lia).
  assert (1 <= length body)%nat by (destruct body; [done|cbn; lia]).
  destruct (_ <? _)%nat eqn:E; bool_hyps; [lia|]. rewrite slice_from_ok by lia. cbn [mbind res_bind].
  rewrite (spki_key cert key) by done. cbn [mbind res_bind]. rewrite hmac_sha512_length. cbn [Nat.eqb negb].
  rewrite Hl. replace (length body + 64 - 64)%nat with (length body) by lia. by rewrite Hc, drop_app_length.
Qed.

(** The client's verdict on a generated certificate depends on its key alone. *)
Lemma generated_checked draws auth_key name imp cert priv kp k :
  generate_reality_cert draws auth_key name imp = Ok (cert, priv) -> cd_key draws = Ok kp ->
  verify_server_cert_hmac k cert
  = if bool_decide (hmac_sha512 auth_key (public_key_raw kp) = hmac_sha512 k (public_key_raw kp))
    then Ok tt else Err BadSignature.
Proof.
  intros (kp' & params & der & Hk & Hs & _ & Hc)%generated Hk'. rewrite Hk in Hk'. injection Hk' as ->.
  destruct (self_signed_layout params kp der Hs) as [Hl Hspki].
  apply (hmac_checked cert (take (length der - 64) der)); [done|apply hmac_sha512_length| | |apply public_key_raw_length].
  - intros Hn. apply (f_equal length) in Hn. rewrite length_take in Hn. cbn in Hn. lia.
  - rewrite Hc, (end_entity_signature params kp); [done|done|apply hmac_sha512_length].
Qed.

(** *** Parameters *)

Lemma push_attributes_calm attrs : forall dn, push_attributes dn attrs <> Panic.
Proof. induction attrs as [|[oid [e|v]] attrs IH]; intros dn; cbn; [done|done|apply IH]. Qed.

Lemma push_general_names_calm names : forall sans, push_general_names sans names <> Panic.
Proof.
  induction names as [|[dns|ip|] names IH]; intros sans; cbn; [done| |apply IH..].
  destruct (ia5_error dns); [done|apply IH].
Qed.

Lemma san_loop_calm exts : forall sans, san_loop sans exts <> Panic.
Proof.
  induction exts as [|[names|ds ke|sa|] exts IH]; intros sans; cbn; [done| |apply IH..].
  pose proof (push_general_names_calm names sans). destruct (push_general_names sans names); [apply IH|done..].
Qed.

(** The last common name of a subject, or [o]. *)
Definition last_cn (o : option string) (attrs : list (list Z * (anyhow + string))) : option string :=
  foldl (fun o a => match a with
                    | (oid, inr v) => if bool_decide (oid = [2; 5; 4; 3]) then Some v else o
                    | _ => o
                    end) o attrs.

Lemma map_dn_type_cn oid : map_dn_type oid = Some CommonName <-> oid = [2; 5; 4; 3].
Proof.
  unfold map_dn_type. split; [|intros ->; done].
  case_bool_decide; [done|]. repeat (case_bool_decide; [done|]). done.
Qed.

Lemma push_attributes_cn attrs : forall dn dn',
  push_attributes dn attrs = Ok dn' -> dn_get dn' CommonName = last_cn (dn_get dn CommonName) attrs.
Proof.
  induction attrs as [|[oid [e|v]] attrs IH]; intros dn dn'; cbn [push_attributes]; [by intros [= ->]|done|].
  intros Hp. rewrite (IH _ _ Hp). unfold last_cn. cbn [foldl]. f_equal. destruct (map_dn_type oid) as [ty|] eqn:Ht.
  - rewrite dn_get_push. repeat case_bool_decide; try done; exfalso.
    + subst ty. by apply map_dn_type_cn in Ht.
    + subst oid. by injection Ht as <-.
  - case_bool_decide; [subst oid; done|done].
Qed.

Lemma or_one_ne {A} (d : A) l : or_one d l <> [].
Proof. by destruct l. Qed.

(** [j mod n] of a byte stays below [n]. *)
Lemma fallback_dates draws name params :
  build_fallback_params draws name = Ok params ->
  not_before params <= cd_now draws - days 30 /\ cd_now draws + days 276 <= not_after params
  /\ serial_number params = Some (alter (fun b => Z.lor b 1) O (cd_serial draws))
  /\ dn_get (distinguished_name params) CommonName = Some name.
Proof.
  unfold build_fallback_params, idx.
  destruct (cd_jitter draws !! 0%nat) as [j0|]; [|done]. destruct (cd_jitter draws !! 1%nat) as [j1|]; [|done].
  cbn [mbind res_bind]. unfold checked_date. destruct (date_ok _); [|done]. cbn [mbind res_bind].
  destruct (date_ok _); [|done]. cbn [mbind res_bind]. destruct (params_new [name]); [|done..].
  cbn [mbind res_bind]. intros [= <-]. cbn [not_before not_after serial_number distinguished_name].
  pose proof (Z.mod_pos_bound j0 60 ltac:(lia)). pose proof (Z.mod_pos_bound j1 365 ltac:(lia)).
  unfold days. split_and!; [lia|lia|done|]. by rewrite dn_get_push, bool_decide_eq_true_2.
Qed.

(** What the code may rely on of the draws: two bytes of jitter and a present time
    some centuries away from the end of the calendar. *)
Definition draws_ok (draws : cert_draws) : Prop :=
  length (cd_jitter draws) = 2%nat /\ bytes_ok (cd_serial draws) /\ length (cd_serial draws) = 16%nat
  /\ 0 <= cd_now draws <= 250000000000 /\ cd_key draws <> Panic.

Lemma checked_date_ok t : -377705116800 <= t <= 253402300799 -> checked_date t = Ok t.
Proof. intros Ht. unfold checked_date, date_ok. by rewrite !(proj2 (Z.leb_le _ _)) by lia. Qed.

Lemma fallback_returns draws name :
  draws_ok draws -> build_fallback_params draws name <> Panic
  /\ forall p, params_new [name] = Ok p -> exists params, build_fallback_params draws name = Ok params.
Proof.
  intros (Hj & _ & _ & Hn & _). unfold build_fallback_params, idx.
  destruct (cd_jitter draws) as [|j0 [|j1 [|]]]; try done. cbn [lookup list_lookup mbind res_bind].
  pose proof (Z.mod_pos_bound j0 60 ltac:(lia)). pose proof (Z.mod_pos_bound j1 365 ltac:(lia)).
  rewrite checked_date_ok by (unfold days; lia). cbn [mbind res_bind].
  rewrite checked_date_ok by (unfold days; lia). cbn [mbind res_bind]. split.
  - pose proof (params_new_calm [name]). by destruct (params_new [name]).
  - intros p ->. cbn [mbind res_bind]. by eexists.
Qed.

Lemma impersonate_calm der name : build_impersonate_params der name <> Panic.
Proof.
  unfold build_impersonate_params, parse_distinguished_name, parse_subject_alt_names, apply_key_usages.
  pose proof (x509_from_der_calm der). destruct (x509_from_der der) as [cert|e|]; [|done..]. cbn [map_err mbind res_bind].
  pose proof (push_attributes_calm (concat (subject cert)) dn_new).
  destruct (push_attributes _ _) as [dn|e|]; [|done..]. cbn [mbind res_bind].
  pose proof (san_loop_calm (extensions cert) []). destruct (san_loop _ _) as [sans|e|]; [|done..]. cbn [mbind res_bind].
  destruct (usage_loop _ _ _). destruct sans; [|done]. by destruct (ia5_error name).
Qed.
End CertLemmas.

Section SealLemmas.
Context `{RealityCrypto}.

Lemma client_auth_key_some eph pub random :
  exists key, client_auth_key eph pub random = Ok key /\ length key = 32%nat
    /\ hkdf_expand (take 20 random) (x25519 eph pub) REALITY_INFO 32 = Some key.
Proof.
  destruct (hkdf_expand_ok (take 20 random) (x25519 eph pub) REALITY_INFO 32 ltac:(lia)) as (key & Hk & Hl).
  exists key. unfold client_auth_key. by rewrite Hk.
Qed.

(** A ClientHello message with the random and the time it is sealed with. *)
Definition sealable (hello random ts : bytes) : Prop :=
  length random = 32%nat /\ length ts = 4%nat /\ (40 <= length hello)%nat /\ head hello = Some 1.

(** Sealing a handshake message succeeds, whatever the slot held. *)
Lemma applied hello random ts settings slot :
  (1 <= length (cs_short_id settings) <= 8)%nat -> sealable hello random ts ->
  exists key sid,
    client_auth_key (cs_eph_secret settings) (cs_server_public_key settings) random = Ok key
    /\ length key = 32%nat /\ length sid = 32%nat
    /\ aes_seal key (take 12 (drop 20 random)) (zero_32 hello 39) (session_plaintext (cs_short_id settings) ts) = Some sid
    /\ apply_client_hello hello random ts settings slot = (Ok sid, Some key).
Proof.
  intros Hid (Hr & Ht & Hl & Hh).
  destruct (client_auth_key_some (cs_eph_secret settings) (cs_server_public_key settings) random) as (key & Hk & Hkl & _).
  destruct (aes_seal_ok key (take 12 (drop 20 random)) (zero_32 hello 39)
    (session_plaintext (cs_short_id settings) ts) Hkl) as (sid & Hs & Hsl).
  assert (Hp : length (session_plaintext (cs_short_id settings) ts) = 16%nat)
    by (unfold session_plaintext; rewrite !length_app, length_replicate; cbn [length]; lia).
  rewrite Hp in Hsl. exists key, sid. split_and!; try done. unfold apply_client_hello.
  destruct (_ || _) eqn:E; [apply orb_true_iff in E as [E|E]; bool_hyps; lia|]. clear E. rewrite Hk.
  unfold hello_session_offset, seal_session_id. rewrite Hh. cbn [bool_decide].
  rewrite (bool_decide_eq_true_2 (Some 1 = Some 1)) by done. cbn [negb]. rewrite orb_false_r.
  destruct (_ <? _)%nat eqn:E; bool_hyps; [lia|]. clear E. cbn [mbind res_bind]. rewrite Hkl. cbn [Nat.eqb negb].
  rewrite slice_ok by lia. cbn [mbind res_bind Nat.sub]. destruct (_ <? _)%nat eqn:E; bool_hyps; [lia|].
  change (4 + 2 + 32 + 1)%nat with 39%nat. cbn [mbind res_bind]. by rewrite Hs, Hsl.
Qed.

(** The encoding of a hello with a session id is such a message. *)
Lemma handshake_sealable h ts :
  hello_ok h -> length (h_session h) = 32%nat -> length ts = 4%nat -> sealable (encode_handshake h) (h_random h) ts.
Proof.
  intros Hok Hs Ht. split_and!; [by destruct Hok as (_ & ? & _)|done| |done].
  rewrite length_handshake, length_app, length_vec8 by done. lia.
Qed.

Lemma seal_step `{CertCrates} settings slot hello random ts key :
  (1 <= length (cs_short_id settings) <= 8)%nat -> sealable hello random ts ->
  client_auth_key (cs_eph_secret settings) (cs_server_public_key settings) random = Ok key ->
  slot_step settings slot (SealHello hello random ts) = (Ok tt, Some key).
Proof.
  intros Hid Hs Hk. destruct (applied hello random ts settings slot Hid Hs) as (key' & sid & Hk' & _ & _ & _ & Ha).
  rewrite Hk in Hk'. injection Hk' as <-. cbn [slot_step]. by rewrite Ha.
Qed.
End SealLemmas.

(** ** Properties *)

(** the client accepts the certificate of its own session and of no other. A
    certificate generated for a key passes the client's check under that key; under
    any key whose HMAC of the certificate's public key differs it is refused as a bad
    signature. *)
Theorem reality_cert_binds_key `{CertCrates} (draws : cert_draws) (auth_key k : bytes) (name : string)
    (imp : option bytes) (cert priv : bytes)
    (Hg : generate_reality_cert draws auth_key name imp = Ok (cert, priv)) :
  exists kp, cd_key draws = Ok kp /\ priv = serialize_der kp
    /\ verify_server_cert_hmac auth_key cert = Ok tt
    /\ (hmac_sha512 auth_key (public_key_raw kp) <> hmac_sha512 k (public_key_raw kp) ->
        verify_server_cert_hmac k cert = Err BadSignature).
Proof.
  destruct (generated _ _ _ _ _ _ Hg) as (kp & _ & _ & Hk & _ & Hp & _). exists kp. split_and!; [done|done| |].
  - by rewrite (generated_checked _ _ _ _ _ _ kp _ Hg Hk), bool_decide_eq_true_2.
  - intros Hne. by rewrite (generated_checked _ _ _ _ _ _ kp _ Hg Hk), bool_decide_eq_false_2.
Qed.

(** The server recognises the sealed hello, with the key the client remembers. *)
Lemma hello_recognised `{RealityCrypto} (settings : RealityClientSettings) (slot : auth_slot)
    (private : bytes) (ids : list bytes) (ts : bytes) (h : Hello) :
  hello_ok h -> length (h_session h) = 32%nat -> length ts = 4%nat ->
  cs_server_public_key settings = x25519_public private ->
  (scan None None (h_exts h)).1 = Some (x25519_public (cs_eph_secret settings)) ->
  cs_short_id settings ∈ ids -> length (cs_short_id settings) = 8%nat ->
  exists key sid,
    apply_client_hello (encode_handshake h) (h_random h) ts settings slot = (Ok sid, Some key) /\ length key = 32%nat
    /\ (str_find (hex_encode sid) (hex_encode (encode_handshake (with_session h sid))) = Some 78%nat ->
        exists info, parse_client_hello (encode_record (with_session h sid)) = Ok (Some info)
          /\ verify_client_reality info (encode_record (with_session h sid)) private ids = Ok (Some key)).
Proof.
  intros Hok Hs Ht Hpub Hshare Hid H8.
  destruct (applied (encode_handshake h) (h_random h) ts settings slot ltac:(lia) (handshake_sealable h ts Hok Hs Ht))
    as (key & sid & Hk & Hkl & Hsl & Hseal & Ha).
  exists key, sid. split_and!; [done|done|]. intros Hf. rewrite zeroed_handshake in Hseal by done. apply aes_open_seal in Hseal.
  apply (sealed_recognised {| server_public_key := cs_server_public_key settings; short_id := cs_short_id settings |}
    private (cs_eph_secret settings) ts); try done.
  unfold client_auth_key in Hk. rewrite Hpub, x25519_agree in Hk. destruct (hkdf_expand _ _ _ _); [|done].
  by injection Hk as ->.
Qed.

(** C17: both sides authenticate each other. The REALITY client seals its hello and
    remembers the key; a server that holds the secret of the configured public key
    and the 8-byte short id recognises the hello with the same key (when the session
    id does not also occur earlier in the message), and the certificate it then
    presents is accepted by the client; its random can carry the server's tag. *)
Theorem reality_mutual_authentication `{RealityCrypto} `{CertCrates} (settings : RealityClientSettings)
    (slot : auth_slot) (self : RealityTransport) (ts : bytes) (h : Hello)
    (Hok : hello_ok h) (Hs : length (h_session h) = 32%nat) (Ht : length ts = 4%nat)
    (Hpub : cs_server_public_key settings = x25519_public (rt_private_key self))
    (Hshare : (scan None None (h_exts h)).1 = Some (x25519_public (cs_eph_secret settings)))
    (Hid : cs_short_id settings ∈ rt_short_ids self) (H8 : length (cs_short_id settings) = 8%nat) :
  exists key sid,
    apply_client_hello (encode_handshake h) (h_random h) ts settings slot = (Ok sid, Some key)
    /\ (str_find (hex_encode sid) (hex_encode (encode_handshake (with_session h sid))) = Some 78%nat ->
        exists info, parse_client_hello (encode_record (with_session h sid)) = Ok (Some info)
          /\ verify_client_reality info (encode_record (with_session h sid)) (rt_private_key self) (rt_short_ids self)
             = Ok (Some key))
    /\ forall env draws imp name config, accept_reality_client env draws self imp name key = Ok config ->
         verify_server_cert (Some key) (st_cert config) [] = Ok tt
         /\ forall sr cr, length sr = 32%nat -> exists sr', inject_auth sr (st_reality config) cr = Ok sr' /\ length sr' = 32%nat.
Proof.
  destruct (hello_recognised settings slot (rt_private_key self) (rt_short_ids self) ts h) as (key & sid & Ha & Hkl & Hr); [done..|].
  exists key, sid. split_and!; [done|done|].
  - intros env draws imp name config Hc. unfold accept_reality_client in Hc.
    destruct (generate_reality_cert _ _ _ _) as [[cert priv]|e|] eqn:Hg; [|done..]. cbn [map_err mbind res_bind] in Hc.
    destruct (ts_provider env); [|done..]. cbn [map_err mbind res_bind] in Hc.
    destruct (ts_versions env); [done|]. destruct (ts_single_cert env cert priv); [done|].
    destruct (ts_handshake env _) as [[e|]|]; [done| |done]. injection Hc as <-. cbn [st_cert st_reality].
    destruct (generated _ _ _ _ _ _ Hg) as (kp & _ & _ & Hkp & _). split.
    + cbn. by rewrite (generated_checked _ _ _ _ _ _ kp _ Hg Hkp), bool_decide_eq_true_2.
    + intros sr cr Hsr. unfold inject_auth, reality_validate. cbn [rc_private_key]. rewrite Hkl. cbn [Nat.eqb negb].
      rewrite slice_ok by lia. cbn [mbind res_bind]. rewrite slice_ok by (rewrite hmac_sha256_length; lia).
      eexists. split; [done|]. rewrite length_app, !length_take, length_drop, hmac_sha256_length. lia.
Qed.

(** the two implementations of the client's hello agree. The library's
    [RealityClientAuth] and the client inside rustls derive the same key and seal the
    same session id for every handshake message. *)
Theorem reality_clients_agree `{RealityCrypto} (settings : RealityClientSettings) (slot : auth_slot)
    (hello random ts : bytes)
    (Hid : (1 <= length (cs_short_id settings) <= 8)%nat) (Hse : sealable hello random ts) :
  let auth := {| server_public_key := cs_server_public_key settings; short_id := cs_short_id settings |} in
  exists key sid,
    apply_client_hello hello random ts settings slot = (Ok sid, Some key)
    /\ derive_auth_key auth (cs_eph_secret settings) random = Ok key
    /\ encrypt_session_id auth key random hello ts = Ok sid.
Proof.
  intros auth. destruct (applied hello random ts settings slot Hid Hse) as (key & sid & Hk & Hkl & Hsl & Hseal & Ha).
  destruct Hse as (Hr & Ht & Hl & Hh).
  exists key, sid. split_and!; [done| |].
  - unfold client_auth_key in Hk. unfold derive_auth_key. cbn [auth server_public_key].
    destruct (hkdf_expand _ _ _ _); [by injection Hk as ->|done].
  - unfold encrypt_session_id. cbn [auth short_id].
    destruct (_ || _) eqn:E; [apply orb_true_iff in E as [E|E]; bool_hyps; lia|]. clear E.
    rewrite Hkl. cbn [Nat.eqb negb].
    assert (session_id_offset_in_hello_aad hello = Ok (Some 39%nat)) as ->.
    { unfold session_id_offset_in_hello_aad. rewrite Hh, bool_decide_eq_false_2 by done. cbn [mbind res_bind].
      rewrite Hh, bool_decide_eq_true_2 by done. cbn [negb]. rewrite orb_false_r.
      destruct (_ <? _)%nat eqn:E; bool_hyps; [lia|done]. }
    cbn [mbind res_bind]. by rewrite Hseal, Hsl.
Qed.

(** the key exchange of a REALITY connection. Whatever share the server draws, the
    client and the server end with the same secret; a share of another length is
    refused, and both verifiers of the library take the same certificates once the
    slot holds the key. All hellos sealed with the same settings carry one and the
    same key share. *)
Theorem reality_key_share_agrees `{RealityCrypto} `{CertCrates} (settings : RealityClientSettings) (server_secret : bytes) :
  precomputed_complete (start_key_share settings) (x25519_public server_secret)
    = Ok (x25519 server_secret (px_pub_bytes (start_key_share settings)))
  /\ (forall peer, length peer <> 32%nat -> precomputed_complete (start_key_share settings) peer = Err InvalidKeyShare)
  /\ (forall key cert chain, verify_server_cert (slot_set key) cert chain = verify_server_cert_with key cert chain)
  /\ (forall settings', cs_eph_secret settings' = cs_eph_secret settings -> start_key_share settings' = start_key_share settings).
Proof.
  unfold precomputed_complete, start_key_share. split_and!.
  - by rewrite x25519_public_length, x25519_agree.
  - intros peer Hl. by destruct (Nat.eqb_spec (length peer) 32).
  - done.
  - by intros settings' ->.
Qed.

(** C36: concurrent handshakes break each other. The connections of one transport share
    the key slot. When each seals and checks in turn both certificates are accepted;
    when the second seals its hello before the first has checked its certificate,
    the first connection refuses the genuine certificate of its server. *)
Theorem reality_shared_slot_race `{RealityCrypto} `{CertCrates} (settings : RealityClientSettings) (slot : auth_slot)
    (h1 r1 t1 h2 r2 t2 : bytes)
    (Hid : (1 <= length (cs_short_id settings) <= 8)%nat)
    (S1 : sealable h1 r1 t1) (S2 : sealable h2 r2 t2) :
  exists key1 key2,
    client_auth_key (cs_eph_secret settings) (cs_server_public_key settings) r1 = Ok key1
    /\ client_auth_key (cs_eph_secret settings) (cs_server_public_key settings) r2 = Ok key2
    /\ forall d1 d2 n1 n2 i1 i2 cert1 priv1 cert2 priv2 kp1,
         generate_reality_cert d1 key1 n1 i1 = Ok (cert1, priv1) -> cd_key d1 = Ok kp1 ->
         generate_reality_cert d2 key2 n2 i2 = Ok (cert2, priv2) ->
         hmac_sha512 key1 (public_key_raw kp1) <> hmac_sha512 key2 (public_key_raw kp1) ->
         slot_run settings slot [SealHello h1 r1 t1; CheckCert cert1; SealHello h2 r2 t2; CheckCert cert2]
           = [Ok tt; Ok tt; Ok tt; Ok tt]
         /\ slot_run settings slot [SealHello h1 r1 t1; SealHello h2 r2 t2; CheckCert cert1; CheckCert cert2]
           = [Ok tt; Ok tt; Err BadSignature; Ok tt].
Proof.
  destruct (applied h1 r1 t1 settings slot Hid S1) as (key1 & _ & K1 & _).
  destruct (applied h2 r2 t2 settings slot Hid S2) as (key2 & _ & K2 & _).
  exists key1, key2. split_and!; [done|done|]. intros d1 d2 n1 n2 i1 i2 cert1 priv1 cert2 priv2 kp1 Hg1 Hk1 Hg2 Hne.
  destruct (generated _ _ _ _ _ _ Hg2) as (kp2 & _ & _ & Hk2 & _).
  assert (V1 : slot_step settings (Some key1) (CheckCert cert1) = (Ok tt, Some key1))
    by (cbn; by rewrite (generated_checked _ _ _ _ _ _ kp1 _ Hg1 Hk1), bool_decide_eq_true_2).
  assert (V2 : slot_step settings (Some key2) (CheckCert cert2) = (Ok tt, Some key2))
    by (cbn; by rewrite (generated_checked _ _ _ _ _ _ kp2 _ Hg2 Hk2), bool_decide_eq_true_2).
  assert (V3 : slot_step settings (Some key2) (CheckCert cert1) = (Err BadSignature, Some key2))
    by (cbn; by rewrite (generated_checked _ _ _ _ _ _ kp1 _ Hg1 Hk1), bool_decide_eq_false_2).
  assert (A1 : forall s, slot_step settings s (SealHello h1 r1 t1) = (Ok tt, Some key1)) by (intros s; by apply seal_step).
  assert (A2 : forall s, slot_step settings s (SealHello h2 r2 t2) = (Ok tt, Some key2)) by (intros s; by apply seal_step).
  split; cbn [slot_run].
  - rewrite A1. cbv beta iota. rewrite V1. cbv beta iota. rewrite A2. cbv beta iota. by rewrite V2.
  - rewrite A1. cbv beta iota. rewrite A2. cbv beta iota. rewrite V3. cbv beta iota. by rewrite V2.
Qed.

(** certificates without a template are current. Generating one never panics, and
    succeeds when rcgen accepts the name; it is valid from at least 30 days before to
    at least 276 days after the present, carries the name, and its serial number is
    not zero. *)
Theorem reality_fallback_cert_current `{CertCrates} (draws : cert_draws) (auth_key : bytes) (name : string)
    (imp : option bytes) (Hd : draws_ok draws) :
  generate_reality_cert draws auth_key name imp <> Panic
  /\ forall p, params_new [name] = Ok p -> exists params,
       build_fallback_params draws name = Ok params
       /\ not_before params <= cd_now draws - days 30 /\ cd_now draws + days 276 <= not_after params
       /\ dn_get (distinguished_name params) CommonName = Some name
       /\ exists serial, serial_number params = Some serial /\ length serial = 16%nat /\ Exists (fun b => b <> 0) serial.
Proof.
  destruct (fallback_returns draws name Hd) as [Hp Hr]. destruct Hd as (_ & _ & Hs & _ & Hk). split.
  - unfold generate_reality_cert. destruct (cd_key draws) as [kp|e|]; [|done..]. cbn [mbind res_bind].
    pose proof impersonate_calm. apply bind_calm; [by destruct imp|intros params _].
    apply bind_calm; [apply self_signed_calm|intros der Hs']. destruct (self_signed_layout _ _ _ Hs') as [Hl _].
    by rewrite patched.
  - intros p Hn. destruct (Hr p Hn) as (params & Hb). exists params. split; [done|].
    destruct (fallback_dates draws name params Hb) as (H1 & H2 & H3 & H4). split_and!; [done..|].
    eexists. split; [done|]. rewrite length_alter. split; [done|].
    destruct (cd_serial draws) as [|b l]; [done|]. apply Exists_cons_hd. intros Hz. apply (f_equal Z.odd) in Hz.
    rewrite <- Z.bit0_odd, Z.lor_spec, orb_true_r in Hz. done.
Qed.

(** a template's metadata are copied. With a template the certificate has its serial
    number and validity, and always a common name (the template's last one, else the
    requested name), at least one alternative name and at least one usage of each kind. *)
Theorem reality_impersonation_exact `{CertCrates} (der : bytes) (name : string)
    (params : CertificateParams Dn ParamsRest) (Hb : build_impersonate_params der name = Ok params) :
  exists cert, x509_from_der der = Ok cert
    /\ serial_number params = Some (raw_serial cert)
    /\ not_before params = valid_from cert /\ not_after params = valid_until cert
    /\ dn_get (distinguished_name params) CommonName
       = Some (from_option id name (last_cn None (concat (subject cert))))
    /\ subject_alt_names params <> [] /\ key_usages params <> [] /\ extended_key_usages params <> [].
Proof.
  unfold build_impersonate_params, parse_distinguished_name, apply_key_usages in Hb.
  destruct (x509_from_der der) as [cert|e|]; [|done..]. cbn [map_err mbind res_bind] in Hb. exists cert. split; [done|].
  destruct (push_attributes _ _) as [dn|e|] eqn:Hdn; [|done..]. cbn [mbind res_bind] in Hb.
  destruct (parse_subject_alt_names cert) as [sans|e|]; [|done..]. cbn [mbind res_bind] in Hb.
  destruct (usage_loop _ _ _) as [us eus].
  destruct (match sans with [] => _ | _ => _ end) as [sans'|e|] eqn:Hs; [|done..]. cbn [mbind res_bind] in Hb.
  injection Hb as <-. cbn [serial_number not_before not_after distinguished_name subject_alt_names key_usages extended_key_usages].
  apply push_attributes_cn in Hdn. rewrite dn_get_new in Hdn. rewrite <- Hdn. split_and!; try done.
  - destruct (dn_get dn CommonName) eqn:E; [by rewrite E|]. by rewrite dn_get_push, bool_decide_eq_true_2.
  - destruct sans; [|by injection Hs as <-]. destruct (ia5_error name); [done|]. by injection Hs as <-.
  - apply or_one_ne.
  - apply or_one_ne.
Qed.

(** an unusable template turns every client away. The template is not parsed when it
    is loaded; when it is no certificate, or when any attribute of its subject is not
    text, even one that is not copied, every verified client is refused. *)
Theorem reality_bad_template_refuses_all `{CertCrates} (der : bytes) (env : tls_steps) (draws : cert_draws)
    (self : RealityTransport) (name : string) (auth_key : bytes)
    (Hbad : match x509_from_der der with
            | Ok cert => Exists (fun a => exists e, a.2 = inl e) (concat (subject cert))
            | _ => True
            end) :
  forall config, accept_reality_client env draws self (Some der) name auth_key <> Ok config.
Proof.
  intros config. unfold accept_reality_client, generate_reality_cert.
  destruct (cd_key draws) as [kp|e|]; [|done..]. cbn [mbind res_bind].
  assert (Hb : forall params, build_impersonate_params der name <> Ok params).
  { intros params. unfold build_impersonate_params, parse_distinguished_name.
    destruct (x509_from_der der) as [cert|e|]; [|done..]. cbn [map_err mbind res_bind].
    assert (Hp : forall dn dn', push_attributes dn (concat (subject cert)) <> Ok dn').
    { induction (concat (subject cert)) as [|[oid [e|v]] attrs IH]; intros dn dn'; cbn [push_attributes];
        [by apply Exists_nil in Hbad|done|]. apply IH. apply Exists_cons in Hbad as [(e & [=])|]; done. }
    destruct (push_attributes _ _) eqn:E; [by destruct (Hp dn_new a)|done..]. }
  destruct (build_impersonate_params der name) as [params|e|]; [by destruct (Hb params)|done..].
Qed.

(** ** Witnesses *)

(** An instance of the crates: a certificate is a byte, the key info and the
    signature; the HMAC of a key and a message is both of them. *)
Definition toy_pub (kp : bytes) : bytes := resize 32 0 kp.
Definition toy_body (kp : bytes) : bytes := 48 :: ed25519_spki (toy_pub kp).

Definition toy_dn_get (dn : list (DnType * string)) (ty : DnType) : option string :=
  snd <$> List.find (fun p => bool_decide (ty = p.1)) dn.

Definition toy_params (names : list string) : CertificateParams (list (DnType * string)) unit :=
  {| serial_number := None; not_before := 0; not_after := 0; distinguished_name := [];
     subject_alt_names := map DnsName names; key_usages := []; extended_key_usages := []; other_params := tt |}.

(** A template of one name; its first byte tells whether the subject is text. *)
Definition toy_x509 (der : bytes) : res anyhow X509Certificate :=
  match der with
  | [] => Err (bail "incomplete")
  | b :: _ => Ok {| raw_serial := [7]; valid_from := 10; valid_until := 20;
                    subject := [[([2; 5; 4; 3], inr "dest.example"%string);
                                 ([2; 5; 4; 5], if b =? 0 then inl (bail "not text") else inr "x"%string)]];
                    extensions := [SubjectAlternativeName [GnIp [1; 2; 3; 4]; GnIp [1]]; KeyUsage false true] |}
  end.

Lemma toy_pub_length (kp : bytes) : length (toy_pub kp) = 32%nat.
Proof. apply length_resize. Qed.
Lemma toy_hmac_length n (key msg : bytes) : length (resize n 0 (key ++ msg)) = n.
Proof. apply length_resize. Qed.
Lemma toy_body_length kp : length (toy_body kp) = 45%nat.
Proof. unfold toy_body, ed25519_spki. cbn [length app]. by rewrite toy_pub_length. Qed.

Lemma toy_spki kp sig : take 44 (drop 1 (toy_body kp ++ sig)) = ed25519_spki (toy_pub kp).
Proof.
  unfold toy_body. cbn [app drop]. apply take_app_length'. unfold ed25519_spki. rewrite length_app, toy_pub_length. done.
Qed.

Lemma toy_layout (p : CertificateParams (list (DnType * string)) unit) (kp der : bytes) :
  Ok (toy_body kp ++ replicate 64 0) = @Ok anyhow bytes der ->
  (64 < length der)%nat /\ Some (take 44 (drop 1 der)) = Some (ed25519_spki (toy_pub kp)).
Proof.
  intros Hd. assert (der = toy_body kp ++ replicate 64 0) as -> by congruence. rewrite toy_spki, length_app, toy_body_length, length_replicate. split; [lia|done].
Qed.

Lemma toy_signature (p : CertificateParams (list (DnType * string)) unit) (kp der sig : bytes) :
  Ok (toy_body kp ++ replicate 64 0) = @Ok anyhow bytes der -> length sig = 64%nat ->
  Some (take 44 (drop 1 (take (length der - 64) der ++ sig))) = Some (take 44 (drop 1 der)).
Proof.
  intros Hd _. assert (der = toy_body kp ++ replicate 64 0) as -> by congruence.
  rewrite length_app, length_replicate, toy_body_length.
  rewrite take_app_length' by (rewrite toy_body_length; done). by rewrite !toy_spki.
Qed.

Lemma toy_dn_get_push (dn : list (DnType * string)) ty v ty' :
  toy_dn_get ((ty, v) :: dn) ty' = if bool_decide (ty' = ty) then Some v else toy_dn_get dn ty'.
Proof. unfold toy_dn_get. cbn [List.find fst]. by case_bool_decide. Qed.

Lemma toy_x509_calm der : toy_x509 der <> Panic.
Proof. by destruct der. Qed.

#[export] Instance toy_crates : CertCrates := {
  KeyPair := bytes;
  public_key_raw := toy_pub;
  serialize_der := fun kp => kp;
  Dn := list (DnType * string);
  ParamsRest := unit;
  dn_new := [];
  dn_push := fun dn ty v => (ty, v) :: dn;
  dn_get := toy_dn_get;
  ia5_error := fun _ => None;
  params_new := fun names => Ok (toy_params names);
  params_default := toy_params [];
  self_signed := fun _ kp => Ok (toy_body kp ++ replicate 64 0);
  x509_from_der := toy_x509;
  end_entity_spki := fun der => Some (take 44 (drop 1 der));
  hmac_sha512 := fun key msg => resize 64 0 (key ++ msg);
  hmac_sha256 := fun key msg => resize 32 0 (key ++ msg);
  public_key_raw_length := toy_pub_length;
  hmac_sha512_length := toy_hmac_length 64;
  hmac_sha256_length := toy_hmac_length 32;
  dn_get_new := fun ty => eq_refl;
  dn_get_push := toy_dn_get_push;
  self_signed_layout := toy_layout;
  end_entity_signature := toy_signature;
  params_new_calm := fun l => ltac:(discriminate);
  self_signed_calm := fun p kp => ltac:(discriminate);
  x509_from_der_calm := toy_x509_calm
}.

Definition demo_draws : cert_draws :=
  {| cd_key := Ok [9; 9]; cd_serial := replicate 16 0; cd_jitter := [59; 255]; cd_now := 1750000000 |}.

Definition demo_cert (key : bytes) : bytes :=
  toy_body [9; 9] ++ resize 64 0 (key ++ toy_pub [9; 9]).

Definition demo_settings : RealityClientSettings :=
  {| cs_server_public_key := x25519_public demo_secret; cs_short_id := short_id demo_auth;
     cs_eph_secret := demo_client_secret |}.

Definition demo_tls : tls_steps :=
  {| ts_provider := Ok tt; ts_versions := None; ts_single_cert _ _ := None; ts_handshake _ := Some None |}.

Lemma reality_cert_binds_key_witness :
  verify_server_cert_hmac (replicate 32 1) (demo_cert (replicate 32 1)) = Ok tt
  /\ verify_server_cert_hmac (replicate 32 2) (demo_cert (replicate 32 1)) = Err BadSignature.
Proof.
  destruct (reality_cert_binds_key demo_draws (replicate 32 1) (replicate 32 2) "a.example" None
    (demo_cert (replicate 32 1)) [9; 9]) as (kp & Hk & _ & H1 & H2).
  - vm_compute. reflexivity.
  - injection Hk as <-. split; [exact H1|]. apply H2. vm_compute. discriminate.
Defined.

Definition demo_key (random : bytes) : bytes :=
  from_option id [] (apply_client_hello (encode_handshake demo_hello) random [0; 0; 0; 9] demo_settings None).2.

Definition demo_server_tls (key : bytes) : ServerTls :=
  {| st_cert := demo_cert key; st_key := [9; 9];
     st_reality := {| rc_private_key := key; rc_verify_client := false;
       rc_dest := Some "decoy.example:443"%string; rc_short_ids := [short_id demo_auth] |};
     st_alpn := [bytes_of_string "h2"; bytes_of_string "http/1.1"] |}.

Lemma reality_mutual_authentication_witness :
  exists key sid info config,
    apply_client_hello (encode_handshake demo_hello) (h_random demo_hello) [0; 0; 0; 9] demo_settings None = (Ok sid, Some key)
    /\ verify_client_reality info (encode_record (with_session demo_hello sid)) demo_secret [short_id demo_auth] = Ok (Some key)
    /\ accept_reality_client demo_tls demo_draws demo_transport None "example.com" key = Ok config
    /\ verify_server_cert (Some key) (st_cert config) [] = Ok tt.
Proof.
  destruct (reality_mutual_authentication demo_settings None demo_transport [0; 0; 0; 9] demo_hello)
    as (key & sid & Ha & Hs & Hc).
  - exact demo_hello_ok.
  - reflexivity.
  - reflexivity.
  - reflexivity.
  - vm_compute. reflexivity.
  - left.
  - reflexivity.
  - destruct Hs as (info & _ & Hv).
    { vm_compute in Ha. injection Ha as <- <-. vm_compute. reflexivity. }
    assert (key = demo_key (h_random demo_hello)) as -> by (unfold demo_key; rewrite Ha; reflexivity).
    exists (demo_key (h_random demo_hello)), sid, info, (demo_server_tls (demo_key (h_random demo_hello))).
    split; [exact Ha|]. split; [exact Hv|].
    assert (Hg : accept_reality_client demo_tls demo_draws demo_transport None "example.com" (demo_key (h_random demo_hello))
      = Ok (demo_server_tls (demo_key (h_random demo_hello)))) by (vm_compute; reflexivity).
    split; [exact Hg|]. exact (proj1 (Hc _ _ _ _ _ Hg)).
Defined.

Lemma reality_clients_agree_witness :
  exists key sid,
    apply_client_hello (encode_handshake demo_hello) (h_random demo_hello) [0; 0; 0; 9] demo_settings None = (Ok sid, Some key)
    /\ derive_auth_key demo_auth demo_client_secret (h_random demo_hello) = Ok key
    /\ encrypt_session_id demo_auth key (h_random demo_hello) (encode_handshake demo_hello) [0; 0; 0; 9] = Ok sid.
Proof.
  apply (reality_clients_agree demo_settings None (encode_handshake demo_hello) (h_random demo_hello) [0; 0; 0; 9]).
  - cbn. lia.
  - split; [reflexivity|]. split; [reflexivity|]. split; [apply Nat.leb_le; vm_compute; reflexivity|reflexivity].
Defined.

Lemma reality_shared_slot_race_witness :
  slot_run demo_settings None
    [SealHello (encode_handshake demo_hello) (replicate 32 1) [0; 0; 0; 9];
     SealHello (encode_handshake demo_hello) (replicate 32 2) [0; 0; 0; 9];
     CheckCert (demo_cert (demo_key (replicate 32 1))); CheckCert (demo_cert (demo_key (replicate 32 2)))]
  = [Ok tt; Ok tt; Err BadSignature; Ok tt].
Proof.
  destruct (reality_shared_slot_race demo_settings None (encode_handshake demo_hello) (replicate 32 1) [0; 0; 0; 9]
    (encode_handshake demo_hello) (replicate 32 2) [0; 0; 0; 9]) as (key1 & key2 & K1 & K2 & H).
  - cbn. lia.
  - split; [reflexivity|]. split; [reflexivity|]. split; [apply Nat.leb_le; vm_compute; reflexivity|reflexivity].
  - split; [reflexivity|]. split; [reflexivity|]. split; [apply Nat.leb_le; vm_compute; reflexivity|reflexivity].
  - assert (key1 = demo_key (replicate 32 1)) as -> by (vm_compute in K1; injection K1 as <-; vm_compute; reflexivity).
    assert (key2 = demo_key (replicate 32 2)) as -> by (vm_compute in K2; injection K2 as <-; vm_compute; reflexivity).
    refine (proj2 (H demo_draws demo_draws "a.example"%string "a.example"%string None None _ [9; 9] _ [9; 9] [9; 9] _ _ _ _)).
    + vm_compute. reflexivity.
    + reflexivity.
    + vm_compute. reflexivity.
    + vm_compute. discriminate.
Defined.

Lemma reality_fallback_cert_current_witness :
  generate_reality_cert demo_draws (replicate 32 1) "a.example" None <> Panic
  /\ exists params, build_fallback_params demo_draws "a.example" = Ok params
     /\ not_before params <= 1750000000 - days 30 /\ 1750000000 + days 276 <= not_after params.
Proof.
  destruct (reality_fallback_cert_current demo_draws (replicate 32 1) "a.example" None) as [H1 H2].
  - split; [reflexivity|]. split; [apply Forall_replicate; split; [lia|reflexivity]|]. split; [reflexivity|].
    split; [split; vm_compute; discriminate|discriminate].
  - split; [exact H1|]. destruct (H2 _ eq_refl) as (params & Hb & H3 & H4 & _). exists params.
    split; [exact Hb|]. split; [exact H3|exact H4].
Defined.

Lemma reality_impersonation_exact_witness :
  exists params, build_impersonate_params [1] "a.example" = Ok params
    /\ toy_dn_get (distinguished_name params) CommonName = Some "dest.example"%string
    /\ subject_alt_names params <> [].
Proof.
  destruct (build_impersonate_params [1] "a.example") as [params|e|] eqn:Hb;
    [|vm_compute in Hb; discriminate Hb..].
  destruct (reality_impersonation_exact [1] "a.example" params Hb) as (cert & Hx & _ & _ & _ & Hcn & Hs & _).
  vm_compute in Hx. injection Hx as <-. exists params. split; [reflexivity|]. split; [exact Hcn|exact Hs].
Defined.

Lemma reality_bad_template_refuses_all_witness :
  accept_reality_client demo_tls demo_draws demo_transport (Some [0]) "a.example" (replicate 32 1)
  <> Ok (demo_server_tls (replicate 32 1)).
Proof.
  apply reality_bad_template_refuses_all. apply Exists_cons_tl, Exists_cons_hd. exists (bail "not text"). reflexivity.
Defined.
