(* ===== verification/Xhttp.v ===== *)
(** * The XHTTP transport
    Models crates/skadi-transport/src/xhttp/config.rs, session.rs, common.rs and the
    request handling of accept.rs. HTTP itself is hyper's: a request arrives with its
    method, path, the header values the code looks at and the chunks of its body. A
    bounded tokio channel is the list of the chunks in it. Sessions are shared
    objects: the registry maps an id to one of them, and a task keeps the object it
    got even when the registry has forgotten it. *)

From Stdlib Require Import Ascii String.
From stdpp Require Import base list list_numbers numbers strings gmap fin_maps.
From S2P Require Import Prelude Io.

(** ** config.rs *)

Inductive XhttpMode := Auto | PacketUp | StreamUp | StreamOne.

#[export] Instance XhttpMode_eq_dec : EqDecision XhttpMode.
Proof. solve_decision. Defined.

Definition mode_parse (s : string) : option XhttpMode :=
  if bool_decide (s = "" \/ s = "auto")%string then Some Auto
  else if bool_decide (s = "packet-up")%string then Some PacketUp
  else if bool_decide (s = "stream-up")%string then Some StreamUp
  else if bool_decide (s = "stream-one")%string then Some StreamOne
  else None.

Definition allows_stream_one (m : XhttpMode) : bool :=
  match m with Auto | StreamOne | StreamUp => true | PacketUp => false end.
Definition allows_stream_up (m : XhttpMode) : bool :=
  match m with Auto | StreamUp | StreamOne => true | PacketUp => false end.
Definition allows_packet_up (m : XhttpMode) : bool :=
  match m with Auto | PacketUp => true | _ => false end.

Record PaddingRange := { pad_min : Z; pad_max : Z }.

Definition padding_default : PaddingRange := {| pad_min := 100; pad_max := 1000 |}.

(** [sample_len], given what [rand::random::<u32>()] answers. *)
Definition sample_len (r : PaddingRange) (random : Z) : Z :=
  if pad_max r <=? pad_min r then pad_min r
  else pad_min r + random mod (pad_max r - pad_min r + 1).

Record XhttpConfig := {
  xc_path : string;
  xc_host : option string;
  xc_mode : XhttpMode;
  xc_padding : PaddingRange;
  xc_no_sse_header : bool
}.

Definition starts_with_slash (s : string) : bool :=
  match s with String a _ => Ascii.eqb a "/"%char | EmptyString => false end.

Definition normalized_path (self : XhttpConfig) : string :=
  let path := split_first "?"%char (xc_path self) in
  if negb (starts_with_slash path) then "/" +:+ trim_start_matches "/"%char path else path.

Definition ignore_case (a b : string) : bool := eq_ignore_ascii_case (bytes_of_string a) (bytes_of_string b).

(** [host_matches], and the same test inside [handle_request]. *)
Definition host_matches (host : option string) (request_host : string) : bool :=
  match host with
  | Some expected =>
    if bool_decide (expected = EmptyString) then true
    else ignore_case request_host expected || ignore_case (split_first ":"%char request_host) expected
  | None => true
  end.

(** ** session.rs *)

Definition UPLOAD_QUEUE_SIZE : nat := 256.
Definition DEFAULT_MAX_POST_BYTES : Z := 1000000.

(** A bounded channel: what is in it, its capacity, whether its receiver is gone. *)
Record channel := { ch_queue : list bytes; ch_cap : nat; ch_closed : bool }.

Inductive sent := Sent | Full | Closed.

Definition try_send (c : channel) (chunk : bytes) : sent * channel :=
  if ch_closed c then (Closed, c)
  else if (ch_cap c <=? length (ch_queue c))%nat then (Full, c)
  else (Sent, {| ch_queue := ch_queue c ++ [chunk]; ch_cap := ch_cap c; ch_closed := ch_closed c |}).

Record PacketState := { next_seq : Z; pending : gmap Z bytes }.

Definition packet_new : PacketState := {| next_seq := 0; pending := ∅ |}.

(** [while let Some(chunk) = self.pending.remove(&self.next_seq)]: each iteration
    removes an entry, so the size of the map is enough fuel. *)
Fixpoint drain (fuel : nat) (st : PacketState) (c : channel) : PacketState * channel :=
  match fuel with
  | O => (st, c)
  | S fuel =>
    match pending st !! next_seq st with
    | Some chunk =>
      drain fuel {| next_seq := next_seq st + 1; pending := delete (next_seq st) (pending st) |}
        (try_send c chunk).2
    | None => (st, c)
    end
  end.

Definition push (st : PacketState) (seq : Z) (payload : bytes) (c : channel) : PacketState * channel :=
  if seq <? next_seq st then (st, c) else
  let pending := <[seq := payload]> (pending st) in
  drain (size pending) {| next_seq := next_seq st; pending := pending |} c.

(** A session: its upload channel, whether the receiver was taken, the packets. *)
Record XhttpSession := { upload : channel; rx_taken : bool; packets : PacketState }.

Definition session_new : XhttpSession :=
  {| upload := {| ch_queue := []; ch_cap := UPLOAD_QUEUE_SIZE; ch_closed := false |};
     rx_taken := false; packets := packet_new |}.

Definition push_packet (s : XhttpSession) (seq : Z) (payload : bytes) : XhttpSession :=
  let '(st, c) := push (packets s) seq payload (upload s) in
  {| upload := c; rx_taken := rx_taken s; packets := st |}.

(** [take_upload_rx]: the receiver goes to the first who asks. *)
Definition take_upload_rx (s : XhttpSession) : bool * XhttpSession :=
  (negb (rx_taken s), {| upload := upload s; rx_taken := true; packets := packets s |}).

(** The registry and the objects. *)
Record XhttpSessionManager := { table : gmap string nat; objects : list XhttpSession }.

Definition sessions_empty : XhttpSessionManager := {| table := ∅; objects := [] |}.

Definition get_or_create (m : XhttpSessionManager) (session_id : string) : nat * XhttpSessionManager :=
  match table m !! session_id with
  | Some o => (o, m)
  | None =>
    let o := length (objects m) in
    (o, {| table := <[session_id := o]> (table m); objects := objects m ++ [session_new] |})
  end.

Definition remove (m : XhttpSessionManager) (session_id : string) : XhttpSessionManager :=
  {| table := delete session_id (table m); objects := objects m |}.

Definition with_object (m : XhttpSessionManager) (o : nat) (s : XhttpSession) : XhttpSessionManager :=
  {| table := table m; objects := <[o := s]> (objects m) |}.

(** ** common.rs *)

Definition extract_meta (request_path base_path : string) : string * string :=
  let suffix := default request_path (strip_prefix base_path request_path) in
  let trimmed := trim_matches "/"%char suffix in
  if bool_decide (trimmed = EmptyString) then (EmptyString, EmptyString) else
  let parts := str_split "/"%char trimmed in
  (default EmptyString (parts !! 0%nat), default EmptyString (parts !! 1%nat)).

(** The headers the code looks at: X-Padding by its length, Host and Referer as
    text when they are. *)
Record headers := { hd_host : option string; hd_padding : option nat; hd_referer : option string }.

Definition padding_range (len : nat) : bool := (100 <=? len)%nat && (Z.of_nat len <=? 1000).

Definition padding_valid (h : headers) : bool :=
  match hd_padding h with
  | Some len => padding_range len
  | None =>
    match hd_referer h with
    | Some s =>
      match str_find "x_padding=" s with
      | Some i =>
        let rest := string_of_bytes (drop (i + 10) (bytes_of_string s)) in
        padding_range (String.length (split_first "&"%char rest))
      | None => true
      end
    | None => true
    end
  end.

(** [ChannelWriter]. *)
Record ChannelWriter := { cw_tx : channel; cw_pending : bytes }.

Inductive poll (A : Type) := Ready (a : A) | NotReady.
Arguments Ready {A} _.
Arguments NotReady {A}.

Definition body_closed : io_error := IoError BrokenPipe "xhttp response body closed".

Definition writer_flush (w : ChannelWriter) : poll (res io_error unit) * ChannelWriter :=
  if (length (cw_pending w) =? 0)%nat then (Ready (Ok tt), w) else
  match try_send (cw_tx w) (cw_pending w) with
  | (Sent, tx) => (Ready (Ok tt), {| cw_tx := tx; cw_pending := [] |})
  | (Full, _) => (NotReady, w)
  | (Closed, _) => (Ready (Err body_closed), w)
  end.

Definition writer_poll_write (w : ChannelWriter) (buf : bytes) : poll (res io_error nat) * ChannelWriter :=
  if (length buf =? 0)%nat then (Ready (Ok O), w) else
  match writer_flush w with
  | (Ready (Ok _), w) =>
    match try_send (cw_tx w) buf with
    | (Sent, tx) => (Ready (Ok (length buf)), {| cw_tx := tx; cw_pending := cw_pending w |})
    | (Full, _) => (NotReady, {| cw_tx := cw_tx w; cw_pending := cw_pending w ++ buf |})
    | (Closed, _) => (Ready (Err body_closed), w)
    end
  | (Ready (Err e), w) => (Ready (Err e), w)
  | (Ready Panic, w) => (Ready Panic, w)
  | (NotReady, w) => (NotReady, w)
  end.

(** [UploadReader]: [chunks] is what the channel holds for it. *)
Record UploadReader := { ur_buf : bytes; ur_chunks : list bytes }.

(** [poll_read] into [remaining] bytes; [None]: pending. *)
Definition upload_poll_read (r : UploadReader) (remaining : nat) : option bytes * UploadReader :=
  match ur_buf r with
  | _ :: _ =>
    let n := Nat.min remaining (length (ur_buf r)) in
    (Some (take n (ur_buf r)), {| ur_buf := drop n (ur_buf r); ur_chunks := ur_chunks r |})
  | [] =>
    match ur_chunks r with
    | chunk :: chunks =>
      let n := Nat.min remaining (length chunk) in
      (Some (take n chunk), {| ur_buf := drop n chunk; ur_chunks := chunks |})
    | [] => (None, r)
    end
  end.

(** ** accept.rs *)

Inductive Method := GET | POST | OPTIONS | OtherMethod.

#[export] Instance Method_eq_dec : EqDecision Method.
Proof. solve_decision. Defined.

Record request := {
  rq_method : Method;
  rq_path : string;
  rq_headers : headers;
  rq_body : list (unit + bytes) (* the chunks of the body; [inl]: the transfer broke *)
}.

(** A response: its status, and for a streaming one whether it is an event stream
    and the length of its padding. *)
Inductive response :=
| Plain (status : Z)
| Streaming (event_stream : bool) (pad_len : Z).

Definition response_status (r : response) : Z := match r with Plain s => s | Streaming _ _ => 200 end.

(** Where the upgraded connection reads from: the request body, or a session. *)
Inductive uplink := FromBody (body : list (unit + bytes)) | FromSession (o : nat).

Inductive XhttpAcceptResult := Upgraded (u : uplink) | PostHandled.

(** A connection: the answer sent to [accept_xhttp], and the shared state: the
    sessions and the POST bodies being copied into them (object, id, rest). *)
Record server := {
  sv_sessions : XhttpSessionManager;
  sv_posts : list (nat * string * list (unit + bytes))
}.

Record connection := { cn_upgrade : option XhttpAcceptResult; cn_server : server }.

Definition with_sessions (sv : server) (m : XhttpSessionManager) : server :=
  {| sv_sessions := m; sv_posts := sv_posts sv |}.

(** [send_upgrade]: the sender is taken by the first result. *)
Definition send_upgrade (c : connection) (r : XhttpAcceptResult) : connection :=
  {| cn_upgrade := match cn_upgrade c with Some r0 => Some r0 | None => Some r end; cn_server := cn_server c |}.

Definition streaming_response (padding : PaddingRange) (no_sse : bool) (random : Z) : response :=
  Streaming (negb no_sse) (sample_len padding random).

Definition handle_stream_one (cfg : XhttpConfig) (random : Z) (req : request) (c : connection)
    : response * connection :=
  if negb (allows_stream_one (xc_mode cfg)) then (Plain 400, c)
  else (streaming_response (xc_padding cfg) (xc_no_sse_header cfg) random,
        send_upgrade c (Upgraded (FromBody (rq_body req)))).

Fixpoint read_body_limited (out : bytes) (body : list (unit + bytes)) (max_bytes : Z) : Z + bytes :=
  match body with
  | [] => inr out
  | inl _ :: _ => inl 400
  | inr chunk :: body =>
    if max_bytes <? Z.of_nat (length out + length chunk) then inl 413
    else read_body_limited (out ++ chunk) body max_bytes
  end.

Definition handle_packet_up (cfg : XhttpConfig) (req : request) (session_id seq_str : string) (c : connection)
    : response * connection :=
  if negb (allows_packet_up (xc_mode cfg)) then (Plain 400, c)
  else if negb (bool_decide (rq_method req = POST)) then (Plain 405, c)
  else match parse_uint (2 ^ 64) seq_str with
  | None => (Plain 400, c)
  | Some seq =>
    match read_body_limited [] (rq_body req) DEFAULT_MAX_POST_BYTES with
    | inl status => (Plain status, c)
    | inr payload =>
      let '(o, m) := get_or_create (sv_sessions (cn_server c)) session_id in
      let m := match objects m !! o with
               | Some s => with_object m o (push_packet s seq payload)
               | None => m
               end in
      (Plain 200,
       send_upgrade {| cn_upgrade := cn_upgrade c; cn_server := with_sessions (cn_server c) m |} PostHandled)
    end
  end.

Definition handle_stream_up (cfg : XhttpConfig) (random : Z) (req : request) (session_id : string) (c : connection)
    : response * connection :=
  let '(o, m) := get_or_create (sv_sessions (cn_server c)) session_id in
  let c := {| cn_upgrade := cn_upgrade c; cn_server := with_sessions (cn_server c) m |} in
  match rq_method req with
  | GET =>
    if negb (allows_stream_up (xc_mode cfg)) && negb (allows_packet_up (xc_mode cfg)) then (Plain 400, c) else
    match objects m !! o with
    | Some s =>
      let '(first, s) := take_upload_rx s in
      if first then
        (streaming_response (xc_padding cfg) (xc_no_sse_header cfg) random,
         send_upgrade {| cn_upgrade := cn_upgrade c; cn_server := with_sessions (cn_server c) (with_object m o s) |}
           (Upgraded (FromSession o)))
      else (Plain 409, c)
    | None => (Plain 409, c)
    end
  | POST =>
    if negb (allows_stream_up (xc_mode cfg)) then (Plain 400, c) else
    (Plain 200,
     send_upgrade {| cn_upgrade := cn_upgrade c;
                     cn_server := {| sv_sessions := m;
                                     sv_posts := sv_posts (cn_server c) ++ [(o, session_id, rq_body req)] |} |}
       PostHandled)
  | _ => (Plain 405, c)
  end.

Definition handle_request (cfg : XhttpConfig) (random : Z) (req : request) (c : connection)
    : response * connection :=
  let path := normalized_path cfg in
  if bool_decide (rq_method req = OPTIONS) then (Plain 200, c) else
  if negb (String.prefix path (rq_path req)) then (Plain 404, c) else
  if negb (host_matches (xc_host cfg) (default EmptyString (hd_host (rq_headers req)))) then (Plain 404, c) else
  if negb (padding_valid (rq_headers req)) then (Plain 400, c) else
  let '(session_id, seq) := extract_meta (rq_path req) path in
  if bool_decide (session_id = EmptyString) then handle_stream_one cfg random req c
  else if negb (bool_decide (seq = EmptyString)) then handle_packet_up cfg req session_id seq c
  else handle_stream_up cfg random req session_id c.

(** ** The tasks *)

(** What happens between requests: a POST task moves a chunk of its body into the
    channel, waiting while it is full, or ends and removes its session id; the
    reader of a session takes a chunk, or is dropped. *)
Inductive server_event :=
| Request (cfg : XhttpConfig) (random : Z) (req : request)
| PostChunk (i : nat)
| PostEnd (i : nat)
| ReaderTakes (o : nat)
| ReaderDropped (o : nat).

Definition set_upload (s : XhttpSession) (c : channel) : XhttpSession :=
  {| upload := c; rx_taken := rx_taken s; packets := packets s |}.

(** A read of the body into the task's buffer; empty chunks are skipped. *)
Definition POST_BUF : Z := 8192.

Definition post_read (chunk : bytes) (body : list (unit + bytes)) : bytes * list (unit + bytes) :=
  let n := Z.to_nat POST_BUF in
  (take n chunk, if (length chunk <=? n)%nat then body else inr (drop n chunk) :: body).

(** The result of a step: the new state, and the result of a request. *)
Definition server_step (sv : server) (ev : server_event) : option (server * option XhttpAcceptResult) :=
  let m := sv_sessions sv in
  match ev with
  | Request cfg random req =>
    let c := (handle_request cfg random req {| cn_upgrade := None; cn_server := sv |}).2 in
    Some (cn_server c, cn_upgrade c)
  | PostChunk i =>
    '(o, sid, body) ← sv_posts sv !! i;
    s ← objects m !! o;
    match body with
    | inr chunk :: body =>
      let '(data, body) := post_read chunk body in
      let posts := <[i := (o, sid, body)]> (sv_posts sv) in
      if (length data =? 0)%nat || ch_closed (upload s) then Some ({| sv_sessions := m; sv_posts := posts |}, None)
      else match try_send (upload s) data with
      | (Sent, c) => Some ({| sv_sessions := with_object m o (set_upload s c); sv_posts := posts |}, None)
      | _ => None
      end
    | _ => None
    end
  | PostEnd i =>
    '(o, sid, body) ← sv_posts sv !! i;
    match body with
    | inr _ :: _ => None
    | _ => Some ({| sv_sessions := remove m sid; sv_posts := delete i (sv_posts sv) |}, None)
    end
  | ReaderTakes o =>
    s ← objects m !! o;
    match ch_queue (upload s) with
    | _ :: q =>
      if rx_taken s then
        Some (with_sessions sv (with_object m o
                (set_upload s {| ch_queue := q; ch_cap := ch_cap (upload s); ch_closed := ch_closed (upload s) |})), None)
      else None
    | [] => None
    end
  | ReaderDropped o =>
    s ← objects m !! o;
    if rx_taken s then
      Some (with_sessions sv (with_object m o
              (set_upload s {| ch_queue := []; ch_cap := ch_cap (upload s); ch_closed := true |})), None)
    else None
  end.

Fixpoint server_run (sv : server) (evs : list server_event) : option (server * list (option XhttpAcceptResult)) :=
  match evs with
  | [] => Some (sv, [])
  | ev :: evs =>
    '(sv, r) ← server_step sv ev;
    '(sv, rs) ← server_run sv evs;
    Some (sv, r :: rs)
  end.

Definition server_start : server := {| sv_sessions := sessions_empty; sv_posts := [] |}.

(** ** Packets in any order *)

Section Packets.
(** The payload of each sequence number: a packet may be sent again, unchanged. *)
Context (f : Z -> bytes).

(** Packets arrive and the reader takes chunks. *)
Inductive packet_event := Push (seq : Z) | Pop.

Record upload_state := { us_packets : PacketState; us_channel : channel; us_read : list bytes }.

Definition packet_step (u : upload_state) (ev : packet_event) : upload_state :=
  match ev with
  | Push seq =>
    let '(st, c) := push (us_packets u) seq (f seq) (us_channel u) in
    {| us_packets := st; us_channel := c; us_read := us_read u |}
  | Pop =>
    match ch_queue (us_channel u) with
    | chunk :: q =>
      {| us_packets := us_packets u;
         us_channel := {| ch_queue := q; ch_cap := ch_cap (us_channel u); ch_closed := ch_closed (us_channel u) |};
         us_read := us_read u ++ [chunk] |}
    | [] => u
    end
  end.

Definition packet_run (u : upload_state) (evs : list packet_event) : upload_state := foldl packet_step u evs.

Definition upload_start (cap : nat) : upload_state :=
  {| us_packets := packet_new; us_channel := {| ch_queue := []; ch_cap := cap; ch_closed := false |}; us_read := [] |}.

(** The channel has room for everything that is held back and one packet more. *)
Definition roomy (u : upload_state) : Prop :=
  (length (ch_queue (us_channel u)) + size (pending (us_packets u)) < ch_cap (us_channel u))%nat.

Fixpoint always_roomy (u : upload_state) (evs : list packet_event) : Prop :=
  match evs with
  | [] => True
  | ev :: evs => match ev with Push seq => 0 <= seq /\ roomy u | Pop => True end /\ always_roomy (packet_step u ev) evs
  end.

Definition pushed (evs : list packet_event) : list Z :=
  omap (fun ev => match ev with Push seq => Some seq | Pop => None end) evs.

(** What has been delivered and what is held back, when [P] has arrived. *)
Definition held (P : Z -> Prop) (st : PacketState) : Prop :=
  0 <= next_seq st /\ (forall s, 0 <= s < next_seq st -> P s)
  /\ forall s x, pending st !! s = Some x <-> next_seq st <= s /\ P s /\ x = f s.

Definition delivered (st : PacketState) (c : channel) (out : list bytes) : Prop :=
  out ++ ch_queue c = map f (seqZ 0 (next_seq st)) /\ ch_closed c = false.

Lemma drain_inv P out fuel st c st' c' :
  held P st -> delivered st c out -> (size (pending st) <= fuel)%nat ->
  (length (ch_queue c) + size (pending st) <= ch_cap c)%nat ->
  drain fuel st c = (st', c') ->
  held P st' /\ delivered st' c' out /\ pending st' !! next_seq st' = None.
Proof.
  revert st c. induction fuel as [|fuel IH]; intros st c Hh Hd Hf Hr; cbn [drain].
  - intros [= <- <-]. split_and!; [done|done|]. assert (size (pending st) = 0%nat) as Hz by lia.
    apply map_size_empty_inv in Hz. by rewrite Hz.
  - destruct (pending st !! next_seq st) as [chunk|] eqn:Hp; [|by intros [= <- <-]].
    destruct Hh as (H0 & Hlt & Hpend). destruct Hd as [Hq Hc].
    pose proof (proj1 (Hpend _ _) Hp) as (_ & HP & ->).
    assert (Hsz : size (pending st) = S (size (delete (next_seq st) (pending st)))).
    { rewrite <- (insert_delete_id _ _ _ Hp) at 1. by rewrite map_size_insert_None by apply lookup_delete_eq. }
    unfold try_send. rewrite Hc. destruct (_ <=? _)%nat eqn:E; bool_hyps; [lia|]. apply IH; cbn [next_seq pending snd ch_queue ch_cap].
    + unfold held. cbn [next_seq pending].
      split_and!; [lia|intros s Hs; destruct (decide (s = next_seq st)) as [->|]; [done|apply Hlt; lia]|].
      intros s x. destruct (decide (s = next_seq st)) as [->|Hne].
      * rewrite lookup_delete_eq. split; [done|]. intros (A1 & _). lia.
      * rewrite lookup_delete_ne by done. rewrite Hpend. split; intros (A1 & A2 & A3); (split_and!; [lia|done|done]).
    + split; [|done]. cbn [ch_queue next_seq]. rewrite app_assoc, Hq, seqZ_app, map_app by lia. done.
    + lia.
    + rewrite length_app. cbn [length]. lia.
Qed.

(** The invariant of a run. *)
Definition packet_inv (P : Z -> Prop) (u : upload_state) : Prop :=
  held P (us_packets u) /\ delivered (us_packets u) (us_channel u) (us_read u) /\ ~ P (next_seq (us_packets u)).

Lemma push_inv P u seq :
  0 <= seq -> packet_inv P u -> roomy u -> packet_inv (fun s => P s \/ s = seq) (packet_step u (Push seq)).
Proof.
  intros Hs ((H0 & Hlt & Hpend) & Hd & Hn) Hr. unfold packet_inv. cbn [packet_step]. unfold push.
  destruct (seq <? next_seq (us_packets u)) eqn:E; bool_hyps; cbn [us_packets us_channel us_read].
  - split_and!; [|done|naive_solver lia]. unfold held. split_and!; [done|auto|].
    intros s x. rewrite Hpend. split; intros (A1 & A2 & A3); split_and!; try done; [by left|].
    destruct A2 as [A2|A2]; [done|lia].
  - set (st := {| next_seq := next_seq (us_packets u); pending := <[seq := f seq]> (pending (us_packets u)) |}).
    destruct (drain _ st _) as [st' c'] eqn:Hdr. cbn [us_packets us_channel us_read].
    assert (Hh : held (fun s => P s \/ s = seq) st).
    { unfold held, st. cbn [next_seq pending]. split_and!; [done|auto|]. intros s x.
      destruct (decide (s = seq)) as [->|Hne].
      - rewrite lookup_insert_eq. split; [intros [= <-]; auto|]. by intros (_ & _ & ->).
      - rewrite lookup_insert_ne by done. rewrite Hpend. naive_solver. }
    assert (Hsz : (size (pending st) <= S (size (pending (us_packets u))))%nat).
    { unfold st. cbn [pending]. rewrite map_size_insert. case_match; unfold id; lia. }
    assert (Hr' : (length (ch_queue (us_channel u)) + size (pending st) <= ch_cap (us_channel u))%nat)
      by (unfold roomy in Hr; lia).
    destruct (drain_inv _ (us_read u) _ st (us_channel u) st' c' Hh Hd (le_n _) Hr' Hdr) as (I1 & I2 & I3).
    split_and!; [done|done|]. intros HP. destruct I1 as (_ & _ & I1).
    assert (pending st' !! next_seq st' = Some (f (next_seq st'))) by (apply I1; split_and!; done || lia). congruence.
Qed.

Lemma pop_inv P u : packet_inv P u -> packet_inv P (packet_step u Pop).
Proof.
  intros (Hh & [Hd Hc] & Hn). cbn [packet_step]. destruct (ch_queue (us_channel u)) as [|chunk q] eqn:Hq.
  { unfold packet_inv, delivered. by rewrite Hq. }
  unfold packet_inv, delivered in *. cbn [us_packets us_channel us_read ch_queue ch_closed].
  split_and!; [done| |done|done]. by rewrite <- app_assoc.
Qed.

Lemma packet_run_inv P u evs :
  packet_inv P u -> always_roomy u evs ->
  packet_inv (fun s => P s \/ s ∈ pushed evs) (packet_run u evs).
Proof.
  revert P u. induction evs as [|ev evs IH]; intros P u Hi Ha.
  { destruct Hi as ((H0 & Hlt & Hp) & Hd & Hn). split_and!; [|done|].
    - split_and!; [done|auto|]. intros s x. rewrite Hp. cbn. split; intros (A1 & A2 & A3); split_and!; auto.
      destruct A2 as [|A2]; [done|]. by apply not_elem_of_nil in A2.
    - intros [|A]; [done|]. by apply not_elem_of_nil in A. }
  destruct Ha as [Hev Ha]. cbn [packet_run foldl]. destruct ev as [seq|].
  - destruct Hev as [Hs Hr]. specialize (IH _ _ (push_inv P u seq Hs Hi Hr) Ha).
    assert (Hiff : forall s, ((P s \/ s = seq) \/ s ∈ pushed evs) <-> (P s \/ s ∈ pushed (Push seq :: evs))).
    { intros s. cbn. rewrite elem_of_cons. tauto. }
    destruct IH as ((I1 & I2 & I3) & I4 & I5). split_and!; [split_and!|..]; [done| | |done|].
    + intros s Hs'. apply Hiff. auto.
    + intros s x. rewrite I3, Hiff. done.
    + by rewrite <- Hiff.
  - exact (IH _ _ (pop_inv P u Hi) Ha).
Qed.
End Packets.

(** ** One reader per session *)

(** The receiver of the object was given away. *)
Definition taken (m : XhttpSessionManager) (o : nat) : Prop :=
  exists s, objects m !! o = Some s /\ rx_taken s = true.

Lemma taken_create m sid o : taken m o -> taken (get_or_create m sid).2 o.
Proof.
  intros (s & Hs & Ht). unfold get_or_create. destruct (table m !! sid); [by exists s|].
  exists s. split; [|done]. cbn. by apply lookup_app_l_Some.
Qed.

(** Replacing an object by one that is at least as taken. *)
Lemma taken_replace m o s s' k :
  objects m !! o = Some s -> (rx_taken s = true -> rx_taken s' = true) ->
  taken m k -> taken (with_object m o s') k.
Proof.
  intros Ho Hs (x & Hx & Ht). unfold taken, with_object. cbn [objects].
  destruct (decide (k = o)) as [->|Hne].
  - exists s'. split; [|assert (x = s) as -> by congruence; auto].
    apply list_lookup_insert_eq. by eapply lookup_lt_Some.
  - exists x. by rewrite list_lookup_insert_ne.
Qed.

Lemma taken_replaced m o s s' : objects m !! o = Some s -> rx_taken s' = true -> taken (with_object m o s') o.
Proof.
  intros Ho Ht. exists s'. split; [|done]. cbn. apply list_lookup_insert_eq. by eapply lookup_lt_Some.
Qed.

Lemma push_packet_taken s seq payload : rx_taken (push_packet s seq payload) = rx_taken s.
Proof. unfold push_packet. by destruct (push _ _ _ _). Qed.

Definition conn_sessions (c : connection) : XhttpSessionManager := sv_sessions (cn_server c).

Lemma packet_up_taken cfg req sid seq c k :
  taken (conn_sessions c) k -> taken (conn_sessions (handle_packet_up cfg req sid seq c).2) k.
Proof.
  intros Hk. unfold handle_packet_up. destruct (negb _); [done|]. destruct (negb _); [done|].
  destruct (parse_uint _ _); [|done]. destruct (read_body_limited _ _ _) as [st|payload]; [done|].
  pose proof (taken_create (sv_sessions (cn_server c)) sid k Hk) as Hc.
  destruct (get_or_create _ _) as [o m]. cbn [snd] in Hc. unfold conn_sessions. cbn.
  destruct (objects m !! o) as [s|] eqn:Ho; [|done].
  eapply taken_replace; [done| |done]. by rewrite push_packet_taken.
Qed.

Lemma stream_up_taken cfg random req sid c k :
  taken (conn_sessions c) k -> taken (conn_sessions (handle_stream_up cfg random req sid c).2) k.
Proof.
  intros Hk. unfold handle_stream_up. pose proof (taken_create (sv_sessions (cn_server c)) sid k Hk) as Hc.
  destruct (get_or_create _ _) as [o m]. cbn [snd] in Hc. destruct (rq_method req); [|by destruct (negb _)|done..].
  destruct (_ && _); [done|]. destruct (objects m !! o) as [s|] eqn:Ho; [|done]. cbn.
  destruct (rx_taken s) eqn:Ht; cbn [negb]; [done|]. unfold conn_sessions. cbn. by eapply taken_replace.
Qed.

Lemma request_taken cfg random req c k :
  taken (conn_sessions c) k -> taken (conn_sessions (handle_request cfg random req c).2) k.
Proof.
  intros Hk. unfold handle_request. destruct (bool_decide _); [done|]. do 3 (destruct (negb _); [done|]).
  destruct (extract_meta _ _) as [sid seq]. destruct (bool_decide _).
  { unfold handle_stream_one. by destruct (negb _). }
  destruct (negb _); [by apply packet_up_taken|by apply stream_up_taken].
Qed.

(** A request that is given a session's receiver found it untaken and took it. *)
Lemma request_gives cfg random req sv o :
  let c := (handle_request cfg random req {| cn_upgrade := None; cn_server := sv |}).2 in
  cn_upgrade c = Some (Upgraded (FromSession o)) ->
  ~ taken (sv_sessions sv) o /\ taken (sv_sessions (cn_server c)) o.
Proof.
  unfold handle_request. destruct (bool_decide _); [done|]. do 3 (destruct (negb _); [done|]).
  destruct (extract_meta _ _) as [sid seq]. destruct (bool_decide _).
  { unfold handle_stream_one. by destruct (negb _). }
  destruct (negb _).
  { unfold handle_packet_up. destruct (negb _); [done|]. destruct (negb _); [done|].
    destruct (parse_uint _ _); [|done]. destruct (read_body_limited _ _ _); [done|]. by destruct (get_or_create _ _). }
  unfold handle_stream_up. cbn [cn_server cn_upgrade]. pose proof (taken_create (sv_sessions sv) sid o) as Hc.
  destruct (get_or_create _ _) as [o' m]. cbn [snd] in Hc. destruct (rq_method req); [|by destruct (negb _)|done..].
  destruct (_ && _); [done|]. destruct (objects m !! o') as [s|] eqn:Ho; [|done]. cbn.
  destruct (rx_taken s) eqn:Ht; cbn [negb]; [done|]. cbn. intros [= <-]. split.
  - intros Hk. destruct (Hc Hk) as (x & Hx & Hxt). congruence.
  - by eapply taken_replaced.
Qed.

Lemma step_taken sv ev sv' r k :
  server_step sv ev = Some (sv', r) -> taken (sv_sessions sv) k -> taken (sv_sessions sv') k.
Proof.
  intros Hs Hk. destruct ev as [cfg random req|i|i|o|o]; cbn [server_step] in Hs.
  - injection Hs as <- _. exact (request_taken cfg random req {| cn_upgrade := None; cn_server := sv |} k Hk).
  - destruct (sv_posts sv !! i) as [[[o sid] body]|]; [|done]. cbn in Hs.
    destruct (objects _ !! o) as [s|] eqn:Ho; [|done]. cbn in Hs. destruct body as [|[|chunk] body]; [done..|].
    destruct (post_read chunk body) as [data rest]. destruct (_ || _); [by injection Hs as <- _|].
    destruct (try_send _ _) as [[] c]; [|done..]. injection Hs as <- _. by eapply taken_replace.
  - destruct (sv_posts sv !! i) as [[[o sid] body]|]; [|done]. cbn in Hs.
    by destruct body as [|[|chunk] body]; [injection Hs as <- _..|].
  - destruct (objects _ !! o) as [s|] eqn:Ho; [|done]. cbn in Hs. destruct (ch_queue (upload s)); [done|].
    destruct (rx_taken s) eqn:Ht; [|done]. injection Hs as <- _. by eapply taken_replace.
  - destruct (objects _ !! o) as [s|] eqn:Ho; [|done]. cbn in Hs.
    destruct (rx_taken s) eqn:Ht; [|done]. injection Hs as <- _. by eapply taken_replace.
Qed.

Lemma step_gives sv ev sv' o :
  server_step sv ev = Some (sv', Some (Upgraded (FromSession o))) ->
  ~ taken (sv_sessions sv) o /\ taken (sv_sessions sv') o.
Proof.
  intros Hs. destruct ev as [cfg random req|i|i|o'|o']; cbn [server_step] in Hs.
  - injection Hs as <- Hr. by apply request_gives.
  - destruct (sv_posts sv !! i) as [[[x sid] body]|]; [|done]. cbn in Hs.
    destruct (objects _ !! x) as [s|]; [|done]. cbn in Hs. destruct body as [|[|chunk] body]; [done..|].
    destruct (post_read chunk body) as [data rest]. destruct (_ || _); [done|]. by destruct (try_send _ _) as [[] c].
  - destruct (sv_posts sv !! i) as [[[x sid] body]|]; [|done]. cbn in Hs. by destruct body as [|[|chunk] body].
  - destruct (objects _ !! o') as [s|]; [|done]. cbn in Hs. destruct (ch_queue (upload s)); [done|].
    by destruct (rx_taken s).
  - destruct (objects _ !! o') as [s|]; [|done]. cbn in Hs. by destruct (rx_taken s).
Qed.

(** The sessions whose receiver a run gives away, in order. *)
Definition given (rs : list (option XhttpAcceptResult)) : list nat :=
  omap (fun r => match r with Some (Upgraded (FromSession o)) => Some o | _ => None end) rs.

Lemma run_given sv evs sv' rs :
  server_run sv evs = Some (sv', rs) ->
  NoDup (given rs) /\ Forall (fun o => ~ taken (sv_sessions sv) o) (given rs).
Proof.
  revert sv rs. induction evs as [|ev evs IH]; intros sv rs; cbn [server_run].
  - intros [= <- <-]. split; constructor.
  - destruct (server_step sv ev) as [[sv1 r]|] eqn:Hs; [|done]. cbn.
    destruct (server_run sv1 evs) as [[sv2 rs']|] eqn:Hr; [|done]. cbn. intros [= <- <-].
    destruct (IH sv1 rs' Hr) as [I1 I2].
    assert (I2' : Forall (fun o => ~ taken (sv_sessions sv) o) (given rs')).
    { eapply Forall_impl; [exact I2|]. intros o Ho Hk. apply Ho. by eapply step_taken. }
    unfold given. cbn. destruct r as [[[body|o]|]|]; [done| |done|done].
    destruct (step_gives _ _ _ _ Hs) as [Hn Ht]. split; constructor; try done.
    intros Hin. rewrite Forall_forall in I2. by apply (I2 o Hin).
Qed.

(** ** The upload reader *)

Definition upload_rest (r : UploadReader) : bytes := ur_buf r ++ concat (ur_chunks r).

Inductive upload_reads : UploadReader -> bytes -> UploadReader -> Prop :=
| ureads_nil r : upload_reads r [] r
| ureads_step r remaining d r1 data r2 :
    upload_poll_read r remaining = (Some d, r1) -> upload_reads r1 data r2 -> upload_reads r (d ++ data) r2.

Lemma upload_poll_rest r remaining d r1 :
  upload_poll_read r remaining = (Some d, r1) -> upload_rest r = d ++ upload_rest r1.
Proof.
  unfold upload_poll_read, upload_rest. destruct r as [[|b buf] chunks]; cbn [ur_buf ur_chunks].
  - destruct chunks as [|chunk chunks]; [done|]. intros [= <- <-]. cbn [ur_buf ur_chunks app concat].
    by rewrite app_assoc, take_drop.
  - intros [= <- <-]. cbn [ur_buf ur_chunks]. by rewrite app_assoc, take_drop.
Qed.

(** ** Properties *)

(** C16: packets are put back in order. However packets arrive, early, late or more
    than once, as long as the channel has room: what the reader has taken and what
    waits for it are the payloads of the numbers 0, 1, 2 and so on up to the first
    packet that has not arrived, each exactly once and in order. *)
Theorem xhttp_packets_reassembled (f : Z -> bytes) (cap : nat) (evs : list packet_event)
    (Hroom : always_roomy f (upload_start cap) evs) :
  let u := packet_run f (upload_start cap) evs in
  us_read u ++ ch_queue (us_channel u) = map f (seqZ 0 (next_seq (us_packets u)))
  /\ (forall s, 0 <= s < next_seq (us_packets u) -> s ∈ pushed evs)
  /\ next_seq (us_packets u) ∉ pushed evs.
Proof.
  assert (Hi : packet_inv f (fun _ => False) (upload_start cap)).
  { split; [|split; [split; reflexivity|tauto]]. split; [done|]. split; [cbn; lia|].
    intros s x. cbn. rewrite lookup_empty. naive_solver. }
  destruct (packet_run_inv f _ _ evs Hi Hroom) as ((_ & Hlt & _) & [Hd _] & Hn).
  split_and!; [done| |].
  - intros s Hs. destruct (Hlt s Hs) as [[]|H]. done.
  - intros H. apply Hn. by right.
Qed.

(** a full queue loses a packet for good. When the channel is full, the packet
    that is next in order is dropped, counted as delivered, and its retransmission is
    ignored: the reader gets a stream with a hole. *)
Theorem xhttp_full_queue_loses (s : XhttpSession) (payload again : bytes)
    (Hfull : (ch_cap (upload s) <= length (ch_queue (upload s)))%nat)
    (Hnext : pending (packets s) !! (next_seq (packets s) + 1) = None) :
  let s' := push_packet s (next_seq (packets s)) payload in
  upload s' = upload s /\ next_seq (packets s') = next_seq (packets s) + 1
  /\ push_packet s' (next_seq (packets s)) again = s'.
Proof.
  unfold push_packet, push. rewrite Z.ltb_irrefl. set (n := next_seq (packets s)) in *.
  assert (Hsz : exists k, size (<[n := payload]> (pending (packets s))) = S k).
  { destruct (size (<[n := payload]> (pending (packets s)))) eqn:E; [|by eexists].
    apply map_size_empty_inv in E. by apply insert_non_empty in E. }
  assert (Ht : forall chunk, (try_send (upload s) chunk).2 = upload s).
  { intros. unfold try_send. destruct (ch_closed (upload s)); [done|].
    by rewrite (proj2 (Nat.leb_le _ _) Hfull). }
  destruct Hsz as [k ->]. cbn [drain next_seq pending]. rewrite lookup_insert_eq, Ht.
  assert (Hd : forall k st, pending st !! next_seq st = None -> drain k st (upload s) = (st, upload s))
    by (intros [|j] st Hst; [done|]; cbn; by rewrite Hst).
  rewrite Hd; cbn [next_seq pending packets upload rx_taken].
  - split_and!; [done|done|]. destruct (n <? n + 1) eqn:E; bool_hyps; [done|lia].
  - by rewrite lookup_delete_ne, lookup_insert_ne by lia.
Qed.

(** a writer that had to wait sends its data twice. [poll_write] keeps the data
    it could not send and reports that it is not ready, so the caller offers them
    again: once the body has been read, both copies are sent. *)
Theorem xhttp_writer_duplicates (tx : channel) (buf : bytes) (q : list bytes)
    (Hbuf : buf <> []) (Hopen : ch_closed tx = false)
    (Hfull : (ch_cap tx <= length (ch_queue tx))%nat) (Hroom : (length q + 2 <= ch_cap tx)%nat) :
  exists w, writer_poll_write {| cw_tx := tx; cw_pending := [] |} buf = (NotReady, w)
    /\ writer_poll_write {| cw_tx := {| ch_queue := q; ch_cap := ch_cap tx; ch_closed := false |};
                            cw_pending := cw_pending w |} buf
       = (Ready (Ok (length buf)),
          {| cw_tx := {| ch_queue := q ++ [buf; buf]; ch_cap := ch_cap tx; ch_closed := false |}; cw_pending := [] |}).
Proof.
  destruct buf as [|b buf]; [done|]. unfold writer_poll_write, writer_flush, try_send.
  cbn [length Nat.eqb cw_pending cw_tx]. rewrite Hopen, (proj2 (Nat.leb_le _ _) Hfull). eexists. split; [done|].
  cbn [cw_pending app length Nat.eqb ch_closed ch_cap ch_queue cw_tx].
  destruct (ch_cap tx <=? length q)%nat eqn:E; bool_hyps; [lia|]. cbn [cw_tx ch_closed ch_cap ch_queue].
  rewrite length_app. cbn [length]. destruct (_ <=? _)%nat eqn:E2; bool_hyps; [lia|]. by rewrite <- app_assoc.
Qed.

(** uploads are read as they were queued. However the protocol polls, what it
    has read followed by what is left are the queued chunks, in order; but an empty
    chunk in front of others is read as the end of the stream. *)
Theorem xhttp_upload_transparent (r r' : UploadReader) (data : bytes) (Hr : upload_reads r data r') :
  upload_rest r = data ++ upload_rest r'
  /\ forall chunks n, upload_poll_read {| ur_buf := []; ur_chunks := [] :: chunks |} n
       = (Some [], {| ur_buf := []; ur_chunks := chunks |}).
Proof.
  split; [|intros chunks n; cbn; by rewrite Nat.min_0_r].
  induction Hr as [|r remaining d r1 data r2 Hp Hr IH]; [done|].
  by rewrite (upload_poll_rest _ _ _ _ Hp), IH, app_assoc.
Qed.

(** each session has at most one reader. In any history of requests, uploads and
    reads, no session is handed to two connections: a second download of the same
    session is refused, also after the first has ended. *)
Theorem xhttp_one_download (evs : list server_event) (sv : server) (rs : list (option XhttpAcceptResult))
    (Hrun : server_run server_start evs = Some (sv, rs)) :
  NoDup (given rs).
Proof. exact (proj1 (run_given _ _ _ _ Hrun)). Qed.

(** paddings stay in their range. *)
Theorem xhttp_padding_in_range (r : PaddingRange) (random : Z) (Hr : 0 <= random) (Hm : pad_min r <= pad_max r) :
  pad_min r <= sample_len r random <= pad_max r.
Proof.
  unfold sample_len. destruct (_ <=? _) eqn:E; bool_hyps; [lia|].
  pose proof (Z.mod_pos_bound random (pad_max r - pad_min r + 1)). lia.
Qed.

(** ** Witnesses *)

Definition demo_payload (seq : Z) : bytes := [seq; seq + 100].

Definition demo_packets : list packet_event := [Push 1; Push 3; Push 0; Pop; Push 1; Push 2; Pop; Push 6].

Lemma xhttp_packets_reassembled_witness :
  let u := packet_run demo_payload (upload_start 8) demo_packets in
  us_read u ++ ch_queue (us_channel u) = [[0; 100]; [1; 101]; [2; 102]; [3; 103]].
Proof.
  pose proof (xhttp_packets_reassembled demo_payload 8 demo_packets) as H. destruct H as [H _].
  - cbn [always_roomy demo_packets]. unfold roomy.
    split; [split; [lia|vm_compute; lia]|]. split; [split; [lia|vm_compute; lia]|].
    split; [split; [lia|vm_compute; lia]|]. split; [exact I|].
    split; [split; [lia|vm_compute; lia]|]. split; [split; [lia|vm_compute; lia]|].
    split; [exact I|]. split; [split; [lia|vm_compute; lia]|exact I].
  - cbv zeta in *. rewrite H. vm_compute. reflexivity.
Defined.

Definition full_session : XhttpSession :=
  {| upload := {| ch_queue := [[1]; [2]]; ch_cap := 2; ch_closed := false |};
     rx_taken := false; packets := {| next_seq := 2; pending := ∅ |} |}.

Lemma xhttp_full_queue_loses_witness :
  ch_queue (upload (push_packet full_session 2 [3])) = [[1]; [2]]
  /\ push_packet (push_packet full_session 2 [3]) 2 [3] = push_packet full_session 2 [3].
Proof.
  destruct (xhttp_full_queue_loses full_session [3] [3]) as (H1 & _ & H2).
  - cbn. lia.
  - reflexivity.
  - cbv zeta in *. split; [|exact H2]. exact (f_equal ch_queue H1).
Defined.

Lemma xhttp_writer_duplicates_witness :
  exists w, writer_poll_write {| cw_tx := {| ch_queue := [[1]; [2]]; ch_cap := 2; ch_closed := false |}; cw_pending := [] |}
              [7; 8] = (NotReady, w)
    /\ ch_queue (cw_tx (writer_poll_write {| cw_tx := {| ch_queue := []; ch_cap := 2; ch_closed := false |};
                                             cw_pending := cw_pending w |} [7; 8]).2) = [[7; 8]; [7; 8]].
Proof.
  destruct (xhttp_writer_duplicates {| ch_queue := [[1]; [2]]; ch_cap := 2; ch_closed := false |} [7; 8] [])
    as (w & H1 & H2).
  - discriminate.
  - reflexivity.
  - cbn. lia.
  - cbn. lia.
  - exists w. split; [exact H1|]. cbn [ch_cap] in H2. rewrite H2. reflexivity.
Defined.

Lemma xhttp_upload_transparent_witness :
  upload_rest {| ur_buf := [1]; ur_chunks := [[2; 3]; [4]] |} = [1; 2] ++ [3; 4].
Proof.
  destruct (xhttp_upload_transparent {| ur_buf := [1]; ur_chunks := [[2; 3]; [4]] |}
    {| ur_buf := [3]; ur_chunks := [[4]] |} [1; 2]) as [H _]; [|exact H].
  apply (ureads_step _ 5 [1] {| ur_buf := []; ur_chunks := [[2; 3]; [4]] |} [2]); [reflexivity|].
  apply (ureads_step _ 1 [2] {| ur_buf := [3]; ur_chunks := [[4]] |} []); [reflexivity|apply ureads_nil].
Defined.

Definition demo_xhttp : XhttpConfig :=
  {| xc_path := "xhttp"; xc_host := Some "cdn.example"%string; xc_mode := Auto; xc_padding := padding_default;
     xc_no_sse_header := false |}.

Definition demo_xhttp_request (m : Method) (path : string) (body : list (unit + bytes)) : request :=
  {| rq_method := m; rq_path := path;
     rq_headers := {| hd_host := Some "CDN.example:443"%string; hd_padding := Some 200%nat; hd_referer := None |};
     rq_body := body |}.

Definition demo_requests : list server_event :=
  [Request demo_xhttp 7 (demo_xhttp_request POST "/xhttp/abc/0" [inr [1; 2]]);
   Request demo_xhttp 7 (demo_xhttp_request GET "/xhttp/abc" []);
   Request demo_xhttp 7 (demo_xhttp_request GET "/xhttp/abc/" []);
   Request demo_xhttp 7 (demo_xhttp_request GET "/xhttp/xyz" []); ReaderTakes 0].

(** What a run answered, and its final state. *)
Definition run_results (evs : list server_event) : list (option XhttpAcceptResult) :=
  match server_run server_start evs with Some (_, rs) => rs | None => [] end.
Definition run_state (evs : list server_event) : server :=
  match server_run server_start evs with Some (sv, _) => sv | None => server_start end.

Lemma xhttp_one_download_witness :
  run_results demo_requests = [Some PostHandled; Some (Upgraded (FromSession 0)); None; Some (Upgraded (FromSession 1)); None]
  /\ NoDup (given (run_results demo_requests)).
Proof.
  split; [vm_compute; reflexivity|].
  apply (xhttp_one_download demo_requests (run_state demo_requests)). vm_compute. reflexivity.
Defined.

Lemma xhttp_padding_in_range_witness : 100 <= sample_len padding_default 123456789 <= 1000.
Proof. apply (xhttp_padding_in_range padding_default 123456789); [lia|cbn; lia]. Defined.
