(* ===== verification/XhttpAccept.v ===== *)
(** * Accepting an XHTTP connection
    Models [accept_xhttp] and [accept_stream_one] of
    crates/skadi-transport/src/xhttp/accept.rs: the one-shot channel between the task
    that waits for the upgrade and hyper's task that handles the requests, with the
    reference counts of the cell that holds its sender, what this means for the
    connection gate, and when sessions leave the table. *)

From Stdlib Require Import Ascii String.
From stdpp Require Import base list list_numbers numbers strings gmap relations.
From S2P Require Import Prelude Io Gate Xhttp.

(** ** The cell of the upgrade
    [Arc<Mutex<Option<oneshot::Sender<_>>>>]: whether the sender is still in it, how
    many [Arc]s point to it, and what was sent. Dropping the last [Arc] drops a sender
    that is still inside. *)
Record upgrade_cell := { uc_sender : bool; uc_holders : nat; uc_value : option XhttpAcceptResult }.

Definition cell_new : upgrade_cell := {| uc_sender := true; uc_holders := 1; uc_value := None |}.

Definition cell_clone (c : upgrade_cell) : upgrade_cell :=
  {| uc_sender := uc_sender c; uc_holders := S (uc_holders c); uc_value := uc_value c |}.

Definition cell_drop (c : upgrade_cell) : upgrade_cell :=
  {| uc_sender := uc_sender c && (1 <? uc_holders c)%nat; uc_holders := pred (uc_holders c); uc_value := uc_value c |}.

(** [if let Some(tx) = upgrade_tx.lock().unwrap().take() { let _ = tx.send(result); }]. *)
Definition cell_send (c : upgrade_cell) (r : XhttpAcceptResult) : upgrade_cell :=
  if uc_sender c then {| uc_sender := false; uc_holders := uc_holders c; uc_value := Some r |} else c.

Inductive XhttpError := Serve (msg : string) | Disconnected.

(** [rx.await]: the value, an error once the sender is gone, or nothing yet. *)
Definition rx_poll (c : upgrade_cell) : option (XhttpError + XhttpAcceptResult) :=
  match uc_value c with
  | Some r => Some (inr r)
  | None => if uc_sender c then None else Some (inl Disconnected)
  end.

(** ** The two tasks *)

(** What happens while [accept_xhttp] waits: hyper hands a request of this connection
    to the service, the connection ends, or the sessions change elsewhere. *)
Inductive accept_event :=
| HttpRequest (random : Z) (req : request)
| HttpClosed
| Elsewhere (ev : server_event).

Record accepting := {
  ax_cell : upgrade_cell;
  ax_server : server;
  ax_open : bool;
  ax_responses : list response
}.

Section Accept.
Context (cfg : XhttpConfig).

(** The frame of [accept_xhttp] keeps [upgrade_tx]; the service got a clone. *)
Definition accept_start (sv : server) : accepting :=
  {| ax_cell := cell_clone cell_new; ax_server := sv; ax_open := true; ax_responses := [] |}.

(** A request runs on a clone of its own. The service is dropped when the
    connection ends. *)
Definition accepting_step (st : accepting) (ev : accept_event) : accepting :=
  match ev with
  | HttpRequest random req =>
    if negb (ax_open st) then st else
    let cell := cell_clone (ax_cell st) in
    let '(resp, c) := handle_request cfg random req {| cn_upgrade := uc_value cell; cn_server := ax_server st |} in
    let cell := match cn_upgrade c with Some r => cell_send cell r | None => cell end in
    {| ax_cell := cell_drop cell; ax_server := cn_server c; ax_open := true; ax_responses := ax_responses st ++ [resp] |}
  | HttpClosed =>
    if negb (ax_open st) then st else
    {| ax_cell := cell_drop (ax_cell st); ax_server := ax_server st; ax_open := false; ax_responses := ax_responses st |}
  | Elsewhere ev =>
    match server_step (ax_server st) ev with
    | Some (sv, _) => {| ax_cell := ax_cell st; ax_server := sv; ax_open := ax_open st; ax_responses := ax_responses st |}
    | None => st
    end
  end.

(** What [accept_xhttp] has returned after these events; [None] while it waits. *)
Definition accept_xhttp (sv : server) (evs : list accept_event) : option (XhttpError + XhttpAcceptResult) :=
  rx_poll (ax_cell (foldl accepting_step (accept_start sv) evs)).

Definition accept_stream_one (evs : list accept_event) : option (XhttpError + uplink) :=
  match accept_xhttp server_start evs with
  | None => None
  | Some (inl e) => Some (inl e)
  | Some (inr (Upgraded io)) => Some (inr io)
  | Some (inr PostHandled) => Some (inl Disconnected)
  end.

(** ** Specification *)

(** The first request of the connection that is answered by an upgrade. *)
Fixpoint first_upgrade (sv : server) (evs : list accept_event) : option XhttpAcceptResult :=
  match evs with
  | [] => None
  | HttpRequest random req :: evs =>
    let c := (handle_request cfg random req {| cn_upgrade := None; cn_server := sv |}).2 in
    match cn_upgrade c with
    | Some r => Some r
    | None => first_upgrade (cn_server c) evs
    end
  | HttpClosed :: _ => None
  | Elsewhere ev :: evs => first_upgrade (match server_step sv ev with Some (sv, _) => sv | None => sv end) evs
  end.

(** ** Lemmas *)

(** The cell as long as nothing was sent: one [Arc] for the frame, one for the service. *)
Definition waiting (st : accepting) : Prop :=
  ax_cell st = {| uc_sender := true; uc_holders := if ax_open st then 2 else 1; uc_value := None |}.

(** ... and afterwards. *)
Definition answered (r : XhttpAcceptResult) (st : accepting) : Prop :=
  uc_sender (ax_cell st) = false /\ uc_value (ax_cell st) = Some r.

Lemma answered_step r st ev : answered r st -> answered r (accepting_step st ev).
Proof.
  intros [Hs Hv]. destruct ev as [random req| |ev]; cbn [accepting_step].
  - destruct (ax_open st); [|done]. cbn [negb]. destruct (handle_request _ _ _ _) as [resp c].
    destruct (cn_upgrade c); unfold cell_send; cbn [cell_clone uc_sender]; rewrite ?Hs; (split; [cbn; by rewrite Hs|done]).
  - destruct (ax_open st); [|done]. split; [cbn; by rewrite Hs|done].
  - by destruct (server_step (ax_server st) ev) as [[sv o]|].
Qed.

Lemma answered_run r evs : forall st, answered r st -> answered r (foldl accepting_step st evs).
Proof. induction evs as [|ev evs IH]; intros st Ha; [done|]. cbn [foldl]. by apply IH, answered_step. Qed.

Lemma answered_poll r st : answered r st -> rx_poll (ax_cell st) = Some (inr r).
Proof. intros [_ Hv]. unfold rx_poll. by rewrite Hv. Qed.

(** A closed connection stays as it is. *)
Lemma closed_waiting evs : forall st, waiting st -> ax_open st = false ->
  waiting (foldl accepting_step st evs) /\ ax_open (foldl accepting_step st evs) = false.
Proof.
  induction evs as [|ev evs IH]; intros st Hw Hc; [done|]. cbn [foldl]. apply IH.
  - destruct ev; cbn [accepting_step]; rewrite ?Hc; cbn [negb]; [done..|]. destruct (server_step _ _) as [[sv o]|]; [|done].
    unfold waiting in *. rewrite Hc in Hw. exact Hw.
  - destruct ev; cbn [accepting_step]; rewrite ?Hc; cbn [negb]; [done..|]. by destruct (server_step _ _) as [[sv o]|].
Qed.

(** The result of a run from a waiting state. *)
Lemma accept_run evs : forall st, waiting st -> ax_open st = true ->
  rx_poll (ax_cell (foldl accepting_step st evs))
  = match first_upgrade (ax_server st) evs with Some r => Some (inr r) | None => None end.
Proof.
  induction evs as [|ev evs IH]; intros st Hw Ho; [cbn; unfold rx_poll; by rewrite Hw|].
  cbn [foldl first_upgrade]. destruct ev as [random req| |ev]; cbn [accepting_step]; rewrite ?Ho; cbn [negb].
  - unfold waiting in Hw. rewrite Ho in Hw. rewrite Hw. cbn [cell_clone uc_value uc_sender uc_holders].
    destruct (handle_request _ _ _ _) as [resp c]. cbn [snd]. destruct (cn_upgrade c) as [r|] eqn:Hu.
    + apply answered_poll, answered_run. done.
    + rewrite IH; done.
  - destruct (closed_waiting evs {| ax_cell := cell_drop (ax_cell st); ax_server := ax_server st; ax_open := false;
      ax_responses := ax_responses st |}) as [Hr Hc']; [|done|].
    + unfold waiting in *. rewrite Ho in Hw. cbn. by rewrite Hw.
    + unfold waiting in Hr. unfold rx_poll. by rewrite Hr.
  - destruct (server_step (ax_server st) ev) as [[sv o]|] eqn:Hs.
    + rewrite IH; [done| |done]. unfold waiting in *. rewrite Ho in Hw. cbn. by rewrite ?Ho.
    + by rewrite IH.
Qed.

Lemma accept_start_run sv evs :
  accept_xhttp sv evs = match first_upgrade sv evs with Some r => Some (inr r) | None => None end.
Proof. apply (accept_run evs (accept_start sv)); done. Qed.

(** What follows the end of the connection is not looked at. *)
Lemma first_upgrade_closed evs more : forall sv,
  HttpClosed ∈ evs -> first_upgrade sv (evs ++ more) = first_upgrade sv evs.
Proof.
  induction evs as [|ev evs IH]; intros sv Hin; [by apply elem_of_nil in Hin|].
  apply elem_of_cons in Hin as [<-|Hin]; [done|]. destruct ev as [random req| |ev]; cbn [app first_upgrade]; [|done|by apply IH].
  destruct (cn_upgrade _); [done|]. by apply IH.
Qed.

Lemma closed_pending sv evs more :
  HttpClosed ∈ evs -> first_upgrade sv evs = None -> accept_xhttp sv (evs ++ more) = None.
Proof. intros Hin Hn. by rewrite accept_start_run, first_upgrade_closed, Hn. Qed.
End Accept.

(** ** The gate while sessions wait *)

(** The steps of the gate's tasks in which a session gives its permit back only once
    its task has ended. *)
Definition held_step (ended : nat -> bool) (s s' : system) : Prop :=
  exists i p spurious, tasks s !! i = Some p /\ (forall counted, p = Holding counted -> ended i = true)
    /\ exec s i spurious = Some s'.

Lemma held_step_step ended s s' : held_step ended s s' -> step s s'.
Proof.
  intros (i & p & spurious & Hi & _ & He). unfold exec in He. rewrite Hi in He. destruct s as [g ts]. cbn in *.
  destruct (task_step g p spurious) as [g' p'] eqn:Ht. injection He as <-. by apply (step_task g ts i p spurious).
Qed.

Lemma held_step_holding ended s s' i counted :
  held_step ended s s' -> ended i = false -> tasks s !! i = Some (Holding counted) -> tasks s' !! i = Some (Holding counted).
Proof.
  intros (j & p & spurious & Hj & Hp & He) Hend Hi. unfold exec in He. rewrite Hj in He.
  destruct (task_step (gate s) p spurious) as [g' p']. injection He as <-. cbn [tasks].
  rewrite list_lookup_insert_ne; [done|]. intros ->. rewrite Hj in Hi. injection Hi as ->.
  specialize (Hp counted eq_refl). congruence.
Qed.

Lemma held_rtc ended s s' : rtc (held_step ended) s s' ->
  rtc step s s' /\ forall i counted, ended i = false -> tasks s !! i = Some (Holding counted) -> tasks s' !! i = Some (Holding counted).
Proof.
  induction 1 as [s|s1 s2 s3 H12 _ [IHr IHh]]; [split; [apply rtc_refl|done]|]. split.
  - eapply rtc_l; [by eapply held_step_step|done].
  - intros i counted He Hi. apply IHh; [done|]. by eapply held_step_holding.
Qed.

(** Distinct tasks that hold a counted permit are counted. *)
Lemma holders_at_least held : forall ts, NoDup held ->
  (forall i, i ∈ held -> ts !! i = Some (Holding true)) -> Z.of_nat (length held) <= holders ts.
Proof.
  induction held as [|i held IH]; intros ts Hnd Hts; [apply holders_nonneg|].
  apply NoDup_cons in Hnd as [Hi Hnd]. assert (Hti : ts !! i = Some (Holding true)) by (apply Hts; by left).
  pose proof (holders_insert ts i (Holding true) Idle Hti) as Hins. cbn [weight] in Hins.
  assert (Z.of_nat (length held) <= holders (<[i := Idle]> ts)); [|cbn [length]; lia].
  apply IH; [done|]. intros j Hj. rewrite list_lookup_insert_ne; [by apply Hts; right|]. by intros ->.
Qed.

(** ** The session table *)

Abbreviation session_ids sv := (table (sv_sessions sv)).

(** A request that uploads no stream-up body. *)
Definition no_stream_post (ev : server_event) : Prop :=
  match ev with
  | Request cfg _ req => allows_stream_up (xc_mode cfg) = false \/ rq_method req <> POST
  | _ => True
  end.

Lemma get_or_create_grows m sid : table m ⊆ table (get_or_create m sid).2 /\ is_Some (table (get_or_create m sid).2 !! sid).
Proof.
  unfold get_or_create. destruct (table m !! sid) as [o|] eqn:E; cbn; [by rewrite E|].
  split; [by apply insert_subseteq|]. rewrite lookup_insert_eq. by eexists.
Qed.

Lemma handle_request_grows cfg random req c :
  no_stream_post (Request cfg random req) ->
  session_ids (cn_server c) ⊆ session_ids (cn_server (handle_request cfg random req c).2)
  /\ sv_posts (cn_server (handle_request cfg random req c).2) = sv_posts (cn_server c).
Proof.
  intros Hp. cbn in Hp. unfold handle_request. do 4 (case_match; [done|]). destruct (extract_meta _ _) as [sid seq].
  case_match; [unfold handle_stream_one; by case_match|]. pose proof (get_or_create_grows (sv_sessions (cn_server c)) sid) as [Hg _].
  case_match.
  - unfold handle_packet_up. do 2 (case_match; [done|]). destruct (parse_uint _ _) as [n|]; [|done]. destruct (read_body_limited _ _ _) as [e|payload]; [done|].
    destruct (get_or_create _ _) as [o m]. cbn in *. by destruct (objects m !! o).
  - unfold handle_stream_up. destruct (get_or_create _ _) as [o m]. cbn [snd] in Hg. destruct (rq_method req) eqn:Hm; try done.
    + case_match; [done|]. destruct (objects m !! o) as [x|]; [|done]. destruct (take_upload_rx x) as [[] x']; done.
    + destruct Hp as [->|]; [done|congruence].
Qed.

Lemma server_step_grows sv ev sv' r :
  sv_posts sv = [] -> no_stream_post ev -> server_step sv ev = Some (sv', r) ->
  session_ids sv ⊆ session_ids sv' /\ sv_posts sv' = [].
Proof.
  intros Hn Hp. destruct ev as [cfg random req|i|i|o|o]; cbn [server_step]; rewrite ?Hn.
  - intros [= <- _]. destruct (handle_request_grows cfg random req {| cn_upgrade := None; cn_server := sv |} Hp) as [? ->]. done.
  - done.
  - done.
  - destruct (objects _ !! o) as [x|]; [|done]. cbn. destruct (ch_queue (upload x)); [done|]. destruct (rx_taken x); [|done].
    by intros [= <- _].
  - destruct (objects _ !! o) as [x|]; [|done]. cbn. destruct (rx_taken x); [|done]. by intros [= <- _].
Qed.

Lemma server_run_grows evs : forall sv sv' rs,
  sv_posts sv = [] -> Forall no_stream_post evs -> server_run sv evs = Some (sv', rs) ->
  session_ids sv ⊆ session_ids sv' /\ sv_posts sv' = [].
Proof.
  induction evs as [|ev evs IH]; intros sv sv' rs Hn Hf; cbn [server_run]; [by intros [= <- _]|].
  apply Forall_cons in Hf as [Hev Hf]. destruct (server_step sv ev) as [[sv1 r]|] eqn:Hs; [|done]. cbn [mbind option_bind].
  destruct (server_step_grows sv ev sv1 r Hn Hev Hs) as [Hg Hn1].
  destruct (server_run sv1 evs) as [[sv2 rs2]|] eqn:Hr; [|done]. intros [= <- _].
  destruct (IH sv1 sv2 rs2 Hn1 Hf Hr) as [Hg2 Hn2]. split; [by trans (session_ids sv1)|done].
Qed.

(** ** Properties *)

(** what waiting for an upgrade returns. [accept_xhttp] returns the result of the
    first request of its connection that is answered by an upgrade, whatever the
    requests before and after it and whatever other connections do with the sessions;
    until such a request it keeps waiting, and since its own frame keeps a reference
    to the cell with the sender, it also keeps waiting for ever once the client has
    closed the connection without one: [XhttpError::Disconnected] is never returned. *)
Theorem xhttp_accept_exact (cfg : XhttpConfig) (sv : server) (evs : list accept_event) :
  accept_xhttp cfg sv evs = match first_upgrade cfg sv evs with Some r => Some (inr r) | None => None end
  /\ accept_xhttp cfg sv evs <> Some (inl Disconnected)
  /\ (HttpClosed ∈ evs -> first_upgrade cfg sv evs = None -> forall more, accept_xhttp cfg sv (evs ++ more) = None).
Proof.
  rewrite accept_start_run. split_and!; [done|by destruct (first_upgrade _ _ _)|].
  intros Hin Hn more. by apply closed_pending.
Qed.

(** C37: probes exhaust the gate. Let as many connections as the gate allows have been
    admitted, sent requests that are no upgrade (or none), and been closed by their
    clients. Then, in every interleaving of the tasks in which a session gives its
    permit back only after [accept_xhttp] has returned, and whatever happens
    afterwards on any connection, no other task is ever admitted again. *)
Theorem xhttp_probes_exhaust_gate (cfg : XhttpConfig) (m : Z) (n : nat) (s s' : system)
    (sv : nat -> server) (evs more : nat -> list accept_event) (ended : nat -> bool) (probes : list nat)
    (Hm : 0 <= m < 2 ^ 32) (Hr : reachable (Some m) n s)
    (Hnd : NoDup probes) (Hfull : m <= Z.of_nat (length probes))
    (Hprobes : forall i, i ∈ probes -> tasks s !! i = Some (Holding true)
       /\ HttpClosed ∈ evs i /\ first_upgrade cfg (sv i) (evs i) = None)
    (Hended : forall i, ended i = true -> accept_xhttp cfg (sv i) (evs i ++ more i) <> None)
    (Hrun : rtc (held_step ended) s s') :
  forall i, i ∉ probes -> tasks s' !! i <> Some (Holding true).
Proof.
  intros i Hi Hh. destruct (held_rtc ended s s' Hrun) as [Hsteps Hkeep].
  assert (Hr' : reachable (Some m) n s') by (by eapply rtc_trans).
  pose proof (inv_reachable (Some m) n s' Hm Hr') as [_ Hc Hb]. cbn in Hb.
  assert (Z.of_nat (length (i :: probes)) <= holders (tasks s')); [|cbn [length] in *; lia].
  apply holders_at_least; [by apply NoDup_cons|]. intros j [->|Hj]%elem_of_cons; [done|].
  destruct (Hprobes j Hj) as (Ht & Hcl & Hn). apply Hkeep; [|done].
  destruct (ended j) eqn:He; [|done]. by destruct (Hended j He), (closed_pending cfg (sv j) (evs j) (more j)).
Qed.

(** sessions are never forgotten. As long as no client uploads a stream-up body, an
    entry of the session table is never removed: not when the download ends, nor when
    its reader is dropped, nor ever after. And every request on a session path that
    passes the checks of path, host and padding makes an entry, also one that is then
    refused for its method. *)
Theorem xhttp_sessions_never_forgotten (evs more : list server_event) (sv sv' : server) (rs rs' : list (option XhttpAcceptResult))
    (Hevs : Forall no_stream_post evs) (Hmore : Forall no_stream_post more)
    (Hrun : server_run server_start evs = Some (sv, rs)) (Hrun' : server_run sv more = Some (sv', rs')) :
  session_ids sv ⊆ session_ids sv'
  /\ forall cfg random req sid,
       rq_method req = OtherMethod -> String.prefix (normalized_path cfg) (rq_path req) = true ->
       host_matches (xc_host cfg) (from_option id EmptyString (hd_host (rq_headers req))) = true ->
       padding_valid (rq_headers req) = true ->
       extract_meta (rq_path req) (normalized_path cfg) = (sid, EmptyString) -> sid <> EmptyString ->
       exists c, handle_request cfg random req {| cn_upgrade := None; cn_server := sv |} = (Plain 405, c)
         /\ is_Some (session_ids (cn_server c) !! sid).
Proof.
  split.
  - destruct (server_run_grows evs server_start sv rs eq_refl Hevs Hrun) as [_ Hn]. by destruct (server_run_grows more _ _ _ Hn Hmore Hrun').
  - intros cfg random req sid Hm Hp Hh Hpad He Hs. unfold handle_request. rewrite Hm, Hp, Hpad, He. unfold from_option in Hh.
    change (default EmptyString (hd_host (rq_headers req))) with (from_option id EmptyString (hd_host (rq_headers req))).
    unfold from_option. rewrite Hh. cbn [negb]. rewrite !bool_decide_eq_false_2 by done. rewrite bool_decide_eq_true_2 by done. cbn [negb].
    unfold handle_stream_up. pose proof (get_or_create_grows (sv_sessions sv) sid) as [_ Hg]. cbn [cn_server] in *.
    destruct (get_or_create _ _) as [o m]. rewrite Hm. by eexists.
Qed.

(** ** Witnesses *)

Definition probe_events : list accept_event :=
  [HttpRequest 7 (demo_xhttp_request GET "/index.html" []); HttpClosed].

Lemma xhttp_accept_exact_witness :
  accept_xhttp demo_xhttp server_start [HttpRequest 7 (demo_xhttp_request GET "/xhttp/xyz" []); HttpClosed]
    = Some (inr (Upgraded (FromSession 0)))
  /\ forall more, accept_xhttp demo_xhttp server_start (probe_events ++ more) = None.
Proof.
  split.
  - destruct (xhttp_accept_exact demo_xhttp server_start
      [HttpRequest 7 (demo_xhttp_request GET "/xhttp/xyz" []); HttpClosed]) as (H & _). rewrite H. vm_compute. reflexivity.
  - destruct (xhttp_accept_exact demo_xhttp server_start probe_events) as (_ & _ & H).
    apply H; [right; left|vm_compute; reflexivity].
Defined.

Definition full_gate : system :=
  {| gate := {| max := Some 1; active := 1 |}; tasks := [Holding true; Refused] |}.

(** A probe that asks for another path and goes; a second client, refused, tries again. *)
Lemma xhttp_probes_exhaust_gate_witness :
  let s' := {| gate := gate full_gate; tasks := [Holding true; Trying 1] |} in
  rtc (held_step (fun i => (i =? 1)%nat)) full_gate s' /\ tasks s' !! 1%nat <> Some (Holding true).
Proof.
  cbv zeta.
  assert (Hrun : rtc (held_step (fun i => (i =? 1)%nat)) full_gate {| gate := gate full_gate; tasks := [Holding true; Trying 1] |}).
  { eapply rtc_l with {| gate := gate full_gate; tasks := [Holding true; Idle] |}.
    - exists 1%nat, Refused, false. split; [reflexivity|]. split; [discriminate|reflexivity].
    - apply rtc_once. exists 1%nat, Idle, false. split; [reflexivity|]. split; [discriminate|reflexivity]. }
  split; [exact Hrun|].
  apply (xhttp_probes_exhaust_gate demo_xhttp 1 2 full_gate _ (fun _ => server_start)
    (fun i => if (i =? 0)%nat then probe_events else [HttpRequest 7 (demo_xhttp_request GET "/xhttp/xyz" [])])
    (fun _ => []) (fun i => (i =? 1)%nat) [0%nat]).
  - lia.
  - apply (exec_all_rtc [(0, false); (1, false); (0, false); (1, false); (1, false)]%nat). reflexivity.
  - apply NoDup_singleton.
  - reflexivity.
  - intros i ->%list_elem_of_singleton. split_and!; [reflexivity|right; left|vm_compute; reflexivity].
  - intros [|[|i]]; [discriminate| |discriminate]. intros _. vm_compute. discriminate.
  - exact Hrun.
  - intros Hin%list_elem_of_singleton. discriminate Hin.
Defined.

Definition leak_requests : list server_event :=
  [Request demo_xhttp 7 (demo_xhttp_request GET "/xhttp/abc" []); ReaderDropped 0;
   Request demo_xhttp 7 (demo_xhttp_request OtherMethod "/xhttp/xyz" [])].

Lemma xhttp_sessions_never_forgotten_witness :
  session_ids (run_state [Request demo_xhttp 7 (demo_xhttp_request GET "/xhttp/abc" [])]) ⊆ session_ids (run_state leak_requests)
  /\ size (session_ids (run_state leak_requests)) = 2%nat.
Proof.
  split; [|vm_compute; reflexivity].
  apply (xhttp_sessions_never_forgotten [Request demo_xhttp 7 (demo_xhttp_request GET "/xhttp/abc" [])]
    [ReaderDropped 0; Request demo_xhttp 7 (demo_xhttp_request OtherMethod "/xhttp/xyz" [])] _ _
    [Some (Upgraded (FromSession 0))] [None; None]).
  - apply Forall_singleton. right. discriminate.
  - apply Forall_cons. split; [exact I|]. apply Forall_singleton. right. discriminate.
  - vm_compute. reflexivity.
  - vm_compute. reflexivity.
Defined.
