(* ===== verification/NetText.v ===== *)
(** * Addresses as text
    Models what the program uses of Rust's standard library to read an address:
    [<SocketAddr as FromStr>], with the rules of std's parser (decimal octets without
    leading zeros, IPv6 groups with one [::], a trailing IPv4 part, a scope id). *)

From Stdlib Require Import Ascii String.
From stdpp Require Import base list list_numbers numbers strings pretty.
From S2P Require Import Prelude Core.

(** A parser takes bytes from the front, or fails and takes nothing. *)
Definition parser (A : Type) : Type := bytes -> option (A * bytes).

Definition given_char (c : Z) : parser unit := fun s =>
  match s with
  | b :: s => if b =? c then Some (tt, s) else None
  | [] => None
  end.

Definition digit_value (radix b : Z) : option Z :=
  let v := if (48 <=? b) && (b <=? 57) then b - 48
           else if (97 <=? b) && (b <=? 102) then b - 87
           else if (65 <=? b) && (b <=? 70) then b - 55
           else radix in
  if v <? radix then Some v else None.

(** The digits that follow: value and count; [None] when there are more than
    [max_digits] or the value reaches [bound]. *)
Fixpoint number_loop (radix bound : Z) (max_digits : option nat) (count : nat) (acc : Z) (s : bytes)
    : option (Z * nat * bytes) :=
  match s with
  | b :: s' =>
    match digit_value radix b with
    | Some d =>
      let acc := acc * radix + d in
      if bound <=? acc then None
      else if match max_digits with Some m => (m <? S count)%nat | None => false end then None
      else number_loop radix bound max_digits (S count) acc s'
    | None => Some (acc, count, s)
    end
  | [] => Some (acc, count, [])
  end.

Definition read_number (radix bound : Z) (max_digits : option nat) (allow_zero_prefix : bool) : parser Z := fun s =>
  let has_leading_zero := bool_decide (head s = Some 48) in
  match number_loop radix bound max_digits 0 0 s with
  | Some (v, count, rest) =>
    if (count =? 0)%nat then None
    else if negb allow_zero_prefix && has_leading_zero && (1 <? count)%nat then None
    else Some (v, rest)
  | None => None
  end.

(** A separator in front of every element but the first. *)
Definition read_separator {A} (sep : Z) (index : nat) (inner : parser A) : parser A := fun s =>
  if (index =? 0)%nat then inner s
  else match given_char sep s with Some (_, s) => inner s | None => None end.

Definition read_octet (index : nat) : parser Z := read_separator 46 index (read_number 10 256 (Some 3%nat) false).

Definition read_ipv4_addr : parser Ipv4Addr := fun s =>
  '(a, s) ← read_octet 0 s; '(b, s) ← read_octet 1 s; '(c, s) ← read_octet 2 s; '(d, s) ← read_octet 3 s;
  Some (Ipv4 a b c d, s).

Definition read_group (index : nat) : parser Z := read_separator 58 index (read_number 16 65536 (Some 4%nat) true).

(** Up to [limit] groups from the [i]-th on: the groups, and whether the last two
    were an IPv4 address. *)
Fixpoint read_groups (n i limit : nat) (s : bytes) : list Z * bool * bytes :=
  match n with
  | O => ([], false, s)
  | S n =>
    let v4 := if (i <? limit - 1)%nat then read_separator 58 i read_ipv4_addr s else None in
    match v4 with
    | Some (ip, s) => ([o0 ip * 256 + o1 ip; o2 ip * 256 + o3 ip], true, s)
    | None =>
      match read_group i s with
      | Some (g, s) => let '(gs, v4, s) := read_groups n (S i) limit s in (g :: gs, v4, s)
      | None => ([], false, s)
      end
    end
  end.

Definition segment_bytes (gs : list Z) : bytes := concat (map to_be16 gs).

Definition read_ipv6_addr : parser bytes := fun s =>
  let '(head, head_ipv4, s) := read_groups 8 0 8 s in
  if (length head =? 8)%nat then Some (segment_bytes head, s)
  else if head_ipv4 then None
  else
    '(_, s) ← given_char 58 s;
    '(_, s) ← given_char 58 s;
    let limit := (8 - (length head + 1))%nat in
    let '(tail, _, s) := read_groups limit 0 limit s in
    Some (segment_bytes (head ++ replicate (8 - length head - length tail) 0 ++ tail), s).

Definition read_port : parser Z := fun s =>
  '(_, s) ← given_char 58 s; read_number 10 65536 None true s.

Definition read_scope_id (s : bytes) : Z * bytes :=
  match given_char 37 s with
  | Some (_, s') => match read_number 10 (2 ^ 32) None true s' with Some (n, r) => (n, r) | None => (0, s) end
  | None => (0, s)
  end.

Definition read_socket_addr_v4 : parser SocketAddr := fun s =>
  '(ip, s) ← read_ipv4_addr s;
  '(port, s) ← read_port s;
  Some (SockV4 ip port, s).

Definition read_socket_addr_v6 : parser SocketAddr := fun s =>
  '(_, s) ← given_char 91 s;
  '(octets, s) ← read_ipv6_addr s;
  let '(scope, s) := read_scope_id s in
  '(_, s) ← given_char 93 s;
  '(port, s) ← read_port s;
  Some (SockV6 octets port 0 scope, s).

(** [s.parse::<SocketAddr>()]: all of the text. *)
Definition parse_socket_addr (s : string) : option SocketAddr :=
  let b := bytes_of_string s in
  match match read_socket_addr_v4 b with Some r => Some r | None => read_socket_addr_v6 b end with
  | Some (a, []) => Some a
  | _ => None
  end.

(** [s.parse::<IpAddr>()] and [s.parse::<Ipv4Addr>()]. *)
Definition parse_ip (s : string) : option IpAddr :=
  let b := bytes_of_string s in
  match match read_ipv4_addr b with
        | Some (ip, r) => Some (V4 ip, r)
        | None => '(o, r) ← read_ipv6_addr b; Some (V6 o, r)
        end with
  | Some (ip, []) => Some ip
  | _ => None
  end.

Definition parse_ipv4_addr (s : string) : option Ipv4Addr :=
  match read_ipv4_addr (bytes_of_string s) with
  | Some (ip, []) => Some ip
  | _ => None
  end.

(** [s.parse::<IpAddr>().is_ok()]. *)
Definition parse_ip_addr (s : string) : bool :=
  match parse_ip s with Some _ => true | None => false end.
