(* ===== verification/External.v ===== *)
(** * Configuration files of the external cores
    Models crates/skadi-transport/src/awg/{config,render}.rs,
    hysteria2/{config,render}.rs and tuic/{config,render}.rs: the texts given to the
    AmneziaWG, Hysteria2 and TUIC programs. Keys, networks and the WireGuard file
    format are the crates wireguard-conf's and ipnet's: parameters. *)

From Stdlib Require Import Ascii String.
From stdpp Require Import base list list_numbers numbers strings pretty.
From S2P Require Import Prelude Core Io.
From S2P Require Import NetText.

(** The quote, the backslash and the end of line. *)
Definition dquote : ascii := "034"%char.
Definition backslash : ascii := "092"%char.
Definition newline : ascii := "010"%char.
Definition dq : string := String dquote EmptyString.
Definition nl : string := String newline EmptyString.

(** [s.replace(c, t)] for a character. *)
Fixpoint str_replace (c : ascii) (t s : string) : string :=
  match s with
  | EmptyString => EmptyString
  | String a s' => if Ascii.eqb a c then t +:+ str_replace c t s' else String a (str_replace c t s')
  end.

Definition char_contains (c : ascii) (s : string) : bool := str_contains (String c EmptyString) s.

(** [l.join(sep)]. *)
Fixpoint join (sep : string) (l : list string) : string :=
  match l with
  | [] => EmptyString
  | [x] => x
  | x :: l => x +:+ sep +:+ join sep l
  end.

(** ** awg/config.rs and awg/render.rs *)

Record AwgObfuscationConfig := {
  jc : Z; jmin : Z; jmax : Z; s1 : Z; s2 : Z; s3 : Z; s4 : Z;
  h1 : string; h2 : string; h3 : string; h4 : string
}.

Record AwgPeerConfig := {
  ap_public_key : string;
  ap_allowed_ips : list string;
  ap_preshared_key : option string;
  ap_endpoint : option string;
  ap_persistent_keepalive : option Z
}.

Record AwgClientExport := {
  ce_private_key : string;
  ce_address : string;
  ce_dns : option string;
  ce_allowed_ips : list string;
  ce_persistent_keepalive : option Z
}.

Record AwgServerConfig := {
  as_listen : SocketAddr;
  as_interface_name : string;
  as_private_key : string;
  as_address : string;
  as_mtu : option Z;
  as_obfuscation : AwgObfuscationConfig;
  as_peers : list AwgPeerConfig
}.

Record AwgClientConfig := {
  awc_interface_name : string;
  awc_private_key : string;
  awc_address : string;
  awc_server_public_key : string;
  awc_endpoint : string;
  awc_mtu : option Z;
  awc_dns : option string;
  awc_allowed_ips : list string;
  awc_persistent_keepalive : option Z;
  awc_obfuscation : AwgObfuscationConfig
}.

(** [s.split_once(c)]. *)
Fixpoint split_once (c : ascii) (s : string) : option (string * string) :=
  match s with
  | EmptyString => None
  | String a s' =>
    if Ascii.eqb a c then Some (EmptyString, s')
    else match split_once c s' with Some (l, r) => Some (String a l, r) | None => None end
  end.

(** [s.rsplit_once(c)]: at the last occurrence. *)
Fixpoint rsplit_once (c : ascii) (s : string) : option (string * string) :=
  match s with
  | EmptyString => None
  | String a s' =>
    match rsplit_once c s' with
    | Some (l, r) => Some (String a l, r)
    | None => if Ascii.eqb a c then Some (EmptyString, s') else None
    end
  end.

(** [value.parse::<u32>().with_context(..)]: the error keeps std's text below. *)
Definition parse_u32 (s field : string) : res anyhow Z :=
  match parse_uint (2 ^ 32) (trim s) with
  | Some n => Ok n
  | None => Err (bail ("invalid " +:+ field))
  end.

Definition parse_h_range (value field : string) : res anyhow (Z * Z) :=
  let trimmed := trim value in
  if bool_decide (trimmed = EmptyString) then Err (bail ("AWG " +:+ field +:+ " must not be empty")) else
  match split_once "-"%char trimmed with
  | Some (lo, hi) =>
    min ← parse_u32 lo field;
    max ← parse_u32 hi field;
    if max <? min
    then Err (bail ("AWG " +:+ field +:+ ": min (" +:+ pretty min +:+ ") must be <= max (" +:+ pretty max +:+ ")"))
    else Ok (min, max)
  | None =>
    single ← (match parse_uint (2 ^ 32) trimmed with
              | Some n => Ok n
              | None => Err (bail ("invalid " +:+ field))
              end);
    Ok (single, single)
  end.

(** The crates: keys of the three kinds, networks, the checks of the obfuscation
    settings and the text of an interface (private key, address, listen port,
    obfuscation, header ranges, mtu, dns, peers). *)
Record WgCrates := {
  private_key_of : string -> string + string;
  public_key_of : string -> string + string;
  preshared_key_of : string -> string + string;
  ipnet_of : string -> option string;
  amnezia_check : AwgObfuscationConfig -> list (Z * Z) -> option string;
  interface_text : string -> string -> option Z -> AwgObfuscationConfig -> list (Z * Z) -> option Z ->
                   option string ->
                   list (string * list string * option string * option string * option Z) -> string
}.

Section Render.
Context (wg : WgCrates).

Definition key_result (msg : string) (k : string + string) : res anyhow string :=
  match k with
  | inr key => Ok key
  | inl e => Err (bail (msg +:+ ": " +:+ e))
  end.

Definition parse_ipnet (value field : string) : res anyhow string :=
  match ipnet_of wg value with
  | Some net => Ok net
  | None => Err (bail ("invalid AWG " +:+ field +:+ ": " +:+ value))
  end.

(** [iter().map(f).collect::<Result<Vec<_>>>()]. *)
Fixpoint collect {A B} (f : A -> res anyhow B) (l : list A) : res anyhow (list B) :=
  match l with
  | [] => Ok []
  | a :: l => b ← f a; bs ← collect f l; Ok (b :: bs)
  end.

Definition build_peer (peer : AwgPeerConfig)
    : res anyhow (string * list string * option string * option string * option Z) :=
  public_key ← key_result "invalid AWG peer public_key" (public_key_of wg (ap_public_key peer));
  allowed_ips ← collect (fun ip => parse_ipnet ip "allowed_ips") (ap_allowed_ips peer);
  psk ← match ap_preshared_key peer with
        | Some psk => k ← key_result "invalid AWG preshared_key" (preshared_key_of wg psk); Ok (Some k)
        | None => Ok None
        end;
  endpoint ← match ap_endpoint peer with
             | Some e => match parse_socket_addr e with
                         | Some addr => Ok (Some (sock_display addr))
                         | None => Err (bail ("invalid peer endpoint: " +:+ e))
                         end
             | None => Ok None
             end;
  Ok (public_key, allowed_ips, psk, endpoint, ap_persistent_keepalive peer).

Definition build_amnezia_settings (obf : AwgObfuscationConfig) : res anyhow (list (Z * Z)) :=
  r1 ← parse_h_range (h1 obf) "h1";
  r2 ← parse_h_range (h2 obf) "h2";
  r3 ← parse_h_range (h3 obf) "h3";
  r4 ← parse_h_range (h4 obf) "h4";
  match amnezia_check wg obf [r1; r2; r3; r4] with
  | Some e => Err (bail e)
  | None => Ok [r1; r2; r3; r4]
  end.

Definition render_server_conf (config : AwgServerConfig) : res anyhow string :=
  private_key ← key_result "invalid AWG private_key" (private_key_of wg (as_private_key config));
  address ← parse_ipnet (as_address config) "address";
  awg ← build_amnezia_settings (as_obfuscation config);
  peers ← collect build_peer (as_peers config);
  Ok (interface_text wg private_key address (Some (sock_port (as_listen config))) (as_obfuscation config) awg
        (as_mtu config) None peers).

Definition render_client_conf (server_public_key endpoint : string) (client : AwgClientExport)
    (obfuscation : AwgObfuscationConfig) (mtu : option Z) : res anyhow string :=
  private_key ← key_result "invalid client private_key" (private_key_of wg (ce_private_key client));
  address ← parse_ipnet (ce_address client) "client address";
  awg ← build_amnezia_settings obfuscation;
  allowed_ips ← collect (fun ip => parse_ipnet ip "allowed_ips") (ce_allowed_ips client);
  if bool_decide (trim endpoint = EmptyString) then Err (bail "AWG endpoint must not be empty")
  else
    server_public_key ← key_result "invalid server public_key" (public_key_of wg server_public_key);
    let dns := match ce_dns client with
               | Some dns => if bool_decide (trim dns = EmptyString) then None else Some (trim dns)
               | None => None
               end in
    Ok (interface_text wg private_key address None obfuscation awg mtu dns
          [(server_public_key, allowed_ips, None, Some (trim endpoint), ce_persistent_keepalive client)]).
End Render.

(** [conf.lines()]: the lines without their ends, carriage return included, no
    empty line after a last end; a last line without end is kept as it is. *)
Definition strip_cr (s : string) : string :=
  match rev (bytes_of_string s) with
  | b :: r => if b =? 13 then string_of_bytes (rev r) else s
  | [] => s
  end.

Definition str_lines (s : string) : list string :=
  match rev (str_split newline s) with
  | EmptyString :: r => map strip_cr (rev r)
  | l :: r => map strip_cr (rev r) ++ [l]
  | [] => []
  end.

Definition wgquick_keys : list string :=
  ["address"; "mtu"; "dns"; "table"; "preup"; "postup"; "predown"; "postdown"; "saveconfig"]%string.

(** The key of a line, in lower case. *)
Definition line_key (line : string) : string :=
  lowercase (match split_once "="%char (trim line) with Some (k, _) => trim k | None => EmptyString end).

Definition keeps_line (line : string) : bool :=
  let trimmed := trim line in
  if bool_decide (trimmed = EmptyString) || String.prefix "#" trimmed then true
  else negb (bool_decide (line_key line ∈ wgquick_keys)).

Definition strip_wgquick_fields (conf : string) : string :=
  join nl (List.filter keeps_line (str_lines conf)) +:+ nl.

(** ** hysteria2 *)

Record Hysteria2ServerConfig := {
  hs_listen : SocketAddr;
  hs_password : string;
  hs_cert_path : string;
  hs_key_path : string;
  hs_masquerade_url : option string
}.

Record Hysteria2ClientConfig := {
  hc_server : string;
  hc_password : string;
  hc_socks5_listen : string;
  hc_http_listen : option string;
  hc_sni : option string;
  hc_ca_file : option string;
  hc_insecure : bool;
  hc_pin_sha256 : option string;
  hc_bandwidth_up : option string;
  hc_bandwidth_down : option string
}.

Definition escape (s : string) : string :=
  str_replace dquote (String backslash dq) (str_replace backslash (String backslash (String backslash EmptyString)) s).

Definition starts_with_digit (s : string) : bool :=
  match s with
  | String a _ => let d := Z.of_N (N_of_ascii a) in (48 <=? d) && (d <=? 57)
  | EmptyString => false
  end.

Definition yaml_quote (value : string) : string :=
  if bool_decide (value = EmptyString) || char_contains ":"%char value || char_contains "#"%char value
     || char_contains " "%char value || char_contains dquote value || char_contains "'"%char value
     || starts_with_digit value
  then dq +:+ escape value +:+ dq
  else value.

(** [{:02X}] of a byte. *)
Definition hex_digit_upper (n : Z) : ascii := ascii_of_N (Z.to_N (if n <? 10 then n + 48 else n + 55)).

Definition unreserved (b : Z) : bool :=
  ((65 <=? b) && (b <=? 90)) || ((97 <=? b) && (b <=? 122)) || ((48 <=? b) && (b <=? 57))
  || (b =? 45) || (b =? 95) || (b =? 46) || (b =? 126).

Fixpoint urlencode_bytes (l : bytes) : string :=
  match l with
  | [] => EmptyString
  | b :: l =>
    if unreserved b then String (ascii_of_N (Z.to_N b)) (urlencode_bytes l)
    else String "%"%char (String (hex_digit_upper (b / 16)) (String (hex_digit_upper (b mod 16)) (urlencode_bytes l)))
  end.

Definition urlencoding_simple (s : string) : string := urlencode_bytes (bytes_of_string s).

(** [IpAddr::is_unspecified] and [Display] of an address. *)
Definition ip_is_unspecified (ip : IpAddr) : bool :=
  match ip with V4 a => ipv4_is_unspecified a | V6 o => ipv6_is_unspecified o end.
Definition ip_display (ip : IpAddr) : string :=
  match ip with V4 a => ipv4_display a | V6 o => ipv6_display o end.

Definition hysteria2_listen (listen : SocketAddr) : string :=
  let port := pretty (sock_port listen) in
  if ip_is_unspecified (sock_ip listen) then ":" +:+ port
  else if sock_is_ipv4 listen then ip_display (sock_ip listen) +:+ ":" +:+ port
  else "[" +:+ ip_display (sock_ip listen) +:+ "]:" +:+ port.

Definition render_server_yaml (config : Hysteria2ServerConfig) : string :=
  "listen: " +:+ hysteria2_listen (hs_listen config) +:+ nl +:+ nl
  +:+ "tls:" +:+ nl +:+ "  cert: " +:+ hs_cert_path config +:+ nl +:+ "  key: " +:+ hs_key_path config +:+ nl +:+ nl
  +:+ "auth:" +:+ nl +:+ "  type: password" +:+ nl +:+ "  password: " +:+ hs_password config +:+ nl
  +:+ match hs_masquerade_url config with
      | Some url =>
        if bool_decide (trim url = EmptyString) then EmptyString
        else nl +:+ "masquerade:" +:+ nl +:+ "  type: proxy" +:+ nl +:+ "  proxy:" +:+ nl
             +:+ "    url: " +:+ trim url +:+ nl +:+ "    rewriteHost: true" +:+ nl
      | None => EmptyString
      end.

(** A line of the client file for an optional, non-blank value. *)
Definition yaml_line (key : string) (v : option string) : string :=
  match v with
  | Some x => if bool_decide (trim x = EmptyString) then EmptyString
              else "  " +:+ key +:+ ": " +:+ yaml_quote (trim x) +:+ nl
  | None => EmptyString
  end.

Definition is_some {A} (o : option A) : bool := match o with Some _ => true | None => false end.

Definition render_client_yaml (config : Hysteria2ClientConfig) : string :=
  "server: " +:+ yaml_quote (hc_server config) +:+ nl +:+ "auth: " +:+ yaml_quote (hc_password config) +:+ nl +:+ nl
  +:+ "socks5:" +:+ nl +:+ "  listen: " +:+ yaml_quote (hc_socks5_listen config) +:+ nl
  +:+ match hc_http_listen config with
      | Some http => if bool_decide (trim http = EmptyString) then EmptyString
                     else nl +:+ "http:" +:+ nl +:+ "  listen: " +:+ yaml_quote (trim http) +:+ nl
      | None => EmptyString
      end
  +:+ (if hc_insecure config || is_some (hc_ca_file config) || is_some (hc_sni config) || is_some (hc_pin_sha256 config)
       then nl +:+ "tls:" +:+ nl +:+ yaml_line "sni" (hc_sni config) +:+ yaml_line "ca" (hc_ca_file config)
            +:+ (if hc_insecure config then "  insecure: true" +:+ nl else EmptyString)
            +:+ yaml_line "pinSHA256" (hc_pin_sha256 config)
       else EmptyString)
  +:+ (if is_some (hc_bandwidth_up config) || is_some (hc_bandwidth_down config)
       then nl +:+ "bandwidth:" +:+ nl
            +:+ match hc_bandwidth_up config with
                | Some up => "  up: " +:+ yaml_quote up +:+ nl
                | None => EmptyString
                end
            +:+ match hc_bandwidth_down config with
                | Some down => "  down: " +:+ yaml_quote down +:+ nl
                | None => EmptyString
                end
       else EmptyString).

Definition render_share_uri (config : Hysteria2ClientConfig) : string :=
  let sni := match hc_sni config with
             | Some sni => if bool_decide (sni = EmptyString) then [] else ["sni=" +:+ urlencoding_simple sni]
             | None => []
             end in
  let q := sni ++ (if hc_insecure config then ["insecure=1"%string] else []) in
  "hy2://" +:+ urlencoding_simple (hc_password config) +:+ "@" +:+ hc_server config
  +:+ match q with [] => EmptyString | _ => "?" +:+ join "&" q end.

(** ** tuic *)

Record TuicServerConfig := {
  ts_listen : SocketAddr;
  ts_uuid : string;
  ts_password : string;
  ts_cert_path : string;
  ts_key_path : string;
  ts_congestion_control : string;
  ts_alpn : list string
}.

Record TuicClientConfig := {
  tc_server : string;
  tc_uuid : string;
  tc_password : string;
  tc_socks5_listen : string;
  tc_ip : option string;
  tc_congestion_control : string;
  tc_alpn : list string;
  tc_udp_relay_mode : string;
  tc_allow_insecure : bool
}.

Definition escape_toml_string (s : string) : string := escape s.
Definition json_escape (s : string) : string := escape s.

Definition quoted (s : string) : string := dq +:+ s +:+ dq.
Definition render_alpn (alpn : list string) : string := join ", " (map quoted alpn).

Definition render_server_toml (config : TuicServerConfig) : string :=
  "log_level = " +:+ quoted "warn" +:+ nl
  +:+ "server = " +:+ quoted (sock_display (ts_listen config)) +:+ nl
  +:+ "udp_relay_ipv6 = false" +:+ nl +:+ "dual_stack = false" +:+ nl +:+ nl
  +:+ "[users]" +:+ nl
  +:+ quoted (ts_uuid config) +:+ " = " +:+ quoted (escape_toml_string (ts_password config)) +:+ nl +:+ nl
  +:+ "[tls]" +:+ nl
  +:+ "certificate = " +:+ quoted (ts_cert_path config) +:+ nl
  +:+ "private_key = " +:+ quoted (ts_key_path config) +:+ nl
  +:+ "alpn = [" +:+ render_alpn (ts_alpn config) +:+ "]" +:+ nl +:+ nl
  +:+ "[quic.congestion_control]" +:+ nl +:+ "controller = " +:+ quoted (ts_congestion_control config) +:+ nl +:+ nl
  +:+ "[experimental]" +:+ nl +:+ "drop_loopback = false" +:+ nl +:+ "drop_private = false" +:+ nl.

(** A member of the JSON object, with its indentation. *)
Definition json_member (key value : string) : string := "    " +:+ quoted key +:+ ": " +:+ value.

Definition render_client_json (config : TuicClientConfig) : string :=
  let relay :=
    join ("," +:+ nl)
      ([json_member "server" (quoted (json_escape (tc_server config)));
        json_member "uuid" (quoted (json_escape (tc_uuid config)));
        json_member "password" (quoted (json_escape (tc_password config)));
        json_member "udp_relay_mode" (quoted (json_escape (tc_udp_relay_mode config)));
        json_member "congestion_control" (quoted (json_escape (tc_congestion_control config)));
        json_member "alpn" ("[" +:+ render_alpn (tc_alpn config) +:+ "]")]
       ++ match tc_ip config with
          | Some ip => if bool_decide (trim ip = EmptyString) then []
                       else [json_member "ip" (quoted (json_escape (trim ip)))]
          | None => []
          end
       ++ (if tc_allow_insecure config then [json_member "skip_cert_verify" "true"] else [])) in
  "{" +:+ nl +:+ "  " +:+ quoted "relay" +:+ ": {" +:+ nl +:+ relay +:+ nl +:+ "  }," +:+ nl
  +:+ "  " +:+ quoted "local" +:+ ": {" +:+ nl
  +:+ json_member "server" (quoted (json_escape (tc_socks5_listen config))) +:+ nl +:+ "  }," +:+ nl
  +:+ "  " +:+ quoted "log_level" +:+ ": " +:+ quoted "warn" +:+ nl +:+ "}" +:+ nl.

(** ** Reading back *)

(** The rest of a quoted string after its opening quote, as TOML, JSON and YAML
    read it: a backslash gives the next character, a quote ends it. *)
Fixpoint unquote (s : string) : option (string * string) :=
  match s with
  | EmptyString => None
  | String a s' =>
    if Ascii.eqb a dquote then Some (EmptyString, s')
    else if Ascii.eqb a backslash then
      match s' with
      | EmptyString => None
      | String b s'' => match unquote s'' with Some (v, r) => Some (String b v, r) | None => None end
      end
    else match unquote s' with Some (v, r) => Some (String a v, r) | None => None end
  end.

(** Percent-decoding. *)
Definition hex_value (a : ascii) : option Z :=
  let d := Z.of_N (N_of_ascii a) in
  if (48 <=? d) && (d <=? 57) then Some (d - 48)
  else if (65 <=? d) && (d <=? 70) then Some (d - 55)
  else None.

Fixpoint urldecode (s : string) : option bytes :=
  match s with
  | EmptyString => Some []
  | String a s' =>
    if Ascii.eqb a "%"%char then
      match s' with
      | String x (String y s'') =>
        match hex_value x, hex_value y, urldecode s'' with
        | Some h, Some l, Some r => Some (h * 16 + l :: r)
        | _, _, _ => None
        end
      | _ => None
      end
    else match urldecode s' with Some r => Some (Z.of_N (N_of_ascii a) :: r) | None => None end
  end.

(** ** Lemmas *)

(** Both replacements at once. *)
Fixpoint escape_chars (s : string) : string :=
  match s with
  | EmptyString => EmptyString
  | String a s' =>
    if Ascii.eqb a backslash then String backslash (String backslash (escape_chars s'))
    else if Ascii.eqb a dquote then String backslash (String dquote (escape_chars s'))
    else String a (escape_chars s')
  end.

Lemma escape_eq s : escape s = escape_chars s.
Proof.
  unfold escape. induction s as [|a s IH]; [done|]. cbn [str_replace escape_chars].
  destruct (Ascii.eqb_spec a backslash) as [->|Hb].
  - change (String backslash (String backslash EmptyString) +:+ ?x) with (String backslash (String backslash x)).
    cbn [str_replace]. change (Ascii.eqb backslash dquote) with false. cbv iota. by rewrite IH.
  - cbn [str_replace]. destruct (Ascii.eqb a dquote); [|by rewrite IH].
    change (String backslash dq +:+ ?x) with (String backslash (String dquote x)). by rewrite IH.
Qed.

Lemma unquote_escaped s rest : unquote (escape s +:+ dq +:+ rest) = Some (s, rest).
Proof.
  rewrite escape_eq. induction s as [|a s IH]; [done|]. cbn [escape_chars].
  destruct (Ascii.eqb_spec a backslash) as [->|Hb]; [|destruct (Ascii.eqb_spec a dquote) as [->|Hq]].
  - change (String ?x (String ?y ?z) +:+ ?w) with (String x (String y (z +:+ w))). cbn [unquote].
    change (Ascii.eqb backslash dquote) with false. change (Ascii.eqb backslash backslash) with true. cbv iota.
    by rewrite IH.
  - change (String ?x (String ?y ?z) +:+ ?w) with (String x (String y (z +:+ w))). cbn [unquote].
    change (Ascii.eqb backslash dquote) with false. change (Ascii.eqb backslash backslash) with true. cbv iota.
    by rewrite IH.
  - change (String ?x ?z +:+ ?w) with (String x (z +:+ w)). cbn [unquote].
    apply Ascii.eqb_neq in Hb, Hq. rewrite Hb, Hq. by rewrite IH.
Qed.

Lemma hex_value_digit n : 0 <= n < 16 -> hex_value (hex_digit_upper n) = Some n.
Proof.
  intros Hn. assert (Hx : forallb (fun n => bool_decide (hex_value (hex_digit_upper n) = Some n)) (seqZ 0 16) = true)
    by (vm_compute; reflexivity).
  rewrite forallb_forall in Hx. eapply bool_decide_eq_true_1, (Hx n).
  apply list_elem_of_In, elem_of_seqZ. lia.
Qed.

Lemma unreserved_not_percent b : byte_ok b -> unreserved b = true -> Ascii.eqb (ascii_of_N (Z.to_N b)) "%"%char = false.
Proof.
  intros Hb Hu. apply Ascii.eqb_neq. intros He. apply (f_equal N_of_ascii) in He.
  unfold byte_ok in Hb. rewrite N_ascii_embedding in He by lia. change (N_of_ascii "%"%char) with 37%N in He.
  assert (b = 37) as -> by lia. done.
Qed.

Lemma urldecode_encode l : bytes_ok l -> urldecode (urlencode_bytes l) = Some l.
Proof.
  induction 1 as [|b l Hb Hl IH]; [done|]. cbn [urlencode_bytes]. unfold byte_ok in Hb.
  destruct (unreserved b) eqn:Hu; cbn [urldecode].
  - rewrite unreserved_not_percent by done. rewrite IH, N_ascii_embedding, Z2N.id by lia. done.
  - change (Ascii.eqb "%" "%") with true. cbv iota.
    rewrite !hex_value_digit, IH
      by ((apply Z.mod_pos_bound; lia) || (split; [apply Z.div_pos; lia|apply Z.div_lt_upper_bound; lia])).
    do 2 f_equal. pose proof (Z.div_mod b 16). lia.
Qed.

(** A text without line ends. *)
Definition one_line (s : string) : Prop := str_split newline s = [s].

Lemma split_not_nil c s : str_split c s <> [].
Proof. destruct s as [|a s]; cbn; [done|]. destruct (Ascii.eqb a c); [done|]. by destruct (str_split c s). Qed.

Lemma split_app c s t : str_split c s = [s] -> str_split c (s +:+ String c t) = s :: str_split c t.
Proof.
  induction s as [|a s IH]; intros Hs.
  - change (EmptyString +:+ ?x) with x. cbn. by rewrite Ascii.eqb_refl.
  - change (String a s +:+ ?x) with (String a (s +:+ x)). cbn [str_split] in *.
    destruct (Ascii.eqb a c); [by injection Hs|].
    destruct (str_split c s) as [|p ps] eqn:E; [by apply split_not_nil in E|].
    injection Hs as -> ->. by rewrite IH.
Qed.

Lemma split_pieces c s : Forall (fun p => str_split c p = [p]) (str_split c s).
Proof.
  induction s as [|a s IH]; cbn [str_split]; [by repeat constructor|].
  destruct (Ascii.eqb a c) eqn:E; [by constructor|].
  destruct (str_split c s) as [|p ps] eqn:Es; [by apply split_not_nil in Es|].
  apply Forall_cons in IH as [Hp Hps]. constructor; [|done]. cbn [str_split]. by rewrite E, Hp.
Qed.

Lemma append_assoc (a b c : string) : (a +:+ b) +:+ c = a +:+ (b +:+ c).
Proof. induction a as [|x a IH]; [done|]. change (String x (( a +:+ b) +:+ c) = String x (a +:+ b +:+ c)). by rewrite IH. Qed.

Lemma split_lines ls :
  Forall one_line ls ->
  str_split newline (join nl ls +:+ nl) = match ls with [] => [EmptyString] | _ => ls end ++ [EmptyString].
Proof.
  destruct ls as [|l ls]; [done|]. revert l. induction ls as [|k ls IH]; intros l Hall.
  - apply Forall_inv in Hall. cbn [join]. exact (split_app newline l EmptyString Hall).
  - apply Forall_cons in Hall as [Hl Hall].
    change (join nl (l :: k :: ls)) with (l +:+ nl +:+ join nl (k :: ls)). rewrite !append_assoc.
    change (nl +:+ ?x) with (String newline x). rewrite split_app by done. by rewrite IH.
Qed.

(** A text has no line end exactly when no character of it is one. *)
Lemma one_line_bytes s : one_line s <-> Forall (fun b => b <> 10) (bytes_of_string s).
Proof.
  unfold one_line. induction s as [|a s IH]; cbn [str_split bytes_of_string]; [by split|].
  rewrite Forall_cons, <- IH. destruct (Ascii.eqb_spec a newline) as [->|Hne].
  - split; [intros [= ? H]; done|]. intros [H _]. by destruct H.
  - assert (Ha : Z.of_N (N_of_ascii a) <> 10).
    { intros H. apply Hne. rewrite <- (ascii_N_embedding a), <- (ascii_N_embedding newline). f_equal.
      change (N_of_ascii newline) with 10%N. lia. }
    destruct (str_split newline s) as [|p ps] eqn:E; [by apply split_not_nil in E|].
    split; [intros [= -> ->]; done|]. intros [_ [= -> ->]]. done.
Qed.

Lemma strip_cr_one_line s : one_line s -> one_line (strip_cr s).
Proof.
  rewrite !one_line_bytes. unfold strip_cr. destruct (rev (bytes_of_string s)) as [|b r] eqn:E; [done|].
  assert (Hs : bytes_of_string s = rev r ++ [b]) by (rewrite <- (rev_involutive (bytes_of_string s)), E; done).
  assert (Hr : bytes_ok (rev r)) by (pose proof (bytes_ok_of_string s) as H; rewrite Hs in H; by apply bytes_ok_app in H as [? _]).
  intros Hall. assert (Hall' : Forall (fun b => b <> 10) (rev r)) by (rewrite Hs in Hall; by apply Forall_app in Hall as [? _]).
  destruct (b =? 13); [by rewrite bytes_of_string_of_bytes|done].
Qed.

Lemma strip_cr_lines ls : Forall one_line ls -> Forall one_line (map strip_cr ls).
Proof. induction 1; constructor; [by apply strip_cr_one_line|done]. Qed.

Lemma str_lines_one_line s : Forall one_line (str_lines s).
Proof.
  unfold str_lines. pose proof (split_pieces newline s) as H. set (pieces := str_split newline s) in *.
  destruct (rev pieces) as [|l r] eqn:E; [done|].
  assert (Hs : pieces = rev r ++ [l]) by (rewrite <- (rev_involutive pieces), E; done).
  rewrite Hs in H. apply Forall_app in H as [Hr Hl]. apply strip_cr_lines in Hr.
  destruct l; [done|]. by apply Forall_app.
Qed.

Lemma parse_digits_bound bound acc s n :
  0 <= acc < bound -> parse_digits bound acc s = Some n -> 0 <= n < bound.
Proof.
  revert acc. induction s as [|a s IH]; intros acc Ha; cbn [parse_digits]; [by intros [= <-]|].
  destruct (_ && _) eqn:E; [|done]. bool_hyps. apply IH. lia.
Qed.

Lemma parse_uint_bound bound s n : 0 < bound -> parse_uint bound s = Some n -> 0 <= n < bound.
Proof.
  intros Hb. unfold parse_uint. destruct s as [|a s]; [done|]. destruct (Ascii.eqb a "+"%char).
  - destruct s; [done|]. apply parse_digits_bound. lia.
  - apply parse_digits_bound. lia.
Qed.

Lemma kept_lines conf : let kept := List.filter keeps_line (str_lines conf) in
  str_split newline (strip_wgquick_fields conf) = match kept with [] => [EmptyString] | _ => kept end ++ [EmptyString].
Proof.
  intros kept. apply (split_lines kept). apply List.Forall_forall. intros l Hl. apply filter_In in Hl as [Hl _].
  pose proof (str_lines_one_line conf) as H. by apply (List.Forall_forall one_line) with (1 := H) in Hl.
Qed.

Lemma stripped_keeps conf : Forall (fun l => keeps_line l = true) (str_split newline (strip_wgquick_fields conf)).
Proof.
  rewrite kept_lines. apply Forall_app. split; [|by repeat constructor]. set (kept := List.filter _ _).
  assert (Hf : Forall (fun l => keeps_line l = true) kept).
  { apply List.Forall_forall. intros l Hl. by apply filter_In in Hl as [_ ?]. }
  destruct kept; [by repeat constructor|done].
Qed.

(** ** Properties *)

(** values cannot break out of their quotes. What the renderers put between
    quotes in the TUIC files and in the Hysteria2 client file is read back as the
    configured value, and the text after the closing quote is read as written,
    whatever characters the value has; a YAML value that is not quoted is the value
    itself. *)
Theorem external_quoting_safe :
  (forall s rest, unquote (escape_toml_string s +:+ dq +:+ rest) = Some (s, rest))
  /\ (forall s rest, unquote (json_escape s +:+ dq +:+ rest) = Some (s, rest))
  /\ (forall s, yaml_quote s = s
        \/ exists q, yaml_quote s = dq +:+ q /\ forall rest, unquote (q +:+ rest) = Some (s, rest)).
Proof.
  split_and!; [apply unquote_escaped..|]. intros s. unfold yaml_quote. destruct (_ || _); [right|by left].
  exists (escape s +:+ dq). split; [done|]. intros rest. rewrite append_assoc. apply unquote_escaped.
Qed.

(** share links carry any password. Percent-decoding what the link contains
    gives the bytes of the password back. *)
Theorem share_uri_roundtrip (s : string) : urldecode (urlencoding_simple s) = Some (bytes_of_string s).
Proof. apply urldecode_encode, bytes_ok_of_string. Qed.

(** the Hysteria2 server file does not quote. A password with line ends is
    rendered as if it were other settings: the file of a configuration without
    masquerade is that of one with the masquerade written in the password. *)
Theorem hysteria2_password_injects (config : Hysteria2ServerConfig) (url : string)
    (Hu : trim url = url) (Hne : url <> EmptyString) :
  render_server_yaml
    {| hs_listen := hs_listen config; hs_cert_path := hs_cert_path config; hs_key_path := hs_key_path config;
       hs_password := hs_password config +:+ nl +:+ nl +:+ "masquerade:" +:+ nl +:+ "  type: proxy" +:+ nl
         +:+ "  proxy:" +:+ nl +:+ "    url: " +:+ url +:+ nl +:+ "    rewriteHost: true";
       hs_masquerade_url := None |}
  = render_server_yaml
    {| hs_listen := hs_listen config; hs_cert_path := hs_cert_path config; hs_key_path := hs_key_path config;
       hs_password := hs_password config; hs_masquerade_url := Some url |}.
Proof.
  unfold render_server_yaml. cbn [hs_listen hs_password hs_cert_path hs_key_path hs_masquerade_url].
  rewrite Hu, (bool_decide_eq_false_2 (url = EmptyString)) by done. rewrite !append_assoc. done.
Qed.

(** header ranges are ranges. An accepted range of AmneziaWG header values lies
    in 32 bits and is not inverted. *)
Theorem awg_h_range_bounds (value field : string) (lo hi : Z) (Hp : parse_h_range value field = Ok (lo, hi)) :
  0 <= lo <= hi /\ hi < 2 ^ 32.
Proof.
  unfold parse_h_range, parse_u32 in Hp. destruct (bool_decide _); [done|].
  destruct (split_once _ _) as [[l r]|].
  - destruct (parse_uint _ (trim l)) as [x|] eqn:Hx; [|done]. destruct (parse_uint _ (trim r)) as [y|] eqn:Hy; [|done].
    cbn [mbind res_bind] in Hp. destruct (y <? x) eqn:E; bool_hyps; [done|]. injection Hp as <- <-.
    apply parse_uint_bound in Hx, Hy; lia.
  - destruct (parse_uint _ _) as [x|] eqn:Hx; [|done]. injection Hp as <- <-. apply parse_uint_bound in Hx; lia.
Qed.

(** only the wg-quick settings are removed. The lines of the stripped text are
    the lines of the text, in order, without those that set a wg-quick key, and an
    empty one at the end. *)
Theorem strip_wgquick_exact (conf : string) :
  let kept := List.filter keeps_line (str_lines conf) in
  str_split newline (strip_wgquick_fields conf)
    = match kept with [] => [EmptyString] | _ => kept end ++ [EmptyString]
  /\ Forall (fun l => keeps_line l = true) (str_split newline (strip_wgquick_fields conf)).
Proof. split; [apply kept_lines|apply stripped_keeps]. Qed.

Definition demo_hysteria2 : Hysteria2ServerConfig :=
  {| hs_listen := SockV4 (Ipv4 0 0 0 0) 443; hs_password := "secret"; hs_cert_path := "/c.pem"; hs_key_path := "/k.pem";
     hs_masquerade_url := None |}.

Lemma hysteria2_password_injects_witness :
  exists password, String.prefix "secret" password = true
    /\ render_server_yaml {| hs_listen := hs_listen demo_hysteria2; hs_cert_path := "/c.pem"; hs_key_path := "/k.pem";
                             hs_password := password; hs_masquerade_url := None |}
       = render_server_yaml {| hs_listen := hs_listen demo_hysteria2; hs_cert_path := "/c.pem"; hs_key_path := "/k.pem";
                               hs_password := "secret"; hs_masquerade_url := Some "https://a.test"%string |}.
Proof.
  eexists. split; cycle 1.
  - apply (hysteria2_password_injects demo_hysteria2 "https://a.test").
    + vm_compute. reflexivity.
    + discriminate.
  - vm_compute. reflexivity.
Defined.

Lemma awg_h_range_bounds_witness : 0 <= 10 <= 20 /\ 20 < 2 ^ 32.
Proof. apply (awg_h_range_bounds " 10 - 20 " "h1"). vm_compute. reflexivity. Defined.
