(* ===== verification/Tls.v ===== *)
(** * Certificates of the TLS listener
    Models crates/skadi-transport/src/tls.rs (the resolver that picks a certificate
    by server name) and the key-exchange mode of crypto.rs. Reading PEM files and
    making signing keys are rustls', a parameter. *)

From Stdlib Require Import Ascii String.
From stdpp Require Import base list list_numbers numbers strings pretty gmap.
From S2P Require Import Prelude Core Io NetText.

(** ** Key exchange *)

Inductive TlsKexMode := Classic | HybridPq.

#[export] Instance TlsKexMode_eq_dec : EqDecision TlsKexMode.
Proof. solve_decision. Defined.

Definition kex_parse (value : string) : res anyhow TlsKexMode :=
  if bool_decide (value = "classic" \/ value = "x25519")%string then Ok Classic
  else if bool_decide (value = "hybrid" \/ value = "hybrid_pq" \/ value = "x25519mlkem768")%string then Ok HybridPq
  else Err (bail ("invalid TLS KEX mode " +:+ String "034"%char (value +:+ String "034"%char EmptyString)
                  +:+ ": expected classic or hybrid_pq")).

(** The groups offered: rustls' own, with the hybrid one in front. *)
Definition kx_groups {G} (defaults : list G) (hybrid : G) (mode : TlsKexMode) : list G :=
  match mode with
  | HybridPq => hybrid :: defaults
  | Classic => defaults
  end.

(** ** The resolver *)

Inductive TlsError :=
| NoCertificate
| NoPrivateKey
| TlsHandshake (msg : string)
| NoCertificates
| EmptyServerNames
| DuplicateServerName (name : string).

Definition tls_error_display (e : TlsError) : string :=
  match e with
  | NoCertificate => "no certificate found in PEM file"
  | NoPrivateKey => "no private key found in PEM file"
  | TlsHandshake msg => "TLS handshake failed: " +:+ msg
  | NoCertificates => "no TLS certificates configured"
  | EmptyServerNames => "SNI entry has no server_names"
  | DuplicateServerName name => "duplicate SNI server name: " +:+ name
  end.

(** [bail!(TlsError)]. *)
Definition tls_bail {A} (e : TlsError) : res anyhow A := Err (bail (tls_error_display e)).

Record TlsCertPaths := { cert_path : string; key_path : string }.

Record TlsSniCert := { sc_server_names : list string; sc_cert_path : string; sc_key_path : string }.

Record TlsServerConfig := {
  tls_default : option TlsCertPaths;
  tls_sni_certs : list TlsSniCert;
  tls_alpn : list string;
  tls_kex_mode : TlsKexMode
}.

Definition tls_single (cert key : string) (alpn : list string) : TlsServerConfig :=
  {| tls_default := Some {| cert_path := cert; key_path := key |}; tls_sni_certs := []; tls_alpn := alpn;
     tls_kex_mode := Classic |}.

Section Resolver.
Context {CertifiedKey : Type}.

(** Certificates of a PEM file (opening it or parsing it may fail) and the
    signing key of another. *)
Record PemFiles := {
  pem_certs : string -> string + (string + list bytes);
  pem_private_key : string -> string + bytes;
  any_supported_type : bytes -> option string;
  certified_key : list bytes -> bytes -> CertifiedKey
}.
Context (pem : PemFiles).

Definition load_certs (path : string) : res anyhow (list bytes) :=
  match pem_certs pem path with
  | inl e => Err (bail ("cannot open certificate file " +:+ path +:+ ": " +:+ e))
  | inr (inl e) => Err (Anyhow [("failed to parse certificates from " +:+ path); e])
  | inr (inr []) => tls_bail NoCertificate
  | inr (inr certs) => Ok certs
  end.

Definition load_private_key (path : string) : res anyhow bytes :=
  match pem_private_key pem path with
  | inl e => Err (bail ("failed to parse private key from " +:+ path +:+ ": " +:+ e))
  | inr key => Ok key
  end.

Definition load_certified_key (paths : TlsCertPaths) : res anyhow CertifiedKey :=
  cert_chain ← load_certs (cert_path paths);
  key ← load_private_key (key_path paths);
  match any_supported_type pem key with
  | Some e => Err (Anyhow [("invalid private key: " +:+ key_path paths); e])
  | None => Ok (certified_key pem cert_chain key)
  end.

Definition normalize_server_name (name : string) : res anyhow string :=
  let trimmed := trim name in
  if bool_decide (trimmed = EmptyString) then Err (bail "empty SNI server name")
  else if parse_ip_addr trimmed
  then Err (bail ("IP addresses are not supported in server_names: " +:+ trimmed))
  else Ok (lowercase trimmed).

Record SniCertResolver := { by_name : gmap string CertifiedKey; default : option CertifiedKey }.

Definition resolve (self : SniCertResolver) (server_name : option string) : option CertifiedKey :=
  match server_name with
  | Some name =>
    match by_name self !! lowercase name with
    | Some ck => Some ck
    | None => default self
    end
  | None => default self
  end.

Fixpoint insert_names (ck : CertifiedKey) (names : list string) (by_name : gmap string CertifiedKey)
    : res anyhow (gmap string CertifiedKey) :=
  match names with
  | [] => Ok by_name
  | name :: names =>
    normalized ← normalize_server_name name;
    match by_name !! normalized with
    | Some _ => tls_bail (DuplicateServerName normalized)
    | None => insert_names ck names (<[normalized := ck]> by_name)
    end
  end.

Fixpoint insert_entries (entries : list TlsSniCert) (by_name : gmap string CertifiedKey)
    : res anyhow (gmap string CertifiedKey) :=
  match entries with
  | [] => Ok by_name
  | entry :: entries =>
    if (length (sc_server_names entry) =? 0)%nat then tls_bail EmptyServerNames
    else
      ck ← load_certified_key {| cert_path := sc_cert_path entry; key_path := sc_key_path entry |};
      by_name ← insert_names ck (sc_server_names entry) by_name;
      insert_entries entries by_name
  end.

Definition build_resolver (config : TlsServerConfig) : res anyhow SniCertResolver :=
  match tls_default config, tls_sni_certs config with
  | None, [] => tls_bail NoCertificates
  | paths, sni_certs =>
    default ← match paths with
              | Some paths => ck ← load_certified_key paths; Ok (Some ck)
              | None => Ok None
              end;
    by_name ← insert_entries sni_certs ∅;
    Ok {| by_name := by_name; default := default |}
  end.

Record TlsTransport := {
  tt_resolver : SniCertResolver;
  tt_alpn : list bytes;
  tt_kex_mode : TlsKexMode
}.

(** [TlsTransport::new]; [versions] is rustls' answer to the protocol versions. *)
Definition tls_new (versions : option string) (config : TlsServerConfig) : res anyhow TlsTransport :=
  resolver ← build_resolver config;
  match versions with
  | Some e => Err (Anyhow ["unsupported TLS protocol versions"; e])
  | None => Ok {| tt_resolver := resolver; tt_alpn := map bytes_of_string (tls_alpn config);
                  tt_kex_mode := tls_kex_mode config |}
  end.

(** [TlsTransport::accept]: rustls' handshake with the certificate of the resolver,
    which answers with the stream or an error's text. *)
Definition tls_accept {S} (self : TlsTransport) (server_name : option string)
    (handshake : option CertifiedKey -> string + S) : res anyhow S :=
  match handshake (resolve (tt_resolver self) server_name) with
  | inl e => tls_bail (TlsHandshake e)
  | inr s => Ok s
  end.
End Resolver.
Arguments PemFiles : clear implicits.
Arguments SniCertResolver : clear implicits.
Arguments TlsTransport : clear implicits.

(** ** Which certificate a client sees *)

Section Names.
Context {CertifiedKey : Type}.
Context (pem : PemFiles CertifiedKey).

Definition normalized (n : string) : string := lowercase (trim n).

(** The entry that lists a name, up to case and blanks, and its key. *)
Definition lists (entry : TlsSniCert) (name : string) : Prop :=
  exists n, n ∈ sc_server_names entry /\ normalized n = name.

Definition entry_key (entry : TlsSniCert) : res anyhow CertifiedKey :=
  load_certified_key pem {| cert_path := sc_cert_path entry; key_path := sc_key_path entry |}.

Definition usable_name (n : string) : Prop := trim n <> EmptyString /\ parse_ip_addr (trim n) = false.

Lemma normalize_ok n m : normalize_server_name n = Ok m <-> usable_name n /\ m = lowercase (trim n).
Proof.
  unfold normalize_server_name, usable_name. destruct (bool_decide (trim n = EmptyString)) eqn:E; bool_hyps; [naive_solver|].
  destruct (parse_ip_addr (trim n)); naive_solver.
Qed.

Lemma insert_names_ok (ck : CertifiedKey) names (m m' : gmap string CertifiedKey) :
  insert_names ck names m = Ok m' ->
  Forall usable_name names /\ NoDup (map normalized names)
  /\ (forall n, n ∈ map normalized names -> m !! n = None)
  /\ forall name, m' !! name = if bool_decide (name ∈ map normalized names) then Some ck else m !! name.
Proof.
  revert m. induction names as [|n names IH]; intros m; cbn [insert_names map].
  - intros [= <-]. split_and!; [constructor..| |]; [by intros n ?%not_elem_of_nil|].
    intros name. by rewrite bool_decide_eq_false_2 by apply not_elem_of_nil.
  - destruct (normalize_server_name n) as [nm| |] eqn:Hn; [|done..]. apply normalize_ok in Hn as [Hu ->].
    cbn [mbind res_bind]. destruct (m !! lowercase (trim n)) eqn:Hm; [done|]. intros H.
    apply IH in H as (Hf & Hd & Hnew & Hl). split_and!.
    + by constructor.
    + constructor; [|done]. intros Hin. apply Hnew in Hin. by rewrite lookup_insert_eq in Hin.
    + intros x [->|Hx]%elem_of_cons; [done|]. pose proof (Hnew x Hx) as Hx'.
      by apply lookup_insert_None in Hx' as [? _].
    + intros name. rewrite Hl. destruct (decide (name = lowercase (trim n))) as [->|Hne].
      * rewrite lookup_insert_eq, (bool_decide_eq_true_2 (_ ∈ _ :: _)) by constructor. by destruct (bool_decide _).
      * rewrite lookup_insert_ne by done. erewrite (bool_decide_ext (name ∈ _ :: _)); [done|]. rewrite elem_of_cons. tauto.
Qed.

Lemma insert_names_complete (ck : CertifiedKey) names (m : gmap string CertifiedKey) :
  Forall usable_name names -> NoDup (map normalized names) ->
  (forall n, n ∈ map normalized names -> m !! n = None) -> exists m', insert_names ck names m = Ok m'.
Proof.
  revert m. induction names as [|n names IH]; intros m Hu Hd Hm; cbn [insert_names map]; [by eexists|].
  apply Forall_cons in Hu as [Hn Hu]. apply NoDup_cons in Hd as [Hi Hd].
  rewrite (proj2 (normalize_ok n (normalized n)) (conj Hn eq_refl)). cbn [mbind res_bind].
  rewrite (Hm (normalized n)) by constructor. apply IH; [done..|]. intros x Hx.
  rewrite lookup_insert_ne by (intros <-; done). apply Hm. by constructor.
Qed.

Definition all_names (entries : list TlsSniCert) : list string :=
  concat (map (fun e => map normalized (sc_server_names e)) entries).

Lemma elem_of_all_names entries name : name ∈ all_names entries <-> exists e, e ∈ entries /\ lists e name.
Proof.
  unfold all_names, lists. rewrite list_elem_of_In, in_concat. setoid_rewrite in_map_iff. split.
  - intros (l & (e & <- & He) & Hn). apply in_map_iff in Hn as (n & <- & Hn). exists e.
    rewrite list_elem_of_In. split; [done|]. exists n. by rewrite list_elem_of_In.
  - intros (e & He & n & Hn & <-). exists (map normalized (sc_server_names e)).
    apply list_elem_of_In in He, Hn. split; [by exists e|]. by apply in_map.
Qed.

Lemma insert_entries_ok entries (m m' : gmap string CertifiedKey) :
  insert_entries pem entries m = Ok m' ->
  (forall n, n ∈ all_names entries -> m !! n = None)
  /\ (forall n, n ∉ all_names entries -> m' !! n = m !! n)
  /\ forall e n, e ∈ entries -> lists e n -> exists ck, entry_key e = Ok ck /\ m' !! n = Some ck.
Proof.
  revert m. induction entries as [|e entries IH]; intros m; cbn [insert_entries].
  - intros [= <-]. split_and!; [|done|]; [intros n Hn|intros e n He]; by apply not_elem_of_nil in Hn || apply not_elem_of_nil in He.
  - destruct (_ =? 0)%nat; [done|]. destruct (load_certified_key _ _) as [ck| |] eqn:Hck; [|done..].
    cbn [mbind res_bind]. destruct (insert_names ck _ m) as [m1| |] eqn:Hn; [|done..]. cbn [mbind res_bind].
    apply insert_names_ok in Hn as (_ & _ & Hfree & Hl). intros Hr. destruct (IH _ Hr) as (Hf & Hk & He).
    assert (Hcons : forall n, n ∈ all_names (e :: entries) <-> n ∈ map normalized (sc_server_names e) \/ n ∈ all_names entries)
      by (intros n; unfold all_names; cbn [map concat]; apply elem_of_app).
    split_and!.
    + intros n [Hn|Hn]%Hcons; [by apply Hfree|]. pose proof (Hf n Hn) as H. rewrite Hl in H. by destruct (bool_decide _).
    + intros n Hn. rewrite Hcons in Hn. rewrite Hk, Hl by tauto. by rewrite bool_decide_eq_false_2 by tauto.
    + intros e' n [->|He']%elem_of_cons Hln; [|by apply He]. exists ck. split; [done|].
      destruct Hln as (x & Hx & <-). assert (Hin : normalized x ∈ map normalized (sc_server_names e)).
      { rewrite list_elem_of_In in Hx |- *. by apply in_map. }
      rewrite Hk, Hl by (intros H; apply Hf in H; rewrite Hl, bool_decide_eq_true_2 in H; done).
      by rewrite bool_decide_eq_true_2.
Qed.

Lemma insert_entries_usable entries (m m' : gmap string CertifiedKey) :
  insert_entries pem entries m = Ok m' -> Forall (fun e => Forall usable_name (sc_server_names e)) entries.
Proof.
  revert m. induction entries as [|e entries IH]; intros m; cbn [insert_entries]; [by constructor|].
  destruct (_ =? 0)%nat; [done|]. destruct (load_certified_key _ _) as [ck| |]; [|done..].
  cbn [mbind res_bind]. destruct (insert_names ck _ m) as [m1| |] eqn:Hn; [|done..]. cbn [mbind res_bind].
  intros H. constructor; [by apply insert_names_ok in Hn as (? & _)|by apply IH in H].
Qed.

Lemma insert_entries_complete entries (m : gmap string CertifiedKey) :
  Forall (fun e => sc_server_names e <> [] /\ Forall usable_name (sc_server_names e)
                   /\ exists ck, entry_key e = Ok ck) entries ->
  NoDup (all_names entries) -> (forall n, n ∈ all_names entries -> m !! n = None) ->
  exists m', insert_entries pem entries m = Ok m'.
Proof.
  revert m. induction entries as [|e entries IH]; intros m He Hd Hm; cbn [insert_entries]; [by eexists|].
  apply Forall_cons in He as [(Hne & Hu & ck & Hck) He]. unfold entry_key in Hck. rewrite Hck. cbn [mbind res_bind].
  unfold all_names in Hd, Hm. cbn [map concat] in Hd, Hm. apply NoDup_app in Hd as (Hd & Hx & Hds).
  destruct (length (sc_server_names e) =? 0)%nat eqn:E; bool_hyps; [by destruct (sc_server_names e)|].
  destruct (insert_names_complete ck (sc_server_names e) m Hu Hd) as (m1 & Hm1).
  { intros n Hn. apply Hm, elem_of_app. by left. }
  rewrite Hm1. cbn [mbind res_bind]. apply IH; [done..|]. intros n Hn.
  destruct (insert_names_ok _ _ _ _ Hm1) as (_ & _ & _ & Hl).
  rewrite Hl, bool_decide_eq_false_2 by (intros Hn'; by apply (Hx n Hn')). apply Hm, elem_of_app. by right.
Qed.

(** ** Properties *)

(** clients see the certificate configured for the name they ask for. The entry
    that lists the name, up to case and surrounding blanks, is the one presented; for
    names no entry lists and for clients that name none it is the default one. *)
Theorem tls_resolver_exact (config : TlsServerConfig) (r : SniCertResolver CertifiedKey)
    (Hb : build_resolver pem config = Ok r) :
  (forall n e, e ∈ tls_sni_certs config -> lists e (lowercase n) ->
     exists ck, entry_key e = Ok ck /\ resolve r (Some n) = Some ck)
  /\ (forall n, (forall e, e ∈ tls_sni_certs config -> ~ lists e (lowercase n)) ->
       resolve r (Some n) = resolve r None)
  /\ match tls_default config with
     | Some paths => exists ck, load_certified_key pem paths = Ok ck /\ resolve r None = Some ck
     | None => resolve r None = None /\ tls_sni_certs config <> []
     end.
Proof.
  assert (exists d m, r = {| by_name := m; default := d |} /\ insert_entries pem (tls_sni_certs config) ∅ = Ok m
    /\ match tls_default config with
       | Some paths => exists ck, load_certified_key pem paths = Ok ck /\ d = Some ck
       | None => d = None /\ tls_sni_certs config <> [] end) as (d & m & -> & Hm & Hd).
  { unfold build_resolver in Hb. destruct (tls_default config) as [paths|].
    - destruct (load_certified_key pem paths) as [ck| |]; [|done..]. cbn [mbind res_bind] in Hb.
      destruct (insert_entries _ _ _) as [m| |]; [|done..]. injection Hb as <-. exists (Some ck), m. naive_solver.
    - destruct (tls_sni_certs config) as [|e es] eqn:E; [done|]. rewrite <- E in *. cbn [mbind res_bind] in Hb.
      destruct (insert_entries _ _ _) as [m| |]; [|done..]. injection Hb as <-. exists None, m. rewrite E. naive_solver. }
  destruct (insert_entries_ok _ _ _ Hm) as (_ & Hno & He). unfold resolve. cbn [by_name default]. split_and!.
  - intros n e Hin Hl. destruct (He e _ Hin Hl) as (ck & Hck & ->). by exists ck.
  - intros n Hn. rewrite Hno; [by rewrite lookup_empty|]. intros (e & Hin & Hl)%elem_of_all_names. by apply (Hn e).
  - by destruct (tls_default config).
Qed.
End Names.

(** ** Witnesses *)

(** Files whose certificate is their path. *)
Definition demo_pem : PemFiles bytes :=
  {| pem_certs path := inr (inr [bytes_of_string path]); pem_private_key path := inr (bytes_of_string path);
     any_supported_type _ := None; certified_key certs _ := concat certs |}.

Definition demo_tls : TlsServerConfig :=
  {| tls_default := Some {| cert_path := "d"; key_path := "dk" |};
     tls_sni_certs := [{| sc_server_names := ["A.example"; " b.example"]; sc_cert_path := "ab"; sc_key_path := "abk" |};
                       {| sc_server_names := ["c.example"]; sc_cert_path := "c"; sc_key_path := "ck" |}];
     tls_alpn := []; tls_kex_mode := Classic |}.

Definition demo_resolver_of : SniCertResolver bytes :=
  {| by_name := <["c.example" := bytes_of_string "c"]> (<["b.example" := bytes_of_string "ab"]>
       (<["a.example" := bytes_of_string "ab"]> ∅));
     default := Some (bytes_of_string "d") |}.

Lemma tls_resolver_exact_witness :
  exists ck, entry_key demo_pem {| sc_server_names := ["A.example"; " b.example"]; sc_cert_path := "ab"; sc_key_path := "abk" |}
             = Ok ck /\ resolve demo_resolver_of (Some "B.Example") = Some ck.
Proof.
  apply (proj1 (tls_resolver_exact demo_pem demo_tls demo_resolver_of ltac:(vm_compute; reflexivity))).
  - left.
  - exists " b.example"%string. split; [right; left|reflexivity].
Defined.
