(* ===== verification/HybridKx.v ===== *)
(** * The hybrid key exchange
    Models crates/skadi-transport/src/hybrid_kx.rs: X25519MLKEM768 as a key-exchange
    group of rustls. ML-KEM-768 and X25519 are the crates' and the fields of a class,
    with the laws of a key encapsulation and of Diffie-Hellman. *)

From stdpp Require Import base list list_numbers numbers.
From S2P Require Import Prelude.

(** An encapsulation draws randomness, here its last argument. *)
Class HybridCrypto := {
  DecapsulationKey : Type;
  mlkem_public : DecapsulationKey -> bytes;
  encapsulate : bytes -> bytes -> option (bytes * bytes);
  decapsulate : DecapsulationKey -> bytes -> option bytes;
  dh : bytes -> bytes -> bytes;
  dh_public : bytes -> bytes;
  mlkem_public_length sk : length (mlkem_public sk) = 1184%nat;
  encapsulate_length pk r ct ss : encapsulate pk r = Some (ct, ss) -> length ct = 1088%nat /\ length ss = 32%nat;
  encapsulate_public sk r : exists ct ss, encapsulate (mlkem_public sk) r = Some (ct, ss) /\ decapsulate sk ct = Some ss;
  decapsulate_length sk ct ss : decapsulate sk ct = Some ss -> length ss = 32%nat;
  dh_length a b : length (dh a b) = 32%nat;
  dh_public_length a : length (dh_public a) = 32%nat;
  dh_agree a b : dh a (dh_public b) = dh b (dh_public a)
}.

Definition MLKEM_PK_LEN : nat := Z.to_nat 1184.
Definition MLKEM_CT_LEN : nat := Z.to_nat 1088.
Definition X25519_LEN : nat := 32.
Definition CLIENT_SHARE_LEN : nat := Z.to_nat (1184 + 32).
Definition SERVER_SHARE_LEN : nat := Z.to_nat (1088 + 32).
Definition SHARED_SECRET_LEN : nat := 32 + 32.

Inductive KxError := InvalidKeyShare.

(** [out = vec![0; n]; out[..k].copy_from_slice(a); out[k..].copy_from_slice(b)]. *)
Definition two_parts (n k : nat) (a b : bytes) : res KxError bytes :=
  if (length a =? k)%nat && (length b =? n - k)%nat && (k <=? n)%nat then Ok (a ++ b) else Panic.

(** [l.split_at(k)]. *)
Definition split_bytes (l : bytes) (k : nat) : res KxError (bytes * bytes) :=
  if (k <=? length l)%nat then Ok (take k l, drop k l) else Panic.

(** [Array::clone_from_slice] of a type of [n] bytes. *)
Definition exact_len (n : nat) (l : bytes) : res KxError bytes := if (length l =? n)%nat then Ok l else Panic.

Section Hybrid.
Context `{HybridCrypto}.

Record ActiveHybridKex := { hk_mlkem_sk : DecapsulationKey; hk_x25519_sk : bytes; hk_share : bytes }.

Record CompletedKeyExchange := { ck_pub_key : bytes; ck_secret : bytes }.

Definition parse_x25519_pk (l : bytes) : res KxError bytes :=
  if negb (length l =? X25519_LEN)%nat then Err InvalidKeyShare else Ok l.

Definition concat_shared_secret (mlkem_ss x25519_ss : bytes) : res KxError bytes :=
  if negb (length mlkem_ss =? 32)%nat || negb (length x25519_ss =? 32)%nat then Err InvalidKeyShare
  else two_parts SHARED_SECRET_LEN 32 mlkem_ss x25519_ss.

(** [start], with the generated secrets. *)
Definition hybrid_start (mlkem_sk : DecapsulationKey) (x25519_sk : bytes) : res KxError ActiveHybridKex :=
  share ← two_parts CLIENT_SHARE_LEN MLKEM_PK_LEN (mlkem_public mlkem_sk) (dh_public x25519_sk);
  Ok {| hk_mlkem_sk := mlkem_sk; hk_x25519_sk := x25519_sk; hk_share := share |}.

Definition server_start_and_complete (rand x25519_sk client_share : bytes) : res KxError CompletedKeyExchange :=
  if negb (length client_share =? CLIENT_SHARE_LEN)%nat then Err InvalidKeyShare else
  p ← split_bytes client_share MLKEM_PK_LEN;
  mlkem_pk ← exact_len MLKEM_PK_LEN p.1;
  match encapsulate mlkem_pk rand with
  | None => Err InvalidKeyShare
  | Some (mlkem_ct, mlkem_ss) =>
    x25519_client_pk ← parse_x25519_pk p.2;
    let x25519_ss := dh x25519_sk x25519_client_pk in
    server_share ← two_parts SERVER_SHARE_LEN MLKEM_CT_LEN mlkem_ct (dh_public x25519_sk);
    secret ← concat_shared_secret mlkem_ss x25519_ss;
    Ok {| ck_pub_key := server_share; ck_secret := secret |}
  end.

Definition client_complete (mlkem_sk : DecapsulationKey) (x25519_sk server_share : bytes) : res KxError bytes :=
  if negb (length server_share =? SERVER_SHARE_LEN)%nat then Err InvalidKeyShare else
  p ← split_bytes server_share MLKEM_CT_LEN;
  mlkem_ct ← exact_len MLKEM_CT_LEN p.1;
  match decapsulate mlkem_sk mlkem_ct with
  | None => Err InvalidKeyShare
  | Some mlkem_ss =>
    x25519_server_pk ← parse_x25519_pk p.2;
    concat_shared_secret mlkem_ss (dh x25519_sk x25519_server_pk)
  end.

(** ** Lemmas *)

Lemma two_parts_ok n k a b : length a = k -> length b = (n - k)%nat -> (k <= n)%nat -> two_parts n k a b = Ok (a ++ b).
Proof. intros Ha Hb Hk. unfold two_parts. rewrite Ha, Hb, !Nat.eqb_refl. by rewrite (proj2 (Nat.leb_le _ _)). Qed.

Lemma split_bytes_ok l k : (k <= length l)%nat -> split_bytes l k = Ok (take k l, drop k l).
Proof. intros Hk. unfold split_bytes. by rewrite (proj2 (Nat.leb_le _ _)). Qed.

Lemma exact_len_ok n l : length l = n -> exact_len n l = Ok l.
Proof. intros <-. unfold exact_len. by rewrite Nat.eqb_refl. Qed.

Lemma x25519_pk_ok l : length l = 32%nat -> parse_x25519_pk l = Ok l.
Proof. intros Hl. unfold parse_x25519_pk. by rewrite Hl. Qed.

Lemma secret_ok a b : length a = 32%nat -> length b = 32%nat -> concat_shared_secret a b = Ok (a ++ b).
Proof.
  intros Ha Hb. unfold concat_shared_secret. rewrite Ha, Hb. cbn [Nat.eqb negb orb].
  apply two_parts_ok; [done|by rewrite Hb|]. unfold SHARED_SECRET_LEN. lia.
Qed.

(** A share of the right length splits into its two parts. *)
Lemma share_parts n k l :
  length l = n -> n = (k + 32)%nat -> split_bytes l k = Ok (take k l, drop k l)
  /\ exact_len k (take k l) = Ok (take k l) /\ parse_x25519_pk (drop k l) = Ok (drop k l).
Proof.
  intros Hl Hn. split_and!; [apply split_bytes_ok; lia|apply exact_len_ok; rewrite length_take; lia|].
  apply x25519_pk_ok. rewrite length_drop. lia.
Qed.

Lemma share_app (a b : bytes) k : length a = k -> take k (a ++ b) = a /\ drop k (a ++ b) = b.
Proof. intros <-. by rewrite take_app_length, drop_app_length. Qed.
End Hybrid.

(** ** Properties *)

(** C35: both sides agree. For every choice of secrets the client's share makes the server
    complete with a share of its own, and that share makes the client arrive at the
    server's secret, 64 bytes, the ML-KEM part first. *)
Theorem hybrid_sides_agree `{HybridCrypto} (mlkem_sk : DecapsulationKey) (client_sk server_sk rand : bytes) :
  exists active done mlkem_ss,
    hybrid_start mlkem_sk client_sk = Ok active /\ length (hk_share active) = CLIENT_SHARE_LEN
    /\ server_start_and_complete rand server_sk (hk_share active) = Ok done
    /\ length (ck_pub_key done) = SERVER_SHARE_LEN
    /\ client_complete (hk_mlkem_sk active) (hk_x25519_sk active) (ck_pub_key done) = Ok (ck_secret done)
    /\ ck_secret done = mlkem_ss ++ dh client_sk (dh_public server_sk) /\ length (ck_secret done) = SHARED_SECRET_LEN.
Proof.
  destruct (encapsulate_public mlkem_sk rand) as (ct & ss & He & Hd).
  destruct (encapsulate_length _ _ _ _ He) as [Hct Hss].
  pose proof (mlkem_public_length mlkem_sk) as Hpk. pose proof dh_public_length as Hdp. pose proof dh_length as Hdh.
  unfold hybrid_start. rewrite two_parts_ok by (rewrite ?Hpk, ?Hdp; reflexivity || (unfold MLKEM_PK_LEN, CLIENT_SHARE_LEN; lia)).
  cbn [mbind res_bind]. eexists _, {| ck_pub_key := ct ++ dh_public server_sk; ck_secret := ss ++ dh client_sk (dh_public server_sk) |}, ss.
  split; [done|]. cbn [hk_share hk_mlkem_sk hk_x25519_sk ck_pub_key ck_secret].
  assert (Hl : length (mlkem_public mlkem_sk ++ dh_public client_sk) = CLIENT_SHARE_LEN)
    by (rewrite length_app, Hpk, Hdp; reflexivity).
  assert (Hl' : length (ct ++ dh_public server_sk) = SERVER_SHARE_LEN) by (rewrite length_app, Hct, Hdp; reflexivity).
  destruct (share_app (mlkem_public mlkem_sk) (dh_public client_sk) MLKEM_PK_LEN Hpk) as [T1 T2].
  destruct (share_app ct (dh_public server_sk) MLKEM_CT_LEN Hct) as [T3 T4].
  split_and!; [done| |done| |done|by rewrite length_app, Hss, Hdh].
  - unfold server_start_and_complete. rewrite Hl, Nat.eqb_refl. cbn [negb].
    destruct (share_parts CLIENT_SHARE_LEN MLKEM_PK_LEN _ Hl ltac:(reflexivity)) as (E1 & E2 & E3). rewrite E1.
    cbn [mbind res_bind fst snd]. rewrite E2. cbn [mbind res_bind]. rewrite T1, He, E3, T2. cbn [mbind res_bind].
    rewrite two_parts_ok by (rewrite ?Hct, ?Hdp; reflexivity || (unfold MLKEM_CT_LEN, SERVER_SHARE_LEN; lia)).
    cbn [mbind res_bind]. rewrite secret_ok by done. cbn [mbind res_bind]. by rewrite dh_agree.
  - unfold client_complete. rewrite Hl', Nat.eqb_refl. cbn [negb].
    destruct (share_parts SERVER_SHARE_LEN MLKEM_CT_LEN _ Hl' ltac:(reflexivity)) as (E1 & E2 & E3). rewrite E1.
    cbn [mbind res_bind fst snd]. rewrite E2. cbn [mbind res_bind]. rewrite T3, Hd, E3, T4. cbn [mbind res_bind].
    by rewrite secret_ok.
Qed.

(** no share makes either side panic, and a share of another length is refused. *)
Theorem hybrid_shares_checked `{HybridCrypto} (mlkem_sk : DecapsulationKey) (sk rand share : bytes) :
  server_start_and_complete rand sk share <> Panic /\ client_complete mlkem_sk sk share <> Panic
  /\ (length share <> CLIENT_SHARE_LEN -> server_start_and_complete rand sk share = Err InvalidKeyShare)
  /\ (length share <> SERVER_SHARE_LEN -> client_complete mlkem_sk sk share = Err InvalidKeyShare).
Proof.
  unfold server_start_and_complete, client_complete. split_and!.
  - destruct (Nat.eqb_spec (length share) CLIENT_SHARE_LEN) as [Hl|]; cbn [negb]; [|done].
    destruct (share_parts CLIENT_SHARE_LEN MLKEM_PK_LEN _ Hl ltac:(reflexivity)) as (E1 & E2 & E3). rewrite E1.
    cbn [mbind res_bind fst snd]. rewrite E2. cbn [mbind res_bind].
    destruct (encapsulate _ rand) as [[ct ss]|] eqn:He; [|done]. destruct (encapsulate_length _ _ _ _ He) as [Hct Hss].
    rewrite E3. cbn [mbind res_bind].
    rewrite two_parts_ok by (rewrite ?Hct, ?dh_public_length; reflexivity || (unfold MLKEM_CT_LEN, SERVER_SHARE_LEN; lia)).
    cbn [mbind res_bind]. by rewrite secret_ok by (done || apply dh_length).
  - destruct (Nat.eqb_spec (length share) SERVER_SHARE_LEN) as [Hl|]; cbn [negb]; [|done].
    destruct (share_parts SERVER_SHARE_LEN MLKEM_CT_LEN _ Hl ltac:(reflexivity)) as (E1 & E2 & E3). rewrite E1.
    cbn [mbind res_bind fst snd]. rewrite E2. cbn [mbind res_bind].
    destruct (decapsulate mlkem_sk _) as [ss|] eqn:Hd; [|done]. apply decapsulate_length in Hd.
    rewrite E3. cbn [mbind res_bind]. by rewrite secret_ok by (done || apply dh_length).
  - intros Hl. by rewrite (proj2 (Nat.eqb_neq _ _) Hl).
  - intros Hl. by rewrite (proj2 (Nat.eqb_neq _ _) Hl).
Qed.

(** ** Witnesses *)

Definition pad (n : nat) (l : bytes) : bytes := resize n 0 l.
Definition toy_dh (a b : bytes) : bytes := zip_with Z.add (pad 32 a) (pad 32 b).

Lemma pad_length n l : length (pad n l) = n.
Proof. apply length_resize. Qed.

Lemma toy_encapsulate (pk r ct ss : bytes) :
  Some (pad MLKEM_CT_LEN r, pad 32 pk) = Some (ct, ss) -> length ct = MLKEM_CT_LEN /\ length ss = 32%nat.
Proof. intros [= <- <-]. by rewrite !pad_length. Qed.

Lemma toy_public (sk r : bytes) : exists ct ss,
  Some (pad MLKEM_CT_LEN r, pad 32 (pad MLKEM_PK_LEN sk)) = Some (ct, ss) /\ Some (pad 32 (pad MLKEM_PK_LEN sk)) = Some ss.
Proof. by eexists _, _. Qed.

Lemma toy_decapsulate (sk ct ss : bytes) : Some (pad 32 (pad MLKEM_PK_LEN sk)) = Some ss -> length ss = 32%nat.
Proof. intros [= <-]. apply pad_length. Qed.

Lemma toy_dh_length a b : length (toy_dh a b) = 32%nat.
Proof. unfold toy_dh. rewrite length_zip_with, !pad_length. done. Qed.

Lemma toy_dh_agree a b : toy_dh a (pad 32 b) = toy_dh b (pad 32 a).
Proof.
  unfold toy_dh, pad. rewrite !resize_idemp. generalize (resize 32 0 a) (resize 32 0 b). intros l.
  induction l as [|x l IH]; intros [|y k]; cbn; [done..|]. by rewrite IH, Z.add_comm.
Qed.

#[export] Instance toy_hybrid : HybridCrypto := {
  DecapsulationKey := bytes;
  mlkem_public := pad MLKEM_PK_LEN;
  encapsulate := fun pk r => Some (pad MLKEM_CT_LEN r, pad 32 pk);
  decapsulate := fun sk _ => Some (pad 32 (pad MLKEM_PK_LEN sk));
  dh := toy_dh;
  dh_public := pad 32;
  mlkem_public_length := pad_length MLKEM_PK_LEN;
  encapsulate_length := toy_encapsulate;
  encapsulate_public := toy_public;
  decapsulate_length := toy_decapsulate;
  dh_length := toy_dh_length;
  dh_public_length := pad_length 32;
  dh_agree := toy_dh_agree
}.

Lemma hybrid_sides_agree_witness :
  exists active done, @hybrid_start toy_hybrid [1; 2] [3] = Ok active
    /\ server_start_and_complete [4] [5] (hk_share active) = Ok done
    /\ client_complete (hk_mlkem_sk active) (hk_x25519_sk active) (ck_pub_key done) = Ok (ck_secret done)
    /\ length (ck_secret done) = 64%nat.
Proof.
  destruct (@hybrid_sides_agree toy_hybrid [1; 2] [3] [5] [4]) as (active & done & ss & H1 & _ & H2 & _ & H3 & _ & H4).
  exists active, done. split; [exact H1|]. split; [exact H2|]. split; [exact H3|exact H4].
Defined.
