(* ===== verification/Config.v ===== *)
(** * Server configuration
    Models crates/skadi-config/src/lib.rs: the sections of the configuration file
    with their defaults, the checks of [Config::validate], and the functions that
    build the configuration of each part of the server; the certificate template of
    crates/skadi-transport/src/reality/impersonate.rs. TOML and serde, base64, hex
    and the file system are parameters. *)

From Stdlib Require Import Ascii String.
From stdpp Require Import base list list_numbers numbers strings pretty gmap.
From S2P Require Import Prelude Core Io NetText Tls.
From S2P Require Import Socks5 VlessConfig Store AuthRate.
From S2P Require Import Connect Relay Xhttp External.

(** ** The file's sections *)

Record MetricsConfig := { mc_enabled : bool; mc_listen : string }.

Definition default_metrics_listen : string := "127.0.0.1:9090".
Definition metrics_config_default : MetricsConfig :=
  {| mc_enabled := false; mc_listen := default_metrics_listen |}.

Record ApiTlsConfig := { at_enabled : bool; at_cert : option string; at_key : option string }.

Record ApiConfig := {
  ac_enabled : bool;
  ac_listen : string;
  ac_token : option SecretString;
  ac_tls : ApiTlsConfig;
  ac_rate_limit_per_sec : option Z;
  ac_audit_log : bool
}.

Definition default_api_listen : string := "127.0.0.1:10085".
Definition api_config_default : ApiConfig :=
  {| ac_enabled := false; ac_listen := default_api_listen; ac_token := None;
     ac_tls := {| at_enabled := false; at_cert := None; at_key := None |};
     ac_rate_limit_per_sec := None; ac_audit_log := true |}.

Record ListenAddrs := { addrs : list string }.

Definition listen_single (addr : string) : ListenAddrs := {| addrs := [addr] |}.
Definition listen_default : ListenAddrs := listen_single "127.0.0.1:0".

(** What serde hands over: a string or an array of strings. *)
Inductive listen_raw := One (addr : string) | Many (addrs : list string).

Definition listen_deserialize (raw : listen_raw) : res string ListenAddrs :=
  match raw with
  | One addr => Ok (listen_single addr)
  | Many [] => Err "server.listen array must not be empty"
  | Many addrs => Ok {| addrs := addrs |}
  end.

Definition listen_display (l : ListenAddrs) : string := String.concat ", " (addrs l).

Record ServerTimeoutsConfig := {
  connect_timeout_secs : Z;
  idle_timeout_secs : option Z;
  max_session_lifetime_secs : option Z
}.

Definition default_connect_timeout_secs : Z := 10.
Definition timeouts_default : ServerTimeoutsConfig :=
  {| connect_timeout_secs := default_connect_timeout_secs; idle_timeout_secs := None;
     max_session_lifetime_secs := None |}.

Definition auth_rate_limit_default : AuthRateLimitConfig :=
  {| arl_enabled := true; arl_max_failures := Some 10; arl_window_secs := 600; arl_ban_base_secs := 60;
     arl_ban_max_secs := 3600 |}.

Record ServerConfig := {
  sv_listen : ListenAddrs;
  sv_timeouts : ServerTimeoutsConfig;
  sv_max_connections : option Z;
  sv_auth_rate_limit : AuthRateLimitConfig
}.

Definition server_with_listen (l : ListenAddrs) : ServerConfig :=
  {| sv_listen := l; sv_timeouts := timeouts_default; sv_max_connections := None;
     sv_auth_rate_limit := auth_rate_limit_default |}.
Definition server_config_default : ServerConfig := server_with_listen listen_default.

Definition default_tls_kex_mode : string := "classic".

Record OutboundTlsConfig := {
  ot_enabled : bool;
  ot_ca_file : option string;
  ot_cert : option string;
  ot_key : option string;
  ot_kex_mode : string
}.

Definition outbound_tls_default : OutboundTlsConfig :=
  {| ot_enabled := false; ot_ca_file := None; ot_cert := None; ot_key := None; ot_kex_mode := default_tls_kex_mode |}.

Record OutboundConfig := { ob_tls : OutboundTlsConfig; ob_allow_private : bool }.

Record XhttpFileConfig := {
  xf_enabled : bool;
  xf_path : string;
  xf_host : option string;
  xf_mode : string;
  xf_no_sse_header : bool;
  xf_x_padding_bytes : option (Z * Z)
}.

Definition xhttp_file_default : XhttpFileConfig :=
  {| xf_enabled := false; xf_path := "/xhttp"; xf_host := None; xf_mode := "auto"; xf_no_sse_header := false;
     xf_x_padding_bytes := None |}.

Record AwgPeerFileConfig := {
  pf_public_key : string;
  pf_allowed_ips : list string;
  pf_preshared_key : option string;
  pf_endpoint : option string;
  pf_persistent_keepalive : option Z
}.

Record AwgNatFileConfig := { nf_enabled : bool; nf_egress_interface : option string; nf_subnet : string }.

(** [derive(Default)]: the subnet is empty here and "10.8.0.0/24" only when serde
    fills it in. *)
Definition awg_nat_default : AwgNatFileConfig :=
  {| nf_enabled := false; nf_egress_interface := None; nf_subnet := EmptyString |}.

Record AwgFileConfig := {
  af_enabled : bool;
  af_listen : string;
  af_interface : string;
  af_private_key : option string;
  af_address : string;
  af_mtu : option Z;
  af_jc : Z; af_jmin : Z; af_jmax : Z; af_s1 : Z; af_s2 : Z; af_s3 : Z; af_s4 : Z;
  af_h1 : string; af_h2 : string; af_h3 : string; af_h4 : string;
  af_peers : list AwgPeerFileConfig;
  af_nat : AwgNatFileConfig
}.

Definition awg_file_default : AwgFileConfig :=
  {| af_enabled := false; af_listen := "0.0.0.0:51820"; af_interface := "skadiwg0"; af_private_key := None;
     af_address := "10.8.0.1/24"; af_mtu := Some 1420; af_jc := 8; af_jmin := 64; af_jmax := 1024;
     af_s1 := 32; af_s2 := 32; af_s3 := 16; af_s4 := 16; af_h1 := "1-10000000"; af_h2 := "10000001-20000000";
     af_h3 := "20000001-30000000"; af_h4 := "30000001-40000000"; af_peers := []; af_nat := awg_nat_default |}.

Record Hysteria2FileConfig := {
  hf_enabled : bool;
  hf_listen : string;
  hf_password : option string;
  hf_cert : option string;
  hf_key : option string;
  hf_masquerade_url : option string
}.

Definition hysteria2_file_default : Hysteria2FileConfig :=
  {| hf_enabled := false; hf_listen := ":443"; hf_password := None; hf_cert := None; hf_key := None;
     hf_masquerade_url := None |}.

Record TuicFileConfig := {
  tf_enabled : bool;
  tf_listen : string;
  tf_uuid : option string;
  tf_password : option string;
  tf_certificate : option string;
  tf_private_key : option string;
  tf_congestion_control : string;
  tf_alpn : list string
}.

Definition tuic_file_default : TuicFileConfig :=
  {| tf_enabled := false; tf_listen := "0.0.0.0:8443"; tf_uuid := None; tf_password := None;
     tf_certificate := None; tf_private_key := None; tf_congestion_control := "bbr"; tf_alpn := ["h3"] |}.

Record TlsSniCertConfig := { se_server_names : list string; se_cert : string; se_key : string }.

Record TlsConfig := {
  tl_enabled : bool;
  tl_cert : option string;
  tl_key : option string;
  tl_alpn : list string;
  tl_certificates : list TlsSniCertConfig;
  tl_kex_mode : string
}.

Definition tls_config_default : TlsConfig :=
  {| tl_enabled := false; tl_cert := None; tl_key := None; tl_alpn := []; tl_certificates := [];
     tl_kex_mode := default_tls_kex_mode |}.

Record RealityConfig := {
  rl_enabled : bool;
  rl_dest : option string;
  rl_server_names : list string;
  rl_private_key : option string;
  rl_short_ids : list string;
  rl_impersonate_cert : option string;
  rl_fetch_impersonate_cert : bool;
  rl_kex_mode : string
}.

Definition reality_config_default : RealityConfig :=
  {| rl_enabled := false; rl_dest := None; rl_server_names := []; rl_private_key := None; rl_short_ids := [];
     rl_impersonate_cert := None; rl_fetch_impersonate_cert := true; rl_kex_mode := default_tls_kex_mode |}.

Record TransportConfig := {
  tr_tls : TlsConfig;
  tr_reality : RealityConfig;
  tr_xhttp : XhttpFileConfig;
  tr_awg : AwgFileConfig;
  tr_hysteria2 : Hysteria2FileConfig;
  tr_tuic : TuicFileConfig
}.

Record Config := {
  c_server : ServerConfig;
  c_protocol : ProtocolConfig;
  c_transport : TransportConfig;
  c_api : ApiConfig;
  c_metrics : MetricsConfig;
  c_outbound : OutboundConfig
}.

(** ** Helpers *)

(** [if c { bail!(msg) }]. *)
Definition bail_if (c : bool) (msg : string) : res anyhow unit :=
  if c then Err (bail msg) else Ok tt.

(** [opt.ok_or_else(|| anyhow!(msg))]. *)
Definition ok_or {A} (o : option A) (msg : string) : res anyhow A :=
  match o with Some a => Ok a | None => Err (bail msg) end.

(** [opt.unwrap()]. *)
Definition unwrap {A} (o : option A) : res anyhow A :=
  match o with Some a => Ok a | None => Panic end.

Definition blank (s : string) : bool := bool_decide (trim s = EmptyString).

(** [opt.filter(|s| !s.trim().is_empty())]. *)
Definition nonblank (o : option string) : option string :=
  match o with Some s => if blank s then None else Some s | None => None end.

(** [opt.is_some_and(|n| n == 0)]. *)
Definition is_zero (o : option Z) : bool := match o with Some n => n =? 0 | None => false end.

Definition is_some {A} (o : option A) : bool := match o with Some _ => true | None => false end.

(** [s.parse::<SocketAddr>().with_context(..)]. *)
Definition parse_addr (ctx s : string) : res anyhow SocketAddr :=
  match parse_socket_addr s with
  | Some a => Ok a
  | None => Err (Anyhow [ctx; "invalid socket address syntax"])
  end.

Definition char_text (c : Z) : string :=
  string_of_bytes (if c <? 128 then [c] else [192 + c / 64; 128 + c mod 64]).

Definition uuid_error_display (e : UuidParseError) : string :=
  match e with
  | BadLength n => "UUID must contain 32 hex digits, got " +:+ fmt_dec n
  | BadHex c => "invalid hex character: " +:+ char_text c
  end.

Definition parse_uuid (ctx s : string) : res anyhow Uuid :=
  map_err (fun e => Anyhow [ctx; uuid_error_display e]) (uuid_parse s).

Definition is_loopback (addr : SocketAddr) : bool :=
  match sock_ip addr with
  | V4 v4 => o0 v4 =? 127
  | V6 v6 => ipv6_is_loopback v6
  end.

Definition parse_tls_kex_mode (value field : string) : res anyhow TlsKexMode :=
  map_err (add_context ("invalid " +:+ field)) (kex_parse value).

(** ** Addresses to listen on *)

Fixpoint check_distinct (seen : list SocketAddr) (l : list string) : res anyhow unit :=
  match l with
  | [] => Ok tt
  | addr_str :: l =>
    addr ← parse_addr ("invalid server.listen: " +:+ addr_str) addr_str;
    _ ← bail_if (bool_decide (addr ∈ seen)) ("duplicate server.listen address: " +:+ sock_display addr);
    check_distinct (addr :: seen) l
  end.

Definition listen_validate (self : ListenAddrs) : res anyhow unit :=
  _ ← bail_if (length (addrs self) =? 0)%nat "server.listen must specify at least one address";
  check_distinct [] (addrs self).

Definition socket_addrs (self : ListenAddrs) : res anyhow (list SocketAddr) :=
  collect (fun s => parse_addr ("invalid server.listen: " +:+ s) s) (addrs self).

(** ** What is asked of the outside *)

(** The file system, the decoders and the crates of the external cores; a [string]
    on the left is an error's text. *)
Record ConfigHost := {
  is_file : string -> bool;
  open_file : string -> option string;
  read_file : string -> string + bytes;
  read_to_string : string -> string + string;
  pem_slice : bytes -> string + list bytes;
  base64_decode : string -> string + bytes;
  hex_decode : string -> string + bytes;
  wg_public_of : string -> string;
  wg : WgCrates
}.

(** The extension of a path's last component. *)
Definition path_extension (path : string) : option string :=
  match List.filter (fun c => negb (bool_decide (c = EmptyString \/ c = "."%string))) (str_split "/"%char path) with
  | [] => None
  | c :: cs =>
    let name := List.last cs c in
    if bool_decide (name = ".."%string) then None
    else match rsplit_once "."%char name with
         | Some (EmptyString, _) | None => None
         | Some (_, ext) => Some ext
         end
  end.

Section Validate.
Context (host : ConfigHost).

Definition ensure_readable_file (path field : string) : res anyhow unit :=
  _ ← bail_if (negb (is_file host path)) (field +:+ ": file not found: " +:+ path);
  match open_file host path with
  | Some e => Err (Anyhow [(field +:+ ": cannot read " +:+ path); e])
  | None => Ok tt
  end.

Definition ensure_readable_opt (path : option string) (field : string) : res anyhow unit :=
  match path with Some path => ensure_readable_file path field | None => Ok tt end.

Definition decode_base64_32 (value field : string) : res anyhow bytes :=
  match base64_decode host (trim value) with
  | inl e => Err (Anyhow [(field +:+ ": invalid base64"); e])
  | inr bytes =>
    _ ← bail_if (negb (length bytes =? 32)%nat) (field +:+ ": must decode to 32 bytes, got " +:+ fmt_dec (length bytes));
    Ok bytes
  end.

Definition load_impersonate_cert_file (path : string) : res anyhow bytes :=
  match read_file host path with
  | inl e => Err (Anyhow [("cannot read impersonate cert file " +:+ path); e])
  | inr data =>
    if bool_decide (path_extension path = Some "pem"%string)
       || bool_decide (take 10 data = bytes_of_string "-----BEGIN")
    then match pem_slice host data with
         | inl e => Err (Anyhow ["invalid PEM in impersonate cert file"; e])
         | inr [] => Err (bail "impersonate cert PEM file contains no certificates")
         | inr (first :: _) => Ok first
         end
    else
      _ ← bail_if (length data =? 0)%nat "impersonate cert file is empty";
      Ok data
  end.

(** ** Durations and protocols *)

Definition positive_secs (o : option Z) : option Z :=
  match o with Some n => if 0 <? n then Some (from_secs n) else None | None => None end.

Definition connect_timeout (self : Config) : Z := from_secs (connect_timeout_secs (sv_timeouts (c_server self))).
Definition idle_timeout (self : Config) : option Z := positive_secs (idle_timeout_secs (sv_timeouts (c_server self))).
Definition max_session_lifetime (self : Config) : option Z :=
  positive_secs (max_session_lifetime_secs (sv_timeouts (c_server self))).

Definition max_connections (self : Config) : option Z :=
  match sv_max_connections (c_server self) with Some n => if 0 <? n then Some n else None | None => None end.

Definition enabled_protocols (self : Config) : EnabledProtocols :=
  {| ep_socks5 := s5_enabled (pc_socks5 (c_protocol self)); ep_vless := vc_enabled (pc_vless (c_protocol self)) |}.

Definition enabled_protocol_count (self : Config) : Z := ep_count (enabled_protocols self).

Definition allow_private_outbound (self : Config) : bool := ob_allow_private (c_outbound self).

(** ** Metrics, API and outbound TLS *)

Definition validate_metrics (self : Config) : res anyhow unit :=
  let listen := mc_listen (c_metrics self) in
  addr ← parse_addr ("invalid metrics.listen: " +:+ listen) listen;
  bail_if (negb (is_loopback addr)) ("metrics.listen must bind to loopback (127.0.0.1 or ::1), got " +:+ listen).

Definition validate_api (self : Config) : res anyhow unit :=
  let api := c_api self in
  addr ← parse_addr ("invalid api.listen: " +:+ ac_listen api) (ac_listen api);
  _ ← bail_if (negb (is_loopback addr)) ("api.listen must bind to loopback (127.0.0.1 or ::1), got " +:+ ac_listen api);
  token ← ok_or (ac_token api) "api.token is required when api.enabled = true";
  _ ← bail_if (blank (secret_inner token)) "api.token must not be empty";
  _ ← (if at_enabled (ac_tls api) then
         cert ← ok_or (at_cert (ac_tls api)) "api.tls.cert is required when api.tls.enabled";
         key ← ok_or (at_key (ac_tls api)) "api.tls.key is required when api.tls.enabled";
         _ ← ensure_readable_file cert "api.tls.cert";
         ensure_readable_file key "api.tls.key"
       else bail_if (is_some (at_cert (ac_tls api)) || is_some (at_key (ac_tls api)))
              "api.tls.cert/key set but api.tls.enabled = false");
  bail_if (is_zero (ac_rate_limit_per_sec api)) "api.rate_limit_per_sec must be > 0 when set".

Definition validate_outbound_tls (self : Config) : res anyhow unit :=
  let tls := ob_tls (c_outbound self) in
  if negb (ot_enabled tls) then Ok tt else
  _ ← match ot_cert tls, ot_key tls with
      | Some cert, Some key =>
        _ ← ensure_readable_file cert "outbound.tls.cert";
        ensure_readable_file key "outbound.tls.key"
      | None, None => Ok tt
      | _, _ => Err (bail "outbound.tls.cert and outbound.tls.key must both be set")
      end;
  _ ← ensure_readable_opt (ot_ca_file tls) "outbound.tls.ca_file";
  _ ← parse_tls_kex_mode (ot_kex_mode tls) "outbound.tls.kex_mode";
  Ok tt.

Record TlsClientConfig := {
  cc_ca_file : option string;
  cc_client_cert : option string;
  cc_client_key : option string;
  cc_kex_mode : TlsKexMode;
  cc_alpn_http1_only : bool
}.

(** [.expect("outbound TLS KEX mode validated in validate()")]. *)
Definition outbound_tls_client_config (self : Config) : res anyhow TlsClientConfig :=
  let tls := ob_tls (c_outbound self) in
  match parse_tls_kex_mode (ot_kex_mode tls) "outbound.tls.kex_mode" with
  | Ok kex => Ok {| cc_ca_file := ot_ca_file tls; cc_client_cert := ot_cert tls; cc_client_key := ot_key tls;
                    cc_kex_mode := kex; cc_alpn_http1_only := false |}
  | _ => Panic
  end.

(** [tls_with_policy] is [OutboundTcpTransport::tls_with_policy]. *)
Definition outbound_tcp_transport (tls_with_policy : Z -> TlsClientConfig -> bool -> res anyhow OutboundTcpTransport)
    (self : Config) : res anyhow OutboundTcpTransport :=
  let timeout := connect_timeout self in
  let allow_private := allow_private_outbound self in
  if ot_enabled (ob_tls (c_outbound self)) then
    config ← outbound_tls_client_config self;
    tls_with_policy timeout config allow_private
  else Ok (plain_with_policy timeout allow_private).

(** ** TLS *)

Fixpoint check_names (idx : nat) (seen : gset string) (names : list string) : res anyhow (gset string) :=
  match names with
  | [] => Ok seen
  | name :: names =>
    let normalized := lowercase (trim name) in
    _ ← bail_if (bool_decide (normalized = EmptyString))
          ("transport.tls.certificates[" +:+ fmt_dec idx +:+ "]: empty server name");
    _ ← bail_if (bool_decide (normalized ∈ seen))
          ("transport.tls.certificates: duplicate server name: " +:+ name);
    check_names idx ({[normalized]} ∪ seen) names
  end.

Fixpoint check_certificates (idx : nat) (seen : gset string) (entries : list TlsSniCertConfig) : res anyhow unit :=
  match entries with
  | [] => Ok tt
  | entry :: entries =>
    let field := "transport.tls.certificates[" +:+ fmt_dec idx +:+ "]" in
    _ ← bail_if (length (se_server_names entry) =? 0)%nat (field +:+ ": server_names must not be empty");
    _ ← ensure_readable_file (se_cert entry) (field +:+ ".cert");
    _ ← ensure_readable_file (se_key entry) (field +:+ ".key");
    seen ← check_names idx seen (se_server_names entry);
    check_certificates (S idx) seen entries
  end.

Definition validate_tls (self : Config) : res anyhow unit :=
  let tls := tr_tls (c_transport self) in
  let has_default := is_some (tl_cert tls) || is_some (tl_key tls) in
  _ ← bail_if (has_default && (negb (is_some (tl_cert tls)) || negb (is_some (tl_key tls))))
        "transport.tls.cert and transport.tls.key must both be set";
  _ ← bail_if (negb (is_some (tl_cert tls)) && (length (tl_certificates tls) =? 0)%nat)
        ("transport.tls.enabled but no certificates configured: "
         +:+ "set cert/key or [[transport.tls.certificates]]");
  _ ← ensure_readable_opt (tl_cert tls) "transport.tls.cert";
  _ ← ensure_readable_opt (tl_key tls) "transport.tls.key";
  _ ← parse_tls_kex_mode (tl_kex_mode tls) "transport.tls.kex_mode";
  check_certificates 0 ∅ (tl_certificates tls).

Definition tls_server_config (self : Config) : res anyhow TlsServerConfig :=
  let tls := tr_tls (c_transport self) in
  default ← match tl_cert tls, tl_key tls with
            | Some cert, Some key => Ok (Some {| cert_path := cert; key_path := key |})
            | None, None => Ok None
            | _, _ => Err (bail "transport.tls.cert and transport.tls.key must both be set")
            end;
  let sni_certs := map (fun entry => {| sc_server_names := se_server_names entry; sc_cert_path := se_cert entry;
                                        sc_key_path := se_key entry |}) (tl_certificates tls) in
  _ ← bail_if (negb (is_some default) && (length sni_certs =? 0)%nat) "no TLS certificates configured";
  kex_mode ← parse_tls_kex_mode (tl_kex_mode tls) "transport.tls.kex_mode";
  Ok {| tls_default := default; tls_sni_certs := sni_certs; tls_alpn := tl_alpn tls; tls_kex_mode := kex_mode |}.

(** ** REALITY *)

Record RealityServerConfig := {
  rs_private_key : bytes;
  rs_dest : string;
  rs_server_names : list string;
  rs_short_ids : list bytes;
  rs_impersonate_cert : option bytes;
  rs_connect_timeout : Z;
  rs_idle_timeout : option Z;
  rs_max_session_lifetime : option Z;
  rs_kex_mode : TlsKexMode
}.

Definition hex_bytes (ctx sid : string) : res anyhow bytes :=
  match hex_decode host sid with
  | inl e => Err (Anyhow [ctx; e])
  | inr bytes => Ok bytes
  end.

Fixpoint check_short_ids (idx : nat) (ids : list string) : res anyhow unit :=
  match ids with
  | [] => Ok tt
  | sid :: ids =>
    let field := "transport.reality.short_ids[" +:+ fmt_dec idx +:+ "]" in
    bytes ← hex_bytes (field +:+ ": invalid hex") sid;
    _ ← bail_if ((length bytes =? 0)%nat || (8 <? length bytes)%nat)
          (field +:+ ": must be 1..8 bytes, got " +:+ fmt_dec (length bytes));
    check_short_ids (S idx) ids
  end.

Definition validate_reality (self : Config) : res anyhow unit :=
  let reality := tr_reality (c_transport self) in
  dest ← ok_or (rl_dest reality) "transport.reality.dest is required";
  _ ← bail_if (blank dest) "transport.reality.dest must not be empty";
  _ ← bail_if (negb (is_some (split_once ":"%char dest))) "transport.reality.dest must be host:port";
  _ ← bail_if (length (rl_server_names reality) =? 0)%nat "transport.reality.server_names must not be empty";
  key_b64 ← ok_or (rl_private_key reality) "transport.reality.private_key is required";
  _ ← decode_base64_32 key_b64 "transport.reality.private_key";
  _ ← bail_if (length (rl_short_ids reality) =? 0)%nat "transport.reality.short_ids must not be empty";
  _ ← check_short_ids 0 (rl_short_ids reality);
  _ ← parse_tls_kex_mode (rl_kex_mode reality) "transport.reality.kex_mode";
  Ok tt.

Definition reality_server_config (self : Config) : res anyhow RealityServerConfig :=
  let reality := tr_reality (c_transport self) in
  key_b64 ← unwrap (rl_private_key reality);
  private_key ← decode_base64_32 key_b64 "transport.reality.private_key";
  short_ids ← collect (fun sid => hex_bytes ("invalid short_id hex: " +:+ sid) sid) (rl_short_ids reality);
  impersonate_cert ← match rl_impersonate_cert reality with
                     | Some path =>
                       cert ← map_err (add_context "transport.reality.impersonate_cert") (load_impersonate_cert_file path);
                       Ok (Some cert)
                     | None => Ok None
                     end;
  dest ← unwrap (rl_dest reality);
  kex_mode ← parse_tls_kex_mode (rl_kex_mode reality) "transport.reality.kex_mode";
  Ok {| rs_private_key := private_key; rs_dest := dest; rs_server_names := rl_server_names reality;
        rs_short_ids := short_ids; rs_impersonate_cert := impersonate_cert;
        rs_connect_timeout := connect_timeout self; rs_idle_timeout := idle_timeout self;
        rs_max_session_lifetime := max_session_lifetime self; rs_kex_mode := kex_mode |}.

(** ** XHTTP *)

Definition xhttp_config (self : Config) : res anyhow XhttpConfig :=
  let xhttp := tr_xhttp (c_transport self) in
  mode ← ok_or (mode_parse (xf_mode xhttp)) ("transport.xhttp.mode invalid: " +:+ xf_mode xhttp);
  padding ← match xf_x_padding_bytes xhttp with
            | Some (min, max) =>
              if min <=? max then Ok {| pad_min := min; pad_max := max |}
              else Err (bail ("transport.xhttp.x_padding_bytes: min (" +:+ fmt_dec (Z.to_nat min)
                              +:+ ") must be <= max (" +:+ fmt_dec (Z.to_nat max) +:+ ")"))
            | None => Ok padding_default
            end;
  Ok {| xc_path := xf_path xhttp; xc_host := xf_host xhttp; xc_mode := mode; xc_padding := padding;
        xc_no_sse_header := xf_no_sse_header xhttp |}.

Definition validate_xhttp (self : Config) : res anyhow unit :=
  let xhttp := tr_xhttp (c_transport self) in
  if negb (xf_enabled xhttp) then Ok tt else
  _ ← bail_if (blank (xf_path xhttp)) "transport.xhttp.path must not be empty when xhttp is enabled";
  _ ← bail_if (negb (is_some (mode_parse (xf_mode xhttp))))
        "transport.xhttp.mode must be auto, packet-up, stream-up, or stream-one";
  match xf_x_padding_bytes xhttp with
  | Some (min, max) => bail_if (max <? min) "transport.xhttp.x_padding_bytes: min must be <= max"
  | None => Ok tt
  end.

(** ** AmneziaWG *)

Definition starts_with (c : ascii) (s : string) : bool :=
  match s with String a _ => Ascii.eqb a c | EmptyString => false end.
Definition ends_with (c : ascii) (s : string) : bool := starts_with c (string_of_bytes (rev (bytes_of_string s))).

Definition awg_key_is_placeholder (key : string) : bool :=
  let t := trim key in
  starts_with "<"%char t && ends_with ">"%char t.

Definition awg_uses_placeholder_keys (runtime : AwgServerConfig) : bool :=
  awg_key_is_placeholder (as_private_key runtime)
  || existsb (fun p => awg_key_is_placeholder (ap_public_key p)) (as_peers runtime).

Definition awg_peer (peer : AwgPeerFileConfig) : res anyhow AwgPeerConfig :=
  _ ← bail_if (blank (pf_public_key peer)) "transport.awg.peers[].public_key must not be empty";
  _ ← bail_if (length (pf_allowed_ips peer) =? 0)%nat "transport.awg.peers[].allowed_ips must not be empty";
  Ok {| ap_public_key := pf_public_key peer; ap_allowed_ips := pf_allowed_ips peer;
        ap_preshared_key := pf_preshared_key peer; ap_endpoint := pf_endpoint peer;
        ap_persistent_keepalive := pf_persistent_keepalive peer |}.

Definition awg_server_config (self : Config) : res anyhow AwgServerConfig :=
  let awg := tr_awg (c_transport self) in
  listen ← parse_addr ("invalid transport.awg.listen: " +:+ af_listen awg) (af_listen awg);
  private_key ← ok_or (nonblank (af_private_key awg)) "transport.awg.private_key is required when awg is enabled";
  _ ← bail_if (blank (af_interface awg)) "transport.awg.interface must not be empty";
  _ ← bail_if (length (af_peers awg) =? 0)%nat
        "transport.awg.peers must contain at least one peer when awg is enabled";
  peers ← collect awg_peer (af_peers awg);
  Ok {| as_listen := listen; as_interface_name := af_interface awg; as_private_key := private_key;
        as_address := af_address awg; as_mtu := af_mtu awg;
        as_obfuscation := {| jc := af_jc awg; jmin := af_jmin awg; jmax := af_jmax awg; s1 := af_s1 awg;
                             s2 := af_s2 awg; s3 := af_s3 awg; s4 := af_s4 awg; h1 := af_h1 awg; h2 := af_h2 awg;
                             h3 := af_h3 awg; h4 := af_h4 awg |};
        as_peers := peers |}.

Definition validate_awg (self : Config) : res anyhow unit :=
  if negb (af_enabled (tr_awg (c_transport self))) then Ok tt else
  runtime ← awg_server_config self;
  if awg_uses_placeholder_keys runtime then Ok tt else
  _ ← map_err (fun e => bail ("transport.awg: " +:+ anyhow_to_string e)) (render_server_conf (wg host) runtime);
  Ok tt.

Record AwgNatConfig := { nat_enabled : bool; nat_egress_interface : option string; nat_subnet : string }.

Definition awg_nat_config (self : Config) : AwgNatConfig :=
  let nat := af_nat (tr_awg (c_transport self)) in
  {| nat_enabled := nf_enabled nat; nat_egress_interface := nf_egress_interface nat; nat_subnet := nf_subnet nat |}.

Definition public_key_from_private (private_key : string) : res anyhow string :=
  private ← key_result "invalid AWG private_key" (private_key_of (wg host) private_key);
  Ok (wg_public_of host private).

Definition export_awg_client_conf (self : Config) (peer_index : nat) (client_private_key endpoint : string)
    : res anyhow string :=
  server ← awg_server_config self;
  peer ← ok_or (as_peers server !! peer_index) ("peer index " +:+ fmt_dec peer_index +:+ " out of range");
  server_public ← public_key_from_private (as_private_key server);
  let client_address := match ap_allowed_ips peer with ip :: _ => ip | [] => "10.8.0.2/32" end%string in
  let export := {| ce_private_key := client_private_key; ce_address := client_address; ce_dns := Some "1.1.1.1"%string;
                   ce_allowed_ips := ["0.0.0.0/0"; "::/0"]%string;
                   ce_persistent_keepalive := match ap_persistent_keepalive peer with Some k => Some k | None => Some 25 end |} in
  map_err (fun e => bail (anyhow_to_string e))
    (render_client_conf (wg host) server_public endpoint export (as_obfuscation server) (as_mtu server)).

(** ** Hysteria2 and TUIC *)

(** A listen address that may be only [:port]. *)
Definition hysteria2_addr (listen : string) : res anyhow SocketAddr :=
  match parse_socket_addr listen with
  | Some a => Ok a
  | None => parse_addr ("invalid transport.hysteria2.listen: " +:+ listen) ("0.0.0.0" +:+ listen)
  end.

Definition hysteria2_server_config (self : Config) : res anyhow Hysteria2ServerConfig :=
  let hy2 := tr_hysteria2 (c_transport self) in
  listen ← hysteria2_addr (hf_listen hy2);
  password ← ok_or (nonblank (hf_password hy2)) "transport.hysteria2.password is required when hysteria2 is enabled";
  cert ← ok_or (nonblank (hf_cert hy2)) "transport.hysteria2.cert is required when hysteria2 is enabled";
  key ← ok_or (nonblank (hf_key hy2)) "transport.hysteria2.key is required when hysteria2 is enabled";
  Ok {| hs_listen := listen; hs_password := password; hs_cert_path := cert; hs_key_path := key;
        hs_masquerade_url := hf_masquerade_url hy2 |}.

(** The renderer never fails. *)
Definition validate_hysteria2 (self : Config) : res anyhow unit :=
  if negb (hf_enabled (tr_hysteria2 (c_transport self))) then Ok tt else
  _ ← hysteria2_server_config self;
  Ok tt.

Definition tuic_server_config (self : Config) : res anyhow TuicServerConfig :=
  let tuic := tr_tuic (c_transport self) in
  listen ← parse_addr ("invalid transport.tuic.listen: " +:+ tf_listen tuic) (tf_listen tuic);
  uuid ← ok_or (nonblank (tf_uuid tuic)) "transport.tuic.uuid is required when tuic is enabled";
  _ ← parse_uuid ("invalid transport.tuic.uuid: " +:+ uuid) uuid;
  password ← ok_or (nonblank (tf_password tuic)) "transport.tuic.password is required when tuic is enabled";
  cert ← ok_or (nonblank (tf_certificate tuic)) "transport.tuic.certificate is required when tuic is enabled";
  key ← ok_or (nonblank (tf_private_key tuic)) "transport.tuic.private_key is required when tuic is enabled";
  Ok {| ts_listen := listen; ts_uuid := uuid; ts_password := password; ts_cert_path := cert; ts_key_path := key;
        ts_congestion_control := tf_congestion_control tuic; ts_alpn := tf_alpn tuic |}.

Definition validate_tuic (self : Config) : res anyhow unit :=
  if negb (tf_enabled (tr_tuic (c_transport self))) then Ok tt else
  _ ← tuic_server_config self;
  Ok tt.

(** ** The whole configuration *)

Definition validate_server (self : Config) : res anyhow unit :=
  let server := c_server self in
  let limit := sv_auth_rate_limit server in
  _ ← listen_validate (sv_listen server);
  _ ← bail_if (connect_timeout_secs (sv_timeouts server) =? 0)
        "server.timeouts.connect_timeout_secs must be greater than 0";
  _ ← bail_if (is_zero (idle_timeout_secs (sv_timeouts server)))
        "server.timeouts.idle_timeout_secs must be greater than 0 when set";
  _ ← bail_if (is_zero (sv_max_connections server)) "server.max_connections must be greater than 0 when set";
  _ ← (if arl_enabled limit then
         _ ← bail_if (is_zero (arl_max_failures limit))
               "server.auth_rate_limit.max_failures must be greater than 0 when enabled";
         _ ← bail_if (arl_window_secs limit =? 0) "server.auth_rate_limit.window_secs must be greater than 0";
         _ ← bail_if (arl_ban_base_secs limit =? 0) "server.auth_rate_limit.ban_base_secs must be greater than 0";
         bail_if (arl_ban_max_secs limit =? 0) "server.auth_rate_limit.ban_max_secs must be greater than 0"
       else Ok tt);
  bail_if (is_zero (max_session_lifetime_secs (sv_timeouts server)))
    "server.timeouts.max_session_lifetime_secs must be greater than 0 when set".

Fixpoint check_user_ids (users : list VlessUser) : res anyhow unit :=
  match users with
  | [] => Ok tt
  | user :: users =>
    _ ← parse_uuid ("invalid VLESS user id: " +:+ vu_id user) (vu_id user);
    check_user_ids users
  end.

Definition validate_protocols (self : Config) : res anyhow unit :=
  let socks5 := pc_socks5 (c_protocol self) in
  let vless := pc_vless (c_protocol self) in
  let transport := c_transport self in
  _ ← bail_if (negb (s5_enabled socks5) && negb (vc_enabled vless) && negb (af_enabled (tr_awg transport))
               && negb (hf_enabled (tr_hysteria2 transport)) && negb (tf_enabled (tr_tuic transport)))
        ("at least one of protocol (socks5/vless) or transport (awg/hysteria2/tuic) must be enabled");
  _ ← bail_if (s5_enabled socks5 && bool_decide (s5_auth socks5 = UserPass) && (length (s5_users socks5) =? 0)%nat)
        "protocol.socks5.auth is user-pass but no users configured";
  if vc_enabled vless then
    _ ← bail_if (length (vc_users vless) =? 0)%nat "protocol.vless is enabled but no users configured";
    check_user_ids (vc_users vless)
  else Ok tt.

Definition validate (self : Config) : res anyhow unit :=
  let transport := c_transport self in
  _ ← validate_server self;
  _ ← validate_protocols self;
  _ ← bail_if (tl_enabled (tr_tls transport) && rl_enabled (tr_reality transport))
        "transport.tls and transport.reality cannot both be enabled";
  _ ← validate_xhttp self;
  _ ← validate_awg self;
  _ ← validate_hysteria2 self;
  _ ← validate_tuic self;
  _ ← validate_outbound_tls self;
  _ ← (if tl_enabled (tr_tls transport) then
         _ ← validate_tls self;
         _ ← tls_server_config self;
         Ok tt
       else Ok tt);
  _ ← (if rl_enabled (tr_reality transport) then
         _ ← validate_reality self;
         _ ← reality_server_config self;
         Ok tt
       else Ok tt);
  _ ← (if ac_enabled (c_api self) then validate_api self else Ok tt);
  if mc_enabled (c_metrics self) then validate_metrics self else Ok tt.

(** [Config::load], given the file and what the TOML crate makes of it. *)
Definition load (toml : string -> string + Config) (path : string) : res anyhow Config :=
  match read_to_string host path with
  | inl e => Err (Anyhow [("cannot read " +:+ quoted path); e])
  | inr raw =>
    match toml raw with
    | inl e => Err (Anyhow [("invalid TOML in " +:+ quoted path); e])
    | inr config => _ ← validate config; Ok config
    end
  end.
End Validate.

(** ** The summary of [check-config] *)

Definition on_off (enabled : bool) : string := if enabled then "enabled" else "disabled".

Definition socks_auth_label (auth : AuthMethod) : string :=
  match auth with NoAuth => "no-auth" | UserPass => "user-pass" end.

Definition dec (n : Z) : string := fmt_dec (Z.to_nat n).

Definition secs_or_disabled (o : option Z) : string :=
  match o with Some d => dec (d / NANOS) +:+ "s" | None => "disabled" end.

(** The lines printed by [print_check_summary]. *)
Definition check_summary (self : Config) (path : string) : list string :=
  let transport := c_transport self in
  let api := c_api self in
  ["Configuration OK: " +:+ path;
   "  listen:  " +:+ listen_display (sv_listen (c_server self));
   "  timeouts: connect=" +:+ dec (connect_timeout_secs (sv_timeouts (c_server self))) +:+ "s, idle="
     +:+ secs_or_disabled (idle_timeout self) +:+ ", max_lifetime=" +:+ secs_or_disabled (max_session_lifetime self);
   "  max_connections: " +:+ match max_connections self with Some n => dec n | None => "unlimited" end;
   "  vless:   " +:+ on_off (vc_enabled (pc_vless (c_protocol self))) +:+ " ("
     +:+ fmt_dec (length (vc_users (pc_vless (c_protocol self)))) +:+ " users)";
   "  socks5:  " +:+ on_off (s5_enabled (pc_socks5 (c_protocol self))) +:+ " ("
     +:+ fmt_dec (length (s5_users (pc_socks5 (c_protocol self)))) +:+ " users, auth="
     +:+ socks_auth_label (s5_auth (pc_socks5 (c_protocol self))) +:+ ")";
   "  tls:     " +:+ on_off (tl_enabled (tr_tls transport));
   "  reality: " +:+ on_off (rl_enabled (tr_reality transport));
   "  xhttp:   " +:+ (if xf_enabled (tr_xhttp transport)
                      then "enabled (path=" +:+ xf_path (tr_xhttp transport) +:+ ", mode=" +:+ xf_mode (tr_xhttp transport) +:+ ")"
                      else "disabled");
   "  awg:     " +:+ (if af_enabled (tr_awg transport)
                      then "enabled (listen=" +:+ af_listen (tr_awg transport) +:+ ", iface=" +:+ af_interface (tr_awg transport)
                           +:+ ", " +:+ fmt_dec (length (af_peers (tr_awg transport))) +:+ " peers, nat="
                           +:+ on_off (nf_enabled (af_nat (tr_awg transport))) +:+ ")"
                      else "disabled");
   "  hysteria2: " +:+ (if hf_enabled (tr_hysteria2 transport)
                        then "enabled (listen=" +:+ hf_listen (tr_hysteria2 transport) +:+ ")" else "disabled");
   "  tuic:    " +:+ (if tf_enabled (tr_tuic transport)
                      then "enabled (listen=" +:+ tf_listen (tr_tuic transport) +:+ ")" else "disabled");
   "  outbound.tls: " +:+ on_off (ot_enabled (ob_tls (c_outbound self)));
   "  api:     " +:+ (if ac_enabled api
                      then "enabled (" +:+ ac_listen api +:+ (if at_enabled (ac_tls api) then ", tls" else "")
                           +:+ match ac_rate_limit_per_sec api with Some n => ", rate_limit=" +:+ dec n +:+ "/s" | None => "" end
                           +:+ (if ac_audit_log api then ", audit_log" else "") +:+ ")"
                      else "disabled");
   "  metrics: " +:+ (if mc_enabled (c_metrics self) then "enabled (" +:+ mc_listen (c_metrics self) +:+ ")" else "disabled")]%string.
