(* ===== verification/ConfigSpec.v ===== *)
(** * What a valid server configuration is
    States declaratively which configurations [Config::validate] of
    crates/skadi-config/src/lib.rs accepts, and proves that the checks decide
    exactly these. *)

From Stdlib Require Import Ascii String.
From stdpp Require Import base list list_numbers numbers strings pretty gmap.
From S2P Require Import Prelude Core Io NetText Tls.
From S2P Require Import Socks5 VlessConfig Store AuthRate.
From S2P Require Import Connect Relay Xhttp External Config.

(** ** Checks as propositions *)

Create HintDb calm.

Lemma then_ok {E A} (m : res E unit) (k : res E A) b : (_ ← m; k) = Ok b <-> m = Ok tt /\ k = Ok b.
Proof. destruct m as [[]| |]; cbn; naive_solver. Qed.

Lemma bind_ok {E A B} (m : res E A) (f : A -> res E B) b : m ≫= f = Ok b <-> exists a, m = Ok a /\ f a = Ok b.
Proof. destruct m; cbn; naive_solver. Qed.

Lemma bail_if_ok c msg : bail_if c msg = Ok tt <-> c = false.
Proof. unfold bail_if. destruct c; naive_solver. Qed.

Lemma ok_or_ok {A} (o : option A) msg a : ok_or o msg = Ok a <-> o = Some a.
Proof. unfold ok_or. destruct o; naive_solver. Qed.

Lemma ok_or_some {A} (a : A) msg : ok_or (Some a) msg = Ok a.
Proof. done. Qed.

Lemma parse_addr_ok ctx s a : parse_addr ctx s = Ok a <-> parse_socket_addr s = Some a.
Proof. unfold parse_addr. destruct (parse_socket_addr s); naive_solver. Qed.

Lemma bail_if_calm c msg : bail_if c msg <> Panic.
Proof. by destruct c. Qed.
Lemma ok_or_calm {A} (o : option A) msg : ok_or o msg <> Panic.
Proof. by destruct o. Qed.
Lemma parse_addr_calm ctx s : parse_addr ctx s <> Panic.
Proof. unfold parse_addr. by destruct (parse_socket_addr s). Qed.
Lemma parse_uuid_calm ctx s : parse_uuid ctx s <> Panic.
Proof. apply map_err_no_panic, uuid_parse_no_panic. Qed.

Lemma kex_parse_calm s : kex_parse s <> Panic.
Proof. unfold kex_parse. by repeat destruct (bool_decide _). Qed.
Lemma kex_calm s field : parse_tls_kex_mode s field <> Panic.
Proof. apply map_err_no_panic, kex_parse_calm. Qed.

Lemma collect_calm {A B} (f : A -> res anyhow B) l : (forall a, f a <> Panic) -> collect f l <> Panic.
Proof.
  intros Hf. induction l as [|a l IH]; [done|]. cbn [collect]. apply bind_calm; [done|]. intros b _.
  by apply bind_calm.
Qed.

Lemma collect_ok {A B} (f : A -> res anyhow B) l bs : collect f l = Ok bs <-> Forall2 (fun a b => f a = Ok b) l bs.
Proof.
  revert bs. induction l as [|a l IH]; intros bs; cbn [collect].
  - split; [intros [= <-]; constructor|]. by inversion 1.
  - rewrite bind_ok. setoid_rewrite bind_ok. setoid_rewrite IH. split.
    + intros (b & Hb & bs' & Hbs & [= <-]). by constructor.
    + inversion 1; subst. eauto 10.
Qed.

Lemma key_result_calm msg k : key_result msg k <> Panic.
Proof. by destruct k. Qed.

#[export] Hint Resolve bail_if_calm ok_or_calm parse_addr_calm parse_uuid_calm kex_calm key_result_calm : calm.

(** Splits a sequence of checks and solves those that cannot panic. *)
Ltac calm :=
  repeat first
    [ done
    | solve [auto with calm]
    | apply map_err_no_panic
    | apply collect_calm; intros
    | apply bind_calm; [|intros ? ?]
    | match goal with
      | |- (if ?c then _ else _) <> Panic => destruct c
      | |- (match ?o with _ => _ end) <> Panic => destruct o
      end ].

Section Spec.
Context (host : ConfigHost).

Definition readable (path : string) : Prop := is_file host path = true /\ open_file host path = None.
Definition readable_opt (o : option string) : Prop := forall path, o = Some path -> readable path.

Definition not_blank (s : string) : Prop := trim s <> EmptyString.
Definition given (o : option string) : Prop := exists s, o = Some s /\ not_blank s.

Definition kex_known (s : string) : Prop :=
  s ∈ ["classic"; "x25519"; "hybrid"; "hybrid_pq"; "x25519mlkem768"]%string.

Definition on_loopback (listen : string) : Prop :=
  exists a, parse_socket_addr listen = Some a
    /\ match sock_ip a with V4 v4 => o0 v4 = 127 | V6 v6 => v6 = replicate 15 0 ++ [1] end.

Lemma ensure_readable_ok path field : ensure_readable_file host path field = Ok tt <-> readable path.
Proof.
  unfold ensure_readable_file, readable. rewrite then_ok, bail_if_ok, negb_false_iff. destruct (open_file host path); naive_solver.
Qed.

Lemma ensure_readable_calm path field : ensure_readable_file host path field <> Panic.
Proof. unfold ensure_readable_file. calm. Qed.

Lemma ensure_opt_ok path field : ensure_readable_opt host path field = Ok tt <-> readable_opt path.
Proof.
  unfold ensure_readable_opt, readable_opt. destruct path; [rewrite ensure_readable_ok|]; naive_solver.
Qed.

Lemma ensure_opt_calm path field : ensure_readable_opt host path field <> Panic.
Proof. destruct path; [apply ensure_readable_calm|done]. Qed.
#[local] Hint Resolve ensure_readable_calm ensure_opt_calm : calm.

Lemma blank_false s : blank s = false <-> not_blank s.
Proof. unfold blank, not_blank. by rewrite bool_decide_eq_false. Qed.

Lemma nonblank_some o s : nonblank o = Some s <-> o = Some s /\ not_blank s.
Proof.
  unfold nonblank. destruct o as [x|]; [|naive_solver]. destruct (blank x) eqn:E.
  - split; [done|]. intros [[= ->] H]. apply blank_false in H. congruence.
  - apply blank_false in E. naive_solver.
Qed.

Lemma given_iff o msg : (exists s, ok_or (nonblank o) msg = Ok s) <-> given o.
Proof. setoid_rewrite ok_or_ok. setoid_rewrite nonblank_some. done. Qed.

Lemma kex_ok s field : (exists m, parse_tls_kex_mode s field = Ok m) <-> kex_known s.
Proof.
  unfold parse_tls_kex_mode, kex_known. setoid_rewrite map_err_ok. unfold kex_parse.
  rewrite !elem_of_cons, elem_of_nil. repeat case_bool_decide; naive_solver.
Qed.

Lemma kex_then_ok s field : (_ ← parse_tls_kex_mode s field; Ok tt) = @Ok anyhow _ tt <-> kex_known s.
Proof. rewrite bind_ok, <- (kex_ok s field). naive_solver. Qed.

Lemma readable_opt_some path : readable_opt (Some path) <-> readable path.
Proof. unfold readable_opt. naive_solver. Qed.
Lemma readable_opt_none : readable_opt None <-> True.
Proof. unfold readable_opt. naive_solver. Qed.

Lemma loopback_ok listen : (exists a, parse_socket_addr listen = Some a /\ is_loopback a = true) <-> on_loopback listen.
Proof.
  unfold on_loopback, is_loopback, ipv6_is_loopback.
  split; intros (a & Ha & H); exists a; (split; [done|]); destruct (sock_ip a); revert H;
    rewrite ?Z.eqb_eq, ?bool_decide_eq_true; done.
Qed.

Lemma is_zero_false o : is_zero o = false <-> o <> Some 0.
Proof. unfold is_zero. destruct o as [n|]; [rewrite Z.eqb_neq|]; naive_solver. Qed.

Lemma nonempty_ok {A} (l : list A) : (length l =? 0)%nat = false <-> l <> [].
Proof. rewrite Nat.eqb_neq. destruct l; naive_solver. Qed.

#[local] Opaque ensure_readable_file ensure_readable_opt bail_if ok_or parse_addr.

(** Rewrites a sequence of checks into the conjunction of what they check. *)
Ltac checks :=
  repeat first
    [ setoid_rewrite then_ok
    | setoid_rewrite bail_if_ok
    | setoid_rewrite ok_or_ok
    | setoid_rewrite parse_addr_ok
    | setoid_rewrite ensure_readable_ok
    | setoid_rewrite ensure_opt_ok
    | setoid_rewrite blank_false
    | setoid_rewrite nonblank_some
    | setoid_rewrite is_zero_false
    | setoid_rewrite nonempty_ok
    | setoid_rewrite negb_false_iff
    | setoid_rewrite bind_ok ].

(** ** Server and protocols *)

Definition listen_ok (l : ListenAddrs) : Prop :=
  addrs l <> [] /\ exists sas, Forall2 (fun s a => parse_socket_addr s = Some a) (addrs l) sas /\ NoDup sas.

Lemma check_distinct_ok seen l :
  check_distinct seen l = Ok tt <->
  exists sas, Forall2 (fun s a => parse_socket_addr s = Some a) l sas /\ NoDup sas /\ forall a, a ∈ sas -> a ∉ seen.
Proof.
  revert seen. induction l as [|s l IH]; intros seen; cbn [check_distinct].
  - split; [intros _; exists []; split_and!; [constructor..|by intros a ?%not_elem_of_nil]|done].
  - rewrite bind_ok. setoid_rewrite then_ok. setoid_rewrite parse_addr_ok. setoid_rewrite bail_if_ok.
    setoid_rewrite bool_decide_eq_false. setoid_rewrite IH. split.
    + intros (a & Ha & Hs & sas & Hf & Hd & Hn). exists (a :: sas). split_and!.
      * by constructor.
      * constructor; [|done]. intros H. apply (Hn a H). by left.
      * intros x [->|Hx]%elem_of_cons; [done|]. intros H. apply (Hn x Hx). by right.
    + intros (sas & Hf & Hd & Hn). inversion Hf as [|? a ? sas' Ha Hf']; subst. apply NoDup_cons in Hd as [Hna Hd].
      exists a. split; [done|]. split; [apply Hn; by left|]. exists sas'. split_and!; [done..|].
      intros x Hx [->|H]%elem_of_cons; [done|]. by apply (Hn x); [right|].
Qed.

Lemma listen_validate_ok l : listen_validate l = Ok tt <-> listen_ok l.
Proof.
  unfold listen_validate, listen_ok. rewrite then_ok, bail_if_ok, nonempty_ok, check_distinct_ok.
  setoid_rewrite elem_of_nil. naive_solver.
Qed.

Lemma check_distinct_calm l seen : check_distinct seen l <> Panic.
Proof. revert seen. induction l; intros seen; [done|]. cbn [check_distinct]. calm. Qed.

Definition limiter_ok (c : AuthRateLimitConfig) : Prop :=
  arl_enabled c = true ->
  arl_max_failures c <> Some 0 /\ arl_window_secs c <> 0 /\ arl_ban_base_secs c <> 0 /\ arl_ban_max_secs c <> 0.

Definition server_ok (c : ServerConfig) : Prop :=
  listen_ok (sv_listen c)
  /\ connect_timeout_secs (sv_timeouts c) <> 0
  /\ idle_timeout_secs (sv_timeouts c) <> Some 0
  /\ sv_max_connections c <> Some 0
  /\ limiter_ok (sv_auth_rate_limit c)
  /\ max_session_lifetime_secs (sv_timeouts c) <> Some 0.

Lemma validate_server_ok c : validate_server c = Ok tt <-> server_ok (c_server c).
Proof.
  unfold validate_server, server_ok, limiter_ok.
  rewrite !then_ok, !bail_if_ok, listen_validate_ok, !is_zero_false, Z.eqb_neq.
  destruct (arl_enabled _); [rewrite !then_ok, !bail_if_ok, is_zero_false, !Z.eqb_neq|]; naive_solver.
Qed.

Lemma validate_server_calm c : validate_server c <> Panic.
Proof. unfold validate_server, listen_validate. pose proof check_distinct_calm. calm. Qed.

Definition protocols_ok (c : Config) : Prop :=
  let socks5 := pc_socks5 (c_protocol c) in
  let vless := pc_vless (c_protocol c) in
  (s5_enabled socks5 = true \/ vc_enabled vless = true \/ af_enabled (tr_awg (c_transport c)) = true
   \/ hf_enabled (tr_hysteria2 (c_transport c)) = true \/ tf_enabled (tr_tuic (c_transport c)) = true)
  /\ (s5_enabled socks5 = true -> s5_auth socks5 = UserPass -> s5_users socks5 <> [])
  /\ (vc_enabled vless = true ->
      vc_users vless <> [] /\ Forall (fun user => exists u, uuid_parse (vu_id user) = Ok u) (vc_users vless)).

Lemma parse_uuid_ok ctx s u : parse_uuid ctx s = Ok u <-> uuid_parse s = Ok u.
Proof. apply map_err_ok. Qed.

Lemma check_user_ids_ok users :
  check_user_ids users = Ok tt <-> Forall (fun user => exists u, uuid_parse (vu_id user) = Ok u) users.
Proof.
  induction users as [|user users IH]; cbn [check_user_ids]; [split; [constructor|done]|].
  rewrite bind_ok, Forall_cons, <- IH. setoid_rewrite parse_uuid_ok. naive_solver.
Qed.

Lemma check_user_ids_calm users : check_user_ids users <> Panic.
Proof. induction users; [done|]. cbn [check_user_ids]. calm. Qed.

Lemma validate_protocols_ok c : validate_protocols c = Ok tt <-> protocols_ok c.
Proof.
  unfold validate_protocols, protocols_ok. rewrite !then_ok, !bail_if_ok, !andb_false_iff, !negb_false_iff, bool_decide_eq_false, nonempty_ok.
  destruct (vc_enabled _); [rewrite then_ok, bail_if_ok, nonempty_ok, check_user_ids_ok|];
    destruct (s5_enabled _), (s5_auth _); naive_solver.
Qed.

Lemma validate_protocols_calm c : validate_protocols c <> Panic.
Proof. unfold validate_protocols. pose proof check_user_ids_calm. calm. Qed.

(** ** API, metrics and outbound TLS *)

Definition metrics_ok (c : MetricsConfig) : Prop := on_loopback (mc_listen c).

Lemma validate_metrics_ok c : validate_metrics c = Ok tt <-> metrics_ok (c_metrics c).
Proof.
  unfold validate_metrics, metrics_ok. rewrite bind_ok, <- loopback_ok. setoid_rewrite parse_addr_ok.
  setoid_rewrite bail_if_ok. by setoid_rewrite negb_false_iff.
Qed.

Definition api_ok (c : ApiConfig) : Prop :=
  on_loopback (ac_listen c)
  /\ (exists token, ac_token c = Some token /\ not_blank (secret_inner token))
  /\ (if at_enabled (ac_tls c)
      then exists cert key, at_cert (ac_tls c) = Some cert /\ at_key (ac_tls c) = Some key /\ readable cert /\ readable key
      else at_cert (ac_tls c) = None /\ at_key (ac_tls c) = None)
  /\ ac_rate_limit_per_sec c <> Some 0.

Lemma validate_api_ok c : validate_api host c = Ok tt <-> api_ok (c_api c).
Proof.
  unfold validate_api, api_ok. rewrite <- loopback_ok. destruct (at_enabled _); checks.
  - naive_solver.
  - destruct (at_cert _), (at_key _); cbn; naive_solver.
Qed.

Definition outbound_tls_ok (c : OutboundTlsConfig) : Prop :=
  ot_enabled c = true ->
  is_some (ot_cert c) = is_some (ot_key c)
  /\ readable_opt (ot_cert c) /\ readable_opt (ot_key c) /\ readable_opt (ot_ca_file c) /\ kex_known (ot_kex_mode c).

Lemma validate_outbound_tls_ok c : validate_outbound_tls host c = Ok tt <-> outbound_tls_ok (ob_tls (c_outbound c)).
Proof.
  unfold validate_outbound_tls, outbound_tls_ok. destruct (ot_enabled _); cbn [negb]; [|naive_solver].
  rewrite !then_ok, kex_then_ok, ensure_opt_ok.
  destruct (ot_cert _), (ot_key _); rewrite ?then_ok, ?ensure_readable_ok, ?readable_opt_some, ?readable_opt_none;
    cbn [is_some]; intuition congruence.
Qed.

(** ** TLS *)

Definition entry_names (entries : list TlsSniCertConfig) : list string :=
  concat (map (fun e => map normalized (se_server_names e)) entries).

Definition tls_ok (c : TlsConfig) : Prop :=
  is_some (tl_cert c) = is_some (tl_key c)
  /\ (tl_cert c = None -> tl_certificates c <> [])
  /\ readable_opt (tl_cert c) /\ readable_opt (tl_key c)
  /\ kex_known (tl_kex_mode c)
  /\ Forall (fun e => se_server_names e <> [] /\ readable (se_cert e) /\ readable (se_key e)) (tl_certificates c)
  /\ Forall (fun n => n <> EmptyString) (entry_names (tl_certificates c))
  /\ NoDup (entry_names (tl_certificates c)).

Lemma check_names_ok idx seen names seen' :
  check_names idx seen names = Ok seen' <->
  Forall (fun n => n <> EmptyString) (map normalized names) /\ NoDup (map normalized names)
  /\ (forall n, n ∈ map normalized names -> n ∉ seen) /\ seen' = list_to_set (map normalized names) ∪ seen.
Proof.
  revert seen. induction names as [|n names IH]; intros seen; cbn [check_names map].
  - cbn. rewrite (left_id_L ∅ union). split; [intros [= <-]|naive_solver]. split_and!; [constructor..| |done].
    by intros n ?%not_elem_of_nil.
  - rewrite !then_ok, !bail_if_ok, !bool_decide_eq_false, IH, Forall_cons, NoDup_cons. setoid_rewrite elem_of_cons.
    change (lowercase (trim n)) with (normalized n).
    assert (Hs : list_to_set (normalized n :: map normalized names) ∪ seen
                 = list_to_set (map normalized names) ∪ ({[normalized n]} ∪ seen)) by set_solver.
    rewrite Hs. split.
    + intros (H1 & H2 & H3 & H4 & H5 & ->). set_solver.
    + intros ([H1 H2] & [H3 H4] & H5 & ->). set_solver.
Qed.

Lemma check_certificates_ok idx seen entries :
  check_certificates host idx seen entries = Ok tt <->
  Forall (fun e => se_server_names e <> [] /\ readable (se_cert e) /\ readable (se_key e)) entries
  /\ Forall (fun n => n <> EmptyString) (entry_names entries) /\ NoDup (entry_names entries)
  /\ forall n, n ∈ entry_names entries -> n ∉ seen.
Proof.
  unfold entry_names. revert idx seen. induction entries as [|e entries IH]; intros idx seen; cbn [check_certificates map concat].
  - split; [intros _|done]. split_and!; [constructor..|]. by intros n ?%not_elem_of_nil.
  - rewrite !then_ok, bail_if_ok, nonempty_ok, !ensure_readable_ok, bind_ok.
    setoid_rewrite check_names_ok. setoid_rewrite IH. rewrite Forall_cons, Forall_app, NoDup_app. setoid_rewrite elem_of_app.
    split.
    + intros (H1 & H2 & H3 & s & (H4 & H5 & H6 & ->) & H7 & H8 & H9 & H10).
      split_and!; try done; intros n Hn; [intros Hn'; apply (H10 n Hn'); set_solver|].
      destruct Hn as [Hn|Hn]; [by apply H6|]. specialize (H10 n Hn). set_solver.
    + intros (((H1 & H2 & H3) & H0) & [H4 H5] & (H6 & H7 & H8) & H9). split_and!; [done..|]. eexists.
      split; [split_and!; [done|done|set_solver|reflexivity]|]. split_and!; [done..|]. set_solver.
Qed.

Lemma check_names_calm idx names seen : check_names idx seen names <> Panic.
Proof. revert seen. induction names; intros seen; [done|]. cbn [check_names]. calm. Qed.
#[local] Hint Resolve check_names_calm : calm.

Lemma check_certificates_calm entries idx seen : check_certificates host idx seen entries <> Panic.
Proof. revert idx seen. induction entries; intros idx seen; [done|]. cbn [check_certificates]. calm. Qed.
#[local] Hint Resolve check_certificates_calm : calm.

Lemma validate_tls_ok c : validate_tls host c = Ok tt <-> tls_ok (tr_tls (c_transport c)).
Proof.
  unfold validate_tls, tls_ok. set (tls := tr_tls _).
  rewrite !then_ok, !bail_if_ok, !ensure_opt_ok, bind_ok, <- (kex_ok _ "transport.tls.kex_mode").
  setoid_rewrite check_certificates_ok. rewrite !andb_false_iff, nonempty_ok.
  assert (Hs : forall n : string, n ∉ (∅ : gset string)) by set_solver.
  destruct (tl_cert tls), (tl_key tls); cbn; naive_solver.
Qed.

(** A valid TLS section gives a listener's configuration. *)
Lemma tls_server_config_ok c :
  tls_ok (tr_tls (c_transport c)) ->
  exists kex, tls_server_config c =
    Ok {| tls_default := match tl_cert (tr_tls (c_transport c)), tl_key (tr_tls (c_transport c)) with
                         | Some cert, Some key => Some {| cert_path := cert; key_path := key |}
                         | _, _ => None
                         end;
          tls_sni_certs := map (fun entry => {| sc_server_names := se_server_names entry; sc_cert_path := se_cert entry;
                                                sc_key_path := se_key entry |}) (tl_certificates (tr_tls (c_transport c)));
          tls_alpn := tl_alpn (tr_tls (c_transport c)); tls_kex_mode := kex |}.
Proof.
  unfold tls_server_config. set (tls := tr_tls _). intros (He & Hne & _ & _ & Hk & _).
  apply (kex_ok _ "transport.tls.kex_mode") in Hk as (kex & Hk). exists kex.
  destruct (tl_cert tls), (tl_key tls); cbn [is_some] in He; [|done..|]; cbn [mbind res_bind is_some negb andb].
  - rewrite Hk. done.
  - rewrite length_map, (proj2 (nonempty_ok _) (Hne eq_refl)). cbn. by rewrite Hk.
Qed.

(** ** REALITY *)

Definition key32 (o : option string) : Prop :=
  exists text key, o = Some text /\ base64_decode host (trim text) = inr key /\ length key = 32%nat.

Definition impersonate_ok (o : option string) : Prop :=
  forall path, o = Some path -> exists cert, load_impersonate_cert_file host path = Ok cert.

Definition reality_ok (c : RealityConfig) : Prop :=
  (exists dest, rl_dest c = Some dest /\ not_blank dest /\ exists h p, split_once ":"%char dest = Some (h, p))
  /\ rl_server_names c <> []
  /\ key32 (rl_private_key c)
  /\ rl_short_ids c <> []
  /\ Forall (fun sid => exists b, hex_decode host sid = inr b /\ (1 <= length b <= 8)%nat) (rl_short_ids c)
  /\ kex_known (rl_kex_mode c)
  /\ impersonate_ok (rl_impersonate_cert c).

Lemma decode_base64_ok text field key :
  decode_base64_32 host text field = Ok key <-> base64_decode host (trim text) = inr key /\ length key = 32%nat.
Proof.
  unfold decode_base64_32. destruct (base64_decode _ _) as [e|b]; [naive_solver|].
  rewrite then_ok, bail_if_ok, negb_false_iff, Nat.eqb_eq. naive_solver.
Qed.

Lemma decode_base64_calm text field : decode_base64_32 host text field <> Panic.
Proof. unfold decode_base64_32. calm. Qed.
Lemma hex_bytes_calm ctx sid : hex_bytes host ctx sid <> Panic.
Proof. unfold hex_bytes. calm. Qed.
Lemma load_impersonate_calm path : load_impersonate_cert_file host path <> Panic.
Proof. unfold load_impersonate_cert_file. calm. Qed.
#[local] Hint Resolve decode_base64_calm hex_bytes_calm load_impersonate_calm : calm.

Lemma hex_bytes_ok ctx sid b : hex_bytes host ctx sid = Ok b <-> hex_decode host sid = inr b.
Proof. unfold hex_bytes. destruct (hex_decode host sid); naive_solver. Qed.

Lemma check_short_ids_ok idx ids :
  check_short_ids host idx ids = Ok tt <->
  Forall (fun sid => exists b, hex_decode host sid = inr b /\ (1 <= length b <= 8)%nat) ids.
Proof.
  revert idx. induction ids as [|sid ids IH]; intros idx; cbn [check_short_ids]; [split; [constructor|done]|].
  rewrite bind_ok, Forall_cons. setoid_rewrite hex_bytes_ok. setoid_rewrite then_ok. setoid_rewrite bail_if_ok.
  setoid_rewrite IH. setoid_rewrite orb_false_iff. setoid_rewrite Nat.eqb_neq. setoid_rewrite Nat.ltb_ge.
  split; [intros (b & ? & ? & ?)|intros [(b & ? & ?) ?]; exists b]; naive_solver lia.
Qed.

Lemma check_short_ids_calm ids idx : check_short_ids host idx ids <> Panic.
Proof. revert idx. induction ids; intros idx; [done|]. cbn [check_short_ids]. calm. Qed.
#[local] Hint Resolve check_short_ids_calm : calm.

(** What the checks alone ensure; the certificate template is read after them. *)
Definition reality_checked (c : RealityConfig) : Prop :=
  reality_ok {| rl_enabled := rl_enabled c; rl_dest := rl_dest c; rl_server_names := rl_server_names c;
                rl_private_key := rl_private_key c; rl_short_ids := rl_short_ids c; rl_impersonate_cert := None;
                rl_fetch_impersonate_cert := rl_fetch_impersonate_cert c; rl_kex_mode := rl_kex_mode c |}.

Lemma is_some_true {A} (o : option A) : is_some o = true <-> exists a, o = Some a.
Proof. destruct o; naive_solver. Qed.

Lemma validate_reality_ok c : validate_reality host c = Ok tt <-> reality_checked (tr_reality (c_transport c)).
Proof.
  unfold validate_reality, reality_checked, reality_ok, key32, impersonate_ok. set (r := tr_reality _).
  cbn [rl_dest rl_server_names rl_private_key rl_short_ids rl_impersonate_cert rl_kex_mode]. split.
  - rewrite bind_ok. intros (d & Hd & H). apply ok_or_ok in Hd. rewrite !then_ok, !bail_if_ok in H.
    destruct H as (Hb & Hc & Hn & H). apply bind_ok in H as (t & Ht & H). apply ok_or_ok in Ht.
    apply bind_ok in H as (k & Hk & H). apply decode_base64_ok in Hk.
    rewrite !then_ok, bail_if_ok, check_short_ids_ok, kex_then_ok in H. destruct H as (Hs & Hids & Hkex).
    rewrite nonempty_ok in Hs, Hn. rewrite blank_false in Hb. rewrite negb_false_iff, is_some_true in Hc.
    destruct Hc as [[h p] Hc]. split_and!; eauto 10; done.
  - intros ((d & Hd & Hb & h & p & Hc) & Hn & (t & k & Ht & Hk) & Hs & Hids & Hkex & _).
    rewrite bind_ok. exists d. rewrite ok_or_ok, !then_ok, !bail_if_ok, blank_false, nonempty_ok, Hc. split_and!; [done..|].
    rewrite bind_ok. exists t. rewrite ok_or_ok. split; [done|].
    rewrite bind_ok. exists k. rewrite decode_base64_ok. split; [done|].
    by rewrite !then_ok, bail_if_ok, nonempty_ok, check_short_ids_ok, kex_then_ok.
Qed.

Lemma validate_reality_calm c : validate_reality host c <> Panic.
Proof. unfold validate_reality. calm. Qed.

(** The listener's configuration of a checked section, if the template loads. *)
Definition reality_built (c : Config) (cfg : RealityServerConfig) : Prop :=
  let r := tr_reality (c_transport c) in
  length (rs_private_key cfg) = 32%nat
  /\ rl_dest r = Some (rs_dest cfg)
  /\ rs_server_names cfg = rl_server_names r
  /\ rs_short_ids cfg <> [] /\ Forall (fun id => (1 <= length id <= 8)%nat) (rs_short_ids cfg)
  /\ rs_connect_timeout cfg = connect_timeout c
  /\ rs_idle_timeout cfg = idle_timeout c /\ rs_max_session_lifetime cfg = max_session_lifetime c.

Lemma hex_all_ok ids : Forall (fun sid => exists b, hex_decode host sid = inr b /\ (1 <= length b <= 8)%nat) ids ->
  exists bs, collect (fun sid => hex_bytes host ("invalid short_id hex: " +:+ sid) sid) ids = Ok bs
    /\ length bs = length ids /\ Forall (fun id => (1 <= length id <= 8)%nat) bs.
Proof.
  induction 1 as [|sid ids (b & Hb & Hl) _ (bs & Hbs & Hn & Hf)]; cbn [collect]; [by exists []|].
  exists (b :: bs). rewrite (proj2 (hex_bytes_ok _ sid b) Hb), Hbs. cbn. rewrite Hn. split_and!; [done..|by constructor].
Qed.

Lemma reality_server_config_ok c :
  reality_checked (tr_reality (c_transport c)) ->
  reality_server_config host c <> Panic
  /\ ((exists cfg, reality_server_config host c = Ok cfg) <-> impersonate_ok (rl_impersonate_cert (tr_reality (c_transport c))))
  /\ forall cfg, reality_server_config host c = Ok cfg -> reality_built c cfg.
Proof.
  intros ((d & Hd & _) & _ & (t & k & Ht & Hk & Hkl) & Hs & Hids & Hkex & _).
  cbn [rl_dest rl_server_names rl_private_key rl_short_ids rl_kex_mode] in *.
  unfold reality_server_config, impersonate_ok, reality_built. set (r := tr_reality _) in *. rewrite Ht. cbn [unwrap mbind res_bind].
  rewrite (proj2 (decode_base64_ok t _ k) (conj Hk Hkl)). cbn [mbind res_bind].
  destruct (hex_all_ok _ Hids) as (bs & Hbs & Hlen & Hf). rewrite Hbs. cbn [mbind res_bind].
  apply (kex_ok _ "transport.reality.kex_mode") in Hkex as (kex & Hkex). rewrite Hd. cbn [unwrap mbind res_bind].
  assert (Hne : bs <> []) by (destruct bs, (rl_short_ids r); done).
  destruct (rl_impersonate_cert r) as [path|].
  - pose proof (load_impersonate_calm path).
    destruct (load_impersonate_cert_file host path) as [cert|e|] eqn:El; cbn [map_err mbind res_bind unwrap]; [| |done].
    + rewrite Hkex. cbn. split_and!; [done| |intros cfg [= <-]; done]. split; [|by eexists]. intros _ ? [= <-]. eauto.
    + split_and!; [done| |done]. split; [by intros [? ?]|]. intros H'. destruct (H' path eq_refl). congruence.
  - rewrite Hkex. cbn. split_and!; [done| |intros cfg [= <-]; done]. split; [done|]. by eexists.
Qed.

(** ** XHTTP and the external cores *)

Definition xhttp_ok (c : XhttpFileConfig) : Prop :=
  xf_enabled c = true ->
  not_blank (xf_path c)
  /\ xf_mode c ∈ [""; "auto"; "packet-up"; "stream-up"; "stream-one"]%string
  /\ forall min max, xf_x_padding_bytes c = Some (min, max) -> min <= max.

Lemma mode_parse_ok s : is_some (mode_parse s) = true <-> s ∈ [""; "auto"; "packet-up"; "stream-up"; "stream-one"]%string.
Proof. unfold mode_parse. rewrite !elem_of_cons, elem_of_nil. repeat case_bool_decide; cbn [is_some]; naive_solver. Qed.

Lemma validate_xhttp_ok c : validate_xhttp c = Ok tt <-> xhttp_ok (tr_xhttp (c_transport c)).
Proof.
  unfold validate_xhttp, xhttp_ok. set (x := tr_xhttp _). destruct (xf_enabled x); cbn [negb]; [|naive_solver].
  rewrite !then_ok, !bail_if_ok, blank_false, negb_false_iff, mode_parse_ok.
  destruct (xf_x_padding_bytes x) as [[min max]|]; [rewrite bail_if_ok, Z.ltb_ge|]; naive_solver.
Qed.

Definition awg_ok (c : Config) : Prop :=
  let awg := tr_awg (c_transport c) in
  af_enabled awg = true ->
  (exists a, parse_socket_addr (af_listen awg) = Some a)
  /\ given (af_private_key awg) /\ not_blank (af_interface awg) /\ af_peers awg <> []
  /\ Forall (fun peer => not_blank (pf_public_key peer) /\ pf_allowed_ips peer <> []) (af_peers awg)
  /\ forall runtime, awg_server_config c = Ok runtime ->
       awg_uses_placeholder_keys runtime = true \/ exists text, render_server_conf (wg host) runtime = Ok text.

Lemma awg_peers_ok peers :
  (exists ps, collect awg_peer peers = Ok ps) <->
  Forall (fun peer => not_blank (pf_public_key peer) /\ pf_allowed_ips peer <> []) peers.
Proof.
  setoid_rewrite collect_ok. induction peers as [|p peers IH].
  - split; [constructor|]. exists []. constructor.
  - rewrite Forall_cons, <- IH.
    assert (Hp : (exists q, awg_peer p = Ok q) <-> not_blank (pf_public_key p) /\ pf_allowed_ips p <> []).
    { unfold awg_peer. setoid_rewrite then_ok. setoid_rewrite then_ok. setoid_rewrite bail_if_ok.
      setoid_rewrite blank_false. setoid_rewrite nonempty_ok. naive_solver. }
    rewrite <- Hp. split.
    + intros (ps & Hps). inversion Hps; subst. eauto.
    + intros ((q & Hq) & qs & Hqs). exists (q :: qs). by constructor.
Qed.

Lemma awg_server_config_ok c :
  (exists runtime, awg_server_config c = Ok runtime) <->
  let awg := tr_awg (c_transport c) in
  (exists a, parse_socket_addr (af_listen awg) = Some a)
  /\ given (af_private_key awg) /\ not_blank (af_interface awg) /\ af_peers awg <> []
  /\ Forall (fun peer => not_blank (pf_public_key peer) /\ pf_allowed_ips peer <> []) (af_peers awg).
Proof.
  cbn zeta. unfold awg_server_config, given. rewrite <- awg_peers_ok. setoid_rewrite bind_ok. setoid_rewrite parse_addr_ok.
  setoid_rewrite bind_ok. setoid_rewrite ok_or_ok. setoid_rewrite nonblank_some. setoid_rewrite then_ok.
  setoid_rewrite then_ok. setoid_rewrite bail_if_ok. setoid_rewrite blank_false. setoid_rewrite nonempty_ok.
  setoid_rewrite bind_ok. naive_solver.
Qed.

Lemma awg_server_config_calm c : awg_server_config c <> Panic.
Proof. unfold awg_server_config, awg_peer. calm. Qed.

Lemma render_server_conf_calm w runtime : render_server_conf w runtime <> Panic.
Proof.
  unfold render_server_conf, build_amnezia_settings, build_peer, parse_ipnet, parse_h_range, parse_u32. calm.
Qed.
#[local] Hint Resolve awg_server_config_calm render_server_conf_calm : calm.

Lemma validate_awg_calm c : validate_awg host c <> Panic.
Proof. unfold validate_awg. calm. Qed.

Lemma validate_awg_ok c : validate_awg host c = Ok tt <-> awg_ok c.
Proof.
  unfold validate_awg, awg_ok. pose proof (awg_server_config_ok c) as Hr. cbn zeta in Hr.
  destruct (af_enabled _); cbn [negb]; [|naive_solver]. rewrite bind_ok. split.
  - intros (rt & Hrt & Hk) _. destruct (proj1 Hr (ex_intro _ rt Hrt)) as (? & ? & ? & ? & ?). split_and!; [done..|].
    intros rt' Hrt'. assert (rt' = rt) as -> by congruence. destruct (awg_uses_placeholder_keys rt); [by left|right].
    apply bind_ok in Hk as (x & Hx & _). apply map_err_ok in Hx. by exists x.
  - intros H. destruct (H eq_refl) as (H1 & H2 & H3 & H4 & H5 & H6). destruct (proj2 Hr) as (rt & Hrt); [done|].
    exists rt. split; [done|]. destruct (H6 rt Hrt) as [->|(x & Hx)]; [done|].
    destruct (awg_uses_placeholder_keys rt); [done|]. rewrite Hx. done.
Qed.

Definition hysteria2_ok (c : Hysteria2FileConfig) : Prop :=
  hf_enabled c = true ->
  (exists a, parse_socket_addr (hf_listen c) = Some a
             \/ parse_socket_addr (hf_listen c) = None /\ parse_socket_addr ("0.0.0.0" +:+ hf_listen c) = Some a)
  /\ given (hf_password c) /\ given (hf_cert c) /\ given (hf_key c).

Lemma hysteria2_addr_ok s a : hysteria2_addr s = Ok a <->
  parse_socket_addr s = Some a \/ parse_socket_addr s = None /\ parse_socket_addr ("0.0.0.0" +:+ s) = Some a.
Proof. unfold hysteria2_addr. destruct (parse_socket_addr s); [|rewrite parse_addr_ok]; naive_solver. Qed.

Lemma hysteria2_addr_calm s : hysteria2_addr s <> Panic.
Proof. unfold hysteria2_addr. calm. Qed.
#[local] Hint Resolve hysteria2_addr_calm : calm.

Lemma validate_hysteria2_ok c : validate_hysteria2 c = Ok tt <-> hysteria2_ok (tr_hysteria2 (c_transport c)).
Proof.
  unfold validate_hysteria2, hysteria2_ok, hysteria2_server_config, given. set (h := tr_hysteria2 _).
  destruct (hf_enabled h); cbn [negb]; [|naive_solver]. rewrite bind_ok. setoid_rewrite <- hysteria2_addr_ok.
  split.
  - intros (cfg & H & _) _. apply bind_ok in H as (a & Ha & H). apply bind_ok in H as (p & Hp & H).
    apply bind_ok in H as (ct & Hct & H). apply bind_ok in H as (k & Hk & _).
    rewrite ok_or_ok, nonblank_some in Hp, Hct, Hk. eauto 10.
  - intros H. destruct (H eq_refl) as ((a & Ha) & (p & Hp & Hpb) & (ct & Hct & Hcb) & (k & Hk & Hkb)).
    rewrite Ha, (proj2 (nonblank_some (hf_password h) p)), (proj2 (nonblank_some (hf_cert h) ct)),
      (proj2 (nonblank_some (hf_key h) k)) by done.
    cbn. eauto.
Qed.

Definition tuic_ok (c : TuicFileConfig) : Prop :=
  tf_enabled c = true ->
  (exists a, parse_socket_addr (tf_listen c) = Some a)
  /\ (exists text u, tf_uuid c = Some text /\ not_blank text /\ uuid_parse text = Ok u)
  /\ given (tf_password c) /\ given (tf_certificate c) /\ given (tf_private_key c).

Lemma validate_tuic_ok c : validate_tuic c = Ok tt <-> tuic_ok (tr_tuic (c_transport c)).
Proof.
  unfold validate_tuic, tuic_ok, tuic_server_config, given. set (t := tr_tuic _).
  destruct (tf_enabled t); cbn [negb]; [|naive_solver]. rewrite bind_ok. split.
  - intros (cfg & H & _) _. apply bind_ok in H as (a & Ha & H). apply bind_ok in H as (u & Hu & H).
    apply bind_ok in H as (v & Hv & H). apply bind_ok in H as (p & Hp & H).
    apply bind_ok in H as (ct & Hct & H). apply bind_ok in H as (k & Hk & _).
    rewrite ok_or_ok, nonblank_some in Hu, Hp, Hct, Hk. rewrite parse_addr_ok in Ha. rewrite parse_uuid_ok in Hv.
    destruct Hu. split_and!; eauto 10.
  - intros H. destruct (H eq_refl) as ((a & Ha) & (x & u & Hx & Hxb & Hu) & (p & Hp & Hpb) & (ct & Hct & Hcb) & (k & Hk & Hkb)).
    rewrite (proj2 (parse_addr_ok _ _ a)) by done. cbn [mbind res_bind].
    rewrite (proj2 (nonblank_some (tf_uuid t) x)), (proj2 (nonblank_some (tf_password t) p)),
      (proj2 (nonblank_some (tf_certificate t) ct)), (proj2 (nonblank_some (tf_private_key t) k)) by done.
    rewrite !ok_or_some. cbn [mbind res_bind]. rewrite (proj2 (parse_uuid_ok _ x u)) by done. cbn. eauto.
Qed.

(** ** The whole configuration *)

Definition config_ok (c : Config) : Prop :=
  server_ok (c_server c)
  /\ protocols_ok c
  /\ ~ (tl_enabled (tr_tls (c_transport c)) = true /\ rl_enabled (tr_reality (c_transport c)) = true)
  /\ xhttp_ok (tr_xhttp (c_transport c))
  /\ awg_ok c
  /\ hysteria2_ok (tr_hysteria2 (c_transport c))
  /\ tuic_ok (tr_tuic (c_transport c))
  /\ outbound_tls_ok (ob_tls (c_outbound c))
  /\ (tl_enabled (tr_tls (c_transport c)) = true -> tls_ok (tr_tls (c_transport c)))
  /\ (rl_enabled (tr_reality (c_transport c)) = true -> reality_ok (tr_reality (c_transport c)))
  /\ (ac_enabled (c_api c) = true -> api_ok (c_api c))
  /\ (mc_enabled (c_metrics c) = true -> metrics_ok (c_metrics c)).

Lemma when_ok (b : bool) (m : res anyhow unit) (P : Prop) :
  (m = Ok tt <-> P) -> (if b then m else Ok tt) = Ok tt <-> (b = true -> P).
Proof. intros <-. destruct b; naive_solver. Qed.

Lemma tls_section_ok c :
  (_ ← validate_tls host c; _ ← tls_server_config c; Ok tt) = @Ok anyhow _ tt <-> tls_ok (tr_tls (c_transport c)).
Proof.
  rewrite then_ok, validate_tls_ok. split; [by intros [? _]|]. intros H. split; [done|].
  destruct (tls_server_config_ok c H) as (kex & ->). done.
Qed.

Lemma reality_section_ok c :
  (_ ← validate_reality host c; _ ← reality_server_config host c; Ok tt) = @Ok anyhow _ tt
  <-> reality_ok (tr_reality (c_transport c)).
Proof.
  rewrite then_ok, validate_reality_ok, bind_ok.
  assert (Hi : reality_ok (tr_reality (c_transport c)) <-> reality_checked (tr_reality (c_transport c))
    /\ impersonate_ok (rl_impersonate_cert (tr_reality (c_transport c)))).
  { unfold reality_checked, reality_ok. cbn. split; [|tauto]. intros (? & ? & ? & ? & ? & ? & ?). by split_and!. }
  rewrite Hi. split; intros [Hc H]; (split; [done|]); destruct (reality_server_config_ok c Hc) as (_ & Hx & _).
  - destruct H as (cfg & Hcfg & _). apply Hx. by exists cfg.
  - destruct (proj2 Hx H) as (cfg & ->). by exists cfg.
Qed.

Lemma validate_ok c : validate host c = Ok tt <-> config_ok c.
Proof.
  unfold validate, config_ok. rewrite !then_ok, validate_server_ok, validate_protocols_ok, bail_if_ok, validate_xhttp_ok,
    validate_awg_ok, validate_hysteria2_ok, validate_tuic_ok, validate_outbound_tls_ok.
  rewrite (when_ok _ _ _ (tls_section_ok c)), (when_ok _ _ _ (reality_section_ok c)), (when_ok _ _ _ (validate_api_ok c)),
    (when_ok _ _ _ (validate_metrics_ok c)).
  by rewrite <- andb_true_iff, not_true_iff_false.
Qed.

Lemma tls_server_config_calm c : tls_server_config c <> Panic.
Proof. unfold tls_server_config. calm. Qed.

Lemma validate_xhttp_calm c : validate_xhttp c <> Panic.
Proof. unfold validate_xhttp. calm. Qed.
Lemma validate_hysteria2_calm c : validate_hysteria2 c <> Panic.
Proof. unfold validate_hysteria2, hysteria2_server_config. calm. Qed.
Lemma validate_tuic_calm c : validate_tuic c <> Panic.
Proof. unfold validate_tuic, tuic_server_config. calm. Qed.
Lemma validate_outbound_tls_calm c : validate_outbound_tls host c <> Panic.
Proof. unfold validate_outbound_tls. calm. Qed.
Lemma validate_tls_calm c : validate_tls host c <> Panic.
Proof. unfold validate_tls. calm. Qed.
Lemma validate_api_calm c : validate_api host c <> Panic.
Proof. unfold validate_api. calm. Qed.
Lemma validate_metrics_calm c : validate_metrics c <> Panic.
Proof. unfold validate_metrics. calm. Qed.
#[local] Hint Resolve validate_server_calm validate_protocols_calm validate_awg_calm validate_reality_calm
  tls_server_config_calm validate_xhttp_calm validate_hysteria2_calm validate_tuic_calm validate_outbound_tls_calm
  validate_tls_calm validate_api_calm validate_metrics_calm : calm.

#[local] Opaque reality_server_config.

Lemma validate_calm c : validate host c <> Panic.
Proof.
  unfold validate. calm.
  match goal with H : validate_reality host c = Ok ?u |- _ => destruct u; apply validate_reality_ok in H as Hc end.
  apply (reality_server_config_ok c Hc).
Qed.
End Spec.

(** ** Properties *)

