(* ===== verification/OutboundTls.v ===== *)
(** * The TLS client configuration of outbound connections
    Models [TlsOutboundTransport::new], [with_policy] and [build_root_store] of
    crates/skadi-transport/src/tls_client.rs: which certificate authorities an
    outbound TLS connection trusts, which certificate it shows, and when building the
    configuration is refused. Reading the system's store and checking a single
    certificate are rustls', parameters. *)

From Stdlib Require Import Ascii String.
From stdpp Require Import base list list_numbers numbers strings gmap.
From S2P Require Import Prelude Core Io Connect Tls Config ConfigSpec.

Record TrustEnv := {
  (** [load_native_certs]; its errors are only logged *)
  native_certs : list bytes;
  (** why [RootCertStore::add] refuses a certificate *)
  root_add : bytes -> option string;
  (** why the provider of a key-exchange mode refuses the default protocol versions *)
  client_versions : TlsKexMode -> option string;
  (** why a chain and a key are no client certificate *)
  client_auth_cert : list bytes -> bytes -> option string
}.

(** What the rustls configuration holds of ours. *)
Record RustlsClientConfig := {
  rc_kex_mode : TlsKexMode;
  rc_roots : list bytes;
  rc_client_auth : option (list bytes * bytes);
  rc_alpn : list bytes
}.

Section OutboundTls.
Context {CertifiedKey : Type} (pem : PemFiles CertifiedKey) (te : TrustEnv).

(** A certificate of the system that cannot be added is skipped ... *)
Fixpoint add_system (certs roots : list bytes) : list bytes :=
  match certs with
  | [] => roots
  | cert :: certs =>
    match root_add te cert with
    | Some _ => add_system certs roots
    | None => add_system certs (roots ++ [cert])
    end
  end.

(** ... one of the CA file is an error. *)
Fixpoint add_ca_file (path : string) (certs roots : list bytes) : res anyhow (list bytes) :=
  match certs with
  | [] => Ok roots
  | cert :: certs =>
    match root_add te cert with
    | Some e => Err (Anyhow [("invalid CA certificate in " +:+ path); e])
    | None => add_ca_file path certs (roots ++ [cert])
    end
  end.

Definition build_root_store (ca_file : option string) : res anyhow (list bytes) :=
  let roots := match ca_file with None => add_system (native_certs te) [] | Some _ => [] end in
  roots ← match ca_file with
          | Some path => certs ← load_certs pem path; add_ca_file path certs roots
          | None => Ok roots
          end;
  if (length roots =? 0)%nat
  then Err (bail "no trust anchors for outbound TLS (set outbound.tls.ca_file or use system roots)")
  else Ok roots.

Definition client_auth_of (client_cert client_key : option string) : res anyhow (option (list bytes * bytes)) :=
  match client_cert, client_key with
  | Some cert, Some key =>
    chain ← load_certs pem cert;
    key ← load_private_key pem key;
    match client_auth_cert te chain key with
    | Some e => Err (Anyhow ["invalid outbound TLS client certificate"; e]%string)
    | None => Ok (Some (chain, key))
    end
  | None, None => Ok None
  | _, _ => Err (bail "outbound.tls.cert and outbound.tls.key must both be set")
  end.

Definition tls_outbound_with_policy (connect_timeout : Z) (config : TlsClientConfig) (allow_private : bool)
    : res anyhow (TlsOutboundTransport * RustlsClientConfig) :=
  roots ← build_root_store (cc_ca_file config);
  match client_versions te (cc_kex_mode config) with
  | Some e => Err (Anyhow ["unsupported TLS protocol versions"; e]%string)
  | None =>
    client_auth ← client_auth_of (cc_client_cert config) (cc_client_key config);
    Ok ({| tls_tcp := tcp_with_policy connect_timeout allow_private |},
        {| rc_kex_mode := cc_kex_mode config; rc_roots := roots; rc_client_auth := client_auth;
           rc_alpn := if cc_alpn_http1_only config then [bytes_of_string "http/1.1"] else [] |})
  end.

Definition tls_outbound_new (connect_timeout : Z) (config : TlsClientConfig) :=
  tls_outbound_with_policy connect_timeout config true.

(** [OutboundTcpTransport::tls_with_policy] and [tls] of outbound.rs. *)
Definition outbound_tls_with_policy (connect_timeout : Z) (config : TlsClientConfig) (allow_private : bool)
    : res anyhow OutboundTcpTransport :=
  tls ← tls_outbound_with_policy connect_timeout config allow_private;
  Ok (OutTls tls.1).

Definition outbound_tls (connect_timeout : Z) (config : TlsClientConfig) : res anyhow OutboundTcpTransport :=
  outbound_tls_with_policy connect_timeout config true.

(** ** Specification *)

(** The authorities a configuration names. *)
Definition trusts (ca_file : option string) (cert : bytes) : Prop :=
  match ca_file with
  | None => cert ∈ native_certs te /\ root_add te cert = None
  | Some path => exists certs, pem_certs pem path = inr (inr certs) /\ cert ∈ certs
  end.

Definition roots_usable (ca_file : option string) : Prop :=
  match ca_file with
  | None => exists cert, cert ∈ native_certs te /\ root_add te cert = None
  | Some path => exists certs, pem_certs pem path = inr (inr certs) /\ certs <> [] /\ Forall (fun c => root_add te c = None) certs
  end.

Definition client_auth_usable (client_cert client_key : option string) : Prop :=
  match client_cert, client_key with
  | Some cert, Some key =>
    exists chain k, pem_certs pem cert = inr (inr chain) /\ chain <> [] /\ pem_private_key pem key = inr k
      /\ client_auth_cert te chain k = None
  | None, None => True
  | _, _ => False
  end.

Definition outbound_tls_usable (config : TlsClientConfig) : Prop :=
  roots_usable (cc_ca_file config) /\ client_versions te (cc_kex_mode config) = None
  /\ client_auth_usable (cc_client_cert config) (cc_client_key config).

(** ** Lemmas *)

Lemma load_certs_iff path certs : load_certs pem path = Ok certs <-> pem_certs pem path = inr (inr certs) /\ certs <> [].
Proof. unfold load_certs. destruct (pem_certs pem path) as [e|[e|[|c cs]]]; naive_solver. Qed.

Lemma load_private_key_iff path key : load_private_key pem path = Ok key <-> pem_private_key pem path = inr key.
Proof. unfold load_private_key. destruct (pem_private_key pem path); naive_solver. Qed.

Lemma add_system_elem cert certs : forall roots,
  cert ∈ add_system certs roots <-> cert ∈ roots \/ (cert ∈ certs /\ root_add te cert = None).
Proof.
  induction certs as [|c certs IH]; intros roots; cbn [add_system]; [set_solver|].
  destruct (root_add te c) eqn:Hc; rewrite IH; set_solver.
Qed.

Lemma add_ca_file_iff path certs : forall roots roots',
  add_ca_file path certs roots = Ok roots' <-> Forall (fun c => root_add te c = None) certs /\ roots' = roots ++ certs.
Proof.
  induction certs as [|c certs IH]; intros roots roots'; cbn [add_ca_file]; [rewrite app_nil_r; naive_solver|].
  rewrite Forall_cons. destruct (root_add te c); [naive_solver|]. rewrite IH, <- app_assoc. naive_solver.
Qed.

Lemma root_store_spec ca_file roots :
  build_root_store ca_file = Ok roots ->
  roots <> [] /\ roots_usable ca_file /\ (forall cert, cert ∈ roots <-> trusts ca_file cert).
Proof.
  unfold build_root_store, roots_usable, trusts. destruct ca_file as [path|].
  - destruct (load_certs pem path) as [certs|e|] eqn:Hl; [|done..]. cbn [mbind res_bind].
    apply load_certs_iff in Hl as [Hp Hne]. destruct (add_ca_file path certs []) as [rs| |] eqn:Ha; [|done..].
    apply add_ca_file_iff in Ha as [Hall ->]. cbn [mbind res_bind app]. destruct certs; [done|]. intros [= <-].
    rewrite Hp. naive_solver.
  - cbn [mbind res_bind]. destruct (add_system (native_certs te) []) as [|c cs] eqn:Ha; [done|]. intros [= <-].
    assert (Hc : forall cert, cert ∈ c :: cs <-> cert ∈ native_certs te /\ root_add te cert = None).
    { intros cert. rewrite <- Ha, add_system_elem. set_solver. }
    split_and!; [done| |exact Hc]. exists c. apply Hc. by left.
Qed.

Lemma root_store_usable ca_file : roots_usable ca_file -> exists roots, build_root_store ca_file = Ok roots.
Proof.
  unfold build_root_store, roots_usable. destruct ca_file as [path|].
  - intros (certs & Hp & Hne & Hall). rewrite (proj2 (load_certs_iff path certs)) by done. cbn [mbind res_bind].
    rewrite (proj2 (add_ca_file_iff path certs [] certs)) by done. cbn [mbind res_bind]. destruct certs; [done|by eexists].
  - intros (cert & Hin & Hok). cbn [mbind res_bind].
    assert (Hc : cert ∈ add_system (native_certs te) []) by (apply add_system_elem; by right).
    destruct (add_system _ _); [by apply elem_of_nil in Hc|by eexists].
Qed.

Lemma client_auth_iff client_cert client_key :
  (exists auth, client_auth_of client_cert client_key = Ok auth) <-> client_auth_usable client_cert client_key.
Proof.
  unfold client_auth_of, client_auth_usable. destruct client_cert as [cert|], client_key as [key|]; [|naive_solver..].
  split.
  - intros (auth & H). destruct (load_certs pem cert) as [chain| |] eqn:Hl; [|done..]. cbn [mbind res_bind] in H.
    destruct (load_private_key pem key) as [k| |] eqn:Hk; [|done..]. cbn [mbind res_bind] in H.
    apply load_certs_iff in Hl as []. apply load_private_key_iff in Hk. exists chain, k. by destruct (client_auth_cert te chain k).
  - intros (chain & k & Hp & Hne & Hk & Ha). rewrite (proj2 (load_certs_iff cert chain)) by done. cbn [mbind res_bind].
    rewrite (proj2 (load_private_key_iff key k)) by done. cbn [mbind res_bind]. rewrite Ha. by eexists.
Qed.

Lemma client_auth_some client_cert client_key auth :
  client_auth_of client_cert client_key = Ok auth -> is_some auth = is_some client_cert.
Proof.
  unfold client_auth_of. destruct client_cert as [cert|], client_key as [key|]; [|done..|by intros [= <-]].
  destruct (load_certs pem cert) as [chain| |]; [|done..]. cbn [mbind res_bind].
  destruct (load_private_key pem key) as [k| |]; [|done..]. cbn [mbind res_bind].
  destruct (client_auth_cert te chain k); [done|]. by intros [= <-].
Qed.

Lemma tls_outbound_iff timeout config allow_private :
  (exists r, tls_outbound_with_policy timeout config allow_private = Ok r) <-> outbound_tls_usable config.
Proof.
  unfold tls_outbound_with_policy, outbound_tls_usable. rewrite <- client_auth_iff. split.
  - intros (r & H). destruct (build_root_store _) as [roots| |] eqn:Hr; [|done..]. cbn [mbind res_bind] in H.
    apply root_store_spec in Hr as (_ & Hu & _). destruct (client_versions _ _); [done|].
    destruct (client_auth_of _ _) as [auth| |]; [|done..]. split_and!; [done|done|by exists auth].
  - intros (Hu & Hv & auth & Ha). apply root_store_usable in Hu as (roots & ->). cbn [mbind res_bind].
    rewrite Hv, Ha. cbn [mbind res_bind]. by eexists.
Qed.

Lemma tls_outbound_calm timeout config allow_private : tls_outbound_with_policy timeout config allow_private <> Panic.
Proof.
  assert (Hl : forall p, load_certs pem p <> Panic) by (intros p; unfold load_certs; by destruct (pem_certs pem p) as [|[|[]]]).
  assert (Hk : forall p, load_private_key pem p <> Panic) by (intros p; unfold load_private_key; by destruct (pem_private_key pem p)).
  assert (Ha : forall p cs rs, add_ca_file p cs rs <> Panic).
  { intros p cs. induction cs as [|c cs IH]; intros rs; cbn; [done|]. by destruct (root_add te c). }
  unfold tls_outbound_with_policy, build_root_store, client_auth_of. calm.
Qed.

Lemma outbound_tls_calm timeout config allow_private : outbound_tls_with_policy timeout config allow_private <> Panic.
Proof. unfold outbound_tls_with_policy. pose proof (tls_outbound_calm timeout config allow_private). calm. Qed.

Lemma outbound_tls_built timeout config allow_private :
  outbound_tls_usable config ->
  outbound_tls_with_policy timeout config allow_private = Ok (OutTls {| tls_tcp := tcp_with_policy timeout allow_private |}).
Proof.
  intros Hu. unfold outbound_tls_with_policy. destruct (proj2 (tls_outbound_iff timeout config allow_private) Hu) as ([t rc] & H).
  rewrite H. unfold tls_outbound_with_policy in H. destruct (build_root_store _); [|done..]. cbn [mbind res_bind] in H.
  destruct (client_versions _ _); [done|]. destruct (client_auth_of _ _); [|done..]. by injection H as <- <-.
Qed.
End OutboundTls.

(** ** Properties *)

(** C34: whom an outbound TLS connection trusts. Building the transport succeeds exactly
    when there is an authority to trust (with a CA file: the file has certificates,
    all of them valid; without: the system has one that is valid), the protocol
    versions are supported, and a client certificate is configured with both of its
    files or not at all; it never panics. The connection then trusts exactly the
    certificates of the CA file, the system's being left out, or without one exactly
    the valid certificates of the system; it shows a client certificate exactly when
    one is configured, and keeps the policy on private addresses. *)
Theorem outbound_tls_trust_exact {CertifiedKey : Type} (pem : PemFiles CertifiedKey) (te : TrustEnv)
    (timeout : Z) (config : TlsClientConfig) (allow_private : bool) :
  ((exists r, tls_outbound_with_policy pem te timeout config allow_private = Ok r) <-> outbound_tls_usable pem te config)
  /\ tls_outbound_with_policy pem te timeout config allow_private <> Panic
  /\ (forall t rc, tls_outbound_with_policy pem te timeout config allow_private = Ok (t, rc) ->
      rc_roots rc <> [] /\ (forall cert, cert ∈ rc_roots rc <-> trusts pem te (cc_ca_file config) cert)
      /\ is_some (rc_client_auth rc) = is_some (cc_client_cert config)
      /\ t = {| tls_tcp := tcp_with_policy timeout allow_private |}).
Proof.
  split_and!; [apply tls_outbound_iff|apply tls_outbound_calm|]. intros t rc. unfold tls_outbound_with_policy.
  destruct (build_root_store _ _ _) as [roots| |] eqn:Hr; [|done..]. cbn [mbind res_bind]. destruct (client_versions _ _); [done|].
  destruct (client_auth_of _ _ _ _) as [auth| |] eqn:Ha; [|done..]. intros [= <- <-].
  apply root_store_spec in Hr as (Hne & _ & Ht). apply client_auth_some in Ha. by split_and!.
Qed.

(** ** Witnesses *)

(** A system with one good certificate and one that is refused. *)
Definition demo_trust : TrustEnv :=
  {| native_certs := [[1]; [2]; [3]];
     root_add cert := if bool_decide (cert = [2]) then Some "bad"%string else None;
     client_versions _ := None; client_auth_cert _ _ := None |}.

Definition demo_tls_client (ca_file : option string) : TlsClientConfig :=
  {| cc_ca_file := ca_file; cc_client_cert := None; cc_client_key := None; cc_kex_mode := Classic; cc_alpn_http1_only := false |}.

Lemma outbound_tls_trust_exact_witness :
  (exists t rc, tls_outbound_with_policy demo_pem demo_trust 5 (demo_tls_client None) false = Ok (t, rc)
     /\ rc_roots rc = [[1]; [3]] /\ [2] ∉ rc_roots rc)
  /\ outbound_tls_usable demo_pem demo_trust (demo_tls_client (Some "ca"%string)).
Proof.
  split.
  - destruct (outbound_tls_trust_exact demo_pem demo_trust 5 (demo_tls_client None) false) as (_ & _ & H).
    eexists _, _. split_and!; [vm_compute; reflexivity|reflexivity|].
    destruct (H {| tls_tcp := tcp_with_policy 5 false |}
      {| rc_kex_mode := Classic; rc_roots := [[1]; [3]]; rc_client_auth := None; rc_alpn := [] |}) as (_ & Hc & _); [vm_compute; reflexivity|].
    intros [_ Hr]%Hc. discriminate Hr.
  - apply (outbound_tls_trust_exact demo_pem demo_trust 5 (demo_tls_client (Some "ca"%string)) false).
    eexists. vm_compute. reflexivity.
Defined.
