(* ===== verification/Startup.v ===== *)
(** * Starting the server
    Models [run_server_with_store] and [bind_listeners] of
    crates/skadi-server/src/lib.rs up to the accept loops: how a loaded configuration
    becomes the parts of a running server. Sockets, rustls and the metrics recorder
    are parameters; the tasks themselves are the subject of the other files. *)

From Stdlib Require Import Ascii String.
From stdpp Require Import base list list_numbers numbers strings pretty gmap.
From S2P Require Import Prelude Core Io NetText Tls.
From S2P Require Import Socks5 VlessConfig Store AuthRate Gate.
From S2P Require Import Connect Relay Reality Xhttp External Config ConfigSpec OutboundTls.

Section Start.
Context {CertifiedKey : Type}.

(** What the start asks of the outside; [None] is success where only an error is
    of interest. *)
Record StartEnv := {
  host : ConfigHost;
  tcp_bind : SocketAddr -> option io_error;
  trust : TrustEnv;
  pem : PemFiles CertifiedKey;
  tls_versions : option string;
  dest_connect : string -> option io_error;
  dest_name_ok : string -> bool;
  dest_handshake : string -> string -> anyhow + option bytes;
  debug_error : string -> string;
  install_recorder : option anyhow
}.

Record UdpTransport := { udp_connect_timeout : Z; udp_allow_private : bool }.

Inductive InboundTransport :=
| InboundPlain
| InboundTls (t : TlsTransport CertifiedKey)
| InboundReality (t : RealityTransport) (impersonate_cert : option bytes).

Record RunningServer := {
  ru_listeners : list SocketAddr;
  ru_outbound_tcp : OutboundTcpTransport;
  ru_outbound_udp : UdpTransport;
  ru_auth_rate_limiter : option (LimiterInner * states_mutex);
  ru_relay_limits : RelayLimits;
  ru_connection_gate : ConnectionGate;
  ru_inbound : InboundTransport;
  ru_enabled_protocols : EnabledProtocols;
  ru_xhttp_inbound : option XhttpConfig;
  ru_api : bool;
  ru_metrics : bool;
  ru_awg : option (AwgServerConfig * AwgNatConfig);
  ru_hysteria2 : option Hysteria2ServerConfig;
  ru_tuic : option TuicServerConfig;
  ru_accept_loops : list SocketAddr
}.

Context (env : StartEnv).

Definition bind_one (addr_str : string) : res anyhow SocketAddr :=
  addr ← parse_addr ("invalid listen address: " +:+ addr_str) addr_str;
  match tcp_bind env addr with
  | Some e => Err (add_context ("failed to bind " +:+ addr_str) (anyhow_of_io e))
  | None => Ok addr
  end.

Definition bind_listeners (l : ListenAddrs) : res anyhow (list SocketAddr) := collect bind_one (addrs l).

(** [parse_host_port] of impersonate.rs. *)
Definition dest_host_port (dest : string) : res anyhow (string * Z) :=
  match rsplit_once ":"%char dest with
  | Some (h, port_str) =>
    if bool_decide (h = EmptyString) then Err (bail ("dest must be host:port, got " +:+ dest)) else
    match parse_uint (2 ^ 16) port_str with
    | Some port => Ok (h, port)
    | None => Err (bail ("invalid dest port in " +:+ dest))
    end
  | None => Err (bail ("dest must be host:port, got " +:+ dest))
  end.

(** The leaf certificate that `dest` shows in a handshake whose verifier accepts
    anything and keeps what it is shown. *)
Definition fetch_impersonate_cert_from_dest (dest : string) : res anyhow bytes :=
  hp ← dest_host_port dest;
  let '(h, port) := hp in
  let addr := h +:+ ":" +:+ fmt_dec (Z.to_nat port) in
  match dest_connect env addr with
  | Some e => Err (add_context ("cannot connect to dest " +:+ addr +:+ " for impersonate cert fetch") (anyhow_of_io e))
  | None =>
    if negb (dest_name_ok env h) then Err (bail ("invalid dest host for TLS SNI: " +:+ h)) else
    match dest_handshake env addr h with
    | inl e => Err (add_context "TLS handshake to dest failed while fetching impersonate cert" e)
    | inr None => Err (bail "dest TLS handshake did not provide a leaf certificate")
    | inr (Some cert) => Ok cert
    end
  end.

(** The certificate template: the configured one, else the one fetched when asked
    for; a failed fetch is only logged. *)
Definition impersonate_cert (config : Config) (cfg : RealityServerConfig) : option bytes :=
  match rs_impersonate_cert cfg with
  | Some cert => Some cert
  | None =>
    if rl_fetch_impersonate_cert (tr_reality (c_transport config)) then
      match fetch_impersonate_cert_from_dest (rs_dest cfg) with
      | Ok cert => Some cert
      | _ => None
      end
    else None
  end.

Definition start_inbound (config : Config) : res anyhow InboundTransport :=
  if rl_enabled (tr_reality (c_transport config)) then
    cfg ← reality_server_config (host env) config;
    t ← reality_new (debug_error env) (rs_private_key cfg) (rs_dest cfg) (rs_server_names cfg)
          (rs_short_ids cfg) {| idle := rs_idle_timeout cfg; max_lifetime := rs_max_session_lifetime cfg |};
    Ok (InboundReality t (impersonate_cert config cfg))
  else if tl_enabled (tr_tls (c_transport config)) then
    cfg ← tls_server_config config;
    t ← tls_new (pem env) (tls_versions env) cfg;
    Ok (InboundTls t)
  else Ok InboundPlain.

(** [if enabled { Some(config()?) } else { None }]. *)
Definition when {A} (enabled : bool) (m : res anyhow A) : res anyhow (option A) :=
  if enabled then a ← m; Ok (Some a) else Ok None.

Definition start (config : Config) : res anyhow RunningServer :=
  listeners ← bind_listeners (sv_listen (c_server config));
  outbound_tcp ← outbound_tcp_transport (outbound_tls_with_policy (pem env) (trust env)) config;
  inbound ← start_inbound config;
  xhttp_inbound ← when (xf_enabled (tr_xhttp (c_transport config))) (xhttp_config config);
  _ ← (if mc_enabled (c_metrics config)
       then match install_recorder env with Some e => Err e | None => Ok tt end
       else Ok tt);
  awg ← when (af_enabled (tr_awg (c_transport config))) (awg_server_config config);
  hysteria2 ← when (hf_enabled (tr_hysteria2 (c_transport config))) (hysteria2_server_config config);
  tuic ← when (tf_enabled (tr_tuic (c_transport config))) (tuic_server_config config);
  let enabled := enabled_protocols config in
  let proxy_enabled := ep_socks5 enabled || ep_vless enabled in
  Ok {| ru_listeners := listeners;
        ru_outbound_tcp := outbound_tcp;
        ru_outbound_udp := {| udp_connect_timeout := connect_timeout config;
                              udp_allow_private := allow_private_outbound config |};
        ru_auth_rate_limiter := from_config (sv_auth_rate_limit (c_server config));
        ru_relay_limits := {| idle := idle_timeout config; max_lifetime := max_session_lifetime config |};
        ru_connection_gate := gate_new (max_connections config);
        ru_inbound := inbound;
        ru_enabled_protocols := enabled;
        ru_xhttp_inbound := xhttp_inbound;
        ru_api := ac_enabled (c_api config);
        ru_metrics := mc_enabled (c_metrics config);
        ru_awg := match awg with Some a => Some (a, awg_nat_config config) | None => None end;
        ru_hysteria2 := hysteria2;
        ru_tuic := tuic;
        ru_accept_loops := if proxy_enabled then listeners else [] |}.
End Start.
Arguments StartEnv : clear implicits.
Arguments RunningServer : clear implicits.
Arguments InboundTransport : clear implicits.

(** ** Parts that always start *)

Section Facts.
Context {CertifiedKey : Type}.
Context (env : StartEnv CertifiedKey).

Lemma load_certified_key_calm (pem : PemFiles CertifiedKey) paths : load_certified_key pem paths <> Panic.
Proof. unfold load_certified_key, load_certs, load_private_key. calm. Qed.

Lemma insert_names_calm (ck : CertifiedKey) names m : insert_names ck names m <> Panic.
Proof.
  revert m. induction names as [|n names IH]; intros m; [done|]. cbn [insert_names]. unfold normalize_server_name. calm.
Qed.

Lemma insert_entries_calm (pem : PemFiles CertifiedKey) entries m : insert_entries pem entries m <> Panic.
Proof.
  pose proof (load_certified_key_calm pem). pose proof insert_names_calm.
  revert m. induction entries as [|e entries IH]; intros m; [done|]. cbn [insert_entries]. calm.
Qed.

Lemma tls_new_calm (pem : PemFiles CertifiedKey) versions cfg : tls_new pem versions cfg <> Panic.
Proof.
  pose proof (load_certified_key_calm pem). pose proof (insert_entries_calm pem). unfold tls_new, build_resolver. calm.
Qed.

Lemma reality_new_calm v key dest names ids limits : reality_new v key dest names ids limits <> Panic.
Proof. unfold reality_new. calm. Qed.

Lemma xhttp_config_calm c : xhttp_config c <> Panic.
Proof. unfold xhttp_config. calm. Qed.

Lemma when_calm {A} b (m : res anyhow A) : m <> Panic -> when b m <> Panic.
Proof. unfold when. intros. calm. Qed.

Lemma reality_ok_checked h c : reality_ok h c -> reality_checked h c.
Proof. unfold reality_checked, reality_ok. cbn. intros (? & ? & ? & ? & ? & ? & ?). by split_and!. Qed.

Lemma outbound_calm h c : outbound_tls_ok h (ob_tls (c_outbound c)) -> outbound_tcp_transport (outbound_tls_with_policy (pem env) (trust env)) c <> Panic.
Proof.
  unfold outbound_tcp_transport, outbound_tls_client_config, outbound_tls_ok. destruct (ot_enabled _); [|done].
  intros H. destruct (H eq_refl) as (_ & _ & _ & _ & Hk). apply (kex_ok _ "outbound.tls.kex_mode") in Hk as (k & ->).
  apply outbound_tls_calm.
Qed.

Lemma inbound_calm c :
  (rl_enabled (tr_reality (c_transport c)) = true -> reality_ok (host env) (tr_reality (c_transport c))) ->
  start_inbound env c <> Panic.
Proof.
  unfold start_inbound. pose proof tls_server_config_calm. pose proof (tls_new_calm (pem env)). pose proof reality_new_calm.
  destruct (rl_enabled _); intros Hr; [|calm].
  destruct (reality_server_config_ok (host env) c) as (Hp & _); [by apply reality_ok_checked, Hr|].
  apply bind_calm; [done|]. intros cfg _. calm.
Qed.

Lemma start_no_panic c : validate (host env) c = Ok tt -> start env c <> Panic.
Proof.
  intros (_ & _ & _ & _ & _ & _ & _ & Ho & _ & Hr & _)%validate_ok.
  pose proof (outbound_calm _ c Ho). pose proof (inbound_calm c Hr). unfold start, bind_listeners, bind_one.
  pose proof awg_server_config_calm. pose proof xhttp_config_calm.
  assert (hysteria2_server_config c <> Panic) by (unfold hysteria2_server_config; pose proof hysteria2_addr_calm; calm).
  assert (tuic_server_config c <> Panic) by (unfold tuic_server_config; calm).
  repeat (apply bind_calm; [first [by apply when_calm|calm]|intros ? _]). done.
Qed.

(** ** An environment in which nothing fails *)

Record env_fine : Prop := {
  fine_bind : forall a, tcp_bind env a = None;
  fine_trust : (exists cert, cert ∈ native_certs (trust env)) /\ (forall cert, root_add (trust env) cert = None)
    /\ (forall kex, client_versions (trust env) kex = None) /\ (forall chain key, client_auth_cert (trust env) chain key = None);
  fine_pem : forall paths, exists ck, load_certified_key (pem env) paths = Ok ck;
  fine_versions : tls_versions env = None;
  fine_recorder : install_recorder env = None
}.

(** No certificate is configured for an IP address. *)
Definition names_no_ip (c : TlsConfig) : Prop :=
  Forall (fun e => Forall (fun n => parse_ip_addr (trim n) = false) (se_server_names e)) (tl_certificates c).

Lemma bind_all l sas :
  env_fine -> Forall2 (fun s a => parse_socket_addr s = Some a) l sas -> collect (bind_one env) l = Ok sas.
Proof.
  intros Hf Hp. apply collect_ok. eapply Forall2_impl; [exact Hp|]. intros s a Ha. unfold bind_one.
  rewrite (proj2 (parse_addr_ok _ s a) Ha). cbn [mbind res_bind]. by rewrite (fine_bind Hf).
Qed.

(** A file that holds a key pair holds certificates and a key. *)
Lemma fine_files paths : env_fine ->
  exists certs key, pem_certs (pem env) (cert_path paths) = inr (inr certs) /\ certs <> []
    /\ pem_private_key (pem env) (key_path paths) = inr key.
Proof.
  intros Hf. destruct (fine_pem Hf paths) as (ck & H). unfold load_certified_key in H.
  destruct (load_certs _ _) as [certs| |] eqn:Hl; [|done..]. cbn [mbind res_bind] in H.
  destruct (load_private_key _ _) as [key| |] eqn:Hk; [|done..].
  apply load_certs_iff in Hl as []. apply load_private_key_iff in Hk. by exists certs, key.
Qed.

Lemma fine_tls_client cfg : env_fine -> is_some (cc_client_cert cfg) = is_some (cc_client_key cfg) ->
  outbound_tls_usable (pem env) (trust env) cfg.
Proof.
  intros Hf Hpair. destruct (fine_trust Hf) as ((cert & Hin) & Hadd & Hver & Hauth).
  split_and!; [|apply Hver|].
  - unfold roots_usable. destruct (cc_ca_file cfg) as [path|]; [|by exists cert].
    destruct (fine_files {| cert_path := path; key_path := path |} Hf) as (certs & _ & Hc & Hne & _).
    exists certs. split_and!; [done..|]. by apply Forall_true.
  - unfold client_auth_usable. destruct (cc_client_cert cfg) as [c|], (cc_client_key cfg) as [k|]; try done.
    destruct (fine_files {| cert_path := c; key_path := k |} Hf) as (certs & key & Hc & Hne & Hk). by exists certs, key.
Qed.

Lemma outbound_starts h c :
  env_fine -> outbound_tls_ok h (ob_tls (c_outbound c)) -> exists t, outbound_tcp_transport (outbound_tls_with_policy (pem env) (trust env)) c = Ok t.
Proof.
  intros Hf. unfold outbound_tcp_transport, outbound_tls_client_config, outbound_tls_ok. destruct (ot_enabled _); [|by eexists].
  intros H. destruct (H eq_refl) as (Hpair & _ & _ & _ & Hk). apply (kex_ok _ "outbound.tls.kex_mode") in Hk as (k & ->).
  eexists. apply outbound_tls_built. by apply fine_tls_client.
Qed.

Lemma trim_lower_empty n : normalized n <> EmptyString -> trim n <> EmptyString.
Proof. unfold normalized. intros H E. by rewrite E in H. Qed.

Lemma tls_starts h c :
  env_fine -> tls_ok h (tr_tls (c_transport c)) -> names_no_ip (tr_tls (c_transport c)) ->
  exists cfg t, tls_server_config c = Ok cfg /\ tls_new (pem env) (tls_versions env) cfg = Ok t.
Proof.
  intros Hf Ht Hip. destruct (tls_server_config_ok h c Ht) as (kex & Hc).
  match type of Hc with _ = Ok ?x => exists x end. rewrite Hc.
  destruct Ht as (He & Hne & _ & _ & _ & Hent & Hnb & Hd). set (tls := tr_tls _) in *.
  set (sni := map _ (tl_certificates tls)).
  assert (Hn : all_names sni = entry_names (tl_certificates tls)).
  { unfold all_names, entry_names, sni. by rewrite map_map. }
  assert (Hins : exists m, insert_entries (pem env) sni ∅ = Ok m).
  { apply insert_entries_complete; [|by rewrite Hn|by intros; rewrite lookup_empty]. unfold sni.
    apply Forall_forall. intros e He'. apply list_elem_of_In, in_map_iff in He' as (e0 & <- & He0). cbn.
    unfold names_no_ip in Hip. rewrite Forall_forall in Hent, Hip. apply list_elem_of_In in He0.
    split_and!; [apply (Hent e0 He0)| |apply (fine_pem Hf)]. apply Forall_forall. intros n Hn'. split.
    - apply trim_lower_empty. rewrite Forall_forall in Hnb. apply Hnb. unfold entry_names.
      rewrite list_elem_of_In, in_concat. exists (map normalized (se_server_names e0)).
      apply list_elem_of_In in Hn', He0. split; [by apply in_map_iff; exists e0|by apply in_map].
    - specialize (Hip e0 He0). rewrite Forall_forall in Hip. by apply Hip. }
  destruct Hins as (m & Hm). unfold tls_new, build_resolver. cbn [tls_default tls_sni_certs].
  destruct (tl_cert tls), (tl_key tls); cbn [is_some] in He; [|done..|].
  - destruct (fine_pem Hf {| cert_path := s; key_path := s0 |}) as (ck & Hck).
    rewrite Hck. cbn [mbind res_bind]. rewrite Hm. cbn. rewrite (fine_versions Hf). by eexists.
  - destruct sni as [|x xs] eqn:Hsni; [by destruct (tl_certificates tls); [destruct (Hne eq_refl)|]|].
    cbn [mbind res_bind]. rewrite Hm. cbn. rewrite (fine_versions Hf). by eexists.
Qed.

Lemma reality_starts c :
  env_fine -> reality_ok (host env) (tr_reality (c_transport c)) ->
  exists cfg t, reality_server_config (host env) c = Ok cfg
    /\ reality_new (debug_error env) (rs_private_key cfg) (rs_dest cfg) (rs_server_names cfg)
         (rs_short_ids cfg) {| idle := rs_idle_timeout cfg; max_lifetime := rs_max_session_lifetime cfg |} = Ok t.
Proof.
  intros Hf Hr. destruct (reality_server_config_ok _ c (reality_ok_checked _ _ Hr)) as (_ & Hex & Hb).
  destruct Hr as (_ & _ & _ & _ & _ & _ & Hi). destruct (proj2 Hex Hi) as (cfg & Hcfg).
  destruct (Hb cfg Hcfg) as (Hk & _ & _ & Hne & Hids & _). exists cfg. unfold reality_new.
  assert (existsb (fun id : bytes => (length id =? 0)%nat || (8 <? length id)%nat) (rs_short_ids cfg) = false) as ->.
  { apply not_true_iff_false. intros (id & Hin & Hb')%existsb_exists. apply list_elem_of_In in Hin.
    rewrite Forall_forall in Hids. specialize (Hids id Hin).
    apply orb_true_iff in Hb' as [H%Nat.eqb_eq|H%Nat.ltb_lt]; lia. }
  rewrite (proj2 (nonempty_ok _) Hne). unfold reality_validate. cbn [rc_private_key]. rewrite Hk. cbn [Nat.eqb negb]. eauto.
Qed.

Definition inbound_matches (c : Config) (t : InboundTransport CertifiedKey) : Prop :=
  match t with
  | InboundReality _ _ => rl_enabled (tr_reality (c_transport c)) = true
  | InboundTls _ => tl_enabled (tr_tls (c_transport c)) = true
  | InboundPlain => rl_enabled (tr_reality (c_transport c)) = false /\ tl_enabled (tr_tls (c_transport c)) = false
  end.

Lemma inbound_starts c :
  env_fine -> names_no_ip (tr_tls (c_transport c)) ->
  (tl_enabled (tr_tls (c_transport c)) = true -> tls_ok (host env) (tr_tls (c_transport c))) ->
  (rl_enabled (tr_reality (c_transport c)) = true -> reality_ok (host env) (tr_reality (c_transport c))) ->
  exists t, start_inbound env c = Ok t /\ inbound_matches c t.
Proof.
  intros Hf Hip Ht Hr. unfold start_inbound, inbound_matches. destruct (rl_enabled _).
  - destruct (reality_starts c Hf (Hr eq_refl)) as (cfg & t & -> & Hn). cbn [mbind res_bind]. rewrite Hn. by eexists.
  - destruct (tl_enabled _); [|by eexists].
    destruct (tls_starts _ c Hf (Ht eq_refl) Hip) as (cfg & t & -> & Hn). cbn [mbind res_bind]. rewrite Hn. by eexists.
Qed.

Lemma when_starts {A} b (m : res anyhow A) : (b = true -> exists a, m = Ok a) -> exists o, when b m = Ok o.
Proof. unfold when. destruct b; [|by eexists]. intros H. destruct (H eq_refl) as (a & ->). by eexists. Qed.

Lemma xhttp_starts c : xhttp_ok (tr_xhttp (c_transport c)) -> xf_enabled (tr_xhttp (c_transport c)) = true ->
  exists cfg, xhttp_config c = Ok cfg.
Proof.
  unfold xhttp_ok, xhttp_config. set (x := tr_xhttp _). intros H He. destruct (H He) as (_ & Hm & Hp).
  apply mode_parse_ok, is_some_true in Hm as (m & ->). cbn [ok_or mbind res_bind].
  destruct (xf_x_padding_bytes x) as [[lo hi]|]; [|by eexists]. specialize (Hp lo hi eq_refl).
  destruct (lo <=? hi) eqn:E; bool_hyps; [by eexists|lia].
Qed.

Lemma cores_start c :
  awg_ok (host env) c -> hysteria2_ok (tr_hysteria2 (c_transport c)) -> tuic_ok (tr_tuic (c_transport c)) ->
  (af_enabled (tr_awg (c_transport c)) = true -> exists a, awg_server_config c = Ok a)
  /\ (hf_enabled (tr_hysteria2 (c_transport c)) = true -> exists a, hysteria2_server_config c = Ok a)
  /\ (tf_enabled (tr_tuic (c_transport c)) = true -> exists a, tuic_server_config c = Ok a).
Proof.
  intros Ha Hh Ht. split_and!; intros He.
  - apply awg_server_config_ok. destruct (Ha He) as (? & ? & ? & ? & ? & _). by split_and!.
  - apply validate_hysteria2_ok in Hh. unfold validate_hysteria2 in Hh. rewrite He in Hh.
    apply bind_ok in Hh as (a & Hx & _). by exists a.
  - apply validate_tuic_ok in Ht. unfold validate_tuic in Ht. rewrite He in Ht.
    apply bind_ok in Ht as (a & Hx & _). by exists a.
Qed.

Lemma positive_secs_pos o d : positive_secs o = Some d -> 0 < d.
Proof.
  unfold positive_secs, from_secs. destruct o as [n|]; [|done]. destruct (0 <? n) eqn:E; bool_hyps; [|done].
  intros [= <-]. unfold NANOS. lia.
Qed.
End Facts.

(** ** Properties *)

(** C11: a configuration that was accepted starts. In every environment the start of a
    validated configuration ends without a panic (the unwraps and the [expect] behind
    it are never reached). If addresses can be bound, files loaded, and no TLS entry
    names an IP address, it ends with a server: it listens on exactly the configured
    addresses, runs an accept loop on each of them when a proxy protocol is enabled,
    serves REALITY or TLS exactly when enabled, and has positive limits. *)
Theorem validated_config_starts {CertifiedKey : Type} (env : StartEnv CertifiedKey) (c : Config)
    (Hv : validate (host env) c = Ok tt) :
  start env c <> Panic
  /\ (env_fine env -> names_no_ip (tr_tls (c_transport c)) ->
      exists r, start env c = Ok r
        /\ Forall2 (fun s a => parse_socket_addr s = Some a) (addrs (sv_listen (c_server c))) (ru_listeners r)
        /\ NoDup (ru_listeners r) /\ ru_listeners r <> []
        /\ (ru_accept_loops r = ru_listeners r <-> 1 <= ep_count (ru_enabled_protocols r))
        /\ inbound_matches c (ru_inbound r)
        /\ (forall d, idle (ru_relay_limits r) = Some d \/ max_lifetime (ru_relay_limits r) = Some d -> 0 < d)
        /\ (forall n, max (ru_connection_gate r) = Some n -> 0 < n)).
Proof.
  split; [by apply start_no_panic|]. intros Hf Hip.
  apply validate_ok in Hv as ((Hl & _) & _ & _ & Hx & Ha & Hh & Ht & Ho & Htls & Hre & _).
  destruct Hl as (Hne & sas & Hsas & Hd). destruct (outbound_starts env _ c Hf Ho) as (out & Hout).
  destruct (inbound_starts env c Hf Hip Htls Hre) as (inb & Hin & Hm). destruct (cores_start env c Ha Hh Ht) as (Ka & Kh & Kt).
  destruct (when_starts _ _ (xhttp_starts c Hx)) as (x & Hx'). destruct (when_starts _ _ Ka) as (a & Ha').
  destruct (when_starts _ _ Kh) as (h & Hh'). destruct (when_starts _ _ Kt) as (t & Ht').
  unfold start, bind_listeners. rewrite (bind_all env _ _ Hf Hsas). cbn [mbind res_bind]. rewrite Hout. cbn [mbind res_bind].
  rewrite Hin. cbn [mbind res_bind]. rewrite Hx'. cbn [mbind res_bind]. rewrite (fine_recorder _ Hf).
  replace (if mc_enabled (c_metrics c) then @Ok anyhow _ tt else Ok tt) with (@Ok anyhow _ tt) by (by destruct (mc_enabled _)).
  cbn [mbind res_bind]. rewrite Ha'. cbn [mbind res_bind]. rewrite Hh'. cbn [mbind res_bind]. rewrite Ht'. cbn [mbind res_bind].
  eexists. split; [reflexivity|]. cbn [ru_listeners ru_accept_loops ru_enabled_protocols ru_inbound ru_relay_limits ru_connection_gate].
  assert (Hs : sas <> []) by (destruct sas; [by inversion Hsas|done]).
  split_and!; [done..| |done| |].
  - unfold ep_count. destruct (ep_socks5 _), (ep_vless _); cbn; split; intros; try lia; congruence.
  - intros d [H|H]; by apply positive_secs_pos in H.
  - unfold gate_new, max_connections. cbn. intros n. destruct (sv_max_connections _) as [k|]; [|done].
    destruct (0 <? k) eqn:E; bool_hyps; naive_solver.
Qed.

(** the check lets a name through that the start refuses. A configuration with
    an IP address among the names of a TLS entry can pass every check, but in no
    environment does the server start with it. *)
Theorem ip_server_name_never_starts {CertifiedKey : Type} (env : StartEnv CertifiedKey) (c : Config)
    (e : TlsSniCertConfig) (n : string) (r : RunningServer CertifiedKey)
    (Hv : validate (host env) c = Ok tt) (Htls : tl_enabled (tr_tls (c_transport c)) = true)
    (He : e ∈ tl_certificates (tr_tls (c_transport c))) (Hn : n ∈ se_server_names e)
    (Hip : parse_ip_addr (trim n) = true) :
  start env c <> Ok r.
Proof.
  intros Hs. unfold start in Hs. apply bind_ok in Hs as (ls & _ & Hs). apply bind_ok in Hs as (out & _ & Hs).
  apply bind_ok in Hs as (inb & Hin & _). unfold start_inbound in Hin.
  apply validate_ok in Hv as (_ & _ & Hnot & _). rewrite Htls in Hnot, Hin.
  destruct (rl_enabled (tr_reality (c_transport c))); [tauto|]. apply bind_ok in Hin as (cfg & Hcfg & Hin).
  apply bind_ok in Hin as (t & Ht & _). unfold tls_new in Ht. apply bind_ok in Ht as (res & Hres & _).
  assert (Hsni : exists m, insert_entries (pem env) (tls_sni_certs cfg) ∅ = Ok m).
  { unfold build_resolver in Hres. destruct (tls_default cfg).
    - apply bind_ok in Hres as (d & _ & Hres). apply bind_ok in Hres as (m & Hm & _). by exists m.
    - destruct (tls_sni_certs cfg); [done|]. apply bind_ok in Hres as (d & _ & Hres).
      apply bind_ok in Hres as (m & Hm & _). by exists m. }
  destruct Hsni as (m & Hm). apply insert_entries_usable in Hm. unfold tls_server_config in Hcfg.
  apply bind_ok in Hcfg as (d & _ & Hcfg). apply then_ok in Hcfg as [_ Hcfg]. apply bind_ok in Hcfg as (k & _ & [= <-]).
  cbn [tls_sni_certs] in Hm. rewrite Forall_forall in Hm. specialize (Hm {| sc_server_names := se_server_names e;
    sc_cert_path := se_cert e; sc_key_path := se_key e |}). rewrite Forall_forall in Hm.
  destruct (Hm (proj2 (list_elem_of_In _ _) (in_map _ _ _ (proj1 (list_elem_of_In _ _) He))) n Hn) as [_ H]. congruence.
Qed.

(** ** Witnesses *)

Definition demo_wg : WgCrates :=
  {| private_key_of k := inr k; public_key_of k := inr k; preshared_key_of k := inr k; ipnet_of n := Some n;
     amnezia_check _ _ := None; interface_text _ _ _ _ _ _ _ _ := "conf" |}.

(** A host where every file can be read and base64 and hex are identities. *)
Definition demo_host : ConfigHost :=
  {| is_file _ := true; open_file _ := None; read_file _ := inl "none"%string; read_to_string _ := inl "none"%string;
     pem_slice _ := inr []; base64_decode s := inr (bytes_of_string s); hex_decode s := inr (bytes_of_string s);
     wg_public_of k := k; wg := demo_wg |}.

Definition fine_system : TrustEnv :=
  {| native_certs := [[1]]; root_add _ := None; client_versions _ := None; client_auth_cert _ _ := None |}.

Definition demo_env : StartEnv bytes :=
  {| host := demo_host; tcp_bind _ := None; trust := fine_system; pem := demo_pem; tls_versions := None;
     dest_connect _ := None; dest_name_ok _ := true; dest_handshake _ _ := inr (Some [1]); debug_error e := e;
     install_recorder := None |}.

Lemma demo_env_fine : env_fine demo_env.
Proof. constructor; try done; [|intros paths; by eexists]. split_and!; try done. exists [1]. by left. Qed.

Definition demo_config (name : string) : Config :=
  {| c_server := {| sv_listen := {| addrs := ["0.0.0.0:443"; "[::]:443"] |}; sv_timeouts := timeouts_default;
                    sv_max_connections := Some 100; sv_auth_rate_limit := auth_rate_limit_default |};
     c_protocol := {| pc_socks5 := socks5_config_default;
                      pc_vless := {| vc_enabled := true;
                                     vc_users := [{| vu_id := "00112233-4455-6677-8899-aabbccddeeff"; vu_email := None;
                                                     vu_flow := None |}] |} |};
     c_transport := {| tr_tls := {| tl_enabled := true; tl_cert := None; tl_key := None; tl_alpn := [];
                                    tl_certificates := [{| se_server_names := [name]; se_cert := "c"; se_key := "k" |}];
                                    tl_kex_mode := "hybrid_pq" |};
                       tr_reality := reality_config_default; tr_xhttp := xhttp_file_default; tr_awg := awg_file_default;
                       tr_hysteria2 := hysteria2_file_default; tr_tuic := tuic_file_default |};
     c_api := {| ac_enabled := true; ac_listen := default_api_listen; ac_token := Some {| secret_inner := "t" |};
                 ac_tls := {| at_enabled := false; at_cert := None; at_key := None |}; ac_rate_limit_per_sec := Some 5;
                 ac_audit_log := true |};
     c_metrics := metrics_config_default;
     c_outbound := {| ob_tls := outbound_tls_default; ob_allow_private := false |} |}.

Lemma validated_config_starts_witness :
  exists r, start demo_env (demo_config "example.com") = Ok r /\ NoDup (ru_listeners r).
Proof.
  destruct (proj2 (validated_config_starts demo_env (demo_config "example.com") ltac:(vm_compute; reflexivity)))
    as (r & Hr & _ & Hd & _).
  - exact demo_env_fine.
  - repeat constructor.
  - exists r. split; [exact Hr|exact Hd].
Defined.

Lemma ip_server_name_never_starts_witness :
  validate (host demo_env) (demo_config "192.0.2.1") = Ok tt
  /\ forall r, start demo_env (demo_config "192.0.2.1") <> Ok r.
Proof.
  split; [vm_compute; reflexivity|]. intros r.
  apply (ip_server_name_never_starts demo_env (demo_config "192.0.2.1")
    {| se_server_names := ["192.0.2.1"%string]; se_cert := "c"; se_key := "k" |} "192.0.2.1"%string r).
  - vm_compute. reflexivity.
  - reflexivity.
  - left.
  - left.
  - vm_compute. reflexivity.
Defined.
