(* ===== verification/Lifecycle.v ===== *)
(** * The life of the server process
    Models [run], [check_config], [spawn_sighup_reload] and
    [warn_missing_ipv6_dual_stack] of crates/skadi-server/src/lib.rs and the start of
    the management API in api/mod.rs: what the process does between its start and the
    signal that ends it. The user store is shared by the connections, the API and the
    reload; the server itself was built once, at the start. *)

From Stdlib Require Import Ascii String.
From stdpp Require Import base list list_numbers numbers strings pretty gmap.
From S2P Require Import Prelude Core Io NetText Tls.
From S2P Require Import Socks5 VlessParse VlessConfig Vless Inbound ApiRate Store Api AuthRate Gate Server.
From S2P Require Import Connect Relay Reality Xhttp External Config ConfigSpec Startup.

(** ** Starting the management API *)

(** The running API: its token, its limiter, and what its service keeps beside the
    shared store. *)
Record ApiTask := {
  at_token : string;
  at_limiter : option ApiRateLimiter;
  at_audit : bool;
  at_log : list audit_record
}.

(** [build_server_tls_config]; tonic reads the PEM only when it is given the pair. *)
Definition build_server_tls_config (files : ConfigHost) (tls : ApiTlsConfig) : res anyhow (bytes * bytes) :=
  match at_cert tls, at_key tls with
  | Some cert_path, Some key_path =>
    match read_file files cert_path with
    | inl e => Err (Anyhow [("cannot read api.tls.cert: " +:+ cert_path); e])
    | inr cert =>
      match read_file files key_path with
      | inl e => Err (Anyhow [("cannot read api.tls.key: " +:+ key_path); e])
      | inr key => Ok (cert, key)
      end
    end
  | _, _ => Panic
  end.

(** [run_api_server] up to the serving; [tonic] is what the transport makes of the
    identity and of the address. *)
Definition run_api_server (files : ConfigHost) (tonic : option (bytes * bytes) -> SocketAddr -> option anyhow)
    (config : ApiConfig) (now : Z) : res anyhow ApiTask :=
  listen ← parse_addr ("invalid api.listen: " +:+ ac_listen config) (ac_listen config);
  match ac_token config with
  | None => Panic
  | Some token =>
    identity ← (if at_enabled (ac_tls config)
                then p ← build_server_tls_config files (ac_tls config); Ok (Some p)
                else Ok None);
    match tonic identity listen with
    | Some e => Err e
    | None => Ok {| at_token := secret_inner token; at_limiter := api_limiter_new (ac_rate_limit_per_sec config) now;
                    at_audit := ac_audit_log config; at_log := [] |}
    end
  end.

(** ** Warnings at the start *)

Definition is_ipv6 (a : SocketAddr) : bool := match a with SockV6 _ _ _ _ => true | SockV4 _ _ => false end.

(** The ports that are reported. *)
Definition warn_missing_ipv6_dual_stack (l : ListenAddrs) : list Z :=
  omap (fun addr_str =>
    match parse_socket_addr addr_str with
    | None => None
    | Some addr =>
      if negb (ip_is_unspecified (sock_ip addr)) || is_ipv6 addr then None else
      let has_v6 := existsb (fun other =>
        match parse_socket_addr other with
        | Some s => is_ipv6 s && ip_is_unspecified (sock_ip s) && (sock_port s =? sock_port addr)
        | None => false
        end) (addrs l) in
      if has_v6 then None else Some (sock_port addr)
    end) (addrs l).

(** ** The process *)

Section Process.
Context {CertifiedKey : Type}.
Context (toml : string -> string + Config) (config_path : string).

(** [check-config]: the lines it prints, or the error it ends with. *)
Definition check_config (files : ConfigHost) : res anyhow (list string) :=
  config ← load files toml config_path;
  Ok (check_summary config config_path).

(** [pr_server] is what the task of [run_server_with_store] made of its start: the
    running server, or the error that its handle holds. [pr_reload] is false once
    the reload task has panicked. *)
Record process := {
  pr_server : res anyhow (RunningServer CertifiedKey);
  pr_store : StoreState;
  pr_api : option ApiTask;
  pr_reload : bool
}.

Definition with_users (p : process) (s : StoreState) : process :=
  {| pr_server := pr_server p; pr_store := s; pr_api := pr_api p; pr_reload := pr_reload p |}.

Definition run (env : StartEnv CertifiedKey) (tonic : option (bytes * bytes) -> SocketAddr -> option anyhow)
    (config : Config) (now : Z) : process :=
  let server := Startup.start env config in
  {| pr_server := server;
     pr_store := from_protocol (c_protocol config);
     pr_api := match server with
               | Ok r => if ru_api r then match run_api_server (host env) tonic (c_api config) now with
                                          | Ok t => Some t
                                          | _ => None
                                          end
                         else None
               | _ => None
               end;
     pr_reload := true |}.

(** What happens to the process: SIGHUP, with the files as they are then; a call of
    the API; SIGTERM or Ctrl+C. *)
Inductive process_event :=
| Hangup (files : ConfigHost)
| ApiCall (c : call) (now : Z)
| Terminate.

(** One round of the loop of [spawn_sighup_reload]. *)
Definition sighup_reload (files : ConfigHost) (p : process) : process :=
  if pr_reload p then
    match load files toml config_path with
    | Ok config => with_users p (reload_from_protocol (pr_store p) (c_protocol config))
    | Err _ => p
    | Panic => {| pr_server := pr_server p; pr_store := pr_store p; pr_api := pr_api p; pr_reload := false |}
    end
  else p.

Definition api_call (c : call) (now : Z) (p : process) : process :=
  match pr_api p with
  | None => p
  | Some t =>
    let '(_, limiter, svc) :=
      serve (at_token t) (at_limiter t) {| store := pr_store p; audit_log := at_audit t; log := at_log t |} c now in
    {| pr_server := pr_server p; pr_store := store svc;
       pr_api := Some {| at_token := at_token t; at_limiter := limiter; at_audit := at_audit t; at_log := log svc |};
       pr_reload := pr_reload p |}
  end.

(** [run] waits for the signal only; then it tells the tasks and returns [Ok(())],
    whatever the server's task ended with. *)
Definition process_step (p : process) (ev : process_event) : process + res anyhow unit :=
  match ev with
  | Hangup files => inl (sighup_reload files p)
  | ApiCall c now => inl (api_call c now p)
  | Terminate => inr (Ok tt)
  end.

Fixpoint process_run (p : process) (evs : list process_event) : process + res anyhow unit :=
  match evs with
  | [] => inl p
  | ev :: evs =>
    match process_step p ev with
    | inl p => process_run p evs
    | inr r => inr r
    end
  end.

(** A connection of the running server: it reads the store when it is served, and
    the protocols that were enabled at the start. Without a server, or without an
    accept loop, there is none. *)
Definition serve_connection `{ConstantTimeEq} (p : process) (env : conn_env) (inbound : inbound_transport)
    (xhttp : option xhttp_result) (peer : SocketAddr) : option (conn_io unit) :=
  match pr_server p with
  | Ok r =>
    match ru_accept_loops r with
    | [] => None
    | _ => Some (run_session env inbound xhttp (pr_store p) (ru_enabled_protocols r) peer)
    end
  | _ => None
  end.

(** ** Lemmas *)

Lemma load_calm files : load files toml config_path <> Panic.
Proof.
  unfold load. destruct (read_to_string files config_path) as [e|raw]; [done|]. destruct (toml raw) as [e|config]; [done|].
  apply bind_calm; [apply validate_calm|done].
Qed.

Lemma process_run_app evs : forall p evs',
  process_run p (evs ++ evs') = match process_run p evs with inl p => process_run p evs' | inr r => inr r end.
Proof.
  induction evs as [|ev evs IH]; intros p evs'; [done|]. cbn [app process_run]. destruct (process_step p ev); [apply IH|done].
Qed.

Lemma api_call_keeps c now p :
  pr_server (api_call c now p) = pr_server p /\ pr_reload (api_call c now p) = pr_reload p
  /\ (pr_api p = None -> api_call c now p = p).
Proof. unfold api_call. destruct (pr_api p); [|done]. destruct (serve _ _ _ _ _) as [[r l] svc]. done. Qed.

Lemma sighup_keeps files p :
  pr_server (sighup_reload files p) = pr_server p /\ pr_api (sighup_reload files p) = pr_api p
  /\ pr_reload (sighup_reload files p) = pr_reload p.
Proof.
  unfold sighup_reload. destruct (pr_reload p) eqn:Hr; [|done]. pose proof (load_calm files).
  by destruct (load files toml config_path).
Qed.

(** What the process keeps as long as it lives. *)
Lemma process_run_keeps evs : forall p p', process_run p evs = inl p' ->
  pr_server p' = pr_server p /\ pr_reload p' = pr_reload p /\ (pr_api p = None -> pr_api p' = None)
  /\ Terminate ∉ evs.
Proof.
  induction evs as [|ev evs IH]; intros p p'; cbn [process_run]; [intros [= <-]; split_and!; [done..|by apply not_elem_of_nil]|].
  destruct ev as [files|c now|]; cbn [process_step]; [| |done]; intros (H1 & H2 & H3 & H4)%IH.
  - destruct (sighup_keeps files p) as (E1 & E2 & E3). rewrite H1, H2, E1, E3. rewrite E2 in H3.
    split_and!; [done..|]. by apply not_elem_of_cons.
  - destruct (api_call_keeps c now p) as (E1 & E2 & E3). rewrite H1, H2, E1, E2. split_and!; [done|done| |by apply not_elem_of_cons].
    intros Hn. apply H3. by rewrite (E3 Hn).
Qed.

Lemma process_run_ends evs : forall p r, process_run p evs = inr r -> Terminate ∈ evs /\ r = Ok tt.
Proof.
  induction evs as [|ev evs IH]; intros p r; cbn [process_run]; [done|].
  destruct ev as [files|c now|]; cbn [process_step].
  - intros [H ->]%IH. split; [by right|done].
  - intros [H ->]%IH. split; [by right|done].
  - intros [= <-]. split; [by left|done].
Qed.
End Process.
Arguments process : clear implicits.

(** The flags of a store, and of the protocol section. *)
Definition with_flags (vless socks : bool) (p : ProtocolConfig) : ProtocolConfig :=
  {| pc_socks5 := {| s5_enabled := socks; s5_auth := s5_auth (pc_socks5 p); s5_users := s5_users (pc_socks5 p);
                     s5_bind := s5_bind (pc_socks5 p); s5_udp_associate := s5_udp_associate (pc_socks5 p) |};
     pc_vless := {| vc_enabled := vless; vc_users := vc_users (pc_vless p) |} |}.

(** ** Properties *)

(** a reload applies a valid file and ignores an invalid one. Whatever happened
    before, a SIGHUP leaves the server, the API and the reload task as they are; with
    a file that loads the users are exactly those of a fresh start with that file,
    changes made through the API gone; with any other file nothing changes. *)
Theorem reload_applies_file {CertifiedKey : Type} (toml : string -> string + Config) (path : string)
    (env : StartEnv CertifiedKey) (tonic : option (bytes * bytes) -> SocketAddr -> option anyhow) (config : Config) (now : Z)
    (evs : list process_event) (files : ConfigHost) (p : process CertifiedKey)
    (Hrun : process_run toml path (run env tonic config now) evs = inl p) :
  exists p', process_run toml path (run env tonic config now) (evs ++ [Hangup files]) = inl p'
    /\ pr_server p' = Startup.start env config /\ pr_api p' = pr_api p
    /\ match load files toml path with
       | Ok c => validate files c = Ok tt /\ pr_store p' = from_protocol (c_protocol c)
       | Err _ => p' = p
       | Panic => False
       end.
Proof.
  exists (sighup_reload toml path files p). rewrite process_run_app, Hrun. split; [done|].
  destruct (process_run_keeps _ _ _ _ _ Hrun) as (Hs & Hr & _). destruct (sighup_keeps toml path files p) as (E1 & E2 & _).
  rewrite E1, E2. split_and!; [done|done|]. unfold sighup_reload. rewrite Hr. cbn [run pr_reload].
  pose proof (load_calm toml path files). destruct (load files toml path) as [c|e|] eqn:Hl; [|done..]. split; [|done].
  unfold load in Hl. destruct (read_to_string files path); [done|]. destruct (toml s) as [|c']; [done|].
  destruct (validate files c') as [[]|e|] eqn:Hv; [|done..]. by injection Hl as <-.
Qed.

(** a reload cannot switch a protocol on or off. Two files that differ only in the
    `enabled` flags of the protocols have the same effect: after either reload every
    connection is served in the same way, by the protocols enabled at the start. *)
Theorem reload_ignores_enabled_flags `{ConstantTimeEq} {CertifiedKey : Type} (toml : string -> string + Config)
    (path : string) (p p1 p2 : process CertifiedKey) (evs : list process_event) (files1 files2 : ConfigHost)
    (c1 c2 : Config) (vless socks : bool)
    (Hr : pr_reload p = true)
    (H1 : load files1 toml path = Ok c1) (H2 : load files2 toml path = Ok c2)
    (Hf : c_protocol c2 = with_flags vless socks (c_protocol c1))
    (R1 : process_run toml path p (evs ++ [Hangup files1]) = inl p1)
    (R2 : process_run toml path p (evs ++ [Hangup files2]) = inl p2) :
  serve_connection p1 = serve_connection p2.
Proof.
  rewrite process_run_app in R1, R2. destruct (process_run toml path p evs) as [q|r] eqn:Hq; [|done].
  destruct (process_run_keeps _ _ _ _ _ Hq) as (_ & Hr' & _). rewrite Hr in Hr'.
  cbn [process_run process_step] in R1, R2. unfold sighup_reload in R1, R2. rewrite Hr' in R1, R2.
  rewrite H1 in R1. rewrite H2, Hf in R2. injection R1 as <-. injection R2 as <-. reflexivity.
Qed.

(** a server that failed to start goes unnoticed. The process waits for a signal and
    then ends with success, whatever became of the server: when the start failed (an
    address in use, say) it stays up, serves no connection and no API call, and the
    error is never reported. *)
Theorem failed_start_unnoticed `{ConstantTimeEq} {CertifiedKey : Type} (toml : string -> string + Config) (path : string)
    (env : StartEnv CertifiedKey) (tonic : option (bytes * bytes) -> SocketAddr -> option anyhow) (config : Config) (now : Z)
    (e : anyhow) (evs : list process_event) (Hs : Startup.start env config = Err e) :
  match process_run toml path (run env tonic config now) evs with
  | inl p => (Terminate ∉ evs) /\ pr_api p = None
             /\ forall cenv inbound xhttp peer, serve_connection p cenv inbound xhttp peer = None
  | inr r => Terminate ∈ evs /\ r = Ok tt
  end.
Proof.
  destruct (process_run toml path (run env tonic config now) evs) as [p|r] eqn:Hrun.
  - destruct (process_run_keeps _ _ _ _ _ Hrun) as (E1 & _ & E3 & E4). split_and!; [done| |].
    + apply E3. cbn. by rewrite Hs.
    + intros cenv inbound xhttp peer. unfold serve_connection. rewrite E1. cbn. by rewrite Hs.
  - by apply process_run_ends in Hrun.
Qed.

(** a validated API section never panics at its start: the token and the
    certificate's paths that the code expects are there. *)
Theorem validated_api_starts (files : ConfigHost) (tonic : option (bytes * bytes) -> SocketAddr -> option anyhow)
    (c : Config) (now : Z) (Hv : validate files c = Ok tt) (He : ac_enabled (c_api c) = true) :
  run_api_server files tonic (c_api c) now <> Panic
  /\ exists token, ac_token (c_api c) = Some token
     /\ forall t, run_api_server files tonic (c_api c) now = Ok t -> at_token t = secret_inner token.
Proof.
  apply validate_ok in Hv as (_ & _ & _ & _ & _ & _ & _ & _ & _ & _ & Ha & _).
  destruct (Ha He) as ((a & Hp & _) & (token & Ht & _) & Htls & _).
  unfold run_api_server, parse_addr, build_server_tls_config. rewrite Hp, Ht. cbn [mbind res_bind].
  destruct (at_enabled (ac_tls (c_api c))).
  - destruct Htls as (cert & key & -> & -> & _). destruct (read_file files cert) as [e|b]; [naive_solver|].
    destruct (read_file files key) as [e|k]; [naive_solver|]. cbn [mbind res_bind].
    destruct (tonic _ _); split; [done| |done|]; exists token; (split; [done|]); intros t [= <-]; done.
  - cbn [mbind res_bind]. destruct (tonic _ _); split; [done| |done|]; exists token; (split; [done|]); intros t [= <-]; done.
Qed.

(** the dual-stack warning is exact: a port is reported exactly when the
    configuration listens on 0.0.0.0 with it and nowhere on [::] with it. *)
Theorem dual_stack_warning_exact (l : ListenAddrs) (port : Z) :
  port ∈ warn_missing_ipv6_dual_stack l <->
  (exists s ip, s ∈ addrs l /\ parse_socket_addr s = Some (SockV4 ip port) /\ ipv4_is_unspecified ip = true)
  /\ ~ (exists s o f sc, s ∈ addrs l /\ parse_socket_addr s = Some (SockV6 o port f sc) /\ ipv6_is_unspecified o = true).
Proof.
  unfold warn_missing_ipv6_dual_stack. rewrite list_elem_of_omap.
  assert (Hv6 : forall p, existsb (fun other => match parse_socket_addr other with
                | Some s => is_ipv6 s && ip_is_unspecified (sock_ip s) && (sock_port s =? p)
                | None => false
                end) (addrs l) = true
    <-> exists s o f sc, s ∈ addrs l /\ parse_socket_addr s = Some (SockV6 o p f sc) /\ ipv6_is_unspecified o = true).
  { intros p. rewrite existsb_exists. split.
    - intros (s & Hin%list_elem_of_In & Hs). destruct (parse_socket_addr s) as [[ip q|o q f sc]|] eqn:Hp; [done| |done].
      cbn in Hs. apply andb_true_iff in Hs as [Hs Hq%Z.eqb_eq]. subst q. by exists s, o, f, sc.
    - intros (s & o & f & sc & Hin%list_elem_of_In & Hp & Ho). exists s. split; [done|]. rewrite Hp. cbn. by rewrite Ho, Z.eqb_refl. }
  split.
  - intros (s & Hin & Hs). destruct (parse_socket_addr s) as [[ip q|o q f sc]|] eqn:Hp; [|cbn in Hs; by rewrite orb_true_r in Hs|done].
    cbn in Hs. destruct (ipv4_is_unspecified ip) eqn:Hu; [|done]. cbn in Hs.
    destruct (existsb _ (addrs l)) eqn:Hx; [done|]. injection Hs as ->. split; [by exists s, ip|].
    intros H%Hv6. congruence.
  - intros [(s & ip & Hin & Hp & Hu) Hn]. exists s. split; [done|]. rewrite Hp. cbn. rewrite Hu. cbn.
    destruct (existsb _ (addrs l)) eqn:Hx; [|done]. by apply Hv6 in Hx.
Qed.

(** ** Witnesses *)

(** The demonstration configuration, with its protocols switched on or off. *)
Definition demo_flags (vless socks : bool) : Config :=
  let c := demo_config "example.com" in
  {| c_server := c_server c; c_protocol := with_flags vless socks (c_protocol c); c_transport := c_transport c;
     c_api := c_api c; c_metrics := c_metrics c; c_outbound := c_outbound c |}.

Definition demo_toml (raw : string) : string + Config :=
  if bool_decide (raw = "on"%string) then inr (demo_flags true true)
  else if bool_decide (raw = "off"%string) then inr (demo_flags false true)
  else inl "expected a table"%string.

Definition demo_files (raw : string) : ConfigHost :=
  {| is_file := is_file demo_host; open_file := open_file demo_host; read_file := read_file demo_host;
     read_to_string _ := inr raw; pem_slice := pem_slice demo_host; base64_decode := base64_decode demo_host;
     hex_decode := hex_decode demo_host; wg_public_of := wg_public_of demo_host; wg := wg demo_host |}.

Definition demo_tonic (identity : option (bytes * bytes)) (listen : SocketAddr) : option anyhow := None.
Definition demo_process : process bytes := run demo_env demo_tonic (demo_config "example.com") 0.

Definition busy_env : StartEnv bytes :=
  {| host := demo_host; tcp_bind _ := Some {| io_kind := OtherKind; io_msg := "address in use" |};
     trust := fine_system; pem := demo_pem; tls_versions := None;
     dest_connect _ := None; dest_name_ok _ := true; dest_handshake _ _ := inr (Some [1]); debug_error e := e; install_recorder := None |}.

Lemma reload_applies_file_witness :
  exists p', process_run demo_toml "f" demo_process [Hangup (demo_files "x"); Hangup (demo_files "off")] = inl p'
    /\ pr_store p' = from_protocol (c_protocol (demo_flags false true)).
Proof.
  destruct (reload_applies_file demo_toml "f" demo_env demo_tonic (demo_config "example.com") 0 [Hangup (demo_files "x")]
    (demo_files "off") demo_process) as (p' & Hr & _ & _ & Hl).
  - vm_compute. reflexivity.
  - exists p'. split; [exact Hr|]. vm_compute in Hl. exact (proj2 Hl).
Defined.

Lemma reload_ignores_enabled_flags_witness :
  exists p1 p2, process_run demo_toml "f" demo_process [Hangup (demo_files "on")] = inl p1
    /\ process_run demo_toml "f" demo_process [Hangup (demo_files "off")] = inl p2
    /\ vless_enabled (pr_store p2) = false /\ serve_connection p1 = serve_connection p2.
Proof.
  exists (sighup_reload demo_toml "f" (demo_files "on") demo_process),
         (sighup_reload demo_toml "f" (demo_files "off") demo_process).
  split; [reflexivity|]. split; [reflexivity|]. split; [vm_compute; reflexivity|].
  apply (reload_ignores_enabled_flags demo_toml "f" demo_process _ _ [] (demo_files "on") (demo_files "off")
    (demo_flags true true) (demo_flags false true) false true).
  - reflexivity.
  - vm_compute. reflexivity.
  - vm_compute. reflexivity.
  - reflexivity.
  - reflexivity.
  - reflexivity.
Defined.

Lemma failed_start_unnoticed_witness :
  exists e p, Startup.start busy_env (demo_config "example.com") = Err e
    /\ process_run demo_toml "f" (run busy_env demo_tonic (demo_config "example.com") 0) [Hangup (demo_files "on")] = inl p
    /\ forall cenv inbound xhttp peer, serve_connection p cenv inbound xhttp peer = None.
Proof.
  destruct (Startup.start busy_env (demo_config "example.com")) as [r|e|] eqn:Hs;
    [vm_compute in Hs; discriminate Hs| |vm_compute in Hs; discriminate Hs].
  pose proof (failed_start_unnoticed demo_toml "f" busy_env demo_tonic (demo_config "example.com") 0 e
    [Hangup (demo_files "on")] Hs) as H.
  destruct (process_run demo_toml "f" (run busy_env demo_tonic (demo_config "example.com") 0) [Hangup (demo_files "on")])
    as [p|r] eqn:Hp; [|discriminate Hp].
  exists e, p. split; [reflexivity|]. split; [reflexivity|]. exact (proj2 (proj2 H)).
Defined.

Lemma validated_api_starts_witness :
  run_api_server demo_host demo_tonic (c_api (demo_config "example.com")) 0 <> Panic.
Proof.
  refine (proj1 (validated_api_starts demo_host demo_tonic (demo_config "example.com") 0 _ _)); vm_compute; reflexivity.
Defined.
