(* ===== verification/XhttpClient.v ===== *)
(** * XHTTP client
    Models crates/skadi-transport/src/xhttp/client.rs: the requests, the response
    headers, the chunked body in both directions and the packet-up writer. The
    connection below answers each poll as an explicit list says. *)

From Stdlib Require Import Ascii String.
From stdpp Require Import base list list_numbers numbers strings pretty gmap.
From S2P Require Import Prelude Core Io NetText Xhttp External.

Definition CRLF : bytes := [13; 10].
Definition crlf : string := string_of_bytes CRLF.

Inductive XhttpClientError :=
| Handshake (msg : string)
| BadStatus (status : Z)
| ClientIo (e : io_error).

Record XhttpClientConfig := {
  xcl_path : string;
  xcl_host : string;
  xcl_mode : XhttpMode;
  xcl_padding : PaddingRange
}.

Definition client_normalized_path (self : XhttpClientConfig) : string :=
  let path := split_first "?"%char (xcl_path self) in
  if bool_decide (path = EmptyString) || negb (starts_with_slash path)
  then "/" +:+ trim_start_matches "/"%char path else path.

Definition resolved_mode (self : XhttpClientConfig) : XhttpMode :=
  match xcl_mode self with Auto => StreamOne | other => other end.

(** ** Requests *)

(** [padding_header_line], given what the random generator answers. *)
Definition padding_header_line (padding : PaddingRange) (random : Z) : string :=
  let len := sample_len padding random in
  if len =? 0 then EmptyString
  else "X-Padding: " +:+ string_of_bytes (replicate (Z.to_nat len) 88) +:+ crlf.

Definition build_post_headers (path host : string) (padding : PaddingRange) (random : Z) (chunked : bool) : string :=
  "POST " +:+ path +:+ " HTTP/1.1" +:+ crlf +:+ "Host: " +:+ host +:+ crlf
  +:+ "Content-Type: application/grpc" +:+ crlf
  +:+ (if chunked then "Transfer-Encoding: chunked" +:+ crlf else EmptyString)
  +:+ padding_header_line padding random +:+ crlf.

Definition build_get_request (path host : string) (padding : PaddingRange) (random : Z) : string :=
  "GET " +:+ path +:+ " HTTP/1.1" +:+ crlf +:+ "Host: " +:+ host +:+ crlf
  +:+ padding_header_line padding random +:+ crlf.

Definition build_packet_headers (path host : string) (len : nat) (padding : PaddingRange) (random : Z) : string :=
  "POST " +:+ path +:+ " HTTP/1.1" +:+ crlf +:+ "Host: " +:+ host +:+ crlf
  +:+ "Content-Length: " +:+ fmt_dec len +:+ crlf +:+ padding_header_line padding random +:+ crlf.

(** [random_session_id] of 16 random bytes. *)
Definition session_id_of (random : bytes) : string := String.concat EmptyString (map fmt_02x random).

Definition session_path (path session : string) : string := path +:+ "/" +:+ session.
Definition packet_path (path session : string) (n : Z) : string :=
  path +:+ "/" +:+ session +:+ "/" +:+ fmt_dec (Z.to_nat n).

(** ** Response headers *)

Fixpoint find_seq (pat buf : bytes) : option nat :=
  if bool_decide (take (length pat) buf = pat) then Some O
  else match buf with
       | [] => None
       | _ :: buf => S <$> find_seq pat buf
       end.

Definition find_header_end (buf : bytes) : option nat :=
  p ← find_seq [13; 10; 13; 10] buf; Some (p + 4)%nat.

(** [split_whitespace]: a word ends where white space starts. *)
Definition starts_blank (s : bytes) : bool := (length (trim_start s) <? length s)%nat.

Fixpoint take_word (s : bytes) : bytes * bytes :=
  match s with
  | [] => ([], [])
  | b :: t => if starts_blank s then ([], s) else let '(w, r) := take_word t in (b :: w, r)
  end.

Fixpoint words (fuel : nat) (s : bytes) : list bytes :=
  match fuel with
  | O => []
  | S fuel =>
    match trim_start s with
    | [] => []
    | s => let '(w, r) := take_word s in w :: words fuel r
    end
  end.

Definition split_whitespace (s : string) : list string :=
  map string_of_bytes (words (String.length s) (bytes_of_string s)).

Definition parse_status_code (headers : bytes) : res XhttpClientError Z :=
  text ← from_utf8 headers (Handshake "HTTP status line is not UTF-8");
  let line := hd EmptyString (str_lines text) in
  match split_whitespace line !! 1%nat with
  | Some s => match parse_uint (2 ^ 16) s with
              | Some code => Ok code
              | None => Err (Handshake ("bad status line: " +:+ line))
              end
  | None => Err (Handshake ("bad status line: " +:+ line))
  end.

(** The loop of [read_http_headers]: [reads] is what the socket's reads of up to
    256 bytes give, an empty one at the end of the stream; [None] while it waits. *)
Fixpoint read_http_headers (buf : bytes) (reads : list (io_error + bytes))
    : option (res XhttpClientError (Z * bytes) * list (io_error + bytes)) :=
  match reads with
  | [] => None
  | inl e :: reads => Some (Err (ClientIo e), reads)
  | inr [] :: reads => Some (Err (Handshake "connection closed before HTTP headers"), reads)
  | inr tmp :: reads =>
    let buf := buf ++ tmp in
    match find_header_end buf with
    | Some pos => Some (status ← parse_status_code (take pos buf); Ok (status, drop pos buf), reads)
    | None =>
      if 64 * 1024 <? Z.of_nat (length buf) then Some (Err (Handshake "HTTP headers too large"), reads)
      else read_http_headers buf reads
    end
  end.

Definition read_status_ok (reads : list (io_error + bytes))
    : option (res XhttpClientError bytes * list (io_error + bytes)) :=
  match read_http_headers [] reads with
  | None => None
  | Some (r, reads) =>
    Some (p ← r; let '(status, leftover) := p in
          if negb (status =? 200) then Err (BadStatus status) else Ok leftover, reads)
  end.

(** ** Chunked body, writing *)

(** The connection's answers to writes, and what it has accepted. *)
Inductive write_answer := WriteOk (n : nat) | WriteErr (e : io_error) | WritePending.

Record writer := { wr_answers : list write_answer; wr_out : bytes }.

Record ChunkedEncoder := {
  ce_inner : writer;
  ce_pending : bytes;
  ce_pending_report : nat;
  ce_closing : bool;
  ce_closed : bool
}.

Definition encoder_new (inner : writer) : ChunkedEncoder :=
  {| ce_inner := inner; ce_pending := []; ce_pending_report := 0; ce_closing := false; ce_closed := false |}.

(** [poll_write_pending] on the connection's answers; a write accepts at most what
    it is given. *)
Fixpoint write_loop (answers : list write_answer) (pending out : bytes)
    : poll (res io_error unit) * (writer * bytes) :=
  match pending with
  | [] => (Ready (Ok tt), ({| wr_answers := answers; wr_out := out |}, []))
  | _ :: _ =>
    match answers with
    | [] => (NotReady, ({| wr_answers := []; wr_out := out |}, pending))
    | WritePending :: answers => (NotReady, ({| wr_answers := answers; wr_out := out |}, pending))
    | WriteErr e :: answers => (Ready (Err e), ({| wr_answers := answers; wr_out := out |}, pending))
    | WriteOk O :: answers =>
      (Ready (Err (IoError WriteZero "xhttp chunked write zero")), ({| wr_answers := answers; wr_out := out |}, pending))
    | WriteOk n :: answers => write_loop answers (drop n pending) (out ++ take n pending)
    end
  end.

Definition with_written (e : ChunkedEncoder) (p : writer * bytes) : ChunkedEncoder :=
  {| ce_inner := p.1; ce_pending := p.2; ce_pending_report := ce_pending_report e; ce_closing := ce_closing e;
     ce_closed := ce_closed e |}.

Definition poll_write_pending (e : ChunkedEncoder) : poll (res io_error unit) * ChunkedEncoder :=
  let '(r, p) := write_loop (wr_answers (ce_inner e)) (ce_pending e) (wr_out (ce_inner e)) in
  (r, with_written e p).

(** [{:x}]; sixteen digits are enough for a [usize]. *)
Fixpoint hex_text (digits : nat) (n : Z) : bytes :=
  match digits with
  | O => []
  | S digits => (if n <? 16 then [] else hex_text digits (n / 16)) ++ [Z.of_N (N_of_ascii (hex_digit (n mod 16)))]
  end.

Definition frame (buf : bytes) : bytes := hex_text 16 (Z.of_nat (length buf)) ++ CRLF ++ buf ++ CRLF.

Definition encoder_poll_write (e : ChunkedEncoder) (buf : bytes) : poll (res io_error nat) * ChunkedEncoder :=
  if ce_closed e || ce_closing e then (Ready (Err (IoError BrokenPipe "xhttp chunked writer closed")), e)
  else if (length buf =? 0)%nat then (Ready (Ok O), e)
  else
    let e := if (length (ce_pending e) =? 0)%nat
             then {| ce_inner := ce_inner e; ce_pending := frame buf; ce_pending_report := length buf;
                     ce_closing := ce_closing e; ce_closed := ce_closed e |}
             else e in
    match poll_write_pending e with
    | (Ready (Ok _), e) =>
      (Ready (Ok (ce_pending_report e)),
       {| ce_inner := ce_inner e; ce_pending := ce_pending e; ce_pending_report := 0; ce_closing := ce_closing e;
          ce_closed := ce_closed e |})
    | (Ready (Err x), e) => (Ready (Err x), e)
    | (Ready Panic, e) => (Ready Panic, e)
    | (NotReady, e) => (NotReady, e)
    end.

(** [inner] is what the connection answers to the flush or shutdown itself. *)
Definition encoder_poll_flush (e : ChunkedEncoder) (inner : poll (res io_error unit))
    : poll (res io_error unit) * ChunkedEncoder :=
  match poll_write_pending e with
  | (Ready (Ok _), e) => (inner, e)
  | other => other
  end.

Definition last_chunk : bytes := [48] ++ CRLF ++ CRLF.

Definition encoder_poll_shutdown (e : ChunkedEncoder) (inner : poll (res io_error unit))
    : poll (res io_error unit) * ChunkedEncoder :=
  if ce_closed e then (inner, e) else
  let closing :=
    if ce_closing e then (Ready (Ok tt), e)
    else match poll_write_pending e with
         | (Ready (Ok _), e) =>
           (Ready (Ok tt), {| ce_inner := ce_inner e; ce_pending := last_chunk; ce_pending_report := 0;
                              ce_closing := true; ce_closed := ce_closed e |})
         | other => other
         end in
  match closing with
  | (Ready (Ok _), e) =>
    match poll_write_pending e with
    | (Ready (Ok _), e) =>
      (inner, {| ce_inner := ce_inner e; ce_pending := ce_pending e; ce_pending_report := ce_pending_report e;
                 ce_closing := ce_closing e; ce_closed := true |})
    | other => other
    end
  | other => other
  end.

(** ** Chunked body, reading *)

(** The connection's answers to reads: the bytes still to come, and whether each
    poll gives up to that many (at least one, none only at the end), an error or
    nothing yet. *)
Inductive read_answer := ReadUpTo (n : nat) | ReadErr (e : io_error) | ReadPending.

#[export] Instance read_answer_eq_dec : EqDecision read_answer.
Proof. solve_decision. Defined.

Record reader := { rd_answers : list read_answer; rd_src : bytes }.

Definition inner_poll_read (r : reader) (capacity : nat) : poll (io_error + bytes) * reader :=
  match rd_answers r with
  | [] => (NotReady, r)
  | ReadPending :: answers => (NotReady, {| rd_answers := answers; rd_src := rd_src r |})
  | ReadErr e :: answers => (Ready (inl e), {| rd_answers := answers; rd_src := rd_src r |})
  | ReadUpTo n :: answers =>
    let k := Nat.min (S n) capacity in
    (Ready (inr (take k (rd_src r))), {| rd_answers := answers; rd_src := drop k (rd_src r) |})
  end.

Inductive ChunkState := SizeLine | Data | DataCrlf.

Record ChunkedDecoder := {
  cd_inner : reader;
  cd_leftover : bytes;
  cd_chunk_remaining : Z;
  cd_state : ChunkState;
  cd_eof : bool
}.

Definition decoder_new (inner : reader) (leftover : bytes) : ChunkedDecoder :=
  {| cd_inner := inner; cd_leftover := leftover; cd_chunk_remaining := 0; cd_state := SizeLine; cd_eof := false |}.

Definition invalid_data (msg : string) : io_error := IoError InvalidData msg.

(** [usize::from_str_radix(s, 16)]. *)
Fixpoint hex_value (acc : Z) (s : bytes) : res io_error Z :=
  match s with
  | [] => Ok acc
  | b :: s =>
    match digit_value 16 b with
    | None => Err (invalid_data "invalid digit found in string")
    | Some d =>
      if 2 ^ 64 <=? acc * 16 + d then Err (invalid_data "number too large to fit in target type")
      else hex_value (acc * 16 + d) s
    end
  end.

Definition from_str_radix_16 (s : bytes) : res io_error Z :=
  match s with
  | [] => Err (invalid_data "cannot parse integer from empty string")
  | [43] => Err (invalid_data "invalid digit found in string")
  | 43 :: s => hex_value 0 s
  | s => hex_value 0 s
  end.

(** The size a line announces; the position in the text of a UTF-8 error is left
    out. *)
Definition size_of_line (line : bytes) : res io_error Z :=
  line ← from_utf8 line (invalid_data "invalid utf-8 sequence");
  from_str_radix_16 (bytes_of_string (trim (split_first ";"%char line))).

Definition set_inner (d : ChunkedDecoder) (inner : reader) (leftover : bytes) (remaining : Z) (st : ChunkState)
    : ChunkedDecoder :=
  {| cd_inner := inner; cd_leftover := leftover; cd_chunk_remaining := remaining; cd_state := st; cd_eof := cd_eof d |}.

Definition set_eof (d : ChunkedDecoder) : ChunkedDecoder :=
  {| cd_inner := cd_inner d; cd_leftover := cd_leftover d; cd_chunk_remaining := cd_chunk_remaining d;
     cd_state := cd_state d; cd_eof := true |}.

(** [while self.leftover.len() < 2]: two reads are enough. *)
Fixpoint fill_crlf (fuel : nat) (d : ChunkedDecoder) : poll (res io_error unit) * ChunkedDecoder :=
  if (2 <=? length (cd_leftover d))%nat then (Ready (Ok tt), d) else
  match fuel with
  | O => (Ready Panic, d)
  | S fuel =>
    match inner_poll_read (cd_inner d) 2 with
    | (Ready (inr []), inner) =>
      (Ready (Err (IoError UnexpectedEof "eof after chunk")), set_inner d inner (cd_leftover d) (cd_chunk_remaining d) (cd_state d))
    | (Ready (inr got), inner) =>
      fill_crlf fuel (set_inner d inner (cd_leftover d ++ got) (cd_chunk_remaining d) (cd_state d))
    | (Ready (inl e), inner) => (Ready (Err e), set_inner d inner (cd_leftover d) (cd_chunk_remaining d) (cd_state d))
    | (NotReady, inner) => (NotReady, set_inner d inner (cd_leftover d) (cd_chunk_remaining d) (cd_state d))
    end
  end.

Definition min3 (a : Z) (b c : nat) : nat := Z.to_nat (Z.min a (Z.of_nat (Nat.min b c))).

(** The state [Data] with bytes still to come, into [remaining] bytes of room. *)
Definition read_data (d : ChunkedDecoder) (remaining : nat) : poll (res io_error bytes) * ChunkedDecoder :=
  let take_n := min3 (cd_chunk_remaining d) remaining (length (cd_leftover d)) in
  if (0 <? take_n)%nat then
    (Ready (Ok (take take_n (cd_leftover d))),
     set_inner d (cd_inner d) (drop take_n (cd_leftover d)) (cd_chunk_remaining d - Z.of_nat take_n) Data)
  else
    let want := min3 (cd_chunk_remaining d) remaining remaining in
    if (want =? 0)%nat then (Ready (Ok []), d) else
    match inner_poll_read (cd_inner d) want with
    | (Ready (inr []), inner) =>
      (Ready (Err (IoError UnexpectedEof "eof mid chunk")), set_inner d inner (cd_leftover d) (cd_chunk_remaining d) Data)
    | (Ready (inr got), inner) =>
      (Ready (Ok got), set_inner d inner (cd_leftover d) (cd_chunk_remaining d - Z.of_nat (length got)) Data)
    | (Ready (inl e), inner) => (Ready (Err e), set_inner d inner (cd_leftover d) (cd_chunk_remaining d) Data)
    | (NotReady, inner) => (NotReady, set_inner d inner (cd_leftover d) (cd_chunk_remaining d) Data)
    end.

Fixpoint decode_loop (fuel : nat) (d : ChunkedDecoder) (remaining : nat)
    : poll (res io_error bytes) * ChunkedDecoder :=
  match fuel with
  | O => (Ready Panic, d)
  | S fuel =>
    match cd_state d with
    | SizeLine =>
      match find_seq CRLF (cd_leftover d) with
      | Some i =>
        let line := take i (cd_leftover d) in
        let rest := drop (i + 2) (cd_leftover d) in
        match size_of_line line with
        | Ok size =>
          if size =? 0 then (Ready (Ok []), set_eof (set_inner d (cd_inner d) rest (cd_chunk_remaining d) SizeLine))
          else decode_loop fuel (set_inner d (cd_inner d) rest size Data) remaining
        | Err e => (Ready (Err e), set_inner d (cd_inner d) rest (cd_chunk_remaining d) SizeLine)
        | Panic => (Ready Panic, d)
        end
      | None =>
        match inner_poll_read (cd_inner d) 128 with
        | (Ready (inr []), inner) =>
          (Ready (Ok []), set_eof (set_inner d inner (cd_leftover d) (cd_chunk_remaining d) SizeLine))
        | (Ready (inr got), inner) =>
          decode_loop fuel (set_inner d inner (cd_leftover d ++ got) (cd_chunk_remaining d) SizeLine) remaining
        | (Ready (inl e), inner) => (Ready (Err e), set_inner d inner (cd_leftover d) (cd_chunk_remaining d) SizeLine)
        | (NotReady, inner) => (NotReady, set_inner d inner (cd_leftover d) (cd_chunk_remaining d) SizeLine)
        end
      end
    | Data =>
      if cd_chunk_remaining d =? 0 then decode_loop fuel (set_inner d (cd_inner d) (cd_leftover d) 0 DataCrlf) remaining
      else read_data d remaining
    | DataCrlf =>
      match fill_crlf 2 d with
      | (Ready (Ok _), d) =>
        if bool_decide (take 2 (cd_leftover d) = CRLF)
        then decode_loop fuel (set_inner d (cd_inner d) (drop 2 (cd_leftover d)) (cd_chunk_remaining d) SizeLine) remaining
        else (Ready (Err (invalid_data "missing CRLF after chunk")), d)
      | (Ready (Err e), d) => (Ready (Err e), d)
      | (Ready Panic, d) => (Ready Panic, d)
      | (NotReady, d) => (NotReady, d)
      end
    end
  end.

(** The loop passes each state once and reads while it waits for a line's end. *)
Definition decoder_poll_read (d : ChunkedDecoder) (remaining : nat) : poll (res io_error bytes) * ChunkedDecoder :=
  if cd_eof d then (Ready (Ok []), d)
  else decode_loop (length (rd_answers (cd_inner d)) + 5) d remaining.

(** ** Packet-up writing *)

Record PacketUpWriter := { pw_tx : channel; pw_pending : option bytes }.

Definition packet_poll_write (w : PacketUpWriter) (buf : bytes) : poll (res io_error nat) * PacketUpWriter :=
  if (length buf =? 0)%nat then (Ready (Ok O), w) else
  let chunk := match pw_pending w with Some chunk => chunk | None => buf end in
  match try_send (pw_tx w) chunk with
  | (Sent, tx) => (Ready (Ok (length chunk)), {| pw_tx := tx; pw_pending := None |})
  | (Full, tx) => (NotReady, {| pw_tx := tx; pw_pending := Some chunk |})
  | (Closed, tx) => (Ready (Err (IoError BrokenPipe "xhttp packet-up writer closed")),
                     {| pw_tx := tx; pw_pending := Some chunk |})
  end.

(** The worker: the [n]-th payload is posted under the number [n]; it stops at the
    first post that fails. [posted] is what a post ends with. *)
Fixpoint post_loop (path session : string) (posted : Z -> bytes -> bool) (n : Z) (payloads : list bytes)
    : list (string * bytes) :=
  match payloads with
  | [] => []
  | payload :: payloads =>
    (packet_path path session n, payload)
    :: (if posted n payload then post_loop path session posted (n + 1) payloads else [])
  end.

(** ** Connecting *)

(** A connection as a dial leaves it: whether a request can be written to it, and
    what its reads give. *)
Record conn := { cn_write : option io_error; cn_reads : list (io_error + bytes) }.

(** The duplex stream: what was read past the headers, and how it writes. *)
Inductive XhttpClientIo :=
| OneStream (leftover : bytes)
| TwoStreams (leftover : bytes)
| PacketStream (leftover : bytes) (path session : string).

(** Send a request and read the headers of its response; [None] while waiting. *)
Definition exchange (c : conn) : option (res XhttpClientError bytes) :=
  match cn_write c with
  | Some e => Some (Err (ClientIo e))
  | None => match read_status_ok (cn_reads c) with Some (r, _) => Some r | None => None end
  end.

Definition dial_failed {A} (what e : string) : option (res XhttpClientError A) :=
  Some (Err (Handshake (what +:+ " failed: " +:+ e))).

(** [connect_xhttp] with the requests it sends: [session] and [random] are what the
    random generator gives, [dial] the connection or error of each dial. *)
Definition connect_xhttp (cfg : XhttpClientConfig) (session : string) (random : nat -> Z) (dial : nat -> string + conn)
    : option (res XhttpClientError XhttpClientIo) * list string :=
  let path := client_normalized_path cfg in
  let finish (r : option (res XhttpClientError bytes)) (f : bytes -> XhttpClientIo) :=
    match r with Some r => Some (l ← r; Ok (f l)) | None => None end in
  let get := build_get_request (session_path path session) (xcl_host cfg) (xcl_padding cfg) (random O) in
  match resolved_mode cfg with
  | StreamOne | Auto =>
    match dial O with
    | inl e => (dial_failed "dial" e, [])
    | inr stream => (finish (exchange stream) OneStream,
                     [build_post_headers path (xcl_host cfg) (xcl_padding cfg) (random O) true])
    end
  | StreamUp =>
    match dial O with
    | inl e => (dial_failed "dial downlink" e, [])
    | inr down =>
      match dial 1%nat with
      | inl e => (dial_failed "dial uplink" e, [])
      | inr up =>
        match exchange down with
        | Some (Ok leftover) =>
          (finish (exchange up) (fun _ => TwoStreams leftover),
           [get; build_post_headers (session_path path session) (xcl_host cfg) (xcl_padding cfg) (random 1%nat) true])
        | r => (finish r TwoStreams, [get])
        end
      end
    end
  | PacketUp =>
    match dial O with
    | inl e => (dial_failed "dial downlink" e, [])
    | inr down => (finish (exchange down) (fun l => PacketStream l path session), [get])
    end
  end.

(** ** What a chunked body means *)

(** A line that ends at its first CRLF. *)
Definition clean_line (line : bytes) : Prop := find_seq CRLF (line ++ CRLF) = Some (length line).

(** [body enc p]: [enc] starts with the chunks of [p] and the last, empty one. *)
Inductive body : bytes -> bytes -> Prop :=
| body_last line rest :
    clean_line line -> size_of_line line = Ok 0 -> body (line ++ CRLF ++ rest) []
| body_chunk line data rest p :
    clean_line line -> size_of_line line = Ok (Z.of_nat (length data)) -> data <> [] -> body rest p ->
    body (line ++ CRLF ++ data ++ CRLF ++ rest) (data ++ p).

(** What is still to be read, in each state. *)
Definition to_come (d : ChunkedDecoder) : bytes := cd_leftover d ++ rd_src (cd_inner d).

Definition means (d : ChunkedDecoder) (p : bytes) : Prop :=
  if cd_eof d then p = [] else
  match cd_state d with
  | SizeLine => body (to_come d) p
  | Data => exists data rest q, to_come d = data ++ CRLF ++ rest
              /\ Z.of_nat (length data) = cd_chunk_remaining d /\ body rest q /\ p = data ++ q
  | DataCrlf => exists rest, to_come d = CRLF ++ rest /\ body rest p
  end.

Lemma find_seq_mono pat l r i : (length pat <= length l)%nat -> find_seq pat l = Some i -> find_seq pat (l ++ r) = Some i.
Proof.
  revert i. induction l as [|b l IH]; intros i Hl Hf.
  - destruct pat; [|cbn in Hl; lia]. by destruct r.
  - cbn [find_seq app] in *. rewrite app_comm_cons, take_app_le by done.
    destruct (bool_decide _); [done|]. destruct (find_seq pat l) as [j|] eqn:E; [|done].
    destruct (decide (length pat <= length l)%nat) as [Hle|Hgt].
    + by rewrite (IH j Hle eq_refl).
    + exfalso. clear -E Hgt. revert j E. induction l as [|c l IH]; intros j; cbn [find_seq].
      * destruct (bool_decide _) eqn:Eb; [|done]. apply bool_decide_eq_true in Eb. rewrite take_nil in Eb. by subst pat; cbn in Hgt; lia.
      * destruct (bool_decide _) eqn:Eb.
        { apply bool_decide_eq_true in Eb. apply (f_equal length) in Eb. rewrite length_take in Eb. lia. }
        destruct (find_seq pat l) eqn:E; [|done]. intros _. by apply (IH ltac:(cbn in Hgt; lia) n).
Qed.

Lemma find_seq_split pat l i : find_seq pat l = Some i ->
  l = take i l ++ pat ++ drop (i + length pat) l /\ (i + length pat <= length l)%nat.
Proof.
  revert i. induction l as [|b l IH]; intros i; cbn [find_seq].
  - destruct (bool_decide _) eqn:E; [|done]. apply bool_decide_eq_true in E. rewrite take_nil in E. subst pat. intros [= <-]. done.
  - destruct (bool_decide _) eqn:E.
    + apply bool_decide_eq_true in E. intros [= <-]. cbn [take app plus]. split.
      * rewrite <- (take_drop (length pat) (b :: l)) at 1. by rewrite E.
      * apply (f_equal length) in E. rewrite length_take in E. lia.
    + destruct (find_seq pat l) as [j|] eqn:Ej; [|done]. cbn. intros [= <-].
      destruct (IH j eq_refl) as [H1 H2]. cbn [take app plus drop length]. split; [by f_equal|lia].
Qed.

Lemma length_crlf : length CRLF = 2%nat.
Proof. done. Qed.

Lemma clean_app line rest : clean_line line -> find_seq CRLF (line ++ CRLF ++ rest) = Some (length line).
Proof. intros Hc. rewrite app_assoc. apply find_seq_mono; [rewrite length_app; lia|done]. Qed.

(** The line a decoder finds is the one the body starts with. *)
Lemma line_found leftover src line rest i :
  leftover ++ src = line ++ CRLF ++ rest -> clean_line line -> find_seq CRLF leftover = Some i ->
  take i leftover = line /\ drop (i + 2) leftover ++ src = rest.
Proof.
  intros He Hc Hf. destruct (find_seq_split _ _ _ Hf) as [Hs Hl]. rewrite length_crlf in Hs, Hl.
  assert (Hi : i = length line).
  { assert (find_seq CRLF (leftover ++ src) = Some i) as H1 by (apply find_seq_mono; [rewrite length_crlf; lia|done]).
    rewrite He, clean_app in H1 by done. congruence. }
  subst i. assert (Ht : take (length line) (leftover ++ src) = line) by (by rewrite He, take_app_length).
  rewrite take_app_le in Ht by lia. split; [done|].
  rewrite Hs, Ht, <- !app_assoc in He. by apply app_inv_head, app_inv_head in He.
Qed.

Lemma line_missing leftover line rest :
  leftover = line ++ CRLF ++ rest -> clean_line line -> find_seq CRLF leftover <> None.
Proof.
  intros -> Hc. by rewrite clean_app.
Qed.

Lemma body_line enc p : body enc p -> exists line rest, enc = line ++ CRLF ++ rest /\ clean_line line.
Proof. destruct 1; eauto. Qed.

Lemma body_found leftover src p i :
  body (leftover ++ src) p -> find_seq CRLF leftover = Some i ->
  size_of_line (take i leftover) = Ok 0 /\ p = []
  \/ exists data rest q, size_of_line (take i leftover) = Ok (Z.of_nat (length data)) /\ data <> []
       /\ drop (i + 2) leftover ++ src = data ++ CRLF ++ rest /\ body rest q /\ p = data ++ q.
Proof.
  intros Hb Hf. inversion Hb as [line rest Hc Hz Heq|line data rest q Hc Hz Hne Hq Heq]; subst.
  - symmetry in Heq. destruct (line_found _ _ _ _ _ Heq Hc Hf) as [-> _]. by left.
  - symmetry in Heq. destruct (line_found _ _ _ _ _ Heq Hc Hf) as [-> Hd]. right. by exists data, rest, q.
Qed.

(** ** One poll of the decoder *)

(** What a poll did: the outcome, given the meaning before. *)
Definition poll_ok (d : ChunkedDecoder) (remaining : nat) (p : bytes)
    (r : poll (res io_error bytes) * ChunkedDecoder) : Prop :=
  match r with
  | (NotReady, d') => means d' p
  | (Ready (Ok data), d') =>
    exists q, p = data ++ q /\ means d' q /\ (data = [] -> remaining = O \/ cd_eof d' = true)
  | (Ready (Err e), _) => ReadErr e ∈ rd_answers (cd_inner d)
  | (Ready Panic, _) => False
  end.

(** What a read of the connection did. *)
Lemma inner_read_cases r capacity :
  match inner_poll_read r capacity with
  | (NotReady, r') => rd_src r' = rd_src r
  | (Ready (inl e), r') => ReadErr e ∈ rd_answers r /\ rd_src r' = rd_src r
  | (Ready (inr got), r') =>
    got ++ rd_src r' = rd_src r /\ (length got <= capacity)%nat /\ (got = [] -> rd_src r = [] \/ capacity = O)
  end
  /\ (length (rd_answers (inner_poll_read r capacity).2) <= length (rd_answers r))%nat
  /\ (forall x, x ∈ rd_answers (inner_poll_read r capacity).2 -> x ∈ rd_answers r)
  /\ (forall got, (inner_poll_read r capacity).1 = Ready (inr got) ->
        length (rd_answers r) = S (length (rd_answers (inner_poll_read r capacity).2))).
Proof.
  unfold inner_poll_read. destruct (rd_answers r) as [|[n|e|] a] eqn:E; cbn [fst snd rd_answers rd_src]; rewrite ?E.
  - naive_solver.
  - split; [|split; [cbn; lia|split; [by constructor|done]]]. rewrite take_drop, length_take. split_and!; [done|lia|].
    intros H. destruct (rd_src r); [by left|]. right. by destruct capacity.
  - split_and!; [by left|done|cbn; lia|by constructor|done].
  - split_and!; [done|cbn; lia|by constructor|done].
Qed.

Lemma fill_crlf_ok fuel d rest :
  to_come d = CRLF ++ rest -> (2 <= fuel + length (cd_leftover d))%nat ->
  let d' := (fill_crlf fuel d).2 in
  to_come d' = to_come d /\ cd_state d' = cd_state d /\ cd_eof d' = cd_eof d
  /\ (length (rd_answers (cd_inner d')) <= length (rd_answers (cd_inner d)))%nat
  /\ (forall x, x ∈ rd_answers (cd_inner d') -> x ∈ rd_answers (cd_inner d))
  /\ match (fill_crlf fuel d).1 with
     | Ready (Ok _) => (2 <= length (cd_leftover d'))%nat
     | Ready (Err e) => ReadErr e ∈ rd_answers (cd_inner d)
     | Ready Panic => False
     | NotReady => True
     end.
Proof.
  revert d. induction fuel as [|fuel IH]; intros d Hc Hl; cbn [fill_crlf].
  - destruct (2 <=? _)%nat eqn:E; bool_hyps; [|lia]. cbn. naive_solver.
  - destruct (2 <=? _)%nat eqn:E; bool_hyps; [cbn; naive_solver|].
    destruct (inner_read_cases (cd_inner d) 2) as (Hr & Ha & Hi & _).
    destruct (inner_poll_read (cd_inner d) 2) as [[[e|got]|] inner]; cbn [fst snd] in *.
    + destruct Hr as [Hr1 Hr2]. unfold to_come, set_inner. cbn. rewrite Hr2. naive_solver.
    + destruct Hr as (Hr1 & Hr2 & Hr3). destruct got as [|b got].
      * exfalso. unfold to_come in Hc. destruct (Hr3 eq_refl) as [H|H]; [|done]. rewrite H, app_nil_r in Hc.
        rewrite Hc, length_app, length_crlf in E. lia.
      * assert (Ht : to_come (set_inner d inner (cd_leftover d ++ b :: got) (cd_chunk_remaining d) (cd_state d)) = to_come d)
          by (unfold to_come, set_inner; cbn; by rewrite <- app_assoc, Hr1).
        specialize (IH (set_inner d inner (cd_leftover d ++ b :: got) (cd_chunk_remaining d) (cd_state d))
          ltac:(congruence) ltac:(cbn; rewrite length_app; cbn; lia)).
        cbn zeta in IH. rewrite Ht in IH. destruct IH as (I1 & I2 & I3 & I4 & I5 & I6).
        split_and!; [done..|cbn in I4 |- *; lia|naive_solver|].
        destruct (fill_crlf fuel _) as [[[| |]|] ?]; cbn in *; naive_solver.
    + unfold to_come, set_inner. cbn. rewrite Hr. naive_solver.
Qed.

Lemma min3_le a b c : 0 <= a -> (min3 a b c <= b)%nat /\ (min3 a b c <= c)%nat /\ Z.of_nat (min3 a b c) <= a.
Proof. unfold min3. lia. Qed.

Lemma means_data d data rest q :
  cd_eof d = false -> cd_state d = Data -> to_come d = data ++ CRLF ++ rest ->
  Z.of_nat (length data) = cd_chunk_remaining d -> body rest q -> means d (data ++ q).
Proof. intros He Hs Ht Hl Hb. unfold means. rewrite He, Hs. by exists data, rest, q. Qed.

Lemma read_data_ok d remaining p :
  cd_eof d = false -> cd_state d = Data -> means d p -> cd_chunk_remaining d <> 0 ->
  poll_ok d remaining p (read_data d remaining).
Proof.
  intros He Hs Hm Hne. pose proof Hm as Hm'. unfold means in Hm'. rewrite He, Hs in Hm'.
  destruct Hm' as (data & rest & q & Ht & Hl & Hb & ->). unfold read_data.
  assert (Hpos : 0 <= cd_chunk_remaining d) by lia.
  set (n := min3 (cd_chunk_remaining d) remaining (length (cd_leftover d))).
  destruct (min3_le (cd_chunk_remaining d) remaining (length (cd_leftover d)) Hpos) as (N1 & N2 & N3). fold n in N1, N2, N3.
  destruct (0 <? n)%nat eqn:E; bool_hyps.
  - cbn. assert (Htk : take n (cd_leftover d) = take n data).
    { unfold to_come in Ht. rewrite <- (take_app_le (cd_leftover d) (rd_src (cd_inner d)) n) by lia.
      rewrite Ht, take_app_le by lia. done. }
    exists (drop n data ++ q). rewrite Htk, app_assoc, take_drop. split; [done|]. split.
    + apply (means_data _ (drop n data) rest); [done..| | |done]; cbn.
      * unfold to_come in Ht |- *. cbn. rewrite <- (drop_app_le (cd_leftover d)), Ht, drop_app_le by lia. done.
      * rewrite length_drop. lia.
    + intros H. apply (f_equal length) in H. rewrite length_take in H. cbn in H. lia.
  - destruct (min3 (cd_chunk_remaining d) remaining remaining =? 0)%nat eqn:Ew; bool_hyps.
    + cbn. exists (data ++ q). split_and!; [done..|]. intros _. left. unfold min3 in Ew. lia.
    + set (want := min3 (cd_chunk_remaining d) remaining remaining) in *.
      destruct (min3_le (cd_chunk_remaining d) remaining remaining Hpos) as (W1 & _ & W3). fold want in W1, W3.
      assert (Hlo : cd_leftover d = []) by (destruct (cd_leftover d); [done|]; unfold n, min3 in E; cbn in E; unfold want, min3 in Ew; lia).
      unfold to_come in Ht. rewrite Hlo in Ht. cbn in Ht.
      destruct (inner_read_cases (cd_inner d) want) as (Hr & _).
      destruct (inner_poll_read (cd_inner d) want) as [[[e|got]|] inner]; cbn [fst snd] in *.
      * by destruct Hr.
      * destruct Hr as (H1 & H2 & H3). destruct got as [|b got].
        { exfalso. destruct (H3 eq_refl) as [H|H]; [|lia]. rewrite H in Ht. by destruct data. }
        cbn. set (g := b :: got) in *. assert (Hg : g = take (length g) data).
        { assert (take (length g) (g ++ rd_src inner) = g) by apply take_app_length.
          rewrite H1, Ht, take_app_le in H by lia. done. }
        exists (drop (length g) data ++ q).
        split; [by rewrite app_assoc; rewrite <- (take_drop (length g) data), <- Hg at 1|]. split; [|done].
        apply (means_data _ (drop (length g) data) rest); [done..| | |done]; unfold to_come, set_inner;
          cbn [cd_leftover cd_inner cd_chunk_remaining].
        { rewrite Hlo. cbn. rewrite <- (take_drop (length g) data), <- Hg, <- H1, <- app_assoc in Ht.
          by apply app_inv_head in Ht. }
        { change (S (length got)) with (length g). rewrite length_drop. lia. }
      * cbn. apply (means_data _ data rest); [done..| |done|done]. unfold to_come. cbn. by rewrite Hlo, Hr.
Qed.

(** The fuel a state needs. *)
Definition need (d : ChunkedDecoder) : nat :=
  length (rd_answers (cd_inner d))
  + match cd_state d with SizeLine => 2 | DataCrlf => 3 | Data => if cd_chunk_remaining d =? 0 then 4 else 1 end.

Lemma poll_ok_weaken d d' remaining p r :
  (forall x, x ∈ rd_answers (cd_inner d') -> x ∈ rd_answers (cd_inner d)) -> poll_ok d' remaining p r -> poll_ok d remaining p r.
Proof. intros Hi. unfold poll_ok. destruct r as [[[| |]|] ?]; naive_solver. Qed.

Lemma size_line_ok fuel d remaining p :
  (forall d, cd_eof d = false -> means d p -> (need d <= fuel)%nat -> poll_ok d remaining p (decode_loop fuel d remaining)) ->
  cd_eof d = false -> cd_state d = SizeLine -> means d p -> (need d <= S fuel)%nat ->
  poll_ok d remaining p (decode_loop (S fuel) d remaining).
Proof.
  intros IH He Hs Hm Hn. unfold means in Hm. rewrite He, Hs in Hm. unfold need in Hn. rewrite Hs in Hn.
  cbn [decode_loop]. rewrite Hs. destruct (find_seq CRLF (cd_leftover d)) as [i|] eqn:Hf.
  - destruct (body_found _ _ _ _ Hm Hf) as [[-> ->]|(data & rest & q & -> & Hne & Hd & Hb & ->)].
    + cbn. exists []. split_and!; [done|by unfold means; cbn|by right].
    + destruct (Z.of_nat (length data) =? 0) eqn:E; bool_hyps; [destruct data; [done|cbn in E; lia]|].
      eapply poll_ok_weaken; [|apply IH]; [done|done| |].
      * by apply (means_data _ data rest).
      * unfold need. cbn. rewrite (proj2 (Z.eqb_neq _ _)) by done. lia.
  - destruct (inner_read_cases (cd_inner d) 128) as (Hr & Ha & Hi & Hlen).
    destruct (inner_poll_read (cd_inner d) 128) as [[[e|got]|] inner]; cbn [fst snd] in *.
    + by destruct Hr.
    + destruct Hr as (H1 & _ & H3). destruct got as [|b got].
      { exfalso. destruct (H3 eq_refl) as [H|]; [|lia]. unfold to_come in Hm. rewrite H, app_nil_r in Hm.
        destruct (body_line _ _ Hm) as (line & rest & Hx & Hc). by apply (line_missing _ _ _ Hx Hc). }
      eapply poll_ok_weaken; [|apply IH]; [exact Hi|done| |].
      * unfold means. cbn. rewrite He. unfold to_come in Hm |- *. cbn. by rewrite <- app_assoc, H1.
      * specialize (Hlen _ eq_refl). unfold need. cbn. lia.
    + cbn. unfold means. cbn. rewrite He. unfold to_come in Hm |- *. cbn. by rewrite Hr.
Qed.

Lemma decode_loop_ok fuel d remaining p :
  cd_eof d = false -> means d p -> (need d <= fuel)%nat -> poll_ok d remaining p (decode_loop fuel d remaining).
Proof.
  revert d. induction fuel as [|fuel IH]; intros d He Hm Hn.
  { exfalso. unfold need in Hn. destruct (cd_state d), (cd_chunk_remaining d =? 0); lia. }
  destruct (cd_state d) eqn:Hs.
  - by apply size_line_ok.
  - cbn [decode_loop]. rewrite Hs. destruct (cd_chunk_remaining d =? 0) eqn:E; bool_hyps; [|by apply read_data_ok].
    eapply poll_ok_weaken; [|apply IH]; [done|done| |].
    + unfold means in Hm |- *. rewrite He, Hs in Hm. cbn. rewrite He.
      destruct Hm as (data & rest & q & Ht & Hl & Hb & ->). exists rest. destruct data; [|cbn in Hl; lia]. done.
    + unfold need in Hn |- *. rewrite Hs, E in Hn. cbn in *. lia.
  - cbn [decode_loop]. rewrite Hs. pose proof Hm as Hm'. unfold means in Hm'. rewrite He, Hs in Hm'.
    destruct Hm' as (rest & Ht & Hb). destruct (fill_crlf_ok 2 d rest Ht ltac:(lia)) as (F1 & F2 & F3 & F4 & F5 & F6).
    destruct (fill_crlf 2 d) as [[[u|e|]|] d'] eqn:Ef; cbn [fst snd] in *.
    + unfold to_come in F1, Ht. rewrite Ht in F1. assert (Hc : take 2 (cd_leftover d') = CRLF).
      { rewrite <- (take_app_le (cd_leftover d') (rd_src (cd_inner d')) 2), F1 by lia. done. }
      rewrite bool_decide_eq_true_2 by done. eapply poll_ok_weaken; [|apply IH]; [exact F5|cbn; congruence| |].
      * unfold means. cbn. rewrite F3, He. unfold to_come. cbn.
        rewrite <- (drop_app_le (cd_leftover d') (rd_src (cd_inner d')) 2), F1 by lia. done.
      * unfold need in Hn |- *. rewrite Hs in Hn. cbn. lia.
    + done.
    + done.
    + cbn. unfold means. rewrite F3, He, F2, Hs. exists rest. by rewrite F1.
Qed.

Lemma decoder_poll_ok d remaining p : means d p -> poll_ok d remaining p (decoder_poll_read d remaining).
Proof.
  intros Hm. unfold decoder_poll_read. destruct (cd_eof d) eqn:He.
  - unfold means in Hm. rewrite He in Hm. subst p. cbn. exists []. split_and!; [done|by unfold means; rewrite He|by right].
  - apply decode_loop_ok; [done..|]. unfold need. destruct (cd_state d), (cd_chunk_remaining d =? 0); lia.
Qed.

(** ** Runs of the decoder *)

Inductive decoder_reads : ChunkedDecoder -> bytes -> ChunkedDecoder -> Prop :=
| reads_none d : decoder_reads d [] d
| reads_wait d room d1 data d2 :
    decoder_poll_read d room = (NotReady, d1) -> decoder_reads d1 data d2 -> decoder_reads d data d2
| reads_got d room x d1 data d2 :
    decoder_poll_read d room = (Ready (Ok x), d1) -> decoder_reads d1 data d2 -> decoder_reads d (x ++ data) d2.

Lemma decoder_reads_ok d data d' p : decoder_reads d data d' -> means d p -> exists q, p = data ++ q /\ means d' q.
Proof.
  intros Hr. revert p. induction Hr as [d|d room d1 data d2 Hp Hr IH|d room x d1 data d2 Hp Hr IH]; intros p Hm; [by exists p|..];
    pose proof (decoder_poll_ok d room p Hm) as Hk; rewrite Hp in Hk; cbn in Hk.
  - by apply IH.
  - destruct Hk as (q & -> & Hq & _). destruct (IH q Hq) as (q' & -> & ?). exists q'. by rewrite app_assoc.
Qed.

(** A poll waits only for the connection. *)
Lemma fill_crlf_waits fuel d : ReadPending ∉ rd_answers (cd_inner d) ->
  (ReadPending ∉ rd_answers (cd_inner (fill_crlf fuel d).2))
  /\ ((fill_crlf fuel d).1 = NotReady -> rd_answers (cd_inner (fill_crlf fuel d).2) = []).
Proof.
  revert d. induction fuel as [|fuel IH]; intros d Hp; cbn [fill_crlf]; destruct (2 <=? _)%nat; [done..|].
  unfold inner_poll_read. destruct (rd_answers (cd_inner d)) as [|[n|e|] a] eqn:E.
  - cbn. by rewrite E.
  - apply not_elem_of_cons in Hp as [_ Hp]. destruct (take _ _); [done|]. by apply IH.
  - by apply not_elem_of_cons in Hp as [_ Hp].
  - by apply not_elem_of_cons in Hp as [? _].
Qed.

Lemma decode_loop_waits fuel d room : ReadPending ∉ rd_answers (cd_inner d) ->
  (decode_loop fuel d room).1 = NotReady -> rd_answers (cd_inner (decode_loop fuel d room).2) = [].
Proof.
  revert d. induction fuel as [|fuel IH]; intros d Hp; cbn [decode_loop]; [done|]. destruct (cd_state d).
  - destruct (find_seq _ _).
    + destruct (size_of_line _) as [size| |]; [|done..]. destruct (size =? 0); [done|]. by apply IH.
    + unfold inner_poll_read. destruct (rd_answers (cd_inner d)) as [|[n|e|] a] eqn:E; [by cbn| |done|].
      * apply not_elem_of_cons in Hp as [_ Hp]. destruct (take _ _); [done|]. by apply IH.
      * by apply not_elem_of_cons in Hp as [? _].
  - destruct (_ =? 0); [by apply IH|]. unfold read_data. destruct (0 <? _)%nat; [done|]. destruct (_ =? 0)%nat; [done|].
    unfold inner_poll_read. destruct (rd_answers (cd_inner d)) as [|[n|e|] a] eqn:E; [by cbn| |done|].
    + by destruct (take _ _).
    + by apply not_elem_of_cons in Hp as [? _].
  - destruct (fill_crlf_waits 2 d Hp) as [H1 H2]. destruct (fill_crlf 2 d) as [[[u|e|]|] d']; cbn [fst snd] in *; [|done..|].
    + destruct (bool_decide _); [|done]. by apply IH.
    + by intros _; apply H2.
Qed.

(** ** Sizes as hexadecimal text *)

Definition hex_byte (b : Z) : Prop := 48 <= b <= 57 \/ 97 <= b <= 102.

Lemma hex_digit_byte n : 0 <= n < 16 -> hex_byte (Z.of_N (N_of_ascii (hex_digit n))) /\ digit_value 16 (Z.of_N (N_of_ascii (hex_digit n))) = Some n.
Proof.
  intros H. assert (Hall : forallb (fun n => ((48 <=? Z.of_N (N_of_ascii (hex_digit n))) && (Z.of_N (N_of_ascii (hex_digit n)) <=? 57)
      || (97 <=? Z.of_N (N_of_ascii (hex_digit n))) && (Z.of_N (N_of_ascii (hex_digit n)) <=? 102))
      && bool_decide (digit_value 16 (Z.of_N (N_of_ascii (hex_digit n))) = Some n)) (seqZ 0 16) = true) by (vm_compute; reflexivity).
  rewrite forallb_forall in Hall. specialize (Hall n). rewrite <- list_elem_of_In, elem_of_seqZ in Hall.
  specialize (Hall ltac:(lia)). apply andb_true_iff in Hall as [H1 H2]. apply bool_decide_eq_true in H2.
  split; [|done]. unfold hex_byte. apply orb_true_iff in H1 as [H1|H1]; bool_hyps; lia.
Qed.

Lemma hex_text_bytes k n : 0 <= n -> Forall hex_byte (hex_text k n).
Proof.
  revert n. induction k as [|k IH]; intros n Hn; cbn [hex_text]; [constructor|]. apply Forall_app. split.
  - destruct (n <? 16); [constructor|]. apply IH. apply Z.div_pos; lia.
  - constructor; [|constructor]. apply hex_digit_byte, Z.mod_pos_bound. lia.
Qed.

Lemma hex_value_app acc l b v : hex_value acc l = Ok v -> hex_value acc (l ++ b) = hex_value v b.
Proof.
  revert acc. induction l as [|x l IH]; intros acc; cbn [hex_value app]; [by intros [= <-]|].
  destruct (digit_value 16 x); [|done]. destruct (2 ^ 64 <=? _); [done|]. apply IH.
Qed.

Lemma hex_value_text k n : 0 <= n < 16 ^ Z.of_nat k -> n < 2 ^ 64 -> hex_value 0 (hex_text k n) = Ok n.
Proof.
  revert n. induction k as [|k IH]; intros n Hn H64; [cbn in *; f_equal; lia|]. cbn [hex_text].
  destruct (hex_digit_byte (n mod 16)) as [_ Hd]; [by apply Z.mod_pos_bound|].
  assert (Hstep : forall v, v * 16 + n mod 16 = n -> hex_value v [Z.of_N (N_of_ascii (hex_digit (n mod 16)))] = Ok n).
  { intros v Hv. cbn [hex_value]. rewrite Hd, Hv. destruct (2 ^ 64 <=? n) eqn:E; bool_hyps; [lia|done]. }
  destruct (n <? 16) eqn:E; bool_hyps.
  - cbn [app]. apply Hstep. rewrite Z.mod_small by lia. lia.
  - rewrite (hex_value_app _ _ _ (n / 16)).
    + apply Hstep. pose proof (Z.div_mod n 16). lia.
    + apply IH; [|apply Z.div_lt_upper_bound; lia]. rewrite Nat2Z.inj_succ, Z.pow_succ_r in Hn by lia.
      split; [apply Z.div_pos; lia|]. apply Z.div_lt_upper_bound; lia.
Qed.

Lemma ascii_utf8 l : Forall (fun b => 0 <= b < 128) l -> utf8_valid l = true.
Proof.
  induction 1 as [|b l Hb _ IH]; [done|]. cbn [utf8_valid]. destruct (b <? 0x80) eqn:E; bool_hyps; [done|lia].
Qed.

Lemma hex_trim_start l : Forall hex_byte l -> trim_start l = l.
Proof.
  destruct 1 as [|b l Hb _]; [done|]. cbn [trim_start]. unfold hex_byte in Hb.
  destruct (_ || _) eqn:E; [apply orb_true_iff in E as [E|E]; bool_hyps; lia|].
  destruct b as [|b|b]; [done| |done]. assert (Hs : (Z.pos b < 128)) by lia.
  do 8 (destruct b as [b|b|]; try done; try lia).
Qed.

Lemma hex_trim_rev l : Forall hex_byte l -> trim_rev l = l.
Proof.
  destruct 1 as [|b l Hb _]; [done|]. cbn [trim_rev]. unfold hex_byte in Hb.
  destruct (_ || _) eqn:E; [apply orb_true_iff in E as [E|E]; bool_hyps; lia|].
  assert (Hv : In b [48; 49; 50; 51; 52; 53; 54; 55; 56; 57; 97; 98; 99; 100; 101; 102]) by (cbn; lia).
  cbn [In] in Hv. destruct l as [|c l]; [|destruct l as [|c2 l]];
    repeat (destruct Hv as [<-|Hv]; [repeat (case_match; try done)|]); done.
Qed.

Lemma hex_trim l : Forall hex_byte l -> trim (string_of_bytes l) = string_of_bytes l.
Proof.
  intros H. assert (Hb : bytes_ok l) by (eapply Forall_impl; [exact H|]; unfold hex_byte, byte_ok; cbn; lia).
  unfold trim. rewrite bytes_of_string_of_bytes, hex_trim_start, hex_trim_rev, rev_involutive; [done|by apply Forall_rev|done..].
Qed.

Lemma split_none c l : Forall (fun b => b <> Z.of_N (N_of_ascii c) /\ byte_ok b) l -> split_first c (string_of_bytes l) = string_of_bytes l.
Proof.
  intros H. unfold split_first. assert (Hs : str_split c (string_of_bytes l) = [string_of_bytes l]); [|by rewrite Hs].
  induction H as [|b l [Hb Ho] _ IH]; [done|]. cbn [string_of_bytes str_split].
  destruct (Ascii.eqb_spec (ascii_of_N (Z.to_N b)) c) as [<-|_]; [|by rewrite IH].
  exfalso. apply Hb. rewrite N_ascii_embedding; unfold byte_ok in Ho; lia.
Qed.

Lemma size_of_hex n : 0 <= n < 2 ^ 64 -> size_of_line (hex_text 16 n) = Ok n.
Proof.
  intros Hn. pose proof (hex_text_bytes 16 n ltac:(lia)) as Hh. unfold size_of_line, from_utf8.
  rewrite ascii_utf8 by (eapply Forall_impl; [exact Hh|]; unfold hex_byte; cbn; lia). cbn [mbind res_bind].
  rewrite split_none by (eapply Forall_impl; [exact Hh|]; unfold hex_byte, byte_ok; cbn; lia).
  rewrite hex_trim, bytes_of_string_of_bytes by (done || (eapply Forall_impl; [exact Hh|]; unfold hex_byte, byte_ok; cbn; lia)).
  pose proof (hex_value_text 16 n ltac:(cbn; lia) ltac:(lia)) as Hv. unfold from_str_radix_16.
  destruct (hex_text 16 n) as [|b l] eqn:E; [cbn [hex_text] in E; by destruct (_ ++ [_]) eqn:E2; [apply app_eq_nil in E2 as [_ ?]|]|].
  apply Forall_cons in Hh as [Hb _]. destruct (decide (b = 43)) as [->|Hne]; [unfold hex_byte in Hb; lia|].
  destruct b as [|b|b]; [done| |done]. do 6 (destruct b as [b|b|]; try done).
Qed.

Lemma clean_hex n : 0 <= n -> clean_line (hex_text 16 n).
Proof.
  intros Hn. pose proof (hex_text_bytes 16 n Hn) as Hh. unfold clean_line. induction Hh as [|b l Hb _ IH]; [done|].
  cbn [app find_seq length]. rewrite IH. cbn [take]. destruct (bool_decide _) eqn:E; [|done].
  apply bool_decide_eq_true in E. injection E as -> _. unfold hex_byte in Hb. lia.
Qed.

(** ** The encoder *)

Lemma write_loop_ok answers pending out :
  let '(r, (w, pending')) := write_loop answers pending out in
  wr_out w ++ pending' = out ++ pending
  /\ match r with Ready (Ok _) => pending' = [] | Ready Panic => False | _ => pending' <> [] end.
Proof.
  revert pending out. induction answers as [|a answers IH]; intros pending out.
  - destruct pending; done.
  - destruct pending as [|b p]; [done|]. destruct a as [[|n]|e|]; [done| |done..]. cbn [write_loop].
    specialize (IH (drop (S n) (b :: p)) (out ++ take (S n) (b :: p))).
    destruct (write_loop answers _ _) as [r [w p']]. by rewrite <- app_assoc, take_drop in IH.
Qed.

Lemma frame_nonempty buf : frame buf <> [].
Proof. unfold frame. intros H. apply app_eq_nil in H as [_ H]. by apply app_eq_nil in H as [? _]. Qed.

(** A writer between frames, or with the frame of [buf] partly written. *)
Definition idle_with (e : ChunkedEncoder) (out : bytes) : Prop :=
  ce_closing e = false /\ ce_closed e = false /\ ce_pending e = [] /\ wr_out (ce_inner e) = out.
Definition busy_with (e : ChunkedEncoder) (out buf : bytes) : Prop :=
  ce_closing e = false /\ ce_closed e = false /\ ce_pending e <> [] /\ ce_pending_report e = length buf
  /\ wr_out (ce_inner e) ++ ce_pending e = out ++ frame buf.

Lemma encoder_poll_ok e out buf : buf <> [] -> idle_with e out \/ busy_with e out buf ->
  match encoder_poll_write e buf with
  | (Ready (Ok n), e') => n = length buf /\ idle_with e' (out ++ frame buf)
  | (NotReady, e') => busy_with e' out buf
  | (Ready (Err _), _) => True
  | (Ready Panic, _) => False
  end.
Proof.
  intros Hb He. unfold encoder_poll_write.
  assert (ce_closed e || ce_closing e = false) as -> by (destruct He as [(-> & -> & _)|(-> & -> & _)]; done).
  destruct (length buf =? 0)%nat eqn:E0; bool_hyps; [by destruct buf|].
  set (e1 := if (length (ce_pending e) =? 0)%nat then _ else e).
  assert (Hbusy : busy_with e1 out buf).
  { unfold e1. destruct He as [(H1 & H2 & H3 & H4)|Hb']; [rewrite H3; cbn|].
    - split_and!; [done..|apply frame_nonempty|done|cbn; by rewrite H4].
    - destruct (length (ce_pending e) =? 0)%nat eqn:E; bool_hyps; [|done]. destruct Hb' as (_ & _ & H & _). by destruct (ce_pending e). }
  destruct Hbusy as (H1 & H2 & H3 & H4 & H5). unfold poll_write_pending.
  pose proof (write_loop_ok (wr_answers (ce_inner e1)) (ce_pending e1) (wr_out (ce_inner e1))) as Hw.
  destruct (write_loop _ _ _) as [[[u|x|]|] [w p']]; cbn [with_written ce_pending ce_pending_report ce_inner ce_closing ce_closed].
  - destruct Hw as [Hw ->]. rewrite app_nil_r in Hw. split; [done|].
    split_and!; [done..|]. cbn [fst snd ce_inner ce_pending]. congruence.
  - done.
  - by destruct Hw.
  - destruct Hw as [Hw Hne]. split_and!; [done..|]. cbn [fst snd ce_inner ce_pending with_written]. congruence.
Qed.

Inductive encoder_writes : ChunkedEncoder -> list bytes -> ChunkedEncoder -> Prop :=
| writes_none e : encoder_writes e [] e
| writes_again e buf bufs e1 e2 :
    encoder_poll_write e buf = (NotReady, e1) -> encoder_writes e1 (buf :: bufs) e2 -> encoder_writes e (buf :: bufs) e2
| writes_done e buf bufs n e1 e2 :
    encoder_poll_write e buf = (Ready (Ok n), e1) -> encoder_writes e1 bufs e2 -> encoder_writes e (buf :: bufs) e2.

Definition framed (bufs : list bytes) : bytes := concat (map frame bufs).

Lemma encoder_writes_ok e bufs e' out :
  encoder_writes e bufs e' -> Forall (fun b => b <> []) bufs ->
  idle_with e out \/ (exists buf bufs', bufs = buf :: bufs' /\ busy_with e out buf) -> idle_with e' (out ++ framed bufs).
Proof.
  intros Hw. revert out. induction Hw as [e|e buf bufs e1 e2 Hp Hw IH|e buf bufs n e1 e2 Hp Hw IH]; intros out Hf Hi.
  - destruct Hi as [Hi|(? & ? & ? & _)]; [|done]. by rewrite app_nil_r.
  - pose proof Hf as Hf'. apply Forall_cons in Hf' as [Hb _].
    pose proof (encoder_poll_ok e out buf Hb ltac:(naive_solver)) as Hk. rewrite Hp in Hk. apply IH; [done|]. right. by exists buf, bufs.
  - apply Forall_cons in Hf as [Hb Hf].
    pose proof (encoder_poll_ok e out buf Hb ltac:(naive_solver)) as Hk. rewrite Hp in Hk. destruct Hk as [_ Hk].
    unfold framed. cbn [map concat]. rewrite app_assoc. apply IH; [done|]. by left.
Qed.

Lemma framed_body bufs rest :
  Forall (fun b => b <> [] /\ Z.of_nat (length b) < 2 ^ 64) bufs -> body (framed bufs ++ last_chunk ++ rest) (concat bufs).
Proof.
  induction 1 as [|b bufs [Hb Hl] _ IH]; cbn [framed map concat].
  - apply (body_last [48] (CRLF ++ rest)); [done|vm_compute; reflexivity].
  - unfold frame. rewrite <- !app_assoc. apply body_chunk; [apply clean_hex; lia|apply size_of_hex; lia|done|exact IH].
Qed.

(** A writer that is closing. *)
Definition closing_with (e : ChunkedEncoder) (out : bytes) : Prop :=
  ce_closing e = true /\ ce_closed e = false /\ wr_out (ce_inner e) ++ ce_pending e = out ++ last_chunk.

Inductive encoder_closes : ChunkedEncoder -> ChunkedEncoder -> Prop :=
| closes_again e e1 e2 :
    encoder_poll_shutdown e (Ready (Ok tt)) = (NotReady, e1) -> encoder_closes e1 e2 -> encoder_closes e e2
| closes_done e e1 : encoder_poll_shutdown e (Ready (Ok tt)) = (Ready (Ok tt), e1) -> encoder_closes e e1.

Lemma shutdown_ok e out : idle_with e out \/ closing_with e out ->
  match encoder_poll_shutdown e (Ready (Ok tt)) with
  | (Ready (Ok _), e') => wr_out (ce_inner e') = out ++ last_chunk
  | (NotReady, e') => closing_with e' out
  | (Ready (Err _), _) => True
  | (Ready Panic, _) => False
  end.
Proof.
  intros He. unfold encoder_poll_shutdown.
  assert (Hc : ce_closed e = false) by (destruct He as [(_ & H & _)|(_ & H & _)]; done). rewrite Hc.
  set (c := if ce_closing e then _ else _).
  assert (Hk : exists e1, c = (Ready (Ok tt), e1) /\ closing_with e1 out).
  { unfold c. destruct He as [(H1 & H2 & H3 & H4)|Hcl].
    - rewrite H1. unfold poll_write_pending. rewrite H3. destruct (wr_answers (ce_inner e)) as [|a l];
        cbn [write_loop with_written ce_inner ce_closed ce_pending fst snd]; eexists;
        (split; [reflexivity|]); split_and!; cbn [ce_closing ce_closed ce_inner ce_pending wr_out]; congruence.
    - destruct Hcl as (H1 & H2 & H3). rewrite H1. by exists e. }
  destruct Hk as (e1 & -> & H1 & H2 & H3). unfold poll_write_pending.
  pose proof (write_loop_ok (wr_answers (ce_inner e1)) (ce_pending e1) (wr_out (ce_inner e1))) as Hw.
  destruct (write_loop _ _ _) as [[[u|x|]|] [w p']].
  - destruct Hw as [Hw ->]. rewrite app_nil_r in Hw. cbn [ce_inner with_written fst]. congruence.
  - done.
  - by destruct Hw.
  - destruct Hw as [Hw _]. split_and!; [done..|]. cbn [fst snd ce_inner ce_pending with_written]. congruence.
Qed.

Lemma closes_ok e e' out : encoder_closes e e' -> idle_with e out \/ closing_with e out -> wr_out (ce_inner e') = out ++ last_chunk.
Proof.
  induction 1 as [e e1 e2 Hp _ IH|e e1 Hp]; intros He; pose proof (shutdown_ok e out He) as Hk; rewrite Hp in Hk; [|done].
  apply IH. by right.
Qed.

(** ** Numbers in paths *)

Lemma parse_digits_pretty bound x s acc :
  Z.of_N x < bound -> acc = 0 ->
  parse_digits bound acc (pretty_N_go x s) = parse_digits bound (Z.of_N x) s.
Proof.
  intros Hx ->. revert s Hx. induction (N.lt_wf_0 x) as [x _ IH]; intros s Hx.
  destruct (decide (x = 0)%N) as [->|Hne]; [by rewrite pretty_N_go_0|].
  rewrite pretty_N_go_step by lia. rewrite IH; [|apply N.div_lt; lia|].
  - pose proof (N.mod_lt x 10 ltac:(lia)) as Hm.
    assert (Hd : Z.of_N (N_of_ascii (pretty_N_char (x mod 10)%N)) - 48 = Z.of_N (x mod 10)%N).
    { assert (Hall : forallb (fun d => Z.of_N (N_of_ascii (pretty_N_char d)) - 48 =? Z.of_N d)
        [0; 1; 2; 3; 4; 5; 6; 7; 8; 9]%N = true) by (vm_compute; reflexivity).
      rewrite forallb_forall in Hall. generalize dependent (x mod 10)%N. intros m Hm. apply Z.eqb_eq, Hall. cbn [In]. clear -Hm. lia. }
    cbn [parse_digits]. rewrite Hd. pose proof (N.div_mod x 10 ltac:(lia)) as Hdm.
    assert (He : Z.of_N (x / 10) * 10 + Z.of_N (x mod 10) = Z.of_N x) by lia. rewrite He.
    assert ((0 <=? Z.of_N (x mod 10)) && (Z.of_N (x mod 10) <=? 9) && (Z.of_N x <? bound) = true) as ->; [|done].
    rewrite !andb_true_iff, !Z.leb_le, Z.ltb_lt. clear -Hx Hm. generalize dependent (x mod 10)%N. intros m Hm.
    split_and!; lia.
  - pose proof (N.Div0.div_le_upper_bound x 10 x). lia.
Qed.

Lemma parse_uint_dec bound n : 0 <= n < bound -> parse_uint bound (fmt_dec (Z.to_nat n)) = Some n.
Proof.
  intros Hn. unfold fmt_dec, pretty, pretty_nat, pretty, pretty_N. destruct (decide (N.of_nat (Z.to_nat n) = 0%N)) as [E|E].
  - assert (n = 0) as -> by lia. change (parse_uint bound _) with (if 0 <? bound then Some 0 else None).
    destruct (0 <? bound) eqn:Eb; bool_hyps; [done|lia].
  - pose proof (parse_digits_pretty bound (N.of_nat (Z.to_nat n)) EmptyString 0 ltac:(lia) eq_refl) as Hp.
    cbn [parse_digits] in Hp. replace (Z.of_N (N.of_nat (Z.to_nat n))) with n in Hp by lia.
    unfold parse_uint. destruct (pretty_N_go _ _) as [|a s] eqn:Eg; [cbn in Hp; injection Hp as <-; lia|].
    destruct (Ascii.eqb_spec a "+"%char) as [->|_]; [|done]. done.
Qed.

(** ** Paths *)

Definition free_of (c : ascii) (s : string) : Prop := str_split c s = [s].

Lemma append_cons a s t : String a s +:+ t = String a (s +:+ t).
Proof. done. Qed.

Lemma append_empty s : s +:+ EmptyString = s.
Proof. induction s as [|a s IH]; [done|]. rewrite append_cons. by rewrite IH. Qed.

Lemma free_cons c a s : free_of c (String a s) <-> a <> c /\ free_of c s.
Proof.
  unfold free_of. cbn [str_split]. destruct (Ascii.eqb_spec a c) as [->|Hne]; [split; [|tauto]|].
  - intros [= ?]. 
  - destruct (str_split c s) as [|p ps] eqn:E; [by apply split_not_nil in E|]. naive_solver.
Qed.

Lemma free_app c s t : free_of c s -> free_of c t -> free_of c (s +:+ t).
Proof. induction s as [|a s IH]; [done|]. rewrite free_cons. intros [H1 H2] Ht. rewrite append_cons. apply free_cons. split; [done|]. by apply IH. Qed.

Lemma strip_prefix_app p s : strip_prefix p (p +:+ s) = Some s.
Proof. induction p as [|a p IH]; [done|]. rewrite append_cons. cbn [strip_prefix]. by rewrite Ascii.eqb_refl. Qed.

Lemma trim_end_free c s t : t <> EmptyString -> free_of c t -> trim_end_matches c (s +:+ t) = s +:+ t.
Proof.
  intros Hne Hf. assert (Ht : trim_end_matches c t = t).
  { clear Hne. induction t as [|a t IH]; [done|]. apply free_cons in Hf as [Ha Hf]. cbn [trim_end_matches]. rewrite IH by done.
    destruct t; [|done]. by destruct (Ascii.eqb_spec a c). }
  induction s as [|a s IH]; [done|]. rewrite append_cons. cbn [trim_end_matches]. rewrite IH. destruct (s +:+ t) eqn:E; [|done].
  exfalso. apply Hne. by destruct s.
Qed.

Lemma trim_start_free c s t : s <> EmptyString -> free_of c s -> trim_start_matches c (String c (s +:+ t)) = s +:+ t.
Proof.
  intros Hne Hf. destruct s as [|a s]; [done|]. apply free_cons in Hf as [Ha _].
  rewrite append_cons. cbn [trim_start_matches]. rewrite Ascii.eqb_refl. by destruct (Ascii.eqb_spec a c).
Qed.

Lemma hex_digit_free n : 0 <= n < 16 -> hex_digit n <> "/"%char.
Proof.
  intros H E. destruct (hex_digit_byte n H) as [Hb _]. rewrite E in Hb. unfold hex_byte in Hb. cbn in Hb. lia.
Qed.

Lemma session_id_free random : bytes_ok random -> free_of "/"%char (session_id_of random).
Proof.
  unfold session_id_of. induction 1 as [|b l Hb _ IH]; [done|]. cbn [map].
  assert (Hf : free_of "/"%char (fmt_02x b)).
  { unfold byte_ok in Hb. unfold fmt_02x. rewrite !free_cons. split_and!; [| |done]; apply hex_digit_free.
    - split; [apply Z.div_pos; lia|apply Z.div_lt_upper_bound; lia].
    - apply Z.mod_pos_bound. lia. }
  destruct (map fmt_02x l) eqn:E; [done|]. cbn [String.concat]. by apply free_app.
Qed.

Lemma session_id_nonempty b l : session_id_of (b :: l) <> EmptyString.
Proof. unfold session_id_of. cbn [map]. by destruct (map fmt_02x l). Qed.

Lemma pretty_free x s : free_of "/"%char s -> free_of "/"%char (pretty_N_go x s).
Proof.
  revert s. induction (N.lt_wf_0 x) as [x _ IH]; intros s Hs.
  destruct (decide (x = 0)%N) as [->|Hne]; [by rewrite pretty_N_go_0|].
  rewrite pretty_N_go_step by lia. apply IH; [apply N.div_lt; lia|]. apply free_cons. split; [|done].
  unfold pretty_N_char. by repeat case_match.
Qed.

Lemma dec_free n : free_of "/"%char (fmt_dec n) /\ fmt_dec n <> EmptyString.
Proof.
  unfold fmt_dec, pretty, pretty_nat, pretty, pretty_N. destruct (decide _) as [|Hne]; [done|]. split; [by apply pretty_free|].
  intros E. assert (Hl : forall x s, (String.length s <= String.length (pretty_N_go x s))%nat).
  { intros x. induction (N.lt_wf_0 x) as [x _ IH]; intros s. destruct (decide (x = 0)%N) as [->|?]; [by rewrite pretty_N_go_0|].
    rewrite pretty_N_go_step by lia. etrans; [|apply IH, N.div_lt; lia]. cbn. lia. }
  rewrite pretty_N_go_step in E by lia. specialize (Hl (N.of_nat n / 10)%N (String (pretty_N_char (N.of_nat n mod 10)) "")).
  rewrite E in Hl. cbn in Hl. lia.
Qed.

Lemma extract_session base s : s <> EmptyString -> free_of "/"%char s -> extract_meta (session_path base s) base = (s, EmptyString).
Proof.
  intros Hne Hf. unfold extract_meta, session_path. rewrite strip_prefix_app. cbn [default id]. unfold trim_matches.
  pose proof (trim_start_free "/"%char s EmptyString Hne Hf) as H0. rewrite append_empty in H0.
  change ("/" +:+ s) with (String "/"%char s). rewrite H0.
  pose proof (trim_end_free "/"%char EmptyString s Hne Hf) as H. change (EmptyString +:+ s) with s in H. rewrite H.
  rewrite bool_decide_eq_false_2 by done. by rewrite Hf.
Qed.

Lemma extract_packet base s n :
  s <> EmptyString -> free_of "/"%char s -> extract_meta (packet_path base s n) base = (s, fmt_dec (Z.to_nat n)).
Proof.
  intros Hne Hf. destruct (dec_free (Z.to_nat n)) as [Hd Hdne]. unfold extract_meta, packet_path.
  rewrite strip_prefix_app. cbn [default id]. unfold trim_matches. set (t := fmt_dec (Z.to_nat n)) in *.
  change ("/" +:+ s +:+ "/" +:+ t) with (String "/"%char (s +:+ String "/"%char t)).
  rewrite (trim_start_free "/"%char s (String "/"%char t) Hne Hf).
  assert (Happ : s +:+ String "/"%char t = (s +:+ String "/"%char EmptyString) +:+ t).
  { clear. induction s as [|a s IH]; [done|]. rewrite !append_cons. by rewrite IH. }
  rewrite Happ, trim_end_free, <- Happ by done.
  rewrite bool_decide_eq_false_2 by (by destruct s). rewrite split_app by done. cbn. by rewrite Hd.
Qed.

(** ** Response headers *)

Definition joined (reads : list (io_error + bytes)) : bytes :=
  concat (map (fun r => match r with inr b => b | inl _ => [] end) reads).

Lemma header_end_mono l r pos : find_header_end l = Some pos -> find_header_end (l ++ r) = Some pos /\ (pos <= length l)%nat.
Proof.
  unfold find_header_end. destruct (find_seq _ l) as [i|] eqn:E; [|done]. cbn. intros [= <-].
  destruct (find_seq_split _ _ _ E) as [_ Hl]. cbn [length] in Hl. rewrite (find_seq_mono _ l r i); [by split|cbn [length]; lia|done].
Qed.

Lemma headers_split buf reads head body :
  buf ++ joined reads = head ++ body -> find_header_end head = Some (length head) -> (length buf < length head)%nat ->
  Forall (fun r => exists b, r = inr b /\ b <> []) reads -> Z.of_nat (length head) <= 64 * 1024 ->
  exists leftover reads', read_http_headers buf reads = Some (status ← parse_status_code head; Ok (status, leftover), reads')
    /\ leftover ++ joined reads' = body.
Proof.
  revert buf. induction reads as [|r reads IH]; intros buf He Hh Hl Hr H64.
  { exfalso. cbn in He. rewrite app_nil_r in He. apply (f_equal length) in He. rewrite length_app in He. lia. }
  apply Forall_cons in Hr as [(b & -> & Hb) Hr]. cbn [read_http_headers]. destruct b as [|x b]; [done|]. set (t := x :: b) in *.
  assert (He' : (buf ++ t) ++ joined reads = head ++ body) by (rewrite <- app_assoc; exact He).
  destruct (decide (length (buf ++ t) < length head)%nat) as [Hlt|Hge].
  - destruct (find_header_end (buf ++ t)) as [pos|] eqn:Hf.
    + exfalso. destruct (header_end_mono _ (joined reads) _ Hf) as [H1 H2].
      destruct (header_end_mono _ body _ Hh) as [H3 _]. rewrite He', H3 in H1. injection H1 as <-. lia.
    + destruct (_ <? _) eqn:E; bool_hyps; [lia|]. by apply IH.
  - assert (Hp : buf ++ t = head ++ drop (length head) (buf ++ t)).
    { rewrite <- (take_drop (length head) (buf ++ t)) at 1. f_equal.
      rewrite <- (take_app_le (buf ++ t) (joined reads)), He' by lia. apply take_app_length. }
    rewrite Hp. destruct (header_end_mono _ (drop (length head) (buf ++ t)) _ Hh) as [-> _].
    rewrite take_app_length, drop_app_length. eexists _, reads. split; [reflexivity|].
    rewrite Hp, <- app_assoc in He'. by apply app_inv_head in He'.
Qed.

(** ** Properties *)

(** the client reads exactly the chunked body. However the connection cuts it into
    reads and however the caller polls, what the decoder has delivered is a prefix of
    the payload and the rest is still to come; it ends exactly with the payload,
    never panics, fails only with an error of the connection, and waits only for the
    connection. *)
Theorem chunked_reader_exact (inner : reader) (leftover p data : bytes) (d : ChunkedDecoder)
    (Hb : body (leftover ++ rd_src inner) p) (Hr : decoder_reads (decoder_new inner leftover) data d) :
  exists rest, p = data ++ rest
    /\ forall room, room <> O ->
       match decoder_poll_read d room with
       | (Ready (Ok []), d') => rest = []
       | (Ready (Ok x), d') => exists y, rest = x ++ y
       | (Ready (Err e), _) => ReadErr e ∈ rd_answers (cd_inner d)
       | (Ready Panic, _) => False
       | (NotReady, d') => ReadPending ∈ rd_answers (cd_inner d) \/ rd_answers (cd_inner d') = []
       end.
Proof.
  destruct (decoder_reads_ok _ _ _ p Hr Hb) as (rest & -> & Hm). exists rest. split; [done|]. intros room Hroom.
  pose proof (decoder_poll_ok d room rest Hm) as Hk. pose proof (decode_loop_waits (length (rd_answers (cd_inner d)) + 5) d room) as Hw.
  unfold decoder_poll_read in *. destruct (cd_eof d) eqn:He; [unfold means in Hm; by rewrite He in Hm|].
  destruct (decode_loop _ d room) as [[[x|e|]|] d']; cbn [fst snd] in Hw; cbn in Hk; [|done..|].
  - destruct Hk as (q & -> & Hq & Hx). destruct x; [|by eexists]. destruct (Hx eq_refl) as [|Hx']; [done|].
    unfold means in Hq. by rewrite Hx' in Hq.
  - destruct (decide (ReadPending ∈ rd_answers (cd_inner d))); [by left|right]. by apply Hw.
Qed.

(** what the client writes is a chunked body of its data. Whatever the connection
    accepts at each poll, once the writes and the shutdown are done it has been sent
    the chunks of the written buffers and the last chunk, which the decoder reads as
    their concatenation. *)
Theorem chunked_writer_exact (answers : list write_answer) (bufs : list bytes) (e e' : ChunkedEncoder)
    (Hbufs : Forall (fun b => b <> [] /\ Z.of_nat (length b) < 2 ^ 64) bufs)
    (Hw : encoder_writes (encoder_new {| wr_answers := answers; wr_out := [] |}) bufs e) (Hc : encoder_closes e e') :
  wr_out (ce_inner e') = framed bufs ++ last_chunk
  /\ forall rest, body (wr_out (ce_inner e') ++ rest) (concat bufs).
Proof.
  assert (Hi : idle_with e ([] ++ framed bufs)).
  { eapply encoder_writes_ok; [exact Hw| |by left]. eapply Forall_impl; [exact Hbufs|]. by intros b [? _]. }
  pose proof (closes_ok _ _ _ Hc (or_introl Hi)) as Ho. cbn [app] in Ho. rewrite Ho. split; [done|].
  intros rest. rewrite <- app_assoc. by apply framed_body.
Qed.

(** the response's headers are split off exactly. However the reads cut the
    response, the status is that of the headers up to their first blank line, and the
    bytes already read past it followed by those still to come are the body. *)
Theorem response_headers_exact (reads : list (io_error + bytes)) (head rest : bytes)
    (He : joined reads = head ++ rest) (Hh : find_header_end head = Some (length head))
    (Hr : Forall (fun r => exists b, r = inr b /\ b <> []) reads) (H64 : Z.of_nat (length head) <= 64 * 1024) :
  exists leftover reads', read_http_headers [] reads = Some (status ← parse_status_code head; Ok (status, leftover), reads')
    /\ leftover ++ joined reads' = rest.
Proof.
  apply headers_split; [done..| |done|done]. unfold find_header_end in Hh. destruct (find_seq _ head); [|done].
  cbn in Hh. injection Hh. cbn. lia.
Qed.

(** the server finds the client's session and numbers. With the same configured
    path both sides use the same base path, the server reads the client's session id
    from the paths of the download and of every packet, and the number it reads from
    the path of the n-th written payload is n, each payload posted once and in
    order while posts succeed. *)
Theorem xhttp_client_server_agree (server : XhttpConfig) (client : XhttpClientConfig) (random : bytes)
    (payloads : list bytes) (i : nat) (payload : bytes)
    (Hpath : xc_path server = xcl_path client) (Hrandom : length random = 16%nat /\ bytes_ok random)
    (Hi : payloads !! i = Some payload) (H64 : Z.of_nat i < 2 ^ 64) :
  let base := client_normalized_path client in
  let session := session_id_of random in
  normalized_path server = base
  /\ extract_meta (session_path base session) base = (session, EmptyString)
  /\ exists path, post_loop base session (fun _ _ => true) 0 payloads !! i = Some (path, payload)
     /\ exists seq, extract_meta path base = (session, seq) /\ parse_uint (2 ^ 64) seq = Some (Z.of_nat i).
Proof.
  cbn zeta. destruct Hrandom as [Hl Hok]. set (base := client_normalized_path client).
  assert (Hne : session_id_of random <> EmptyString) by (destruct random; [done|apply session_id_nonempty]).
  pose proof (session_id_free random Hok) as Hf. split; [|split; [by apply extract_session|]].
  - unfold base, normalized_path, client_normalized_path. rewrite Hpath. destruct (split_first _ _); done.
  - assert (Hp : forall n ps j, ps !! j = Some payload ->
      post_loop base (session_id_of random) (fun _ _ => true) n ps !! j
      = Some (packet_path base (session_id_of random) (n + Z.of_nat j), payload)).
    { intros n ps. revert n. induction ps as [|x ps IH]; intros n j Hj; [done|]. destruct j as [|j].
      - injection Hj as ->. cbn [post_loop]. by rewrite Z.add_0_r.
      - cbn [post_loop]. rewrite lookup_cons. rewrite (IH (n + 1) j Hj). do 3 f_equal. lia. }
    eexists. split; [by apply Hp|]. eexists. split; [by apply extract_packet|]. rewrite Z.add_0_l. apply parse_uint_dec. lia.
Qed.

(** ** Witnesses *)

Definition demo_hello : bytes := bytes_of_string "hello".

Definition demo_reader : reader :=
  {| rd_answers := [ReadUpTo 0; ReadUpTo 3; ReadPending; ReadUpTo 9];
     rd_src := [10] ++ demo_hello ++ CRLF ++ last_chunk |}.

Definition demo_decoder : ChunkedDecoder := (decoder_poll_read (decoder_new demo_reader [53; 13]) 2).2.

Lemma chunked_reader_exact_witness : exists rest, demo_hello = [104; 101] ++ rest /\ rest <> [].
Proof.
  destruct (chunked_reader_exact demo_reader [53; 13] demo_hello [104; 101] demo_decoder) as (rest & H & _).
  - exact (body_chunk [53] demo_hello last_chunk [] ltac:(vm_compute; reflexivity) ltac:(vm_compute; reflexivity)
             ltac:(discriminate) (body_last [48] CRLF ltac:(vm_compute; reflexivity) ltac:(vm_compute; reflexivity))).
  - exact (reads_got (decoder_new demo_reader [53; 13]) 2 [104; 101] demo_decoder [] demo_decoder ltac:(vm_compute; reflexivity) (reads_none _)).
  - exists rest. split; [exact H|]. intros ->. discriminate H.
Defined.

Definition demo_answers : list write_answer := [WriteOk 3; WritePending; WriteOk 100; WriteOk 2; WritePending; WriteOk 9].
Definition demo_encoder (polls : nat) : ChunkedEncoder :=
  Nat.iter polls (fun e => (encoder_poll_write e demo_hello).2) (encoder_new {| wr_answers := demo_answers; wr_out := [] |}).
Definition demo_closing : ChunkedEncoder := (encoder_poll_shutdown (demo_encoder 2) (Ready (Ok tt))).2.
Definition demo_closed : ChunkedEncoder := (encoder_poll_shutdown demo_closing (Ready (Ok tt))).2.

Lemma chunked_writer_exact_witness :
  wr_out (ce_inner demo_closed) = bytes_of_string "5" ++ CRLF ++ demo_hello ++ CRLF ++ last_chunk
  /\ body (wr_out (ce_inner demo_closed) ++ []) demo_hello.
Proof.
  split; [vm_compute; reflexivity|].
  apply (chunked_writer_exact demo_answers [demo_hello] (demo_encoder 2) demo_closed).
  - constructor; [|constructor]. split; [discriminate|reflexivity].
  - refine (writes_again _ _ _ (demo_encoder 1) _ _ (writes_done _ _ _ 5 (demo_encoder 2) _ _ (writes_none _)));
      vm_compute; reflexivity.
  - refine (closes_again _ demo_closing _ _ (closes_done _ _ _)); vm_compute; reflexivity.
Defined.

Lemma response_headers_exact_witness :
  exists leftover reads', read_http_headers [] [inr (bytes_of_string "HTTP/1.1 200 OK" ++ CRLF ++ [13]); inr (10 :: demo_hello)]
    = Some (status ← parse_status_code (bytes_of_string "HTTP/1.1 200 OK" ++ CRLF ++ CRLF); Ok (status, leftover), reads')
    /\ leftover ++ joined reads' = demo_hello
    /\ parse_status_code (bytes_of_string "HTTP/1.1 200 OK" ++ CRLF ++ CRLF) = Ok 200.
Proof.
  destruct (response_headers_exact [inr (bytes_of_string "HTTP/1.1 200 OK" ++ CRLF ++ [13]); inr (10 :: demo_hello)]
    (bytes_of_string "HTTP/1.1 200 OK" ++ CRLF ++ CRLF) demo_hello) as (leftover & reads' & H1 & H2).
  - reflexivity.
  - vm_compute. reflexivity.
  - constructor; [eexists; split; [reflexivity|discriminate]|].
    constructor; [eexists; split; [reflexivity|discriminate]|constructor].
  - vm_compute. discriminate.
  - exists leftover, reads'. split; [exact H1|]. split; [exact H2|vm_compute; reflexivity].
Defined.

Lemma xhttp_client_server_agree_witness :
  extract_meta (session_path "/x" (session_id_of (seqZ 0 16))) "/x" = (session_id_of (seqZ 0 16), EmptyString).
Proof.
  apply (xhttp_client_server_agree
    {| xc_path := "x"; xc_host := None; xc_mode := Auto; xc_padding := padding_default; xc_no_sse_header := false |}
    {| xcl_path := "x"; xcl_host := "h"; xcl_mode := PacketUp; xcl_padding := padding_default |}
    (seqZ 0 16) [[1]; [2]] 1 [2]).
  - reflexivity.
  - split; [reflexivity|]. apply (bool_decide_eq_true_1 (bytes_ok (seqZ 0 16))). vm_compute. reflexivity.
  - reflexivity.
  - reflexivity.
Defined.
