(* ===== verification/Metrics.v ===== *)
(** * The endpoint of the metrics
    Models crates/skadi-server/src/observability/http.rs: the loop of the listener and
    the answer to one connection. The text of the metrics is the Prometheus crate's
    and a parameter; [String::from_utf8_lossy] is modelled here. *)

From Stdlib Require Import Ascii String.
From stdpp Require Import base list list_numbers numbers strings pretty.
From S2P Require Import Prelude Core Io VlessConfig External XhttpClient.

(** ** [String::from_utf8_lossy]
    Each maximal part that may begin a character but does not make one is replaced
    by U+FFFD. *)

Definition REPLACEMENT : bytes := [0xEF; 0xBF; 0xBD].

(** The second byte of a character of three or four bytes. *)
Definition second3 (b0 b1 : Z) : bool :=
  if b0 =? 0xE0 then (0xA0 <=? b1) && (b1 <=? 0xBF)
  else if b0 =? 0xED then (0x80 <=? b1) && (b1 <=? 0x9F)
  else utf8_cont b1.

Definition second4 (b0 b1 : Z) : bool :=
  if b0 =? 0xF0 then (0x90 <=? b1) && (b1 <=? 0xBF)
  else if b0 =? 0xF4 then (0x80 <=? b1) && (b1 <=? 0x8F)
  else utf8_cont b1.

Fixpoint utf8_lossy (l : bytes) : bytes :=
  match l with
  | [] => []
  | b0 :: t =>
    if b0 <? 0x80 then b0 :: utf8_lossy t
    else match t with
    | [] => REPLACEMENT
    | b1 :: t1 =>
      if (0xC2 <=? b0) && (b0 <=? 0xDF) then
        if utf8_cont b1 then b0 :: b1 :: utf8_lossy t1 else REPLACEMENT ++ utf8_lossy t
      else if (0xE0 <=? b0) && (b0 <=? 0xEF) then
        if second3 b0 b1 then
          match t1 with
          | [] => REPLACEMENT
          | b2 :: t2 => if utf8_cont b2 then b0 :: b1 :: b2 :: utf8_lossy t2 else REPLACEMENT ++ utf8_lossy t1
          end
        else REPLACEMENT ++ utf8_lossy t
      else if (0xF0 <=? b0) && (b0 <=? 0xF4) then
        if second4 b0 b1 then
          match t1 with
          | [] => REPLACEMENT
          | b2 :: t2 =>
            if utf8_cont b2 then
              match t2 with
              | [] => REPLACEMENT
              | b3 :: t3 => if utf8_cont b3 then b0 :: b1 :: b2 :: b3 :: utf8_lossy t3 else REPLACEMENT ++ utf8_lossy t2
              end
            else REPLACEMENT ++ utf8_lossy t1
          end
        else REPLACEMENT ++ utf8_lossy t
      else REPLACEMENT ++ utf8_lossy t
    end
  end.

(** ** One connection *)

Definition crlf : string := String "013"%char (String "010"%char EmptyString).

Definition request_path (buf : bytes) : string :=
  let request := string_of_bytes (utf8_lossy buf) in
  match split_whitespace (hd EmptyString (str_lines request)) !! 1%nat with
  | Some path => path
  | None => "/"
  end.

(** Status, body and content type; [render] is what [prom.render()] gives. *)
Definition route (render path : string) : string * string * string :=
  if bool_decide (path = "/healthz"%string)
  then ("200 OK", "ok" +:+ String "010"%char EmptyString, "text/plain; charset=utf-8")%string
  else if bool_decide (path = "/metrics"%string)
  then ("200 OK", render, "text/plain; version=0.0.4; charset=utf-8")%string
  else ("404 Not Found", "", "text/plain; charset=utf-8")%string.

Definition http_response (status content_type body : string) : bytes :=
  bytes_of_string ("HTTP/1.1 " +:+ status +:+ crlf +:+ "Content-Type: " +:+ content_type +:+ crlf
    +:+ "Content-Length: " +:+ fmt_dec (String.length body) +:+ crlf +:+ "Connection: close" +:+ crlf +:+ crlf +:+ body).

(** What a connection does: the one read of at most 2048 bytes, and how writing and
    shutting down go. *)
Record exchange := {
  ex_read : io_error + bytes;
  ex_write : option io_error;
  ex_shutdown : option io_error
}.

(** [serve_connection]: its result and what was sent. *)
Definition serve_metrics (render : string) (x : exchange) : res anyhow unit * bytes :=
  match ex_read x with
  | inl e => (Err (anyhow_of_io e), [])
  | inr [] => (Ok tt, [])
  | inr buf =>
    let '(status, body, content_type) := route render (request_path buf) in
    let response := http_response status content_type body in
    match ex_write x with
    | Some e => (Err (anyhow_of_io e), [])
    | None => (match ex_shutdown x with Some e => Err (anyhow_of_io e) | None => Ok tt end, response)
    end
  end.

(** ** The listener *)

Inductive metrics_event :=
| MetricsShutdown (value : bool)
| MetricsAccepted (x : exchange)
| MetricsAcceptError (e : io_error).

(** The connections that were served, and whether the loop is still running. *)
Fixpoint metrics_loop (render : string) (evs : list metrics_event) : list (res anyhow unit * bytes) * bool :=
  match evs with
  | [] => ([], true)
  | MetricsShutdown true :: _ => ([], false)
  | MetricsAccepted x :: evs => let '(l, b) := metrics_loop render evs in (serve_metrics render x :: l, b)
  | _ :: evs => metrics_loop render evs
  end.

(** ** Lemmas *)

Definition visible (s : string) : Prop := Forall (fun b => 33 <= b < 127) (bytes_of_string s).

Lemma lossy_ascii a l : Forall (fun b => 0 <= b < 128) a -> utf8_lossy (a ++ l) = a ++ utf8_lossy l.
Proof.
  induction 1 as [|b a Hb Ha IH]; [done|]. cbn [app utf8_lossy]. rewrite (proj2 (Z.ltb_lt b 0x80)) by lia. by rewrite IH.
Qed.

(** Valid text is kept as it is. *)
Lemma lossy_valid n : forall l, (length l <= n)%nat -> utf8_valid l = true -> utf8_lossy l = l.
Proof.
  induction n as [|n IH]; intros [|b0 t] Hn; try done; [cbn in Hn; lia|]. cbn [utf8_valid utf8_lossy length] in *.
  destruct (b0 <? 0x80); [intros H; by rewrite IH by (lia || done)|].
  destruct t as [|b1 t1]; [done|]. cbn [length] in Hn.
  destruct ((0xC2 <=? b0) && (b0 <=? 0xDF)).
  { intros [-> H]%andb_true_iff. by rewrite IH by (lia || done). }
  destruct t1 as [|b2 t2]; [done|]. cbn [length] in Hn.
  destruct ((0xE0 <=? b0) && (b0 <=? 0xEF)).
  { fold (second3 b0 b1). intros [[-> ->]%andb_true_iff H]%andb_true_iff. by rewrite IH by (lia || done). }
  destruct t2 as [|b3 t3]; [done|]. cbn [length] in Hn.
  destruct ((0xF0 <=? b0) && (b0 <=? 0xF4)); [|done].
  fold (second4 b0 b1). intros [[[-> ->]%andb_true_iff ->]%andb_true_iff H]%andb_true_iff. by rewrite IH by (lia || done).
Qed.

Lemma trim_start_visible b r : 33 <= b < 127 -> trim_start (b :: r) = b :: r.
Proof.
  intros Hb. cbn [trim_start]. destruct (_ || _) eqn:E; [apply orb_true_iff in E as [E|E]; bool_hyps; lia|].
  destruct b as [|p|p]; try lia. do 8 (destruct p as [p|p|]; try lia; try done).
Qed.

Lemma trim_start_le n : forall l, (length l <= n)%nat -> (length (trim_start l) <= length l)%nat.
Proof.
  induction n as [|n IH]; intros [|b t] Hn; [done|cbn in Hn; lia|done|]. cbn [length] in Hn. cbn [trim_start].
  destruct (_ || _); [pose proof (IH t ltac:(lia)); cbn [length]; lia|].
  repeat (case_match; subst; cbn [length] in *; try lia);
    match goal with |- (length (trim_start ?l) <= _)%nat => pose proof (IH l ltac:(lia)); lia end.
Qed.

(** A visible word ends at a space or at the end. *)
Definition word_end (r : bytes) : Prop := r = [] \/ exists t, r = 32 :: t.

Lemma take_word_visible w r :
  Forall (fun b => 33 <= b < 127) w -> word_end r -> take_word (w ++ r) = (w, r).
Proof.
  intros Hw Hr. induction Hw as [|b w Hb Hw IH]; cbn [app take_word].
  - destruct Hr as [->|[t ->]]; [done|]. cbn [take_word].
    assert (starts_blank (32 :: t) = true) as ->; [|done]. apply Nat.ltb_lt.
    change (trim_start (32 :: t)) with (trim_start t). pose proof (trim_start_le (length t) t ltac:(done)). cbn [length]. lia.
  - unfold starts_blank. rewrite trim_start_visible, Nat.ltb_irrefl, IH by done. done.
Qed.

(** The second word of a line. *)
Lemma second_word m q r :
  visible m -> visible q -> m <> EmptyString -> q <> EmptyString -> word_end (bytes_of_string r) ->
  split_whitespace (m +:+ " " +:+ q +:+ r) !! 1%nat = Some q.
Proof.
  intros Hm Hq Nm Nq Hr. unfold split_whitespace. rewrite <- length_bytes_of_string.
  rewrite !bytes_of_string_append. change (bytes_of_string " ") with [32].
  unfold visible in Hm, Hq.
  destruct (bytes_of_string m) as [|a1 m1] eqn:Em; [by destruct m|].
  destruct (bytes_of_string q) as [|a2 q1] eqn:Eq; [by destruct q|].
  set (rest := bytes_of_string r) in *.
  assert (H1 : trim_start ((a1 :: m1) ++ [32] ++ (a2 :: q1) ++ rest) = (a1 :: m1) ++ [32] ++ (a2 :: q1) ++ rest)
    by (apply trim_start_visible; by apply Forall_inv in Hm).
  assert (H2 : trim_start ([32] ++ (a2 :: q1) ++ rest) = (a2 :: q1) ++ rest)
    by (apply (trim_start_visible a2 (q1 ++ rest)); by apply Forall_inv in Hq).
  replace (length ((a1 :: m1) ++ [32] ++ (a2 :: q1) ++ rest)) with (S (S (length m1 + S (length q1 + length rest))))
    by (cbn [length app]; rewrite length_app; cbn [length]; rewrite length_app; lia).
  cbn [words]. rewrite H1. cbn [app] in *.
  change (a1 :: m1 ++ 32 :: a2 :: q1 ++ rest) with ((a1 :: m1) ++ 32 :: a2 :: q1 ++ rest).
  rewrite take_word_visible by (done || right; by eexists). rewrite H2.
  change (a2 :: q1 ++ rest) with ((a2 :: q1) ++ rest). rewrite take_word_visible by done.
  cbn [map lookup list_lookup]. by rewrite <- Eq, string_of_bytes_of_string.
Qed.

Lemma visible_one_line s r : visible s -> one_line r -> one_line (s +:+ r).
Proof.
  unfold visible. rewrite !one_line_bytes, bytes_of_string_append, Forall_app. intros Hs Hr. split; [|done].
  eapply Forall_impl; [exact Hs|]. cbn. lia.
Qed.

(** The first line of a text. *)
Lemma first_line_ended l t : one_line l -> hd EmptyString (str_lines (l +:+ String newline t)) = strip_cr l.
Proof.
  intros Hl. unfold str_lines. rewrite split_app by done. cbn [rev].
  pose proof (split_not_nil newline t) as Hn. destruct (rev (str_split newline t)) as [|x r] eqn:E.
  - apply (f_equal (@rev _)) in E. rewrite rev_involutive in E. done.
  - cbn [app]. destruct x; rewrite rev_app_distr; done.
Qed.

Lemma first_line_open l : one_line l -> hd EmptyString (str_lines l) = l.
Proof. unfold str_lines. intros ->. cbn. by destruct l. Qed.

Lemma string_of_bytes_app a b : string_of_bytes (a ++ b) = string_of_bytes a +:+ string_of_bytes b.
Proof. induction a as [|x a IH]; [done|]. cbn [app string_of_bytes]. by rewrite IH. Qed.

Lemma visible_ascii s : visible s -> Forall (fun b => 0 <= b < 128) (bytes_of_string s).
Proof. intros H. eapply Forall_impl; [exact H|]. cbn. lia. Qed.

Lemma strip_cr_ended s : strip_cr (s +:+ String "013"%char EmptyString) = s.
Proof.
  unfold strip_cr. rewrite bytes_of_string_append. cbn [bytes_of_string]. rewrite rev_app_distr. cbn [rev app].
  change (Z.of_N (N_of_ascii "013") =? 13) with true. cbn iota. by rewrite rev_involutive, string_of_bytes_of_string.
Qed.

(** The path of a request whose first line is complete. *)
Lemma path_of_line m q v more :
  visible m -> visible q -> visible v -> m <> EmptyString -> q <> EmptyString ->
  request_path (bytes_of_string (m +:+ " " +:+ q +:+ " " +:+ v +:+ crlf) ++ more) = q.
Proof.
  intros Hm Hq Hv Nm Nq. unfold request_path.
  assert (Ha : Forall (fun b => 0 <= b < 128) (bytes_of_string (m +:+ " " +:+ q +:+ " " +:+ v +:+ crlf))).
  { rewrite !bytes_of_string_append, !Forall_app. split_and!; try (by apply visible_ascii); repeat constructor; lia. }
  rewrite lossy_ascii, string_of_bytes_app, string_of_bytes_of_string by done.
  set (line := m +:+ " " +:+ q +:+ " " +:+ v).
  assert (Hone : one_line (line +:+ String "013"%char EmptyString)).
  { unfold line. rewrite !append_assoc. repeat (apply visible_one_line; [done|]).
    rewrite one_line_bytes, !bytes_of_string_append, !Forall_app. unfold visible in *.
    split_and!; try (eapply Forall_impl; [eassumption|cbn; lia]); repeat constructor; done. }
  replace ((m +:+ " " +:+ q +:+ " " +:+ v +:+ crlf) +:+ string_of_bytes (utf8_lossy more))
    with ((line +:+ String "013"%char EmptyString) +:+ String newline (string_of_bytes (utf8_lossy more)))
    by (unfold line, crlf; rewrite !append_assoc; done).
  rewrite first_line_ended, strip_cr_ended by done.
  unfold line. rewrite (second_word m q (" " +:+ v)); [done..|]. right. eexists. by rewrite bytes_of_string_append.
Qed.

(** ... and of one whose first read ends inside the path. *)
Lemma path_of_cut m q :
  visible m -> visible q -> m <> EmptyString -> q <> EmptyString -> request_path (bytes_of_string (m +:+ " " +:+ q)) = q.
Proof.
  intros Hm Hq Nm Nq. unfold request_path.
  assert (Ha : Forall (fun b => 0 <= b < 128) (bytes_of_string (m +:+ " " +:+ q))).
  { rewrite !bytes_of_string_append, !Forall_app. split_and!; try (by apply visible_ascii); repeat constructor; lia. }
  rewrite <- (app_nil_r (bytes_of_string _)), lossy_ascii, app_nil_r, string_of_bytes_of_string by done.
  rewrite first_line_open.
  - pose proof (second_word m q EmptyString Hm Hq Nm Nq (or_introl eq_refl)) as H. rewrite append_empty in H. by rewrite H.
  - apply visible_one_line; [done|]. rewrite one_line_bytes, bytes_of_string_append, Forall_app. unfold visible in Hq.
    split; [repeat constructor; done|]. eapply Forall_impl; [exact Hq|cbn; lia].
Qed.

(** ** Properties *)

(** the endpoint answers by path. A request that arrives whole in the one read is
    answered by its path alone, whatever the method, the headers and the bytes after
    the request line: the health text, the rendered metrics, or 404 without a body;
    the announced length is the body's and the connection is closed. *)
Theorem metrics_answers_path (render m q v : string) (more : bytes)
    (Hm : visible m) (Hq : visible q) (Hv : visible v) (Nm : m <> EmptyString) (Nq : q <> EmptyString) :
  serve_metrics render {| ex_read := inr (bytes_of_string (m +:+ " " +:+ q +:+ " " +:+ v +:+ crlf) ++ more);
                          ex_write := None; ex_shutdown := None |}
  = (Ok tt,
     if bool_decide (q = "/healthz"%string)
     then http_response "200 OK" "text/plain; charset=utf-8" ("ok" +:+ String newline EmptyString)
     else if bool_decide (q = "/metrics"%string)
     then http_response "200 OK" "text/plain; version=0.0.4; charset=utf-8" render
     else http_response "404 Not Found" "text/plain; charset=utf-8" EmptyString).
Proof.
  unfold serve_metrics. cbn [ex_read ex_write ex_shutdown].
  destruct (bytes_of_string _ ++ more) as [|b t] eqn:E.
  { apply app_eq_nil in E as [E _]. destruct m; [done|]. done. }
  rewrite <- E, path_of_line by done. unfold route. repeat case_bool_decide; done.
Qed.

(** a request that arrives in pieces is misread. Only one read is made: a scrape whose
    first segment ends inside the path is answered with 404. *)
Theorem metrics_cut_request_refused (render m q : string)
    (Hm : visible m) (Hq : visible q) (Nm : m <> EmptyString) (Nq : q <> EmptyString)
    (N1 : q <> "/healthz"%string) (N2 : q <> "/metrics"%string) :
  serve_metrics render {| ex_read := inr (bytes_of_string (m +:+ " " +:+ q)); ex_write := None; ex_shutdown := None |}
  = (Ok tt, http_response "404 Not Found" "text/plain; charset=utf-8" EmptyString).
Proof.
  unfold serve_metrics. cbn [ex_read ex_write ex_shutdown].
  destruct (bytes_of_string (m +:+ " " +:+ q)) as [|b t] eqn:E; [by destruct m|].
  rewrite <- E, path_of_cut by done. unfold route. by rewrite !bool_decide_eq_false_2.
Qed.

(** a failing connection does not stop the endpoint. The loop runs until it is told
    to stop, and serves every connection accepted before that. *)
Theorem metrics_loop_serves (render : string) (evs : list metrics_event) :
  (metrics_loop render evs).2 = false <-> MetricsShutdown true ∈ evs.
Proof.
  induction evs as [|ev evs IH]; [split; [done|by intros ?%not_elem_of_nil]|]. rewrite elem_of_cons.
  destruct ev as [[|]|x|e]; cbn [metrics_loop].
  - split; [by left|done].
  - rewrite IH. naive_solver.
  - destruct (metrics_loop render evs). cbn [snd] in *. rewrite IH. naive_solver.
  - rewrite IH. naive_solver.
Qed.

(** ** Witnesses *)

Lemma metrics_answers_path_witness :
  serve_metrics "m 1" {| ex_read := inr (bytes_of_string ("GET" +:+ " " +:+ "/metrics" +:+ " " +:+ "HTTP/1.1" +:+ crlf) ++ [0xFF; 13; 10]);
                         ex_write := None; ex_shutdown := None |}
  = (Ok tt, http_response "200 OK" "text/plain; version=0.0.4; charset=utf-8" "m 1").
Proof.
  apply (metrics_answers_path "m 1" "GET" "/metrics" "HTTP/1.1" [0xFF; 13; 10]).
  - repeat constructor; vm_compute; discriminate.
  - repeat constructor; vm_compute; discriminate.
  - repeat constructor; vm_compute; discriminate.
  - discriminate.
  - discriminate.
Defined.

Lemma metrics_cut_request_refused_witness :
  serve_metrics "m 1" {| ex_read := inr (bytes_of_string ("GET" +:+ " " +:+ "/met")); ex_write := None; ex_shutdown := None |}
  = (Ok tt, http_response "404 Not Found" "text/plain; charset=utf-8" EmptyString).
Proof.
  apply (metrics_cut_request_refused "m 1" "GET" "/met").
  - repeat constructor; vm_compute; discriminate.
  - repeat constructor; vm_compute; discriminate.
  - discriminate.
  - discriminate.
  - discriminate.
  - discriminate.
Defined.
