(* ===== verification/Logging.v ===== *)
(** * The log writer
    Models [RedactingWriterGuard] of
    crates/skadi-server/src/observability/tracing_init.rs, the writer through which
    every log line goes: bytes are collected by [write], and [flush] passes complete
    lines on with bearer tokens masked. The type has no [Drop], so that a writer that
    goes away takes what it collected with it. The subscriber that uses the writer is
    a library, a parameter. *)

From Stdlib Require Import Ascii String.
From stdpp Require Import base list list_numbers numbers strings.
From S2P Require Import Prelude Core Io Metrics.

(** Standard output: what arrived, and the errors to come. *)
Record stdout := { so_out : bytes; so_errors : list (option io_error) }.

(** One [write_all] or [flush] of standard output. *)
Definition stdout_call (data : bytes) (o : stdout) : stdout * option io_error :=
  match so_errors o with
  | Some e :: es => ({| so_out := so_out o; so_errors := es |}, Some e)
  | None :: es => ({| so_out := so_out o ++ data; so_errors := es |}, None)
  | [] => ({| so_out := so_out o ++ data; so_errors := [] |}, None)
  end.

Record RedactingWriterGuard := { rg_inner : stdout; rg_buffer : bytes }.

Definition guard_new (inner : stdout) : RedactingWriterGuard := {| rg_inner := inner; rg_buffer := [] |}.

(** [write] takes everything. *)
Definition guard_write (g : RedactingWriterGuard) (buf : bytes) : RedactingWriterGuard * nat :=
  ({| rg_inner := rg_inner g; rg_buffer := rg_buffer g ++ buf |}, length buf).

(** [position] of the first line end, and [drain(..=pos)]. *)
Fixpoint drain_line (buffer : bytes) : option (bytes * bytes) :=
  match buffer with
  | [] => None
  | b :: t =>
    if b =? 10 then Some ([b], t)
    else match drain_line t with
         | Some (line, rest) => Some (b :: line, rest)
         | None => None
         end
  end.

Definition redacted_line (line : bytes) : bytes := redact_bearer_tokens (utf8_lossy line).

(** The loop of [flush]; a turn takes a line off the buffer, so the length of the
    buffer bounds the turns. *)
Fixpoint flush_lines (fuel : nat) (g : RedactingWriterGuard) : RedactingWriterGuard * option io_error :=
  match fuel with
  | O => (g, None)
  | S fuel =>
    match drain_line (rg_buffer g) with
    | None => (g, None)
    | Some (line, rest) =>
      match stdout_call (redacted_line line) (rg_inner g) with
      | (inner, Some e) => ({| rg_inner := inner; rg_buffer := rest |}, Some e)
      | (inner, None) => flush_lines fuel {| rg_inner := inner; rg_buffer := rest |}
      end
    end
  end.

Definition guard_flush (g : RedactingWriterGuard) : RedactingWriterGuard * option io_error :=
  match flush_lines (length (rg_buffer g)) g with
  | (g, Some e) => (g, Some e)
  | (g, None) =>
    let '(inner, e) := stdout_call [] (rg_inner g) in
    ({| rg_inner := inner; rg_buffer := rg_buffer g |}, e)
  end.

(** Dropping the writer drops its buffer. *)
Definition guard_drop (g : RedactingWriterGuard) : stdout := rg_inner g.

Inductive guard_call := CallWrite (buf : bytes) | CallFlush.

Definition guard_do (g : RedactingWriterGuard) (c : guard_call) : RedactingWriterGuard :=
  match c with
  | CallWrite buf => (guard_write g buf).1
  | CallFlush => (guard_flush g).1
  end.

(** [with_writer(|| RedactingWriterGuard { .. })]: one writer for every event, on
    which the subscriber makes its calls. *)
Definition log_event (subscriber : bytes -> list guard_call) (o : stdout) (event : bytes) : stdout :=
  guard_drop (foldl guard_do (guard_new o) (subscriber event)).

Definition log_run (subscriber : bytes -> list guard_call) (o : stdout) (events : list bytes) : stdout :=
  foldl (log_event subscriber) o events.

(** ** Specification *)

(** The complete lines of a text, with their line ends, and what follows them. *)
Fixpoint lines_of (l : bytes) : list bytes * bytes :=
  match l with
  | [] => ([], [])
  | b :: t =>
    let '(ls, rest) := lines_of t in
    if b =? 10 then ([b] :: ls, rest)
    else match ls with
         | [] => ([], b :: rest)
         | line :: ls => ((b :: line) :: ls, rest)
         end
  end.

(** What a sequence of calls wrote before its last flush, and after it. *)
Fixpoint split_calls (flushed pending : bytes) (cs : list guard_call) : bytes * bytes :=
  match cs with
  | [] => (flushed, pending)
  | CallWrite buf :: cs => split_calls flushed (pending ++ buf) cs
  | CallFlush :: cs => split_calls (flushed ++ pending) [] cs
  end.

Definition written_out (flushed : bytes) : bytes := concat (map redacted_line (lines_of flushed).1).

(** ** Lemmas *)

Lemma drain_lines l :
  match drain_line l with
  | Some (line, rest) => lines_of l = (line :: (lines_of rest).1, (lines_of rest).2) /\ (length rest < length l)%nat
  | None => lines_of l = ([], l)
  end.
Proof.
  induction l as [|b t IH]; [done|]. cbn [drain_line lines_of]. destruct (b =? 10).
  - destruct (lines_of t) as [ls rest]. cbn. split; [done|lia].
  - destruct (drain_line t) as [[line rest]|]; [destruct IH as [-> ?]; cbn; split; [done|lia]|]. by rewrite IH.
Qed.

Lemma lines_app a b :
  lines_of (a ++ b) = ((lines_of a).1 ++ (lines_of ((lines_of a).2 ++ b)).1, (lines_of ((lines_of a).2 ++ b)).2).
Proof.
  induction a as [|x a IH]; [cbn; by destruct (lines_of b)|]. cbn [app lines_of]. rewrite IH.
  destruct (lines_of a) as [ls rest]. cbn [fst snd]. destruct (x =? 10) eqn:Hx; [done|].
  destruct ls as [|line ls]; [|done]. cbn [app fst snd lines_of]. destruct (lines_of (rest ++ b)) as [ls' rest'].
  rewrite Hx. by destruct ls'.
Qed.

Lemma flush_lines_all fuel : forall g, so_errors (rg_inner g) = [] -> (length (rg_buffer g) <= fuel)%nat ->
  flush_lines fuel g
  = ({| rg_inner := {| so_out := so_out (rg_inner g) ++ written_out (rg_buffer g); so_errors := [] |};
        rg_buffer := (lines_of (rg_buffer g)).2 |}, None).
Proof.
  unfold written_out. induction fuel as [|fuel IH]; intros [[out es] buf] He Hf; cbn [rg_inner rg_buffer so_errors so_out] in *; subst.
  - destruct buf; [cbn; by rewrite app_nil_r|cbn in Hf; lia].
  - cbn [flush_lines rg_buffer rg_inner]. pose proof (drain_lines buf) as Hd. destruct (drain_line buf) as [[line rest]|].
    + destruct Hd as [-> Hlt]. cbn [stdout_call so_errors so_out]. rewrite IH by (done || (cbn; lia)).
      cbn [rg_inner rg_buffer so_out fst snd map concat]. by rewrite app_assoc.
    + rewrite Hd. cbn. by rewrite app_nil_r.
Qed.

Lemma guard_flush_all g : so_errors (rg_inner g) = [] ->
  guard_flush g
  = ({| rg_inner := {| so_out := so_out (rg_inner g) ++ written_out (rg_buffer g); so_errors := [] |};
        rg_buffer := (lines_of (rg_buffer g)).2 |}, None).
Proof. intros He. unfold guard_flush. rewrite flush_lines_all by done. cbn. by rewrite app_nil_r. Qed.

(** After flushing what was flushed before and what came since. *)
Lemma written_out_app a b : written_out (a ++ b) = written_out a ++ written_out ((lines_of a).2 ++ b).
Proof. unfold written_out. rewrite lines_app. cbn [fst]. by rewrite map_app, concat_app. Qed.

Lemma guard_calls o cs : forall flushed pending,
  foldl guard_do {| rg_inner := {| so_out := o ++ written_out flushed; so_errors := [] |};
                    rg_buffer := (lines_of flushed).2 ++ pending |} cs
  = let '(f, p) := split_calls flushed pending cs in
    {| rg_inner := {| so_out := o ++ written_out f; so_errors := [] |}; rg_buffer := (lines_of f).2 ++ p |}.
Proof.
  induction cs as [|[buf|] cs IH]; intros flushed pending; cbn [foldl split_calls]; [done| |].
  - rewrite <- IH. cbn. by rewrite app_assoc.
  - rewrite <- IH. cbn [guard_do]. rewrite guard_flush_all by done. cbn [fst rg_inner rg_buffer so_out].
    by rewrite app_nil_r, (written_out_app flushed pending), (lines_app flushed pending), <- app_assoc.
Qed.

Lemma unflushed_calls cs : forall g, CallFlush ∉ cs -> guard_drop (foldl guard_do g cs) = rg_inner g.
Proof.
  induction cs as [|c cs IH]; intros g Hn; [done|]. apply not_elem_of_cons in Hn as [Hc Hn]. cbn [foldl]. rewrite IH by done.
  by destruct c.
Qed.

Lemma unflushed_run subscriber events : (forall e, CallFlush ∉ subscriber e) -> forall o, log_run subscriber o events = o.
Proof.
  intros Hs. unfold log_run. induction events as [|e events IH]; intros o; [done|]. cbn [foldl]. rewrite IH.
  unfold log_event. by rewrite unflushed_calls.
Qed.

(** ** Properties *)

(** C39: what reaches the log. With a working standard output a writer has written exactly
    the complete lines, in order and each with its bearer tokens masked, of all the
    bytes it was given before the last flush, however they were split over the calls
    and whatever was flushed in between; the rest waits in its buffer and is lost with
    it. Without a flush nothing is written at all: when the subscriber, as that of
    tracing-subscriber, makes a writer for every event, writes the event and drops
    the writer, the log stays empty. *)
Theorem log_writer_exact (o : bytes) :
  (forall cs, let '(flushed, pending) := split_calls [] [] cs in
     foldl guard_do (guard_new {| so_out := o; so_errors := [] |}) cs
     = {| rg_inner := {| so_out := o ++ written_out flushed; so_errors := [] |};
          rg_buffer := (lines_of flushed).2 ++ pending |})
  /\ (forall subscriber events errors, (forall e, CallFlush ∉ subscriber e) ->
      log_run subscriber {| so_out := o; so_errors := errors |} events = {| so_out := o; so_errors := errors |}).
Proof.
  split; [|intros subscriber events errors Hs; by apply unflushed_run].
  intros cs. pose proof (guard_calls o cs [] []) as H. cbn [lines_of snd app written_out fst map concat] in H.
  unfold written_out in H at 1. cbn in H. rewrite app_nil_r in H. unfold guard_new. rewrite H. by destruct (split_calls [] [] cs).
Qed.

(** ** Witnesses *)

Definition demo_log_line : bytes := bytes_of_string "got Bearer s3cret x" ++ [10].

Lemma log_writer_exact_witness :
  so_out (rg_inner (foldl guard_do (guard_new {| so_out := []; so_errors := [] |}) [CallWrite demo_log_line; CallFlush]))
    = bytes_of_string "got Bearer [REDACTED] x" ++ [10]
  /\ so_out (log_run (fun e => [CallWrite e]) {| so_out := []; so_errors := [] |} [demo_log_line; demo_log_line]) = [].
Proof.
  destruct (log_writer_exact []) as [H1 H2]. split.
  - specialize (H1 [CallWrite demo_log_line; CallFlush]). cbv zeta iota beta in H1. cbn [split_calls] in H1.
    rewrite H1. vm_compute. reflexivity.
  - rewrite H2; [reflexivity|]. intros e [Hc|Hc]%elem_of_cons; [discriminate Hc|by apply elem_of_nil in Hc].
Defined.
