(* ===== verification/Managers.v ===== *)
(** * Processes of the external cores
    Models crates/skadi-transport/src/awg/{manager,nat}.rs, hysteria2/manager.rs and
    tuic/manager.rs: finding the programs, writing their configuration, starting,
    watching and stopping them. What the system answers is a parameter; what the
    program does to it is a list of actions, from which the child that still runs and
    the files left on disk follow. *)

From Stdlib Require Import Ascii String.
From stdpp Require Import base list list_numbers numbers strings pretty gmap.
From S2P Require Import Prelude Core Io NetText External Config ConfigSpec XhttpClient.

(** ** The system *)

(** [Command::output]. *)
Inductive process_output := NotRun (e : string) | Ended (success : bool) (status stdout stderr : string).

Inductive action :=
| MadeDir (path : string)
| Wrote (path text : string)
| Removed (path : string) (ok : bool)
| Spawned (argv : list string)
| Killed (ok : bool)
| Waited (ok : bool)
| Ran (argv : list string).

#[export] Instance action_eq_dec : EqDecision action.
Proof. solve_decision. Defined.

Record System := {
  (** [std::env::var], [Path::is_file], [std::env::temp_dir] *)
  sy_env : string -> option string;
  sy_is_file : string -> bool;
  sy_temp_dir : string;
  (** why a directory, a file or a process cannot be made *)
  sy_mkdir : string -> option string;
  sy_write : string -> option string;
  sy_spawn : list string -> option string;
  (** the [i]-th look at the socket and at the child: an error, or whether it ended *)
  sy_socket : nat -> bool;
  sy_try_wait : nat -> string + bool;
  (** whether [kill], [wait] and [remove_file] succeed; [None]: [wait] does not return *)
  sy_kill : list action -> bool;
  sy_wait : list action -> option bool;
  sy_remove : list action -> string -> bool;
  sy_output : list action -> list string -> process_output
}.

(** A computation that acts on the system. *)
Definition mgr (E A : Type) : Type := list action -> res E A * list action.

#[export] Instance mgr_ret E : MRet (mgr E) := fun A a h => (Ok a, h).
#[export] Instance mgr_bind E : MBind (mgr E) := fun A B f m h =>
  match m h with
  | (Ok a, h) => f a h
  | (Err e, h) => (Err e, h)
  | (Panic, h) => (Panic, h)
  end.

Definition of_result {E A} (r : res E A) : mgr E A := fun h => (r, h).

(** An action that the system may refuse, with the text of the refusal. *)
Definition act {E} (a : action) (refused : option string) (err : string -> E) : mgr E unit := fun h =>
  match refused with
  | Some e => (Err (err e), h)
  | None => (Ok tt, h ++ [a])
  end.

Definition output {E} (sy : System) (argv : list string) : mgr E process_output := fun h => (Ok (sy_output sy h argv), h ++ [Ran argv]).

(** [PathBuf::join]: an absolute second path replaces the first. *)
Definition path_join (dir name : string) : string :=
  if String.prefix "/" name then name
  else if bool_decide (dir = EmptyString) || ends_with "/"%char dir then dir +:+ name
  else dir +:+ "/" +:+ name.

(** [path.to_str().unwrap()]. *)
Definition to_str {E} (path : string) : res E string := if utf8_valid (bytes_of_string path) then Ok path else Panic.

(** [which]: the output of the shell's `command -v`. *)
Definition which {E} (sy : System) (name : string) : mgr E (option string) :=
  out ← output sy ["sh"; "-c"; "command -v " +:+ name]%string;
  mret (match out with
        | Ended true _ stdout _ => let path := trim stdout in if bool_decide (path = EmptyString) then None else Some path
        | _ => None
        end).

(** ** Errors *)

Inductive AwgError :=
| AwgBinaryNotFound (msg : string)
| ToolsNotFound (msg : string)
| AwgSpawnFailed (msg : string)
| AwgEarlyExit
| SocketTimeout (msg : string)
| SetconfFailed (msg : string).

Inductive Hysteria2Error :=
| Hy2BinaryNotFound (msg : string) | Hy2SpawnFailed (msg : string) | Hy2EarlyExit | Hy2ConfigError (msg : string).

Inductive TuicError :=
| TuicBinaryNotFound (msg : string) | TuicSpawnFailed (msg : string) | TuicEarlyExit | TuicConfigError (msg : string).

(** What the managers' code, the same for each core, needs of its error type. *)
Class CoreError (E : Type) := {
  binary_not_found : string -> E;
  spawn_failed : string -> E;
  early_exit : E;
  config_error : string -> E;
  core_display : E -> string
}.

#[export] Instance AwgError_core : CoreError AwgError := {
  binary_not_found := AwgBinaryNotFound; spawn_failed := AwgSpawnFailed; early_exit := AwgEarlyExit; config_error := SetconfFailed;
  core_display e :=
    match e with
    | AwgBinaryNotFound m => "amneziawg-go binary not found (" +:+ m +:+ ")"
    | ToolsNotFound m => "awg tools binary not found (" +:+ m +:+ ")"
    | AwgSpawnFailed m => "failed to start amneziawg-go: " +:+ m
    | AwgEarlyExit => "amneziawg-go exited before UAPI socket was ready"
    | SocketTimeout m => "UAPI socket not ready: " +:+ m
    | SetconfFailed m => "awg setconf failed: " +:+ m
    end
}.

#[export] Instance Hysteria2Error_core : CoreError Hysteria2Error := {
  binary_not_found := Hy2BinaryNotFound; spawn_failed := Hy2SpawnFailed; early_exit := Hy2EarlyExit; config_error := Hy2ConfigError;
  core_display e :=
    match e with
    | Hy2BinaryNotFound m => "hysteria binary not found (" +:+ m +:+ ")"
    | Hy2SpawnFailed m => "failed to start hysteria: " +:+ m
    | Hy2EarlyExit => "hysteria exited before ready"
    | Hy2ConfigError m => "config error: " +:+ m
    end
}.

#[export] Instance TuicError_core : CoreError TuicError := {
  binary_not_found := TuicBinaryNotFound; spawn_failed := TuicSpawnFailed; early_exit := TuicEarlyExit; config_error := TuicConfigError;
  core_display e :=
    match e with
    | TuicBinaryNotFound m => "tuic binary not found (" +:+ m +:+ ")"
    | TuicSpawnFailed m => "failed to start tuic: " +:+ m
    | TuicEarlyExit => "tuic exited before ready"
    | TuicConfigError m => "config error: " +:+ m
    end
}.

(** ** Shared steps *)

Section Core.
Context {E : Type} `{CoreError E} (sy : System).

(** A program named by an environment variable, which must then be a file, or found
    by the shell under one of [names]. *)
Fixpoint which_first (names : list string) : mgr E (option string) :=
  match names with
  | [] => mret None
  | name :: names =>
    found ← which sy name;
    match found with
    | Some path => mret (Some path)
    | None => which_first names
    end
  end.

Definition find_binary (var : string) (names : list string) (hint : string) (err : string -> E) : mgr E string :=
  match sy_env sy var with
  | Some path => if sy_is_file sy path then mret path else of_result (Err (err (var +:+ "=" +:+ path +:+ " not found")))
  | None =>
    found ← which_first names;
    match found with
    | Some path => mret path
    | None => of_result (Err (err hint))
    end
  end.

(** The directory under the temporary one, and the file in it. *)
Definition write_config (dir file text : string) : mgr E string :=
  let conf_dir := path_join (sy_temp_dir sy) dir in
  _ ← act (MadeDir conf_dir) (sy_mkdir sy conf_dir) config_error;
  let path := path_join conf_dir file in
  _ ← act (Wrote path text) (sy_write sy path) config_error;
  mret path.

Definition spawn (argv : list string) : mgr E unit := act (Spawned argv) (sy_spawn sy argv) spawn_failed.

(** [child.try_wait().ok().flatten().is_some()] at the [i]-th look. *)
Definition exited (i : nat) : bool := match sy_try_wait sy i with inr b => b | inl _ => false end.

(** [wait_for_process]: the loop of [n] more looks, the next one the [i]-th. *)
Fixpoint wait_for_process (i n : nat) : mgr E unit :=
  match n with
  | O => mret tt
  | S n => if exited i then of_result (Err early_exit) else wait_for_process (S i) n
  end.

(** A manager: the file it owns, besides the child. *)
Record Manager := { mg_config_path : string }.

(** [start] of the Hysteria2 and TUIC managers: [args] are the arguments before the
    path of the configuration. *)
Definition start_core (find : mgr E string) (text dir file : string) (args : list string) : mgr E Manager :=
  bin ← find;
  path ← write_config dir file text;
  arg ← of_result (to_str path);
  _ ← spawn (bin :: args ++ [arg]);
  _ ← wait_for_process 0 20;
  mret {| mg_config_path := path |}.

(** [stop], which drops the results of its three calls, and whether it returns. *)
Definition stop (m : Manager) (h : list action) : bool * list action :=
  let h := h ++ [Killed (sy_kill sy h)] in
  match sy_wait sy h with
  | None => (false, h)
  | Some ok =>
    let h := h ++ [Waited ok] in
    (true, h ++ [Removed (mg_config_path m) (sy_remove sy h (mg_config_path m))])
  end.

(** How far a run has come: it goes on, it hangs in [stop], or it has returned. *)
Inductive run_end := Going | Hung | Returned (r : res E unit).

(** The manager is dropped, which stops it, and the function returns. *)
Definition return_dropping (m : Manager) (r : res E unit) (h : list action) : run_end * list action :=
  let '(back, h) := stop m h in (if back then Returned r else Hung, h).

(** [run_until_shutdown]. Each turn of the loop looks at the flag, then at the child,
    then waits for the flag to change or for half a second: [evs] are the child's
    answers with the flag after the wait. When the loop ends by the flag the manager
    is stopped, and in any case it is dropped, which stops it. *)
Fixpoint run_until_shutdown (m : Manager) (shutdown : bool) (evs : list ((string + bool) * bool)) (h : list action)
    : run_end * list action :=
  if shutdown then
    let '(back, h) := stop m h in
    if back then return_dropping m (Ok tt) h else (Hung, h)
  else
  match evs with
  | [] => (Going, h)
  | (inl e, _) :: _ => return_dropping m (Err (spawn_failed e)) h
  | (inr true, _) :: _ => return_dropping m (Err early_exit) h
  | (inr false, flag) :: evs => run_until_shutdown m flag evs h
  end.
End Core.

(** ** awg/manager.rs *)

Section Awg.
Context (sy : System) (wg : WgCrates).

Definition find_awg_go_binary : mgr AwgError string :=
  find_binary sy "AWG_GO_BINARY" ["amneziawg-go"%string]
    "set AWG_GO_BINARY or install amneziawg-go (https://github.com/amnezia-vpn/amneziawg-go)" AwgBinaryNotFound.

Definition find_awg_tools_binary : mgr AwgError string :=
  find_binary sy "AWG_TOOLS_BINARY" ["awg"; "wg"]%string
    "set AWG_TOOLS_BINARY or install amneziawg-tools (awg command)" ToolsNotFound.

Definition uapi_socket_path (interface_name : string) : string :=
  match sy_env sy "AWG_UAPI_DIR" with Some d => d | None => "/var/run/amneziawg"%string end +:+ "/" +:+ interface_name +:+ ".sock".

Fixpoint wait_for_socket (socket : string) (i n : nat) : mgr AwgError unit :=
  match n with
  | O => fun h => (Err (SocketTimeout socket), h ++ [Killed (sy_kill sy h)])
  | S n =>
    if sy_socket sy i then mret tt
    else if exited sy i then of_result (Err AwgEarlyExit)
    else wait_for_socket socket (S i) n
  end.

Definition apply_setconf (tools_bin iface conf_path : string) : mgr AwgError unit :=
  arg ← of_result (to_str conf_path);
  out ← output sy [tools_bin; "setconf"; iface; arg]%string;
  match out with
  | NotRun e => of_result (Err (SetconfFailed e))
  | Ended true _ _ _ => mret tt
  | Ended false status _ stderr => of_result (Err (SetconfFailed ("exit " +:+ status +:+ ": " +:+ stderr)))
  end.

Definition ip_step (argv : list string) (failed refused : string) : mgr AwgError unit :=
  out ← output sy ("ip"%string :: argv);
  match out with
  | NotRun e => of_result (Err (SetconfFailed (failed +:+ ": " +:+ e)))
  | Ended true _ _ _ => mret tt
  | Ended false _ _ stderr => of_result (Err (SetconfFailed (refused +:+ ": " +:+ stderr)))
  end.

Definition bring_up_interface (iface address : string) : mgr AwgError unit :=
  _ ← ip_step ["addr"; "replace"; address; "dev"; iface]%string "ip addr failed" ("ip addr replace " +:+ address +:+ " dev " +:+ iface);
  ip_step ["link"; "set"; iface; "up"]%string "ip link set up failed" ("ip link set " +:+ iface +:+ " up").

Definition maybe_bring_up_interface (iface address : string) : mgr AwgError unit :=
  if is_some (sy_env sy "AWG_SKIP_IP_BRINGUP") then mret tt else bring_up_interface iface address.

(** What follows the rendering of the configuration, up to the interface being up. *)
Definition start_interface (go_bin tools_bin dir iface address conf : string) : mgr AwgError Manager :=
  path ← write_config sy dir (iface +:+ ".conf") (strip_wgquick_fields conf);
  _ ← spawn sy [go_bin; "-f"; iface]%string;
  _ ← wait_for_socket (uapi_socket_path iface) 0 40;
  _ ← apply_setconf tools_bin iface path;
  _ ← maybe_bring_up_interface iface address;
  mret {| mg_config_path := path |}.

Definition render_error (e : anyhow) : AwgError := SetconfFailed (anyhow_to_string e).

(** ** awg/nat.rs *)

Definition enable_ip_forward : mgr AwgError unit :=
  out ← output sy ["sysctl"; "-w"; "net.ipv4.ip_forward=1"]%string;
  match out with
  | NotRun e => of_result (Err (SetconfFailed ("sysctl failed: " +:+ e)))
  | Ended true _ _ _ => mret tt
  | Ended false _ _ stderr => of_result (Err (SetconfFailed ("sysctl net.ipv4.ip_forward failed: " +:+ stderr)))
  end.

(** The word after the first `dev` that has one. *)
Fixpoint after_dev (parts : list string) : option string :=
  match parts with
  | w :: ((next :: _) as parts) => if bool_decide (w = "dev"%string) then Some next else after_dev parts
  | _ => None
  end.

Definition detect_default_interface : mgr AwgError string :=
  out ← output sy ["ip"; "route"; "show"; "default"]%string;
  match out with
  | NotRun e => of_result (Err (SetconfFailed ("ip route failed: " +:+ e)))
  | Ended false _ _ _ =>
    of_result (Err (SetconfFailed "failed to detect default route interface; set transport.awg.nat.egress_interface"))
  | Ended true _ stdout _ =>
    match after_dev (split_whitespace stdout) with
    | Some iface => mret iface
    | None => of_result (Err (SetconfFailed "could not parse default interface from `ip route`"))
    end
  end.

Definition run_iptables (args : list string) : mgr AwgError unit :=
  out ← output sy ("iptables"%string :: args);
  match out with
  | NotRun e => of_result (Err (SetconfFailed ("iptables failed: " +:+ e)))
  | Ended true _ _ _ => mret tt
  | Ended false _ _ stderr => of_result (Err (SetconfFailed ("iptables " +:+ join " " args +:+ ": " +:+ stderr)))
  end.

(** [m.or_else(|_| k)]. *)
Definition or_else (m k : mgr AwgError unit) : mgr AwgError unit := fun h =>
  match m h with
  | (Err _, h) => k h
  | r => r
  end.

Definition masquerade (op subnet iface : string) : list string :=
  ["-t"; "nat"; op; "POSTROUTING"; "-s"; subnet; "-o"; iface; "-j"; "MASQUERADE"]%string.

Definition apply_nat (config : AwgNatConfig) : mgr AwgError unit :=
  if negb (nat_enabled config) then mret tt else
  if blank (nat_subnet config) then of_result (Err (SetconfFailed "NAT subnet must not be empty")) else
  _ ← enable_ip_forward;
  iface ← match nonblank (nat_egress_interface config) with
          | Some name => mret name
          | None => detect_default_interface
          end;
  or_else (run_iptables (masquerade "-C" (nat_subnet config) iface)) (run_iptables (masquerade "-A" (nat_subnet config) iface)).

(** [AwgManager::start] and [AwgClientManager::start]. *)
Definition awg_start (config : AwgServerConfig) (nat : option AwgNatConfig) : mgr AwgError Manager :=
  go_bin ← find_awg_go_binary;
  tools_bin ← find_awg_tools_binary;
  conf ← of_result (map_err render_error (render_server_conf wg config));
  m ← start_interface go_bin tools_bin "skadicore-awg" (as_interface_name config) (as_address config) conf;
  _ ← match nat with Some nat_cfg => apply_nat nat_cfg | None => mret tt end;
  mret m.

Definition awg_client_start (config : AwgClientConfig) : mgr AwgError Manager :=
  go_bin ← find_awg_go_binary;
  tools_bin ← find_awg_tools_binary;
  let export :=
    {| ce_private_key := awc_private_key config; ce_address := awc_address config; ce_dns := awc_dns config;
       ce_allowed_ips := awc_allowed_ips config; ce_persistent_keepalive := awc_persistent_keepalive config |} in
  conf ← of_result (map_err render_error
           (render_client_conf wg (awc_server_public_key config) (awc_endpoint config) export (awc_obfuscation config) (awc_mtu config)));
  start_interface go_bin tools_bin "skadicore-awg-client" (awc_interface_name config) (awc_address config) conf.
End Awg.

(** ** hysteria2/manager.rs and tuic/manager.rs *)

Section Others.
Context (sy : System).

Definition find_hysteria_binary : mgr Hysteria2Error string :=
  find_binary sy "HYSTERIA2_BINARY" ["hysteria"%string] "set HYSTERIA2_BINARY or install hysteria (https://v2.hysteria.network)" Hy2BinaryNotFound.

Definition hysteria2_start (config : Hysteria2ServerConfig) : mgr Hysteria2Error Manager :=
  start_core sy find_hysteria_binary (render_server_yaml config) "skadicore-hysteria2" "config.yaml" ["server"; "-c"]%string.

Definition hysteria2_client_start (config : Hysteria2ClientConfig) : mgr Hysteria2Error Manager :=
  start_core sy find_hysteria_binary (render_client_yaml config) "skadicore-hysteria2-client" "config.yaml" ["client"; "-c"]%string.

Definition find_tuic_server_binary : mgr TuicError string :=
  find_binary sy "TUIC_SERVER_BINARY" ["tuic-server"%string]
    "set TUIC_SERVER_BINARY or install tuic-server (https://github.com/Itsusinn/tuic)" TuicBinaryNotFound.

Definition find_tuic_client_binary : mgr TuicError string :=
  find_binary sy "TUIC_CLIENT_BINARY" ["tuic-client"%string]
    "set TUIC_CLIENT_BINARY or install tuic-client (https://github.com/Itsusinn/tuic)" TuicBinaryNotFound.

Definition tuic_start (config : TuicServerConfig) : mgr TuicError Manager :=
  start_core sy find_tuic_server_binary (render_server_toml config) "skadicore-tuic" "config.toml" ["-c"%string].

Definition tuic_client_start (config : TuicClientConfig) : mgr TuicError Manager :=
  start_core sy find_tuic_client_binary (render_client_json config) "skadicore-tuic-client" "config.json" ["-c"%string].
End Others.

(** ** A manager's life *)

Inductive manager_run := StartFailed (e : string) | RunFailed (e : string) | Stopped | StillRunning | Stopping | Panicked.

(** [start] and then [run_until_shutdown], as their callers do. *)
Definition manage {E} `{CoreError E} (sy : System) (start : mgr E Manager) (shutdown : bool) (evs : list ((string + bool) * bool)) : manager_run * list action :=
  match start [] with
  | (Ok m, h) =>
    match run_until_shutdown sy m shutdown evs h with
    | (Returned (Ok _), h) => (Stopped, h)
    | (Returned (Err e), h) => (RunFailed (core_display e), h)
    | (Returned Panic, h) => (Panicked, h)
    | (Hung, h) => (Stopping, h)
    | (Going, h) => (StillRunning, h)
    end
  | (Err e, h) => (StartFailed (core_display e), h)
  | (Panic, h) => (Panicked, h)
  end.

(** A client's external core, from its start to its end. *)
Definition awg_client_run (sy : System) (wg : WgCrates) (config : AwgClientConfig) (shutdown : bool) (polls : list ((string + bool) * bool))
    : manager_run * list action := manage sy (awg_client_start sy wg config) shutdown polls.
Definition hysteria2_client_run (sy : System) (config : Hysteria2ClientConfig) (shutdown : bool) (polls : list ((string + bool) * bool))
    : manager_run * list action := manage sy (hysteria2_client_start sy config) shutdown polls.
Definition tuic_client_run (sy : System) (config : TuicClientConfig) (shutdown : bool) (polls : list ((string + bool) * bool))
    : manager_run * list action := manage sy (tuic_client_start sy config) shutdown polls.

(** ** What the actions leave behind *)

(** Whether a child that was started may still be there: it has neither been killed nor
    waited for with success. *)
Fixpoint child_left (left : bool) (h : list action) : bool :=
  match h with
  | [] => left
  | Spawned _ :: h => child_left true h
  | Killed true :: h | Waited true :: h => child_left false h
  | _ :: h => child_left left h
  end.

Fixpoint on_disk (fs : gmap string string) (h : list action) : gmap string string :=
  match h with
  | [] => fs
  | Wrote path text :: h => on_disk (<[path := text]> fs) h
  | Removed path true :: h => on_disk (delete path fs) h
  | _ :: h => on_disk fs h
  end.

(** ** Lemmas *)

Lemma on_disk_app fs h h' : on_disk fs (h ++ h') = on_disk (on_disk fs h) h'.
Proof. revert fs. induction h as [|[| |? []| | | |] h IH]; intros fs; cbn [on_disk app]; auto. Qed.

Lemma child_left_app b h h' : child_left b (h ++ h') = child_left (child_left b h) h'.
Proof. revert b. induction h as [|[| | | |[]|[]|] h IH]; intros b; cbn [child_left app]; auto. Qed.

(** Actions that leave the files, and those that leave files and child, as they are. *)
Definition keeps_files (a : action) : Prop := match a with Wrote _ _ | Removed _ _ => False | _ => True end.
Definition is_ran (a : action) : Prop := match a with Ran _ => True | _ => False end.

Lemma keeps_files_disk fs h : Forall keeps_files h -> on_disk fs h = fs.
Proof. induction 1 as [|[] h Ha _ IH]; cbn [on_disk]; done. Qed.

Lemma ran_child b h : Forall is_ran h -> child_left b h = b.
Proof. induction 1 as [|[] h Ha _ IH]; cbn [child_left]; done. Qed.

(** Everything [m] does satisfies [P]. *)
Definition does {E A} (P : action -> Prop) (m : mgr E A) : Prop := forall h, exists l, (m h).2 = h ++ l /\ Forall P l.

Lemma does_ret {E A} P (r : res E A) : does P (of_result r).
Proof. intros h. exists []. by rewrite app_nil_r. Qed.

Lemma does_mret {E A} P (a : A) : does P (mret a : mgr E A).
Proof. intros h. exists []. by rewrite app_nil_r. Qed.

Lemma does_bind {E A B} P (m : mgr E A) (f : A -> mgr E B) : does P m -> (forall a, does P (f a)) -> does P (m ≫= f).
Proof.
  intros Hm Hf h. destruct (Hm h) as (l & Hl & HP). unfold mbind, mgr_bind. destruct (m h) as [[a| |] h']; cbn in Hl; subst h'; [|by exists l..].
  destruct (Hf a (h ++ l)) as (l' & Hl' & HP'). exists (l ++ l'). rewrite Hl', app_assoc. split; [done|]. by apply Forall_app.
Qed.

Lemma does_output {E} (P : action -> Prop) sy argv : P (Ran argv) -> does P (output (E:=E) sy argv).
Proof. intros HP h. exists [Ran argv]. by split; [|apply Forall_cons]. Qed.

Lemma does_weaken {E A} (P Q : action -> Prop) (m : mgr E A) : (forall a, P a -> Q a) -> does P m -> does Q m.
Proof. intros HPQ Hm h. destruct (Hm h) as (l & Hl & HP). exists l. split; [done|]. by eapply Forall_impl. Qed.

Lemma ran_keeps a : is_ran a -> keeps_files a.
Proof. by destruct a. Qed.

Create HintDb quiet.
#[export] Hint Resolve does_ret does_mret : quiet.

(** Shows that a computation only runs commands. *)
Ltac quiet :=
  repeat first
    [ solve [auto with quiet]
    | apply does_output; exact I
    | apply does_bind; [|intros ?]
    | match goal with
      | |- does _ (if ?c then _ else _) => destruct c
      | |- does _ (match ?o with _ => _ end) => destruct o
      end ].

Section CoreLemmas.
Context {E : Type} `{CoreError E} (sy : System).

Lemma quiet_which name : does is_ran (which (E:=E) sy name).
Proof. unfold which. quiet. Qed.

Lemma quiet_which_first names : does is_ran (which_first (E:=E) sy names).
Proof. pose proof quiet_which. induction names; cbn [which_first]; quiet. Qed.

Lemma quiet_find var names hint err : does is_ran (find_binary (E:=E) sy var names hint err).
Proof. pose proof quiet_which_first. unfold find_binary. quiet. Qed.

Lemma quiet_wait i n : does is_ran (wait_for_process (E:=E) sy i n).
Proof. revert i. induction n; intros i; cbn [wait_for_process]; quiet. Qed.

Lemma does_act (P : action -> Prop) a refused (err : string -> E) : P a -> does P (act a refused err).
Proof. intros HP h. unfold act. destruct refused; [exists []; by rewrite app_nil_r|exists [a]; by split; [|apply Forall_cons]]. Qed.

(** A computation that writes at most one file, the one of the manager it returns. *)
Definition owned (r : res E Manager) (h : list action) : Prop :=
  (Forall keeps_files h /\ forall m, r <> Ok m)
  \/ exists pre path text post, h = pre ++ Wrote path text :: post /\ Forall keeps_files pre /\ Forall keeps_files post
       /\ forall m, r = Ok m -> mg_config_path m = path.

Definition owns (m : mgr E Manager) : Prop := forall h, Forall keeps_files h -> owned (m h).1 (m h).2.

Lemma owns_after {A} (m : mgr E A) (f : A -> mgr E Manager) : does keeps_files m -> (forall a, owns (f a)) -> owns (m ≫= f).
Proof.
  intros Hm Hf h Hh. destruct (Hm h) as (l & Hl & HP). unfold mbind, mgr_bind. destruct (m h) as [[a| |] h']; cbn in Hl; subst h'.
  - apply Hf. by apply Forall_app.
  - left. split; [by apply Forall_app|done].
  - left. split; [by apply Forall_app|done].
Qed.

Lemma owns_write dir file text (f : string -> mgr E Manager) :
  (forall path, does keeps_files (f path)) -> (forall path h m, (f path h).1 = Ok m -> mg_config_path m = path) ->
  owns (path ← write_config sy dir file text; f path).
Proof.
  intros Hf Hm h Hh. unfold write_config. set (d := path_join (sy_temp_dir sy) dir). set (p := path_join d file).
  unfold mbind, mgr_bind, act. destruct (sy_mkdir sy d); [left; by split|]. destruct (sy_write sy p).
  { left. split; [|done]. apply Forall_app. split; [done|]. by apply Forall_cons. }
  cbn [mret mgr_ret]. destruct (Hf p ((h ++ [MadeDir d]) ++ [Wrote p text])) as (l & Hl & HP). right. exists (h ++ [MadeDir d]), p, text, l.
  split_and!; [|apply Forall_app; split; [done|by apply Forall_cons]|done|intros m; apply Hm].
  rewrite Hl, <- app_assoc. done.
Qed.

Lemma owns_then (m : mgr E Manager) (k : mgr E unit) : owns m -> does keeps_files k -> owns (x ← m; _ ← k; mret x).
Proof.
  intros Hm Hk h Hh. specialize (Hm h Hh). unfold mbind, mgr_bind. destruct (m h) as [[x| |] h']; cbn [fst snd] in Hm; [|done..].
  destruct Hm as [[_ Hno]|(pre & path & text & post & -> & Hpre & Hpost & Hx)]; [by destruct (Hno x)|].
  destruct (Hk (pre ++ Wrote path text :: post)) as (l & Hl & HP). destruct (k _) as [[[]| |] h'']; cbn [snd] in Hl; subst h''; right;
    exists pre, path, text, (post ++ l); rewrite <- app_assoc; (split_and!; [done|done|by apply Forall_app|]); cbn [fst]; [|done..].
  intros m' [= <-]. by apply Hx.
Qed.

Lemma start_core_owns find text dir file args : does is_ran find -> owns (start_core sy find text dir file args).
Proof.
  intros Hfind. unfold start_core. apply owns_after; [by eapply does_weaken; [apply ran_keeps|]|]. intros bin.
  apply owns_write.
  - intros path. apply does_bind; [apply does_ret|]. intros arg. apply does_bind; [by apply does_act|]. intros _.
    apply does_bind; [|intros; apply does_mret]. eapply does_weaken; [apply ran_keeps|apply quiet_wait].
  - intros path h m. unfold mbind, mgr_bind, of_result, to_str. destruct (utf8_valid _); [|done]. unfold spawn, act.
    destruct (sy_spawn _ _); [done|]. destruct (wait_for_process _ _ _ _) as [[[]| |] h']; [|done..]. by intros [= <-].
Qed.
End CoreLemmas.
#[export] Hint Resolve quiet_find : quiet.

Section AwgLemmas.
Context (sy : System) (wg : WgCrates).

Lemma keeps_socket socket i n : does keeps_files (wait_for_socket sy socket i n).
Proof.
  revert i. induction n as [|n IH]; intros i; cbn [wait_for_socket].
  - intros h. exists [Killed (sy_kill sy h)]. by split; [|apply Forall_cons].
  - destruct (sy_socket sy i); [apply does_mret|]. destruct (exited sy i); [apply does_ret|apply IH].
Qed.

Lemma quiet_setconf tools iface path : does is_ran (apply_setconf sy tools iface path).
Proof. unfold apply_setconf. quiet. Qed.
Lemma quiet_bring_up iface address : does is_ran (maybe_bring_up_interface sy iface address).
Proof. unfold maybe_bring_up_interface, bring_up_interface, ip_step. quiet. Qed.
Lemma quiet_iptables args : does is_ran (run_iptables sy args).
Proof. unfold run_iptables. quiet. Qed.

Lemma quiet_or_else m k : does is_ran m -> does is_ran k -> does is_ran (or_else m k).
Proof.
  intros Hm Hk h. destruct (Hm h) as (l & Hl & HP). unfold or_else. destruct (m h) as [[[]|e|] h']; cbn [snd] in Hl; subst h'; [by exists l| |by exists l].
  destruct (Hk (h ++ l)) as (l' & Hl' & HP'). exists (l ++ l'). rewrite Hl', app_assoc. split; [done|]. by apply Forall_app.
Qed.

Lemma quiet_nat config : does is_ran (apply_nat sy config).
Proof.
  unfold apply_nat. destruct (negb _); [apply does_mret|]. destruct (blank _); [apply does_ret|]. apply does_bind; [unfold enable_ip_forward; quiet|].
  intros _. apply does_bind; [destruct (nonblank _); [apply does_mret|unfold detect_default_interface; quiet]|].
  intros iface. apply quiet_or_else; apply quiet_iptables.
Qed.

Lemma start_interface_owns go tools dir iface address conf : owns (start_interface sy go tools dir iface address conf).
Proof.
  apply owns_write.
  - intros path. apply does_bind; [by apply does_act|]. intros _. apply does_bind; [apply keeps_socket|]. intros _.
    eapply does_weaken; [apply ran_keeps|]. apply does_bind; [apply quiet_setconf|]. intros _.
    apply does_bind; [apply quiet_bring_up|intros; apply does_mret].
  - intros path h m. unfold mbind, mgr_bind. destruct (spawn sy _ h) as [[[]| |] h1]; [|done..].
    destruct (wait_for_socket _ _ _ _ h1) as [[[]| |] h2]; [|done..]. destruct (apply_setconf _ _ _ _ h2) as [[[]| |] h3]; [|done..].
    destruct (maybe_bring_up_interface _ _ _ h3) as [[[]| |] h4]; [|done..]. by intros [= <-].
Qed.

Lemma find_quiet {E} `{CoreError E} var names hint (err : string -> E) : does keeps_files (find_binary sy var names hint err).
Proof. eapply does_weaken; [apply ran_keeps|apply quiet_find]. Qed.

Lemma awg_start_owns config nat : owns (awg_start sy wg config nat).
Proof.
  unfold awg_start. apply owns_after; [apply find_quiet|intros go]. apply owns_after; [apply find_quiet|intros tools].
  apply owns_after; [apply does_ret|intros conf]. apply (owns_then (start_interface sy go tools _ _ _ conf)); [apply start_interface_owns|].
  destruct nat; [eapply does_weaken; [apply ran_keeps|apply quiet_nat]|apply does_mret].
Qed.

Lemma awg_client_start_owns config : owns (awg_client_start sy wg config).
Proof.
  unfold awg_client_start. apply owns_after; [apply find_quiet|intros go]. apply owns_after; [apply find_quiet|intros tools].
  apply owns_after; [apply does_ret|intros conf]. apply start_interface_owns.
Qed.
End AwgLemmas.

(** The six managers, with the file each of them owns and what it writes there. *)
Definition core_file (sy : System) (dir file : string) : string := path_join (path_join (sy_temp_dir sy) dir) file.
Definition stripped (r : res anyhow string) : option string :=
  match r with Ok conf => Some (strip_wgquick_fields conf) | _ => None end.
Definition awg_client_conf (wg : WgCrates) (c : AwgClientConfig) : res anyhow string :=
  render_client_conf wg (awc_server_public_key c) (awc_endpoint c)
    {| ce_private_key := awc_private_key c; ce_address := awc_address c; ce_dns := awc_dns c;
       ce_allowed_ips := awc_allowed_ips c; ce_persistent_keepalive := awc_persistent_keepalive c |}
    (awc_obfuscation c) (awc_mtu c).

Inductive core_start (sy : System) (wg : WgCrates)
    : forall E : Type, CoreError E -> mgr E Manager -> string -> option string -> Prop :=
| cs_awg config nat : core_start sy wg AwgError _ (awg_start sy wg config nat)
    (core_file sy "skadicore-awg" (as_interface_name config +:+ ".conf")) (stripped (render_server_conf wg config))
| cs_awg_client config : core_start sy wg AwgError _ (awg_client_start sy wg config)
    (core_file sy "skadicore-awg-client" (awc_interface_name config +:+ ".conf")) (stripped (awg_client_conf wg config))
| cs_hysteria2 config : core_start sy wg Hysteria2Error _ (hysteria2_start sy config)
    (core_file sy "skadicore-hysteria2" "config.yaml") (Some (render_server_yaml config))
| cs_hysteria2_client config : core_start sy wg Hysteria2Error _ (hysteria2_client_start sy config)
    (core_file sy "skadicore-hysteria2-client" "config.yaml") (Some (render_client_yaml config))
| cs_tuic config : core_start sy wg TuicError _ (tuic_start sy config)
    (core_file sy "skadicore-tuic" "config.toml") (Some (render_server_toml config))
| cs_tuic_client config : core_start sy wg TuicError _ (tuic_client_start sy config)
    (core_file sy "skadicore-tuic-client" "config.json") (Some (render_client_json config)).

Lemma core_start_owns sy wg E (HE : CoreError E) start path text : core_start sy wg E HE start path text -> owns start.
Proof.
  intros [c nat|c|c|c|c|c]; [apply awg_start_owns|apply awg_client_start_owns|..]; apply start_core_owns, quiet_find.
Qed.

Lemma owned_disk {E} (r : res E Manager) h : owned r h ->
  on_disk ∅ h = ∅ /\ (forall m, r <> Ok m) \/ exists path text, Wrote path text ∈ h /\ on_disk ∅ h = {[path := text]} /\ forall m, r = Ok m -> mg_config_path m = path.
Proof.
  intros [[Hk Hr]|(pre & path & text & post & -> & Hpre & Hpost & Hm)]; [left|right].
  - split; [by apply keeps_files_disk|done].
  - exists path, text. split; [set_solver|]. split; [|done]. rewrite on_disk_app, (keeps_files_disk _ pre) by done. cbn [on_disk].
    by rewrite keeps_files_disk.
Qed.

(** What [stop] adds to a history: its three calls, or only the first when the second
    does not return. *)
Lemma stop_adds sy m h b h' : stop sy m h = (b, h') ->
  if b then exists k w r, h' = h ++ [Killed k; Waited w; Removed (mg_config_path m) r]
  else exists k, h' = h ++ [Killed k].
Proof.
  unfold stop. destruct (sy_wait sy _); intros [= <- <-]; rewrite <- ?app_assoc; eauto.
Qed.

(** A history after one or two runs of [stop] has a last one. *)
Definition stopping (path : string) (h0 h : list action) : Prop :=
  exists mid k w r, h = h0 ++ mid ++ [Killed k; Waited w; Removed path r]
    /\ (mid = [] \/ exists k' w' r', mid = [Killed k'; Waited w'; Removed path r']).

Lemma run_returns {E} `{CoreError E} sy m shutdown evs h r h' :
  run_until_shutdown (E:=E) sy m shutdown evs h = (r, h') ->
  match r with
  | Going => h' = h
  | Hung => exists k h1, h' = h1 ++ [Killed k]
  | Returned _ => stopping (mg_config_path m) h h'
  end.
Proof.
  assert (Hdrop : forall x h r h', return_dropping (E:=E) sy m x h = (r, h') ->
    match r with
    | Going => False
    | Hung => exists k, h' = h ++ [Killed k]
    | Returned _ => exists k w rm, h' = h ++ [Killed k; Waited w; Removed (mg_config_path m) rm]
    end).
  { intros x h0 r0 h0'. unfold return_dropping. destruct (stop sy m h0) as [b h1] eqn:Hs. apply stop_adds in Hs.
    destruct b; by intros [= <- <-]. }
  assert (Hone : forall x h r h', return_dropping (E:=E) sy m x h = (r, h') ->
    match r with
    | Going => h' = h
    | Hung => exists k h1, h' = h1 ++ [Killed k]
    | Returned _ => stopping (mg_config_path m) h h'
    end).
  { intros x h0 [| |r0] h0' Hx; apply Hdrop in Hx; [done|destruct Hx as [k ->]; by eexists _, _|].
    destruct Hx as (k & w & rm & ->). exists [], k, w, rm. split; [done|by left]. }
  revert shutdown. induction evs as [|[[e|[]] flag] evs IH]; intros [] H'; cbn [run_until_shutdown] in H';
    try (by injection H' as <- <-); try exact (IH _ H'); try exact (Hone _ _ _ _ H').
  all: destruct (stop sy m h) as [[] h1] eqn:Hs; apply stop_adds in Hs;
    [|injection H' as <- <-; destruct Hs as [k ->]; by eexists _, _]; destruct Hs as (k & w & rm & ->);
    apply Hdrop in H'; destruct r as [| |r0]; [done|destruct H' as [k2 ->]; by eexists _, _|];
    destruct H' as (k2 & w2 & rm2 & ->); exists [Killed k; Waited w; Removed (mg_config_path m) rm], k2, w2, rm2;
    rewrite <- app_assoc; (split; [done|]); right; by eexists _, _, _.
Qed.

Lemma run_calm {E} `{CoreError E} sy m shutdown evs h : (run_until_shutdown (E:=E) sy m shutdown evs h).1 <> Returned Panic.
Proof.
  assert (Hd : forall (x : res E unit) h, x <> Panic -> (return_dropping sy m x h).1 <> Returned Panic).
  { intros x h0 Hx. unfold return_dropping. destruct (stop sy m h0) as [[] h1]; [|done]. by intros [= ->]. }
  revert shutdown. induction evs as [|[[e|[]] flag] evs IH]; intros []; cbn [run_until_shutdown]; try done; try (by apply Hd); try apply IH.
  all: destruct (stop sy m h) as [[] h1]; [by apply Hd|done].
Qed.

(** A started core: the configuration is written, then the process started, and
    nothing but commands run around. *)
Definition started (path text : string) (h : list action) : Prop :=
  exists pre argv post, h = pre ++ Wrote path text :: Spawned argv :: post
    /\ Forall (fun a => is_ran a \/ exists d, a = MadeDir d) pre /\ Forall is_ran post.

Lemma started_disk path text h : started path text h ->
  on_disk ∅ h = {[path := text]} /\ child_left false h = true /\ (forall b, Removed path b ∉ h).
Proof.
  intros (pre & argv & post & -> & Hpre & Hpost).
  assert (Hk : Forall keeps_files pre) by (eapply Forall_impl; [exact Hpre|]; intros a [Ha|[d ->]]; [by apply ran_keeps|done]).
  assert (Hk' : Forall keeps_files post) by (eapply Forall_impl; [exact Hpost|]; apply ran_keeps). split_and!.
  - rewrite on_disk_app, (keeps_files_disk _ pre) by done. cbn [on_disk]. by rewrite keeps_files_disk.
  - rewrite child_left_app. cbn [child_left]. by apply ran_child.
  - intros b Hin. apply elem_of_app in Hin as [Hin|Hin].
    + rewrite Forall_forall in Hk. by destruct (Hk _ Hin).
    + apply elem_of_cons in Hin as [Hin|Hin]; [done|]. apply elem_of_cons in Hin as [Hin|Hin]; [done|].
      rewrite Forall_forall in Hk'. by destruct (Hk' _ Hin).
Qed.

(** What is left after the last [stop]. *)
Lemma stopping_leaves path text h0 h : started path text h0 -> stopping path h0 h ->
  exists before k w r, h = before ++ [Killed k; Waited w; Removed path r]
    /\ (k = true \/ w = true -> child_left false h = false)
    /\ on_disk ∅ h = (if bool_decide (Removed path true ∈ h) then ∅ else {[path := text]}).
Proof.
  intros Hs (mid & k & w & r & -> & Hmid). destruct (started_disk _ _ _ Hs) as (Hd & _ & Hr).
  exists (h0 ++ mid), k, w, r. split; [by rewrite app_assoc|]. split.
  - intros Hkw. rewrite !child_left_app. generalize (child_left (child_left false h0) mid). intros b. by destruct k, w, Hkw.
  - rewrite !on_disk_app, Hd.
    assert (He : Removed path true ∈ h0 ++ mid ++ [Killed k; Waited w; Removed path r]
                 <-> r = true \/ exists k' w', mid = [Killed k'; Waited w'; Removed path true]).
    { rewrite !elem_of_app. split.
      - intros [Hin|[Hin|Hin]]; [by destruct (Hr true)| |left; set_solver].
        destruct Hmid as [->|(k' & w' & r' & ->)]; [set_solver|]. right. exists k', w'.
        assert (r' = true) as -> by set_solver. done.
      - intros [->|(k' & w' & ->)]; [right; right|right; left]; set_solver. }
    rewrite (bool_decide_ext _ _ He). destruct Hmid as [->|(k' & w' & r' & ->)]; cbn [on_disk].
    + destruct r.
      * rewrite bool_decide_true by auto. by rewrite delete_singleton_eq.
      * rewrite bool_decide_false by naive_solver. done.
    + destruct r, r'; cbn [on_disk]; rewrite ?delete_singleton_eq, ?delete_empty;
        first [rewrite bool_decide_true by eauto; done | rewrite bool_decide_false by naive_solver; done].
Qed.

(** *** The steps of the AWG interface *)

Section AwgSteps.
Context (sy : System).

Lemma wait_socket_result socket i n h : 
  wait_for_socket sy socket i n h = (Ok tt, h) \/ (wait_for_socket sy socket i n h).1 = Err AwgEarlyExit
  \/ (wait_for_socket sy socket i n h).1 = Err (SocketTimeout socket).
Proof.
  revert i. induction n as [|n IH]; intros i; cbn [wait_for_socket]; [by right; right|].
  destruct (sy_socket sy i); [by left|]. destruct (exited sy i); [by right; left|apply IH].
Qed.

(** The commands that bring the interface up. *)
Definition bring_up_commands (iface address : string) : list action :=
  if is_some (sy_env sy "AWG_SKIP_IP_BRINGUP") then []
  else [Ran ["ip"; "addr"; "replace"; address; "dev"; iface]%string; Ran ["ip"; "link"; "set"; iface; "up"]%string].

Lemma ip_step_ok argv failed refused h h' : ip_step sy argv failed refused h = (Ok tt, h') -> h' = h ++ [Ran ("ip"%string :: argv)].
Proof. unfold ip_step, mbind, mgr_bind, output. destruct (sy_output _ _ _) as [|[] ? ? ?]; [done| |done]. by intros [= <-]. Qed.

Lemma bring_up_ok iface address h h' : maybe_bring_up_interface sy iface address h = (Ok tt, h') -> h' = h ++ bring_up_commands iface address.
Proof.
  unfold maybe_bring_up_interface, bring_up_commands. destruct (is_some _); [intros [= <-]; by rewrite app_nil_r|].
  unfold bring_up_interface, mbind, mgr_bind. destruct (ip_step _ _ _ _ h) as [[[]| |] h1] eqn:E1; [|done..]. apply ip_step_ok in E1 as ->.
  intros ->%ip_step_ok. by rewrite <- app_assoc.
Qed.

Lemma setconf_ok tools iface path h h' : apply_setconf sy tools iface path h = (Ok tt, h') -> h' = h ++ [Ran [tools; "setconf"; iface; path]%string].
Proof.
  unfold apply_setconf, mbind, mgr_bind, of_result, to_str, output. destruct (utf8_valid _); [|done].
  destruct (sy_output _ _ _) as [|[] ? ? ?]; [done| |done]. by intros [= <-].
Qed.

(** What an interface that came up has done. *)
Lemma start_interface_ok go tools dir iface address conf h m h' : start_interface sy go tools dir iface address conf h = (Ok m, h') ->
  let conf_dir := path_join (sy_temp_dir sy) dir in
  mg_config_path m = path_join conf_dir (iface +:+ ".conf")
  /\ h' = h ++ [MadeDir conf_dir; Wrote (mg_config_path m) (strip_wgquick_fields conf); Spawned [go; "-f"; iface]%string;
                Ran [tools; "setconf"; iface; mg_config_path m]%string] ++ bring_up_commands iface address.
Proof.
  unfold start_interface, write_config, spawn, act. cbn zeta. set (d := path_join _ dir). set (p := path_join d _).
  unfold mbind at 1, mgr_bind at 1. unfold mbind at 1, mgr_bind at 1. destruct (sy_mkdir sy d); [done|].
  unfold mbind at 1, mgr_bind at 1. destruct (sy_write sy p); [done|]. cbn [mret mgr_ret]. unfold mbind, mgr_bind.
  destruct (sy_spawn sy _); [done|]. set (h1 := _ ++ [Spawned _]).
  destruct (wait_socket_result (uapi_socket_path sy iface) 0 40 h1) as [-> | [Hw|Hw]].
  2,3: destruct (wait_for_socket _ _ _ _ h1) as [? ?]; cbn [fst] in Hw; by subst.
  destruct (apply_setconf _ _ _ _ h1) as [[[]| |] h2] eqn:E2; [|done..]. apply setconf_ok in E2 as ->.
  destruct (maybe_bring_up_interface _ _ _ _) as [[[]| |] h3] eqn:E3; [|done..]. apply bring_up_ok in E3 as ->.
  intros [= <- <-]. cbn [mg_config_path]. split; [done|]. unfold h1. by rewrite <- !app_assoc.
Qed.

(** A failure by a refused command comes after the socket was seen, so that the child
    is not killed. *)
Definition child_kept (e : AwgError) (h : list action) : Prop :=
  forall msg argv, e = SetconfFailed msg -> Spawned argv ∈ h -> child_left false h = true.

Lemma quiet_kept e pre argv post : Forall is_ran post -> child_kept e (pre ++ Spawned argv :: post).
Proof. intros Hp msg argv' _ _. rewrite child_left_app. cbn [child_left]. by apply ran_child. Qed.

Lemma not_spawned_kept e h : Forall (fun a => forall argv, a <> Spawned argv) h -> child_kept e h.
Proof. intros Hh msg argv _ Hin. rewrite Forall_forall in Hh. by destruct (Hh _ Hin argv). Qed.

Lemma ran_not_spawned h : Forall is_ran h -> Forall (fun a => forall argv, a <> Spawned argv) h.
Proof. intros Hh. eapply Forall_impl; [exact Hh|]. by intros []. Qed.

Lemma start_interface_kept go tools dir iface address conf h e h' : Forall is_ran h ->
  start_interface sy go tools dir iface address conf h = (Err e, h') -> child_kept e h'.
Proof.
  intros Hh%ran_not_spawned. unfold start_interface, write_config, spawn, act. cbn zeta. set (d := path_join _ dir). set (p := path_join d _).
  unfold mbind at 1, mgr_bind at 1. unfold mbind at 1, mgr_bind at 1. destruct (sy_mkdir sy d).
  { intros [= <- <-]. by apply not_spawned_kept. }
  assert (Hd : Forall (fun a => forall argv, a <> Spawned argv) (h ++ [MadeDir d])) by (apply Forall_app; split; [done|by apply Forall_cons]).
  unfold mbind at 1, mgr_bind at 1. destruct (sy_write sy p).
  { intros [= <- <-]. by apply not_spawned_kept. }
  cbn [mret mgr_ret]. unfold mbind at 1, mgr_bind at 1. destruct (sy_spawn sy _).
  { intros [= <- <-]. apply not_spawned_kept. apply Forall_app. split; [done|by apply Forall_cons]. }
  set (h1 := _ ++ [Spawned _]). unfold mbind at 1, mgr_bind at 1. destruct (wait_socket_result (uapi_socket_path sy iface) 0 40 h1) as [-> | [Hw|Hw]].
  2,3: destruct (wait_for_socket _ _ _ _ h1) as [? ?]; cbn [fst] in Hw; subst; intros [= <- <-]; by intros ? ?.
  intros Hr. assert (Hq : does is_ran (_ ← apply_setconf sy tools iface p; _ ← maybe_bring_up_interface sy iface address; mret {| mg_config_path := p |})).
  { apply does_bind; [apply quiet_setconf|]. intros _. apply does_bind; [apply quiet_bring_up|intros; apply does_mret]. }
  destruct (Hq h1) as (l & Hl & HP). rewrite Hr in Hl. cbn [snd] in Hl. subst h'. unfold h1. rewrite <- app_assoc. by apply quiet_kept.
Qed.
Lemma kept_after {A} (m : mgr AwgError A) (f : A -> mgr AwgError Manager) h e h' : does is_ran m ->
  (forall a h e h', Forall is_ran h -> f a h = (Err e, h') -> child_kept e h') ->
  Forall is_ran h -> (m ≫= f) h = (Err e, h') -> child_kept e h'.
Proof.
  intros Hm Hf Hh Hr. destruct (Hm h) as (l & Hl & HP). unfold mbind, mgr_bind in Hr. destruct (m h) as [[a|e1|] h1]; cbn [snd] in Hl; subst h1; [| |done].
  - eapply Hf; [|exact Hr]. by apply Forall_app.
  - injection Hr as <- <-. apply not_spawned_kept, ran_not_spawned. by apply Forall_app.
Qed.

(** A computation that succeeds after one that only runs commands. *)
Lemma ok_after {A B} (m : mgr AwgError A) (f : A -> mgr AwgError B) h b h' : does is_ran m -> Forall is_ran h -> (m ≫= f) h = (Ok b, h') ->
  exists a h1, Forall is_ran h1 /\ f a h1 = (Ok b, h').
Proof.
  intros Hm Hh Hr. destruct (Hm h) as (l & Hl & HP). unfold mbind, mgr_bind in Hr. destruct (m h) as [[a|e1|] h1]; cbn [snd] in Hl; subst h1; [|done..].
  exists a, (h ++ l). split; [by apply Forall_app|done].
Qed.

Lemma bring_up_ran iface address : Forall is_ran (bring_up_commands iface address).
Proof. unfold bring_up_commands. destruct (is_some _); [apply Forall_nil_2|]. by repeat apply Forall_cons_2; [..|apply Forall_nil_2]. Qed.

Lemma interface_then_kept go tools dir iface address conf (k : mgr AwgError unit) h e h' : Forall is_ran h -> does is_ran k ->
  (m ← start_interface sy go tools dir iface address conf; _ ← k; mret m) h = (Err e, h') -> child_kept e h'.
Proof.
  intros Hh Hk. unfold mbind at 1, mgr_bind at 1. destruct (start_interface _ _ _ _ _ _ _ h) as [[m|e1|] h1] eqn:Hs; [| |done].
  - apply start_interface_ok in Hs as [_ ->]. intros Hr. set (h2 := h ++ _) in Hr. destruct (Hk h2) as (l & Hl & HP).
    unfold mbind, mgr_bind in Hr. destruct (k h2) as [[[]|e2|] h3]; cbn [snd] in Hl; [done| |done]. injection Hr as <- <-. rewrite Hl. unfold h2.
    set (d := path_join _ dir). set (w := Wrote _ _). set (c := Ran [tools; _; _; _]). set (a := [go; _; _]).
    assert (He : forall post, h ++ [MadeDir d; w; Spawned a; c] ++ post = (h ++ [MadeDir d; w]) ++ Spawned a :: c :: post) by (intros; by rewrite <- app_assoc).
    rewrite He, <- app_assoc. apply quiet_kept. cbn [app]. apply Forall_cons. split; [done|]. apply Forall_app. split; [apply bring_up_ran|done].
  - intros [= <- <-]. by eapply start_interface_kept.
Qed.
End AwgSteps.

(** *** Cores that have started *)

Lemma started_snoc path text h l : started path text h -> Forall is_ran l -> started path text (h ++ l).
Proof.
  intros (pre & argv & post & -> & H1 & H2) Hl. exists pre, argv, (post ++ l). rewrite <- app_assoc. split_and!; [done|done|].
  by apply Forall_app.
Qed.

(** A computation that only runs commands, and then starts the core. *)
Lemma ok_ran {E A B} (m : mgr E A) (f : A -> mgr E B) h b h' : does is_ran m -> Forall is_ran h -> (m ≫= f) h = (Ok b, h') ->
  exists a h1, m h = (Ok a, h1) /\ Forall is_ran h1 /\ f a h1 = (Ok b, h').
Proof.
  intros Hm Hh Hr. destruct (Hm h) as (l & Hl & HP). unfold mbind, mgr_bind in Hr. destruct (m h) as [[a|e1|] h1]; cbn [snd] in Hl; subst h1; [|done..].
  exists a, (h ++ l). split_and!; [done|by apply Forall_app|done].
Qed.

Lemma ran_pre h d : Forall is_ran h -> Forall (fun a => is_ran a \/ exists d, a = MadeDir d) (h ++ [MadeDir d]).
Proof.
  intros Hh. apply Forall_app. split; [eapply Forall_impl; [exact Hh|]; intros a Ha; by left|].
  apply Forall_singleton. right. by exists d.
Qed.

Lemma start_core_started {E} `{CoreError E} sy find text dir file args m h :
  does is_ran find -> start_core sy find text dir file args [] = (Ok m, h) ->
  mg_config_path m = core_file sy dir file /\ started (core_file sy dir file) text h.
Proof.
  intros Hf Hr. unfold start_core in Hr. apply ok_ran in Hr as (bin & h1 & _ & Hh1 & Hr); [|done|apply Forall_nil_2].
  unfold write_config, spawn, act, core_file in *. set (d := path_join _ dir) in *. set (p := path_join d file) in *.
  unfold mbind at 1, mgr_bind at 1 in Hr. unfold mbind at 1, mgr_bind at 1 in Hr. destruct (sy_mkdir sy d); [done|].
  unfold mbind at 1, mgr_bind at 1 in Hr. destruct (sy_write sy p); [done|]. cbn [mret mgr_ret] in Hr.
  unfold mbind at 1, mgr_bind at 1 in Hr. unfold of_result, to_str in Hr. destruct (utf8_valid _); [|done].
  unfold mbind at 1, mgr_bind at 1 in Hr. destruct (sy_spawn sy _); [done|].
  set (h2 := _ ++ [Spawned _]) in Hr. destruct (quiet_wait sy 0 20 h2) as (l & Hl & HP).
  unfold mbind at 1, mgr_bind at 1 in Hr. destruct (wait_for_process sy 0 20 h2) as [[[]| |] h3]; cbn [snd] in Hl; [|done..].
  injection Hr as <- <-. split; [done|]. subst h3. apply started_snoc; [|done].
  exists (h1 ++ [MadeDir d]), (bin :: args ++ [p]), []. unfold h2. rewrite <- !app_assoc. split_and!; [done|by apply ran_pre|done].
Qed.

Lemma interface_started sy go tools dir iface address conf h m h' : Forall is_ran h ->
  start_interface sy go tools dir iface address conf h = (Ok m, h') ->
  mg_config_path m = core_file sy dir (iface +:+ ".conf")
  /\ started (core_file sy dir (iface +:+ ".conf")) (strip_wgquick_fields conf) h'.
Proof.
  intros Hh Hr. apply start_interface_ok in Hr as [Hp ->]. unfold core_file. rewrite <- Hp. split; [done|].
  eexists (h ++ [MadeDir _]), _, (Ran [tools; "setconf"; iface; mg_config_path m]%string :: bring_up_commands sy iface address).
  rewrite <- !app_assoc. split_and!; [done|by apply ran_pre|]. apply Forall_cons. split; [done|apply bring_up_ran].
Qed.

Lemma awg_start_started sy wg config nat m h : awg_start sy wg config nat [] = (Ok m, h) ->
  exists t, stripped (render_server_conf wg config) = Some t
    /\ mg_config_path m = core_file sy "skadicore-awg" (as_interface_name config +:+ ".conf")
    /\ started (core_file sy "skadicore-awg" (as_interface_name config +:+ ".conf")) t h.
Proof.
  intros Hr. unfold awg_start in Hr. apply ok_ran in Hr as (go & h1 & _ & Hh1 & Hr); [|apply quiet_find|apply Forall_nil_2].
  apply ok_ran in Hr as (tools & h2 & _ & Hh2 & Hr); [|apply quiet_find|done].
  apply ok_ran in Hr as (conf & h3 & Hc & Hh3 & Hr); [|apply does_ret|done].
  unfold of_result in Hc. destruct (render_server_conf wg config) as [conf'|e|]; cbn in Hc; [|done..]. injection Hc as -> _.
  unfold mbind at 1, mgr_bind at 1 in Hr. destruct (start_interface _ _ _ _ _ _ _ h3) as [[x|e1|] h4] eqn:Hs; [|done..].
  apply interface_started in Hs as [Hp Hst]; [|done]. eexists. split; [done|].
  assert (Hk : does is_ran (match nat with Some nat_cfg => apply_nat sy nat_cfg | None => mret tt end))
    by (destruct nat; [apply quiet_nat|apply does_mret]).
  destruct (Hk h4) as (l & Hl & HP). unfold mbind, mgr_bind in Hr.
  destruct ((match nat with Some nat_cfg => apply_nat sy nat_cfg | None => mret tt end) h4) as [[[]| |] h5]; cbn [snd] in Hl; [|done..].
  injection Hr as <- <-. subst h5. split; [done|]. by apply started_snoc.
Qed.

Lemma awg_client_start_started sy wg config m h : awg_client_start sy wg config [] = (Ok m, h) ->
  exists t, stripped (awg_client_conf wg config) = Some t
    /\ mg_config_path m = core_file sy "skadicore-awg-client" (awc_interface_name config +:+ ".conf")
    /\ started (core_file sy "skadicore-awg-client" (awc_interface_name config +:+ ".conf")) t h.
Proof.
  intros Hr. unfold awg_client_start in Hr. apply ok_ran in Hr as (go & h1 & _ & Hh1 & Hr); [|apply quiet_find|apply Forall_nil_2].
  apply ok_ran in Hr as (tools & h2 & _ & Hh2 & Hr); [|apply quiet_find|done].
  apply ok_ran in Hr as (conf & h3 & Hc & Hh3 & Hr); [|apply does_ret|done].
  unfold awg_client_conf. unfold of_result in Hc. destruct (render_client_conf _ _ _ _ _ _) as [conf'|e|]; cbn in Hc; [|done..].
  injection Hc as -> _. eexists. split; [done|]. by eapply interface_started.
Qed.

(** Every manager that has started owns its file. *)
Lemma core_started sy wg E (HE : CoreError E) start path text :
  core_start sy wg E HE start path text -> forall m h, start [] = (Ok m, h) ->
  exists t, text = Some t /\ mg_config_path m = path /\ started path t h.
Proof.
  intros [c nat|c|c|c|c|c] m h Hr; [by apply awg_start_started in Hr|by apply awg_client_start_started in Hr|..];
    apply start_core_started in Hr as [H1 H2]; try apply quiet_find; by eexists.
Qed.

(** ** Properties *)

(** C21: a core that ran is cleaned up after. For each of the six managers: while it
    runs, exactly its configuration, as rendered from the settings, is at its path, and
    its process has been started and not killed. However its run ends, by the shutdown,
    by the process ending or by an error of looking at it, the last things done are to
    kill the process, to wait for it and to remove that file; their failures are
    ignored: the process is gone when the kill or the wait succeeded, and the file with
    its keys is gone exactly when a removal succeeded, and otherwise still there. Only a
    wait for the process that never returns keeps a run in its stop, and only a start
    that failed or panicked has no run. *)
Theorem cores_stop_clean (sy : System) (wg : WgCrates) (E : Type) (HE : CoreError E) (start : mgr E Manager)
    (path : string) (text : option string) (shutdown : bool)
    (evs : list ((string + bool) * bool)) (r : manager_run) (h : list action)
    (Hs : core_start sy wg E HE start path text) (Hr : manage sy start shutdown evs = (r, h)) :
  match r with
  | StillRunning => exists t, text = Some t /\ on_disk ∅ h = {[path := t]} /\ child_left false h = true
  | Stopped | RunFailed _ =>
    exists t before k w rm, text = Some t /\ h = before ++ [Killed k; Waited w; Removed path rm]
      /\ (k = true \/ w = true -> child_left false h = false)
      /\ on_disk ∅ h = (if bool_decide (Removed path true ∈ h) then ∅ else {[path := t]})
  | Stopping => exists before k, h = before ++ [Killed k]
  | StartFailed e => exists e', (start []).1 = Err e' /\ e = core_display e'
  | Panicked => (start []).1 = Panic
  end.
Proof.
  unfold manage in Hr. pose proof (core_started _ _ _ _ _ _ _ Hs) as Hst. destruct (start []) as [[m|e|] h0]; cbn [fst snd] in Hst.
  - destruct (Hst m h0 eq_refl) as (t & -> & <- & Ht).
    pose proof (run_calm sy m shutdown evs h0) as Hc.
    destruct (run_until_shutdown sy m shutdown evs h0) as [[| |[[]|e|]] h1] eqn:Er; apply run_returns in Er; injection Hr as <- <-.
    + subst h1. exists t. destruct (started_disk _ _ _ Ht) as (H1 & H2 & _). done.
    + destruct Er as (k & h2 & ->). by eexists _, _.
    + destruct (stopping_leaves _ _ _ _ Ht Er) as (b & k & w & rm & H1 & H2 & H3). exists t, b, k, w, rm. done.
    + destruct (stopping_leaves _ _ _ _ Ht Er) as (b & k & w & rm & H1 & H2 & H3). exists t, b, k, w, rm. done.
    + done.
  - injection Hr as <- _. by exists e.
  - by injection Hr as <- _.
Qed.

(** a core that fails to start leaves its configuration. When starting any of the
    managers fails after its configuration was written, the file stays on the disk:
    no manager exists whose drop would remove it. *)
Theorem failed_start_leaves_config (sy : System) (wg : WgCrates) (E : Type) (HE : CoreError E) (start : mgr E Manager) (e : E)
    (h : list action) (path text file : string) (rendered : option string)
    (Hs : core_start sy wg E HE start file rendered) (Hr : start [] = (Err e, h)) (Hw : Wrote path text ∈ h) :
  on_disk ∅ h = {[path := text]}.
Proof.
  pose proof (core_start_owns _ _ _ _ _ _ _ Hs [] (Forall_nil_2 _)) as Ho. rewrite Hr in Ho. cbn [fst snd] in Ho.
  destruct Ho as [[Hk _]|(pre & path' & text' & post & -> & Hpre & Hpost & _)].
  - rewrite Forall_forall in Hk. by destruct (Hk _ Hw).
  - rewrite on_disk_app, (keeps_files_disk _ pre) by done. cbn [on_disk]. rewrite keeps_files_disk by done.
    rewrite Forall_forall in Hpre, Hpost. apply elem_of_app in Hw as [Hw|Hw]; [by destruct (Hpre _ Hw)|].
    apply elem_of_cons in Hw as [[= -> ->]|Hw]; [done|by destruct (Hpost _ Hw)].
Qed.

(** a failed setup leaves the tunnel's process. When the server's or the client's
    AmneziaWG start fails because a command for its interface was refused, the
    process that was started for it has not been killed and goes on running. *)
Theorem awg_failed_setup_leaves_process (sy : System) (wg : WgCrates) (start : mgr AwgError Manager) (msg : string) (argv : list string)
    (h : list action) (Hs : (exists config nat, start = awg_start sy wg config nat) \/ exists config, start = awg_client_start sy wg config)
    (Hr : start [] = (Err (SetconfFailed msg), h)) (Hp : Spawned argv ∈ h) :
  child_left false h = true.
Proof.
  assert (Hk : child_kept (SetconfFailed msg) h); [|by eapply Hk].
  destruct Hs as [(config & nat & ->)|(config & ->)]; unfold awg_start, awg_client_start in Hr; revert Hr;
    (apply kept_after; [apply quiet_find| |apply Forall_nil_2]); intros go h1 e1 h1' Hh1; (apply kept_after; [apply quiet_find| |done]);
    intros tools h2 e2 h2' Hh2; (apply kept_after; [apply does_ret| |done]); intros conf h3 e3 h3' Hh3.
  - apply interface_then_kept; [done|]. destruct nat; [apply quiet_nat|apply does_mret].
  - by apply start_interface_kept.
Qed.

(** the configured MTU and DNS are not applied. A started AmneziaWG client has
    written its configuration without the wg-quick settings, started the process, and
    run exactly `setconf`, `ip addr replace` and `ip link set up` (nothing more than
    `setconf` in tests): no action sets the MTU or the DNS server of the
    configuration, which are among the settings removed. *)
Theorem awg_client_start_exact (sy : System) (wg : WgCrates) (config : AwgClientConfig) (m : Manager) (h : list action)
    (Hr : awg_client_start sy wg config [] = (Ok m, h)) :
  exists finds go tools conf dir, Forall is_ran finds
    /\ h = finds ++ [MadeDir dir; Wrote (mg_config_path m) (strip_wgquick_fields conf); Spawned [go; "-f"; awc_interface_name config]%string;
                     Ran [tools; "setconf"; awc_interface_name config; mg_config_path m]%string]
            ++ bring_up_commands sy (awc_interface_name config) (awc_address config)
    /\ Forall (fun l => line_key l <> "mtu"%string /\ line_key l <> "dns"%string \/ trim l = EmptyString \/ String.prefix "#" (trim l) = true)
         (str_split newline (strip_wgquick_fields conf)).
Proof.
  unfold awg_client_start in Hr. apply ok_after in Hr as (go & h1 & Hh1 & Hr); [|apply quiet_find|apply Forall_nil_2].
  apply ok_after in Hr as (tools & h2 & Hh2 & Hr); [|apply quiet_find|done]. apply ok_after in Hr as (conf & h3 & Hh3 & Hr); [|apply does_ret|done].
  apply start_interface_ok in Hr as [_ ->]. exists h3, go, tools, conf, (path_join (sy_temp_dir sy) "skadicore-awg-client").
  split_and!; [done|done|]. eapply Forall_impl; [apply stripped_keeps|]. intros l. cbv beta. unfold keeps_line. cbn zeta.
  destruct (bool_decide (trim l = EmptyString)) eqn:E1; [bool_hyps; by right; left|]. destruct (String.prefix "#" (trim l)) eqn:E2; [by right; right|].
  cbn [orb]. rewrite negb_true_iff, bool_decide_eq_false. intros Hk. left. split; intros Hl; apply Hk; rewrite Hl; set_solver.
Qed.

Definition succeeds (sy : System) (h : list action) (argv : list string) : bool :=
  match sy_output sy h argv with Ended true _ _ _ => true | _ => false end.

(** the masquerading rule is added once. With NAT enabled for a subnet and an
    interface, forwarding is switched on and the rule is looked for; it is added only
    when it is not there, and the setup succeeds exactly when forwarding and either
    the look or the addition do. *)
Theorem awg_nat_rule_once (sy : System) (config : AwgNatConfig) (iface : string) (h h' : list action)
    (Hen : nat_enabled config = true) (Hsub : not_blank (nat_subnet config)) (Hi : nat_egress_interface config = Some iface)
    (Hib : not_blank iface) :
  let forward := ["sysctl"; "-w"; "net.ipv4.ip_forward=1"]%string in
  let check := "iptables"%string :: masquerade "-C" (nat_subnet config) iface in
  let add := "iptables"%string :: masquerade "-A" (nat_subnet config) iface in
  let h1 := h ++ [Ran forward] in
  let h2 := h1 ++ [Ran check] in
  apply_nat sy config h = (Ok tt, h') <->
  succeeds sy h forward = true
  /\ (succeeds sy h1 check = true /\ h' = h2
      \/ succeeds sy h1 check = false /\ succeeds sy h2 add = true /\ h' = h2 ++ [Ran add]).
Proof.
  cbn zeta. unfold apply_nat. rewrite Hen, (proj2 (blank_false _) Hsub), (proj2 (nonblank_some _ _) (conj Hi Hib)). cbn [negb].
  unfold enable_ip_forward, run_iptables, or_else, succeeds, mbind, mgr_bind, output, of_result, mret, mgr_ret.
  destruct (sy_output sy h _) as [|[] ? ? ?]; [naive_solver| |naive_solver].
  destruct (sy_output sy (h ++ _) _) as [|[] ? ? ?]; [|naive_solver|];
    (destruct (sy_output sy ((h ++ _) ++ _) _) as [|[] ? ? ?]; naive_solver).
Qed.

(** ** Witnesses *)

(** Programs by environment variables; [refused] is the one that fails. *)
Definition demo_system (refused : string) : System :=
  {| sy_env := fun v => if bool_decide (v = "AWG_UAPI_DIR"%string \/ v = "AWG_SKIP_IP_BRINGUP"%string) then None else Some v;
     sy_is_file := fun _ => true; sy_temp_dir := "/tmp"; sy_mkdir := fun _ => None; sy_write := fun _ => None; sy_spawn := fun _ => None;
     sy_socket := fun i => (2 <=? i)%nat; sy_try_wait := fun _ => inr false;
     sy_kill := fun _ => true; sy_wait := fun _ => Some true; sy_remove := fun h _ => (length h <=? 8)%nat;
     sy_output := fun _ argv => if bool_decide (hd EmptyString argv = refused) then Ended false "1" EmptyString "no" else Ended true "0" EmptyString EmptyString |}.

Definition demo_wg : WgCrates :=
  {| private_key_of := inr; public_key_of := inr; preshared_key_of := inr; ipnet_of := Some; amnezia_check := fun _ _ => None;
     interface_text := fun key _ _ _ _ _ _ _ => "PrivateKey = " +:+ key +:+ nl +:+ "MTU = 1280" +:+ nl |}.

Definition demo_awg_client : AwgClientConfig :=
  {| awc_interface_name := "awg0"; awc_private_key := "key"; awc_address := "10.8.0.2/24"; awc_server_public_key := "pub";
     awc_endpoint := "203.0.113.9:51820"; awc_mtu := Some 1280; awc_dns := None; awc_allowed_ips := []; awc_persistent_keepalive := None;
     awc_obfuscation := {| jc := 8; jmin := 64; jmax := 1024; s1 := 32; s2 := 32; s3 := 16; s4 := 16; h1 := "1"; h2 := "2"; h3 := "3"; h4 := "4" |} |}.

Definition demo_path : string := "/tmp/skadicore-awg-client/awg0.conf".
Definition demo_text : string := "PrivateKey = key" +:+ nl.

Definition demo_core_run : manager_run * list action :=
  manage (demo_system "none") (awg_client_start (demo_system "none") demo_wg demo_awg_client) false [(inr false, false); (inr false, true)].

(** The file is removed by the first [stop]; the second one finds nothing. *)
Lemma cores_stop_clean_witness :
  demo_core_run.1 = Stopped
  /\ exists t before k w rm, Some demo_text = Some t /\ demo_core_run.2 = before ++ [Killed k; Waited w; Removed demo_path rm]
       /\ (k = true \/ w = true -> child_left false demo_core_run.2 = false)
       /\ on_disk ∅ demo_core_run.2 = (if bool_decide (Removed demo_path true ∈ demo_core_run.2) then ∅ else {[demo_path := t]}).
Proof.
  split; [by vm_compute|].
  apply (cores_stop_clean (demo_system "none") demo_wg AwgError _ (awg_client_start (demo_system "none") demo_wg demo_awg_client)
           demo_path (Some demo_text) false [(inr false, false); (inr false, true)] Stopped);
    [exact (cs_awg_client (demo_system "none") demo_wg demo_awg_client)|by vm_compute].
Defined.

Definition demo_failed_history : list action :=
  (awg_client_start (demo_system "AWG_TOOLS_BINARY") demo_wg demo_awg_client []).2.

Lemma failed_start_leaves_config_witness : on_disk ∅ demo_failed_history = {[demo_path := demo_text]}.
Proof.
  apply (failed_start_leaves_config (demo_system "AWG_TOOLS_BINARY") demo_wg AwgError _
           (awg_client_start (demo_system "AWG_TOOLS_BINARY") demo_wg demo_awg_client) (SetconfFailed "exit 1: no") demo_failed_history
           demo_path demo_text demo_path (Some demo_text)); [exact (cs_awg_client (demo_system "AWG_TOOLS_BINARY") demo_wg demo_awg_client)|by vm_compute|by apply (bool_decide_eq_true_1 _); vm_compute].
Defined.

Lemma awg_failed_setup_leaves_process_witness : child_left false demo_failed_history = true.
Proof.
  apply (awg_failed_setup_leaves_process (demo_system "AWG_TOOLS_BINARY") demo_wg
           (awg_client_start (demo_system "AWG_TOOLS_BINARY") demo_wg demo_awg_client) "exit 1: no" ["AWG_GO_BINARY"; "-f"; "awg0"]%string);
    [right; by eexists|by vm_compute|by apply (bool_decide_eq_true_1 _); vm_compute].
Defined.

Lemma awg_client_start_exact_witness :
  exists finds go tools conf dir, Forall is_ran finds
    /\ (awg_client_start (demo_system "none") demo_wg demo_awg_client []).2
       = finds ++ [MadeDir dir; Wrote demo_path (strip_wgquick_fields conf); Spawned [go; "-f"; "awg0"]%string;
                   Ran [tools; "setconf"; "awg0"; demo_path]%string]
         ++ bring_up_commands (demo_system "none") "awg0" "10.8.0.2/24".
Proof.
  destruct (awg_client_start_exact (demo_system "none") demo_wg demo_awg_client {| mg_config_path := demo_path |}
              (awg_client_start (demo_system "none") demo_wg demo_awg_client []).2)
    as (finds & go & tools & conf & dir & H1 & H2 & _); [by vm_compute|]. by exists finds, go, tools, conf, dir.
Defined.

Lemma awg_nat_rule_once_witness :
  apply_nat (demo_system "none") {| nat_enabled := true; nat_egress_interface := Some "eth0"%string; nat_subnet := "10.8.0.0/24" |} []
  = (Ok tt, [Ran ["sysctl"; "-w"; "net.ipv4.ip_forward=1"]%string; Ran ("iptables"%string :: masquerade "-C" "10.8.0.0/24" "eth0")]).
Proof.
  apply (awg_nat_rule_once (demo_system "none") {| nat_enabled := true; nat_egress_interface := Some "eth0"%string; nat_subnet := "10.8.0.0/24" |}
           "eth0" []); [reflexivity|by vm_compute|reflexivity|by vm_compute|].
  split; [by vm_compute|]. left. split; by vm_compute.
Defined.
