(* ===== verification/Pmtud.v ===== *)
(** * Path MTU of the client's tunnel
    Models crates/skadi-client/src/pmtud.rs: the modes, the effective MTU, the MTU
    lowered at run time, the parser and the builder of ICMP Fragmentation Needed.
    The resolver and the system calls of the probe are parameters. *)

From Stdlib Require Import Ascii String Lia.
From stdpp Require Import base list list_numbers numbers strings pretty gmap.
From S2P Require Import Prelude Core Io External.

(** ** Constants and modes *)

Definition IPV4_HEADER_LEN : nat := 20.
Definition UDP_HEADER_LEN : nat := 8.
Definition ICMP_HEADER_LEN : nat := 8.
Definition DEFAULT_OVERLAY_OVERHEAD : Z := 100.
Definition MIN_TUN_MTU : Z := 576.
Definition RECOMMENDED_TUN_MTU : Z := 1400.

Inductive PmtudMode := Off | Static | Probe.

Definition parse_pmtud_mode (value : string) : res anyhow PmtudMode :=
  if String.eqb value "off" then Ok Off
  else if String.eqb value "static" then Ok Static
  else if String.eqb value "probe" then Ok Probe
  else Err (bail ("client.tun.pmtud must be " +:+ quoted "off" +:+ ", " +:+ quoted "static" +:+ ", or "
                  +:+ quoted "probe" +:+ ", got " +:+ value)).

(** ** The probe *)

(** What the resolver and the kernel answer: each system call of the probe. *)
Record ProbeNet := {
  pn_lookup : string -> io_error + list SocketAddr;
  pn_bind : option io_error;
  pn_set_discover : option io_error;
  pn_connect : SocketAddr -> option io_error;
  pn_get_mtu : SocketAddr -> io_error + Z;
}.

Definition context_of (c : string) (e : io_error) : anyhow := add_context c (anyhow_of_io e).

(** [mtu] is a C [int]; the cast to [u16] keeps its low 16 bits. *)
Definition probe_path_mtu_linux (net : ProbeNet) (dst : SocketAddr) : res anyhow Z :=
  match pn_bind net with
  | Some e => Err (context_of "bind UDP socket for PMTUD probe" e)
  | None =>
    match pn_set_discover net with
    | Some e => Err (context_of "set IP_MTU_DISCOVER" e)
    | None =>
      match pn_connect net dst with
      | Some e => Err (context_of "connect UDP socket to proxy for PMTUD probe" e)
      | None =>
        match pn_get_mtu net dst with
        | inl e => Err (context_of "get IP_MTU" e)
        | inr mtu => if mtu <=? 0 then Err (bail ("invalid path MTU from IP_MTU: " +:+ pretty mtu)) else Ok (as_u16 mtu)
        end
      end
    end
  end.

Definition probe_path_mtu (net : ProbeNet) (proxy_host : string) : res anyhow Z :=
  match pn_lookup net proxy_host with
  | inl e => Err (context_of ("cannot resolve proxy host " +:+ proxy_host) e)
  | inr addrs =>
    match List.find sock_is_ipv4 addrs with
    | None => Err (bail ("no IPv4 address for proxy host " +:+ proxy_host))
    | Some dst => probe_path_mtu_linux net dst
    end
  end.

Definition resolve_effective_mtu (net : ProbeNet) (configured_mtu : Z) (mode : PmtudMode) (overhead : Z)
    (proxy_host : string) : Z :=
  match mode with
  | Off | Static => configured_mtu
  | Probe =>
    match probe_path_mtu net proxy_host with
    | Ok path_mtu => Z.min (Z.max (Z.max 0 (path_mtu - overhead)) MIN_TUN_MTU) configured_mtu
    | _ => Z.min configured_mtu RECOMMENDED_TUN_MTU
    end
  end.

Definition max_udp_payload_ipv4 (mtu : Z) : nat :=
  Nat.max (Z.to_nat mtu - (IPV4_HEADER_LEN + UDP_HEADER_LEN)) 1.

(** ** The MTU at run time *)

Record MtuState := { current : Z }.

Definition mtu_new (mtu : Z) : MtuState := {| current := mtu |}.
Definition mtu_get (s : MtuState) : Z := current s.

Definition try_lower (s : MtuState) (next_hop_mtu : Z) : bool * MtuState :=
  let clamped := Z.max next_hop_mtu MIN_TUN_MTU in
  if current s <=? clamped then (false, s) else (true, {| current := clamped |}).

(** ** ICMP Fragmentation Needed *)

Definition parse_icmp_frag_needed_v4 (packet : bytes) : res unit (option Z) :=
  if (length packet <? IPV4_HEADER_LEN + ICMP_HEADER_LEN)%nat then Ok None else
  b0 ← idx packet 0;
  if negb (Z.shiftr b0 4 =? 4) then Ok None else
  let ihl := (Z.to_nat (Z.land b0 0x0f) * 4)%nat in
  if (ihl <? IPV4_HEADER_LEN)%nat || (length packet <? ihl + ICMP_HEADER_LEN)%nat then Ok None else
  icmp ← slice_from packet ihl;
  kind ← idx icmp 0;
  code ← idx icmp 1;
  if negb (kind =? 3) || negb (code =? 4) then Ok None else
  hi ← idx icmp 6;
  lo ← idx icmp 7;
  let mtu := from_be16 hi lo in
  if mtu <? MIN_TUN_MTU then Ok None else Ok (Some mtu).

(** [buf[i..i + src.len()].copy_from_slice(src)]. *)
Definition put (buf : bytes) (i : nat) (src : bytes) : res unit bytes :=
  if (i + length src <=? length buf)%nat then Ok (take i buf ++ src ++ drop (i + length src) buf) else Panic.

Definition write_ipv4_header (buf : bytes) (src dst : Ipv4Addr) (protocol payload_len : Z) : res unit bytes :=
  buf ← put buf 0 [0x45];
  let total_len := as_u16 (Z.of_nat IPV4_HEADER_LEN + payload_len) in
  buf ← put buf 2 (to_be16 total_len);
  buf ← put buf 8 [64];
  buf ← put buf 9 [protocol];
  buf ← put buf 12 (ipv4_octets src);
  put buf 16 (ipv4_octets dst).

(** [a + b] on [u32], which panics on overflow. *)
Definition add_u32 (a b : Z) : res unit Z := if a + b <? 2 ^ 32 then Ok (a + b) else Panic.

Fixpoint sum_words (sum : Z) (data : bytes) : res unit Z :=
  match data with
  | hi :: lo :: rest => s ← add_u32 sum (from_be16 hi lo); sum_words s rest
  | [b] => add_u32 sum (Z.shiftl b 8)
  | [] => Ok sum
  end.

(** Each round of the loop at least divides what exceeds 16 bits by 2^15: two rounds
    are enough for a [u32]. *)
Fixpoint fold_sum (fuel : nat) (sum : Z) : res unit Z :=
  match fuel with
  | O => Panic
  | S fuel =>
    if Z.shiftr sum 16 =? 0 then Ok sum
    else s ← add_u32 (Z.land sum 0xffff) (Z.shiftr sum 16); fold_sum fuel s
  end.

Definition internet_checksum (data : bytes) : res unit Z :=
  sum ← sum_words 0 data;
  sum ← fold_sum 4 sum;
  Ok (65535 - as_u16 sum).

Definition build_icmp_frag_needed_v4 (inner_src inner_dst : Ipv4Addr) (inner_src_port inner_dst_port mtu : Z)
    : res unit bytes :=
  inner ← write_ipv4_header (replicate (IPV4_HEADER_LEN + UDP_HEADER_LEN) 0) inner_src inner_dst 17
            (Z.of_nat UDP_HEADER_LEN);
  inner ← put inner IPV4_HEADER_LEN (to_be16 inner_src_port);
  inner ← put inner (IPV4_HEADER_LEN + 2) (to_be16 inner_dst_port);
  let icmp_len := (ICMP_HEADER_LEN + length inner)%nat in
  icmp ← put (replicate icmp_len 0) 0 [3];
  icmp ← put icmp 1 [4];
  icmp ← put icmp 6 (to_be16 mtu);
  icmp ← put icmp ICMP_HEADER_LEN inner;
  checksum ← internet_checksum icmp;
  icmp ← put icmp 2 (to_be16 checksum);
  let total_len := (IPV4_HEADER_LEN + icmp_len)%nat in
  packet ← write_ipv4_header (replicate total_len 0) inner_dst inner_src 1 (as_u16 (Z.of_nat icmp_len));
  packet ← put packet IPV4_HEADER_LEN icmp;
  header ← slice packet 0 IPV4_HEADER_LEN;
  ip_checksum ← internet_checksum header;
  put packet 2 (to_be16 ip_checksum).

(** ** Checksums
    [word_sum] is the sum of the 16-bit words, [folded] its one's complement sum: the
    representative of the sum modulo 65535 that is zero only for the sum zero. *)

Fixpoint word_sum (data : bytes) : Z :=
  match data with
  | hi :: lo :: rest => from_be16 hi lo + word_sum rest
  | [b] => from_be16 b 0
  | [] => 0
  end.

Definition folded (x : Z) : Z := if x =? 0 then 0 else (x - 1) mod 65535 + 1.

Lemma list_pair_ind {X} (P : list X -> Prop) :
  P [] -> (forall a, P [a]) -> (forall a b l, P l -> P (a :: b :: l)) -> forall l, P l.
Proof.
  intros H0 H1 H2 l. enough (P l /\ forall a, P (a :: l)) as [? _] by done.
  induction l as [|b l [IH IH']]; split; auto.
Qed.

Lemma word_sum_bound data : bytes_ok data -> 0 <= word_sum data <= 65535 * Z.of_nat (length data).
Proof.
  induction data as [| b | hi lo data IH] using list_pair_ind; intros Hok; cbn [word_sum length].
  - lia.
  - apply bytes_ok_cons in Hok as [? _]. unfold from_be16, byte_ok in *. lia.
  - apply bytes_ok_cons in Hok as [? Hok]. apply bytes_ok_cons in Hok as [? Hok]. specialize (IH Hok).
    unfold from_be16, byte_ok in *. lia.
Qed.

Lemma sum_words_ok data sum : bytes_ok data -> 0 <= sum -> sum + word_sum data < 2 ^ 32 ->
  sum_words sum data = Ok (sum + word_sum data).
Proof.
  revert sum. induction data as [| b | hi lo data IH] using list_pair_ind; intros sum Hok Hs Hb; cbn [word_sum sum_words] in *.
  - by rewrite Z.add_0_r.
  - unfold add_u32, from_be16 in *. rewrite Z.shiftl_mul_pow2, Z.add_0_r in * by lia. change (2 ^ 8) with 256.
    by rewrite (proj2 (Z.ltb_lt _ _)) by lia.
  - apply bytes_ok_cons in Hok as [? Hok]. apply bytes_ok_cons in Hok as [? Hok]. pose proof (word_sum_bound data Hok).
    unfold add_u32. rewrite (proj2 (Z.ltb_lt _ _)) by lia. cbn [mbind res_bind]. rewrite IH; [f_equal; lia|done| |lia].
    unfold from_be16, byte_ok in *. lia.
Qed.

Lemma fold_round x : 65536 <= x < 2 ^ 32 ->
  Z.land x 0xffff + Z.shiftr x 16 = x mod 65536 + x / 65536 /\ folded (x mod 65536 + x / 65536) = folded x.
Proof.
  intros Hx. rewrite Z.shiftr_div_pow2 by lia. change 0xffff with (Z.ones 16). rewrite Z.land_ones by lia.
  change (2 ^ 16) with 65536. split; [done|]. unfold folded. pose proof (Z.div_mod x 65536 ltac:(lia)) as Hd.
  pose proof (Z.mod_pos_bound x 65536 ltac:(lia)). assert (1 <= x / 65536) by (apply Z.div_le_lower_bound; lia).
  rewrite !(proj2 (Z.eqb_neq _ _)) by lia. f_equal.
  replace (x - 1) with (x mod 65536 + x / 65536 - 1 + x / 65536 * 65535) by lia. by rewrite Z.mod_add by lia.
Qed.

Lemma fold_sum_step fuel x : fold_sum (S fuel) x =
  if Z.shiftr x 16 =? 0 then Ok x else s ← add_u32 (Z.land x 0xffff) (Z.shiftr x 16); fold_sum fuel s.
Proof. done. Qed.

Lemma fold_small fuel x : 0 <= x < 65536 -> fold_sum (S fuel) x = Ok (folded x).
Proof.
  intros Hx. rewrite fold_sum_step, Z.shiftr_div_pow2 by lia. change (2 ^ 16) with 65536. rewrite Z.div_small by lia.
  cbn [Z.eqb]. f_equal. unfold folded. case_match eqn:H0; [by apply Z.eqb_eq in H0|]. apply Z.eqb_neq in H0.
  rewrite Z.mod_small by lia. lia.
Qed.

Lemma fold_more fuel x : 65536 <= x < 2 ^ 32 -> fold_sum (S fuel) x = fold_sum fuel (x mod 65536 + x / 65536).
Proof.
  intros Hx. destruct (fold_round x Hx) as [He _]. rewrite fold_sum_step. unfold add_u32. rewrite He.
  assert (1 <= x / 65536) by (apply Z.div_le_lower_bound; lia). pose proof (Z.mod_pos_bound x 65536 ltac:(lia)).
  assert (x / 65536 < 65536) by (apply Z.div_lt_upper_bound; lia).
  rewrite Z.shiftr_div_pow2 by lia. change (2 ^ 16) with 65536. rewrite (proj2 (Z.eqb_neq _ _)) by lia.
  by rewrite (proj2 (Z.ltb_lt _ _)) by lia.
Qed.

Lemma fold_sum_ok x : 0 <= x < 2 ^ 32 -> fold_sum 4 x = Ok (folded x).
Proof.
  intros Hx. destruct (decide (x < 65536)) as [|H1]; [apply fold_small; lia|]. rewrite fold_more by lia.
  destruct (fold_round x) as [_ <-]; [lia|]. set (y := x mod 65536 + x / 65536).
  assert (Hy : 0 <= y <= 131070).
  { unfold y. pose proof (Z.mod_pos_bound x 65536 ltac:(lia)). pose proof (Z.div_pos x 65536 ltac:(lia) ltac:(lia)).
    assert (x / 65536 < 65536) by (apply Z.div_lt_upper_bound; lia). lia. }
  destruct (decide (y < 65536)) as [|H2]; [apply fold_small; lia|]. rewrite fold_more by lia.
  destruct (fold_round y) as [_ <-]; [lia|]. apply fold_small.
  assert (y / 65536 = 1) as -> by (symmetry; apply (Z.div_unique _ _ _ (y - 65536)); lia).
  rewrite (Z.mod_eq y) by lia. assert (y / 65536 = 1) as -> by (symmetry; apply (Z.div_unique _ _ _ (y - 65536)); lia). lia.
Qed.

Lemma folded_range x : 0 <= x -> 0 <= folded x <= 65535.
Proof. intros Hx. unfold folded. case_match; [lia|]. pose proof (Z.mod_pos_bound (x - 1) 65535 ltac:(lia)). lia. Qed.

Lemma folded_mod x k : 0 < x -> 1 <= k <= 65535 -> (x - k) mod 65535 = 0 -> folded x = k.
Proof.
  intros Hx Hk Hm. unfold folded. rewrite (proj2 (Z.eqb_neq _ _)) by lia. apply Z.mod_divide in Hm as [q Hq]; [|lia].
  replace (x - 1) with (k - 1 + q * 65535) by lia. rewrite Z.mod_add, Z.mod_small by lia. lia.
Qed.

Lemma folded_cong x : 0 < x -> (x - folded x) mod 65535 = 0.
Proof.
  intros Hx. unfold folded. rewrite (proj2 (Z.eqb_neq _ _)) by lia. pose proof (Z.div_mod (x - 1) 65535 ltac:(lia)).
  replace (x - ((x - 1) mod 65535 + 1)) with ((x - 1) / 65535 * 65535) by lia. by rewrite Z.mod_mul by lia.
Qed.

(** The checksum of data of up to 65535 bytes does not overflow. *)
Lemma checksum_ok data : bytes_ok data -> Z.of_nat (length data) <= 65535 ->
  internet_checksum data = Ok (65535 - folded (word_sum data)).
Proof.
  intros Hok Hl. pose proof (word_sum_bound data Hok). unfold internet_checksum. rewrite sum_words_ok by (done || lia).
  cbn [mbind res_bind]. rewrite Z.add_0_l, fold_sum_ok by lia. cbn [mbind res_bind]. rewrite as_u16_small; [done|].
  pose proof (folded_range (word_sum data)). unfold u16_ok. lia.
Qed.

(** ** The layout of the packets *)

Definition ip_header (total protocol : Z) (src dst : Ipv4Addr) : bytes :=
  [0x45; 0] ++ to_be16 total ++ [0; 0; 0; 0; 64; protocol; 0; 0] ++ ipv4_octets src ++ ipv4_octets dst.

(** The start of the datagram that was too big: its addresses and ports. *)
Definition quoted_datagram (src dst : Ipv4Addr) (src_port dst_port : Z) : bytes :=
  ip_header 28 17 src dst ++ to_be16 src_port ++ to_be16 dst_port ++ [0; 0; 0; 0].

Definition frag_needed (checksum mtu : Z) (quote : bytes) : bytes :=
  [3; 4] ++ to_be16 checksum ++ [0; 0] ++ to_be16 mtu ++ quote.

Lemma write_header_ok k src dst protocol len : k = 8%nat \/ k = 36%nat ->
  write_ipv4_header (replicate (IPV4_HEADER_LEN + k) 0) src dst protocol len
  = Ok (ip_header (as_u16 (20 + len)) protocol src dst ++ replicate k 0).
Proof. by intros [-> | ->]; destruct src, dst. Qed.

Lemma word_sum_app a b : Nat.even (length a) = true -> word_sum (a ++ b) = word_sum a + word_sum b.
Proof.
  induction a as [| x | x y a IH] using list_pair_ind; intros Hl; [done|done|]. cbn [app word_sum]. rewrite IH by done. lia.
Qed.

Lemma word_sum_be16 n l : u16_ok n -> word_sum (to_be16 n ++ l) = n + word_sum l.
Proof. intros Hn. unfold to_be16. cbn [app word_sum]. by rewrite from_to_be16. Qed.

Lemma word_sum_octets ip l : word_sum (ipv4_octets ip ++ l) = word_sum (ipv4_octets ip) + word_sum l.
Proof. by apply word_sum_app. Qed.

Lemma ip_header_ok total protocol src dst :
  byte_ok protocol -> ipv4_ok src -> ipv4_ok dst -> bytes_ok (ip_header total protocol src dst).
Proof. intros Hp Hs Hd. unfold ip_header, ipv4_ok in *. solve_app_ok. Qed.

Lemma frag_needed_ok c mtu q : bytes_ok q -> bytes_ok (frag_needed c mtu q).
Proof. intros Hq. unfold frag_needed. solve_app_ok. Qed.

Lemma quoted_datagram_ok src dst sp dp : ipv4_ok src -> ipv4_ok dst -> bytes_ok (quoted_datagram src dst sp dp).
Proof.
  intros Hs Hd. unfold quoted_datagram. apply bytes_ok_app. split; [|solve_app_ok]. by apply ip_header_ok; [unfold byte_ok; lia|..].
Qed.

(** Replace the first buffer operation by the value it computes to. *)
Ltac computes_to f R :=
  match goal with |- context [mbind (M := res unit) ?k ?m] =>
    match m with context [f] => replace m with (@Ok unit bytes R) by (repeat match goal with ip : Ipv4Addr |- _ => destruct ip end; reflexivity) end
  end; cbn [mbind res_bind].

(** The packet that is built: the checksum of the IP header lands in the total
    length, and the header's own checksum stays zero. *)
Lemma build_layout src dst sp dp mtu :
  ipv4_ok src -> ipv4_ok dst ->
  let quote := quoted_datagram src dst sp dp in
  let c := 65535 - folded (word_sum (frag_needed 0 mtu quote)) in
  let h := 65535 - folded (word_sum (ip_header 56 1 dst src)) in
  build_icmp_frag_needed_v4 src dst sp dp mtu = Ok (ip_header h 1 dst src ++ frag_needed c mtu quote).
Proof.
  intros Hs Hd quote c h. unfold build_icmp_frag_needed_v4.
  rewrite (write_header_ok 8) by (by left). cbn [mbind res_bind].
  change (as_u16 (20 + Z.of_nat UDP_HEADER_LEN)) with 28.
  computes_to put (ip_header 28 17 src dst ++ to_be16 sp ++ replicate 6 0). computes_to put (quote).
  change (put _ 0 [3]) with (@Ok unit bytes (3 :: replicate 35 0)). cbn [mbind res_bind].
  change (put _ 1 [4]) with (@Ok unit bytes (3 :: 4 :: replicate 34 0)). cbn [mbind res_bind].
  change (put _ 6 _) with (@Ok unit bytes ([3; 4; 0; 0; 0; 0] ++ to_be16 mtu ++ replicate 28 0)). cbn [mbind res_bind].
  computes_to put (frag_needed 0 mtu quote).
  pose proof (quoted_datagram_ok src dst sp dp Hs Hd) as Hq.
  rewrite checksum_ok; [|by apply frag_needed_ok|by vm_compute]. cbn [mbind res_bind]. fold c.
  computes_to put (frag_needed c mtu quote).
  change (length quote) with 28%nat. rewrite (write_header_ok 36) by (by right). cbn [mbind res_bind].
  change (as_u16 (20 + _)) with 56.
  computes_to put (ip_header 56 1 dst src ++ frag_needed c mtu quote). computes_to (@slice) (ip_header 56 1 dst src). rewrite checksum_ok; [|by apply ip_header_ok; [unfold byte_ok; lia|..]|by vm_compute]. cbn [mbind res_bind].
  fold h. by destruct src, dst.
Qed.

Lemma word_sum_frag_needed c mtu q : u16_ok c -> word_sum (frag_needed c mtu q) = c + word_sum (frag_needed 0 mtu q).
Proof.
  intros Hc. unfold frag_needed. rewrite !(word_sum_app [3; 4]), !word_sum_be16 by done. lia.
Qed.

Lemma word_sum_ip_header total p src dst : u16_ok total ->
  word_sum (ip_header total p src dst) = total + word_sum (ip_header 0 p src dst).
Proof. intros Ht. unfold ip_header. rewrite !(word_sum_app [0x45; 0]), !word_sum_be16 by done. lia. Qed.

(** A sum completed with the complement of its folded value folds to 65535. *)
Lemma folded_complement x : 0 < x -> folded (65535 - folded x + x) = 65535.
Proof.
  intros Hx. pose proof (folded_range x). apply folded_mod; [lia..|]. pose proof (folded_cong x Hx) as Hm.
  by replace (65535 - folded x + x - 65535) with (x - folded x) by lia.
Qed.

Lemma parse_built total c mtu dst src q : u16_ok mtu -> (length q = 28)%nat ->
  parse_icmp_frag_needed_v4 (ip_header total 1 dst src ++ frag_needed c mtu q)
  = Ok (if mtu <? MIN_TUN_MTU then None else Some mtu).
Proof.
  intros Hm Hq. unfold parse_icmp_frag_needed_v4. rewrite length_app.
  assert (length (ip_header total 1 dst src) = 20)%nat as -> by (by destruct src, dst).
  assert (length (frag_needed c mtu q) = 36)%nat as -> by (unfold frag_needed; rewrite !length_app, Hq; done).
  change ((20 + 36 <? IPV4_HEADER_LEN + ICMP_HEADER_LEN)%nat) with false. cbn [orb].
  change (idx (ip_header total 1 dst src ++ frag_needed c mtu q) 0) with (@Ok unit Z 0x45). cbn [mbind res_bind].
  change (Z.shiftr 0x45 4 =? 4) with true. change (Z.to_nat (Z.land 0x45 0x0f) * 4)%nat with 20%nat. cbn [negb].
  change ((20 <? IPV4_HEADER_LEN)%nat || (20 + 36 <? 20 + ICMP_HEADER_LEN)%nat) with false. cbv iota.
  assert (slice_from (ip_header total 1 dst src ++ frag_needed c mtu q) 20 = @Ok unit bytes (frag_needed c mtu q)) as ->
    by (by destruct dst, src).
  cbn [mbind res_bind]. change (idx (frag_needed c mtu q) 0) with (@Ok unit Z 3). change (idx (frag_needed c mtu q) 1) with (@Ok unit Z 4). cbn [mbind res_bind].
  change (idx (frag_needed c mtu q) 6) with (@Ok unit Z (mtu / 256 mod 256)). change (idx (frag_needed c mtu q) 7) with (@Ok unit Z (mtu mod 256)).
  cbn [mbind res_bind negb orb Z.eqb Pos.eqb]. rewrite from_to_be16 by done. by case_match.
Qed.

(** Any packet is parsed without panic, and no MTU below the minimum comes out. *)
Lemma parse_icmp_total packet : bytes_ok packet ->
  exists r, parse_icmp_frag_needed_v4 packet = Ok r /\ forall mtu, r = Some mtu -> MIN_TUN_MTU <= mtu < 65536.
Proof.
  intros Hok. unfold parse_icmp_frag_needed_v4. case_match eqn:Hl; [by exists None|]. apply Nat.ltb_ge in Hl.
  destruct (idx_lt (E := unit) packet 0) as (b0 & -> & _); [unfold IPV4_HEADER_LEN, ICMP_HEADER_LEN in Hl; lia|]. cbn [mbind res_bind].
  case_match; [by exists None|]. case_match eqn:Hi; [by exists None|]. apply orb_false_iff in Hi as [_ Hi]. apply Nat.ltb_ge in Hi.
  unfold ICMP_HEADER_LEN in Hi. rewrite slice_from_ok by lia. cbn [mbind res_bind].
  set (icmp := drop _ packet). assert (8 <= length icmp)%nat by (unfold icmp; rewrite length_drop; lia).
  assert (Hic : bytes_ok icmp) by (unfold icmp; auto with bytesdb).
  destruct (idx_lt (E := unit) icmp 0) as (? & -> & _); [lia|]. destruct (idx_lt (E := unit) icmp 1) as (? & -> & _); [lia|].
  cbn [mbind res_bind]. case_match; [by exists None|].
  destruct (idx_lt (E := unit) icmp 6) as (hi & -> & ?); [lia|]. destruct (idx_lt (E := unit) icmp 7) as (lo & -> & ?); [lia|].
  cbn [mbind res_bind]. pose proof (from_be16_ok hi lo ltac:(by eapply bytes_ok_lookup) ltac:(by eapply bytes_ok_lookup)) as [? ?].
  case_match eqn:Hlt; [by exists None|]. apply Z.ltb_ge in Hlt. eexists. split; [done|]. intros ? [= <-]. lia.
Qed.

Lemma try_lower_current s m : current (try_lower s m).2 = Z.min (Z.max m MIN_TUN_MTU) (current s).
Proof. unfold try_lower. case_match eqn:Hc; [apply Z.leb_le in Hc|apply Z.leb_gt in Hc]; cbn; lia. Qed.

(** ** Properties *)

(** ICMP Fragmentation Needed. For every datagram too big for the tunnel and every
    MTU, building the message never panics; it is 56 bytes long, goes back to the
    sender, its ICMP part carries the MTU, the addresses and the ports of the datagram
    and a checksum that verifies, and the client's own parser reads the MTU back
    unless it is below the minimum. *)
Theorem icmp_frag_needed_exact (src dst : Ipv4Addr) (src_port dst_port mtu : Z)
    (Hs : ipv4_ok src) (Hd : ipv4_ok dst) (Hm : u16_ok mtu) :
  exists packet c, build_icmp_frag_needed_v4 src dst src_port dst_port mtu = Ok packet
    /\ length packet = 56%nat
    /\ slice packet 12 20 = @Ok unit bytes (ipv4_octets dst ++ ipv4_octets src)
    /\ drop IPV4_HEADER_LEN packet = frag_needed c mtu (quoted_datagram src dst src_port dst_port)
    /\ internet_checksum (drop IPV4_HEADER_LEN packet) = Ok 0
    /\ parse_icmp_frag_needed_v4 packet = Ok (if mtu <? MIN_TUN_MTU then None else Some mtu).
Proof.
  rewrite build_layout by done. cbv zeta. set (q := quoted_datagram _ _ _ _). set (x := word_sum (frag_needed 0 mtu q)).
  assert (Hq : bytes_ok q) by (by apply quoted_datagram_ok). assert (Hx : 0 < x).
  { unfold x. pose proof (word_sum_bound (to_be16 mtu ++ q)) as Hw. unfold frag_needed.
    rewrite (word_sum_app [3; 4]), word_sum_be16, (word_sum_app [0; 0]) by done. change (word_sum [3; 4]) with 772. change (word_sum [0; 0]) with 0.
    destruct Hw; [by apply bytes_ok_app; auto with bytesdb|lia]. }
  assert (Hc : u16_ok (65535 - folded x)) by (pose proof (folded_range x); unfold u16_ok; lia).
  eexists _, (65535 - folded x). split; [done|]. split; [by destruct src, dst|]. split; [by destruct src, dst|].
  split; [by destruct src, dst|]. split; [|by apply parse_built].
  assert (drop IPV4_HEADER_LEN (ip_header (65535 - folded (word_sum (ip_header 56 1 dst src))) 1 dst src ++ frag_needed (65535 - folded x) mtu q)
          = frag_needed (65535 - folded x) mtu q) as -> by (by destruct src, dst).
  rewrite checksum_ok; [|by apply frag_needed_ok|by vm_compute]. rewrite word_sum_frag_needed by done. fold x.
  by rewrite folded_complement.
Qed.

(** the IP header of that message is corrupt. The header's checksum is written over
    its total length and its own field stays zero, so that the checksum of the
    header never verifies: a host that checks it drops the message. *)
Theorem icmp_header_never_verifies (src dst : Ipv4Addr) (src_port dst_port mtu : Z)
    (Hs : ipv4_ok src) (Hd : ipv4_ok dst) :
  exists packet, build_icmp_frag_needed_v4 src dst src_port dst_port mtu = Ok packet
    /\ slice packet 10 12 = @Ok unit bytes [0; 0]
    /\ internet_checksum (take IPV4_HEADER_LEN packet) = Ok 56.
Proof.
  rewrite build_layout by done. cbv zeta. set (m := frag_needed _ _ _). set (x := word_sum (ip_header 56 1 dst src)).
  assert (Hx : 56 < x).
  { unfold x. rewrite word_sum_ip_header by done. pose proof (word_sum_bound (ip_header 0 1 dst src)) as Hw.
    destruct Hw as [_ _]; [by apply ip_header_ok; [unfold byte_ok; lia|..]|]. unfold ip_header. rewrite (word_sum_app [0x45; 0]), word_sum_be16 by done.
    change (word_sum [0x45; 0]) with 17664. pose proof (word_sum_bound ([0; 0; 0; 0; 64; 1; 0; 0] ++ ipv4_octets dst ++ ipv4_octets src)) as [? _]; [|lia].
    unfold ipv4_ok in *. solve_app_ok. }
  assert (Hc : u16_ok (65535 - folded x)) by (pose proof (folded_range x); unfold u16_ok; lia).
  eexists. split; [done|]. split; [by destruct src, dst|].
  assert (take IPV4_HEADER_LEN (ip_header (65535 - folded x) 1 dst src ++ m) = ip_header (65535 - folded x) 1 dst src) as ->
    by (by destruct src, dst).
  rewrite checksum_ok; [|by apply ip_header_ok; [unfold byte_ok; lia|..]|by vm_compute]. rewrite word_sum_ip_header by done.
  assert (Hw : word_sum (ip_header 0 1 dst src) = x - 56) by (unfold x; rewrite (word_sum_ip_header 56) by done; lia).
  rewrite Hw, (folded_mod _ 65479); [done|pose proof (folded_range x); lia|lia|].
  replace (65535 - folded x + (x - 56) - 65479) with (x - folded x) by lia. apply folded_cong. lia.
Qed.

(** the MTU of the tunnel. The MTU chosen at start is never above the configured one,
    and with the probe it leaves room for the overhead whenever that keeps it at
    least 576; afterwards, whatever MTUs are reported, the current one is the least of
    the start value and the reports raised to 576, so that it only decreases. *)
Theorem tunnel_mtu_exact (net : ProbeNet) (configured : Z) (mode : PmtudMode) (overhead : Z) (host : string)
    (reports : list Z) (Hc : MIN_TUN_MTU <= configured < 65536) (Ho : 0 <= overhead < 65536) :
  let mtu := resolve_effective_mtu net configured mode overhead host in
  MIN_TUN_MTU <= mtu <= configured
  /\ (forall path, mode = Probe -> probe_path_mtu net host = Ok path -> MIN_TUN_MTU <= path - overhead -> mtu + overhead <= path)
  /\ current (foldl (fun s m => (try_lower s m).2) (mtu_new mtu) reports)
     = foldr (fun m acc => Z.min (Z.max m MIN_TUN_MTU) acc) mtu (rev reports).
Proof.
  cbv zeta. unfold MIN_TUN_MTU in *. split; [|split].
  - unfold resolve_effective_mtu, RECOMMENDED_TUN_MTU, MIN_TUN_MTU. destruct mode; [lia..|]. case_match; lia.
  - intros path -> Hp Hle. unfold resolve_effective_mtu, MIN_TUN_MTU. rewrite Hp. lia.
  - generalize (resolve_effective_mtu net configured mode overhead host). intros mtu.
    induction reports as [|m reports IH] using rev_ind; [done|]. rewrite foldl_app, rev_app_distr. cbn [foldl rev app foldr].
    by rewrite try_lower_current, IH.
Qed.

(** an MTU of more than 65535 bytes is cut to 16 bits. A proxy reached over the
    loopback interface, whose MTU is 65536, gets the least MTU instead of the
    configured one. *)
Theorem large_path_mtu_truncated (net : ProbeNet) (host : string) (dst : SocketAddr) (addrs : list SocketAddr)
    (configured overhead : Z) (Hl : pn_lookup net host = inr (dst :: addrs)) (H4 : sock_is_ipv4 dst = true)
    (Hk : pn_bind net = None /\ pn_set_discover net = None /\ pn_connect net dst = None)
    (Hm : pn_get_mtu net dst = inr 65536) (Hc : MIN_TUN_MTU <= configured) (Ho : 0 <= overhead) :
  resolve_effective_mtu net configured Probe overhead host = MIN_TUN_MTU.
Proof.
  destruct Hk as (H1 & H2 & H3). unfold resolve_effective_mtu, probe_path_mtu. rewrite Hl. cbn [List.find]. rewrite H4.
  unfold probe_path_mtu_linux. rewrite H1, H2, H3, Hm. unfold MIN_TUN_MTU in *. change (as_u16 65536) with 0. cbn [Z.leb Z.compare]. lia.
Qed.

(** ** Witnesses *)

Definition demo_app : Ipv4Addr := Ipv4 10 0 0 2.
Definition demo_web : Ipv4Addr := Ipv4 93 184 216 34.

Lemma icmp_frag_needed_exact_witness :
  exists packet c, build_icmp_frag_needed_v4 demo_app demo_web 12345 443 1400 = Ok packet
    /\ length packet = 56%nat
    /\ slice packet 12 20 = @Ok unit bytes (ipv4_octets demo_web ++ ipv4_octets demo_app)
    /\ drop IPV4_HEADER_LEN packet = frag_needed c 1400 (quoted_datagram demo_app demo_web 12345 443)
    /\ internet_checksum (drop IPV4_HEADER_LEN packet) = Ok 0
    /\ parse_icmp_frag_needed_v4 packet = Ok (Some 1400).
Proof. apply (icmp_frag_needed_exact demo_app demo_web 12345 443 1400); [solve_bytes_ok..|unfold u16_ok; lia]. Defined.

Lemma icmp_header_never_verifies_witness :
  exists packet, build_icmp_frag_needed_v4 demo_app demo_web 12345 443 1400 = Ok packet
    /\ slice packet 10 12 = @Ok unit bytes [0; 0]
    /\ internet_checksum (take IPV4_HEADER_LEN packet) = Ok 56.
Proof. apply (icmp_header_never_verifies demo_app demo_web 12345 443 1400); solve_bytes_ok. Defined.

Definition demo_probe (mtu : Z) : ProbeNet :=
  {| pn_lookup := fun _ => inr [SockV4 demo_web 443]; pn_bind := None; pn_set_discover := None;
     pn_connect := fun _ => None; pn_get_mtu := fun _ => inr mtu |}.

Lemma tunnel_mtu_exact_witness :
  resolve_effective_mtu (demo_probe 1492) 1500 Probe 100 "proxy:443" = 1392
  /\ current (foldl (fun s m => (try_lower s m).2) (mtu_new 1392) [1300; 1350; 200]) = 576.
Proof.
  pose proof (tunnel_mtu_exact (demo_probe 1492) 1500 Probe 100 "proxy:443" [1300; 1350; 200]
                ltac:(unfold MIN_TUN_MTU; lia) ltac:(lia)) as (_ & _ & H).
  split; [reflexivity|]. exact H.
Defined.

Lemma large_path_mtu_truncated_witness : resolve_effective_mtu (demo_probe 65536) 1400 Probe 100 "localhost:443" = 576.
Proof.
  by apply (large_path_mtu_truncated (demo_probe 65536) "localhost:443" (SockV4 demo_web 443) []); [..|unfold MIN_TUN_MTU; lia|lia].
Defined.
