(* ===== verification/ClientDns.v ===== *)
(** * DNS of the client's tunnel
    Models crates/skadi-client/src/dns.rs (which connections and datagrams are
    intercepted), doh.rs and dot.rs (the two encrypted upstreams) and tls_peek.rs (the
    first bytes of a TLS connection). A connection's reads are an explicit list: the
    bytes of each read, none at the end of the stream; when the list is used up the
    read waits. Of an error of std's parsers only the context is kept. *)

From Stdlib Require Import Ascii String.
From stdpp Require Import base list list_numbers numbers strings pretty gmap.
From S2P Require Import Prelude Core Io NetText Connect Hello External XhttpClient.

(** ** TLS *)

(** What rustls says while the connector is built: for each certificate of the
    system whether it can be added, and whether the protocol versions are supported. *)
Record TlsSetup := { ts_roots : list (option string); ts_versions : option string }.

Fixpoint add_roots (certs : list (option string)) : res anyhow unit :=
  match certs with
  | [] => Ok tt
  | None :: certs => add_roots certs
  | Some e :: _ => Err (Anyhow ["invalid native TLS certificate"; e]%string)
  end.

Definition system_tls_connector (setup : TlsSetup) : res anyhow unit :=
  _ ← add_roots (ts_roots setup);
  match ts_versions setup with
  | Some e => Err (Anyhow ["unsupported TLS protocol versions"; e]%string)
  | None => Ok tt
  end.

(** The tunnel to an upstream and the TLS session over it, with what the TLS stream
    then is. *)
Record Upstream (C : Type) := {
  up_open_tcp : Endpoint -> res anyhow Z;
  up_server_name : string -> option ServerName;
  up_tls : ServerName -> Z -> io_error + C
}.
Arguments up_open_tcp {C} _ _.
Arguments up_server_name {C} _ _.
Arguments up_tls {C} _ _ _.

Definition starts_with (p s : string) : bool := bool_decide (is_Some (strip_prefix p s)).

(** ** doh.rs *)

Record DohConfig := { doh_host : string; doh_port : Z; doh_path : string; doh_server_name : string }.

Definition parse_port (value what url : string) : res anyhow Z :=
  match parse_uint 65536 value with
  | Some p => Ok p
  | None => Err (bail ("invalid " +:+ what +:+ " port in " +:+ url))
  end.

Definition parse_doh_url (url : string) : res anyhow DohConfig :=
  match strip_prefix "https://" url with
  | None => Err (bail ("DoH server must be an https URL, got " +:+ url))
  | Some rest =>
    if bool_decide (rest = EmptyString) then Err (bail "empty DoH URL") else
    let '(authority, path) :=
      match split_once "/"%char rest with
      | Some (auth, path) => if bool_decide (path = EmptyString) then (rest, "/dns-query"%string) else (auth, "/" +:+ path)
      | None => (rest, "/dns-query"%string)
      end in
    '(host, port) ←
      match rsplit_once ":"%char authority with
      | Some (host, port_str) =>
        if bool_decide (host = EmptyString) then Err (bail ("invalid DoH URL host in " +:+ url)) else
        port ← parse_port port_str "DoH URL" url; Ok (host, port)
      | None => Ok (authority, 443)
      end;
    Ok {| doh_host := host; doh_port := port; doh_path := path; doh_server_name := host |}
  end.

Definition doh_from_server_url (setup : TlsSetup) (url : string) : res anyhow DohConfig :=
  parsed ← parse_doh_url url;
  _ ← system_tls_connector setup;
  Ok parsed.

Definition doh_headers (host path : string) (len : nat) : string :=
  "POST " +:+ path +:+ " HTTP/1.1" +:+ crlf
  +:+ "Host: " +:+ host +:+ crlf
  +:+ "Content-Type: application/dns-message" +:+ crlf
  +:+ "Accept: application/dns-message" +:+ crlf
  +:+ "Content-Length: " +:+ fmt_dec len +:+ crlf
  +:+ "Connection: close" +:+ crlf +:+ crlf.

Definition build_doh_post (host path : string) (query : bytes) : bytes :=
  bytes_of_string (doh_headers host path (length query)) ++ query.

(** [trim_ascii] removes space, tab, line feed, form feed and carriage return. *)
Definition ascii_blank (b : Z) : bool := (b =? 32) || (b =? 9) || (b =? 10) || (b =? 12) || (b =? 13).

Fixpoint trim_ascii_start (l : bytes) : bytes :=
  match l with
  | [] => []
  | b :: t => if ascii_blank b then trim_ascii_start t else l
  end.

Definition trim_ascii (l : bytes) : bytes := rev (trim_ascii_start (rev (trim_ascii_start l))).

(** [l.split(|&b| b == c)]. *)
Fixpoint split_bytes (c : Z) (l : bytes) : list bytes :=
  match l with
  | [] => [[]]
  | b :: l =>
    match split_bytes c l with
    | w :: ws => if b =? c then [] :: w :: ws else (b :: w) :: ws
    | [] => []
    end
  end.

Fixpoint bytes_strip_prefix (p l : bytes) : option bytes :=
  match p, l with
  | [], _ => Some l
  | a :: p, b :: l => if a =? b then bytes_strip_prefix p l else None
  | _ :: _, [] => None
  end.

(** [line.strip_suffix(b"\r").unwrap_or(line)]. *)
Definition strip_cr (line : bytes) : bytes :=
  match rev line with
  | 13 :: r => rev r
  | _ => line
  end.

Definition content_length_value (line : bytes) : option bytes :=
  match bytes_strip_prefix (bytes_of_string "Content-Length:") line with
  | Some v => Some v
  | None => bytes_strip_prefix (bytes_of_string "content-length:") line
  end.

Fixpoint content_length_of (lines : list bytes) : res anyhow Z :=
  match lines with
  | [] => Err (bail "DoH response missing Content-Length")
  | line :: lines =>
    match content_length_value (strip_cr line) with
    | Some value =>
      text ← from_utf8 (List.filter (fun b => negb (b =? 32)) (trim_ascii value)) (bail "invalid Content-Length encoding");
      match parse_uint (2 ^ 64) text with
      | Some len => Ok len
      | None => Err (bail "invalid Content-Length value")
      end
    | None => content_length_of lines
    end
  end.

Definition parse_content_length (headers : bytes) : res anyhow Z := content_length_of (split_bytes 10 headers).

(** The first loop: read until the end of the headers is in the buffer. *)
Fixpoint doh_read_headers (buf : bytes) (reads : list (io_error + bytes))
    : option (res anyhow bytes * list (io_error + bytes)) :=
  match find_seq [13; 10; 13; 10] buf with
  | Some _ => Some (Ok buf, reads)
  | None =>
    match reads with
    | [] => None
    | inl e :: reads => Some (Err (add_context "DoH response EOF" (anyhow_of_io e)), reads)
    | inr [] :: reads => Some (Err (bail "incomplete DoH HTTP headers"), reads)
    | inr chunk :: reads =>
      let buf := buf ++ chunk in
      if 64 * 1024 <? Z.of_nat (length buf) then Some (Err (bail "DoH HTTP headers too large"), reads)
      else doh_read_headers buf reads
    end
  end.

(** The second loop: read until [needed] bytes are in the buffer. *)
Fixpoint doh_read_body (body_start : nat) (needed : Z) (buf : bytes) (reads : list (io_error + bytes))
    : option (res anyhow bytes) :=
  if needed <=? Z.of_nat (length buf) then Some (Ok buf) else
  match reads with
  | [] => None
  | inl e :: _ => Some (Err (add_context "DoH response body EOF" (anyhow_of_io e)))
  | inr [] :: _ => Some (Err (bail "truncated DoH response body"))
  | inr chunk :: reads =>
    let buf := buf ++ chunk in
    if Z.of_nat body_start + 65536 <? Z.of_nat (length buf) then Some (Err (bail "DoH response body too large"))
    else doh_read_body body_start needed buf reads
  end.

Definition status_ok (status_line : bytes) : bool :=
  bool_decide (is_Some (bytes_strip_prefix (bytes_of_string "HTTP/1.1 200") status_line))
  || bool_decide (is_Some (bytes_strip_prefix (bytes_of_string "HTTP/1.0 200") status_line)).

(** What follows the headers: the status and the length, then the body. The sum of
    two [usize] that overflows panics (with unchecked arithmetic the wrapped end of
    the slice is below its start, which panics too). The text of a status line that is
    not UTF-8 is kept as its bytes. *)
Definition doh_take_body (header_end : nat) (buf : bytes) (reads : list (io_error + bytes)) : option (res anyhow bytes) :=
  let headers := take header_end buf in
  let status_line := hd [] (split_bytes 10 headers) in
  if negb (status_ok status_line)
  then Some (Err (bail ("DoH upstream returned non-200 status: " +:+ string_of_bytes status_line)))
  else match parse_content_length headers with
  | Ok content_length =>
    let needed := Z.of_nat header_end + content_length in
    if 2 ^ 64 <=? needed then Some Panic else
    match doh_read_body header_end needed buf reads with
    | Some r => Some (buf ← r; slice buf header_end (Z.to_nat needed))
    | None => None
    end
  | Err e => Some (Err e)
  | Panic => Some Panic
  end.

Definition read_doh_response (reads : list (io_error + bytes)) : option (res anyhow bytes) :=
  match doh_read_headers [] reads with
  | None => None
  | Some (Ok buf, reads) =>
    match find_header_end buf with
    | None => Some (Err (bail "DoH HTTP headers malformed"))
    | Some header_end => doh_take_body header_end buf reads
    end
  | Some (Err e, _) => Some (Err e)
  | Some (Panic, _) => Some Panic
  end.

Definition with_ctx {A} (c : string) (r : res anyhow A) : res anyhow A := map_err (add_context c) r.

(** [DohConfig::query], with the request it writes. *)
Definition doh_query (up : Upstream conn) (cfg : DohConfig) (query : bytes) : option (res anyhow bytes) * option bytes :=
  match
    _ ← (if bool_decide (query = []) then Err (bail "empty DNS query") else Ok tt);
    _ ← (if (4096 <? length query)%nat then Err (bail "DNS query too large for DoH") else Ok tt);
    tcp ← with_ctx "VLESS connect to DoH upstream failed" (up_open_tcp up (Domain (doh_host cfg) (doh_port cfg)));
    name ← (match up_server_name up (doh_server_name cfg) with
            | Some n => Ok n | None => Err (bail "invalid DoH TLS server name") end);
    match up_tls up name tcp with
    | inl e => Err (add_context "DoH TLS handshake failed" (anyhow_of_io e))
    | inr c => Ok c
    end
  with
  | Ok c =>
    let request := build_doh_post (doh_server_name cfg) (doh_path cfg) query in
    match cn_write c with
    | Some e => (Some (Err (add_context "DoH HTTP request write failed" (anyhow_of_io e))), None)
    | None =>
      (match read_doh_response (cn_reads c) with
       | Some r => Some (with_ctx "DoH HTTP response read failed" r)
       | None => None
       end, Some request)
    end
  | Err e => (Some (Err e), None)
  | Panic => (Some Panic, None)
  end.

(** ** dot.rs *)

Record DotConfig := { dot_host : string; dot_port : Z; dot_server_name : string }.

Definition parse_dot_upstream (value : string) : res anyhow DotConfig :=
  let value := match strip_prefix "tls://" value with Some v => v | None => value end in
  if bool_decide (value = EmptyString) then Err (bail "empty DoT upstream") else
  '(host, port) ←
    match rsplit_once ":"%char value with
    | Some (host, port_str) =>
      if bool_decide (host = EmptyString) then Err (bail ("invalid DoT upstream host in " +:+ value)) else
      port ← parse_port port_str "DoT upstream" value; Ok (host, port)
    | None => Ok (value, 853)
    end;
  Ok {| dot_host := host; dot_port := port; dot_server_name := host |}.

Definition dot_from_server_url (setup : TlsSetup) (value : string) : res anyhow DotConfig :=
  parsed ← parse_dot_upstream value;
  _ ← system_tls_connector setup;
  Ok parsed.

Definition encode_dot_frame (query : bytes) : bytes :=
  let len := Z.of_nat (length query) in
  [as_u8 (Z.shiftr len 8); as_u8 (Z.land len 0xff)] ++ query.

Definition read_dot_frame : io anyhow bytes :=
  len_buf ← with_context "DoT response length EOF" (read_exact 2);
  hi ← of_res (idx len_buf 0);
  lo ← of_res (idx len_buf 1);
  let len := Z.lor (Z.shiftl hi 8) lo in
  if len =? 0 then fail (bail "empty DoT response") else
  if 65536 <? len then fail (bail "DoT response too large") else
  with_context "DoT response body EOF" (read_exact (Z.to_nat len)).

(** [DotConfig::query]: on a failure before the session there is no stream. *)
Definition dot_query (up : Upstream stream) (cfg : DotConfig) (query : bytes) : outcome anyhow bytes * option stream :=
  match
    _ ← (if bool_decide (query = []) then Err (bail "empty DNS query") else Ok tt);
    _ ← (if 65535 <? Z.of_nat (length query) then Err (bail "DNS query too large for DoT") else Ok tt);
    tcp ← with_ctx "VLESS connect to DoT upstream failed" (up_open_tcp up (Domain (dot_host cfg) (dot_port cfg)));
    name ← (match up_server_name up (dot_server_name cfg) with
            | Some n => Ok n | None => Err (bail "invalid DoT TLS server name") end);
    match up_tls up name tcp with
    | inl e => Err (add_context "DoT TLS handshake failed" (anyhow_of_io e))
    | inr c => Ok c
    end
  with
  | Ok tls =>
    let '(o, s) := (_ ← with_context "DoT query write failed" (write_all (encode_dot_frame query));
                    io_map_err (add_context "DoT response read failed") read_dot_frame) tls in
    (o, Some s)
  | Err e => (Fail e, None)
  | Panic => (Crash, None)
  end.

(** ** dns.rs *)

(** [TunDnsConfig] of config.rs. *)
Record TunDnsConfig := {
  dn_hijack : bool;
  dn_mode : string;
  dn_server : option string;
  dn_block_system_dot : bool;
  dn_block_system_doh : bool
}.

Inductive DnsHandler :=
| UdpForward (upstream : SocketAddr)
| Doh (config : DohConfig)
| Dot (config : DotConfig).

Record DnsIntercept := {
  di_handler : option DnsHandler;
  di_block_system_dot : bool;
  di_block_system_doh : bool
}.

Definition KNOWN_DOH_V4 : list Ipv4Addr :=
  [Ipv4 1 1 1 1; Ipv4 1 0 0 1; Ipv4 8 8 8 8; Ipv4 8 8 4 4; Ipv4 9 9 9 9; Ipv4 149 112 112 112;
   Ipv4 208 67 222 222; Ipv4 208 67 220 220].

Definition KNOWN_DOH_V6 : list bytes :=
  map segment_bytes
    [[0x2606; 0x4700; 0x4700; 0; 0; 0; 0; 0x1111]; [0x2606; 0x4700; 0x4700; 0; 0; 0; 0; 0x1001];
     [0x2001; 0x4860; 0x4860; 0; 0; 0; 0; 0x8888]; [0x2001; 0x4860; 0x4860; 0; 0; 0; 0; 0x8844];
     [0x2620; 0xfe; 0xfe; 0; 0; 0; 0; 0]; [0x2620; 0xfe; 0; 0; 0; 0; 0; 0xfe]].

Definition is_known_doh_ip (ip : IpAddr) : bool :=
  match ip with
  | V4 ip => bool_decide (ip ∈ KNOWN_DOH_V4)
  | V6 ip => bool_decide (ip ∈ KNOWN_DOH_V6)
  end.

Definition KNOWN_DOH_HOSTNAMES : list string :=
  ["cloudflare-dns.com"; "dns.cloudflare.com"; "one.one.one.one"; "dns.google"; "dns.google.com";
   "dns.quad9.net"; "doh.opendns.com"; "doh.familyshield.opendns.com"; "dns.adguard.com";
   "dns.adguard-dns.com"; "common.adguard.com"; "dns.nextdns.io"; "firefox.dns.nextdns.io"]%string.

(** [s.ends_with(suffix)]. *)
Fixpoint str_ends_with (suffix s : string) : bool :=
  bool_decide (s = suffix)
  || match s with
     | EmptyString => false
     | String _ s' => str_ends_with suffix s'
     end.

Definition is_known_doh_hostname (host : string) : bool :=
  let host := lowercase (trim_end_matches "."%char host) in
  existsb (fun known => bool_decide (host = known) || str_ends_with ("." +:+ known) host) KNOWN_DOH_HOSTNAMES.

Definition invalid_dns_server (value : string) : anyhow := bail ("invalid client.tun.dns.server: " +:+ value).

Definition parse_dns_upstream (value : string) : res anyhow SocketAddr :=
  if starts_with "https://" value
  then Err (bail ("client.tun.dns.server is a DoH URL; set client.tun.dns.mode = " +:+ quoted "doh")) else
  if starts_with "tls://" value
  then Err (bail ("client.tun.dns.server is a DoT URL; set client.tun.dns.mode = " +:+ quoted "dot")) else
  if char_contains ":"%char value
  then match parse_socket_addr value with Some a => Ok a | None => Err (invalid_dns_server value) end
  else match parse_ip value with Some ip => Ok (SocketAddr_new ip 53) | None => Err (invalid_dns_server value) end.

Definition handler_from_config (setup : TlsSetup) (dns : TunDnsConfig) : res anyhow DnsHandler :=
  match dn_server dns with
  | None => Err (bail "client.tun.dns.hijack requires client.tun.dns.server")
  | Some server =>
    if String.eqb (dn_mode dns) "udp" then a ← parse_dns_upstream server; Ok (UdpForward a)
    else if String.eqb (dn_mode dns) "doh" then c ← doh_from_server_url setup server; Ok (Doh c)
    else if String.eqb (dn_mode dns) "dot" then c ← dot_from_server_url setup server; Ok (Dot c)
    else Err (bail ("client.tun.dns.mode must be " +:+ quoted "udp" +:+ ", " +:+ quoted "doh" +:+ ", or "
                    +:+ quoted "dot" +:+ ", got " +:+ dn_mode dns))
  end.

Definition intercept_from_config (setup : TlsSetup) (dns : TunDnsConfig) : res anyhow DnsIntercept :=
  handler ← (if dn_hijack dns then h ← handler_from_config setup dns; Ok (Some h) else Ok None);
  Ok {| di_handler := handler; di_block_system_dot := dn_block_system_dot dns;
        di_block_system_doh := dn_block_system_doh dns |}.

Definition is_active (d : DnsIntercept) : bool := bool_decide (is_Some (di_handler d)).

Definition should_block_tcp (d : DnsIntercept) (remote : SocketAddr) : bool :=
  if negb (is_active d) then false
  else if di_block_system_dot d && (sock_port remote =? 853) then true
  else if di_block_system_doh d && (sock_port remote =? 443) && is_known_doh_ip (sock_ip remote) then true
  else false.

Definition needs_doh_sni_inspection (d : DnsIntercept) (remote : SocketAddr) : bool :=
  is_active d && di_block_system_doh d && (sock_port remote =? 443) && negb (is_known_doh_ip (sock_ip remote)).

Definition rewrite_udp_upstream (h : DnsHandler) (remote : SocketAddr) : SocketAddr :=
  match h with
  | UdpForward upstream => if sock_port remote =? 53 then upstream else remote
  | _ => remote
  end.

(** ** tls_peek.rs *)

(** Read until the buffer has [needed] bytes. The result is the buffer with the reads
    left, or why the loop stopped before. *)
Inductive peek_stop := PeekEof | PeekError (e : io_error) | PeekWaits.

Fixpoint peek_until (needed : nat) (limit : Z) (buffer : bytes) (reads : list (io_error + bytes))
    : (bytes + peek_stop) * bytes * list (io_error + bytes) :=
  if (needed <=? length buffer)%nat || (limit <=? Z.of_nat (length buffer)) then (inl buffer, buffer, reads) else
  match reads with
  | [] => (inr PeekWaits, buffer, [])
  | inl e :: reads => (inr (PeekError e), buffer, reads)
  | inr [] :: reads => (inr PeekEof, buffer, reads)
  | inr chunk :: reads => peek_until needed limit (buffer ++ chunk) reads
  end.

(** [peek_tls_client_hello] with the reads it leaves: on an error the bytes already
    read are dropped with the buffer. A read that waits runs into the timeout. *)
Definition peek_tls_client_hello (reads : list (io_error + bytes)) : res anyhow bytes * list (io_error + bytes) :=
  let timeout := bail "TLS ClientHello peek timeout" in
  match peek_until 5 5 [] reads with
  | (inl buffer, _, reads) =>
    match
      b0 ← idx buffer 0;
      if negb (b0 =? 0x16) then Ok None else
      hi ← idx buffer 3;
      lo ← idx buffer 4;
      @Ok anyhow _ (Some (5 + Z.to_nat (from_be16 hi lo))%nat)
    with
    | Ok None => (Ok buffer, reads)
    | Ok (Some needed) =>
      match peek_until needed 16384 buffer reads with
      | (inl buffer, _, reads) => (Ok buffer, reads)
      | (inr PeekEof, buffer, reads) => (Ok buffer, reads)
      | (inr (PeekError e), _, reads) => (Err (anyhow_of_io e), reads)
      | (inr PeekWaits, _, reads) => (Err timeout, reads)
      end
    | Err e => (Err e, reads)
    | Panic => (Panic, reads)
    end
  | (inr PeekEof, _, reads) => (Err (bail "connection closed before TLS record header"), reads)
  | (inr (PeekError e), _, reads) => (Err (anyhow_of_io e), reads)
  | (inr PeekWaits, _, reads) => (Err timeout, reads)
  end.

(** [.ok().flatten().and_then(|info| info.server_name)]; a panic of the parser would
    go through. *)
Definition tls_client_hello_sni (buffer : bytes) : res unit (option string) :=
  match parse_client_hello buffer with
  | Ok (Some info) => Ok (server_name info)
  | Ok None => Ok None
  | Err _ => Ok None
  | Panic => Panic
  end.

(** ** Reading a DoH response *)

(** Reads of the 4096-byte buffer before the end of the stream. *)
Definition full_reads (reads : list (io_error + bytes)) : Prop :=
  Forall (fun r => exists b, r = inr b /\ b <> [] /\ (length b <= 4096)%nat) reads.

Lemma header_end_seq buf : find_header_end buf = (p ← find_seq [13; 10; 13; 10] buf; Some (p + 4)%nat).
Proof. done. Qed.

Lemma headers_short buf rest head body :
  buf ++ rest = head ++ body -> find_header_end head = Some (length head) ->
  find_seq [13; 10; 13; 10] buf = None -> (length buf < length head)%nat.
Proof.
  intros He Hh Hn. apply not_ge. intros Hge.
  assert (Hb : buf = head ++ drop (length head) buf).
  { rewrite <- (take_drop (length head) buf) at 1. f_equal.
    rewrite <- (take_app_le buf rest), He by lia. apply take_app_length. }
  destruct (header_end_mono head (drop (length head) buf) _ Hh) as [Hm _]. rewrite <- Hb, header_end_seq, Hn in Hm. done.
Qed.

(** A buffer that holds the end of the headers holds them all. *)
Lemma headers_prefix buf rest head body pos :
  buf ++ rest = head ++ body -> find_header_end head = Some (length head) ->
  find_seq [13; 10; 13; 10] buf = Some pos -> find_header_end buf = Some (length head) /\ take (length head) buf = head.
Proof.
  intros He Hh Hs. assert (Hb : find_header_end buf = Some (pos + 4)%nat) by (by rewrite header_end_seq, Hs).
  destruct (header_end_mono _ rest _ Hb) as [H1 Hle]. destruct (header_end_mono _ body _ Hh) as [H2 _].
  rewrite He, H2 in H1. injection H1 as Hp. split; [by rewrite Hp|].
  rewrite <- (take_app_le buf rest), He by lia. apply take_app_length.
Qed.

Lemma doh_headers_read reads : forall buf head body,
  buf ++ joined reads = head ++ body -> find_header_end head = Some (length head) -> full_reads reads ->
  Z.of_nat (length head) + 4096 <= 65536 ->
  exists buf' reads', doh_read_headers buf reads = Some (Ok buf', reads') /\ buf' ++ joined reads' = head ++ body
    /\ full_reads reads' /\ find_header_end buf' = Some (length head) /\ take (length head) buf' = head.
Proof.
  induction reads as [|r reads IH]; intros buf head body He Hh Hr Hl;
    destruct (find_seq [13; 10; 13; 10] buf) as [pos|] eqn:Hs; cbn [doh_read_headers]; rewrite Hs;
    try (eexists _, _; split; [done|]; split; [done|]; split; [done|]; by eapply headers_prefix);
    pose proof (headers_short _ _ _ _ He Hh Hs) as Hlt.
  - exfalso. cbn in He. rewrite app_nil_r in He. apply (f_equal length) in He. rewrite length_app in He. lia.
  - apply Forall_cons in Hr as [(b & -> & Hb & Hlb) Hr]. destruct b as [|x b]; [done|]. set (t := x :: b) in *.
    rewrite (proj2 (Z.ltb_ge _ _)) by (rewrite length_app; lia). apply IH; try done. by rewrite <- app_assoc.
Qed.

Lemma doh_body_read reads : forall buf start total,
  buf ++ joined reads = total -> full_reads reads -> Z.of_nat (length total) <= Z.of_nat start + 65536 ->
  doh_read_body start (Z.of_nat (length total)) buf reads = Some (Ok total).
Proof.
  induction reads as [|r reads IH]; intros buf start total He Hr Hl.
  - cbn in He. rewrite app_nil_r in He. subst buf. cbn [doh_read_body]. by rewrite Z.leb_refl.
  - apply Forall_cons in Hr as [(b & -> & Hb & _) Hr]. cbn [doh_read_body]. destruct b as [|x b]; [done|]. set (t := x :: b) in *.
    assert (He' : (buf ++ t) ++ joined reads = total) by (by rewrite <- app_assoc).
    pose proof (f_equal length He') as Hlen. rewrite !length_app in Hlen. rewrite (proj2 (Z.leb_gt _ _)) by (cbn [length t] in *; lia).
    rewrite (proj2 (Z.ltb_ge _ _)) by (rewrite length_app; lia). by apply IH.
Qed.

Lemma doh_response_split reads head body :
  joined reads = head ++ body -> full_reads reads -> find_header_end head = Some (length head) ->
  Z.of_nat (length head) + 4096 <= 65536 ->
  exists buf reads', read_doh_response reads = doh_take_body (length head) buf reads' /\ buf ++ joined reads' = head ++ body
    /\ full_reads reads' /\ take (length head) buf = head.
Proof.
  intros He Hr Hh Hl. destruct (doh_headers_read reads [] head body He Hh Hr Hl) as (buf & reads' & Hd & He' & Hr' & Hf & Ht).
  exists buf, reads'. unfold read_doh_response. by rewrite Hd, Hf.
Qed.

(** ** Reading the first bytes of a connection *)

Lemma peek_until_lossless needed limit buffer reads r b rest :
  peek_until needed limit buffer reads = (r, b, rest) ->
  (match r with inr (PeekError _) => exists t, buffer ++ t = b | _ => b ++ joined rest = buffer ++ joined reads end)
  /\ (forall buf, r = inl buf -> buf = b /\ ((needed <= length buf)%nat \/ limit <= Z.of_nat (length buf)))
  /\ (length buffer <= length b)%nat.
Proof.
  revert buffer. induction reads as [|x reads IH]; intros buffer; cbn [peek_until];
    (destruct (_ || _) eqn:Hn; [apply orb_true_iff in Hn; intros [= <- <- <-]; split; [done|]; split;
      [intros ? [= <-]; split; [done|]; destruct Hn as [Hn|Hn]; [left; by apply Nat.leb_le|right; by apply Z.leb_le]|lia]|]).
  - intros [= <- <- <-]. by split; [|split; [|lia]].
  - destruct x as [e|[|y c]].
    + intros [= <- <- <-]. split; [exists []; by rewrite app_nil_r|]. by split; [|lia].
    + intros [= <- <- <-]. by split; [|split; [|lia]].
    + intros H. apply IH in H as (H1 & H2 & H3). rewrite length_app in H3. split_and!; [|done|cbn [length] in *; lia].
      destruct r as [|[]]; [by rewrite H1, <- app_assoc..| |by rewrite H1, <- app_assoc].
      destruct H1 as [t <-]. exists ((y :: c) ++ t). by rewrite app_assoc.
Qed.

Lemma peek_lossless reads buf rest :
  peek_tls_client_hello reads = (Ok buf, rest) -> buf ++ joined rest = joined reads.
Proof.
  unfold peek_tls_client_hello. destruct (peek_until 5 5 [] reads) as [[r b] reads1] eqn:E1.
  apply peek_until_lossless in E1 as (H1 & H2 & _). destruct r as [buffer|[]]; [|done..].
  destruct (H2 _ eq_refl) as [-> _]. destruct (mbind _ _) as [[needed|]| |]; [|intros [= -> ->]; done|done..].
  destruct (peek_until needed 16384 b reads1) as [[r2 b2] reads2] eqn:E2. apply peek_until_lossless in E2 as (H3 & H4 & _).
  destruct r2 as [buffer2|[]]; [|intros [= -> ->]; by rewrite H3, H1|done..].
  destruct (H4 _ eq_refl) as [-> _]. intros [= -> ->]. by rewrite H3, H1.
Qed.

Lemma peek_no_panic reads : (peek_tls_client_hello reads).1 <> Panic.
Proof.
  unfold peek_tls_client_hello. destruct (peek_until 5 5 [] reads) as [[r b] reads1] eqn:E1.
  apply peek_until_lossless in E1 as (_ & H2 & _). destruct r as [buffer|[]]; [|done..].
  destruct (H2 _ eq_refl) as [-> Hl]. assert (5 <= length b)%nat by lia.
  destruct (@idx_lt anyhow b 0) as (? & -> & _); [lia|]. cbn [mbind res_bind]. destruct (negb _); [done|].
  destruct (@idx_lt anyhow b 3) as (? & -> & _); [lia|]. destruct (@idx_lt anyhow b 4) as (? & -> & _); [lia|]. cbn [mbind res_bind].
  destruct (peek_until _ 16384 b reads1) as [[[?|[]] ?] ?]; done.
Qed.

(** The whole record is read when it fits the limit, whatever the reads. *)
Lemma peek_until_full limit n buffer reads :
  (n <= length (buffer ++ joined reads))%nat -> Z.of_nat n <= limit -> Forall (fun r => exists b, r = inr b /\ b <> []) reads ->
  exists buf rest, peek_until n limit buffer reads = (inl buf, buf, rest) /\ (n <= length buf)%nat
    /\ Forall (fun r => exists b, r = inr b /\ b <> []) rest.
Proof.
  revert buffer. induction reads as [|x reads IH]; intros buffer Hn Hl Hr; cbn [peek_until].
  - cbn in Hn. rewrite app_nil_r in Hn. rewrite (proj2 (Nat.leb_le _ _)) by done. by eexists _, _.
  - destruct (_ || _) eqn:Hb.
    + eexists _, _. split; [done|]. split; [|done]. apply orb_true_iff in Hb as [Hb|Hb]; [by apply Nat.leb_le|apply Z.leb_le in Hb; lia].
    + apply Forall_cons in Hr as [(b & -> & Hne) Hr]. destruct b as [|y b]; [done|]. apply IH; [|done..]. by rewrite <- app_assoc.
Qed.

Lemma record_length h : length (encode_record h) = (5 + length (encode_handshake h))%nat.
Proof. unfold encode_record, vec16. rewrite !length_app. done. Qed.

(** A hello within the limit is read whole and nothing after it is lost. *)
Lemma peek_hello h reads trailing :
  hello_ok h -> Z.of_nat (length (encode_record h)) <= 16384 -> joined reads = encode_record h ++ trailing ->
  Forall (fun r => exists b, r = inr b /\ b <> []) reads ->
  exists extra rest, peek_tls_client_hello reads = (Ok (encode_record h ++ extra), rest) /\ extra ++ joined rest = trailing.
Proof.
  intros Hok Hl Hj Hr. destruct Hok as (_ & _ & _ & _ & _ & _ & Hu). pose proof (record_length h) as Hlen.
  enough (exists buf rest, peek_tls_client_hello reads = (Ok buf, rest) /\ (length (encode_record h) <= length buf)%nat) as (buf & rest & Hp & Hle).
  { pose proof (peek_lossless _ _ _ Hp) as He. rewrite Hj in He. exists (drop (length (encode_record h)) buf), rest.
    assert (Hb : take (length (encode_record h)) buf = encode_record h).
    { rewrite <- (take_app_le buf (joined rest)), He by done. apply take_app_length. }
    assert (Hs : buf = encode_record h ++ drop (length (encode_record h)) buf) by (rewrite <- Hb at 1; by rewrite take_drop).
    split; [by rewrite <- Hs|]. rewrite Hs, <- app_assoc in He. by apply app_inv_head in He. }
  unfold peek_tls_client_hello.
  destruct (peek_until_full 5 5 [] reads) as (b1 & r1 & E1 & H1 & Hr1); [cbn; rewrite Hj, length_app; lia|lia|done|].
  rewrite E1. pose proof (peek_until_lossless _ _ _ _ _ _ _ E1) as (Hj1 & _ & _). cbn in Hj1. rewrite Hj in Hj1.
  assert (Ht : take 5 b1 = [0x16; 3; 1] ++ to_be16 (Z.of_nat (length (encode_handshake h)))).
  { rewrite <- (take_app_le b1 (joined r1)), Hj1 by done. done. }
  assert (Hi : forall i, (i < 5)%nat -> b1 !! i = ([0x16; 3; 1] ++ to_be16 (Z.of_nat (length (encode_handshake h)))) !! i)
    by (intros i Hi; by rewrite <- Ht, lookup_take_lt).
  unfold idx. rewrite (Hi 0%nat), (Hi 3%nat), (Hi 4%nat) by lia. cbn [lookup list_lookup app to_be16 mbind res_bind negb Z.eqb Pos.eqb].
  rewrite from_to_be16, Nat2Z.id by done.
  destruct (peek_until_full 16384 (5 + length (encode_handshake h)) b1 r1) as (b2 & r2 & E2 & H2 & _); [|lia|done|].
  { rewrite Hj1, length_app. lia. }
  rewrite E2. exists b2, r2. by rewrite Hlen.
Qed.

Lemma sni_of_hello h extra : hello_ok h -> tls_client_hello_sni (encode_record h ++ extra) = Ok (scan None None (h_exts h)).2.
Proof. intros Hok. unfold tls_client_hello_sni. by rewrite parse_encoded. Qed.

(** ** Names *)

Lemma ends_with_spec suffix s : str_ends_with suffix s = true <-> exists p, s = p +:+ suffix.
Proof.
  induction s as [|a s IH]; cbn [str_ends_with]; rewrite orb_true_iff, bool_decide_eq_true.
  - split; [intros [<-|]; [by exists EmptyString|done]|]. intros [[|b p] H]; [by left|done].
  - rewrite IH. split.
    + intros [<-|[p ->]]; [by exists EmptyString|by exists (String a p)].
    + intros [[|b p] H]; [by left|]. injection H as <- ->. right. by exists p.
Qed.

Lemma known_hostname_spec host : is_known_doh_hostname host = true <->
  exists known, known ∈ KNOWN_DOH_HOSTNAMES
    /\ (lowercase (trim_end_matches "."%char host) = known
        \/ exists p, lowercase (trim_end_matches "."%char host) = p +:+ "." +:+ known).
Proof.
  unfold is_known_doh_hostname. rewrite existsb_exists. split; intros (k & Hk & H); exists k; split;
    try (by apply list_elem_of_In); rewrite orb_true_iff, bool_decide_eq_true, ends_with_spec in *; done.
Qed.

(** ** DoT frames *)

Lemma dot_frame_eq query : u16_ok (Z.of_nat (length query)) -> encode_dot_frame query = to_be16 (Z.of_nat (length query)) ++ query.
Proof.
  intros Hq. unfold encode_dot_frame, to_be16, as_u8. rewrite Z.shiftr_div_pow2 by lia. change (2 ^ 8) with 256.
  change 0xff with (Z.ones 8). rewrite Z.land_ones by lia. change (2 ^ 8) with 256. by rewrite Z.mod_mod by lia.
Qed.

Lemma dot_frame_read response rest eof tx q :
  response <> [] -> u16_ok (Z.of_nat (length response)) ->
  read_dot_frame (Stream (encode_dot_frame response ++ rest) eof tx q) = (Done response, Stream rest eof tx q).
Proof.
  intros Hne Hu. rewrite dot_frame_eq, <- app_assoc by done. unfold read_dot_frame, with_context, io_map_err, mbind, io_bind.
  rewrite read_exact_app by done. cbn [of_res idx to_be16 lookup list_lookup]. set (n := Z.of_nat (length response)) in *.
  assert (Hl : 0 <= n mod 256 < 2 ^ 8) by (change (2 ^ 8) with 256; apply Z.mod_pos_bound; lia).
  rewrite Z.lor_comm, lor_disjoint by (done || lia). change (2 ^ 8) with 256. rewrite (Z.add_comm (n mod 256)).
  change (n / 256 mod 256 * 256 + n mod 256) with (from_be16 (n / 256 mod 256) (n mod 256)). rewrite from_to_be16 by done.
  unfold u16_ok in Hu. rewrite (proj2 (Z.eqb_neq _ _)) by (destruct response; [done|unfold n; cbn [length]; lia]).
  rewrite (proj2 (Z.ltb_ge _ _)) by lia. by rewrite read_exact_app by (unfold n; lia).
Qed.

(** ** Splitting texts *)

Lemma split_once_free c h r : free_of c h -> split_once c (h +:+ String c r) = Some (h, r).
Proof.
  induction h as [|a h IH]; intros Hf; cbn [split_once]; rewrite ?append_cons; cbn [split_once].
  - change (EmptyString +:+ String c r) with (String c r). cbn [split_once]. by rewrite Ascii.eqb_refl.
  - apply free_cons in Hf as [Hne Hf]. rewrite (proj2 (Ascii.eqb_neq _ _)) by done. by rewrite IH.
Qed.

Lemma rsplit_none c s : free_of c s -> rsplit_once c s = None.
Proof.
  induction s as [|a s IH]; intros Hf; cbn [rsplit_once]; [done|]. apply free_cons in Hf as [Hne Hf].
  rewrite IH by done. by rewrite (proj2 (Ascii.eqb_neq _ _)).
Qed.

Lemma rsplit_once_free c h p : free_of c p -> rsplit_once c (h +:+ String c p) = Some (h, p).
Proof.
  intros Hf. induction h as [|a h IH].
  - change (EmptyString +:+ String c p) with (String c p). cbn [rsplit_once]. rewrite rsplit_none by done. by rewrite Ascii.eqb_refl.
  - rewrite append_cons. cbn [rsplit_once]. by rewrite IH.
Qed.

(** ** Properties *)

(** DNS over TLS. Over any tunnel and TLS session that are established, for a query of
    1 to 65535 bytes the upstream is sent exactly its framing and the answer is the
    first framed message the upstream sends, with nothing after it consumed. *)
Theorem dot_query_exact (up : Upstream stream) (cfg : DotConfig) (tcp : Z) (name : ServerName) (query response rest sent : bytes)
    (eof : bool)
    (Hq : query <> [] /\ u16_ok (Z.of_nat (length query))) (Hr : response <> [] /\ u16_ok (Z.of_nat (length response)))
    (Ho : up_open_tcp up (Domain (dot_host cfg) (dot_port cfg)) = Ok tcp)
    (Hn : up_server_name up (dot_server_name cfg) = Some name)
    (Ht : up_tls up name tcp = inr (Stream (encode_dot_frame response ++ rest) eof sent None)) :
  dot_query up cfg query
  = (Done response, Some (Stream rest eof (sent ++ to_be16 (Z.of_nat (length query)) ++ query) None)).
Proof.
  destruct Hq as [Hq Hqu], Hr as [Hr Hru]. unfold dot_query. rewrite bool_decide_false by done. cbn [mbind res_bind].
  pose proof Hqu as [_ Hq2]. rewrite (proj2 (Z.ltb_ge _ _)) by lia. cbn [mbind res_bind]. rewrite Ho. cbn [with_ctx map_err mbind res_bind].
  rewrite Hn. cbn [mbind res_bind]. rewrite Ht. cbv beta iota.
  unfold mbind at 1, io_bind at 1, with_context at 1, io_map_err at 1. cbn [write_all tx_quota rx rx_eof tx].
  unfold io_map_err. rewrite dot_frame_read by done. by rewrite dot_frame_eq.
Qed.

(** DNS over HTTPS. However the reads cut a response whose headers end at their first
    blank line, whose status is 200 and whose length field is the length of its body,
    the answer is exactly the body. *)
Theorem doh_response_exact (reads : list (io_error + bytes)) (head body : bytes)
    (He : joined reads = head ++ body) (Hr : full_reads reads) (Hh : find_header_end head = Some (length head))
    (Hs : status_ok (hd [] (split_bytes 10 head)) = true) (Hl : parse_content_length head = Ok (Z.of_nat (length body)))
    (Hhead : Z.of_nat (length head) + 4096 <= 65536) (Hbody : Z.of_nat (length body) <= 65536) :
  read_doh_response reads = Some (Ok body).
Proof.
  destruct (doh_response_split reads head body He Hr Hh Hhead) as (buf & reads' & -> & He' & Hr' & Ht).
  unfold doh_take_body. rewrite Ht, Hs, Hl. cbn [negb]. rewrite (proj2 (Z.leb_gt _ _)) by lia.
  assert (Z.of_nat (length head) + Z.of_nat (length body) = Z.of_nat (length (head ++ body))) as -> by (rewrite length_app; lia).
  rewrite (doh_body_read _ _ _ _ He') by (done || (rewrite length_app; lia)). cbn [mbind res_bind]. rewrite Nat2Z.id, length_app.
  f_equal. rewrite <- (app_nil_r body) at 1. apply slice_app_mid; lia.
Qed.

(** an upstream can make the reader panic. When the length field is so large that the
    end of the body does not fit a [usize], the addition, or without overflow checks
    the slice, panics. *)
Theorem doh_length_overflow_panics (reads : list (io_error + bytes)) (head body : bytes) (n : Z)
    (He : joined reads = head ++ body) (Hr : full_reads reads) (Hh : find_header_end head = Some (length head))
    (Hs : status_ok (hd [] (split_bytes 10 head)) = true) (Hl : parse_content_length head = Ok n)
    (Hhead : Z.of_nat (length head) + 4096 <= 65536) (Hn : 2 ^ 64 <= Z.of_nat (length head) + n) :
  read_doh_response reads = Some Panic.
Proof.
  destruct (doh_response_split reads head body He Hr Hh Hhead) as (buf & reads' & -> & He' & Hr' & Ht).
  unfold doh_take_body. rewrite Ht, Hs, Hl. cbn [negb]. by rewrite (proj2 (Z.leb_le _ _)).
Qed.

(** a DoH URL that ends in a slash is accepted and never works. The slash stays in
    the host name, so that the configuration is accepted, and every query opens a
    tunnel to the wrong name and fails when TLS does not take it as a server name. *)
Theorem doh_trailing_slash_unusable (setup : TlsSetup) (dns : TunDnsConfig) (h : string)
    (Hh : h <> EmptyString /\ free_of "/"%char h /\ free_of ":"%char h) (Htls : system_tls_connector setup = Ok tt)
    (Hm : dn_mode dns = "doh"%string) (Hs : dn_server dns = Some ("https://" +:+ h +:+ "/")%string) :
  exists cfg, handler_from_config setup dns = Ok (Doh cfg) /\ doh_host cfg = h +:+ "/"
    /\ forall (up : Upstream conn) query tcp,
         up_server_name up (h +:+ "/") = None -> query <> [] -> (length query <= 4096)%nat ->
         up_open_tcp up (Domain (h +:+ "/") (doh_port cfg)) = Ok tcp ->
         doh_query up cfg query = (Some (Err (bail "invalid DoH TLS server name")), None).
Proof.
  destruct Hh as (Hne & Hf & Hc).
  set (cfg := {| doh_host := h +:+ "/"; doh_port := 443; doh_path := "/dns-query"; doh_server_name := h +:+ "/" |}).
  assert (Hp : parse_doh_url ("https://" +:+ h +:+ "/") = Ok cfg).
  { unfold parse_doh_url. rewrite strip_prefix_app, bool_decide_false by (by destruct h).
    change (h +:+ "/") with (h +:+ String "/"%char EmptyString). rewrite split_once_free by done. rewrite bool_decide_true by done.
    rewrite rsplit_none by (by apply free_app). done. }
  exists cfg. split_and!; [|done|].
  - unfold handler_from_config. rewrite Hs, Hm. cbn [String.eqb Ascii.eqb Bool.eqb]. unfold doh_from_server_url. rewrite Hp. cbn [mbind res_bind].
    by rewrite Htls.
  - intros up query tcp Hn Hq Hl Ho. unfold doh_query. rewrite bool_decide_false by done. cbn [mbind res_bind].
    rewrite (proj2 (Nat.ltb_ge _ _)) by done. cbn [mbind res_bind doh_host cfg doh_port doh_server_name] in *. rewrite Ho. cbn [with_ctx map_err mbind res_bind].
    by rewrite Hn.
Qed.

(** ** Witnesses *)

Definition demo_query : bytes := [0x12; 0x34; 1; 0; 0; 1].
Definition demo_answer : bytes := [0x12; 0x34; 0x81; 0x80; 0; 1].

Definition demo_dot : DotConfig := {| dot_host := "one.one.one.one"; dot_port := 853; dot_server_name := "one.one.one.one" |}.

Definition demo_upstream {C} (c : C) : Upstream C :=
  {| up_open_tcp := fun _ => Ok 7; up_server_name := fun n => if char_contains "/"%char n then None else Some (DnsName n);
     up_tls := fun _ _ => inr c |}.

Definition demo_tls_stream : stream := Stream (encode_dot_frame demo_answer ++ [9; 9]) false [] None.

Lemma dot_query_exact_witness :
  dot_query (demo_upstream demo_tls_stream) demo_dot demo_query = (Done demo_answer, Some (Stream [9; 9] false ([0; 6] ++ demo_query) None)).
Proof.
  apply (dot_query_exact (demo_upstream demo_tls_stream) demo_dot 7 (DnsName "one.one.one.one") demo_query demo_answer [9; 9] [] false);
    [split; [done|unfold u16_ok; cbn; lia]..|done|done|done].
Defined.

Definition demo_response_head (length_text : string) : bytes :=
  bytes_of_string ("HTTP/1.1 200 OK" +:+ crlf +:+ "content-length:  " +:+ length_text +:+ crlf +:+ crlf).

Definition demo_response_reads (length_text : string) (k : nat) : list (io_error + bytes) :=
  let l := demo_response_head length_text ++ demo_answer in [inr (take k l); inr (drop k l)].

(** Prove [full_reads] of concrete reads. *)
Ltac solve_full_reads :=
  repeat apply Forall_cons_2; [..|apply Forall_nil_2]; eexists; (split; [reflexivity|]); (split; [by vm_compute|]);
  apply Nat.leb_le; by vm_compute.

Lemma doh_response_exact_witness : read_doh_response (demo_response_reads "6" 20) = Some (Ok demo_answer).
Proof.
  apply (doh_response_exact (demo_response_reads "6" 20) (demo_response_head "6") demo_answer);
    [by vm_compute|solve_full_reads|by vm_compute..].
Defined.

Lemma doh_length_overflow_panics_witness : read_doh_response (demo_response_reads "18446744073709551615" 20) = Some Panic.
Proof.
  apply (doh_length_overflow_panics (demo_response_reads "18446744073709551615" 20) (demo_response_head "18446744073709551615")
           demo_answer (2 ^ 64 - 1)); [by vm_compute|solve_full_reads|by vm_compute..].
Defined.

Definition demo_setup : TlsSetup := {| ts_roots := [None; None]; ts_versions := None |}.

Definition demo_slash_config : TunDnsConfig :=
  {| dn_hijack := true; dn_mode := "doh"; dn_server := Some "https://dns.google/"%string;
     dn_block_system_dot := true; dn_block_system_doh := true |}.

Lemma doh_trailing_slash_unusable_witness :
  exists cfg, handler_from_config demo_setup demo_slash_config = Ok (Doh cfg) /\ doh_host cfg = "dns.google/"%string
    /\ doh_query (demo_upstream {| cn_write := None; cn_reads := [] |}) cfg demo_query
       = (Some (Err (bail "invalid DoH TLS server name")), None).
Proof.
  destruct (doh_trailing_slash_unusable demo_setup demo_slash_config "dns.google") as (cfg & H1 & H2 & H3);
    [by vm_compute|done|done|done|].
  exists cfg. split_and!; [exact H1|exact H2|]. apply (H3 _ demo_query 7); [by vm_compute|done|by apply Nat.leb_le|done].
Defined.
