(* ===== verification/ClientRouting.v ===== *)
(** * Policy routing of the client's tunnel
    Models crates/skadi-client/src/tun/routing.rs: the addresses that bypass the
    tunnel, the `ip` commands that apply the rules and those that revert them. The
    answer of the `ip` program to each command, which may depend on the commands
    before it, and the system resolver are parameters. *)

From Stdlib Require Import Ascii String.
From stdpp Require Import base list list_numbers numbers strings pretty gmap sorting.
From S2P Require Import Prelude Core Io NetText External XhttpClient.

(** ** The `ip` program *)

(** [Command::output]: the program cannot be run, or ends with a status and texts. *)
Inductive ip_output := IpNotRun (e : io_error) | IpDone (success : bool) (stdout stderr : string).

Abbreviation command := (list string).
Definition ip_program : Type := list command -> command -> ip_output.

(** A computation that runs commands: the commands so far are its state. *)
Definition cmds (A : Type) : Type := list command -> res anyhow A * list command.

#[export] Instance cmds_ret : MRet cmds := fun A a h => (Ok a, h).
#[export] Instance cmds_bind : MBind cmds := fun A B f m h =>
  match m h with
  | (Ok a, h) => f a h
  | (Err e, h) => (Err e, h)
  | (Panic, h) => (Panic, h)
  end.

Definition lift {A} (r : res anyhow A) : cmds A := fun h => (r, h).

(** [args.join(" ")]. *)
Definition join_args (args : command) : string := String.concat " " args.

Section Routing.
Context (ip : ip_program).

Definition run_ip (args : command) : cmds unit := fun h =>
  let h' := h ++ [args] in
  match ip h args with
  | IpNotRun e => (Err (add_context ("failed to run `ip " +:+ join_args args +:+ "`") (anyhow_of_io e)), h')
  | IpDone true _ _ => (Ok tt, h')
  | IpDone false _ stderr =>
    if str_contains "File exists" stderr || str_contains "RTNETLINK answers: File exists" stderr then (Ok tt, h')
    else (Err (bail ("`ip " +:+ join_args args +:+ "` failed: " +:+ trim stderr)), h')
  end.

(** ** Addresses *)

Record DefaultRoute := { dr_gateway : Ipv4Addr; dr_device : string }.
Record BypassRoute := { br_destination : Ipv4Addr; br_gateway : Ipv4Addr; br_device : string }.

Definition position (w : string) (parts : list string) : option nat := fst <$> list_find (fun p => p = w) parts.

Definition parse_default_route_line (line : string) : res anyhow DefaultRoute :=
  let parts := split_whitespace line in
  match position "via" parts with
  | None => Err (bail "default route line missing `via`")
  | Some via_idx =>
    match position "dev" parts with
    | None => Err (bail "default route line missing `dev`")
    | Some dev_idx =>
      match parts !! S via_idx with
      | None => Err (bail "default route missing gateway")
      | Some g =>
        match parse_ipv4_addr g with
        | None => Err (bail "invalid default gateway")
        | Some gateway =>
          match parts !! S dev_idx with
          | None => Err (bail "default route missing device")
          | Some device => Ok {| dr_gateway := gateway; dr_device := device |}
          end
        end
      end
    end
  end.

Definition show_default : command := ["-4"; "route"; "show"; "default"]%string.

Definition discover_default_route : cmds DefaultRoute := fun h =>
  let h' := h ++ [show_default] in
  match ip h show_default with
  | IpNotRun e => (Err (add_context "failed to run `ip route show default`" (anyhow_of_io e)), h')
  | IpDone false _ stderr => (Err (bail ("`ip route show default` failed: " +:+ stderr)), h')
  | IpDone true stdout _ =>
    match List.find (fun l => negb (bool_decide (trim l = EmptyString))) (str_lines stdout) with
    | None => (Err (bail "no default IPv4 route found"), h')
    | Some line => (parse_default_route_line line, h')
    end
  end.

Definition parse_ipv4 (value field : string) : res anyhow Ipv4Addr :=
  match parse_ip value with
  | None => Err (bail ("invalid " +:+ field))
  | Some (V4 v4) => Ok v4
  | Some (V6 _) => Err (bail (field +:+ " must be IPv4"))
  end.

(** The order of [Ipv4Addr] is that of its octets. *)
Definition ipv4_le (a b : Ipv4Addr) : Prop := val_be (ipv4_octets a) <= val_be (ipv4_octets b).

#[local] Instance ipv4_le_dec a b : Decision (ipv4_le a b).
Proof. unfold ipv4_le. apply _. Defined.

(** [Vec::dedup]: of equal neighbours the first stays. *)
Fixpoint dedup (l : list Ipv4Addr) : list Ipv4Addr :=
  match l with
  | [] => []
  | a :: l =>
    match dedup l with
    | b :: l' => if bool_decide (a = b) then a :: l' else a :: b :: l'
    | [] => [a]
    end
  end.

Definition sort_dedup (l : list Ipv4Addr) : list Ipv4Addr := dedup (merge_sort ipv4_le l).

Fixpoint parse_all (values : list string) : res anyhow (list Ipv4Addr) :=
  match values with
  | [] => Ok []
  | v :: values => a ← parse_ipv4 v "client.tun.routing.bypass"; r ← parse_all values; Ok (a :: r)
  end.

Definition parse_bypass_list (values : list string) : res anyhow (list Ipv4Addr) :=
  out ← parse_all values; Ok (sort_dedup out).

Definition v4_of (a : SocketAddr) : list Ipv4Addr := match sock_ip a with V4 ip => [ip] | V6 _ => [] end.

Definition resolve_proxy_ipv4 (lookup : string -> io_error + list SocketAddr) (server : string) : res anyhow (list Ipv4Addr) :=
  let host := match rsplit_once ":"%char server with Some (h, _) => h | None => server end in
  match parse_ip host with
  | Some (V4 v4) => Ok [v4]
  | Some (V6 _) => Ok []
  | None =>
    match lookup (host +:+ ":0") with
    | inl e => Err (add_context ("failed to resolve proxy host " +:+ host) (anyhow_of_io e))
    | inr addrs => Ok (sort_dedup (concat (map v4_of addrs)))
    end
  end.

(** ** The guard *)

(** [TunRoutingConfig] of config.rs. *)
Record TunRoutingConfig := { rc_auto : bool; rc_table : Z; rc_bypass : list string }.

Record RoutingGuard := {
  rg_table : Z;
  rg_tun_address : Ipv4Addr;
  rg_bypass_routes : list BypassRoute;
  rg_applied : bool
}.

Definition host_route (a : Ipv4Addr) : string := ipv4_display a +:+ "/32".

Definition add_route (r : BypassRoute) : command :=
  ["-4"; "route"; "replace"; host_route (br_destination r); "via"; ipv4_display (br_gateway r); "dev"; br_device r]%string.
Definition del_route (r : BypassRoute) : command :=
  ["-4"; "route"; "del"; host_route (br_destination r); "via"; ipv4_display (br_gateway r); "dev"; br_device r]%string.
Definition add_default (name : string) (table : Z) : command :=
  ["-4"; "route"; "replace"; "default"; "dev"; name; "table"; pretty table]%string.
Definition flush_table (table : Z) : command := ["-4"; "route"; "flush"; "table"; pretty table]%string.
Definition add_rule (a : Ipv4Addr) (table : Z) : command :=
  ["-4"; "rule"; "add"; "from"; host_route a; "table"; pretty table]%string.
Definition del_rule (a : Ipv4Addr) (table : Z) : command :=
  ["-4"; "rule"; "del"; "from"; host_route a; "table"; pretty table]%string.

Fixpoint add_proxy_ips (bypass proxy_ips : list Ipv4Addr) : list Ipv4Addr :=
  match proxy_ips with
  | [] => bypass
  | ip :: proxy_ips => add_proxy_ips (if bool_decide (ip ∈ bypass) then bypass else bypass ++ [ip]) proxy_ips
  end.

Fixpoint apply_bypass (d : DefaultRoute) (ips : list Ipv4Addr) : cmds (list BypassRoute) :=
  match ips with
  | [] => mret []
  | dest :: ips =>
    let route := {| br_destination := dest; br_gateway := dr_gateway d; br_device := dr_device d |} in
    _ ← run_ip (add_route route);
    rest ← apply_bypass d ips;
    mret (route :: rest)
  end.

Definition guard_apply (tun_name tun_address : string) (routing : TunRoutingConfig) (proxy_ips : list Ipv4Addr)
    : cmds (option RoutingGuard) :=
  if negb (rc_auto routing) then mret None else
  tun_address ← lift (parse_ipv4 tun_address "client.tun.address");
  default_route ← discover_default_route;
  let table := rc_table routing in
  bypass ← lift (parse_bypass_list (rc_bypass routing));
  let bypass_ips := add_proxy_ips bypass proxy_ips in
  bypass_routes ← apply_bypass default_route bypass_ips;
  _ ← run_ip (add_default tun_name table);
  _ ← run_ip (add_rule tun_address table);
  mret (Some {| rg_table := table; rg_tun_address := tun_address; rg_bypass_routes := bypass_routes; rg_applied := true |}).

(** [let _ = run_ip(..)]: the result is dropped. *)
Definition run_all (cs : list command) (h : list command) : list command := foldl (fun h c => (run_ip c h).2) h cs.

(** [revert], which dropping the guard runs too. *)
Definition guard_revert (g : RoutingGuard) (h : list command) : RoutingGuard * list command :=
  if negb (rg_applied g) then (g, h) else
  let h := run_all [del_rule (rg_tun_address g) (rg_table g); flush_table (rg_table g)] h in
  let h := run_all (map del_route (rg_bypass_routes g)) h in
  ({| rg_table := rg_table g; rg_tun_address := rg_tun_address g; rg_bypass_routes := rg_bypass_routes g; rg_applied := false |}, h).
End Routing.

(** ** Lemmas *)

Lemma elem_of_dedup x l : x ∈ dedup l <-> x ∈ l.
Proof.
  induction l as [|a l IH]; cbn [dedup]; [done|]. rewrite elem_of_cons, <- IH.
  destruct (dedup l) as [|b l']; [set_solver|]. case_bool_decide; subst; set_solver.
Qed.

Lemma elem_of_sort_dedup x l : x ∈ sort_dedup l <-> x ∈ l.
Proof. unfold sort_dedup. by rewrite elem_of_dedup, (merge_sort_Permutation ipv4_le l). Qed.

Lemma elem_of_add_proxy x proxy : forall bypass, x ∈ add_proxy_ips bypass proxy <-> x ∈ bypass \/ x ∈ proxy.
Proof.
  induction proxy as [|a proxy IH]; intros bypass; cbn [add_proxy_ips]; [set_solver|]. rewrite IH, elem_of_cons.
  case_bool_decide; [set_solver|rewrite elem_of_app; set_solver].
Qed.

Section Lemmas.
Context (ip : ip_program).

Lemma run_ip_history c h : (run_ip ip c h).2 = h ++ [c].
Proof. unfold run_ip. destruct (ip h c) as [|[] ? ?]; [done..|]. by case_match. Qed.

Lemma run_ip_ok c h r h' : run_ip ip c h = (r, h') -> h' = h ++ [c].
Proof. intros H. by rewrite <- (run_ip_history c h), H. Qed.

Lemma run_all_history cs : forall h, run_all ip cs h = h ++ cs.
Proof.
  induction cs as [|c cs IH]; intros h; unfold run_all in *; cbn [foldl]; [by rewrite app_nil_r|].
  by rewrite IH, run_ip_history, <- app_assoc.
Qed.

Definition routes_to (d : DefaultRoute) (ips : list Ipv4Addr) : list BypassRoute :=
  map (fun a => {| br_destination := a; br_gateway := dr_gateway d; br_device := dr_device d |}) ips.

Lemma apply_bypass_ok d ips : forall h routes h', apply_bypass ip d ips h = (Ok routes, h') ->
  routes = routes_to d ips /\ h' = h ++ map add_route routes.
Proof.
  induction ips as [|a ips IH]; intros h routes h' H; cbn [apply_bypass] in H.
  - injection H as <- <-. by rewrite app_nil_r.
  - unfold mbind, cmds_bind in H. destruct (run_ip ip _ h) as [[[]| |] h1] eqn:Hr; [|done..]. apply run_ip_ok in Hr.
    destruct (apply_bypass ip d ips h1) as [[rest| |] h2] eqn:Hb; [|done..]. apply IH in Hb as [-> ->].
    injection H as <- <-. split; [done|]. cbn [map routes_to]. by rewrite Hr, <- app_assoc.
Qed.

(** Only additions are run, whatever the outcome. *)
Lemma apply_bypass_adds d ips : forall h, exists rs, (apply_bypass ip d ips h).2 = h ++ map add_route rs.
Proof.
  induction ips as [|a ips IH]; intros h; cbn [apply_bypass]; [exists []; by rewrite app_nil_r|].
  unfold mbind, cmds_bind. set (r := {| br_destination := a; br_gateway := _; br_device := _ |}).
  destruct (run_ip ip (add_route r) h) as [[[]| |] h1] eqn:Hr; apply run_ip_ok in Hr as ->; [|by exists [r]..].
  destruct (IH (h ++ [add_route r])) as [rs Hrs]. exists (r :: rs).
  destruct (apply_bypass ip d ips _) as [[] h2]; cbn in *; by rewrite Hrs, <- app_assoc.
Qed.

Lemma discover_history h : (discover_default_route ip h).2 = h ++ [show_default].
Proof. unfold discover_default_route. destruct (ip h show_default) as [|[] ? ?]; [done| |done]. by destruct (List.find _ _). Qed.
(** What reverting a guard that is applied runs. *)
Lemma guard_revert_applied table tun routes h :
  guard_revert ip {| rg_table := table; rg_tun_address := tun; rg_bypass_routes := routes; rg_applied := true |} h
    = ({| rg_table := table; rg_tun_address := tun; rg_bypass_routes := routes; rg_applied := false |},
       h ++ [del_rule tun table; flush_table table] ++ map del_route routes).
Proof. unfold guard_revert. cbn [rg_applied negb rg_tun_address rg_table rg_bypass_routes]. by rewrite !run_all_history, <- app_assoc. Qed.

(** The guard of a success records what was run. *)
Lemma guard_apply_ok name address routing proxy g h h' : guard_apply ip name address routing proxy h = (Ok (Some g), h') ->
  exists d tun bypass dests, parse_ipv4 address "client.tun.address" = Ok tun /\ parse_all (rc_bypass routing) = Ok bypass
    /\ discover_default_route ip h = (Ok d, h ++ [show_default])
    /\ (forall a, a ∈ dests <-> a ∈ bypass \/ a ∈ proxy)
    /\ h' = h ++ [show_default] ++ map add_route (routes_to d dests) ++ [add_default name (rc_table routing); add_rule tun (rc_table routing)]
    /\ g = {| rg_table := rc_table routing; rg_tun_address := tun; rg_bypass_routes := routes_to d dests; rg_applied := true |}.
Proof.
  intros Ha. unfold guard_apply in Ha. destruct (rc_auto routing); cbn [negb] in Ha; [|done]. unfold mbind at 1, cmds_bind at 1, lift at 1 in Ha.
  destruct (parse_ipv4 address _) as [tun| |] eqn:Ht; [|done..]. unfold mbind at 1, cmds_bind at 1 in Ha.
  pose proof (discover_history h) as Hd. destruct (discover_default_route ip h) as [[d| |] h1]; [|done..]. cbn [snd] in Hd. subst h1.
  unfold mbind at 1, cmds_bind at 1, lift at 1 in Ha. destruct (parse_bypass_list _) as [bp| |] eqn:Hb; [|done..].
  unfold mbind at 1, cmds_bind at 1 in Ha. set (dests := add_proxy_ips bp proxy) in *.
  destruct (apply_bypass ip d dests _) as [[routes| |] h2] eqn:Hab; [|done..]. apply apply_bypass_ok in Hab as [-> ->].
  unfold mbind at 1, cmds_bind at 1 in Ha. destruct (run_ip ip (add_default _ _) _) as [[[]| |] h3] eqn:H3; [|done..]. apply run_ip_ok in H3 as ->.
  unfold mbind, cmds_bind in Ha. destruct (run_ip ip (add_rule _ _) _) as [[[]| |] h4] eqn:H4; [|done..]. apply run_ip_ok in H4 as ->.
  injection Ha as <- <-. unfold parse_bypass_list in Hb. destruct (parse_all _) as [bypass| |]; [|done..]. injection Hb as <-.
  exists d, tun, bypass, dests. split_and!; [done|done|done| | |done].
  - intros a. unfold dests. by rewrite elem_of_add_proxy, elem_of_sort_dedup.
  - by rewrite <- !app_assoc.
Qed.
End Lemmas.

(** ** Properties *)

(** routing is undone exactly. When the rules have been applied, the commands run
    are one route past the tunnel for exactly the configured addresses and the
    addresses of the proxy itself, all by the default route, then the default route
    and the rule of the tunnel's table; reverting, or dropping the guard, runs the
    deletion of each of them, and doing so again runs nothing. *)
Theorem routing_reverts_applied (ip : ip_program) (name address : string) (routing : TunRoutingConfig) (proxy : list Ipv4Addr)
    (g : RoutingGuard) (h h' : list command)
    (Ha : guard_apply ip name address routing proxy h = (Ok (Some g), h')) :
  exists d tun bypass dests, parse_ipv4 address "client.tun.address" = Ok tun /\ parse_all (rc_bypass routing) = Ok bypass
    /\ (forall a, a ∈ dests <-> a ∈ bypass \/ a ∈ proxy)
    /\ h' = h ++ [show_default] ++ map add_route (routes_to d dests) ++ [add_default name (rc_table routing); add_rule tun (rc_table routing)]
    /\ forall later, let '(g', h'') := guard_revert ip g later in
         h'' = later ++ [del_rule tun (rc_table routing); flush_table (rc_table routing)] ++ map del_route (routes_to d dests)
         /\ guard_revert ip g' h'' = (g', h'').
Proof.
  destruct (guard_apply_ok _ _ _ _ _ _ _ _ Ha) as (d & tun & bypass & dests & Ht & Hb & _ & Hd & Hh & ->).
  exists d, tun, bypass, dests. split_and!; [done..|]. intros later. by rewrite guard_revert_applied.
Qed.

(** a failure half-way is not undone. When applying the rules fails after routes
    were added, no guard exists and the commands run contain no deletion: the routes
    of the proxy and of the configured addresses stay in the system. *)
Theorem routing_failure_leaks (ip : ip_program) (name address : string) (routing : TunRoutingConfig) (proxy : list Ipv4Addr)
    (e : anyhow) (h' : list command) (Ha : guard_apply ip name address routing proxy [] = (Err e, h')) :
  exists probe routes rest, h' = probe ++ map add_route routes ++ rest
    /\ (probe = [] \/ probe = [show_default])
    /\ (rest = [] \/ rest = [add_default name (rc_table routing)]
        \/ exists tun, rest = [add_default name (rc_table routing); add_rule tun (rc_table routing)]).
Proof.
  unfold guard_apply in Ha. destruct (rc_auto routing); cbn [negb] in Ha; [|done]. unfold mbind at 1, cmds_bind at 1, lift at 1 in Ha.
  destruct (parse_ipv4 address _) as [tun| |]; [|injection Ha as <- <-; exists [], [], []; naive_solver|done].
  unfold mbind at 1, cmds_bind at 1 in Ha. pose proof (discover_history ip []) as Hd.
  destruct (discover_default_route ip []) as [[d| |] h1]; cbn [snd] in Hd; subst h1;
    [|injection Ha as <- <-; exists [show_default], [], []; naive_solver|done].
  unfold mbind at 1, cmds_bind at 1, lift at 1 in Ha.
  destruct (parse_bypass_list _) as [bp| |]; [|injection Ha as <- <-; exists [show_default], [], []; naive_solver|done].
  unfold mbind at 1, cmds_bind at 1 in Ha. set (dests := add_proxy_ips bp proxy) in *.
  destruct (apply_bypass_adds ip d dests [show_default]) as [rs Hrs]. cbn [app] in *.
  destruct (apply_bypass ip d dests [show_default]) as [[routes| |] h2]; cbn [snd] in Hrs; subst h2;
    [|injection Ha as <- <-; exists [show_default], rs, []; rewrite app_nil_r; naive_solver|done].
  unfold mbind at 1, cmds_bind at 1 in Ha. destruct (run_ip ip (add_default _ _) _) as [[[]| |] h3] eqn:H3; apply run_ip_ok in H3 as ->;
    [|injection Ha as <- <-; exists [show_default], rs; eexists; split; [reflexivity|]; naive_solver|done].
  unfold mbind, cmds_bind in Ha. destruct (run_ip ip (add_rule _ _) _) as [[[]| |] h4] eqn:H4; apply run_ip_ok in H4 as ->; [done| |done].
  injection Ha as <- <-. exists [show_default], rs. eexists. split; [cbn [app]; rewrite <- app_assoc; reflexivity|]. split; [by right|]. right; right. by eexists.
Qed.

(** ** Witnesses *)

Definition demo_ip (refused : command) : ip_program := fun _ c =>
  if bool_decide (c = show_default) then IpDone true ("default via 192.168.1.1 dev eth0 proto dhcp" +:+ nl) EmptyString
  else if bool_decide (c = refused) then IpDone false EmptyString "Operation not permitted"
  else IpDone true EmptyString EmptyString.

Definition demo_routing : TunRoutingConfig := {| rc_auto := true; rc_table := 100; rc_bypass := ["192.168.0.1"; "10.1.1.1"; "192.168.0.1"]%string |}.

Definition demo_applied : res anyhow (option RoutingGuard) * list command :=
  guard_apply (demo_ip []) "skadi0" "10.0.0.2" demo_routing [Ipv4 203 0 113 9] [].

Definition demo_guard : RoutingGuard :=
  {| rg_table := 100; rg_tun_address := Ipv4 10 0 0 2;
     rg_bypass_routes := routes_to {| dr_gateway := Ipv4 192 168 1 1; dr_device := "eth0" |}
                           [Ipv4 10 1 1 1; Ipv4 192 168 0 1; Ipv4 203 0 113 9];
     rg_applied := true |}.

Lemma routing_reverts_applied_witness :
  demo_applied.1 = Ok (Some demo_guard) /\ length demo_applied.2 = 6%nat
  /\ exists dests : list Ipv4Addr, forall a, a ∈ dests <-> a ∈ [Ipv4 192 168 0 1; Ipv4 10 1 1 1; Ipv4 192 168 0 1] \/ a ∈ [Ipv4 203 0 113 9].
Proof.
  split; [by vm_compute|]. split; [by vm_compute|].
  destruct (routing_reverts_applied (demo_ip []) "skadi0" "10.0.0.2" demo_routing [Ipv4 203 0 113 9] demo_guard [] demo_applied.2)
    as (d & tun & bypass & dests & _ & Hb & Hd & _); [by vm_compute|].
  exists dests. intros a. rewrite Hd. by injection Hb as <-.
Defined.

Lemma routing_failure_leaks_witness :
  (guard_apply (demo_ip (add_default "skadi0" 100)) "skadi0" "10.0.0.2" demo_routing [] []).2
    = [show_default] ++ map add_route (routes_to {| dr_gateway := Ipv4 192 168 1 1; dr_device := "eth0" |} [Ipv4 10 1 1 1; Ipv4 192 168 0 1])
      ++ [add_default "skadi0" 100]
  /\ exists probe routes rest,
       (guard_apply (demo_ip (add_default "skadi0" 100)) "skadi0" "10.0.0.2" demo_routing [] []).2 = probe ++ map add_route routes ++ rest.
Proof.
  split; [by vm_compute|].
  destruct (routing_failure_leaks (demo_ip (add_default "skadi0" 100)) "skadi0" "10.0.0.2" demo_routing []
              (bail ("`ip " +:+ join_args (add_default "skadi0" 100) +:+ "` failed: Operation not permitted")) _ ltac:(by vm_compute))
    as (probe & routes & rest & H & _).
  by exists probe, routes, rest.
Defined.
