(* ===== verification/ClientTun.v ===== *)
(** * The client's tunnel
    Models crates/skadi-client/src/tun/mod.rs: what happens to a TCP connection and to
    a UDP datagram that enters the tunnel. The UDP side is a state with one step per
    event: a datagram from an application, the end of a DNS query, and for each flow
    its opening, the bytes its tunnel delivers, and which branch of its [select!]
    wins. A frame reader that loses is dropped with the bytes it had taken. The TUN
    device, the userspace stack and the proxy's sockets answer through events. *)

From Stdlib Require Import Ascii String.
From stdpp Require Import base list list_numbers numbers strings pretty gmap.
From S2P Require Import Prelude Core Io NetText Hello XhttpClient Udp Pmtud ClientDns.

#[export] Instance Ipv4Addr_countable : Countable Ipv4Addr.
Proof.
  refine (inj_countable' (fun a => (o0 a, o1 a, o2 a, o3 a)) (fun '(a, b, c, d) => Ipv4 a b c d) _). by intros [].
Defined.

#[export] Instance SocketAddr_countable : Countable SocketAddr.
Proof.
  refine (inj_countable' (fun a => match a with SockV4 ip p => inl (ip, p) | SockV6 o p f s => inr (o, p, f, s) end)
            (fun x => match x with inl (ip, p) => SockV4 ip p | inr (o, p, f, s) => SockV6 o p f s end) _). by intros [].
Defined.

Definition socket_to_endpoint (addr : SocketAddr) : Endpoint :=
  match sock_ip addr with
  | V4 _ => Ip addr
  | V6 _ => Ip addr
  end.

(** ** TCP *)

Inductive tun_tcp :=
| TcpBlocked
| TcpConnectFailed (e : anyhow)
(** relayed: the bytes read ahead, what the connection still reads, the tunnel *)
| TcpRelayed (prefix : bytes) (reads : list (io_error + bytes)) (tunnel : Z)
| TcpPanic.

Definition relay_tcp (open_tcp : Endpoint -> res anyhow Z) (remote : SocketAddr) (prefix : bytes)
    (reads : list (io_error + bytes)) : tun_tcp :=
  match open_tcp (socket_to_endpoint remote) with
  | Ok tunnel => TcpRelayed prefix reads tunnel
  | Err e => TcpConnectFailed e
  | Panic => TcpPanic
  end.

Definition handle_tcp (dns : DnsIntercept) (open_tcp : Endpoint -> res anyhow Z) (remote : SocketAddr)
    (reads : list (io_error + bytes)) : tun_tcp :=
  if should_block_tcp dns remote then TcpBlocked else
  if needs_doh_sni_inspection dns remote then
    match peek_tls_client_hello reads with
    | (Ok buf, reads) =>
      match tls_client_hello_sni buf with
      | Ok (Some sni) => if is_known_doh_hostname sni then TcpBlocked else relay_tcp open_tcp remote buf reads
      | Ok None => relay_tcp open_tcp remote buf reads
      | _ => TcpPanic
      end
    | (Err e, reads) => relay_tcp open_tcp remote [] reads
    | (Panic, _) => TcpPanic
    end
  else relay_tcp open_tcp remote [] reads.

(** ** UDP *)

(** A task of [relay_udp_flow]: its channel, and its tunnel once that is open. *)
Record flow := {
  fl_local : SocketAddr;
  fl_remote : SocketAddr;
  fl_queue : list bytes;
  fl_stream : option stream;
  fl_alive : bool
}.

Record tun_udp := {
  tu_sessions : gmap (SocketAddr * SocketAddr) nat;
  tu_flows : list flow;
  (** the queries handed to DoH or DoT that have not answered *)
  tu_queries : list (DnsHandler * bytes * SocketAddr * SocketAddr);
  (** the channel of the reply task: data, application, sender *)
  tu_replies : list (bytes * SocketAddr * SocketAddr);
  (** what was written to the stack: data, source, destination *)
  tu_delivered : list (bytes * SocketAddr * SocketAddr);
  (** the packets injected into the stack *)
  tu_injected : list bytes;
  tu_mtu : MtuState
}.

Definition tun_udp_new (mtu : Z) : tun_udp :=
  {| tu_sessions := ∅; tu_flows := []; tu_queries := []; tu_replies := []; tu_delivered := []; tu_injected := [];
     tu_mtu := mtu_new mtu |}.

Definition new_flow (local remote : SocketAddr) (data : bytes) : flow :=
  {| fl_local := local; fl_remote := remote; fl_queue := [data]; fl_stream := None; fl_alive := true |}.

Definition set_flows (t : tun_udp) (sessions : gmap (SocketAddr * SocketAddr) nat) (flows : list flow) : tun_udp :=
  {| tu_sessions := sessions; tu_flows := flows; tu_queries := tu_queries t; tu_replies := tu_replies t;
     tu_delivered := tu_delivered t; tu_injected := tu_injected t; tu_mtu := tu_mtu t |}.

Definition add_query (t : tun_udp) (q : DnsHandler * bytes * SocketAddr * SocketAddr) : tun_udp :=
  {| tu_sessions := tu_sessions t; tu_flows := tu_flows t; tu_queries := tu_queries t ++ [q]; tu_replies := tu_replies t;
     tu_delivered := tu_delivered t; tu_injected := tu_injected t; tu_mtu := tu_mtu t |}.

Definition end_query (t : tun_udp) (i : nat) (replies : list (bytes * SocketAddr * SocketAddr)) : tun_udp :=
  {| tu_sessions := tu_sessions t; tu_flows := tu_flows t; tu_queries := take i (tu_queries t) ++ drop (S i) (tu_queries t);
     tu_replies := tu_replies t ++ replies; tu_delivered := tu_delivered t; tu_injected := tu_injected t; tu_mtu := tu_mtu t |}.

Definition set_replies (t : tun_udp) (replies delivered : list (bytes * SocketAddr * SocketAddr)) : tun_udp :=
  {| tu_sessions := tu_sessions t; tu_flows := tu_flows t; tu_queries := tu_queries t; tu_replies := replies;
     tu_delivered := delivered; tu_injected := tu_injected t; tu_mtu := tu_mtu t |}.

Definition inject (t : tun_udp) (packet : bytes) : tun_udp :=
  {| tu_sessions := tu_sessions t; tu_flows := tu_flows t; tu_queries := tu_queries t; tu_replies := tu_replies t;
     tu_delivered := tu_delivered t; tu_injected := tu_injected t ++ [packet]; tu_mtu := tu_mtu t |}.

Definition set_mtu (t : tun_udp) (m : MtuState) : tun_udp :=
  {| tu_sessions := tu_sessions t; tu_flows := tu_flows t; tu_queries := tu_queries t; tu_replies := tu_replies t;
     tu_delivered := tu_delivered t; tu_injected := tu_injected t; tu_mtu := m |}.

(** The body of the loop of [handle_udp_inbound]. A new flow is spawned with the
    datagram in its channel; sending to a flow that has ended fails and removes its
    session. *)
Definition handle_datagram (dns : DnsIntercept) (t : tun_udp) (data : bytes) (local remote : SocketAddr) : tun_udp :=
  match (if sock_port remote =? 53 then di_handler dns else None) with
  | Some (Doh c) => add_query t (Doh c, data, local, remote)
  | Some (Dot c) => add_query t (Dot c, data, local, remote)
  | _ =>
    let tunnel_remote := match di_handler dns with Some h => rewrite_udp_upstream h remote | None => remote end in
    let key := (local, tunnel_remote) in
    match tu_sessions t !! key with
    | None =>
      set_flows t (<[key := length (tu_flows t)]> (tu_sessions t)) (tu_flows t ++ [new_flow local tunnel_remote data])
    | Some i =>
      match tu_flows t !! i with
      | Some f =>
        if fl_alive f
        then set_flows t (tu_sessions t)
               (<[i := {| fl_local := fl_local f; fl_remote := fl_remote f; fl_queue := fl_queue f ++ [data];
                          fl_stream := fl_stream f; fl_alive := true |}]> (tu_flows t))
        else set_flows t (delete key (tu_sessions t)) (tu_flows t)
      | None => t
      end
    end
  end.

Definition set_flow (t : tun_udp) (i : nat) (f : flow) : tun_udp := set_flows t (tu_sessions t) (<[i := f]> (tu_flows t)).

Definition with_stream (f : flow) (queue : list bytes) (s : stream) : flow :=
  {| fl_local := fl_local f; fl_remote := fl_remote f; fl_queue := queue; fl_stream := Some s; fl_alive := true |}.

(** The task ends: its receiver and its tunnel are dropped. *)
Definition end_flow (f : flow) : flow :=
  {| fl_local := fl_local f; fl_remote := fl_remote f; fl_queue := []; fl_stream := None; fl_alive := false |}.

Inductive tun_event :=
(** an application's datagram *)
| UdpIn (data : bytes) (local remote : SocketAddr)
(** the [i]-th query ends *)
| QueryEnds (i : nat) (r : option bytes)
(** [open_udp] of the [i]-th flow ends *)
| FlowOpens (i : nat) (r : option stream)
(** bytes reach the [i]-th flow's tunnel *)
| FlowBytes (i : nat) (bs : bytes)
(** its [select!] takes a datagram from the channel; the dropped frame reader had
    taken [lost] bytes, and injecting into the stack works or not *)
| FlowSends (i : nat) (lost : nat) (inject_ok : bool)
(** its frame reader completes first *)
| FlowReads (i : nat)
(** the reply task writes a reply *)
| Replies
(** the stack emits a packet *)
| StackPacket (packet : bytes).

(** The branch of [inbound.recv()]: the datagram is too long for the tunnel and is
    answered by ICMP where there is one, or it is written as a frame. *)
Definition flow_sends (t : tun_udp) (i : nat) (f : flow) (s : stream) (data : bytes) (queue : list bytes) (inject_ok : bool)
    : option tun_udp :=
  let max_payload := max_udp_payload_ipv4 (mtu_get (tu_mtu t)) in
  if (max_payload <? length data)%nat then
    match sock_ip (fl_local f), sock_ip (fl_remote f) with
    | V4 src, V4 dst =>
      match build_icmp_frag_needed_v4 src dst (sock_port (fl_local f)) (sock_port (fl_remote f)) (mtu_get (tu_mtu t)) with
      | Ok icmp =>
        if inject_ok then Some (set_flow (inject t icmp) i (with_stream f queue s))
        else Some (set_flow t i (end_flow f))
      | _ => None
      end
    | _, _ => Some (set_flow t i (with_stream f queue s))
    end
  else
    match write_vless_udp_frame data s with
    | (Done _, s) => Some (set_flow t i (with_stream f queue s))
    | (Fail _, _) => Some (set_flow t i (end_flow f))
    | _ => None
    end.

(** The end of the task of a query: an answer goes back under the address asked. *)
Definition query_ends (t : tun_udp) (i : nat) (r : option bytes) : option tun_udp :=
  match tu_queries t !! i with
  | Some (_, _, local, remote) =>
    Some (end_query t i (match r with Some response => [(response, local, remote)] | None => [] end))
  | None => None
  end.

(** The end of [open_udp]. *)
Definition flow_opens (t : tun_udp) (i : nat) (f : flow) (r : option stream) : option tun_udp :=
  if fl_alive f && bool_decide (fl_stream f = None)
  then Some (set_flow t i (match r with Some s => with_stream f (fl_queue f) s | None => end_flow f end))
  else None.

(** The branch of [read_vless_udp_frame]. *)
Definition flow_reads (t : tun_udp) (i : nat) (f : flow) (s : stream) : option tun_udp :=
  match read_vless_udp_frame s with
  | (Done (Some data), s) =>
    Some (set_replies (set_flow t i (with_stream f (fl_queue f) s)) (tu_replies t ++ [(data, fl_local f, fl_remote f)]) (tu_delivered t))
  | (Done None, _) => Some (set_flow t i (end_flow f))
  | (Fail _, _) => Some (set_flow t i (end_flow f))
  | _ => None
  end.

Definition reply_step (t : tun_udp) : option tun_udp :=
  match tu_replies t with
  | (data, local, remote) :: replies => Some (set_replies t replies (tu_delivered t ++ [(data, remote, local)]))
  | [] => None
  end.

Definition stack_packet (t : tun_udp) (packet : bytes) : option tun_udp :=
  match parse_icmp_frag_needed_v4 packet with
  | Ok (Some next_mtu) => Some (set_mtu t (try_lower (tu_mtu t) next_mtu).2)
  | Ok None => Some t
  | _ => None
  end.

Definition tun_step (dns : DnsIntercept) (t : tun_udp) (ev : tun_event) : option tun_udp :=
  match ev with
  | UdpIn data local remote => Some (handle_datagram dns t data local remote)
  | QueryEnds i r => query_ends t i r
  | FlowOpens i r =>
    match tu_flows t !! i with
    | Some f => flow_opens t i f r
    | None => None
    end
  | FlowBytes i bs =>
    match tu_flows t !! i with
    | Some f =>
      match fl_stream f with
      | Some s => Some (set_flow t i (with_stream f (fl_queue f) (arrive s bs)))
      | None => None
      end
    | None => None
    end
  | FlowSends i lost inject_ok =>
    match tu_flows t !! i with
    | Some f =>
      match fl_stream f, fl_queue f with
      | Some s, data :: queue =>
        if bool_decide (lost <= length (rx s))%nat && bool_decide (partial_frame (take lost (rx s)))
        then flow_sends t i f (with_rx (drop lost (rx s)) s) data queue inject_ok
        else None
      | _, _ => None
      end
    | None => None
    end
  | FlowReads i =>
    match tu_flows t !! i with
    | Some f => match fl_stream f with Some s => flow_reads t i f s | None => None end
    | None => None
    end
  | Replies => reply_step t
  | StackPacket packet => stack_packet t packet
  end.

Fixpoint tun_run (dns : DnsIntercept) (t : tun_udp) (evs : list tun_event) : option tun_udp :=
  match evs with
  | [] => Some t
  | ev :: evs => match tun_step dns t ev with Some t => tun_run dns t evs | None => None end
  end.

(** ** Specification *)

(** Where a datagram for [remote] goes: to a query, or to a flow for an address. *)
Definition queried (dns : DnsIntercept) (remote : SocketAddr) : bool :=
  match di_handler dns with
  | Some (Doh _) | Some (Dot _) => sock_port remote =? 53
  | _ => false
  end.

Definition tunnelled (dns : DnsIntercept) (remote : SocketAddr) : SocketAddr :=
  match di_handler dns with
  | Some h => rewrite_udp_upstream h remote
  | None => remote
  end.

(** ** Lemmas *)

Lemma tunnelled_queried dns remote : queried dns (tunnelled dns remote) = queried dns remote.
Proof. unfold queried, tunnelled. by destruct (di_handler dns) as [[]|]. Qed.

Lemma handle_datagram_queried dns t data local remote : queried dns remote = true ->
  exists h, handle_datagram dns t data local remote = add_query t (h, data, local, remote).
Proof.
  unfold queried, handle_datagram. destruct (di_handler dns) as [[]|]; [done|intros ->; by eexists..|done].
Qed.

Lemma handle_datagram_flow dns t data local remote : queried dns remote = false ->
  let key := (local, tunnelled dns remote) in
  handle_datagram dns t data local remote =
    match tu_sessions t !! key with
    | None => set_flows t (<[key := length (tu_flows t)]> (tu_sessions t)) (tu_flows t ++ [new_flow local (tunnelled dns remote) data])
    | Some i =>
      match tu_flows t !! i with
      | Some f =>
        if fl_alive f
        then set_flow t i {| fl_local := fl_local f; fl_remote := fl_remote f; fl_queue := fl_queue f ++ [data];
                             fl_stream := fl_stream f; fl_alive := true |}
        else set_flows t (delete key (tu_sessions t)) (tu_flows t)
      | None => t
      end
    end.
Proof.
  unfold queried, handle_datagram, tunnelled. intros Hq. destruct (di_handler dns) as [[]|]; try rewrite Hq; [|done..|]; by destruct (sock_port remote =? 53).
Qed.

Lemma tun_run_snoc dns t evs ev : tun_run dns t (evs ++ [ev]) = (t' ← tun_run dns t evs; tun_step dns t' ev).
Proof.
  revert t. induction evs as [|e evs IH]; intros t; cbn [tun_run app].
  - unfold mbind, option_bind. by destruct (tun_step dns t ev).
  - destruct (tun_step dns t e); [apply IH|done].
Qed.

(** An invariant of the runs from [t], by the last event. *)
Lemma tun_run_inv dns t (I : list tun_event -> tun_udp -> Prop) evs t' :
  I [] t -> (forall evs t1 ev t2, tun_run dns t evs = Some t1 -> I evs t1 -> tun_step dns t1 ev = Some t2 -> I (evs ++ [ev]) t2) ->
  tun_run dns t evs = Some t' -> I evs t'.
Proof.
  intros H0 Hs. revert t'. induction evs as [|ev evs IH] using rev_ind; intros t' Hr; [by injection Hr as <-|].
  rewrite tun_run_snoc in Hr. destruct (tun_run dns t evs) as [t1|] eqn:H1; [|done]. cbn in Hr.
  by apply (Hs evs t1 ev); [|apply IH|].
Qed.

(** ** Addresses of the replies *)

Section Addresses.
Context (dns : DnsIntercept) (F Q : SocketAddr -> SocketAddr -> Prop).
Context (HF : forall local remote, queried dns remote = false -> F local (tunnelled dns remote)).

Record addresses (t : tun_udp) : Prop := {
  ad_flows : Forall (fun f => F (fl_local f) (fl_remote f)) (tu_flows t);
  ad_queries : Forall (fun q => Q q.1.2 q.2) (tu_queries t);
  ad_replies : Forall (fun r => F r.1.2 r.2 \/ Q r.1.2 r.2) (tu_replies t);
  ad_delivered : Forall (fun r => F r.2 r.1.2 \/ Q r.2 r.1.2) (tu_delivered t)
}.

Lemma addresses_set_flow t i f : addresses t -> F (fl_local f) (fl_remote f) -> addresses (set_flow t i f).
Proof. intros [H1 H2 H3 H4] Hf. split; try done. cbn. by apply Forall_insert. Qed.

Lemma addresses_flow t i f : addresses t -> tu_flows t !! i = Some f -> F (fl_local f) (fl_remote f).
Proof. intros [H _ _ _] Hi. by eapply Forall_lookup_1 in H. Qed.

Lemma addresses_datagram t data local remote : addresses t -> (queried dns remote = true -> Q local remote) ->
  addresses (handle_datagram dns t data local remote).
Proof.
  intros Ha HQ. destruct (queried dns remote) eqn:Hq.
  - destruct (handle_datagram_queried dns t data local remote Hq) as [h ->]. destruct Ha as [H1 H2 H3 H4]. split; try done. cbn.
    apply Forall_app. split; [done|]. apply Forall_singleton. by apply HQ.
  - rewrite handle_datagram_flow by done. cbv zeta. case_match.
    + destruct (tu_flows t !! _) as [f|] eqn:Hi; [|done]. destruct (fl_alive f).
      * apply addresses_set_flow; [done|]. cbn. by eapply addresses_flow.
      * by destruct Ha; split.
    + destruct Ha as [H1 H2 H3 H4]. split; try done. cbn. apply Forall_app. split; [done|]. apply Forall_singleton. by apply HF.
Qed.

Lemma addresses_sends t i f s data queue ok t' : addresses t -> tu_flows t !! i = Some f ->
  flow_sends t i f s data queue ok = Some t' -> addresses t'.
Proof.
  intros Ha Hi. pose proof (addresses_flow _ _ _ Ha Hi) as Hf. unfold flow_sends.
  assert (Hj : forall p, addresses (inject t p)) by (intros p; by destruct Ha; split).
  repeat case_match; intros H'; simplify_eq; by apply addresses_set_flow.
Qed.

Lemma addresses_step t ev t' : addresses t ->
  (forall data local remote, ev = UdpIn data local remote -> queried dns remote = true -> Q local remote) ->
  tun_step dns t ev = Some t' -> addresses t'.
Proof.
  intros Ha HQ. destruct ev as [data local remote|i r|i r|i bs|i lost ok|i| |packet]; cbn [tun_step]; unfold query_ends, flow_opens, flow_reads, reply_step, stack_packet.
  - intros [= <-]. apply addresses_datagram; [done|]. by apply (HQ data).
  - destruct (tu_queries t !! i) as [[[[h q] local] remote]|] eqn:Hi; [|done]. intros [= <-]. destruct Ha as [H1 H2 H3 H4].
    split; try done; cbn; apply Forall_app; (split; [try done|]).
    + by apply Forall_take.
    + by apply Forall_drop.
    + destruct r; [|done]. apply Forall_singleton. right. by eapply (Forall_lookup_1 _ _ _ _ H2 Hi).
  - destruct (tu_flows t !! i) as [f|] eqn:Hi; [|done]. pose proof (addresses_flow _ _ _ Ha Hi).
    destruct (_ && _); [|done]. intros [= <-]. apply addresses_set_flow; [done|]. by destruct r.
  - destruct (tu_flows t !! i) as [f|] eqn:Hi; [|done]. pose proof (addresses_flow _ _ _ Ha Hi).
    destruct (fl_stream f); [|done]. intros [= <-]. by apply addresses_set_flow.
  - destruct (tu_flows t !! i) as [f|] eqn:Hi; [|done]. destruct (fl_stream f); [|done]. destruct (fl_queue f); [done|].
    destruct (_ && _); [|done]. by apply addresses_sends.
  - destruct (tu_flows t !! i) as [f|] eqn:Hi; [|done]. pose proof (addresses_flow _ _ _ Ha Hi) as Hf.
    destruct (fl_stream f); [|done]. destruct (read_vless_udp_frame _) as [[[data|]| | |] s1]; intros [= <-]; try by apply addresses_set_flow.
    assert (Hw : addresses (set_flow t i (with_stream f (fl_queue f) s1))) by (by apply addresses_set_flow).
    destruct Hw as [H1 H2 H3 H4]. split; try done. cbn. apply Forall_app. split; [done|]. apply Forall_singleton. by left.
  - destruct (tu_replies t) as [|[[data local] remote] rs] eqn:Hr; [done|]. intros [= <-]. destruct Ha as [H1 H2 H3 H4]. rewrite Hr in H3.
    apply Forall_cons in H3 as [H3 H3']. split; try done. cbn. apply Forall_app. split; [done|]. by apply Forall_singleton.
  - destruct (parse_icmp_frag_needed_v4 packet) as [[m|]| |]; intros [= <-]; [by destruct Ha; split|done].
Qed.

Lemma addresses_run mtu evs t : (forall data local remote, UdpIn data local remote ∈ evs -> queried dns remote = true -> Q local remote) ->
  tun_run dns (tun_udp_new mtu) evs = Some t -> addresses t.
Proof.
  intros HQ Hr. apply (tun_run_inv dns (tun_udp_new mtu)
    (fun es t => (forall data local remote, UdpIn data local remote ∈ es -> queried dns remote = true -> Q local remote) -> addresses t) evs t);
    [intros _; split; apply Forall_nil_2| |done|done].
  intros es t1 ev t2 _ IH Hs HQ'. apply (addresses_step t1 ev t2); [|intros data local remote ->; apply (HQ' data); set_solver|done].
  apply IH. intros data local remote He. apply (HQ' data). set_solver.
Qed.
End Addresses.

(** ** Faithfulness of the flows *)

Definition fl_key (f : flow) : SocketAddr * SocketAddr := (fl_local f, fl_remote f).

(** The datagrams applications sent for a flow's addresses. *)
Definition asked_by (dns : DnsIntercept) (key : SocketAddr * SocketAddr) (ev : tun_event) : list bytes :=
  match ev with
  | UdpIn data local remote =>
    if negb (queried dns remote) && bool_decide ((local, tunnelled dns remote) = key) then [data] else []
  | _ => []
  end.
Definition asked (dns : DnsIntercept) (key : SocketAddr * SocketAddr) (evs : list tun_event) : list bytes :=
  concat (map (asked_by dns key) evs).

(** The bytes the tunnel of a flow delivered after its opening. *)
Definition arrives_by (i : nat) (ev : tun_event) : bytes :=
  match ev with FlowBytes j bs => if bool_decide (j = i) then bs else [] | _ => [] end.
Definition arrivals (i : nat) (evs : list tun_event) : bytes := concat (map (arrives_by i) evs).

(** Everything that entered the channel of the reply task, in order. *)
Definition reply_log (t : tun_udp) : list (bytes * SocketAddr * SocketAddr) :=
  map (fun r => (r.1.1, r.2, r.1.2)) (tu_delivered t) ++ tu_replies t.

Definition event_bytes_ok (ev : tun_event) : Prop :=
  match ev with
  | FlowBytes _ bs => bytes_ok bs
  | FlowOpens _ (Some s) => bytes_ok (rx s)
  | _ => True
  end.
(** The datagram fits an MTU. *)
Definition fits (mtu : Z) (ev : tun_event) : Prop :=
  match ev with UdpIn data _ _ => (length data <= max_udp_payload_ipv4 mtu)%nat | _ => True end.
(** No frame reader of the flow is dropped with a part of a frame in its hands. *)
Definition keeps_frames (i : nat) (ev : tun_event) : Prop :=
  match ev with FlowSends j lost _ => j = i -> lost = O | _ => True end.

Definition keys (t : tun_udp) : list (SocketAddr * SocketAddr) := map fl_key (tu_flows t).

(** The flow is the only one there ever was for its addresses. *)
Definition sole (t : tun_udp) (i : nat) (f : flow) : Prop := forall j, keys t !! j = Some (fl_key f) -> j = i.

(** All that an application got, or will get, under a pair of addresses. *)
Definition replies_to (k : SocketAddr * SocketAddr) (t : tun_udp) : list bytes :=
  map (fun r => r.1.1) (filter (fun r => (r.1.2, r.2) = k) (reply_log t)).

(** What an open tunnel has carried: [taken] is what left the channel. *)
Definition carried (evs : list tun_event) (t : tun_udp) (i : nat) (f : flow) (taken : list bytes) (s : stream) : Prop :=
  exists s0 kept read, FlowOpens i (Some s0) ∈ evs
    /\ kept `sublist_of` taken /\ (Forall (fits (mtu_get (tu_mtu t))) evs -> kept = taken)
    /\ map (fun d => (d, fl_local f, fl_remote f)) read `sublist_of` reply_log t
    /\ (sole t i f -> replies_to (fl_key f) t = read)
    /\ (Forall event_bytes_ok evs -> bytes_ok (rx s) /\ tx s = tx s0 ++ wire_frames kept
        /\ (Forall (keeps_frames i) evs -> rx s0 ++ arrivals i evs = wire_frames read ++ rx s)).

Definition flow_ok (dns : DnsIntercept) (evs : list tun_event) (t : tun_udp) (i : nat) (f : flow) : Prop :=
  fl_alive f = true ->
  tu_sessions t !! fl_key f = Some i
  /\ exists taken, (taken ++ fl_queue f) `sublist_of` asked dns (fl_key f) evs
     /\ (sole t i f -> taken ++ fl_queue f = asked dns (fl_key f) evs)
     /\ match fl_stream f with
        | None => taken = [] /\ arrivals i evs = [] /\ (sole t i f -> replies_to (fl_key f) t = [])
        | Some s => carried evs t i f taken s
        end.

Record flows_inv (dns : DnsIntercept) (evs : list tun_event) (t : tun_udp) : Prop := {
  fi_sessions : forall k i, tu_sessions t !! k = Some i -> keys t !! i = Some k;
  fi_asked : forall k, asked dns k evs <> [] -> exists j, keys t !! j = Some k;
  fi_replies : forall k, replies_to k t <> [] -> (exists j, keys t !! j = Some k) \/ queried dns k.2 = true;
  fi_fresh : forall i, (length (tu_flows t) <= i)%nat -> arrivals i evs = [];
  fi_dead : forall i f, tu_flows t !! i = Some f -> fl_alive f = false -> fl_stream f = None;
  fi_flows : forall i f, tu_flows t !! i = Some f -> flow_ok dns evs t i f
}.

Lemma asked_snoc dns k evs ev : asked dns k (evs ++ [ev]) = asked dns k evs ++ asked_by dns k ev.
Proof. unfold asked. by rewrite map_app, concat_app; cbn; rewrite app_nil_r. Qed.

Lemma arrivals_snoc i evs ev : arrivals i (evs ++ [ev]) = arrivals i evs ++ arrives_by i ev.
Proof. unfold arrivals. by rewrite map_app, concat_app; cbn; rewrite app_nil_r. Qed.

Lemma replies_to_snoc k t t' d local remote :
  reply_log t' = reply_log t ++ [(d, local, remote)] ->
  replies_to k t' = replies_to k t ++ (if decide ((local, remote) = k) then [d] else []).
Proof.
  intros H. unfold replies_to. rewrite H, filter_app, map_app. f_equal.
  destruct (decide _); [by rewrite filter_cons_True|by rewrite filter_cons_False].
Qed.

Lemma max_payload_mono a b : a <= b -> (max_udp_payload_ipv4 a <= max_udp_payload_ipv4 b)%nat.
Proof. unfold max_udp_payload_ipv4. lia. Qed.

Lemma fits_mono a b evs : a <= b -> Forall (fits a) evs -> Forall (fits b) evs.
Proof.
  intros Hab Hf. eapply Forall_impl; [exact Hf|]. intros [] ; cbn; try done. pose proof (max_payload_mono a b Hab). lia.
Qed.

(** Later states know the flow's addresses at least as well. *)
Record grows (t t' : tun_udp) (i : nat) (f : flow) : Prop := {
  gr_log : reply_log t `prefix_of` reply_log t';
  gr_mtu : mtu_get (tu_mtu t') <= mtu_get (tu_mtu t);
  gr_sole : sole t' i f -> sole t i f /\ replies_to (fl_key f) t' = replies_to (fl_key f) t
}.

Lemma carried_grows evs t t' i f taken s ev :
  grows t t' i f -> arrives_by i ev = [] ->
  carried evs t i f taken s -> carried (evs ++ [ev]) t' i f taken s.
Proof.
  intros [[l Hl] Hm Hso] Ha (s0 & kept & read & H1 & H2 & H3 & H5 & H7 & H6). exists s0, kept, read.
  split_and!; [set_solver|done| | | |].
  - intros Hf. apply Forall_app in Hf as [Hf _]. apply H3. by eapply fits_mono.
  - rewrite Hl. by apply sublist_inserts_r.
  - intros Hu. destruct (Hso Hu) as [Hu' ->]. by apply H7.
  - intros Hf. apply Forall_app in Hf as [Hf _]. destruct (H6 Hf) as (Hb & Ht & Hk). split_and!; [done..|].
    intros Hk'. apply Forall_app in Hk' as [Hk' _]. by rewrite arrivals_snoc, Ha, app_nil_r, Hk.
Qed.

(** A flow that the event does not touch. *)
Lemma flow_ok_other dns evs t t' i f ev :
  (fl_alive f = true -> tu_sessions t !! fl_key f = Some i -> tu_sessions t' !! fl_key f = Some i /\ asked_by dns (fl_key f) ev = []) ->
  grows t t' i f -> arrives_by i ev = [] ->
  flow_ok dns evs t i f -> flow_ok dns (evs ++ [ev]) t' i f.
Proof.
  intros Hs Hg Ha Hok Halive. destruct (Hok Halive) as (H1 & taken & H2 & H3 & H4). destruct (Hs Halive H1) as [Hs1 Hs2].
  split; [done|]. exists taken. rewrite asked_snoc, Hs2, app_nil_r. split_and!; [done| |].
  - intros Hu. apply H3. by apply Hg.
  - destruct (fl_stream f); [by eapply carried_grows|]. destruct H4 as (-> & H4 & H5). rewrite arrivals_snoc, H4, Ha.
    split_and!; [done|done|]. intros Hu. destruct (gr_sole _ _ _ _ Hg Hu) as [Hu' ->]. by apply H5.
Qed.

Lemma sole_prefix t t' i f : keys t `prefix_of` keys t' -> sole t' i f -> sole t i f.
Proof. intros [ks Hk] Hu j Hj. apply Hu. rewrite Hk. by apply lookup_app_l_Some. Qed.

Lemma keys_set_flow t i f f' : tu_flows t !! i = Some f -> fl_key f' = fl_key f -> keys (set_flow t i f') = keys t.
Proof.
  intros Hi Hk. unfold keys, set_flow, set_flows. cbn [tu_flows]. rewrite list_fmap_insert, Hk.
  apply list_insert_id. by rewrite list_lookup_fmap, Hi.
Qed.

(** The flow that the event touches is replaced, the others stay. *)
Lemma flows_inv_set dns evs t t1 i f f' ev :
  flows_inv dns evs t -> tu_flows t !! i = Some f -> fl_key f' = fl_key f ->
  t1 = t \/ (tu_sessions t1 = tu_sessions t /\ tu_flows t1 = tu_flows t /\ tu_mtu t1 = tu_mtu t) ->
  reply_log t `prefix_of` reply_log t1 -> (forall k, k <> fl_key f -> replies_to k t1 = replies_to k t) ->
  (forall k, asked_by dns k ev = [] \/ (k = fl_key f /\ tu_sessions t !! k = Some i)) -> (forall j, j <> i -> arrives_by j ev = []) ->
  (fl_alive f' = false -> fl_stream f' = None) ->
  (flow_ok dns evs t i f -> flow_ok dns (evs ++ [ev]) (set_flow t1 i f') i f') ->
  flows_inv dns (evs ++ [ev]) (set_flow t1 i f').
Proof.
  intros Hinv Hi Hk Ht Hl Hrep Hask Harr Hdead Hok.
  assert (Ht1 : tu_sessions t1 = tu_sessions t /\ tu_flows t1 = tu_flows t /\ tu_mtu t1 = tu_mtu t) by (destruct Ht as [->|]; done).
  destruct Ht1 as (Hts & Htf & Htm). assert (Hi1 : tu_flows t1 !! i = Some f) by (by rewrite Htf).
  assert (Hkeys : keys (set_flow t1 i f') = keys t) by (rewrite (keys_set_flow t1 i f) by done; unfold keys; by rewrite Htf).
  destruct Hinv as [I1 I2 I3 I4 I5 I6]. split.
  - intros k j. rewrite Hkeys. cbn. rewrite Hts. apply I1.
  - intros k. rewrite asked_snoc, Hkeys. destruct (Hask k) as [->|[-> _]].
    + rewrite app_nil_r. apply I2.
    + intros _. exists i. unfold keys. by rewrite list_lookup_fmap, Hi.
  - intros k. rewrite Hkeys. change (replies_to k (set_flow t1 i f')) with (replies_to k t1).
    destruct (decide (k = fl_key f)) as [->|Hne]; [|rewrite Hrep by done; apply I3].
    intros _. left. exists i. unfold keys. by rewrite list_lookup_fmap, Hi.
  - intros j. cbn. rewrite length_insert, Htf. intros Hj. rewrite arrivals_snoc, I4 by done. cbn. apply Harr.
    intros ->. apply lookup_lt_Some in Hi. lia.
  - intros j g. cbn. rewrite Htf. destruct (decide (j = i)) as [->|Hne].
    + rewrite list_lookup_insert_eq by (by eapply lookup_lt_Some). by intros [= <-].
    + rewrite list_lookup_insert_ne by done. apply I5.
  - intros j g. destruct (decide (j = i)) as [->|Hne].
    + cbn. rewrite Htf, list_lookup_insert_eq by (by eapply lookup_lt_Some). intros [= <-]. apply Hok. by apply I6.
    + cbn. rewrite Htf, list_lookup_insert_ne by done. intros Hg.
      apply (flow_ok_other dns evs t); [| |by apply Harr|by apply I6].
      2: { split; [done|cbn; rewrite Htm; done|]. intros Hu. unfold sole in Hu. rewrite Hkeys in Hu. split; [done|].
           apply Hrep. intros Heq. apply Hne. symmetry. apply Hu. unfold keys. by rewrite list_lookup_fmap, Hi, Heq. }
      intros Ha Hs. split; [cbn; by rewrite Hts|]. destruct (Hask (fl_key g)) as [|[_ Hsi]]; [done|]. congruence.
Qed.

Lemma reply_log_set_flow t i f : reply_log (set_flow t i f) = reply_log t.
Proof. done. Qed.

(** An event that touches no flow. *)
Lemma flows_inv_same dns evs t t' ev :
  flows_inv dns evs t -> tu_sessions t' = tu_sessions t -> tu_flows t' = tu_flows t -> mtu_get (tu_mtu t') <= mtu_get (tu_mtu t) ->
  reply_log t `prefix_of` reply_log t' ->
  (forall k, replies_to k t' = replies_to k t \/ queried dns k.2 = true) ->
  (forall i f, tu_flows t !! i = Some f -> queried dns (fl_remote f) = false) -> (forall k, asked_by dns k ev = []) -> (forall i, arrives_by i ev = []) ->
  flows_inv dns (evs ++ [ev]) t'.
Proof.
  intros [I1 I2 I3 I4 I5 I6] Hs Hf Hm Hl Hrep Hfl Hask Harr. assert (Hk : keys t' = keys t) by (unfold keys; by rewrite Hf).
  split; rewrite ?Hk, ?Hs, ?Hf; [done| | | |done|].
  - intros k. rewrite asked_snoc, Hask, app_nil_r. apply I2.
  - intros k. destruct (Hrep k) as [->|Hq]; [apply I3|by right].
  - intros i Hi. rewrite arrivals_snoc, Harr, app_nil_r. by apply I4.
  - intros i f Hi. apply (flow_ok_other dns evs t); [intros _ ?; by rewrite Hs| |done|by apply I6].
    split; [done|done|]. intros Hu. unfold sole in Hu. rewrite Hk in Hu. split; [done|].
    destruct (Hrep (fl_key f)) as [|Hq]; [done|]. cbn in Hq. rewrite (Hfl i f Hi) in Hq. done.
Qed.

Lemma asked_by_in dns k data local remote :
  asked_by dns k (UdpIn data local remote) = [] \/ (queried dns remote = false /\ k = (local, tunnelled dns remote)).
Proof. cbn. destruct (queried dns remote); [by left|]. case_bool_decide as Hk; [right; by rewrite <- Hk|by left]. Qed.

Lemma asked_by_self dns data local remote : queried dns remote = false ->
  asked_by dns (local, tunnelled dns remote) (UdpIn data local remote) = [data].
Proof. intros Hq. cbn. rewrite Hq. by rewrite bool_decide_true. Qed.

(** A datagram only concerns the flow of its key. *)
Section Datagram.
Context (dns : DnsIntercept) (evs : list tun_event) (t : tun_udp) (data : bytes) (local remote : SocketAddr).
Let key : SocketAddr * SocketAddr := (local, tunnelled dns remote).
Let ev : tun_event := UdpIn data local remote.
Context (Hinv : flows_inv dns evs t) (Hq : queried dns remote = false).

Lemma asked_other k : k <> key -> asked_by dns k ev = [].
Proof. intros Hne. by destruct (asked_by_in dns k data local remote) as [|[_ ?]]. Qed.

Lemma asked_self : asked dns key (evs ++ [ev]) = asked dns key evs ++ [data].
Proof. unfold key, ev. by rewrite asked_snoc, asked_by_self. Qed.

(** The flow is alive: the datagram is queued. *)
Lemma flows_inv_queued i f :
  tu_sessions t !! key = Some i -> tu_flows t !! i = Some f -> fl_key f = key -> fl_alive f = true ->
  flows_inv dns (evs ++ [ev]) (set_flow t i {| fl_local := fl_local f; fl_remote := fl_remote f; fl_queue := fl_queue f ++ [data];
                    fl_stream := fl_stream f; fl_alive := true |}).
Proof.
  intros Hs Hi Hkey Ha.
  assert (Hkeys : keys (set_flow t i {| fl_local := fl_local f; fl_remote := fl_remote f; fl_queue := fl_queue f ++ [data];
                    fl_stream := fl_stream f; fl_alive := true |}) = keys t) by (by apply (keys_set_flow t i f)).
  apply (flows_inv_set dns evs t t i f); try done; [by left| |].
  - intros k. destruct (decide (k = key)) as [->|Hne]; [right; by rewrite Hkey|left; by apply asked_other].
  - intros Hok _. destruct (Hok Ha) as (H1 & taken & H2 & H3 & H4). split; [done|]. exists taken.
    change (fl_key {| fl_local := _; fl_remote := _ |}) with (fl_key f). cbn [fl_queue fl_stream].
    unfold sole. rewrite Hkeys. change (fl_key {| fl_local := _; fl_remote := _ |}) with (fl_key f).
    assert (Has : asked dns (fl_key f) (evs ++ [ev]) = asked dns (fl_key f) evs ++ [data]) by (rewrite Hkey; apply asked_self).
    rewrite Has, app_assoc. split_and!.
    + by apply sublist_app.
    + intros Hu. by rewrite H3.
    + clear H2 H3. destruct (fl_stream f); [|by rewrite arrivals_snoc; cbn; rewrite app_nil_r].
      apply (carried_grows evs t); [split; [done|done|]|done|exact H4]. unfold sole. by rewrite Hkeys.
Qed.

(** The flow is dead: its session is removed. *)
Lemma flows_inv_removed i f :
  tu_sessions t !! key = Some i -> tu_flows t !! i = Some f -> fl_alive f = false ->
  flows_inv dns (evs ++ [ev]) (set_flows t (delete key (tu_sessions t)) (tu_flows t)).
Proof.
  intros Hs Hi Ha. destruct Hinv as [I1 I2 I3 I4 I5 I6]. split; cbn [set_flows tu_sessions tu_flows tu_mtu]; try done.
  - intros k j. rewrite lookup_delete_Some. intros [_ ?]. by apply I1.
  - intros k. rewrite asked_snoc. destruct (decide (k = key)) as [->|Hne]; [|rewrite asked_other, app_nil_r by done; apply I2].
    intros _. exists i. by apply I1.
  - intros j Hj. by rewrite arrivals_snoc, I4.
  - intros j g Hg. apply (flow_ok_other dns evs t); try done; [|by apply I6]. intros Hga Hgs.
    assert (fl_key g <> key) by (intros Heq; rewrite Heq, Hs in Hgs; injection Hgs as ->; congruence).
    split; [cbn; by rewrite lookup_delete_ne|]. by apply asked_other.
Qed.

(** There is no session: a flow is made. *)
Lemma flows_inv_opened :
  tu_sessions t !! key = None ->
  flows_inv dns (evs ++ [ev])
    (set_flows t (<[key := length (tu_flows t)]> (tu_sessions t)) (tu_flows t ++ [new_flow local (tunnelled dns remote) data])).
Proof.
  intros Hs. set (n := length (tu_flows t)). set (f := new_flow local (tunnelled dns remote) data).
  set (t' := set_flows t (<[key := n]> (tu_sessions t)) (tu_flows t ++ [f])).
  assert (Hkeys : keys t' = keys t ++ [key]) by (unfold keys; cbn; by rewrite map_app).
  assert (Hn : keys t' !! n = Some key) by (rewrite Hkeys; apply lookup_snoc_Some; right; unfold keys, n; by rewrite length_fmap).
  destruct Hinv as [I1 I2 I3 I4 I5 I6]. split.
  - intros k i. cbn [t' set_flows tu_sessions]. rewrite lookup_insert_Some. intros [[<- <-]|[Hne Hi]]; [done|].
    rewrite Hkeys. by apply lookup_app_l_Some, I1.
  - intros k. rewrite asked_snoc. destruct (decide (k = key)) as [->|Hne]; [by exists n|]. rewrite asked_other, app_nil_r by done.
    intros Hk. destruct (I2 k Hk) as [j Hj]. exists j. rewrite Hkeys. by apply lookup_app_l_Some.
  - intros k Hk. destruct (I3 k Hk) as [[j Hj]|Hk2]; [left; exists j|by right]. rewrite Hkeys. by apply lookup_app_l_Some.
  - intros i. cbn [t' set_flows tu_flows]. rewrite length_app. cbn. intros Hi. rewrite arrivals_snoc, I4 by lia. done.
  - intros i g. cbn [t' set_flows tu_flows]. rewrite lookup_snoc_Some. intros [[_ ?]|[_ <-]]; [by apply (I5 i)|done].
  - intros i g. cbn [t' set_flows tu_flows]. rewrite lookup_snoc_Some. intros [[Hi Hg]|[-> <-]].
    + apply (flow_ok_other dns evs t); try done; [| |by apply I6].
      2: { split; [done|done|]. intros Hu. split; [|done]. eapply sole_prefix; [|done]. rewrite Hkeys. by apply prefix_app_r. }
      intros Hga Hgs. assert (fl_key g <> key) by congruence. split; [cbn; by rewrite lookup_insert_ne|by apply asked_other].
    + intros _. split; [apply lookup_insert_eq|]. exists []. cbn [app fl_queue f new_flow fl_stream]. change (fl_key f) with key.
      assert (Hfirst : sole t' n f -> forall j, keys t !! j <> Some key).
      { intros Hu j Hj. assert (j = n) as -> by (apply Hu; rewrite Hkeys; by apply lookup_app_l_Some).
        apply lookup_lt_Some in Hj. unfold keys, n in Hj. rewrite length_fmap in Hj. lia. }
      rewrite asked_self. split_and!; [by apply sublist_inserts_l| |done| |].
      * intros Hu. destruct (asked dns key evs) as [|d ds] eqn:He; [done|]. destruct (I2 key) as [j Hj]; [by rewrite He|].
        by destruct (Hfirst Hu j).
      * rewrite arrivals_snoc, I4 by (unfold n; lia). done.
      * intros Hu. change (replies_to key t' = []) with (replies_to key t = []).
        destruct (replies_to key t) as [|d ds] eqn:He; [done|]. destruct (I3 key) as [[j Hj]|Hq2]; [by rewrite He|by destruct (Hfirst Hu j)|].
        cbn in Hq2. by rewrite tunnelled_queried, Hq in Hq2.
Qed.
End Datagram.

Lemma flows_inv_datagram dns evs t data local remote :
  flows_inv dns evs t -> (forall i f, tu_flows t !! i = Some f -> queried dns (fl_remote f) = false) ->
  flows_inv dns (evs ++ [UdpIn data local remote]) (handle_datagram dns t data local remote).
Proof.
  intros Hinv Hfl. destruct (queried dns remote) eqn:Hq.
  { destruct (handle_datagram_queried dns t data local remote Hq) as [h ->]. apply (flows_inv_same dns evs t); try done; [by left|].
    intros k. destruct (asked_by_in dns k data local remote) as [|[? _]]; [done|congruence]. }
  rewrite handle_datagram_flow by done. cbv zeta.
  destruct (tu_sessions t !! (local, tunnelled dns remote)) as [i|] eqn:Hs; [|by apply flows_inv_opened].
  pose proof (fi_sessions _ _ _ Hinv _ _ Hs) as Hki. unfold keys in Hki. rewrite list_lookup_fmap in Hki.
  destruct (tu_flows t !! i) as [f|] eqn:Hi; [|done]. apply (inj Some) in Hki.
  destruct (fl_alive f) eqn:Ha; [by apply flows_inv_queued|by apply (flows_inv_removed dns evs t data local remote Hinv Hq i f)].
Qed.

(** A flow with a stream is alive. *)
Lemma stream_alive dns evs t i f s :
  flows_inv dns evs t -> tu_flows t !! i = Some f -> fl_stream f = Some s -> fl_alive f = true.
Proof.
  intros Hinv Hi Hs. destruct (fl_alive f) eqn:E; [done|]. pose proof (fi_dead _ _ _ Hinv _ _ Hi E). congruence.
Qed.

Lemma write_all_done buf s u s' : write_all buf s = (Done u, s') -> tx s' = tx s ++ buf /\ rx s' = rx s.
Proof. apply write_all_ok. Qed.

Lemma write_frame_done p s u s' : write_vless_udp_frame p s = (Done u, s') -> tx s' = tx s ++ wire_frame p /\ rx s' = rx s.
Proof.
  intros H. unfold write_vless_udp_frame in H. destruct (_ <? _) eqn:E; [done|]. bool_hyps. unfold MAX_VLESS_UDP_PAYLOAD in E.
  apply bind_done in H as (u1 & s1 & H1 & H). apply bind_done in H as (u2 & s2 & H2 & H). injection H as _ <-.
  apply write_all_done in H1 as [H1 H1']. apply write_all_done in H2 as [H2 H2']. rewrite H2, H1, H2', H1', <- app_assoc.
  by rewrite as_u16_small by (unfold u16_ok; lia).
Qed.

(** The datagram of a send event was asked for and so fits when all do. *)
Lemma asked_fits dns m k evs : Forall (fits m) evs -> Forall (fun d => (length d <= max_udp_payload_ipv4 m)%nat) (asked dns k evs).
Proof.
  induction evs as [|ev evs IH]; intros Hf; [done|]. apply Forall_cons in Hf as [Hf Hfs]. unfold asked in *. cbn [map concat].
  apply Forall_app. split; [|by apply IH]. destruct ev; try done. cbn. case_match; [|done]. by apply Forall_singleton.
Qed.

Lemma flow_ok_sends dns evs t t1 i f f' s s' data queue lost ok kept1 :
  flows_inv dns evs t -> flow_ok dns evs t i f -> tu_flows t !! i = Some f -> fl_stream f = Some s -> fl_queue f = data :: queue ->
  keys t1 = keys t -> tu_sessions t1 = tu_sessions t -> reply_log t1 = reply_log t -> tu_mtu t1 = tu_mtu t ->
  f' = with_stream f queue s' ->
  (kept1 = [] \/ kept1 = [data]) ->
  ((length data <= max_udp_payload_ipv4 (mtu_get (tu_mtu t)))%nat -> kept1 = [data]) ->
  tx s' = tx s ++ wire_frames kept1 -> rx s' = drop lost (rx s) ->
  flow_ok dns (evs ++ [FlowSends i lost ok]) t1 i f'.
Proof.
  intros Hinv Hok Hi Hs Hq Hk Hse Hl Hm -> Hk1 Hfit Htx Hrx _.
  assert (Ha : fl_alive f = true) by (by eapply stream_alive).
  destruct (Hok Ha) as (H1 & taken & H2 & H3 & H4). rewrite Hs in H4. destruct H4 as (s0 & kept & read & C1 & C2 & C3 & C4 & C6 & C5).
  change (fl_key (with_stream f queue s')) with (fl_key f). cbn [with_stream fl_queue fl_stream]. rewrite Hq in H2, H3.
  assert (He : taken ++ data :: queue = (taken ++ [data]) ++ queue) by (by rewrite <- app_assoc). rewrite He in *.
  assert (Hso : sole t1 i (with_stream f queue s') -> sole t i f) by (unfold sole; by rewrite Hk).
  split; [by rewrite Hse|]. exists (taken ++ [data]). rewrite asked_snoc, app_nil_r. split_and!; [done|auto|].
  exists s0, (kept ++ kept1), read. split_and!; [set_solver| | | | |].
  - apply sublist_app; [done|]. destruct Hk1 as [-> | ->]; [apply sublist_nil_l|done].
  - rewrite Hm. intros Hf. apply Forall_app in Hf as [Hf _]. rewrite C3 by done. rewrite Hfit; [done|].
    assert (Hin : data ∈ asked dns (fl_key f) evs) by (eapply elem_of_submseteq; [|by apply sublist_submseteq]; set_solver).
    pose proof (asked_fits dns _ (fl_key f) evs Hf) as Hall. rewrite Forall_forall in Hall. by apply Hall.
  - by rewrite Hl.
  - intros Hu. change (fl_key (with_stream f queue s')) with (fl_key f). unfold replies_to. rewrite Hl. by apply C6, Hso.
  - intros Hf. apply Forall_app in Hf as [Hf _]. destruct (C5 Hf) as (B1 & B2 & B3). split_and!.
    + rewrite Hrx. auto with bytesdb.
    + by rewrite Htx, B2, wire_frames_app, app_assoc.
    + intros Hkf. apply Forall_app in Hkf as [Hkf Hlost]. apply Forall_cons in Hlost as [Hlost _]. cbn in Hlost. specialize (Hlost eq_refl). subst lost. rewrite drop_0 in Hrx.
      rewrite arrivals_snoc, app_nil_r, Hrx. by apply B3.
Qed.

Lemma flow_ok_dead dns evs t i f : fl_alive f = false -> flow_ok dns evs t i f.
Proof. intros Hd Ha. congruence. Qed.

(** A flow that ends. *)
Lemma flows_inv_end dns evs t i f ev :
  flows_inv dns evs t -> tu_flows t !! i = Some f -> (forall k, asked_by dns k ev = []) -> (forall j, arrives_by j ev = []) ->
  flows_inv dns (evs ++ [ev]) (set_flow t i (end_flow f)).
Proof.
  intros Hinv Hi Hask Harr. apply (flows_inv_set dns evs t t i f); try done; [by left|]. intros k. by left.
Qed.

Lemma flows_inv_sends dns evs t i f s lost ok data queue t' :
  flows_inv dns evs t -> tu_flows t !! i = Some f -> fl_stream f = Some s -> fl_queue f = data :: queue ->
  flow_sends t i f (with_rx (drop lost (rx s)) s) data queue ok = Some t' ->
  flows_inv dns (evs ++ [FlowSends i lost ok]) t'.
Proof.
  intros Hinv Hi Hs Hq. unfold flow_sends. set (s1 := with_rx (drop lost (rx s)) s).
  assert (Hset : forall t1 s' kept1, tu_sessions t1 = tu_sessions t -> tu_flows t1 = tu_flows t -> tu_mtu t1 = tu_mtu t -> reply_log t1 = reply_log t ->
    (kept1 = [] \/ kept1 = [data]) -> ((length data <= max_udp_payload_ipv4 (mtu_get (tu_mtu t)))%nat -> kept1 = [data]) ->
    tx s' = tx s ++ wire_frames kept1 -> rx s' = drop lost (rx s) ->
    flows_inv dns (evs ++ [FlowSends i lost ok]) (set_flow t1 i (with_stream f queue s'))).
  { intros t1 s' kept1 Hse Hf Hm Hl Hk1 Hfit Htx Hrx. apply (flows_inv_set dns evs t t1 i f); try done; [by right|by rewrite Hl|intros k _; unfold replies_to; by rewrite Hl|intros k; by left|].
    intros Hok. eapply (flow_ok_sends dns evs t _ i f); try done.
    rewrite (keys_set_flow t1 i f) by (by rewrite ?Hf). unfold keys. by rewrite Hf. }
  destruct (_ <? _)%nat eqn:Hlen; [apply Nat.ltb_lt in Hlen|apply Nat.ltb_ge in Hlen].
  - assert (Hdrop : forall t1, tu_sessions t1 = tu_sessions t -> tu_flows t1 = tu_flows t -> tu_mtu t1 = tu_mtu t -> reply_log t1 = reply_log t ->
      flows_inv dns (evs ++ [FlowSends i lost ok]) (set_flow t1 i (with_stream f queue s1))).
    { intros t1 ? ? ? ?. apply (Hset t1 s1 []); try done; [by left|intros; lia|cbn; by rewrite app_nil_r]. }
    destruct (sock_ip (fl_local f)) as [src|], (sock_ip (fl_remote f)) as [dst|]; try (intros [= <-]; by apply Hdrop).
    destruct (build_icmp_frag_needed_v4 _ _ _ _ _) as [icmp| |]; [|done..]. destruct ok; intros [= <-]; [by apply Hdrop|]. by apply (flows_inv_end dns evs t i f).
  - destruct (write_vless_udp_frame data s1) as [[u|e| |] s'] eqn:Hw; [|intros [= <-]; by apply (flows_inv_end dns evs t i f)|done..].
    intros [= <-]. apply write_frame_done in Hw as [Htx Hrx].
    apply (Hset t s' [data]); try done; [by right|]. rewrite Htx. cbn [s1 with_rx tx]. by rewrite wire_frames_cons, app_nil_r.
Qed.

Lemma flows_inv_reads dns evs t i f s data s' :
  flows_inv dns evs t -> tu_flows t !! i = Some f -> fl_stream f = Some s -> read_vless_udp_frame s = (Done (Some data), s') ->
  flows_inv dns (evs ++ [FlowReads i])
    (set_replies (set_flow t i (with_stream f (fl_queue f) s')) (tu_replies t ++ [(data, fl_local f, fl_remote f)]) (tu_delivered t)).
Proof.
  intros Hinv Hi Hs Hr. assert (Ha : fl_alive f = true) by (by eapply stream_alive).
  set (t1 := set_replies t (tu_replies t ++ [(data, fl_local f, fl_remote f)]) (tu_delivered t)).
  assert (Hl : reply_log t1 = reply_log t ++ [(data, fl_local f, fl_remote f)]) by (unfold reply_log; cbn; by rewrite app_assoc).
  change (set_replies _ _ _) with (set_flow t1 i (with_stream f (fl_queue f) s')).
  apply (flows_inv_set dns evs t t1 i f); try done; [by right|rewrite Hl; by apply prefix_app_r| |intros k; by left|].
  { intros k Hk. rewrite (replies_to_snoc k t t1 _ _ _ Hl), decide_False by (intros Heq; apply Hk; by rewrite <- Heq). by rewrite app_nil_r. }
  intros Hok _. destruct (Hok Ha) as (H1 & taken & H2 & H3 & H4). rewrite Hs in H4. destruct H4 as (s0 & kept & read & C1 & C2 & C3 & C4 & C6 & C5).
  split; [done|]. exists taken. change (fl_key (with_stream f (fl_queue f) _)) with (fl_key f). cbn [fl_queue with_stream fl_stream].
  assert (Hso : sole (set_flow t1 i (with_stream f (fl_queue f) s')) i (with_stream f (fl_queue f) s') -> sole t i f)
    by (unfold sole; by rewrite (keys_set_flow t1 i f)).
  rewrite asked_snoc, app_nil_r. split_and!; [done|auto|]. exists s0, kept, (read ++ [data]). split_and!; [set_solver|done| | | |].
  + intros Hf. apply Forall_app in Hf as [Hf _]. by apply C3.
  + rewrite reply_log_set_flow, Hl, map_app. by apply sublist_app.
  + intros Hu. change (fl_key (with_stream f (fl_queue f) s')) with (fl_key f).
    change (replies_to (fl_key f) (set_flow t1 i (with_stream f (fl_queue f) s'))) with (replies_to (fl_key f) t1).
    rewrite (replies_to_snoc (fl_key f) t t1 _ _ _ Hl), decide_True by done. by rewrite (C6 (Hso Hu)).
  + intros Hb. apply Forall_app in Hb as [Hb _]. destruct (C5 Hb) as (B1 & B2 & B3). apply read_frame_sound in Hr as (_ & Hrx & Htx & _); [|done].
    rewrite Hrx in B1. apply bytes_ok_app in B1 as [_ B1]. split_and!; [done|by rewrite Htx|].
    intros Hkf. apply Forall_app in Hkf as [Hkf _]. rewrite arrivals_snoc, app_nil_r, B3 by done.
    by rewrite Hrx, wire_frames_app, wire_frames_cons, <- !app_assoc.
Qed.

Lemma flows_inv_step dns evs t ev t' :
  addresses (fun _ r => queried dns r = false) (fun _ r => queried dns r = true) t ->
  flows_inv dns evs t -> tun_step dns t ev = Some t' -> flows_inv dns (evs ++ [ev]) t'.
Proof.
  intros Haddr Hinv. assert (Hfl : forall i f, tu_flows t !! i = Some f -> queried dns (fl_remote f) = false)
    by (intros i f Hi; exact (addresses_flow _ _ t i f Haddr Hi)).
  destruct ev as [data local remote|i r|i r|i bs|i lost ok|i| |packet]; cbn [tun_step]; unfold query_ends, flow_opens, flow_reads, reply_step, stack_packet.
  - intros [= <-]. by apply flows_inv_datagram.
  - destruct (tu_queries t !! i) as [[[[h q] local] remote]|] eqn:Hi; [|done]. intros [= <-].
    assert (Hl : forall l, reply_log (end_query t i l) = reply_log t ++ l) by (intros l; unfold reply_log; cbn; by rewrite app_assoc).
    apply (flows_inv_same dns evs t); try done; [rewrite Hl; by apply prefix_app_r|].
    intros k. destruct r as [d|]; [|left; unfold replies_to; by rewrite Hl, app_nil_r].
    rewrite (replies_to_snoc k t _ _ _ _ (Hl _)). destruct (decide _) as [<-|]; [right|left; by rewrite app_nil_r].
    exact (Forall_lookup_1 _ _ _ _ (ad_queries _ _ _ Haddr) Hi).
  - destruct (tu_flows t !! i) as [f|] eqn:Hi; [|done]. destruct (fl_alive f) eqn:Ha; [|done]. cbn [andb]. case_bool_decide as Hn; [|done].
    intros [= <-]. destruct r as [s|]; [|by apply (flows_inv_end dns evs t i f)].
    apply (flows_inv_set dns evs t t i f); try done; [by left|intros k; by left|]. intros Hok _. destruct (Hok Ha) as (H1 & taken & H2 & H3 & H4).
    rewrite Hn in H4. destruct H4 as (-> & H4 & H5).
    assert (Hso : sole (set_flow t i (with_stream f (fl_queue f) s)) i (with_stream f (fl_queue f) s) -> sole t i f)
      by (unfold sole; by rewrite (keys_set_flow t i f)).
    split; [done|]. exists []. change (fl_key (with_stream f (fl_queue f) s)) with (fl_key f).
    cbn [app fl_queue with_stream fl_stream] in H2, H3 |- *. rewrite asked_snoc, app_nil_r. split_and!; [done|auto|].
    exists s, [], []. split_and!; [set_solver|done|done|apply sublist_nil_l|intros Hu; exact (H5 (Hso Hu))|]. intros Hb. apply Forall_app in Hb as [_ Hb]. apply Forall_cons in Hb as [Hb _].
    split_and!; [done|by rewrite app_nil_r|]. intros _. by rewrite arrivals_snoc, H4, app_nil_r.
  - destruct (tu_flows t !! i) as [f|] eqn:Hi; [|done]. destruct (fl_stream f) as [s|] eqn:Hs; [|done]. intros [= <-].
    assert (Ha : fl_alive f = true) by (by eapply stream_alive).
    apply (flows_inv_set dns evs t t i f); try done; [by left|intros k; by left|intros j Hj; cbn; by rewrite bool_decide_false|].
    intros Hok _. destruct (Hok Ha) as (H1 & taken & H2 & H3 & H4). rewrite Hs in H4. destruct H4 as (s0 & kept & read & C1 & C2 & C3 & C4 & C6 & C5).
    split; [done|]. exists taken. change (fl_key (with_stream f (fl_queue f) _)) with (fl_key f). cbn [fl_queue with_stream fl_stream].
    assert (Hso : sole (set_flow t i (with_stream f (fl_queue f) (arrive s bs))) i (with_stream f (fl_queue f) (arrive s bs)) -> sole t i f)
      by (unfold sole; by rewrite (keys_set_flow t i f)).
    rewrite asked_snoc, app_nil_r. split_and!; [done|auto|]. exists s0, kept, read.
    split_and!; [set_solver|done| |done|intros Hu; exact (C6 (Hso Hu))|].
    + intros Hf. apply Forall_app in Hf as [Hf _]. by apply C3.
    + intros Hb. apply Forall_app in Hb as [Hb Hbs]. apply Forall_cons in Hbs as [Hbs _]. destruct (C5 Hb) as (B1 & B2 & B3). split_and!; [|done|].
      * cbn. by apply bytes_ok_app.
      * intros Hkf. apply Forall_app in Hkf as [Hkf _]. rewrite arrivals_snoc. cbn. rewrite bool_decide_true by done. by rewrite app_assoc, B3, <- app_assoc.
  - destruct (tu_flows t !! i) as [f|] eqn:Hi; [|done]. destruct (fl_stream f) as [s|] eqn:Hs; [|done]. destruct (fl_queue f) as [|data queue] eqn:Hq; [done|].
    destruct (_ && _); [|done]. by apply (flows_inv_sends dns evs t i f).
  - destruct (tu_flows t !! i) as [f|] eqn:Hi; [|done]. destruct (fl_stream f) as [s|] eqn:Hs; [|done].
    destruct (read_vless_udp_frame s) as [[[data|]|e| |] s'] eqn:Hr; try done; intros [= <-]; try by apply (flows_inv_end dns evs t i f).
    by apply (flows_inv_reads dns evs t i f s).
  - destruct (tu_replies t) as [|[[data local] remote] rs] eqn:Hr; [done|]. intros [= <-].
    assert (Hl : reply_log (set_replies t rs (tu_delivered t ++ [(data, remote, local)])) = reply_log t)
      by (unfold reply_log; cbn [set_replies tu_replies tu_delivered]; by rewrite Hr, map_app, <- app_assoc).
    apply (flows_inv_same dns evs t); try done; [by rewrite Hl|]. intros k. left. unfold replies_to. by rewrite Hl.
  - destruct (parse_icmp_frag_needed_v4 packet) as [[m|]| |]; intros [= <-]; apply (flows_inv_same dns evs t); try done; [|by left|by left].
    cbn. unfold mtu_get. rewrite try_lower_current. lia.
Qed.

Lemma flows_inv_run dns mtu evs t : tun_run dns (tun_udp_new mtu) evs = Some t -> flows_inv dns evs t.
Proof.
  intros Hr. apply (tun_run_inv dns (tun_udp_new mtu) (flows_inv dns) evs t); [split; try done| |done].
  intros es t1 ev t2 Hrun. apply flows_inv_step. eapply (addresses_run dns); [|done|exact Hrun].
  intros local remote Hq. by rewrite tunnelled_queried.
Qed.

(** ** Properties *)

(** C30: UDP through the tunnel is faithful. In every run, a flow whose tunnel is open has
    written to it, as frames in order, datagrams that applications sent from its
    address to its target and nothing else; when it is the only flow there ever was for
    its addresses and the datagrams fit the tunnel's MTU, which only shrinks, all of them
    except those still in its channel. When its frame reader was never dropped in the
    middle of a frame, what it handed to the reply task are exactly the frames the
    tunnel delivered, in order; and when it is the only flow for its addresses, its
    application has got, or will get from the reply task, these datagrams under its
    target's address, each of them once and no others. *)
Theorem tun_udp_faithful (dns : DnsIntercept) (mtu : Z) (evs : list tun_event) (t : tun_udp) (i : nat) (f : flow) (s : stream)
    (Hr : tun_run dns (tun_udp_new mtu) evs = Some t) (Hb : Forall event_bytes_ok evs)
    (Hi : tu_flows t !! i = Some f) (Hs : fl_stream f = Some s) :
  exists s0 kept read, FlowOpens i (Some s0) ∈ evs
    /\ tx s = tx s0 ++ wire_frames kept
    /\ (kept ++ fl_queue f) `sublist_of` asked dns (fl_key f) evs
    /\ (Forall (fits (mtu_get (tu_mtu t))) evs -> sole t i f -> kept ++ fl_queue f = asked dns (fl_key f) evs)
    /\ map (fun d => (d, fl_local f, fl_remote f)) read `sublist_of` reply_log t
    /\ (sole t i f -> replies_to (fl_key f) t = read)
    /\ (Forall (keeps_frames i) evs -> rx s0 ++ arrivals i evs = wire_frames read ++ rx s).
Proof.
  pose proof (flows_inv_run dns mtu evs t Hr) as Hinv.
  assert (Ha : fl_alive f = true) by (by eapply stream_alive).
  destruct (fi_flows _ _ _ Hinv i f Hi Ha) as (_ & taken & H2 & H3 & H4). rewrite Hs in H4.
  destruct H4 as (s0 & kept & read & C1 & C2 & C3 & C4 & C6 & C5). destruct (C5 Hb) as (_ & B2 & B3).
  exists s0, kept, read. split_and!; try done.
  - etrans; [|exact H2]. by apply sublist_app.
  - intros Hf Hu. rewrite C3 by done. by apply H3.
Qed.

(** C26: with DNS over HTTPS or TLS no query leaves in the clear. In every run no flow goes
    to port 53, and every datagram an application receives from port 53 comes from a
    server that this application asked. *)
Theorem encrypted_dns_never_leaks (dns : DnsIntercept) (mtu : Z) (evs : list tun_event) (t : tun_udp) (c : DohConfig + DotConfig)
    (Hd : di_handler dns = Some (match c with inl c => Doh c | inr c => Dot c end))
    (Hr : tun_run dns (tun_udp_new mtu) evs = Some t) :
  Forall (fun f => sock_port (fl_remote f) <> 53) (tu_flows t)
  /\ forall data src dst, (data, src, dst) ∈ tu_delivered t -> sock_port src = 53 -> exists query, UdpIn query dst src ∈ evs.
Proof.
  destruct (addresses_run dns (fun _ r => sock_port r <> 53) (fun l r => exists q, UdpIn q l r ∈ evs)) with (mtu := mtu) (evs := evs) (t := t)
    as [H1 _ _ H4]; [|by eauto|done|].
  - intros local remote. unfold queried, tunnelled. rewrite Hd. destruct c; cbn; intros Hq; by apply Z.eqb_neq in Hq.
  - split; [done|]. intros data src dst Hin Hp. rewrite Forall_forall in H4. destruct (H4 _ Hin) as [|Hq]; done.
Qed.

(** hijacked DNS answers come from the wrong server. When queries are forwarded to a
    configured upstream, every datagram an application ever receives from port 53 has
    the upstream as its source: an application that asked another server never gets
    an answer from the server it asked. *)
Theorem hijacked_dns_wrong_source (dns : DnsIntercept) (upstream : SocketAddr) (mtu : Z) (evs : list tun_event) (t : tun_udp)
    (Hd : di_handler dns = Some (UdpForward upstream)) (Hr : tun_run dns (tun_udp_new mtu) evs = Some t) :
  forall data src dst, (data, src, dst) ∈ tu_delivered t -> sock_port src = 53 -> src = upstream.
Proof.
  destruct (addresses_run dns (fun _ r => sock_port r = 53 -> r = upstream) (fun _ _ => False)) with (mtu := mtu) (evs := evs) (t := t)
    as [_ _ _ H4]; [|intros data local remote _; unfold queried; by rewrite Hd|done|].
  - intros local remote _. unfold tunnelled. rewrite Hd. cbn. destruct (sock_port remote =? 53) eqn:E; [done|]. apply Z.eqb_neq in E. done.
  - intros data src dst Hin Hp. rewrite Forall_forall in H4. destruct (H4 _ Hin) as [Hf|[]]. by apply Hf.
Qed.

(** the system's own encrypted resolvers are blocked. With interception and both
    blocks on, a connection to port 853, to a known resolver on port 443, or to any
    address on port 443 that opens with a ClientHello of up to 16384 bytes naming a
    known resolver or a name below one, however the hello is cut into reads, is ended
    without a tunnel. *)
Theorem tun_blocks_system_resolvers (dns : DnsIntercept) (open_tcp : Endpoint -> res anyhow Z) (remote : SocketAddr)
    (reads : list (io_error + bytes))
    (Hd : is_active dns = true /\ di_block_system_dot dns = true /\ di_block_system_doh dns = true)
    (Hc : sock_port remote = 853
          \/ (sock_port remote = 443
              /\ (is_known_doh_ip (sock_ip remote) = true
                  \/ exists h sni trailing, hello_ok h /\ Z.of_nat (length (encode_record h)) <= 16384
                       /\ joined reads = encode_record h ++ trailing /\ Forall (fun r => exists b, r = inr b /\ b <> []) reads
                       /\ (scan None None (h_exts h)).2 = Some sni /\ is_known_doh_hostname sni = true))) :
  handle_tcp dns open_tcp remote reads = TcpBlocked.
Proof.
  destruct Hd as (Ha & Hdot & Hdoh). unfold handle_tcp, should_block_tcp. rewrite Ha, Hdot, Hdoh. cbn [negb andb].
  destruct Hc as [Hp|[Hp Hc]]; rewrite Hp; [done|]. cbn [Z.eqb Pos.eqb]. destruct (is_known_doh_ip (sock_ip remote)) eqn:Hk; [done|]. cbn [andb].
  destruct Hc as [|(h & sni & trailing & Hok & Hl & Hj & Hr & Hsni & Hn)]; [done|].
  assert (needs_doh_sni_inspection dns remote = true) as -> by (unfold needs_doh_sni_inspection; by rewrite Ha, Hdoh, Hk, Hp).
  destruct (peek_hello h reads trailing Hok Hl Hj Hr) as (extra & rest & -> & _). by rewrite sni_of_hello, Hsni, Hn.
Qed.

(** other connections pass untouched. No bytes make the handler panic, and a
    connection that is relayed goes to the address it was opened to; unless the peek
    at its first bytes failed, the bytes relayed are all of its bytes, in order. *)
Theorem tun_tcp_transparent (dns : DnsIntercept) (open_tcp : Endpoint -> res anyhow Z) (remote : SocketAddr)
    (reads : list (io_error + bytes)) (Ho : forall e, open_tcp e <> Panic) :
  handle_tcp dns open_tcp remote reads <> TcpPanic
  /\ forall prefix rest tunnel, handle_tcp dns open_tcp remote reads = TcpRelayed prefix rest tunnel ->
       open_tcp (Ip remote) = Ok tunnel
       /\ (prefix ++ joined rest = joined reads
           \/ (needs_doh_sni_inspection dns remote = true /\ prefix = [] /\ exists e, peek_tls_client_hello reads = (Err e, rest))).
Proof.
  assert (He : socket_to_endpoint remote = Ip remote) by (unfold socket_to_endpoint; by destruct (sock_ip remote)).
  assert (Hrel : forall p r, relay_tcp open_tcp remote p r <> TcpPanic /\ forall prefix rest tunnel, relay_tcp open_tcp remote p r = TcpRelayed prefix rest tunnel ->
    open_tcp (Ip remote) = Ok tunnel /\ prefix = p /\ rest = r).
  { intros p r. unfold relay_tcp. rewrite He. destruct (open_tcp (Ip remote)) eqn:E; [| |by destruct (Ho (Ip remote))]; split; try done.
    intros prefix rest tunnel [= <- <- <-]. done. }
  unfold handle_tcp. destruct (should_block_tcp dns remote); [done|]. destruct (needs_doh_sni_inspection dns remote).
  - pose proof (peek_no_panic reads) as Hp. destruct (peek_tls_client_hello reads) as [[buf|e|] rest0] eqn:Epeek; [| |done].
    + pose proof (peek_lossless _ _ _ Epeek) as Hl. unfold tls_client_hello_sni. pose proof (parse_client_hello_no_panic buf) as Hnp.
      assert (Hk : relay_tcp open_tcp remote buf rest0 <> TcpPanic
        /\ forall prefix rest tunnel, relay_tcp open_tcp remote buf rest0 = TcpRelayed prefix rest tunnel ->
             open_tcp (Ip remote) = Ok tunnel /\ (prefix ++ joined rest = joined reads \/ (true = true /\ prefix = [] /\ exists e : anyhow, (@Ok anyhow bytes buf, rest0) = (Err e, rest)))).
      { destruct (Hrel buf rest0) as [H1 H2]. split; [done|]. intros prefix rest tunnel H. destruct (H2 _ _ _ H) as (? & -> & ->). split; [done|by left]. }
      destruct (parse_client_hello buf) as [[info|]| |]; [|done..]. destruct (server_name info); [|done]. by case_match.
    + destruct (Hrel [] rest0) as [H1 H2]. split; [done|]. intros prefix rest tunnel H. destruct (H2 _ _ _ H) as (? & -> & ->).
      split; [done|]. right. split_and!; [done..|]. by exists e.
  - destruct (Hrel [] reads) as [H1 H2]. split; [done|]. intros prefix rest tunnel H. destruct (H2 _ _ _ H) as (? & -> & ->). split; [done|by left].
Qed.

(** a peek that fails loses bytes. A connection to port 443 that sends fewer than five
    bytes and waits is relayed after the timeout without the bytes it sent. *)
Theorem tun_peek_loses_bytes (dns : DnsIntercept) (open_tcp : Endpoint -> res anyhow Z) (remote : SocketAddr) (first : bytes) (tunnel : Z)
    (Hd : needs_doh_sni_inspection dns remote = true) (Hf : first <> [] /\ (length first < 5)%nat)
    (Ho : open_tcp (Ip remote) = Ok tunnel) :
  handle_tcp dns open_tcp remote [inr first] = TcpRelayed [] [] tunnel.
Proof.
  destruct Hf as [Hne Hl]. unfold handle_tcp. assert (should_block_tcp dns remote = false) as ->.
  { unfold needs_doh_sni_inspection in Hd. apply andb_true_iff in Hd as [Hd Hk]. apply andb_true_iff in Hd as [Hd Hp]. apply andb_true_iff in Hd as [Ha Hb].
    unfold should_block_tcp. rewrite Ha, Hb, Hp. apply Z.eqb_eq in Hp. rewrite Hp. apply negb_true_iff in Hk. rewrite Hk.
    by destruct (di_block_system_dot dns). }
  rewrite Hd. unfold peek_tls_client_hello. assert (peek_until 5 5 [] [inr first] = (inr PeekWaits, first, [])) as ->.
  { destruct first as [|b0 [|b1 [|b2 [|b3 [|b4 first]]]]]; try done. cbn in Hl. lia. }
  unfold relay_tcp. assert (socket_to_endpoint remote = Ip remote) as -> by (unfold socket_to_endpoint; by destruct (sock_ip remote)).
  by rewrite Ho.
Qed.

(** ** Witnesses *)

Definition demo_resolver : SocketAddr := SockV4 (Ipv4 8 8 8 8) 53.
Definition demo_router : SocketAddr := SockV4 (Ipv4 192 168 1 1) 53.
Definition demo_client : SocketAddr := SockV4 demo_app 5353.
Definition demo_peer : SocketAddr := SockV4 demo_web 4000.

Definition demo_intercept (h : DnsHandler) : DnsIntercept :=
  {| di_handler := Some h; di_block_system_dot := true; di_block_system_doh := true |}.

(** Two datagrams to a peer, an answer that arrives in two pieces, its delivery. *)
Definition demo_flow_events : list tun_event :=
  [UdpIn [1; 2] demo_client demo_peer; FlowOpens 0 (Some (Stream [] false [] None)); UdpIn [3] demo_client demo_peer;
   FlowSends 0 0 true; FlowBytes 0 [0; 2; 7]; FlowBytes 0 [8]; FlowReads 0; Replies].

Definition demo_state (dns : DnsIntercept) (evs : list tun_event) : tun_udp :=
  match tun_run dns (tun_udp_new 1400) evs with Some t => t | None => tun_udp_new 1400 end.

Lemma tun_udp_faithful_witness :
  let t := demo_state (demo_intercept (UdpForward demo_resolver)) demo_flow_events in
  tu_delivered t = [([7; 8], demo_peer, demo_client)]
  /\ exists s0 kept read, FlowOpens 0 (Some s0) ∈ demo_flow_events /\ [0; 2; 1; 2] = tx s0 ++ wire_frames kept
       /\ kept ++ [[3]] = [[1; 2]; [3]] /\ [[7; 8]] = read /\ rx s0 ++ [0; 2; 7; 8] = wire_frames read ++ [].
Proof.
  split; [by vm_compute|].
  destruct (tun_udp_faithful (demo_intercept (UdpForward demo_resolver)) 1400 demo_flow_events
              (demo_state (demo_intercept (UdpForward demo_resolver)) demo_flow_events) 0
              {| fl_local := demo_client; fl_remote := demo_peer; fl_queue := [[3]]; fl_stream := Some (Stream [] false [0; 2; 1; 2] None); fl_alive := true |}
              (Stream [] false [0; 2; 1; 2] None)) as (s0 & kept & read & H1 & H2 & _ & H3 & _ & H4 & H5).
  - by vm_compute.
  - repeat apply Forall_cons_2; try apply Forall_nil_2; try exact I; unfold byte_ok; lia.
  - by vm_compute.
  - done.
  - assert (Hsole : sole (demo_state (demo_intercept (UdpForward demo_resolver)) demo_flow_events) 0
      {| fl_local := demo_client; fl_remote := demo_peer; fl_queue := [[3]];
         fl_stream := Some (Stream [] false [0; 2; 1; 2] None); fl_alive := true |}).
    { intros [|[|j]] Hj; [reflexivity|discriminate Hj..]. }
    exists s0, kept, read. split; [exact H1|]. split; [exact H2|]. split; [|split].
    + apply H3; [|exact Hsole]. repeat apply Forall_cons_2; try apply Forall_nil_2; try exact I; vm_compute; lia.
    + exact (H4 Hsole).
    + apply H5. repeat apply Forall_cons_2; try apply Forall_nil_2; try exact I. intros _. reflexivity.
Defined.

Definition demo_doh : DohConfig := {| doh_host := "dns.google"; doh_port := 443; doh_path := "/dns-query"; doh_server_name := "dns.google" |}.

Definition demo_query_events : list tun_event := [UdpIn demo_query demo_client demo_router; QueryEnds 0 (Some demo_answer); Replies].

Lemma encrypted_dns_never_leaks_witness :
  let t := demo_state (demo_intercept (Doh demo_doh)) demo_query_events in
  tu_delivered t = [(demo_answer, demo_router, demo_client)] /\ Forall (fun f => sock_port (fl_remote f) <> 53) (tu_flows t).
Proof.
  split; [by vm_compute|].
  apply (encrypted_dns_never_leaks (demo_intercept (Doh demo_doh)) 1400 demo_query_events _ (inl demo_doh)); by vm_compute.
Defined.

Definition demo_hijack_events : list tun_event :=
  [UdpIn demo_query demo_client demo_router; FlowOpens 0 (Some (Stream (wire_frame demo_answer) false [] None)); FlowReads 0; Replies].

Lemma hijacked_dns_wrong_source_witness :
  let t := demo_state (demo_intercept (UdpForward demo_resolver)) demo_hijack_events in
  tu_delivered t = [(demo_answer, demo_resolver, demo_client)]
  /\ forall data src dst, (data, src, dst) ∈ tu_delivered t -> sock_port src = 53 -> src = demo_resolver.
Proof.
  split; [by vm_compute|].
  apply (hijacked_dns_wrong_source (demo_intercept (UdpForward demo_resolver)) demo_resolver 1400 demo_hijack_events); by vm_compute.
Defined.

Definition demo_doh_hello : Hello :=
  {| h_head := [0; 0; 120; 3; 3]; h_random := replicate 32 7; h_session := []; h_suites := [0x13; 0x01]; h_compression := [0];
     h_exts := [ExtSni [(0, bytes_of_string "Firefox.DNS.nextdns.io")]] |}.

Definition demo_hello_reads : list (io_error + bytes) :=
  [inr (take 7 (encode_record demo_doh_hello)); inr (drop 7 (encode_record demo_doh_hello) ++ [1; 2])].

Definition no_tunnel : Endpoint -> res anyhow Z := fun _ => Err (bail "no tunnel").

Lemma tun_blocks_system_resolvers_witness :
  handle_tcp (demo_intercept (Doh demo_doh)) no_tunnel (SockV4 demo_web 443) demo_hello_reads = TcpBlocked.
Proof.
  apply tun_blocks_system_resolvers; [done|]. right. split; [done|]. right.
  exists demo_doh_hello, "Firefox.DNS.nextdns.io"%string, [1; 2]. split_and!; [|by vm_compute|by vm_compute| |by vm_compute|by vm_compute].
  - unfold hello_ok. assert (Hu : forall n, bool_decide (u16_ok n) = true -> u16_ok n) by (intros n H; exact (bool_decide_eq_true_1 _ H)).
    split_and!; try (vm_compute; reflexivity); try (apply Hu; vm_compute; reflexivity).
    repeat apply Forall_cons_2; try apply Forall_nil_2. split; [apply Hu; vm_compute; reflexivity|].
    repeat apply Forall_cons_2; try apply Forall_nil_2. split; [unfold byte_ok; cbn; lia|apply Hu; vm_compute; reflexivity].
  - repeat apply Forall_cons_2; try apply Forall_nil_2; eexists; (split; [reflexivity|]); by vm_compute.
Defined.

Definition demo_reads : list (io_error + bytes) := [inr [71; 69; 84]; inr [32; 47; 13; 10]].

Lemma tun_tcp_transparent_witness :
  handle_tcp (demo_intercept (Doh demo_doh)) (fun _ => Ok 5) (SockV4 demo_web 443) demo_reads
    = TcpRelayed [71; 69; 84; 32; 47; 13; 10] [] 5
  /\ handle_tcp (demo_intercept (Doh demo_doh)) (fun _ => Ok 5) (SockV4 demo_web 443) demo_reads <> TcpPanic.
Proof.
  split; [by vm_compute|]. by apply (tun_tcp_transparent (demo_intercept (Doh demo_doh)) (fun _ => Ok 5) (SockV4 demo_web 443) demo_reads).
Defined.

Lemma tun_peek_loses_bytes_witness :
  handle_tcp (demo_intercept (Doh demo_doh)) (fun _ => Ok 5) (SockV4 demo_web 443) [inr [1; 2]] = TcpRelayed [] [] 5.
Proof. apply (tun_peek_loses_bytes (demo_intercept (Doh demo_doh)) (fun _ => Ok 5) (SockV4 demo_web 443) [1; 2] 5); [done| |done]. split; [done|cbn; lia]. Defined.
