(* ===== verification/TunPump.v ===== *)
(** * Packets between the device and the stack
    Models the two tasks of crates/skadi-client/src/tun/mod.rs that copy packets
    between the TUN device and the userspace stack. The device and the stack answer
    through events: what is read, and whether the write that follows succeeds. *)

From Stdlib Require Import String.
From stdpp Require Import base list list_numbers numbers strings.
From S2P Require Import Prelude Core Io Pmtud.

(** ** From the stack to the device *)

(** [stack_stream.next()] with the answer of [tun_sink.send]; [None] is the end. *)
Record to_tun := { tt_next : option (io_error + bytes); tt_send : option io_error }.

Record to_tun_state := { ts_mtu : MtuState; ts_written : list bytes; ts_running : bool }.

(** An error of the stack is skipped; a panic of the parser would end the task. *)
Definition stack_to_tun_step (s : to_tun_state) (ev : to_tun) : to_tun_state :=
  if negb (ts_running s) then s else
  match tt_next ev with
  | None => {| ts_mtu := ts_mtu s; ts_written := ts_written s; ts_running := false |}
  | Some (inl _) => s
  | Some (inr pkt) =>
    match parse_icmp_frag_needed_v4 pkt with
    | Panic => {| ts_mtu := ts_mtu s; ts_written := ts_written s; ts_running := false |}
    | r =>
      let mtu := match r with Ok (Some next_mtu) => (try_lower (ts_mtu s) next_mtu).2 | _ => ts_mtu s end in
      match tt_send ev with
      | None => {| ts_mtu := mtu; ts_written := ts_written s ++ [pkt]; ts_running := true |}
      | Some _ => {| ts_mtu := mtu; ts_written := ts_written s; ts_running := false |}
      end
    end
  end.

Definition stack_to_tun (s : to_tun_state) (evs : list to_tun) : to_tun_state := foldl stack_to_tun_step s evs.

(** ** From the device to the stack *)

(** The [select!] of the loop: a packet of the device or an injected one, with the
    answer of [stack_sink.send]; [None] is the end of the source. *)
Inductive to_stack :=
| TunGives (pkt : option (io_error + bytes)) (send : option io_error)
| InjectGives (pkt : option bytes) (send : option io_error).

(** The packet that reaches the stack, or [None] when the loop ends. *)
Definition to_stack_packet (ev : to_stack) : option bytes :=
  match ev with
  | TunGives (Some (inr pkt)) None | InjectGives (Some pkt) None => Some pkt
  | _ => None
  end.

Fixpoint tun_to_stack (evs : list to_stack) : list bytes * bool :=
  match evs with
  | [] => ([], true)
  | ev :: evs =>
    match to_stack_packet ev with
    | None => ([], false)
    | Some pkt => let '(sent, running) := tun_to_stack evs in (pkt :: sent, running)
    end
  end.

(** ** Properties *)

(** What the stack gave, errors left out. *)
Definition packets (evs : list to_tun) : list bytes :=
  omap (fun ev => match tt_next ev with Some (inr pkt) => Some pkt | _ => None end) evs.

Definition quiet (ev : to_tun) : Prop :=
  tt_send ev = None /\ match tt_next ev with Some (inr pkt) => bytes_ok pkt | Some (inl _) => True | None => False end.

Lemma stack_to_tun_step_quiet s ev :
  quiet ev -> ts_running s = true ->
  ts_running (stack_to_tun_step s ev) = true
  /\ ts_written (stack_to_tun_step s ev) = ts_written s ++ packets [ev]
  /\ current (ts_mtu (stack_to_tun_step s ev)) <= current (ts_mtu s).
Proof.
  intros [Hs Hn] Hr. unfold stack_to_tun_step, packets. rewrite Hr. cbn [negb omap].
  destruct (tt_next ev) as [[e|pkt]|] eqn:Hx; [|..|done].
  - split_and!; [done|cbn; rewrite Hx; cbn; by rewrite app_nil_r|lia].
  - cbn. rewrite Hx. cbn. destruct (parse_icmp_total pkt Hn) as (o & -> & _). rewrite Hs. cbn. split_and!; [done|done|].
    destruct o as [m|]; [|lia]. rewrite try_lower_current. lia.
Qed.

(** packets reach the device in order. While the device accepts packets, every packet
    of the stack is written to it once and in order, errors of the stack are skipped,
    and the MTU never grows. *)
Theorem tun_delivers_in_order (s : to_tun_state) (evs : list to_tun) (Hr : ts_running s = true) (Hq : Forall quiet evs) :
  ts_running (stack_to_tun s evs) = true
  /\ ts_written (stack_to_tun s evs) = ts_written s ++ packets evs
  /\ current (ts_mtu (stack_to_tun s evs)) <= current (ts_mtu s).
Proof.
  unfold stack_to_tun. revert s Hr. induction Hq as [|ev evs Hev Hq IH]; intros s Hr; cbn [foldl].
  - split_and!; [done|by rewrite app_nil_r|lia].
  - destruct (stack_to_tun_step_quiet s ev Hev Hr) as (H1 & H2 & H3). destruct (IH _ H1) as (I1 & I2 & I3).
    split_and!; [done| |lia]. rewrite I2, H2, <- app_assoc. f_equal.
    unfold packets. cbn [omap list_omap]. by destruct (match tt_next ev with Some (inr _) => _ | _ => _ end).
Qed.

(** one error of the device is final. The packets of the applications reach the
    stack in order until the first error of a read or a write; from then on none is
    copied, whatever the device gives later, while the client goes on. *)
Theorem tun_read_error_is_final (good : list to_stack) (pkts : list bytes) (ev : to_stack) (later : list to_stack)
    (Hg : Forall2 (fun e p => to_stack_packet e = Some p) good pkts) (Hbad : to_stack_packet ev = None) :
  tun_to_stack good = (pkts, true) /\ tun_to_stack (good ++ ev :: later) = (pkts, false).
Proof.
  induction Hg as [|e p good pkts He Hg [IH1 IH2]]; cbn [app tun_to_stack]; [by rewrite Hbad|].
  rewrite He, IH1, IH2. done.
Qed.

(** ** Witnesses *)

Lemma tun_delivers_in_order_witness :
  ts_written (stack_to_tun {| ts_mtu := mtu_new 1400; ts_written := []; ts_running := true |}
    [{| tt_next := Some (inr [69; 1]); tt_send := None |}; {| tt_next := Some (inl (IoError OtherKind "x")); tt_send := None |};
     {| tt_next := Some (inr [2]); tt_send := None |}]) = [[69; 1]; [2]].
Proof.
  refine (proj1 (proj2 (tun_delivers_in_order _ _ _ _))); [reflexivity|].
  repeat apply Forall_cons_2; try apply Forall_nil_2; (split; [reflexivity|]); cbn; try exact I;
    repeat apply Forall_cons_2; try apply Forall_nil_2; split; (lia || reflexivity).
Defined.

Lemma tun_read_error_is_final_witness :
  tun_to_stack [TunGives (Some (inr [1])) None; TunGives (Some (inl (IoError OtherKind "x"))) None; TunGives (Some (inr [2])) None]
  = ([[1]], false).
Proof.
  refine (proj2 (tun_read_error_is_final [TunGives (Some (inr [1])) None] [[1]]
    (TunGives (Some (inl (IoError OtherKind "x"))) None) [TunGives (Some (inr [2])) None] _ _)).
  - apply Forall2_cons_2; [reflexivity|apply Forall2_nil_2].
  - reflexivity.
Defined.
