(* ===== verification/ClientConfig.v ===== *)
(** * Configuration of the client
    Models crates/skadi-client/src/config.rs: the sections of the file with their
    defaults, the validation and the configurations of the parts derived from it. TOML
    and serde, the base64 and hex decoders and rustls are parameters; of an error of
    std's parsers only the context is kept. *)

From Stdlib Require Import Ascii String.
From stdpp Require Import base list list_numbers numbers strings pretty gmap.
From S2P Require Import Prelude Core Io NetText Socks5 VlessConfig Xhttp External Tls Config XhttpClient Pmtud ClientDns ClientRouting.

(** ** Sections *)

Record Hysteria2ClientFileConfig := {
  h2_server : string;
  h2_password : string;
  h2_socks5_listen : option string;
  h2_http_listen : option string;
  h2_sni : option string;
  h2_ca_file : option string;
  h2_insecure : bool;
  h2_pin_sha256 : option string;
  h2_bandwidth_up : option string;
  h2_bandwidth_down : option string
}.

Record TuicClientFileConfig := {
  tf_server : string;
  tf_uuid : string;
  tf_password : string;
  tf_socks5_listen : option string;
  tf_ip : option string;
  tf_congestion_control : string;
  tf_alpn : list string;
  tf_udp_relay_mode : string;
  tf_allow_insecure : bool
}.

Definition default_tuic_cc : string := "bbr".
Definition default_tuic_alpn : list string := ["h3"%string].
Definition default_tuic_udp_mode : string := "native".

Record AwgClientFileConfig := {
  ac_interface : string;
  ac_private_key : string;
  ac_address : string;
  ac_server_public_key : string;
  ac_endpoint : string;
  ac_mtu : option Z;
  ac_dns : option string;
  ac_allowed_ips : list string;
  ac_persistent_keepalive : option Z;
  ac_jc : Z; ac_jmin : Z; ac_jmax : Z; ac_s1 : Z; ac_s2 : Z; ac_s3 : Z; ac_s4 : Z;
  ac_h1 : string; ac_h2 : string; ac_h3 : string; ac_h4 : string
}.

Definition default_awg_client_interface : string := "skadiawg0".
Definition default_awg_client_allowed_ips : list string := ["0.0.0.0/0"; "::/0"]%string.

(** [jc] to [s4] and [h1] to [h4] when absent. *)
Definition default_awg_client_obfuscation : AwgObfuscationConfig :=
  {| jc := 8; jmin := 64; jmax := 1024; s1 := 32; s2 := 32; s3 := 16; s4 := 16;
     h1 := "1-10000000"; h2 := "10000001-20000000"; h3 := "20000001-30000000"; h4 := "30000001-40000000" |}.

Record ClientSocks5AuthConfig := { cs_auth : AuthMethod; cs_users : list UserCredential }.

Definition client_socks5_default : ClientSocks5AuthConfig := {| cs_auth := NoAuth; cs_users := [] |}.

Record TunConfig := {
  tn_enabled : bool;
  tn_name : string;
  tn_address : string;
  tn_gateway : string;
  tn_netmask : string;
  tn_mtu : Z;
  tn_pmtud : string;
  tn_mtu_overhead : Z;
  tn_routing : TunRoutingConfig;
  tn_dns : TunDnsConfig
}.

(** The values that are used when a section leaves them out. *)
Definition default_routing_table : Z := 100.
Definition default_dns_hijack : bool := true.
Definition default_dns_mode : string := "udp".
Definition default_dns_server : option string := Some "8.8.8.8"%string.
Definition default_block_system_dot : bool := true.
Definition default_block_system_doh : bool := true.
Definition default_tun_name : string := "skadi0".
Definition default_tun_address : string := "10.0.0.2".
Definition default_tun_gateway : string := "10.0.0.1".
Definition default_tun_netmask : string := "255.255.255.0".
Definition default_tun_mtu : Z := RECOMMENDED_TUN_MTU.
Definition default_tun_pmtud : string := "static".
Definition default_tun_mtu_overhead : Z := DEFAULT_OVERLAY_OVERHEAD.

Definition tun_routing_default : TunRoutingConfig := {| rc_auto := false; rc_table := default_routing_table; rc_bypass := [] |}.

Definition tun_dns_default : TunDnsConfig :=
  {| dn_hijack := default_dns_hijack; dn_mode := default_dns_mode; dn_server := default_dns_server;
     dn_block_system_dot := default_block_system_dot; dn_block_system_doh := default_block_system_doh |}.

Definition tun_default : TunConfig :=
  {| tn_enabled := false; tn_name := default_tun_name; tn_address := default_tun_address; tn_gateway := default_tun_gateway;
     tn_netmask := default_tun_netmask; tn_mtu := default_tun_mtu; tn_pmtud := default_tun_pmtud;
     tn_mtu_overhead := default_tun_mtu_overhead; tn_routing := tun_routing_default; tn_dns := tun_dns_default |}.

Record ClientListenConfig := { cl_listen : option string; cl_socks5 : ClientSocks5AuthConfig; cl_tun : TunConfig }.

Record RemoteXhttpConfig := {
  rx_enabled : bool;
  rx_path : string;
  rx_mode : string;
  rx_host : option string;
  rx_x_padding_bytes : option (Z * Z)
}.

Record RemoteRealityConfig := {
  rr_enabled : bool;
  rr_password : option string;
  rr_short_id : option string;
  rr_server_name : option string;
  rr_kex_mode : string
}.

Record RemoteTlsConfig := {
  rt_enabled : bool;
  rt_ca_file : option string;
  rt_server_name : option string;
  rt_kex_mode : string
}.

(** The texts that are used when a section leaves them out. *)
Definition default_remote_xhttp_path : string := "/xhttp".
Definition default_remote_xhttp_mode : string := "stream-one".
Definition default_remote_tls_kex_mode : string := "classic".

Record RemoteConfig := {
  rm_server : string;
  rm_uuid : string;
  rm_tls : RemoteTlsConfig;
  rm_reality : RemoteRealityConfig;
  rm_xhttp : RemoteXhttpConfig
}.

Record ClientConfig := {
  k_client : ClientListenConfig;
  k_remote : option RemoteConfig;
  k_awg : option AwgClientFileConfig;
  k_hysteria2 : option Hysteria2ClientFileConfig;
  k_tuic : option TuicClientFileConfig
}.

(** What is asked of the outside: the decoders, each with the text of its error, and
    rustls with the certificates of the system. *)
Record ClientHost := {
  url_safe_decode : string -> string + bytes;
  standard_decode : string -> string + bytes;
  client_hex_decode : string -> string + bytes;
  client_tls : TlsSetup
}.

(** ** Addresses *)

Definition client_parse_socket_addr (value field : string) : res anyhow SocketAddr :=
  ok_or (parse_socket_addr value) ("invalid " +:+ field +:+ ": " +:+ value).

Definition client_parse_ip (value field : string) : res anyhow IpAddr :=
  ok_or (parse_ip value) ("invalid " +:+ field +:+ ": " +:+ value).

Fixpoint parse_ipv4_list (values : list string) (field : string) : res anyhow (list Ipv4Addr) :=
  match values with
  | [] => Ok []
  | value :: values =>
    ip ← client_parse_ip value field;
    match ip with
    | V4 v4 => out ← parse_ipv4_list values field; Ok (v4 :: out)
    | V6 _ => Err (bail (field +:+ " must be IPv4: " +:+ value))
    end
  end.

(** [s.split_once("]:")]. *)
Fixpoint split_bracket (s : string) : option (string * string) :=
  match strip_prefix "]:" s with
  | Some r => Some (EmptyString, r)
  | None =>
    match s with
    | EmptyString => None
    | String a s' => match split_bracket s' with Some (l, r) => Some (String a l, r) | None => None end
    end
  end.

Definition server_port (port_str value : string) : res anyhow Z :=
  ok_or (parse_uint 65536 port_str) ("invalid server port in " +:+ value).

Definition split_host_port (value : string) : res anyhow (string * Z) :=
  match strip_prefix "[" value with
  | Some rest =>
    '(host, port_str) ← ok_or (split_bracket rest) ("invalid IPv6 server address (expected [host]:port): " +:+ value);
    _ ← bail_if (bool_decide (host = EmptyString)) ("empty server host in " +:+ value);
    port ← server_port port_str value;
    Ok (host, port)
  | None =>
    '(host, port_str) ← ok_or (rsplit_once ":"%char value) ("invalid server address (expected host:port): " +:+ value);
    _ ← bail_if (bool_decide (host = EmptyString)) ("empty server host in " +:+ value);
    _ ← bail_if (char_contains ":"%char host) ("ambiguous IPv6 address without brackets (use [host]:port): " +:+ value);
    port ← server_port port_str value;
    Ok (host, port)
  end.

Definition parse_server_endpoint (value : string) : res anyhow Endpoint :=
  '(host, port) ← split_host_port value;
  match parse_ip host with
  | Some ip => Ok (Ip (SocketAddr_new ip port))
  | None => Ok (Domain host port)
  end.

(** ** Validation *)

Fixpoint check_users (i : nat) (users : list UserCredential) : res anyhow unit :=
  match users with
  | [] => Ok tt
  | user :: users =>
    let at_index := "client.socks5.users[" +:+ fmt_dec i +:+ "]" in
    _ ← bail_if (bool_decide (username user = EmptyString)) (at_index +:+ ".username must not be empty");
    _ ← bail_if (bool_decide (password user = EmptyString)) (at_index +:+ ".password must not be empty");
    check_users (S i) users
  end.

Definition socks5_validate (self : ClientSocks5AuthConfig) : res anyhow unit :=
  _ ← bail_if (bool_decide (cs_auth self = UserPass) && (length (cs_users self) =? 0)%nat)
        "client.socks5.auth is user-pass but no users configured";
  check_users 0 (cs_users self).

Definition inbound_config (self : ClientSocks5AuthConfig) : Socks5Config :=
  {| s5_enabled := true; s5_auth := cs_auth self; s5_users := cs_users self; s5_bind := false; s5_udp_associate := false |}.

Section Validation.
Context (host : ClientHost).

Definition tun_validate (self : TunConfig) : res anyhow unit :=
  if negb (tn_enabled self) then Ok tt else
  _ ← client_parse_ip (tn_address self) "client.tun.address";
  _ ← client_parse_ip (tn_gateway self) "client.tun.gateway";
  _ ← client_parse_ip (tn_netmask self) "client.tun.netmask";
  _ ← bail_if (bool_decide (tn_name self = EmptyString)) "client.tun.name must not be empty";
  _ ← bail_if (tn_mtu self <? 576) "client.tun.mtu must be at least 576";
  _ ← parse_pmtud_mode (tn_pmtud self);
  _ ← bail_if (500 <? tn_mtu_overhead self) "client.tun.mtu_overhead must be at most 500";
  _ ← bail_if ((rc_table (tn_routing self) =? 0) || (252 <? rc_table (tn_routing self)))
        "client.tun.routing.table must be in 1..=252";
  _ ← parse_ipv4_list (rc_bypass (tn_routing self)) "client.tun.routing.bypass";
  _ ← bail_if (dn_hijack (tn_dns self) && negb (is_some (dn_server (tn_dns self))))
        "client.tun.dns.hijack requires client.tun.dns.server";
  if dn_hijack (tn_dns self) then _ ← intercept_from_config (client_tls host) (tn_dns self); Ok tt else Ok tt.

(** The decoding shared by [parse_reality_client] and [reality_tls_client_config]:
    URL-safe base64, else the standard one, then the short id. *)
Definition decode_public_key (password : string) : res anyhow bytes :=
  match match url_safe_decode host password with inr b => inr b | inl _ => standard_decode host password end with
  | inl e => Err (Anyhow ["remote.reality.password: invalid base64 public key"; e]%string)
  | inr pk =>
    _ ← bail_if (negb (length pk =? 32)%nat) "remote.reality.password must decode to 32 bytes";
    Ok pk
  end.

Definition decode_client_short_id (short_id : string) : res anyhow bytes :=
  match client_hex_decode host short_id with
  | inl e => Err (Anyhow ["remote.reality.short_id: invalid hex"; e]%string)
  | inr sid =>
    _ ← bail_if ((length sid =? 0)%nat || (8 <? length sid)%nat) "remote.reality.short_id must be 1..8 bytes when decoded";
    Ok sid
  end.

Definition parse_reality_client (cfg : RemoteRealityConfig) : res anyhow unit :=
  password ← ok_or (rr_password cfg) "remote.reality.password is required";
  short_id ← ok_or (rr_short_id cfg) "remote.reality.short_id is required";
  server_name ← ok_or (rr_server_name cfg) "remote.reality.server_name is required";
  _ ← bail_if (bool_decide (server_name = EmptyString)) "remote.reality.server_name must not be empty";
  _ ← decode_public_key password;
  _ ← decode_client_short_id short_id;
  _ ← parse_tls_kex_mode (rr_kex_mode cfg) "remote.reality.kex_mode";
  Ok tt.

Definition parse_remote_xhttp (cfg : RemoteXhttpConfig) : res anyhow unit :=
  _ ← bail_if (blank (rx_path cfg)) "remote.xhttp.path must not be empty when xhttp is enabled";
  _ ← bail_if (negb (is_some (mode_parse (rx_mode cfg)))) "remote.xhttp.mode must be auto, packet-up, stream-up, or stream-one";
  match rx_x_padding_bytes cfg with
  | Some (min, max) => bail_if (max <? min) "remote.xhttp.x_padding_bytes: min must be <= max"
  | None => Ok tt
  end.

(** [Uuid::parse(..).map_err(|e| anyhow!("field: {}", e))]. *)
Definition client_uuid (field s : string) : res anyhow Uuid :=
  map_err (fun e => bail (field +:+ ": " +:+ uuid_error_display e)) (uuid_parse s).

Definition validate_remote (remote : RemoteConfig) : res anyhow unit :=
  _ ← parse_server_endpoint (rm_server remote);
  _ ← client_uuid "remote.uuid" (rm_uuid remote);
  _ ← bail_if (rt_enabled (rm_tls remote) && rr_enabled (rm_reality remote))
        "remote.tls and remote.reality cannot both be enabled";
  _ ← (if rt_enabled (rm_tls remote) then _ ← parse_tls_kex_mode (rt_kex_mode (rm_tls remote)) "remote.tls.kex_mode"; Ok tt
       else Ok tt);
  _ ← (if rr_enabled (rm_reality remote) then parse_reality_client (rm_reality remote) else Ok tt);
  if rx_enabled (rm_xhttp remote) then parse_remote_xhttp (rm_xhttp remote) else Ok tt.

Definition client_validate_awg (awg : AwgClientFileConfig) : res anyhow unit :=
  _ ← bail_if (blank (ac_private_key awg)) "awg.private_key must not be empty";
  _ ← bail_if (blank (ac_server_public_key awg)) "awg.server_public_key must not be empty";
  _ ← client_parse_socket_addr (ac_endpoint awg) "awg.endpoint";
  bail_if (length (ac_allowed_ips awg) =? 0)%nat "awg.allowed_ips must not be empty".

Definition resolve_sidecar_socks5 (self : ClientConfig) (override : option string) : string :=
  match nonblank override with
  | Some s => trim s
  | None => match cl_listen (k_client self) with Some listen => listen | None => "127.0.0.1:10808" end
  end.

Definition client_validate_hysteria2 (self : ClientConfig) (hy2 : Hysteria2ClientFileConfig) : res anyhow unit :=
  _ ← parse_server_endpoint (h2_server hy2);
  _ ← bail_if (blank (h2_password hy2)) "hysteria2.password must not be empty";
  _ ← client_parse_socket_addr (resolve_sidecar_socks5 self (h2_socks5_listen hy2)) "hysteria2.socks5_listen / client.listen";
  match h2_http_listen hy2 with
  | Some http => _ ← client_parse_socket_addr http "hysteria2.http_listen"; Ok tt
  | None => Ok tt
  end.

Definition client_validate_tuic (self : ClientConfig) (tuic : TuicClientFileConfig) : res anyhow unit :=
  _ ← parse_server_endpoint (tf_server tuic);
  _ ← client_uuid "tuic.uuid" (tf_uuid tuic);
  _ ← bail_if (blank (tf_password tuic)) "tuic.password must not be empty";
  _ ← client_parse_socket_addr (resolve_sidecar_socks5 self (tf_socks5_listen tuic)) "tuic.socks5_listen / client.listen";
  Ok tt.

Definition count_modes (self : ClientConfig) : nat :=
  length (List.filter (fun m => m) [is_some (k_remote self); is_some (k_awg self); is_some (k_hysteria2 self); is_some (k_tuic self)]).

Definition when_some {A} (o : option A) (f : A -> res anyhow unit) : res anyhow unit :=
  match o with Some a => f a | None => Ok tt end.

Definition validate_listen (self : ClientConfig) : res anyhow unit :=
  match cl_listen (k_client self) with
  | Some listen => _ ← client_parse_socket_addr listen "client.listen"; socks5_validate (cl_socks5 (k_client self))
  | None =>
    bail_if (negb (bool_decide (cs_auth (cl_socks5 (k_client self)) = NoAuth)) || negb (length (cs_users (cl_socks5 (k_client self))) =? 0)%nat)
      "client.socks5 auth/users require client.listen (native SOCKS5 inbound)"
  end.

Definition client_validate (self : ClientConfig) : res anyhow unit :=
  _ ← bail_if (negb (count_modes self =? 1)%nat)
        "client config: set exactly one of [remote] (VLESS), [awg], [hysteria2], or [tuic]";
  let sidecar := is_some (k_awg self) || is_some (k_hysteria2 self) || is_some (k_tuic self) in
  _ ← bail_if (negb (is_some (cl_listen (k_client self))) && negb (tn_enabled (cl_tun (k_client self))) && negb sidecar)
        "client: set client.listen (SOCKS5), client.tun.enabled = true, or a sidecar mode ([awg]/[hysteria2]/[tuic])";
  _ ← validate_listen self;
  _ ← when_some (k_remote self) validate_remote;
  _ ← when_some (k_awg self) client_validate_awg;
  _ ← when_some (k_hysteria2 self) (client_validate_hysteria2 self);
  _ ← when_some (k_tuic self) (client_validate_tuic self);
  _ ← bail_if ((is_some (k_hysteria2 self) || is_some (k_tuic self)) && tn_enabled (cl_tun (k_client self)))
        "client.tun is not supported with [hysteria2] or [tuic] sidecar modes";
  tun_validate (cl_tun (k_client self)).

(** [ClientConfig::load], given what reading and parsing the file answer. *)
Definition client_load (read : string -> string + string) (parse : string -> string + ClientConfig) (path : string)
    : res anyhow ClientConfig :=
  match read path with
  | inl e => Err (Anyhow [("failed to read client config " +:+ quoted path); e])
  | inr raw =>
    match parse raw with
    | inl e => Err (Anyhow [("failed to parse client config " +:+ quoted path); e])
    | inr config => _ ← client_validate config; Ok config
    end
  end.

(** ** Derived configurations *)

Definition awg_runtime_config (self : ClientConfig) : res anyhow AwgClientConfig :=
  awg ← ok_or (k_awg self) "awg section not configured";
  Ok {| awc_interface_name := ac_interface awg; awc_private_key := ac_private_key awg; awc_address := ac_address awg;
        awc_server_public_key := ac_server_public_key awg; awc_endpoint := ac_endpoint awg; awc_mtu := ac_mtu awg;
        awc_dns := ac_dns awg; awc_allowed_ips := ac_allowed_ips awg; awc_persistent_keepalive := ac_persistent_keepalive awg;
        awc_obfuscation :=
          {| jc := ac_jc awg; jmin := ac_jmin awg; jmax := ac_jmax awg; s1 := ac_s1 awg; s2 := ac_s2 awg; s3 := ac_s3 awg;
             s4 := ac_s4 awg; h1 := ac_h1 awg; h2 := ac_h2 awg; h3 := ac_h3 awg; h4 := ac_h4 awg |} |}.

Definition client_hysteria2_runtime_config (self : ClientConfig) : res anyhow Hysteria2ClientConfig :=
  hy2 ← ok_or (k_hysteria2 self) "hysteria2 section not configured";
  Ok {| hc_server := h2_server hy2; hc_password := h2_password hy2;
        hc_socks5_listen := resolve_sidecar_socks5 self (h2_socks5_listen hy2); hc_http_listen := h2_http_listen hy2;
        hc_sni := h2_sni hy2; hc_ca_file := h2_ca_file hy2; hc_insecure := h2_insecure hy2; hc_pin_sha256 := h2_pin_sha256 hy2;
        hc_bandwidth_up := h2_bandwidth_up hy2; hc_bandwidth_down := h2_bandwidth_down hy2 |}.

Definition client_tuic_runtime_config (self : ClientConfig) : res anyhow TuicClientConfig :=
  tuic ← ok_or (k_tuic self) "tuic section not configured";
  Ok {| tc_server := tf_server tuic; tc_uuid := tf_uuid tuic; tc_password := tf_password tuic;
        tc_socks5_listen := resolve_sidecar_socks5 self (tf_socks5_listen tuic); tc_ip := tf_ip tuic;
        tc_congestion_control := tf_congestion_control tuic; tc_alpn := tf_alpn tuic; tc_udp_relay_mode := tf_udp_relay_mode tuic;
        tc_allow_insecure := tf_allow_insecure tuic |}.

Definition the_remote (self : ClientConfig) : res anyhow RemoteConfig := ok_or (k_remote self) "remote section not configured".

Definition client_listen_addr (self : ClientConfig) : res anyhow SocketAddr :=
  listen ← ok_or (cl_listen (k_client self)) "client.listen is not configured";
  client_parse_socket_addr listen "client.listen".

Definition proxy_endpoint (self : ClientConfig) : res anyhow Endpoint :=
  remote ← the_remote self; parse_server_endpoint (rm_server remote).

Definition tls_sni_endpoint (self : ClientConfig) : res anyhow Endpoint :=
  remote ← the_remote self;
  match rt_server_name (rm_tls remote) with
  | Some name => '(_, port) ← split_host_port (rm_server remote); Ok (Domain name port)
  | None => proxy_endpoint self
  end.

Definition reality_sni_endpoint (self : ClientConfig) : res anyhow Endpoint :=
  remote ← the_remote self;
  name ← ok_or (rr_server_name (rm_reality remote)) "remote.reality.server_name is required";
  '(_, port) ← split_host_port (rm_server remote);
  Ok (Domain name port).

Definition client_uuid_bytes (self : ClientConfig) : res anyhow bytes :=
  remote ← the_remote self;
  u ← map_err (fun e => bail (uuid_error_display e)) (uuid_parse (rm_uuid remote));
  Ok (uuid_bytes u).

Definition client_tls_config (self : ClientConfig) : res anyhow TlsClientConfig :=
  remote ← the_remote self;
  _ ← bail_if (rr_enabled (rm_reality remote)) "remote.tls is disabled when remote.reality is enabled";
  kex ← parse_tls_kex_mode (rt_kex_mode (rm_tls remote)) "remote.tls.kex_mode";
  Ok {| cc_ca_file := rt_ca_file (rm_tls remote); cc_client_cert := None; cc_client_key := None; cc_kex_mode := kex;
        cc_alpn_http1_only := rx_enabled (rm_xhttp remote) |}.

Record RealityTlsClientConfig := {
  rlc_server_public_key : bytes;
  rlc_short_id : bytes;
  rlc_server_name : string;
  rlc_kex_mode : TlsKexMode;
  rlc_alpn_http1_only : bool
}.

(** [server_public_key.copy_from_slice(&pk)] panics unless [pk] has 32 bytes, which is
    checked before. *)
Definition reality_tls_client_config (self : ClientConfig) : res anyhow RealityTlsClientConfig :=
  remote ← the_remote self;
  let reality := rm_reality remote in
  _ ← bail_if (negb (rr_enabled reality)) "remote.reality is not enabled";
  password ← ok_or (rr_password reality) "remote.reality.password is required";
  short_id ← ok_or (rr_short_id reality) "remote.reality.short_id is required";
  server_name ← ok_or (rr_server_name reality) "remote.reality.server_name is required";
  pk ← decode_public_key password;
  sid ← decode_client_short_id short_id;
  key ← (if (length pk =? 32)%nat then Ok pk else Panic);
  kex ← parse_tls_kex_mode (rr_kex_mode reality) "remote.reality.kex_mode";
  Ok {| rlc_server_public_key := key; rlc_short_id := sid; rlc_server_name := server_name; rlc_kex_mode := kex;
        rlc_alpn_http1_only := rx_enabled (rm_xhttp remote) |}.

(** Ten seconds, in nanoseconds. *)
Definition client_connect_timeout : Z := 10 * 10 ^ 9.

Definition xhttp_host (remote : RemoteConfig) : string :=
  match rx_host (rm_xhttp remote) with
  | Some h => h
  | None =>
    match rr_server_name (rm_reality remote) with
    | Some n => n
    | None =>
      match rt_server_name (rm_tls remote) with
      | Some n => n
      | None => match split_host_port (rm_server remote) with Ok (h, _) => h | _ => "localhost" end
      end
    end
  end.

Definition xhttp_client_config (self : ClientConfig) : res anyhow (option XhttpClientConfig) :=
  match k_remote self with
  | Some remote =>
    if negb (rx_enabled (rm_xhttp remote)) then Ok None else
    let xhttp := rm_xhttp remote in
    mode ← ok_or (mode_parse (rx_mode xhttp)) ("remote.xhttp.mode invalid: " +:+ rx_mode xhttp);
    padding ← match rx_x_padding_bytes xhttp with
              | Some (min, max) =>
                _ ← bail_if (max <? min) ("remote.xhttp.x_padding_bytes: min (" +:+ pretty min +:+ ") must be <= max (" +:+ pretty max +:+ ")");
                Ok {| pad_min := min; pad_max := max |}
              | None => Ok padding_default
              end;
    Ok (Some {| xcl_path := rx_path xhttp; xcl_host := xhttp_host remote; xcl_mode := mode; xcl_padding := padding |})
  | None => Ok None
  end.
End Validation.
