(* ===== verification/ClientConfigSpec.v ===== *)
(** * What a valid client configuration is
    States declaratively which configurations [ClientConfig::validate] of
    crates/skadi-client/src/config.rs accepts, and proves that the checks decide
    exactly these. *)

From Stdlib Require Import Ascii String.
From stdpp Require Import base list list_numbers numbers strings pretty gmap.
From S2P Require Import Prelude Core Io NetText Tls.
From S2P Require Import Socks5 VlessConfig Xhttp External Config ConfigSpec.
From S2P Require Import XhttpClient Pmtud ClientDns ClientRouting ClientConfig.

(** ** Server addresses *)

(** [host:port] with no colon in the host, or [[host]:port]; the port is a [u16]. *)
Inductive host_port : string -> string -> Z -> Prop :=
| hp_bracketed h p port :
    h <> EmptyString -> str_contains "]:" h = false -> parse_uint 65536 p = Some port ->
    host_port ("[" +:+ h +:+ "]:" +:+ p) h port
| hp_plain h p port :
    h <> EmptyString -> free_of ":"%char h -> free_of ":"%char p -> strip_prefix "[" h = None -> parse_uint 65536 p = Some port ->
    host_port (h +:+ ":" +:+ p) h port.

Lemma strip_prefix_some p s r : strip_prefix p s = Some r <-> s = p +:+ r.
Proof.
  revert s. induction p as [|a p IH]; intros s; cbn [strip_prefix].
  - change (EmptyString +:+ r) with r. naive_solver.
  - rewrite append_cons. destruct s as [|b s]; [done|]. destruct (Ascii.eqb_spec a b) as [->|Hne]; [rewrite IH; naive_solver|].
    split; [done|]. by intros [= ->].
Qed.

Lemma char_contains_free c s : char_contains c s = false <-> free_of c s.
Proof.
  unfold char_contains. induction s as [|a s IH]; cbn [str_contains].
  - by vm_compute.
  - rewrite free_cons, orb_false_iff, IH. cbn [String.prefix]. destruct (ascii_dec c a) as [->|Hne].
    + by split; [intros [? _]; destruct s|intros [? _]].
    + split; [by intros [_ ?]|]. by intros [_ ?].
Qed.

Lemma rsplit_some c s l r : rsplit_once c s = Some (l, r) <-> s = l +:+ String c r /\ free_of c r.
Proof.
  split; [|intros [-> Hf]; by apply rsplit_once_free].
  revert l r. induction s as [|a s IH]; intros l r; cbn [rsplit_once]; [done|].
  destruct (rsplit_once c s) as [[l' r']|] eqn:E.
  - intros [= <- <-]. destruct (IH l' r' eq_refl) as [-> Hf]. by rewrite append_cons.
  - destruct (Ascii.eqb_spec a c) as [->|]; [|done]. intros [= <- <-]. split; [done|].
    clear IH. induction s as [|b s IHs]; [by vm_compute|]. cbn [rsplit_once] in E.
    destruct (rsplit_once c s) as [[]|]; [done|]. destruct (Ascii.eqb_spec b c); [done|]. apply free_cons. split; [done|by apply IHs].
Qed.

Lemma bracket_in_front h p r : strip_prefix "]:" (h +:+ "]:" +:+ p) = Some r -> h = EmptyString \/ str_contains "]:" h = true.
Proof.
  destruct h as [|a [|b h]]; [by left| |].
  - rewrite append_cons. change (EmptyString +:+ "]:" +:+ p) with (String "]"%char (":" +:+ p)). cbn [strip_prefix].
    by destruct (Ascii.eqb "]"%char a).
  - rewrite !append_cons. cbn [strip_prefix]. destruct (Ascii.eqb_spec "]"%char a) as [<-|]; [|done].
    destruct (Ascii.eqb_spec ":"%char b) as [<-|]; [|done]. intros _. right. by destruct h.
Qed.

Lemma split_bracket_cons a s : strip_prefix "]:" (String a s) = None ->
  split_bracket (String a s) = match split_bracket s with Some (l, r) => Some (String a l, r) | None => None end.
Proof. intros H. cbn [split_bracket]. by rewrite H. Qed.

Lemma prefix_strip a s : String.prefix "]:" (String a s) = match strip_prefix "]:" (String a s) with Some _ => true | None => false end.
Proof.
  cbn [String.prefix strip_prefix]. destruct (ascii_dec "]"%char a) as [->|Hne]; [rewrite Ascii.eqb_refl|by rewrite (proj2 (Ascii.eqb_neq _ _))].
  destruct s as [|b s]; [done|].
  cbn [String.prefix]. destruct (ascii_dec ":"%char b) as [->|Hne]; [rewrite Ascii.eqb_refl; by destruct s|by rewrite (proj2 (Ascii.eqb_neq _ _))].
Qed.

Lemma split_bracket_some s h p : split_bracket s = Some (h, p) <-> s = h +:+ "]:" +:+ p /\ str_contains "]:" h = false.
Proof.
  revert h p. induction s as [|a s IH]; intros h p.
  - cbn. split; [done|]. intros [He _]. by destruct h.
  - destruct (strip_prefix "]:" (String a s)) as [r|] eqn:Hs.
    + assert (Hsb : split_bracket (String a s) = Some (EmptyString, r)) by (cbn [split_bracket]; by rewrite Hs). rewrite Hsb. split.
      * intros [= <- <-]. apply strip_prefix_some in Hs. by split.
      * intros [He Hc]. rewrite He in Hs. destruct (bracket_in_front _ _ _ Hs) as [->|]; [|congruence].
        apply strip_prefix_some in Hs. change (EmptyString +:+ "]:" +:+ p) with ("]:" +:+ p) in Hs. rewrite !append_cons in Hs.
        injection Hs as Hr. change (p = r) in Hr. by rewrite Hr.
    + rewrite split_bracket_cons by done. split.
      * destruct (split_bracket s) as [[l r]|] eqn:E; [|done]. intros [= <- <-].
        destruct (proj1 (IH l r) eq_refl) as [-> Hc]. split; [done|].
        cbn [str_contains]. rewrite Hc, orb_false_r, prefix_strip.
        destruct (strip_prefix "]:" (String a l)) as [r'|] eqn:E'; [|done]. exfalso. apply strip_prefix_some in E'.
        rewrite append_cons in E'. injection E' as -> ->. rewrite !append_cons in Hs. done.
      * intros [He Hc]. destruct h as [|b h].
        { change (EmptyString +:+ "]:" +:+ p) with ("]:" +:+ p) in He. by rewrite He, strip_prefix_app in Hs. }
        rewrite append_cons in He. injection He as <- ->. cbn [str_contains] in Hc. apply orb_false_iff in Hc as [_ Hc].
        by rewrite (proj2 (IH h p)).
Qed.

Lemma split_host_port_ok value h port : split_host_port value = Ok (h, port) <-> host_port value h port.
Proof.
  unfold split_host_port, server_port. split.
  - destruct (strip_prefix "[" value) as [rest|] eqn:Hs.
    + apply strip_prefix_some in Hs as ->. rewrite bind_ok. intros ([h' p] & Hb & H). apply ok_or_ok, split_bracket_some in Hb as [-> Hc].
      rewrite then_ok, bail_if_ok, bind_ok in H. destruct H as (He & port' & Hp & [= <- <-]). apply ok_or_ok in Hp.
      apply bool_decide_eq_false in He. by constructor.
    + rewrite bind_ok. intros ([h' p] & Hb & H). apply ok_or_ok, rsplit_some in Hb as [-> Hf].
      rewrite !then_ok, !bail_if_ok, bind_ok in H. destruct H as (He & Hc & port' & Hp & [= <- <-]). apply ok_or_ok in Hp.
      apply bool_decide_eq_false in He. apply char_contains_free in Hc. apply (hp_plain h' p port'); try done.
      destruct (strip_prefix "[" h') as [r|] eqn:E; [|done]. apply strip_prefix_some in E as ->. rewrite append_cons in Hs. done.
  - intros [h' p port' Hne Hc Hp|h' p port' Hne Hf Hfp Hb Hp].
    + rewrite strip_prefix_app. rewrite (proj2 (split_bracket_some _ h' p)) by done. cbn [ok_or mbind res_bind].
      rewrite bool_decide_false by done. cbn [bail_if mbind res_bind]. by rewrite Hp.
    + assert (strip_prefix "[" (h' +:+ ":" +:+ p) = None) as ->.
      { destruct (strip_prefix "[" (h' +:+ ":" +:+ p)) as [r|] eqn:E; [|done]. apply strip_prefix_some in E. destruct h' as [|a h']; [done|].
        rewrite append_cons in E. by injection E as -> _. }
      change (h' +:+ ":" +:+ p) with (h' +:+ String ":"%char p). rewrite rsplit_once_free by done. cbn [ok_or mbind res_bind].
      rewrite bool_decide_false by done. cbn [bail_if mbind res_bind]. rewrite (proj2 (char_contains_free _ _)) by done. cbn [bail_if mbind res_bind].
      by rewrite Hp.
Qed.

Lemma server_endpoint_ok value : (exists e, parse_server_endpoint value = Ok e) <-> exists h port, host_port value h port.
Proof.
  unfold parse_server_endpoint. setoid_rewrite bind_ok. setoid_rewrite <- split_host_port_ok. split.
  - intros (e & [h p] & H & _). eauto.
  - intros (h & p & H). destruct (parse_ip h) eqn:E; eexists; exists (h, p); (split; [done|]); by rewrite E.
Qed.

(** ** Resolvers of the tunnel *)

Lemma rsplit_none_iff c s : rsplit_once c s = None <-> free_of c s.
Proof.
  split; [|apply rsplit_none]. induction s as [|a s IH]; intros H; [by vm_compute|]. cbn [rsplit_once] in H.
  destruct (rsplit_once c s) as [[]|]; [done|]. destruct (Ascii.eqb_spec a c); [done|]. apply free_cons. by auto.
Qed.

Lemma split_once_some c s l r : split_once c s = Some (l, r) <-> s = l +:+ String c r /\ free_of c l.
Proof.
  split; [|intros [-> Hf]; by apply split_once_free].
  revert l r. induction s as [|a s IH]; intros l r; cbn [split_once]; [done|].
  destruct (Ascii.eqb_spec a c) as [->|Hne]; [by intros [= <- <-]|].
  destruct (split_once c s) as [[l' r']|] eqn:E; [|done]. intros [= <- <-]. destruct (IH l' r' eq_refl) as [-> Hf].
  rewrite append_cons, free_cons. done.
Qed.

Lemma split_once_none c s : split_once c s = None <-> free_of c s.
Proof.
  split.
  - induction s as [|a s IH]; intros H; [by vm_compute|]. cbn [split_once] in H. destruct (Ascii.eqb_spec a c); [done|].
    destruct (split_once c s) as [[]|]; [done|]. apply free_cons. by auto.
  - induction s as [|a s IH]; intros Hf; cbn [split_once]; [done|]. apply free_cons in Hf as [Hne Hf].
    rewrite (proj2 (Ascii.eqb_neq _ _)) by done. by rewrite IH.
Qed.

(** A host, with a port after the last colon if there is one. *)
Definition authority_ok (a : string) : Prop :=
  free_of ":"%char a
  \/ exists h p port, a = h +:+ ":" +:+ p /\ h <> EmptyString /\ free_of ":"%char p /\ parse_uint 65536 p = Some port.

(** The authority of what follows the scheme: up to the first slash, unless the slash
    is the last character. *)
Inductive doh_authority : string -> string -> Prop :=
| auth_whole rest : free_of "/"%char rest -> doh_authority rest rest
| auth_path a path : free_of "/"%char a -> path <> EmptyString -> doh_authority (a +:+ "/" +:+ path) a
| auth_slash a : free_of "/"%char a -> doh_authority (a +:+ "/") (a +:+ "/").

Definition udp_server (s : string) : Prop :=
  starts_with "https://" s = false /\ starts_with "tls://" s = false
  /\ (if char_contains ":"%char s then is_Some (parse_socket_addr s) else is_Some (parse_ip s)).

Definition doh_server (s : string) : Prop :=
  exists rest a, s = "https://" +:+ rest /\ rest <> EmptyString /\ doh_authority rest a /\ authority_ok a.

Definition dot_server (s : string) : Prop :=
  (exists rest, s = "tls://" +:+ rest /\ rest <> EmptyString /\ authority_ok rest)
  \/ strip_prefix "tls://" s = None /\ s <> EmptyString /\ authority_ok s.

Lemma authority_split a (def : Z) msg what url :
  (exists hp, match rsplit_once ":"%char a with
              | Some (host, port_str) =>
                if bool_decide (host = EmptyString) then Err (bail msg) else
                port ← parse_port port_str what url; Ok (host, port)
              | None => Ok (a, def)
              end = Ok hp) <-> authority_ok a.
Proof.
  unfold authority_ok, parse_port. destruct (rsplit_once ":"%char a) as [[h p]|] eqn:E.
  - apply rsplit_some in E as [-> Hf]. case_bool_decide as Hh.
    + split; [by intros [? ?]|]. subst h. intros [Hc|(h & p' & port & He & Hh & Hfp & _)].
      * by apply rsplit_none in Hc; rewrite rsplit_once_free in Hc.
      * destruct h as [|b h]; [done|]. apply (f_equal (rsplit_once ":"%char)) in He. change (":" +:+ p') with (String ":"%char p') in He.
        rewrite !rsplit_once_free in He by done. done.
    + split.
      * intros (hp & H). right. destruct (parse_uint 65536 p) as [port|] eqn:Ep; [|done]. by exists h, p, port.
      * intros [Hc|(h' & p' & port & He & Hh' & Hfp & Hp)].
        { by apply rsplit_none in Hc; rewrite rsplit_once_free in Hc. }
        apply (f_equal (rsplit_once ":"%char)) in He. change (":" +:+ p') with (String ":"%char p') in He.
        rewrite !rsplit_once_free in He by done. injection He as <- <-. rewrite Hp. by eexists.
  - apply rsplit_none_iff in E. split; [by left|]. by eexists.
Qed.

Lemma doh_authority_split rest a :
  (match split_once "/"%char rest with
   | Some (auth, path) => if bool_decide (path = EmptyString) then rest else auth
   | None => rest
   end) = a <-> doh_authority rest a.
Proof.
  split.
  - intros <-. destruct (split_once "/"%char rest) as [[l r]|] eqn:E.
    + apply split_once_some in E as [-> Hf]. case_bool_decide as Hr; [subst r; by apply auth_slash|by apply auth_path].
    + apply split_once_none in E. by constructor.
  - intros [rest' Hf|a' path Hf Hp|a' Hf].
    + by rewrite (proj2 (split_once_none _ _)).
    + change ("/" +:+ path) with (String "/"%char path). by rewrite split_once_free, bool_decide_false.
    + change "/"%string with (String "/"%char EmptyString). by rewrite split_once_free, bool_decide_true.
Qed.

Lemma parse_doh_url_ok url : (exists cfg, parse_doh_url url = Ok cfg) <-> doh_server url.
Proof.
  unfold parse_doh_url, doh_server. split.
  - intros (cfg & H). destruct (strip_prefix "https://" url) as [rest|] eqn:E; [|done]. apply strip_prefix_some in E as ->.
    case_bool_decide as Hr; [done|]. exists rest. eexists. split_and!; [done..|by apply doh_authority_split|].
    destruct (split_once "/"%char rest) as [[l r]|]; [case_bool_decide|]; apply bind_ok in H as (hp & H & _);
      eapply authority_split; eauto.
  - intros (rest & a & -> & Hr & Ha & Hok). rewrite strip_prefix_app, bool_decide_false by done. apply doh_authority_split in Ha.
    apply (authority_split _ 443 ("invalid DoH URL host in " +:+ "https://" +:+ rest) "DoH URL" ("https://" +:+ rest)) in Hok as [[h p] Hok].
    destruct (split_once "/"%char rest) as [[l r]|]; [case_bool_decide|]; subst a; rewrite Hok; by eexists.
Qed.

Lemma parse_dot_ok s : (exists cfg, parse_dot_upstream s = Ok cfg) <-> dot_server s.
Proof.
  unfold parse_dot_upstream, dot_server.
  assert (H : forall v, (exists cfg, (if bool_decide (v = EmptyString) then Err (bail "empty DoT upstream") else
      '(host, port) ← match rsplit_once ":"%char v with
        | Some (host, port_str) =>
          if bool_decide (host = EmptyString) then Err (bail ("invalid DoT upstream host in " +:+ v)) else
          port ← parse_port port_str "DoT upstream" v; Ok (host, port)
        | None => Ok (v, 853) end;
      Ok {| dot_host := host; dot_port := port; dot_server_name := host |}) = Ok cfg) <-> v <> EmptyString /\ authority_ok v).
  { intros v. rewrite <- (authority_split v 853 ("invalid DoT upstream host in " +:+ v) "DoT upstream" v). case_bool_decide; [naive_solver|].
    setoid_rewrite bind_ok. split; [naive_solver|]. intros (_ & [h p] & Hp). eauto. }
  cbn zeta. destruct (strip_prefix "tls://" s) as [rest|] eqn:E.
  - apply strip_prefix_some in E as ->. setoid_rewrite H. split; [eauto|].
    intros [(rest' & He & Hr)|[? _]]; [|done]. apply (inj (String.append _)) in He as ->. done.
  - setoid_rewrite H. split; [by right|]. intros [(rest & -> & _)|[_ ?]]; [|done]. by rewrite strip_prefix_app in E.
Qed.

(** The connector is built when every system certificate can be added. *)
Definition connector_ok (setup : TlsSetup) : Prop := Forall (fun c => c = None) (ts_roots setup) /\ ts_versions setup = None.

Lemma connector_iff setup : system_tls_connector setup = Ok tt <-> connector_ok setup.
Proof.
  unfold system_tls_connector, connector_ok. rewrite then_ok.
  assert (H : add_roots (ts_roots setup) = Ok tt <-> Forall (fun c => c = None) (ts_roots setup)).
  { induction (ts_roots setup) as [|[e|] l IH]; cbn [add_roots]; rewrite ?Forall_cons, ?Forall_nil; naive_solver. }
  rewrite H. destruct (ts_versions setup); naive_solver.
Qed.

Definition resolver_ok (setup : TlsSetup) (d : TunDnsConfig) : Prop :=
  exists s, dn_server d = Some s
    /\ (dn_mode d = "udp"%string /\ udp_server s
        \/ dn_mode d = "doh"%string /\ doh_server s /\ connector_ok setup
        \/ dn_mode d = "dot"%string /\ dot_server s /\ connector_ok setup).

Lemma parse_dns_upstream_ok s : (exists a, parse_dns_upstream s = Ok a) <-> udp_server s.
Proof.
  unfold parse_dns_upstream, udp_server. destruct (starts_with "https://" s), (starts_with "tls://" s); try naive_solver.
  destruct (char_contains _ s); [destruct (parse_socket_addr s)|destruct (parse_ip s)]; split; try naive_solver;
    intros (_ & _ & H); by inversion H.
Qed.

Lemma after_connector {A} (r : res anyhow A) (setup : TlsSetup) (P : Prop) :
  ((exists a, r = Ok a) <-> P) ->
  (exists a, (p ← r; _ ← system_tls_connector setup; Ok p) = Ok a) <-> P /\ connector_ok setup.
Proof.
  intros <-. rewrite <- connector_iff. destruct r as [a|e|]; [|naive_solver..].
  destruct (system_tls_connector setup) as [[]| |]; naive_solver.
Qed.

Lemma mapped_ok {A B} (r : res anyhow A) (f : A -> B) : (exists b, (a ← r; Ok (f a)) = Ok b) <-> exists a, r = Ok a.
Proof. destruct r as [a|e|]; cbn; naive_solver. Qed.

Lemma handler_ok setup d : (exists h, handler_from_config setup d = Ok h) <-> resolver_ok setup d.
Proof.
  unfold handler_from_config, resolver_ok, doh_from_server_url, dot_from_server_url.
  destruct (dn_server d) as [s|]; [|split; [by intros [? ?]|by intros (? & ? & _)]].
  pose proof (parse_dns_upstream_ok s) as Hu.
  pose proof (after_connector _ setup _ (parse_doh_url_ok s)) as Hd. pose proof (after_connector _ setup _ (parse_dot_ok s)) as Ht.
  rewrite <- (mapped_ok _ UdpForward) in Hu. rewrite <- (mapped_ok _ Doh) in Hd. rewrite <- (mapped_ok _ Dot) in Ht.
  assert (Hs : forall P : string -> Prop, (exists s', Some s = Some s' /\ P s') <-> P s) by naive_solver.
  rewrite (Hs (fun s => _)). clear Hs.
  destruct (String.eqb_spec (dn_mode d) "udp") as [->|H1]; [rewrite Hu; intuition congruence|].
  destruct (String.eqb_spec (dn_mode d) "doh") as [->|H2]; [rewrite Hd; intuition congruence|].
  destruct (String.eqb_spec (dn_mode d) "dot") as [->|H3]; [rewrite Ht; intuition congruence|].
  split; [by intros [? ?]|]. by intros [[? _]|[[? _]|[? _]]].
Qed.

(** ** Sections *)

Section Spec.
Context (host : ClientHost).

Definition tun_ok (t : TunConfig) : Prop :=
  tn_enabled t = true ->
  is_Some (parse_ip (tn_address t)) /\ is_Some (parse_ip (tn_gateway t)) /\ is_Some (parse_ip (tn_netmask t))
  /\ tn_name t <> EmptyString
  /\ 576 <= tn_mtu t
  /\ tn_pmtud t ∈ ["off"; "static"; "probe"]%string
  /\ tn_mtu_overhead t <= 500
  /\ rc_table (tn_routing t) <> 0 /\ rc_table (tn_routing t) <= 252
  /\ Forall (fun s => exists a, parse_ip s = Some (V4 a)) (rc_bypass (tn_routing t))
  /\ (dn_hijack (tn_dns t) = true -> resolver_ok (client_tls host) (tn_dns t)).

Lemma parsed_then {A} (o : option A) msg (k : res anyhow unit) : (_ ← ok_or o msg; k) = Ok tt <-> is_Some o /\ k = Ok tt.
Proof. unfold is_Some. destruct o; cbn; naive_solver. Qed.

Lemma pmtud_then s (k : res anyhow unit) : (_ ← parse_pmtud_mode s; k) = Ok tt <-> s ∈ ["off"; "static"; "probe"]%string /\ k = Ok tt.
Proof.
  unfold parse_pmtud_mode. rewrite !elem_of_cons, elem_of_nil.
  destruct (String.eqb_spec s "off") as [->|]; [cbn; tauto|]. destruct (String.eqb_spec s "static") as [->|]; [cbn; tauto|].
  destruct (String.eqb_spec s "probe") as [->|]; [cbn; tauto|]. split; [done|]. by intros [[?|[?|[?|[]]]] _].
Qed.

Lemma bypass_then l field (k : res anyhow unit) :
  (_ ← parse_ipv4_list l field; k) = Ok tt <-> Forall (fun s => exists a, parse_ip s = Some (V4 a)) l /\ k = Ok tt.
Proof.
  assert (H : (exists vs, parse_ipv4_list l field = Ok vs) <-> Forall (fun s => exists a, parse_ip s = Some (V4 a)) l).
  { induction l as [|s l IH]; cbn [parse_ipv4_list]; [rewrite Forall_nil; naive_solver|]. rewrite Forall_cons, <- IH. unfold client_parse_ip.
    destruct (parse_ip s) as [[v4|v6]|]; cbn [ok_or mbind res_bind]; [|naive_solver..].
    rewrite (mapped_ok _ (cons v4)). naive_solver. }
  rewrite <- H, bind_ok. naive_solver.
Qed.

Lemma hijack_ok d : dn_hijack d = true ->
  (_ ← intercept_from_config (client_tls host) d; Ok tt) = @Ok anyhow _ tt <-> resolver_ok (client_tls host) d.
Proof.
  intros Hh. rewrite <- handler_ok. unfold intercept_from_config. rewrite Hh.
  destruct (handler_from_config (client_tls host) d); cbn; naive_solver.
Qed.

Lemma tun_validate_ok t : tun_validate host t = Ok tt <-> tun_ok t.
Proof.
  unfold tun_validate, tun_ok, client_parse_ip. destruct (tn_enabled t); cbn [negb]; [|naive_solver].
  rewrite !parsed_then, !then_ok, pmtud_then, !then_ok, bypass_then, then_ok, !bail_if_ok, bool_decide_eq_false, !Z.ltb_ge, orb_false_iff,
    Z.eqb_neq, Z.ltb_ge.
  assert (Hd : ((dn_hijack (tn_dns t) && negb (is_some (dn_server (tn_dns t))) = false)
      /\ (if dn_hijack (tn_dns t) then _ ← intercept_from_config (client_tls host) (tn_dns t); Ok tt else Ok tt) = @Ok anyhow _ tt)
    <-> (dn_hijack (tn_dns t) = true -> resolver_ok (client_tls host) (tn_dns t))).
  { destruct (dn_hijack (tn_dns t)) eqn:E; [|naive_solver]. rewrite hijack_ok by done. cbn [andb].
    split; [naive_solver|]. intros H. split; [|naive_solver]. destruct (H eq_refl) as (s & -> & _). done. }
  rewrite Hd. tauto.
Qed.

Definition remote_reality_ok (r : RemoteRealityConfig) : Prop :=
  exists password short_id name pk sid,
    rr_password r = Some password /\ rr_short_id r = Some short_id /\ rr_server_name r = Some name /\ name <> EmptyString
    /\ (url_safe_decode host password = inr pk \/ (exists e, url_safe_decode host password = inl e) /\ standard_decode host password = inr pk)
    /\ length pk = 32%nat
    /\ client_hex_decode host short_id = inr sid /\ (1 <= length sid <= 8)%nat
    /\ kex_known (rr_kex_mode r).

Lemma decode_public_key_ok password pk : decode_public_key host password = Ok pk <->
  (url_safe_decode host password = inr pk \/ (exists e, url_safe_decode host password = inl e) /\ standard_decode host password = inr pk)
  /\ length pk = 32%nat.
Proof.
  unfold decode_public_key. destruct (url_safe_decode host password) as [e|b]; [destruct (standard_decode host password) as [e'|b]|];
    rewrite ?then_ok, ?bail_if_ok, ?negb_false_iff, ?Nat.eqb_eq; naive_solver.
Qed.

Lemma decode_short_id_ok s sid : decode_client_short_id host s = Ok sid <-> client_hex_decode host s = inr sid /\ (1 <= length sid <= 8)%nat.
Proof.
  unfold decode_client_short_id. destruct (client_hex_decode host s) as [e|b]; [naive_solver|].
  rewrite then_ok, bail_if_ok, orb_false_iff, Nat.eqb_neq, Nat.ltb_ge. split.
  - intros [[? ?] [= <-]]. split; [done|lia].
  - intros [[= <-] ?]. split; [lia|done].
Qed.

Lemma parse_reality_client_ok r : parse_reality_client host r = Ok tt <-> remote_reality_ok r.
Proof.
  unfold parse_reality_client, remote_reality_ok. split.
  - intros H. apply bind_ok in H as (p & Hp & H). apply bind_ok in H as (s & Hs & H). apply bind_ok in H as (n & Hn & H).
    apply then_ok in H as [He H]. apply bind_ok in H as (pk & Hpk & H). apply bind_ok in H as (sid & Hsid & H).
    apply ok_or_ok in Hp, Hs, Hn. apply bail_if_ok, bool_decide_eq_false in He. apply decode_public_key_ok in Hpk as [? ?].
    apply decode_short_id_ok in Hsid as [? ?]. apply kex_then_ok in H. by exists p, s, n, pk, sid.
  - intros (p & s & n & pk & sid & -> & -> & -> & Hn & Hpk & Hl & Hsid & Hsl & Hk). rewrite !ok_or_some. cbn [mbind res_bind].
    rewrite then_ok, bail_if_ok, bool_decide_eq_false, bind_ok. split; [done|]. exists pk. rewrite decode_public_key_ok. split; [done|].
    rewrite bind_ok. exists sid. by rewrite decode_short_id_ok, kex_then_ok.
Qed.

Definition remote_xhttp_ok (x : RemoteXhttpConfig) : Prop :=
  not_blank (rx_path x)
  /\ rx_mode x ∈ [""; "auto"; "packet-up"; "stream-up"; "stream-one"]%string
  /\ forall min max, rx_x_padding_bytes x = Some (min, max) -> min <= max.

Lemma parse_remote_xhttp_ok x : parse_remote_xhttp x = Ok tt <-> remote_xhttp_ok x.
Proof.
  unfold parse_remote_xhttp, remote_xhttp_ok. rewrite !then_ok, !bail_if_ok, blank_false, negb_false_iff, mode_parse_ok.
  destruct (rx_x_padding_bytes x) as [[min max]|]; [rewrite bail_if_ok, Z.ltb_ge|]; naive_solver.
Qed.

Definition server_addr (s : string) : Prop := exists h port, host_port s h port.
Definition socket_addr (s : string) : Prop := is_Some (parse_socket_addr s).

Definition remote_ok (r : RemoteConfig) : Prop :=
  server_addr (rm_server r)
  /\ (exists u, uuid_parse (rm_uuid r) = Ok u)
  /\ ~ (rt_enabled (rm_tls r) = true /\ rr_enabled (rm_reality r) = true)
  /\ (rt_enabled (rm_tls r) = true -> kex_known (rt_kex_mode (rm_tls r)))
  /\ (rr_enabled (rm_reality r) = true -> remote_reality_ok (rm_reality r))
  /\ (rx_enabled (rm_xhttp r) = true -> remote_xhttp_ok (rm_xhttp r)).

Lemma server_then s (k : res anyhow unit) : (_ ← parse_server_endpoint s; k) = Ok tt <-> server_addr s /\ k = Ok tt.
Proof. unfold server_addr. rewrite bind_ok, <- server_endpoint_ok. naive_solver. Qed.

Lemma uuid_then field s (k : res anyhow unit) : (_ ← client_uuid field s; k) = Ok tt <-> (exists u, uuid_parse s = Ok u) /\ k = Ok tt.
Proof. unfold client_uuid. rewrite bind_ok. setoid_rewrite map_err_ok. naive_solver. Qed.

Lemma socket_then s field (k : res anyhow unit) :
  (_ ← client_parse_socket_addr s field; k) = Ok tt <-> socket_addr s /\ k = Ok tt.
Proof. apply parsed_then. Qed.

Lemma validate_remote_ok r : validate_remote host r = Ok tt <-> remote_ok r.
Proof.
  unfold validate_remote, remote_ok. rewrite server_then, uuid_then, !then_ok, bail_if_ok.
  rewrite (when_ok _ _ _ (kex_then_ok _ _)), (when_ok _ _ _ (parse_reality_client_ok _)), (when_ok _ _ _ (parse_remote_xhttp_ok _)).
  by rewrite <- andb_true_iff, not_true_iff_false.
Qed.

Definition client_awg_ok (a : AwgClientFileConfig) : Prop :=
  not_blank (ac_private_key a) /\ not_blank (ac_server_public_key a) /\ socket_addr (ac_endpoint a) /\ ac_allowed_ips a <> [].

Lemma client_awg_iff a : client_validate_awg a = Ok tt <-> client_awg_ok a.
Proof. unfold client_validate_awg, client_awg_ok. by rewrite !then_ok, socket_then, !bail_if_ok, !blank_false, nonempty_ok. Qed.

Definition client_hysteria2_ok (c : ClientConfig) (h : Hysteria2ClientFileConfig) : Prop :=
  server_addr (h2_server h) /\ not_blank (h2_password h)
  /\ socket_addr (resolve_sidecar_socks5 c (h2_socks5_listen h))
  /\ forall http, h2_http_listen h = Some http -> socket_addr http.

Lemma client_hysteria2_iff c h : client_validate_hysteria2 c h = Ok tt <-> client_hysteria2_ok c h.
Proof.
  unfold client_validate_hysteria2, client_hysteria2_ok. rewrite server_then, then_ok, socket_then, bail_if_ok, blank_false.
  destruct (h2_http_listen h); [rewrite socket_then|]; naive_solver.
Qed.

Definition client_tuic_ok (c : ClientConfig) (t : TuicClientFileConfig) : Prop :=
  server_addr (ClientConfig.tf_server t) /\ (exists u, uuid_parse (ClientConfig.tf_uuid t) = Ok u) /\ not_blank (ClientConfig.tf_password t)
  /\ socket_addr (resolve_sidecar_socks5 c (tf_socks5_listen t)).

Lemma client_tuic_iff c t : client_validate_tuic c t = Ok tt <-> client_tuic_ok c t.
Proof.
  unfold client_validate_tuic, client_tuic_ok. rewrite server_then, uuid_then, then_ok, socket_then, bail_if_ok, blank_false. tauto.
Qed.

(** The inbound: an address with complete users, or no users at all. *)
Definition inbound_ok (c : ClientListenConfig) : Prop :=
  match cl_listen c with
  | Some listen =>
    socket_addr listen /\ (cs_auth (cl_socks5 c) = UserPass -> cs_users (cl_socks5 c) <> [])
    /\ Forall (fun u => username u <> EmptyString /\ password u <> EmptyString) (cs_users (cl_socks5 c))
  | None => cs_auth (cl_socks5 c) = NoAuth /\ cs_users (cl_socks5 c) = []
  end.

Lemma check_users_ok i users : check_users i users = Ok tt <-> Forall (fun u => username u <> EmptyString /\ password u <> EmptyString) users.
Proof.
  revert i. induction users as [|u users IH]; intros i; cbn [check_users]; [by rewrite Forall_nil|].
  rewrite !then_ok, !bail_if_ok, !bool_decide_eq_false, IH, Forall_cons. tauto.
Qed.

Lemma validate_listen_ok c : validate_listen c = Ok tt <-> inbound_ok (k_client c).
Proof.
  unfold validate_listen, inbound_ok, socks5_validate. destruct (cl_listen _).
  - rewrite socket_then, then_ok, check_users_ok, bail_if_ok, andb_false_iff, bool_decide_eq_false, nonempty_ok.
    destruct (cs_auth _); intuition congruence.
  - rewrite bail_if_ok, orb_false_iff, !negb_false_iff, bool_decide_eq_true, Nat.eqb_eq, length_zero_iff_nil. done.
Qed.

Definition one_mode (c : ClientConfig) : Prop :=
  match k_remote c, k_awg c, k_hysteria2 c, k_tuic c with
  | Some _, None, None, None | None, Some _, None, None | None, None, Some _, None | None, None, None, Some _ => True
  | _, _, _, _ => False
  end.

Definition client_ok (c : ClientConfig) : Prop :=
  one_mode c
  /\ (k_remote c <> None -> cl_listen (k_client c) <> None \/ tn_enabled (cl_tun (k_client c)) = true)
  /\ inbound_ok (k_client c)
  /\ (forall r, k_remote c = Some r -> remote_ok r)
  /\ (forall a, k_awg c = Some a -> client_awg_ok a)
  /\ (forall h, k_hysteria2 c = Some h -> client_hysteria2_ok c h)
  /\ (forall t, k_tuic c = Some t -> client_tuic_ok c t)
  /\ (tn_enabled (cl_tun (k_client c)) = true -> k_hysteria2 c = None /\ k_tuic c = None)
  /\ tun_ok (cl_tun (k_client c)).

Lemma when_some_ok {A} (o : option A) f (P : A -> Prop) :
  (forall a, f a = Ok tt <-> P a) -> when_some o f = Ok tt <-> forall a, o = Some a -> P a.
Proof. intros H. destruct o as [a|]; cbn; [rewrite H|]; naive_solver. Qed.

(** The checks of which parts are present, against their reading. *)
Lemma modes_ok c :
  (negb (count_modes c =? 1)%nat = false
   /\ negb (is_some (cl_listen (k_client c))) && negb (tn_enabled (cl_tun (k_client c)))
      && negb (is_some (k_awg c) || is_some (k_hysteria2 c) || is_some (k_tuic c)) = false
   /\ (is_some (k_hysteria2 c) || is_some (k_tuic c)) && tn_enabled (cl_tun (k_client c)) = false)
  <-> one_mode c
      /\ (k_remote c <> None -> cl_listen (k_client c) <> None \/ tn_enabled (cl_tun (k_client c)) = true)
      /\ (tn_enabled (cl_tun (k_client c)) = true -> k_hysteria2 c = None /\ k_tuic c = None).
Proof.
  unfold count_modes, one_mode.
  destruct (k_remote c), (k_awg c), (k_hysteria2 c), (k_tuic c), (cl_listen (k_client c)), (tn_enabled (cl_tun (k_client c)));
    cbn; intuition (done || congruence).
Qed.

Lemma client_validate_ok c : client_validate host c = Ok tt <-> client_ok c.
Proof.
  unfold client_validate, client_ok. cbn zeta. rewrite !then_ok, !bail_if_ok, validate_listen_ok, tun_validate_ok.
  rewrite (when_some_ok _ _ _ validate_remote_ok), (when_some_ok _ _ _ client_awg_iff), (when_some_ok _ _ _ (client_hysteria2_iff c)),
    (when_some_ok _ _ _ (client_tuic_iff c)).
  pose proof (modes_ok c). tauto.
Qed.

(** ** No panic *)

Lemma server_endpoint_calm s : parse_server_endpoint s <> Panic.
Proof. unfold parse_server_endpoint, split_host_port, server_port. calm. Qed.
Lemma client_uuid_calm field s : client_uuid field s <> Panic.
Proof. apply map_err_no_panic, uuid_parse_no_panic. Qed.
Lemma parse_ipv4_list_calm l field : parse_ipv4_list l field <> Panic.
Proof. unfold client_parse_ip. induction l; cbn [parse_ipv4_list]; unfold client_parse_ip; calm. Qed.
Lemma parse_pmtud_calm s : parse_pmtud_mode s <> Panic.
Proof. unfold parse_pmtud_mode. calm. Qed.
Lemma connector_calm setup : system_tls_connector setup <> Panic.
Proof.
  unfold system_tls_connector. assert (add_roots (ts_roots setup) <> Panic).
  { induction (ts_roots setup) as [|[]]; cbn [add_roots]; by auto. }
  calm.
Qed.
Lemma intercept_calm setup d : intercept_from_config setup d <> Panic.
Proof.
  pose proof (connector_calm setup). unfold intercept_from_config, handler_from_config, parse_dns_upstream, doh_from_server_url, dot_from_server_url,
    parse_doh_url, parse_dot_upstream, parse_port. cbn zeta. calm.
Qed.
Lemma check_users_calm i users : check_users i users <> Panic.
Proof. revert i. induction users; intros i; cbn [check_users]; calm. Qed.
#[local] Hint Resolve server_endpoint_calm client_uuid_calm parse_ipv4_list_calm parse_pmtud_calm intercept_calm check_users_calm : calm.

Lemma tun_validate_calm t : tun_validate host t <> Panic.
Proof. unfold tun_validate, client_parse_ip. calm. Qed.
Lemma validate_listen_calm c : validate_listen c <> Panic.
Proof. unfold validate_listen, socks5_validate, client_parse_socket_addr. calm. Qed.
Lemma decode_public_key_calm p : decode_public_key host p <> Panic.
Proof. unfold decode_public_key. calm. Qed.
Lemma decode_short_id_calm p : decode_client_short_id host p <> Panic.
Proof. unfold decode_client_short_id. calm. Qed.
#[local] Hint Resolve tun_validate_calm validate_listen_calm decode_public_key_calm decode_short_id_calm : calm.

Lemma validate_remote_calm r : validate_remote host r <> Panic.
Proof. unfold validate_remote, parse_reality_client, parse_remote_xhttp. calm. Qed.
#[local] Hint Resolve validate_remote_calm : calm.

Lemma client_validate_calm c : client_validate host c <> Panic.
Proof.
  unfold client_validate, when_some, client_validate_awg, client_validate_hysteria2, client_validate_tuic, client_parse_socket_addr.
  cbn zeta. calm.
Qed.

(** ** What follows for the derived configurations *)

Lemma valid_remote c r : client_validate host c = Ok tt -> k_remote c = Some r -> remote_ok r.
Proof. intros Hv Hr. apply client_validate_ok in Hv. destruct Hv as (_ & _ & _ & H & _). by apply H. Qed.

Lemma valid_endpoint c r : client_validate host c = Ok tt -> k_remote c = Some r ->
  exists h port, host_port (rm_server r) h port
    /\ proxy_endpoint c = Ok (match parse_ip h with Some ip => Ip (SocketAddr_new ip port) | None => Domain h port end)
    /\ tls_sni_endpoint c = match rt_server_name (rm_tls r) with Some name => Ok (Domain name port) | None => proxy_endpoint c end.
Proof.
  intros Hv Hr. destruct (valid_remote c r Hv Hr) as ((h & port & Hs) & _). exists h, port. split; [done|].
  apply split_host_port_ok in Hs. unfold tls_sni_endpoint, proxy_endpoint, the_remote. rewrite Hr. cbn [ok_or mbind res_bind].
  unfold parse_server_endpoint. rewrite Hs. cbn [mbind res_bind]. split; [by destruct (parse_ip h)|]. by destruct (rt_server_name _).
Qed.

Lemma valid_uuid c r : client_validate host c = Ok tt -> k_remote c = Some r ->
  exists u, uuid_parse (rm_uuid r) = Ok u /\ client_uuid_bytes c = Ok (uuid_bytes u).
Proof.
  intros Hv Hr. destruct (valid_remote c r Hv Hr) as (_ & (u & Hu) & _). exists u. split; [done|].
  unfold client_uuid_bytes, the_remote. rewrite Hr. cbn [ok_or mbind res_bind]. by rewrite Hu.
Qed.

Lemma valid_tls c r : client_validate host c = Ok tt -> k_remote c = Some r -> rt_enabled (rm_tls r) = true ->
  exists kex, client_tls_config c = Ok {| cc_ca_file := rt_ca_file (rm_tls r); cc_client_cert := None; cc_client_key := None;
    cc_kex_mode := kex; cc_alpn_http1_only := rx_enabled (rm_xhttp r) |}.
Proof.
  intros Hv Hr Ht. destruct (valid_remote c r Hv Hr) as (_ & _ & Hb & Hk & _). apply Hk in Ht as Hkex.
  unfold client_tls_config, the_remote. rewrite Hr. cbn [ok_or mbind res_bind].
  destruct (rr_enabled (rm_reality r)); [by destruct Hb|]. cbn [bail_if mbind res_bind].
  apply (kex_ok _ "remote.tls.kex_mode") in Hkex as (kex & ->). by exists kex.
Qed.

(** The key has 32 bytes, so that copying it does not panic. *)
Lemma valid_reality c r : client_validate host c = Ok tt -> k_remote c = Some r -> rr_enabled (rm_reality r) = true ->
  exists cfg, reality_tls_client_config host c = Ok cfg /\ length (rlc_server_public_key cfg) = 32%nat
    /\ (1 <= length (rlc_short_id cfg) <= 8)%nat /\ rr_server_name (rm_reality r) = Some (rlc_server_name cfg)
    /\ rlc_server_name cfg <> EmptyString /\ rlc_alpn_http1_only cfg = rx_enabled (rm_xhttp r).
Proof.
  intros Hv Hr Ht. destruct (valid_remote c r Hv Hr) as (_ & _ & _ & _ & Hk & _).
  destruct (Hk Ht) as (p & s & n & pk & sid & Hp & Hs & Hn & Hne & Hpk & Hl & Hsid & Hsl & Hkex).
  unfold reality_tls_client_config, the_remote. rewrite Hr. cbn [ok_or mbind res_bind]. rewrite Ht, Hp, Hs, Hn.
  cbn [negb bail_if ok_or mbind res_bind]. rewrite (proj2 (decode_public_key_ok p pk)) by done. cbn [mbind res_bind].
  rewrite (proj2 (decode_short_id_ok s sid)) by done. cbn [mbind res_bind]. rewrite Hl. cbn [Nat.eqb mbind res_bind].
  apply (kex_ok _ "remote.reality.kex_mode") in Hkex as (kex & ->). cbn [mbind res_bind]. by eexists.
Qed.

Lemma valid_xhttp c r : client_validate host c = Ok tt -> k_remote c = Some r ->
  exists x, xhttp_client_config c = Ok x /\ (is_Some x <-> rx_enabled (rm_xhttp r) = true).
Proof.
  intros Hv Hr. destruct (valid_remote c r Hv Hr) as (_ & _ & _ & _ & _ & Hx). unfold xhttp_client_config. rewrite Hr.
  destruct (rx_enabled (rm_xhttp r)) eqn:E; cbn [negb]; [|exists None; split; [done|]; split; [by intros []|done]].
  destruct (Hx eq_refl) as (_ & Hm & Hpad). apply mode_parse_ok in Hm. destruct (mode_parse _) as [m|]; [|done]. cbn [ok_or mbind res_bind].
  destruct (rx_x_padding_bytes _) as [[min max]|] eqn:Ep.
  - rewrite (proj2 (Z.ltb_ge max min)) by (by apply Hpad). cbn [bail_if mbind res_bind]. eexists. split; [done|]. by split.
  - cbn [mbind res_bind]. eexists. split; [done|]. by split.
Qed.
End Spec.

(** ** Properties *)

(** C14: the check of the client's configuration decides what a valid configuration is.
    Whatever the file says, [ClientConfig::validate] ends without a panic and
    succeeds exactly when one mode is set, VLESS has an inbound, the inbound has an
    address and complete users or none at all, the section of the mode is complete
    (a server as [host:port] or [[host]:port], a UUID, not both TLS and REALITY, keys
    of 32 bytes and short ids of 1 to 8, a known XHTTP mode), and the tunnel is used
    with VLESS or AWG only, with addresses, MTU, table and a resolver that fits its
    mode. *)
Theorem client_validate_exact (host : ClientHost) (c : ClientConfig) :
  client_validate host c <> Panic /\ (client_validate host c = Ok tt <-> client_ok host c).
Proof. split; [apply client_validate_calm|apply client_validate_ok]. Qed.
