(* ===== verification/Client.v ===== *)
(** * The client
    Models crates/skadi-client/src/outbound.rs (how the proxy is dialled and a tunnel
    opened), socks5.rs (the local SOCKS5 inbound), the start and stop of the tunnel in
    tun/mod.rs, and runner.rs (which parts run and when they stop). The network, rustls
    and the TUN device answer through parameters; the streams of an established session
    are given. *)

From Stdlib Require Import Ascii String.
From stdpp Require Import base list list_numbers numbers strings pretty gmap.
From S2P Require Import Prelude Core Io NetText Outbound Connect Tls Xhttp.
From S2P Require Import Socks5Parse Socks5 VlessParse VlessConfig Vless Relay External Config ConfigSpec OutboundTls.
From S2P Require Import XhttpClient Managers Pmtud ClientDns ClientRouting ClientTun ClientConfig ClientConfigSpec.

(** ** outbound.rs *)

(** What is outside the program while a tunnel is opened. *)
Record ProxyNet := {
  (** what the network answers to the [i]-th dial *)
  px_net : nat -> Net;
  (** the files and the certificate authorities *)
  px_pem : PemFiles unit;
  px_trust : TrustEnv;
  (** what an established connection is, for VLESS and for the HTTP exchange of XHTTP *)
  px_stream : TcpUpstream -> stream;
  px_conn : TcpUpstream -> conn;
  px_xhttp : XhttpClientIo -> stream;
  (** the random choices of the XHTTP client *)
  px_session : string;
  px_random : nat -> Z
}.

Record ClientOutbound := {
  co_transport : OutboundTcpTransport;
  co_proxy_tls : Endpoint;
  co_proxy_tcp : Endpoint;
  co_uuid : bytes;
  co_xhttp : option XhttpClientConfig
}.

(** [OutboundTcpTransport::reality] and [plain]: private addresses are allowed. *)
Definition outbound_reality (px : ProxyNet) (timeout : Z) (config : RealityTlsClientConfig) : res anyhow OutboundTcpTransport :=
  match client_versions (px_trust px) (rlc_kex_mode config) with
  | Some e => Err (Anyhow ["unsupported TLS protocol versions"; e]%string)
  | None =>
    name ← ok_or (server_name_of (px_net px O) (rlc_server_name config)) ("invalid REALITY server_name: " +:+ rlc_server_name config);
    Ok (OutReality {| reality_tcp := tcp_with_policy timeout true; sni := name |})
  end.

Definition outbound_plain (timeout : Z) : OutboundTcpTransport := plain_with_policy timeout true.

Definition outbound_from_config (host : ClientHost) (px : ProxyNet) (config : ClientConfig) : res anyhow ClientOutbound :=
  remote ← ok_or (k_remote config) "remote section not configured";
  transport ←
    (if rr_enabled (rm_reality remote) then
       cfg ← reality_tls_client_config host config; outbound_reality px client_connect_timeout cfg
     else if rt_enabled (rm_tls remote) then
       cfg ← client_tls_config config; outbound_tls (px_pem px) (px_trust px) client_connect_timeout cfg
     else Ok (outbound_plain client_connect_timeout));
  proxy_tls ← (if rr_enabled (rm_reality remote) then proxy_endpoint config else tls_sni_endpoint config);
  proxy_tcp ← proxy_endpoint config;
  uuid ← client_uuid_bytes config;
  xhttp ← xhttp_client_config config;
  Ok {| co_transport := transport; co_proxy_tls := proxy_tls; co_proxy_tcp := proxy_tcp; co_uuid := uuid; co_xhttp := xhttp |}.

(** The endpoint that [connect_proxy] dials. *)
Definition dialled_endpoint (o : ClientOutbound) : Endpoint :=
  match co_transport o with
  | OutTls _ => co_proxy_tls o
  | OutReality _ | OutPlain _ => co_proxy_tcp o
  end.

Definition proxy_dial (px : ProxyNet) (o : ClientOutbound) (i : nat) : dialed TcpUpstream :=
  OutboundTcp_connect (px_net px i) (co_transport o) (dialled_endpoint o).

Definition xhttp_error_display (e : XhttpClientError) : string :=
  match e with
  | Handshake msg => "XHTTP handshake failed: " +:+ msg
  | BadStatus status => "unexpected HTTP status " +:+ pretty status
  | ClientIo e => io_msg e
  end.

(** The closure given to [connect_xhttp]; a dial does not panic. *)
Definition xhttp_dial (px : ProxyNet) (o : ClientOutbound) (i : nat) : string + conn :=
  match (proxy_dial px o i).1 with
  | Ok up => inr (px_conn px up)
  | Err e => inl (anyhow_to_string e)
  | Panic => inl EmptyString
  end.

Definition connect_proxy (px : ProxyNet) (o : ClientOutbound) : outcome anyhow stream :=
  match co_xhttp o with
  | None =>
    match (proxy_dial px o O).1 with
    | Ok up => Done (px_stream px up)
    | Err e => Fail (add_context "remote proxy connect failed" e)
    | Panic => Crash
    end
  | Some xhttp =>
    match (connect_xhttp xhttp (px_session px) (px_random px) (xhttp_dial px o)).1 with
    | Some (Ok io) => Done (px_xhttp px io)
    | Some (Err e) => Fail (add_context "XHTTP upgrade failed" (bail (xhttp_error_display e)))
    | Some Panic => Crash
    | None => Pending
    end
  end.

(** Connect, then the VLESS handshake on the connection. *)
Definition over_proxy (px : ProxyNet) (o : ClientOutbound) (handshake : io anyhow unit) : outcome anyhow stream :=
  match connect_proxy px o with
  | Done s =>
    match handshake s with
    | (Done _, s) => Done s
    | (Fail e, _) => Fail e
    | (Crash, _) => Crash
    | (Pending, _) => Pending
    end
  | Fail e => Fail e
  | Crash => Crash
  | Pending => Pending
  end.

Definition open_tcp (px : ProxyNet) (o : ClientOutbound) (target : Endpoint) : outcome anyhow stream :=
  over_proxy px o (io_map_err (add_context "VLESS TCP handshake failed") (handshake_tcp (co_uuid o) target)).

Definition open_udp (px : ProxyNet) (o : ClientOutbound) (target : Endpoint) : outcome anyhow stream :=
  over_proxy px o (io_map_err (add_context "VLESS UDP handshake failed") (handshake_udp (co_uuid o) target)).

(** ** socks5.rs *)

(** What the session leaves: its result, the local stream and the target it asked a
    tunnel for. *)
Definition session : Type := outcome anyhow unit * stream * option Endpoint.

Section Session.
Context `{ConstantTimeEq}.
(** [Outbound::open_tcp], and tokio's copy between the local stream and the tunnel. *)
Context (open : Endpoint -> outcome anyhow stream).
Context (copy : list (Z * Relay.event) -> option ((res io_error (Z * Z)) + Relay.state)).
Context (relay : list (Z * Relay.event)).

Definition no_limits : RelayLimits := {| idle := None; max_lifetime := None |}.

(** [copy_bidirectional_with_limits(.., RelayLimits::default())], once the reply is
    sent. *)
Definition run_relay : io anyhow unit := fun s =>
  match copy_bidirectional_with_limits copy no_limits 0 relay with
  | Some (inl (Ok _)) => (Done tt, s)
  | Some (inl (Err e)) => (Fail (add_context "client relay failed" (anyhow_of_io e)), s)
  | Some (inl Panic) => (Crash, s)
  | _ => (Pending, s)
  end.

Definition in_session (opened : option Endpoint) (r : outcome anyhow unit * stream) : session := (r.1, r.2, opened).

Definition handle_session (socks5 : Socks5Config) (local : stream) : session :=
  match negotiate socks5 local with
  | (Fail err, local) =>
    in_session None ((_ ← ignore (send_error REP_GENERAL_FAILURE); fail (add_context "SOCKS5 negotiation failed" err)) local)
  | (Done req, local) =>
    in_session (Some (Socks5Parse.target req))
      (match open (Socks5Parse.target req) with
       | Done remote =>
         (_ ← io_map_err (add_context "failed to send SOCKS5 success reply") (send_reply REP_SUCCEEDED dummy_bound); run_relay) local
       | Fail err => (_ ← ignore (send_error REP_CONNECTION_REFUSED); fail err) local
       | Crash => (Crash, local)
       | Pending => (Pending, local)
       end)
  | (Crash, local) => (Crash, local, None)
  | (Pending, local) => (Pending, local, None)
  end.
End Session.

(** What the accept loop sees: a connection, a failing [accept], or a new value of the
    shutdown flag. *)
Inductive accept_event := Accepted (peer : SocketAddr) | AcceptFailed (e : io_error) | Changed (value : bool).

(** The loop: its result once it ends, and the peers whose sessions were spawned. *)
Fixpoint accept_loop (shutdown : bool) (spawned : list SocketAddr) (evs : list accept_event)
    : option (res anyhow unit) * list SocketAddr :=
  if shutdown then (Some (Ok tt), spawned) else
  match evs with
  | [] => (None, spawned)
  | Accepted peer :: evs => accept_loop shutdown (spawned ++ [peer]) evs
  | AcceptFailed e :: _ => (Some (Err (add_context "client SOCKS5 accept failed" (anyhow_of_io e))), spawned)
  | Changed value :: evs => accept_loop value spawned evs
  end.

Definition socks5_run (config : ClientConfig) (bind : SocketAddr -> option io_error) (shutdown : bool) (evs : list accept_event)
    : option (res anyhow unit) * list SocketAddr :=
  match client_listen_addr config with
  | Ok listen =>
    match bind listen with
    | Some e => (Some (Err (add_context ("failed to bind client SOCKS5 on " +:+ sock_display listen) (anyhow_of_io e))), [])
    | None => accept_loop shutdown [] evs
    end
  | Err e => (Some (Err e), [])
  | Panic => (Some Panic, [])
  end.

(** ** Start and stop of tun/mod.rs *)

Record device := { dv_name : string; dv_address : Ipv4Addr; dv_destination : Ipv4Addr; dv_netmask : Ipv4Addr; dv_mtu : Z }.

(** The resolver, the `ip` program, the probe's sockets, and why the device or the
    userspace stack cannot be had. *)
Record TunHost := {
  th_lookup : string -> io_error + list SocketAddr;
  th_ip : ip_program;
  th_probe : ProbeNet;
  th_create : device -> option string;
  th_stack : Z -> option anyhow
}.

Definition create_device (th : TunHost) (tun : TunConfig) (mtu : Z) : res anyhow device :=
  address ← ok_or (parse_ipv4_addr (tn_address tun)) "invalid client.tun.address";
  gateway ← ok_or (parse_ipv4_addr (tn_gateway tun)) "invalid client.tun.gateway";
  netmask ← ok_or (parse_ipv4_addr (tn_netmask tun)) "invalid client.tun.netmask";
  let dev := {| dv_name := tn_name tun; dv_address := address; dv_destination := gateway; dv_netmask := netmask; dv_mtu := mtu |} in
  match th_create th dev with
  | Some e => Err (add_context ("failed to create TUN device " +:+ tn_name tun) (bail e))
  | None => Ok dev
  end.

(** Dropping the guard reverts. *)
Definition drop_guard (ip : ip_program) (guard : option RoutingGuard) (h : list command) : list command :=
  match guard with
  | Some g => (guard_revert ip g h).2
  | None => h
  end.

Record tun_started := { ts_dns : DnsIntercept; ts_guard : option RoutingGuard; ts_mtu : Z; ts_device : device }.

(** [run] up to its loop, with the `ip` commands it has run. *)
Definition tun_start (tls : TlsSetup) (th : TunHost) (tun : TunConfig) (proxy_host : string) : res anyhow tun_started * list command :=
  match (dns ← intercept_from_config tls (tn_dns tun); ips ← resolve_proxy_ipv4 (th_lookup th) proxy_host; Ok (dns, ips)) with
  | Ok (dns, proxy_ips) =>
    match guard_apply (th_ip th) (tn_name tun) (tn_address tun) (tn_routing tun) proxy_ips [] with
    | (Ok guard, h) =>
      match
        mode ← parse_pmtud_mode (tn_pmtud tun);
        let mtu := resolve_effective_mtu (th_probe th) (tn_mtu tun) mode (tn_mtu_overhead tun) proxy_host in
        dev ← create_device th tun mtu;
        match th_stack th mtu with
        | Some e => Err e
        | None => Ok {| ts_dns := dns; ts_guard := guard; ts_mtu := mtu; ts_device := dev |}
        end
      with
      | Ok t => (Ok t, h)
      | Err e => (Err e, drop_guard (th_ip th) guard h)
      | Panic => (Panic, drop_guard (th_ip th) guard h)
      end
    | (Err e, h) => (Err e, h)
    | (Panic, h) => (Panic, h)
    end
  | Err e => (Err e, [])
  | Panic => (Panic, [])
  end.

(** The end of [run] after the shutdown: the guard is reverted, then dropped. *)
Definition tun_stop (th : TunHost) (t : tun_started) (h : list command) : list command :=
  match ts_guard t with
  | Some g => let '(g, h) := guard_revert (th_ip th) g h in drop_guard (th_ip th) (Some g) h
  | None => h
  end.

(** ** runner.rs *)

Inductive client_task := TaskSocks5 | TaskTun.

#[export] Instance client_task_eq_dec : EqDecision client_task.
Proof. solve_decision. Defined.

(** Linux, where the tunnel is supported. *)
Definition client_tasks (config : ClientConfig) : list client_task :=
  (if is_some (cl_listen (k_client config)) then [TaskSocks5] else [])
  ++ (if tn_enabled (cl_tun (k_client config)) then [TaskTun] else []).

(** What happens while the runner waits: a spawned task ends by itself, the flag gets
    a value, or its sender is dropped. *)
Inductive runner_event := TaskEnds (t : client_task) (r : res anyhow unit) | SetShutdown (value : bool) | SenderDropped.

(** The loop of [run]; the second component are the tasks still alive when it ends,
    which are aborted. *)
Fixpoint runner_loop (shutdown : bool) (alive : list client_task) (evs : list runner_event)
    : option (res anyhow unit) * list client_task :=
  if shutdown then (Some (Ok tt), alive) else
  match evs with
  | [] => (None, alive)
  | TaskEnds t _ :: evs => runner_loop shutdown (filter (fun t' => t' <> t) alive) evs
  | SetShutdown value :: evs => runner_loop value alive evs
  | SenderDropped :: _ => (Some (Ok tt), alive)
  end.

(** The end of a manager, as the client reports it: none while it runs or is held in
    its stop by a child that does not go away. *)
Definition run_sidecar (label : string) (m : manager_run) : option (res anyhow unit) :=
  match m with
  | StartFailed e => Some (Err (bail ("failed to start " +:+ label +:+ " client: " +:+ e)))
  | RunFailed e => Some (Err (bail (label +:+ " client stopped with error: " +:+ e)))
  | Stopped => Some (Ok tt)
  | StillRunning | Stopping => None
  | Panicked => Some Panic
  end.

Definition configured {A} (r : res anyhow A) (k : A -> option (res anyhow unit)) : option (res anyhow unit) :=
  match r with
  | Ok a => k a
  | Err e => Some (Err e)
  | Panic => Some Panic
  end.

Section Runner.
Context (sy : System) (wg : WgCrates).
(** The answers of an external core's process and the shutdown flag, as its manager
    sees them. *)
Context (polls : list ((string + bool) * bool)).

Definition run_awg_client (config : ClientConfig) (shutdown : bool) : option (res anyhow unit) :=
  configured (awg_runtime_config config) (fun c => run_sidecar "AWG" (awg_client_run sy wg c shutdown polls).1).

Definition run_hysteria2_client (config : ClientConfig) (shutdown : bool) : option (res anyhow unit) :=
  configured (client_hysteria2_runtime_config config) (fun c => run_sidecar "Hysteria2" (hysteria2_client_run sy c shutdown polls).1).

Definition run_tuic_client (config : ClientConfig) (shutdown : bool) : option (res anyhow unit) :=
  configured (client_tuic_runtime_config config) (fun c => run_sidecar "TUIC" (tuic_client_run sy c shutdown polls).1).

(** [run]: its result, and the tasks that are alive. *)
Definition client_run (host : ClientHost) (px : ProxyNet) (config : ClientConfig) (shutdown : bool) (evs : list runner_event)
    : option (res anyhow unit) * list client_task :=
  if is_some (k_awg config) then (run_awg_client config shutdown, [])
  else if is_some (k_hysteria2 config) then (run_hysteria2_client config shutdown, [])
  else if is_some (k_tuic config) then (run_tuic_client config shutdown, [])
  else
    match outbound_from_config host px config with
    | Ok _ => runner_loop shutdown (client_tasks config) evs
    | Err e => (Some (Err e), [])
    | Panic => (Some Panic, [])
    end.
End Runner.

(** ** Lemmas *)

(** The outbound of a valid configuration, field by field. *)
Lemma outbound_built host px config r :
  client_validate host config = Ok tt -> k_remote config = Some r ->
  (rt_enabled (rm_tls r) = true -> roots_usable (px_pem px) (px_trust px) (rt_ca_file (rm_tls r))) ->
  (forall kex, client_versions (px_trust px) kex = None) ->
  (forall name, rr_enabled (rm_reality r) = true -> rr_server_name (rm_reality r) = Some name ->
     is_Some (server_name_of (px_net px O) name)) ->
  exists o u h port, outbound_from_config host px config = Ok o
    /\ uuid_parse (rm_uuid r) = Ok u /\ co_uuid o = uuid_bytes u
    /\ (is_Some (co_xhttp o) <-> rx_enabled (rm_xhttp r) = true)
    /\ host_port (rm_server r) h port
    /\ (rt_enabled (rm_tls r) = true -> co_transport o = OutTls {| tls_tcp := tcp_with_policy client_connect_timeout true |})
    /\ dialled_endpoint o =
         (if rt_enabled (rm_tls r) then
            match rt_server_name (rm_tls r) with
            | Some name => Domain name port
            | None => match parse_ip h with Some ip => Ip (SocketAddr_new ip port) | None => Domain h port end
            end
          else match parse_ip h with Some ip => Ip (SocketAddr_new ip port) | None => Domain h port end).
Proof.
  intros Hv Hr Ht Hre Hsn. destruct (valid_endpoint host config r Hv Hr) as (h & port & Hs & Hp & Hsni).
  destruct (valid_uuid host config r Hv Hr) as (u & Hu & Hub). destruct (valid_xhttp host config r Hv Hr) as (x & Hx & Hxe).
  pose proof (valid_tls host config r Hv Hr) as Htls. pose proof (valid_reality host config r Hv Hr) as Hreal.
  destruct (valid_remote host config r Hv Hr) as (_ & _ & Hboth & _).
  unfold outbound_from_config. rewrite Hr. cbn [ok_or mbind res_bind].
  destruct (rr_enabled (rm_reality r)).
  - destruct (rt_enabled (rm_tls r)); [by destruct Hboth|].
    destruct Hreal as (cfg & -> & _ & _ & Hn & _); [done|]. cbn [mbind res_bind]. unfold outbound_reality. rewrite Hre.
    destruct (Hsn _ eq_refl Hn) as [name ->]. cbn [ok_or mbind res_bind]. rewrite Hp. cbn [mbind res_bind]. rewrite Hub. cbn [mbind res_bind].
    rewrite Hx. eexists _, u, h, port. split; [done|]. by split_and!.
  - destruct (rt_enabled (rm_tls r)).
    + destruct Htls as (kex & ->); [done|]. cbn [mbind res_bind]. unfold outbound_tls.
      rewrite outbound_tls_built by (split_and!; [by apply Ht|apply Hre|done]). cbn [mbind res_bind].
      rewrite Hsni, Hp. destruct (rt_server_name (rm_tls r)) as [name|]; cbn [mbind res_bind]; rewrite Hub; cbn [mbind res_bind]; rewrite Hx;
        eexists _, u, h, port; (split; [done|]); by split_and!.
    + cbn [mbind res_bind]. rewrite Hsni, Hp. destruct (rt_server_name (rm_tls r)) as [name|]; cbn [mbind res_bind]; rewrite Hub;
        cbn [mbind res_bind]; rewrite Hx; eexists _, u, h, port; (split; [done|]); by split_and!.
Qed.

(** The handshake on a connection whose peer answers with the response header. *)
Lemma client_handshake_run request s more :
  tx_quota s = None -> rx s = [0; 0] ++ more ->
  client_handshake request s = (Done tt, Stream more (rx_eof s) (tx s ++ request) None).
Proof.
  intros Hq Hrx. unfold client_handshake. apply timeout_done. unfold client_handshake_inner.
  eapply bind_run; [unfold with_context, io_map_err, write_all; by rewrite Hq|].
  eapply bind_run; [by eapply (run_read_ctx _ [0; 0] more)|]. done.
Qed.

Section SessionLemmas.
Context `{ConstantTimeEq}.
Context (open : Endpoint -> outcome anyhow stream).
Context (copy : list (Z * Relay.event) -> option ((res io_error (Z * Z)) + Relay.state)).
Context (relay : list (Z * Relay.event)).

Lemma inbound_connect_only auth r i o : transcript (inbound_config auth) r i o -> Socks5Parse.command r = CMD_CONNECT.
Proof. intros Ht. inversion Ht as [? ? ? ? ? Hc|? ? ? ? ? ? ? ? ? ? Hc]; by destruct Hc as [Hc|[[_ Hf]|[_ Hf]]]. Qed.

Lemma run_relay_keeps s : (run_relay copy relay s).2 = s.
Proof. unfold run_relay. by destruct (copy_bidirectional_with_limits _ _ _ _) as [[[]|]|]. Qed.

(** The reply to the outcome of opening the tunnel, if there is one yet. *)
Definition tunnel_reply (r : outcome anyhow stream) : bytes :=
  match r with
  | Done _ => reply_bytes REP_SUCCEEDED dummy_bound
  | Fail _ => reply_bytes REP_CONNECTION_REFUSED dummy_bound
  | _ => []
  end.

Lemma session_opened socks5 local r i o rest :
  bytes_ok (rx local) -> tx_quota local = None -> transcript socks5 r i o -> rx local = i ++ rest ->
  exists out, handle_session open copy relay socks5 local
    = (out, Stream rest (rx_eof local) (tx local ++ o ++ tunnel_reply (open (Socks5Parse.target r))) None, Some (Socks5Parse.target r)).
Proof.
  intros Hb Hq Ht Hrx. unfold handle_session.
  rewrite (proj2 (negotiate_iff socks5 local r (Stream rest (rx_eof local) (tx local ++ o) None) Hb Hq)) by eauto 10.
  destruct (open (Socks5Parse.target r)) as [remote|e| |]; cbn [tunnel_reply].
  - unfold mbind, io_bind, io_map_err, send_reply. rewrite hwrite_run by done. unfold with_tx. cbn [tx].
    unfold in_session. rewrite run_relay_keeps. eexists. cbn [tx rx rx_eof tx_quota]. by rewrite <- app_assoc.
  - unfold mbind, io_bind. rewrite send_error_run by done. eexists. unfold in_session, with_tx. cbn [fst snd fail tx rx rx_eof tx_quota].
    by rewrite <- app_assoc.
  - eexists. cbn. by rewrite app_nil_r.
  - eexists. cbn. by rewrite app_nil_r.
Qed.

Lemma session_refused socks5 local e s : negotiate socks5 local = (Fail e, s) -> tx_quota s = None ->
  handle_session open copy relay socks5 local
  = (Fail (add_context "SOCKS5 negotiation failed" e), with_tx (tx s ++ reply_bytes REP_GENERAL_FAILURE dummy_bound) s, None).
Proof.
  intros Hn Hq. unfold handle_session. rewrite Hn. unfold mbind, io_bind. by rewrite send_error_run.
Qed.
End SessionLemmas.

(** ** Start and stop of the tunnel *)

Lemma resolve_proxy_calm lookup server : resolve_proxy_ipv4 lookup server <> Panic.
Proof. unfold resolve_proxy_ipv4. cbn zeta. destruct (parse_ip _) as [[]|]; [done..|]. by destruct (lookup _). Qed.

Lemma parse_ipv4_calm v field : parse_ipv4 v field <> Panic.
Proof. unfold parse_ipv4. by destruct (parse_ip v) as [[]|]. Qed.

Lemma parse_bypass_calm l : parse_bypass_list l <> Panic.
Proof.
  pose proof parse_ipv4_calm. assert (parse_all l <> Panic) by (induction l; cbn [parse_all]; calm). unfold parse_bypass_list. calm.
Qed.

Section TunLemmas.
Context (ip : ip_program).

Lemma cmds_bind_calm {A B} (m : cmds A) (f : A -> cmds B) h :
  (m h).1 <> Panic -> (forall a h', (f a h').1 <> Panic) -> ((m ≫= f) h).1 <> Panic.
Proof. unfold mbind, cmds_bind. destruct (m h) as [[]]; cbn; auto. Qed.

Lemma run_ip_calm c h : (run_ip ip c h).1 <> Panic.
Proof. unfold run_ip. destruct (ip h c) as [|[] ? ?]; [done..|]. by case_match. Qed.

Lemma apply_bypass_calm d ips h : (apply_bypass ip d ips h).1 <> Panic.
Proof.
  revert h. induction ips as [|a ips IH]; intros h; cbn [apply_bypass]; [done|]. apply cmds_bind_calm; [apply run_ip_calm|].
  intros _ h'. apply cmds_bind_calm; [apply IH|done].
Qed.

Lemma discover_calm h : (discover_default_route ip h).1 <> Panic.
Proof.
  unfold discover_default_route. destruct (ip h show_default) as [|[] ? ?]; [done| |done]. destruct (List.find _ _); [|done].
  cbn [fst]. unfold parse_default_route_line. by repeat case_match.
Qed.

Lemma guard_apply_calm name address routing proxy h : (guard_apply ip name address routing proxy h).1 <> Panic.
Proof.
  unfold guard_apply. destruct (negb _); [done|].
  apply cmds_bind_calm; [apply parse_ipv4_calm|intros tun h1]. apply cmds_bind_calm; [apply discover_calm|intros d h2].
  apply cmds_bind_calm; [apply parse_bypass_calm|intros bp h3]. apply cmds_bind_calm; [apply apply_bypass_calm|intros rs h4].
  apply cmds_bind_calm; [apply run_ip_calm|intros ? h5]. by apply cmds_bind_calm; [apply run_ip_calm|].
Qed.

End TunLemmas.

Lemma create_device_calm th tun mtu : create_device th tun mtu <> Panic.
Proof. unfold create_device. cbn zeta. calm. Qed.

(** A start that does not succeed fails with an error. *)
Lemma tun_start_calm tls th tun host : (tun_start tls th tun host).1 <> Panic.
Proof.
  unfold tun_start. pose proof (intercept_calm tls (tn_dns tun)). destruct (intercept_from_config _ _) as [dns| |]; cbn [mbind res_bind]; [|done..].
  pose proof (resolve_proxy_calm (th_lookup th) host). destruct (resolve_proxy_ipv4 _ _) as [ips| |]; cbn [mbind res_bind]; [|done..].
  pose proof (guard_apply_calm (th_ip th) (tn_name tun) (tn_address tun) (tn_routing tun) ips []) as Hg.
  destruct (guard_apply _ _ _ _ _ _) as [[guard| |] h]; [|done..].
  pose proof (parse_pmtud_calm (tn_pmtud tun)). destruct (parse_pmtud_mode _) as [mode| |]; cbn [mbind res_bind]; [|done..]. cbn zeta.
  set (mtu := resolve_effective_mtu _ _ _ _ _). pose proof (create_device_calm th tun mtu).
  destruct (create_device th tun mtu) as [dev| |]; cbn [mbind res_bind]; [|done..]. by destruct (th_stack th mtu).
Qed.

Lemma not_ok_err {A} (r : res anyhow A) : r <> Panic -> (forall a, r <> Ok a) -> exists e, r = Err e.
Proof. destruct r; naive_solver. Qed.

(** What a start that succeeds went through. *)
Lemma tun_start_ok tls th tun host t h : tun_start tls th tun host = (Ok t, h) ->
  exists ips, resolve_proxy_ipv4 (th_lookup th) host = Ok ips
    /\ guard_apply (th_ip th) (tn_name tun) (tn_address tun) (tn_routing tun) ips [] = (Ok (ts_guard t), h)
    /\ exists mtu, create_device th tun mtu = Ok (ts_device t).
Proof.
  unfold tun_start. destruct (intercept_from_config _ _) as [dns| |]; cbn [mbind res_bind]; [|done..].
  destruct (resolve_proxy_ipv4 _ _) as [ips| |]; cbn [mbind res_bind]; [|done..].
  destruct (guard_apply _ _ _ _ _ _) as [[guard| |] h0] eqn:Eg; [|done..].
  destruct (parse_pmtud_mode _) as [mode| |]; cbn [mbind res_bind]; [|done..]. cbn zeta.
  destruct (create_device th tun _) as [dev| |] eqn:E; cbn [mbind res_bind]; [|done..]. destruct (th_stack th _); [done|].
  intros [= <- <-]. exists ips. split; [done|]. split; [done|]. eexists. exact E.
Qed.

Lemma add_default_refused ip name address routing proxy h :
  rc_auto routing = true -> (forall h', exists e, (run_ip ip (add_default name (rc_table routing)) h').1 = Err e) ->
  forall g, (guard_apply ip name address routing proxy h).1 <> Ok g.
Proof.
  intros Ha Hip g. unfold guard_apply. rewrite Ha. cbn [negb]. unfold mbind, cmds_bind, lift.
  destruct (parse_ipv4 _ _); [|done..]. destruct (discover_default_route ip h) as [[]]; [|done..].
  destruct (parse_bypass_list _); [|done..]. destruct (apply_bypass ip _ _ _) as [[] h']; [|done..].
  destruct (Hip h') as [e He]. destruct (run_ip ip (add_default _ _) h') as [[] ?]; done.
Qed.

Lemma ipv6_not_ipv4 s a : parse_ip s = Some (V6 a) -> parse_ipv4_addr s = None.
Proof.
  unfold parse_ip, parse_ipv4_addr. destruct (read_ipv4_addr _) as [[ip r]|]; [|done]. by destruct r.
Qed.

(** The tasks that have not ended. *)
Definition unended (ends : list (client_task * res anyhow unit)) (alive : list client_task) : list client_task :=
  List.filter (fun t => negb (bool_decide (t ∈ map fst ends))) alive.

Lemma unended_cons t r ends alive : unended ((t, r) :: ends) alive = unended ends (filter (fun t' => t' <> t) alive).
Proof.
  induction alive as [|a alive IH]; [done|]. unfold unended in *. cbn [List.filter]. rewrite IH. destruct (decide (a = t)) as [->|Hne].
  - rewrite (filter_cons_False (fun t' => t' <> t)) by naive_solver. rewrite bool_decide_true by (by left). done.
  - rewrite (filter_cons_True (fun t' => t' <> t)) by done. cbn [List.filter].
    rewrite (bool_decide_ext (a ∈ map fst ((t, r) :: ends)) (a ∈ map fst ends)); [done|]. cbn [map fst]. rewrite elem_of_cons. naive_solver.
Qed.

Lemma unended_nil alive : unended [] alive = alive.
Proof.
  induction alive as [|a alive IH]; [done|]. unfold unended in *. cbn [List.filter]. rewrite IH. by rewrite bool_decide_false by apply not_elem_of_nil.
Qed.

Lemma runner_after_ends alive ends evs :
  runner_loop false alive (map (fun e => TaskEnds e.1 e.2) ends ++ evs) = runner_loop false (unended ends alive) evs.
Proof.
  revert alive. induction ends as [|[t r] ends IH]; intros alive; cbn [map app runner_loop fst snd]; [by rewrite unended_nil|].
  by rewrite unended_cons, <- IH.
Qed.

(** ** Properties *)

(** C27: a validated configuration starts. For a configuration that passed validation,
    when there is an authority to trust and rustls takes the protocol versions and the server name, the outbound is
    built without an error or a panic: with the bytes of the configured UUID, XHTTP
    exactly when it is enabled, and to be dialled at the configured server, or with
    TLS and a server name at that name. *)
Theorem validated_client_builds (host : ClientHost) (px : ProxyNet) (config : ClientConfig) (r : RemoteConfig)
    (Hv : client_validate host config = Ok tt) (Hr : k_remote config = Some r)
    (Ht : rt_enabled (rm_tls r) = true -> roots_usable (px_pem px) (px_trust px) (rt_ca_file (rm_tls r)))
    (Hre : forall kex, client_versions (px_trust px) kex = None)
    (Hsn : forall name, rr_enabled (rm_reality r) = true -> rr_server_name (rm_reality r) = Some name ->
             is_Some (server_name_of (px_net px O) name)) :
  exists o u h port, outbound_from_config host px config = Ok o
    /\ uuid_parse (rm_uuid r) = Ok u /\ co_uuid o = uuid_bytes u
    /\ (is_Some (co_xhttp o) <-> rx_enabled (rm_xhttp r) = true)
    /\ host_port (rm_server r) h port
    /\ ((rt_enabled (rm_tls r) = false \/ rt_server_name (rm_tls r) = None) ->
        dialled_endpoint o = match parse_ip h with Some ip => Ip (SocketAddr_new ip port) | None => Domain h port end).
Proof.
  destruct (outbound_built host px config r Hv Hr Ht Hre Hsn) as (o & u & h & port & Ho & Hu & Hub & Hx & Hs & _ & Hd).
  exists o, u, h, port. split_and!; [done..|]. rewrite Hd. intros [->| ->]; [done|]. by destruct (rt_enabled _).
Qed.

(** the TLS server name replaces the proxy's address. The documentation says that
    [remote.tls.server_name] is the name for SNI; with TLS enabled the client also
    connects to that name instead of the host of [remote.server], so that a server
    given by address with a certificate for another name is never contacted: when the
    name does not resolve, every connection fails. *)
Theorem tls_server_name_redirects_dial (host : ClientHost) (px : ProxyNet) (config : ClientConfig) (r : RemoteConfig)
    (name : string) (Hv : client_validate host config = Ok tt) (Hr : k_remote config = Some r)
    (Ht : rt_enabled (rm_tls r) = true -> roots_usable (px_pem px) (px_trust px) (rt_ca_file (rm_tls r)))
    (Hre : forall kex, client_versions (px_trust px) kex = None)
    (Hen : rt_enabled (rm_tls r) = true) (Hn : rt_server_name (rm_tls r) = Some name) :
  exists o h port, outbound_from_config host px config = Ok o /\ host_port (rm_server r) h port
    /\ dialled_endpoint o = Domain name port
    /\ (forall e, resolve_endpoint_addrs (lookup_host (px_net px O)) (Domain name port) true = Err e ->
        (proxy_dial px o O).2 = [] /\ forall u, (proxy_dial px o O).1 <> Ok u).
Proof.
  destruct (valid_remote host config r Hv Hr) as (_ & _ & Hboth & _).
  destruct (outbound_built host px config r Hv Hr Ht Hre) as (o & u & h & port & Ho & _ & _ & _ & Hs & Htr & Hd).
  { intros n He. by destruct Hboth. }
  rewrite Hen, Hn in Hd. exists o, h, port. split_and!; [done..|]. intros e He. unfold proxy_dial. rewrite Hd, (Htr Hen).
  cbn [OutboundTcp_connect]. unfold TlsOutbound_connect. destruct (endpoint_server_name _ _); [|done..].
  cbn zeta. unfold TcpTransport_connect. cbn [tls_tcp tcp_allow_private tcp_with_policy]. by rewrite He.
Qed.

(** C20: the local inbound opens exactly what was asked. On a stream that takes every
    write, a session asks the proxy for a tunnel exactly when the application's bytes
    are a complete negotiation under the configured authentication with a CONNECT
    request, for that request's target; the application then gets the answers of the
    negotiation and one reply, a success if the tunnel is open and a refusal if it
    failed, and the bytes after the request are left for the relay. *)
Theorem client_session_exact `{ConstantTimeEq} (open : Endpoint -> outcome anyhow stream)
    (copy : list (Z * Relay.event) -> option ((res io_error (Z * Z)) + Relay.state)) (relay : list (Z * Relay.event))
    (auth : ClientSocks5AuthConfig) (local : stream) (t : Endpoint) (Hb : bytes_ok (rx local)) (Hq : tx_quota local = None) :
  let result := handle_session open copy relay (inbound_config auth) local in
  (result.2 = Some t <->
   exists r i o rest, transcript (inbound_config auth) r i o /\ Socks5Parse.command r = CMD_CONNECT /\ Socks5Parse.target r = t
     /\ rx local = i ++ rest)
  /\ forall r i o rest, transcript (inbound_config auth) r i o -> rx local = i ++ rest ->
     result.1.2 = Stream rest (rx_eof local) (tx local ++ o ++ tunnel_reply (open (Socks5Parse.target r))) None.
Proof.
  cbn zeta. split; [split|].
  - unfold handle_session. destruct (negotiate _ local) as [[r|e| |] s] eqn:En; [|done..].
    intros [= Ht]. apply negotiate_iff in En as (i & o & rest & Htr & Hrx & _); [|done..].
    exists r, i, o, rest. split_and!; [done|by eapply inbound_connect_only|done|done].
  - intros (r & i & o & rest & Htr & _ & Ht & Hrx). destruct (session_opened open copy relay _ local r i o rest Hb Hq Htr Hrx) as [out ->]. cbn. by rewrite Ht.
  - intros r i o rest Htr Hrx. by destruct (session_opened open copy relay _ local r i o rest Hb Hq Htr Hrx) as [out ->].
Qed.

(** C13: from the application to the server. With a valid configuration without XHTTP,
    when the proxy can be dialled and answers with the two bytes of an accepted request,
    and the application's bytes are a SOCKS5 transcript that the inbound accepts, the
    application gets a success reply, and the bytes the client sends over the connection
    to the proxy make the VLESS handshake of a server that has a user with the
    configured UUID and no flow succeed with the TCP command and exactly the target
    asked for, answered with those two bytes, the data after it untouched. *)
Theorem client_to_server_end_to_end `{ConstantTimeEq} (host : ClientHost) (px : ProxyNet) (config : ClientConfig) (r : RemoteConfig)
    (o : ClientOutbound) (up : TcpUpstream) (copy : list (Z * Relay.event) -> option ((res io_error (Z * Z)) + Relay.state))
    (relay : list (Z * Relay.event)) (local : stream) (req : Socks5Request) (i ans rest more data : bytes)
    (server : VlessConfig) (user : VlessUser)
    (Hv : client_validate host config = Ok tt) (Hr : k_remote config = Some r) (Ho : outbound_from_config host px config = Ok o)
    (Hx : rx_enabled (rm_xhttp r) = false) (Hd : (proxy_dial px o O).1 = Ok up)
    (Hs : px_stream px up = Stream ([0; 0] ++ more) false [] None)
    (Hb : bytes_ok (rx local)) (Hq : tx_quota local = None)
    (Ht : transcript (inbound_config (cl_socks5 (k_client config))) req i ans) (Hrx : rx local = i ++ rest)
    (Ha : authenticate server (co_uuid o) = Some user) (Hf : from_option id EmptyString (vu_flow user) = EmptyString) (Hdata : bytes_ok data) :
  exists out sent,
    handle_session (open_tcp px o) copy relay (inbound_config (cl_socks5 (k_client config))) local
      = (out, Stream rest (rx_eof local) (tx local ++ ans ++ reply_bytes REP_SUCCEEDED dummy_bound) None, Some (Socks5Parse.target req))
    /\ open_tcp px o (Socks5Parse.target req) = Done (Stream more false sent None)
    /\ handshake server (Stream (sent ++ data) false [] None)
       = (Done {| hs_command := CMD_TCP; hs_target := Socks5Parse.target req |}, Stream data false [0; 0] None).
Proof.
  assert (Hu : uuid_ok (co_uuid o) /\ co_xhttp o = None).
  { destruct (valid_uuid host config r Hv Hr) as (u & Hu & Hub). destruct (valid_xhttp host config r Hv Hr) as (x & Hxc & Hxe).
    unfold outbound_from_config in Ho. apply bind_ok in Ho as (? & _ & Ho). apply bind_ok in Ho as (? & _ & Ho).
    apply bind_ok in Ho as (? & _ & Ho). apply bind_ok in Ho as (? & _ & Ho). rewrite Hub, Hxc in Ho. injection Ho as <-.
    split; [by eapply uuid_parse_ok|]. destruct x as [x|]; [|done]. assert (rx_enabled (rm_xhttp r) = true) by (apply Hxe; by eexists). congruence. }
  destruct Hu as [Hu Hnx]. assert (He : endpoint_ok (Socks5Parse.target req)).
  { by inversion Ht as [? ? ? ? [_ Hok]|? ? ? ? ? ? ? ? ? [_ Hok]]. }
  set (sent := wire_request {| VlessParse.uuid := co_uuid o; VlessParse.command := CMD_TCP; VlessParse.addons := []; VlessParse.target := Socks5Parse.target req |}).
  assert (Hopen : open_tcp px o (Socks5Parse.target req) = Done (Stream more false sent None)).
  { unfold open_tcp, over_proxy, connect_proxy. rewrite Hnx, Hd, Hs. unfold io_map_err, handshake_tcp.
    rewrite (build_endpoint_wire CMD_TCP build_tcp_endpoint_request) by auto. by rewrite (client_handshake_run _ _ more). }
  destruct (session_opened (open_tcp px o) copy relay _ local req i ans rest Hb Hq Ht Hrx) as [out Hout].
  rewrite Hopen in Hout. exists out, sent. split_and!; [done|done|]. by apply (server_accepts server user); auto.
Qed.

(** a refused command is answered twice. The SOCKS5 handler already replies to a
    BIND or UDP ASSOCIATE request that the inbound does not offer; the session then
    sends a second reply with another code for the same request. *)
Theorem client_refusal_replied_twice `{ConstantTimeEq} (open : Endpoint -> outcome anyhow stream)
    (copy : list (Z * Relay.event) -> option ((res io_error (Z * Z)) + Relay.state)) (relay : list (Z * Relay.event)) (req : Socks5Request)
    (Hok : Socks5Parse.request_ok req)
    (Hc : Socks5Parse.command req = CMD_BIND \/ Socks5Parse.command req = CMD_UDP_ASSOCIATE) :
  let local := Stream (wire_greeting [METHOD_NO_AUTH] ++ Socks5Parse.wire_request req) false [] None in
  exists e, handle_session open copy relay (inbound_config client_socks5_default) local
    = (Fail e, Stream [] false ([SOCKS5_VERSION; METHOD_NO_AUTH] ++ reply_bytes REP_COMMAND_NOT_SUPPORTED dummy_bound
                                ++ reply_bytes REP_GENERAL_FAILURE dummy_bound) None, None).
Proof.
  cbn zeta. set (local := Stream _ _ _ _). set (cfg := inbound_config _).
  assert (Hb : bytes_ok (rx local)).
  { unfold local. cbn [rx]. apply bytes_ok_app. split; [solve_bytes_ok|by apply Socks5.wire_request_ok]. }
  assert (Hn : exists e, negotiate cfg local
    = (Fail e, Stream [] false ([SOCKS5_VERSION; METHOD_NO_AUTH] ++ reply_bytes REP_COMMAND_NOT_SUPPORTED dummy_bound) None)).
  { assert (Hg : read_greeting local = (Done [METHOD_NO_AUTH], with_rx (Socks5Parse.wire_request req) local)).
    { apply read_greeting_iff; [done|]. split; [vm_compute; lia|]. by eexists. }
    destruct Hc as [Hc|Hc]; eexists; unfold negotiate; apply timeout_fail; unfold negotiate_inner;
      (eapply bind_run; [exact Hg|]); (eapply bind_run; [by apply hwrite_run|]); change (select_method [METHOD_NO_AUTH] cfg) with METHOD_NO_AUTH;
      cbn [Z.eqb Pos.eqb METHOD_NO_AUTH METHOD_NO_ACCEPTABLE METHOD_USER_PASS]; (eapply bind_run; [done|]);
      rewrite (read_request_frame cfg _ req []) by (try done; cbn; by rewrite app_nil_r); rewrite Hc;
      cbn [Z.eqb Pos.eqb CMD_BIND CMD_UDP_ASSOCIATE andb negb s5_bind s5_udp_associate cfg inbound_config];
      (eapply bind_run; [by apply send_error_run|]); done. }
  destruct Hn as [e Hn]. eexists. rewrite (session_refused open copy relay cfg local e _ Hn) by done. done.
Qed.

(** a part that fails is not noticed. Whatever the spawned inbounds end with, even
    when the SOCKS5 port cannot be bound and no inbound is left, the client keeps
    running and reports success when it is told to stop. *)
Theorem client_failed_tasks_unnoticed (sy : System) (wg : WgCrates) (polls : list ((string + bool) * bool))
    (host : ClientHost) (px : ProxyNet) (config : ClientConfig) (o : ClientOutbound)
    (ends : list (client_task * res anyhow unit))
    (Hm : k_awg config = None /\ k_hysteria2 config = None /\ k_tuic config = None)
    (Ho : outbound_from_config host px config = Ok o) :
  let evs := map (fun e => TaskEnds e.1 e.2) ends in
  client_run sy wg polls host px config false evs = (None, unended ends (client_tasks config))
  /\ client_run sy wg polls host px config false (evs ++ [SetShutdown true]) = (Some (Ok tt), unended ends (client_tasks config)).
Proof.
  cbn zeta. destruct Hm as (Ha & Hh & Ht). unfold client_run. rewrite Ha, Hh, Ht, Ho. cbn [is_some].
  split; [|by rewrite runner_after_ends]. rewrite <- (app_nil_r (map _ ends)). by rewrite runner_after_ends.
Qed.

(** The `ip` commands of a tunnel's life: those of its start, and of its stop if it
    started. *)
Definition tun_history (tls : TlsSetup) (th : TunHost) (tun : TunConfig) (proxy_host : string) : list command :=
  match tun_start tls th tun proxy_host with
  | (Ok t, h) => tun_stop th t h
  | (_, h) => h
  end.

(** However the tunnel ends after its rules were applied, the commands that follow are
    those of dropping the guard. *)
Lemma tun_history_drops tls th tun proxy_host dns ips g h :
  intercept_from_config tls (tn_dns tun) = Ok dns -> resolve_proxy_ipv4 (th_lookup th) proxy_host = Ok ips ->
  guard_apply (th_ip th) (tn_name tun) (tn_address tun) (tn_routing tun) ips [] = (Ok (Some g), h) ->
  tun_history tls th tun proxy_host = drop_guard (th_ip th) (Some g) h.
Proof.
  intros Hd Hp Hg. unfold tun_history, tun_start. rewrite Hd. cbn [mbind res_bind]. rewrite Hp. cbn [mbind res_bind]. rewrite Hg.
  destruct (parse_pmtud_mode _) as [mode| |]; cbn [mbind res_bind]; [|done..]. cbn zeta.
  destruct (create_device _ _ _) as [dev| |]; cbn [mbind res_bind]; [|done..].
  destruct (th_stack th _); [done|]. unfold tun_stop. cbn [ts_guard].
  destruct (guard_apply_ok _ _ _ _ _ _ _ _ Hg) as (d & address & bypass & dests & _ & _ & _ & _ & _ & ->).
  unfold drop_guard. by rewrite guard_revert_applied.
Qed.

(** C28: applied rules are always undone, once. When the rules of the tunnel have been
    applied, the commands run were a route past the tunnel, by the default route found
    in the system, for exactly the configured addresses and those of the proxy, then
    the default route of the tunnel's table and the rule that leads to that table.
    Whether the tunnel then starts and is stopped, or the MTU mode, the device or the
    userspace stack fails, or the task is aborted, the commands that follow are, once,
    the deletion of that rule, the flush of that table and the deletion of each of
    those routes, and nothing else. *)
Theorem tun_routing_balanced (tls : TlsSetup) (th : TunHost) (tun : TunConfig) (proxy_host : string) (dns : DnsIntercept)
    (ips : list Ipv4Addr) (g : RoutingGuard) (h : list command)
    (Hd : intercept_from_config tls (tn_dns tun) = Ok dns) (Hp : resolve_proxy_ipv4 (th_lookup th) proxy_host = Ok ips)
    (Hg : guard_apply (th_ip th) (tn_name tun) (tn_address tun) (tn_routing tun) ips [] = (Ok (Some g), h)) :
  let table := rc_table (tn_routing tun) in
  exists d address bypass dests,
    discover_default_route (th_ip th) [] = (Ok d, [show_default])
    /\ parse_ipv4 (tn_address tun) "client.tun.address" = Ok address
    /\ parse_all (rc_bypass (tn_routing tun)) = Ok bypass
    /\ (forall a, a ∈ dests <-> a ∈ bypass \/ a ∈ ips)
    /\ let routes := routes_to d dests in
       let applied := [show_default] ++ map add_route routes ++ [add_default (tn_name tun) table; add_rule address table] in
       let undone := [del_rule address table; flush_table table] ++ map del_route routes in
       h = applied
       /\ tun_history tls th tun proxy_host = applied ++ undone
       /\ drop_guard (th_ip th) (Some g) h = applied ++ undone.
Proof.
  cbn zeta. destruct (guard_apply_ok _ _ _ _ _ _ _ _ Hg) as (d & address & bypass & dests & Ht & Hb & Hr & Hm & Hh & Hgd).
  exists d, address, bypass, dests. assert (Hu := tun_history_drops tls th tun proxy_host dns ips g h Hd Hp Hg).
  split_and!; [done|done|done|done|done|rewrite Hu|]; subst g h; unfold drop_guard; rewrite guard_revert_applied; cbn [snd fst guard_revert rg_applied negb]; done.
Qed.

(** automatic routing is set up before its device exists. The commands that route
    through the tunnel's device are run before the device is created, so that where
    `ip` refuses a route through a device that does not exist, a tunnel with
    [routing.auto] never starts. *)
Theorem tun_auto_routing_needs_device (tls : TlsSetup) (th : TunHost) (tun : TunConfig) (proxy_host : string)
    (Ha : rc_auto (tn_routing tun) = true)
    (Hip : forall h, exists out err, th_ip th h (add_default (tn_name tun) (rc_table (tn_routing tun))) = IpDone false out err
             /\ str_contains "File exists" err = false /\ str_contains "RTNETLINK answers: File exists" err = false) :
  exists e, (tun_start tls th tun proxy_host).1 = Err e.
Proof.
  apply not_ok_err; [apply tun_start_calm|]. intros t Ht. destruct (tun_start _ _ _ _) as [r h] eqn:E. cbn in Ht. subst r.
  apply tun_start_ok in E as (ips & _ & Hg & _). apply (f_equal fst) in Hg. revert Hg. apply add_default_refused; [done|].
  intros h'. destruct (Hip h') as (out & err & He & H1 & H2). unfold run_ip. rewrite He, H1, H2. by eexists.
Qed.

(** an IPv6 tunnel address is accepted and then refused. Validation takes any IP
    address for the tunnel, but the device needs IPv4: a tunnel with a valid IPv6
    address, gateway or netmask never starts. *)
Theorem tun_ipv6_refused_late (host : ClientHost) (th : TunHost) (tun : TunConfig) (proxy_host : string) (a : bytes)
    (Hen : tn_enabled tun = true) (Hv : tun_validate host tun = Ok tt)
    (Ha : parse_ip (tn_address tun) = Some (V6 a) \/ parse_ip (tn_gateway tun) = Some (V6 a) \/ parse_ip (tn_netmask tun) = Some (V6 a)) :
  exists e, (tun_start (client_tls host) th tun proxy_host).1 = Err e.
Proof.
  apply not_ok_err; [apply tun_start_calm|]. intros t Ht. destruct (tun_start _ _ _ _) as [r h] eqn:E. cbn in Ht. subst r.
  apply tun_start_ok in E as (ips & _ & _ & mtu & Hc). unfold create_device in Hc.
  apply bind_ok in Hc as (x & H1 & Hc). apply bind_ok in Hc as (y & H2 & Hc). apply bind_ok in Hc as (z & H3 & _).
  apply ok_or_ok in H1, H2, H3. destruct Ha as [Ha|[Ha|Ha]]; apply ipv6_not_ipv4 in Ha; congruence.
Qed.

(** ** Witnesses *)

Definition demo_client_host : ClientHost :=
  {| url_safe_decode := fun _ => inl "invalid symbol"%string; standard_decode := fun _ => inl "invalid symbol"%string;
     client_hex_decode := fun _ => inl "odd length"%string; client_tls := {| ts_roots := [None]; ts_versions := None |} |}.

Definition demo_remote (tls : bool) (name : option string) : RemoteConfig :=
  {| rm_server := "203.0.113.9:443"; rm_uuid := "a0a1a2a3-a4a5-a6a7-a8a9-aaabacadaeaf";
     rm_tls := {| rt_enabled := tls; rt_ca_file := None; rt_server_name := name; rt_kex_mode := default_remote_tls_kex_mode |};
     rm_reality := {| rr_enabled := false; rr_password := None; rr_short_id := None; rr_server_name := None; rr_kex_mode := default_remote_tls_kex_mode |};
     rm_xhttp := {| rx_enabled := false; rx_path := default_remote_xhttp_path; rx_mode := default_remote_xhttp_mode; rx_host := None; rx_x_padding_bytes := None |} |}.

Definition demo_client (remote : RemoteConfig) : ClientConfig :=
  {| k_client := {| cl_listen := Some "127.0.0.1:10808"%string; cl_socks5 := client_socks5_default; cl_tun := tun_default |};
     k_remote := Some remote; k_awg := None; k_hysteria2 := None; k_tuic := None |}.

(** A network where only the proxy's address answers and no name resolves. *)
Definition demo_proxy_net : Net :=
  {| lookup_host := fun _ => inl (IoError OtherKind "no such host");
     tcp_connect := fun a => if bool_decide (a = SockV4 (Ipv4 203 0 113 9) 443) then Connected 7 else Refused (IoError OtherKind "refused");
     set_nodelay := fun _ => None; server_name_of := fun n => Some (DnsName n); tls_handshake := fun _ s => Established s |}.

Definition demo_unit_pem : PemFiles unit :=
  {| pem_certs path := inr (inr [bytes_of_string path]); pem_private_key path := inr (bytes_of_string path);
     any_supported_type _ := None; certified_key _ _ := tt |}.

Definition demo_px : ProxyNet :=
  {| px_net := fun _ => demo_proxy_net; px_pem := demo_unit_pem; px_trust := demo_trust;
     px_stream := fun _ => Stream [0; 0; 9] false [] None; px_conn := fun _ => {| cn_write := None; cn_reads := [] |};
     px_xhttp := fun _ => Stream [] false [] None; px_session := "00"; px_random := fun _ => 0 |}.

Definition demo_outbound : ClientOutbound :=
  {| co_transport := outbound_plain client_connect_timeout; co_proxy_tls := Ip (SockV4 (Ipv4 203 0 113 9) 443);
     co_proxy_tcp := Ip (SockV4 (Ipv4 203 0 113 9) 443); co_uuid := seqZ 0xA0 16; co_xhttp := None |}.

Lemma validated_client_builds_witness :
  exists o u h port, outbound_from_config demo_client_host demo_px (demo_client (demo_remote false None)) = Ok o
    /\ uuid_parse "a0a1a2a3-a4a5-a6a7-a8a9-aaabacadaeaf" = Ok u /\ co_uuid o = uuid_bytes u
    /\ (is_Some (co_xhttp o) <-> false = true) /\ host_port "203.0.113.9:443" h port
    /\ ((false = false \/ None = @None string) ->
        dialled_endpoint o = match parse_ip h with Some ip => Ip (SocketAddr_new ip port) | None => Domain h port end).
Proof.
  apply (validated_client_builds demo_client_host demo_px (demo_client (demo_remote false None)) (demo_remote false None));
    [by vm_compute|reflexivity|intros; discriminate|reflexivity|intros; discriminate].
Defined.

Lemma tls_server_name_redirects_dial_witness :
  exists o h port, outbound_from_config demo_client_host demo_px (demo_client (demo_remote true (Some "proxy.example"%string))) = Ok o
    /\ host_port "203.0.113.9:443" h port /\ dialled_endpoint o = Domain "proxy.example" port.
Proof.
  destruct (tls_server_name_redirects_dial demo_client_host demo_px (demo_client (demo_remote true (Some "proxy.example"%string)))
              (demo_remote true (Some "proxy.example"%string)) "proxy.example") as (o & h & port & H1 & H2 & H3 & _);
    [by vm_compute|reflexivity| |reflexivity..|by exists o, h, port].
  intros _. exists [1]. split; [left|reflexivity].
Defined.

Definition demo_connect : Socks5Request := {| Socks5Parse.command := CMD_CONNECT; Socks5Parse.target := Domain "ya.ru" 80 |}.
Definition demo_local (r : Socks5Request) : stream :=
  Stream (wire_greeting [METHOD_NO_AUTH] ++ Socks5Parse.wire_request r ++ [71; 69; 84]) false [] None.

Lemma demo_transcript : transcript (inbound_config client_socks5_default) demo_connect
  (wire_greeting [METHOD_NO_AUTH] ++ Socks5Parse.wire_request demo_connect) [SOCKS5_VERSION; METHOD_NO_AUTH].
Proof.
  apply transcript_no_auth; [done|vm_compute; lia|by left| |by left]. split; [by left|].
  split; [vm_compute; reflexivity|]. cbn. unfold u16_ok. lia.
Qed.

Lemma client_session_exact_witness :
  (handle_session (open_tcp demo_px demo_outbound) (fun _ => None) [] (inbound_config client_socks5_default) (demo_local demo_connect)).2
    = Some (Domain "ya.ru" 80).
Proof.
  destruct (client_session_exact (open_tcp demo_px demo_outbound) (fun _ => None) [] client_socks5_default (demo_local demo_connect)
              (Domain "ya.ru" 80)) as [[_ H] _]; [solve_bytes_ok|reflexivity|].
  apply H. eexists demo_connect, _, _, [71; 69; 84]. split; [apply demo_transcript|]. split; [reflexivity|]. split; [reflexivity|].
  unfold demo_local. cbn [rx]. by rewrite <- app_assoc.
Defined.

Lemma client_to_server_end_to_end_witness :
  exists sent, open_tcp demo_px demo_outbound (Domain "ya.ru" 80) = Done (Stream [9] false sent None)
    /\ handshake demo_vless (Stream (sent ++ [1; 2]) false [] None)
       = (Done {| hs_command := CMD_TCP; hs_target := Domain "ya.ru" 80 |}, Stream [1; 2] false [0; 0] None).
Proof.
  destruct (client_to_server_end_to_end demo_client_host demo_px (demo_client (demo_remote false None)) (demo_remote false None) demo_outbound
              (UpPlain 7) (fun _ => None) [] (demo_local demo_connect) demo_connect
              (wire_greeting [METHOD_NO_AUTH] ++ Socks5Parse.wire_request demo_connect) [SOCKS5_VERSION; METHOD_NO_AUTH] [71; 69; 84] [9] [1; 2]
              demo_vless demo_user) as (out & sent & _ & H1 & H2).
  - by vm_compute.
  - reflexivity.
  - by vm_compute.
  - reflexivity.
  - by vm_compute.
  - reflexivity.
  - solve_bytes_ok.
  - reflexivity.
  - apply demo_transcript.
  - unfold demo_local. cbn [rx]. by rewrite <- app_assoc.
  - vm_compute. reflexivity.
  - reflexivity.
  - solve_bytes_ok.
  - by exists sent.
Defined.

Lemma client_refusal_replied_twice_witness :
  exists e, handle_session (open_tcp demo_px demo_outbound) (fun _ => None) [] (inbound_config client_socks5_default)
      (Stream (wire_greeting [METHOD_NO_AUTH] ++ Socks5Parse.wire_request {| Socks5Parse.command := CMD_BIND; Socks5Parse.target := Domain "ya.ru" 80 |})
        false [] None)
    = (Fail e, Stream [] false [5; 0; 5; 7; 0; 1; 0; 0; 0; 0; 0; 0; 5; 1; 0; 1; 0; 0; 0; 0; 0; 0] None, None).
Proof.
  apply (client_refusal_replied_twice (open_tcp demo_px demo_outbound) (fun _ => None) []
           {| Socks5Parse.command := CMD_BIND; Socks5Parse.target := Domain "ya.ru" 80 |}); [|by left].
  split; [by right; left|]. split; [vm_compute; reflexivity|]. cbn. unfold u16_ok. lia.
Defined.

(** The SOCKS5 port is taken. *)
Lemma client_failed_tasks_unnoticed_witness :
  (socks5_run (demo_client (demo_remote false None)) (fun _ => Some (IoError OtherKind "address in use")) false []).1
    = Some (Err (Anyhow ["failed to bind client SOCKS5 on 127.0.0.1:10808"; "address in use"]%string))
  /\ client_run (demo_system "none") demo_wg [] demo_client_host demo_px (demo_client (demo_remote false None)) false
       [TaskEnds TaskSocks5 (Err (Anyhow ["failed to bind client SOCKS5 on 127.0.0.1:10808"; "address in use"]%string))] = (None, []).
Proof.
  split; [by vm_compute|].
  apply (client_failed_tasks_unnoticed (demo_system "none") demo_wg [] demo_client_host demo_px (demo_client (demo_remote false None)) demo_outbound
           [(TaskSocks5, Err (Anyhow ["failed to bind client SOCKS5 on 127.0.0.1:10808"; "address in use"]%string))]);
    [by split|by vm_compute].
Defined.

Definition demo_tun (address : string) : TunConfig :=
  {| tn_enabled := true; tn_name := "skadi0"; tn_address := address; tn_gateway := "10.0.0.1"; tn_netmask := "255.255.255.0";
     tn_mtu := 1400; tn_pmtud := "static"; tn_mtu_overhead := 100; tn_routing := demo_routing; tn_dns := tun_dns_default |}.

Definition demo_tun_host (ip : ip_program) : TunHost :=
  {| th_lookup := fun _ => inl (IoError OtherKind "no such host"); th_ip := ip; th_probe := demo_probe 1500;
     th_create := fun _ => Some "Operation not permitted"%string; th_stack := fun _ => None |}.

Lemma tun_routing_balanced_witness :
  exists d address (bypass dests : list Ipv4Addr), (forall a, a ∈ dests <-> a ∈ bypass \/ a ∈ [Ipv4 203 0 113 9])
    /\ tun_history (client_tls demo_client_host) (demo_tun_host (demo_ip [])) (demo_tun "10.0.0.2") "203.0.113.9:443"
       = ([show_default] ++ map add_route (routes_to d dests) ++ [add_default "skadi0" 100; add_rule address 100])
         ++ [del_rule address 100; flush_table 100] ++ map del_route (routes_to d dests).
Proof.
  destruct (tun_routing_balanced (client_tls demo_client_host) (demo_tun_host (demo_ip [])) (demo_tun "10.0.0.2") "203.0.113.9:443"
           {| di_handler := Some (UdpForward (SockV4 (Ipv4 8 8 8 8) 53)); di_block_system_dot := true; di_block_system_doh := true |}
           [Ipv4 203 0 113 9] demo_guard demo_applied.2) as (d & address & bypass & dests & _ & _ & _ & Hm & _ & Hh & _); [by vm_compute..|].
  exists d, address, bypass, dests. by split.
Defined.

(** Everything works except a route through the missing device. *)
Definition no_device : ip_program := fun _ c =>
  if bool_decide (c = show_default) then IpDone true ("default via 192.168.1.1 dev eth0 proto dhcp" +:+ nl) EmptyString
  else if bool_decide (c = add_default "skadi0" 100) then IpDone false EmptyString "Cannot find device skadi0"
  else IpDone true EmptyString EmptyString.

Lemma tun_auto_routing_needs_device_witness :
  exists e, (tun_start (client_tls demo_client_host) (demo_tun_host no_device) (demo_tun "10.0.0.2") "203.0.113.9:443").1 = Err e.
Proof.
  apply (tun_auto_routing_needs_device (client_tls demo_client_host) (demo_tun_host no_device) (demo_tun "10.0.0.2") "203.0.113.9:443");
    [reflexivity|]. intros h. exists EmptyString, "Cannot find device skadi0"%string. split_and!; by vm_compute.
Defined.

Lemma tun_ipv6_refused_late_witness :
  tun_validate demo_client_host (demo_tun "fd00::2") = Ok tt
  /\ exists e, (tun_start (client_tls demo_client_host) (demo_tun_host no_device) (demo_tun "fd00::2") "203.0.113.9:443").1 = Err e.
Proof.
  split; [by vm_compute|].
  eapply (tun_ipv6_refused_late demo_client_host (demo_tun_host no_device) (demo_tun "fd00::2") "203.0.113.9:443");
    [reflexivity|by vm_compute|left; vm_compute; reflexivity].
Defined.
