(* ===== verification/Cli.v ===== *)
(** * The command line
    Models crates/skadi-server/src/main.rs (the commands and what each of them does
    with the configuration) and genkey.rs (the keys that are printed). clap's parsing
    is left out: a command is a value; the encoders and the random numbers are
    parameters. *)

From Stdlib Require Import Ascii String.
From stdpp Require Import base list list_numbers numbers strings pretty gmap.
From S2P Require Import Prelude Core Io NetText Tls Hello Reality RealityCert.
From S2P Require Import External Config ConfigSpec OutboundTls Startup Lifecycle.
From S2P Require Import ClientDns ClientRouting ClientTun ClientConfig ClientConfigSpec Client.

(** ** genkey.rs *)

(** The engines [STANDARD] and [URL_SAFE_NO_PAD] of the base64 crate. *)
Record Base64 := { standard_encode : bytes -> string; url_safe_no_pad_encode : bytes -> string }.

Section Genkey.
Context `{RealityCrypto} (b64 : Base64).

Definition reality_client_password (public : bytes) : string := url_safe_no_pad_encode b64 public.

(** The values that are printed. *)
Record RealityKeys := { rk_private_b64 : string; rk_password : string; rk_short_id_hex : string }.

Definition reality_keys (secret short_id : bytes) : RealityKeys :=
  {| rk_private_b64 := standard_encode b64 secret;
     rk_password := reality_client_password (x25519_public secret);
     rk_short_id_hex := hex_encode short_id |}.

Definition generate_reality_keys (secret short_id : bytes) : list string :=
  let k := reality_keys secret short_id in
  [ "REALITY keypair generated:";
    "  private_key = " +:+ quoted (rk_private_b64 k);
    "  password    = " +:+ quoted (rk_password k) +:+ "  # client: Xray/Nekoray/v2rayNG";
    "  short_ids   = [" +:+ quoted (rk_short_id_hex k) +:+ "]";
    EmptyString;
    "Example [transport.reality] section:";
    "[transport.reality]";
    "enabled = true";
    "dest = " +:+ quoted "www.microsoft.com:443";
    "server_names = [" +:+ quoted "www.microsoft.com" +:+ "]";
    "private_key = " +:+ quoted (rk_private_b64 k);
    "short_ids = [" +:+ quoted (rk_short_id_hex k) +:+ "]";
    EmptyString;
    "Client (Xray / Nekoray / v2rayNG):";
    "  security = reality";
    "  serverName = <one of server_names>";
    "  password = " +:+ quoted (rk_password k);
    "  shortId = " +:+ quoted (rk_short_id_hex k);
    "  fingerprint = chrome";
    "  # Do not use flow=xtls-rprx-vision (unsupported)" ]%string.
End Genkey.

(** [generate_keypair] of awg/keys.rs: keys are their texts. *)
Definition generate_keypair (host : ConfigHost) (private : string) : string * string := (private, wg_public_of host private).

Definition generate_awg_keys (host : ConfigHost) (private : string) : list string :=
  let '(private_key, public_key) := generate_keypair host private in
  [ "AmneziaWG keypair generated:";
    "  private_key = " +:+ quoted private_key;
    "  public_key  = " +:+ quoted public_key;
    EmptyString;
    "Example [transport.awg] section:";
    "[transport.awg]";
    "enabled = true";
    "listen = " +:+ quoted "0.0.0.0:51820";
    "private_key = " +:+ quoted private_key;
    "address = " +:+ quoted "10.8.0.1/24";
    EmptyString;
    "[[transport.awg.peers]]";
    "public_key = " +:+ quoted "<client-public-key>";
    "allowed_ips = [" +:+ quoted "10.8.0.2/32" +:+ "]";
    EmptyString;
    "Client peer section (mirror server keys):";
    "  PrivateKey = <client-private-key>";
    "  PublicKey  = " +:+ quoted public_key +:+ "  # server";
    "  Endpoint   = <server-host>:51820";
    EmptyString;
    "Requires: amneziawg-go + awg (amneziawg-tools). Set AWG_GO_BINARY / AWG_TOOLS_BINARY if not in PATH." ]%string.

(** ** main.rs *)

Inductive GenkeyKind := RealityKind | AwgKind.

Inductive Command :=
| RunCommand
| ClientCommand
| CheckConfigCommand
| GenkeyCommand (kind : GenkeyKind)
| ExportAwgClientCommand (peer : nat) (client_key endpoint output : string).

Record Cli := { cli_command : option Command; cli_config : string }.

(** What a command asks of the outside besides the configuration's files. *)
Record CliEnv := {
  ce_random_secret : bytes;
  ce_random_short_id : bytes;
  ce_random_wg : string;
  ce_b64 : Base64;
  (** the error of [std::fs::write] *)
  ce_write : string -> string -> option string;
  (** the error of [init_tracing] *)
  ce_tracing : option anyhow;
  ce_client_toml : string -> string + ClientConfig;
  ce_client_host : ClientHost
}.

(** What a command leads to: lines printed, a file written before them, the server or
    the client with its configuration. *)
Inductive cli_outcome :=
| Prints (lines : list string)
| WritesFile (path text : string) (lines : list string)
| RunsServer (config : Config)
| RunsClient (config : ClientConfig).

Section Main.
Context `{RealityCrypto}.
Context (toml : string -> string + Config) (files : ConfigHost) (ce : CliEnv).

Definition init_tracing : res anyhow unit := match ce_tracing ce with Some e => Err e | None => Ok tt end.

Definition load_config (path : string) : res anyhow Config :=
  map_err (add_context ("failed to load config from " +:+ quoted path)) (load files toml path).

Definition run_server (cli : Cli) : res anyhow cli_outcome :=
  config ← load_config (cli_config cli);
  Ok (RunsServer config).

Definition cli_run_client (cli : Cli) : res anyhow cli_outcome :=
  config ← map_err (add_context ("failed to load client config from " +:+ quoted (cli_config cli)))
             (client_load (ce_client_host ce) (read_to_string files) (ce_client_toml ce) (cli_config cli));
  Ok (RunsClient config).

Definition export_awg_client (cli : Cli) (peer : nat) (client_key endpoint output : string) : res anyhow cli_outcome :=
  config ← load_config (cli_config cli);
  conf ← export_awg_client_conf files config peer client_key endpoint;
  match ce_write ce output conf with
  | Some e => Err (Anyhow [("failed to write " +:+ quoted output); e])
  | None => Ok (WritesFile output conf ["AWG client config written to " +:+ output])
  end.

Definition main (cli : Cli) : res anyhow cli_outcome :=
  match cli_command cli with
  | Some CheckConfigCommand => lines ← Lifecycle.check_config toml (cli_config cli) files; Ok (Prints lines)
  | Some (GenkeyCommand RealityKind) => Ok (Prints (generate_reality_keys (ce_b64 ce) (ce_random_secret ce) (ce_random_short_id ce)))
  | Some (GenkeyCommand AwgKind) => Ok (Prints (generate_awg_keys files (ce_random_wg ce)))
  | Some (ExportAwgClientCommand peer client_key endpoint output) => export_awg_client cli peer client_key endpoint output
  | Some ClientCommand => _ ← init_tracing; cli_run_client cli
  | Some RunCommand | None => _ ← init_tracing; run_server cli
  end.
End Main.

(** ** The printed sections *)

(** The example section of the output, the other keys at their defaults. *)
Definition printed_reality (k : RealityKeys) : Config.RealityConfig :=
  {| rl_enabled := true; rl_dest := Some "www.microsoft.com:443"%string; rl_server_names := ["www.microsoft.com"%string];
     rl_private_key := Some (rk_private_b64 k); rl_short_ids := [rk_short_id_hex k];
     rl_impersonate_cert := None; rl_fetch_impersonate_cert := true; rl_kex_mode := default_tls_kex_mode |}.

Definition printed_remote (k : RealityKeys) : RemoteRealityConfig :=
  {| rr_enabled := true; rr_password := Some (rk_password k); rr_short_id := Some (rk_short_id_hex k);
     rr_server_name := Some "www.microsoft.com"%string; rr_kex_mode := default_remote_tls_kex_mode |}.

(** The decoders of both sides undo the encoders on the printed values. *)
Record decodes `{RealityCrypto} (b64 : Base64) (files : ConfigHost) (chost : ClientHost) (secret short_id : bytes) : Prop := {
  dec_secret : base64_decode files (trim (standard_encode b64 secret)) = inr secret;
  dec_password : url_safe_decode chost (url_safe_no_pad_encode b64 (x25519_public secret)) = inr (x25519_public secret);
  dec_server_id : hex_decode files (hex_encode short_id) = inr short_id;
  dec_client_id : client_hex_decode chost (hex_encode short_id) = inr short_id
}.

Section Printed.
Context `{RealityCrypto} (b64 : Base64) (files : ConfigHost) (chost : ClientHost) (secret short_id : bytes).
Context (Hdec : decodes b64 files chost secret short_id) (Hsecret : length secret = 32%nat) (Hid : length short_id = 8%nat).

Lemma printed_server c :
  tr_reality (c_transport c) = printed_reality (reality_keys b64 secret short_id) ->
  validate_reality files c = Ok tt
  /\ exists cfg, reality_server_config files c = Ok cfg /\ rs_private_key cfg = secret /\ rs_short_ids cfg = [short_id].
Proof.
  intros Hc. assert (Hv : validate_reality files c = Ok tt).
  { apply validate_reality_ok. rewrite Hc. unfold reality_checked, reality_ok, key32, impersonate_ok.
    cbn [printed_reality reality_keys rl_dest rl_server_names rl_private_key rl_short_ids rl_kex_mode rl_impersonate_cert rk_private_b64 rk_short_id_hex].
    split_and!; try done.
    - eexists. split_and!; [done|done|]. by eexists _, _.
    - eexists _, secret. split_and!; [done|apply Hdec|done].
    - apply Forall_singleton. exists short_id. split; [apply Hdec|lia].
    - by left. }
  split; [done|]. unfold reality_server_config. rewrite Hc.
  cbn [printed_reality reality_keys rl_dest rl_server_names rl_private_key rl_short_ids rl_kex_mode rl_impersonate_cert rk_private_b64 rk_short_id_hex].
  cbn [unwrap mbind res_bind]. rewrite (proj2 (decode_base64_ok files _ _ secret)) by (split; [apply Hdec|done]).
  cbn [mbind res_bind collect]. rewrite (proj2 (hex_bytes_ok files _ _ short_id)) by apply Hdec. cbn [mbind res_bind].
  by eexists.
Qed.

Lemma printed_client k r :
  k_remote k = Some r -> rm_reality r = printed_remote (reality_keys b64 secret short_id) ->
  parse_reality_client chost (rm_reality r) = Ok tt
  /\ exists cfg, reality_tls_client_config chost k = Ok cfg
       /\ rlc_server_public_key cfg = x25519_public secret /\ rlc_short_id cfg = short_id.
Proof.
  intros Hk Hr. split.
  - apply parse_reality_client_ok. rewrite Hr. unfold remote_reality_ok. cbn [printed_remote rr_password rr_short_id rr_server_name rr_kex_mode].
    eexists _, _, _, (x25519_public secret), short_id. split_and!; try done; [left; apply Hdec|apply x25519_public_length|apply Hdec|lia|lia|by left].
  - unfold reality_tls_client_config, the_remote. rewrite Hk. cbn [ok_or mbind res_bind]. rewrite Hr.
    cbn [printed_remote rr_enabled rr_password rr_short_id rr_server_name rr_kex_mode negb bail_if ok_or mbind res_bind].
    rewrite (proj2 (decode_public_key_ok chost _ (x25519_public secret))) by (split; [left; apply Hdec|apply x25519_public_length]).
    cbn [mbind res_bind]. rewrite (proj2 (decode_short_id_ok chost _ short_id)) by (split; [apply Hdec|lia]).
    cbn [mbind res_bind]. rewrite x25519_public_length. cbn [Nat.eqb mbind res_bind]. by eexists.
Qed.
End Printed.

(** ** Properties *)

(** C25: the printed keys work. For every secret and short id that [genkey] draws, the
    printed [transport.reality] section passes validation and the printed password and
    short id are accepted by the client; the server then holds the secret and the
    short id, the client the matching public key and the same short id, and the server
    recognises every hello the client seals, with the client's key (when the session
    id does not also occur earlier in the message). *)
Theorem genkey_pair_authenticates `{RealityCrypto} (b64 : Base64) (files : ConfigHost) (chost : ClientHost)
    (secret short_id : bytes) (c : Config) (k : ClientConfig) (r : RemoteConfig)
    (Hdec : decodes b64 files chost secret short_id) (Hsecret : length secret = 32%nat) (Hid : length short_id = 8%nat)
    (Hc : tr_reality (c_transport c) = printed_reality (reality_keys b64 secret short_id))
    (Hk : k_remote k = Some r) (Hr : rm_reality r = printed_remote (reality_keys b64 secret short_id)) :
  validate_reality files c = Ok tt /\ parse_reality_client chost (rm_reality r) = Ok tt
  /\ exists server client, reality_server_config files c = Ok server /\ reality_tls_client_config chost k = Ok client
    /\ forall eph slot ts h,
      let settings := {| cs_server_public_key := rlc_server_public_key client; cs_short_id := rlc_short_id client; cs_eph_secret := eph |} in
      hello_ok h -> length (h_session h) = 32%nat -> length ts = 4%nat ->
      (scan None None (h_exts h)).1 = Some (x25519_public eph) ->
      exists key sid,
        apply_client_hello (encode_handshake h) (h_random h) ts settings slot = (Ok sid, Some key)
        /\ (str_find (hex_encode sid) (hex_encode (encode_handshake (with_session h sid))) = Some 78%nat ->
            exists info, parse_client_hello (encode_record (with_session h sid)) = Ok (Some info)
              /\ verify_client_reality info (encode_record (with_session h sid)) (rs_private_key server) (rs_short_ids server)
                 = Ok (Some key)).
Proof.
  destruct (printed_server b64 files chost secret short_id Hdec Hsecret Hid c Hc) as (Hv & server & Hs & Hsk & Hsi).
  destruct (printed_client b64 files chost secret short_id Hdec Hsecret Hid k r Hk Hr) as (Hp & client & Hcl & Hck & Hci).
  split_and!; [done..|]. exists server, client. split_and!; [done..|]. intros eph slot ts h settings Hok Hse Ht Hsh.
  destruct (hello_recognised settings slot (rs_private_key server) (rs_short_ids server) ts h) as (key & sid & Ha & _ & Hrec); try done.
  - cbn. by rewrite Hck, Hsk.
  - cbn. rewrite Hci, Hsi. by left.
  - cbn. by rewrite Hci.
  - by exists key, sid.
Qed.

(** the commands agree on the configuration. [check-config] succeeds exactly when
    [run] (also without a command) gets to run the server, which is then a
    configuration that passed validation; the export of a client file succeeds only
    for such a configuration and writes just the exported text; no command panics
    while loading. *)
Theorem commands_agree `{RealityCrypto} (toml : string -> string + Config) (files : ConfigHost) (ce : CliEnv) (path : string)
    (Ht : ce_tracing ce = None) :
  let go command := main toml files ce {| cli_command := command; cli_config := path |} in
  go None = go (Some RunCommand)
  /\ ((exists lines, go (Some CheckConfigCommand) = Ok (Prints lines)) <-> exists c, go None = Ok (RunsServer c))
  /\ (forall o, go None = Ok o -> exists c, o = RunsServer c /\ validate files c = Ok tt)
  /\ (forall peer key endpoint output o, go (Some (ExportAwgClientCommand peer key endpoint output)) = Ok o ->
      exists c conf, go None = Ok (RunsServer c) /\ export_awg_client_conf files c peer key endpoint = Ok conf
        /\ o = WritesFile output conf ["AWG client config written to " +:+ output])
  /\ go None <> Panic /\ go (Some CheckConfigCommand) <> Panic /\ go (Some ClientCommand) <> Panic.
Proof.
  intros go. unfold go, main, init_tracing, run_server, cli_run_client, export_awg_client, load_config, Lifecycle.check_config.
  cbn [cli_command cli_config]. rewrite Ht. cbn [mbind res_bind].
  assert (Hp : load files toml path <> Panic).
  { unfold load. destruct (read_to_string _ _); [done|]. destruct (toml _); [done|]. pose proof validate_calm. calm. }
  assert (Hcp : client_load (ce_client_host ce) (read_to_string files) (ce_client_toml ce) path <> Panic).
  { unfold client_load. destruct (read_to_string _ _); [done|]. destruct (ce_client_toml ce _); [done|]. pose proof client_validate_calm. calm. }
  assert (Hv : forall c, load files toml path = Ok c -> validate files c = Ok tt).
  { intros c. unfold load. destruct (read_to_string _ _); [done|]. destruct (toml _) as [|c']; [done|].
    destruct (validate files c') as [[]| |] eqn:E; [|done..]. by intros [= <-]. }
  split_and!; [done|..].
  - destruct (load files toml path) as [c| |]; cbn [map_err mbind res_bind]; [|naive_solver..]. split; intros _; by eexists.
  - destruct (load files toml path) as [c| |]; cbn [map_err mbind res_bind]; [|done..]. intros o [= <-]. eauto.
  - intros peer key endpoint output o. destruct (load files toml path) as [c| |]; cbn [map_err mbind res_bind]; [|done..].
    destruct (export_awg_client_conf _ _ _ _ _) as [conf| |] eqn:He; cbn [mbind res_bind]; [|done..].
    destruct (ce_write ce output conf); [done|]. intros [= <-]. eauto.
  - by destruct (load files toml path).
  - by destruct (load files toml path).
  - by destruct (client_load _ _ _ path).
Qed.

(** ** Witnesses *)

Definition demo_b64 : Base64 := {| standard_encode := hex_encode; url_safe_no_pad_encode := hex_encode |}.

(** A decoder that knows one text. *)
Definition decode_one (value : bytes) (text : string) : string + bytes :=
  if bool_decide (text = hex_encode value) then inr value else inl "invalid"%string.

Definition genkey_secret : bytes := seqZ 1 32.
Definition genkey_short_id : bytes := seqZ 17 8.
Definition genkey_keys : RealityKeys := reality_keys demo_b64 genkey_secret genkey_short_id.

Definition genkey_files : ConfigHost :=
  {| is_file := is_file demo_host; open_file := open_file demo_host; read_file := read_file demo_host;
     read_to_string _ := inr "x"%string; pem_slice := pem_slice demo_host; base64_decode := decode_one genkey_secret;
     hex_decode := decode_one genkey_short_id; wg_public_of := wg_public_of demo_host; wg := wg demo_host |}.

Definition genkey_client_host : ClientHost :=
  {| url_safe_decode := decode_one (x25519_public genkey_secret); standard_decode := fun _ => inl "invalid"%string;
     client_hex_decode := decode_one genkey_short_id; client_tls := client_tls demo_client_host |}.

Definition genkey_server : Config :=
  let c := demo_config "example.com" in
  {| c_server := c_server c; c_protocol := c_protocol c;
     c_transport := {| tr_tls := tr_tls (c_transport c); tr_reality := printed_reality genkey_keys; tr_xhttp := xhttp_file_default;
                       tr_awg := awg_file_default; tr_hysteria2 := hysteria2_file_default; tr_tuic := tuic_file_default |};
     c_api := c_api c; c_metrics := c_metrics c; c_outbound := c_outbound c |}.

Definition genkey_remote : RemoteConfig :=
  let r := demo_remote false None in
  {| rm_server := rm_server r; rm_uuid := rm_uuid r; rm_tls := rm_tls r; rm_reality := printed_remote genkey_keys; rm_xhttp := rm_xhttp r |}.

Lemma genkey_decodes : decodes demo_b64 genkey_files genkey_client_host genkey_secret genkey_short_id.
Proof. constructor; vm_compute; reflexivity. Qed.

(** The client's ephemeral secret, in whose hello the key share is. *)
Lemma genkey_pair_authenticates_witness :
  exists server key sid info,
    reality_server_config genkey_files genkey_server = Ok server
    /\ apply_client_hello (encode_handshake demo_hello) (h_random demo_hello) [0; 0; 0; 9]
         {| cs_server_public_key := x25519_public genkey_secret; cs_short_id := genkey_short_id; cs_eph_secret := demo_client_secret |} None
       = (Ok sid, Some key)
    /\ verify_client_reality info (encode_record (with_session demo_hello sid)) (rs_private_key server) (rs_short_ids server) = Ok (Some key).
Proof.
  destruct (genkey_pair_authenticates demo_b64 genkey_files genkey_client_host genkey_secret genkey_short_id genkey_server
    (demo_client genkey_remote) genkey_remote) as (_ & _ & server & client & Hs & Hc & Hgo).
  - exact genkey_decodes.
  - reflexivity.
  - reflexivity.
  - reflexivity.
  - reflexivity.
  - reflexivity.
  - vm_compute in Hc. injection Hc as <-.
    destruct (Hgo demo_client_secret None [0; 0; 0; 9] demo_hello) as (key & sid & Ha & Hr).
    + exact demo_hello_ok.
    + reflexivity.
    + reflexivity.
    + vm_compute. reflexivity.
    + destruct Hr as (info & _ & Hv); [vm_compute in Ha; injection Ha as <- <-; vm_compute; reflexivity|].
      exists server, key, sid, info. split; [exact Hs|]. split; [exact Ha|exact Hv].
Defined.

Definition demo_cli_env : CliEnv :=
  {| ce_random_secret := genkey_secret; ce_random_short_id := genkey_short_id; ce_random_wg := "key"%string; ce_b64 := demo_b64;
     ce_write _ _ := None; ce_tracing := None; ce_client_toml _ := inr (demo_client genkey_remote); ce_client_host := genkey_client_host |}.

Lemma commands_agree_witness :
  exists lines, main (fun _ => inr (demo_config "example.com")) (demo_files "x") demo_cli_env
    {| cli_command := Some CheckConfigCommand; cli_config := "f" |} = Ok (Prints lines).
Proof.
  destruct (commands_agree (fun _ => inr (demo_config "example.com")) (demo_files "x") demo_cli_env "f" eq_refl) as (_ & H & _).
  apply H. eexists. vm_compute. reflexivity.
Defined.
